(* ===== verification/_CoqProject ===== *)
-Q . S2P
Prelude.v
GoStd.v
GoErr.v
Participant.v
Errors.v
Types.v
Protocol.v
Refer.v
CallState.v
CallCommon.v
Monitor.v
Sealer.v
InboundAuth.v
SipInbound.v
Uas.v
SipOutbound.v
Uac.v
OutboundCall.v
DialWire.v
InboundCall.v
Manager.v
InviteWire.v
Registry.v
Transfers.v
Client.v
Requests.v
NetIP.v
RtpConn.v
SipTest.v
Dispatch.v
Signaling.v
CallApi.v
MediaStats.v
Stats.v
MediaPipeline.v
MediaChain.v
MediaPort.v
Room.v
CallMedia.v
Config.v
Service.v
Boot.v
Metrics.v
Tracing.v
Opus.v
Prompts.v
