(* ===== verification/Prelude.v ===== *)
(** * Verification of the LiveKit SIP bridge (repository livekit/sip)

    The program bridges telephone calls and LiveKit rooms.  A SIP peer calls in
    (INVITE), is authenticated and dispatched to a room by a control plane, and the
    audio of its RTP stream is mixed with the room's; or the control plane asks for an
    outbound call, which is dialed and joined to a room in the same way.  Calls can be
    transferred (REFER).  Every call is reported to the control plane and counted in
    metrics.

    ** How the code is modelled

    Code that changes state is a function of a small state monad with a trace
    ([M S E A := S -> A * S * list E], below): the state is the record of the Go
    struct, the trace is what the code does to the outside (requests and responses sent,
    RPC calls, metrics, goroutines started).  What the outside answers (a response, an
    error of a library call, the time) is an argument.  Where several goroutines meet, the
    component is an inductive step relation with one step per synchronized access, and the
    theorems are about its reachable states.  Errors are trees ([GoErr]); integers are
    [Z] with their wrap-around written out ([u64], [i16], ...); maps are [gmap]s.

    ** Files, in order of dependency, and the code they model (under src/)

    Foundations: [Prelude] (monad, rules [mspec]/[mrel]/[mtrace], tactics, the hint database
    [go]), [GoStd] (what is used of strings, strconv, net), [GoErr] (errors), [NetIP]
    (net/netip).

    Signaling.
    - [Participant]: pkg/stats/termination.go, pkg/sip/participant.go.
    - [Errors]: pkg/sip/errors.go, pkg/errors/errors.go: the verdict on a failed INVITE.
    - [Types]: pkg/sip/types.go: URIs, tags, headers and attributes.
    - [Protocol]: pkg/sip/protocol.go: statuses, BYE, REFER, NOTIFY, Reason, sipResponse.
    - [Refer]: waitReferResult and handleReferNotify of protocol.go on the channel that all
      transfers of a call share, as a transition system.
    - [CallState]: pkg/sip/analytics.go, signaling_events.go.  [CallCommon]:
      signaling_timestamps.go.  [Monitor], [Metrics]: pkg/stats/monitor.go.
    - [Sealer]: pkg/sealer/sealer.go, pkg/sip/digest_nonce.go.  [InboundAuth]: the digest
      authentication of pkg/sip/inbound.go.
    - [SipInbound], [SipOutbound]: the dialogs sipInbound (inbound.go) and sipOutbound
      (outbound.go).  [Uas], [Uac]: what a callee and a caller may send, as transition
      systems with their languages, and the simulations of the dialogs by them.  [Signaling]:
      the interface of that name (protocol.go) as a class with laws, its two instances and
      its users in types.go and rpc.go.  [Requests]: the headers of the requests of a dialog.
      [InboundCall], [OutboundCall]: the calls on top of them.  [InviteWire], [DialWire]: the
      calls and the call manager composed with [Uas] and [Uac].
    - [Manager]: pkg/sip/manager.go and the request handlers of inbound.go.  [Registry]: the
      maps of calls of manager.go as a transition system.  [Transfers]:
      the transfers of pkg/sip/service.go.  [Client]: pkg/sip/client.go, media_codecs.go.
      [Dispatch]: pkg/service/psrpc.go, pkg/sip/rpc.go.  [CallApi]: the requests of the
      control plane to a call (creating a participant, ending a call) and the headers and
      attributes a call carries, across client.go, inbound.go, outbound.go and rpc.go.
    - [SipTest]: pkg/siptest/client.go, the SIP client of the integration tests, as the
      other end of the dialogs.

    Media.
    - [MediaStats]: silence_filler.go, media.go, media_latency.go, signal_logger.go.
      [Stats]: the snapshot and the rates of media.go, media_port.go and room.go.
    - [MediaPipeline]: udpConn of media_port.go, media_pipeline.go.
    - [MediaChain]: what a packet or a frame does in the chains that [MediaPipeline] builds:
      the counting, latency and statistics wrappers of media.go and media_latency.go, the
      levels and options of signal_logger.go.
    - [MediaPort]: media_port.go (negotiation, timeout, closing), draining_port.go.
    - [Opus]: pkg/media/opus/opus.go.  [RtpConn]: pkg/media/rtpconn/conn.go.
    - [Prompts]: res/embed.go, media_file.go and playAudio of inbound.go, with the arrays
      that the calls share.
    - [Room]: pkg/sip/room.go.
    - [CallMedia]: the port and the room of an inbound call together (inbound.go), with
      dialtone.go and the codec names of media_codecs.go.

    Process.
    - [Config]: pkg/config/config.go, tls.go, pkg/sip/config.go, pkg/sip/tls.go, the
      configuration part of NewService and getConfig of cmd/livekit-sip/main.go.
    - [Service]: pkg/sip/server.go, the life cycle of pkg/sip/service.go,
      pkg/service/service.go, the signals of cmd/livekit-sip/main.go.
    - [Boot]: runService of cmd/livekit-sip/main.go, which builds and starts all parts, the
      construction of the call manager (manager.go), Start and Stop of client.go.
    - [Tracing]: pkg/sip/otel.go.

    ** What the theorems show

    - A call ends once and leaves nothing behind: [InboundCall.handleInvite_leaves_nothing],
      [OutboundCall.outbound_ends_once], [DialWire.connectSIP_no_zombie]; the maps of the node
      hold exactly the calls that are up and not yet deleted, where no other call has the same
      tag ([Registry.registry_exact]); a call is reported and counted exactly
      ([Manager.processInvite_reports], [CallState.CallState_upstream_current],
      [Monitor.callsActive_balanced], [Metrics.metrics_declared]).
    - What is sent is what SIP allows: every INVITE is answered, on every path of the manager
      and of the call, by a run of a user agent server ([InviteWire.processInvite_lawful],
      from [Uas.inbound_refines_uas] for any order of the methods of the dialog), and what an
      outbound call sends is a run of a user agent client ([DialWire.outboundCall_lawful],
      from [Uac.outbound_refines_uac]), with the ACK and BYE for an answer that crosses a
      CANCEL.  A REFER is numbered under the lock of its dialog and sent without it, so it may
      be overtaken on the wire.  The rest of the program sees the peer's headers exactly while the
      dialog lives ([Signaling.headers_live_with_call]).
    - The control plane: a request to create a participant ends in one of the outcomes it
      reports ([CallApi.createSIPParticipant_outcome]); a call is ended once by the requests
      to end it, which wait while it dials ([outbound_EndCall_waits], [inbound_EndCall]).
    - Only authenticated calls connect: [Dispatch.authenticated_calls_only] composes the
      control plane's answers, the digest check ([InboundAuth.handleInviteAuth_exact]) and
      sealed nonces ([Sealer.digestNonce_authentic], [InboundAuth.challenge_answered]).
    - Dialing: the INVITE loop ends, within its attempts, with an outcome that was received
      ([SipOutbound.Invite_outcome], [Invite_returns], [Invite_attempts]).
    - Transfers, under every interleaving: one result for all who wait, no lost wake-up, and
      success only with a NOTIFY that says so, of this REFER, of none, or of an earlier one
      whose handler began before ([Transfers.transfer_consensus],
      [transfer_wakes], [Refer.refer_success_notified], [refer_bounded]); the REFER itself has
      the headers and the route set of its dialog ([Requests.refer_in_dialog]), and the
      NOTIFY with which the test client answers it is read as sent
      ([SipTest.transfer_notified]).
    - Media: the timeout loop refines an abstract watchdog
      ([MediaPort.mediaTimeoutLoop_refines]); a port builds and closes each pipeline once
      ([mediaPort_life], [MediaPipeline.pipeline_owns_session]); silence, jitter totals
      and Opus frames equal their reference definitions ([MediaStats.silence_timeline],
      [jitter_totals], [Opus.encoder_frames]); every packet is counted where it is routed
      ([MediaChain.inbound_packet_accounted]); prompts are played without changing the
      arrays that calls share ([Prompts.prompts_shared]).  The media of an inbound call is opened once
      and closed with the call, and its keys reach the room or the PIN prompt exactly
      ([CallMedia.call_media_life], [dtmf_delivered]).
    - The room is heard only in an answered call, is recovered once, and is closed only
      after its recoveries ([Room.room_subscribes_when_answered], [recovery_once],
      [close_joins_recoveries]).
    - The process: accepted configurations are well-formed, warn-only TLS reports what the
      policy would refuse, affinity, and an orderly shutdown ([Config.config_wellformed],
      [warn_only_reports], [Service.affinity_spec], [Run_releases], [shutdown_in_order]: only the
      topic of new outbound calls is closed first, INVITEs are taken until the end); no
      request is handled before the parts are connected, and an orderly end closes what was
      opened ([Boot.boot_life]).
    - Some theorems state what the code does where it may surprise, such as
      [SipInbound.accept_retransmit_failure] or [MediaPort.renegotiation_not_applied].

    ** Fuel

    Only loops that are not structural have fuel, and each has a theorem that it is enough:
    [SipInbound.acceptFuel] is 7, one more than the retransmissions of a 200 OK that fit
    before its timeout; [SipOutbound.authLoop] gets one more than the five attempts it
    allows; [Requests.removeLoop], [Opus.encLoop], [Config.replaceAll] and
    [Prompts.splitFrames] get one more than the length of their input, and drop at least
    one element per turn; the quoting and
    printing loops of [GoStd] likewise.

    ** Parameters

    Code outside the repository is a class or an argument: [AEAD] (AES-GCM: what was sealed
    opens, and only that), [DigestLib] and [DigestClient] (digest credentials), [ErrorText]
    (texts of foreign errors), [HeaderLib] (the header lists of messages), the status names
    of the SIP library, [ParseUri] and [ParseAddr], the media SDK ([MediaSDK],
    [CodecEquals], results of its constructors), the LiveKit SDK, the SDP library, Opus, codecs
    and jitter buffers in a chain ([MediaChain.Outside]), the decimal logarithm ([Log10]),
    the decoder and the resampler of prompts, the rounding of [float32] ([Rounding]) and the division of [float64].  Each has an
    instance or a concrete value in the witnesses.

    ** Not modelled

    Sockets, files, YAML and the SIP stack itself; audio samples (mixing, resampling, the
    sines and the Fourier transform of pkg/audiotest); the expiry of caches; logging, spans
    of traces and JSON;
    the build file (magefile.go) and the integration tests (test/).  What is left of the
    modelled files are accessors of fields, interface declarations and log calls.  An
    operation that the Go code runs under a lock is one step;
    operations without a common lock are modelled as interleavings only in the components
    named above as step relations. *)

From stdpp Require Import base tactics list gmap strings option numbers.
From Stdlib Require Import ZArith Ascii Lia.

(** ** Notation *)

Declare Scope go_scope.
Delimit Scope go_scope with go.
#[global] Open Scope Z_scope.

(** ** Automation

    [break_match] splits on the scrutinee of a [match] or [if] of the goal,
    [break_match_hyp] does the same in the hypotheses; [go_crush] is the
    finishing tactic of the development: it splits, cleans up equations between
    constructors and hands the rest to [lia] and [eauto] with the hint
    database [go]. *)
Create HintDb go discriminated.

Ltac break_match :=
  match goal with
  | |- context [ match ?e with _ => _ end ] =>
      lazymatch e with
      | context [ match _ with _ => _ end ] => fail
      | _ => let E := fresh "Heq" in destruct e eqn:E
      end
  end.

Ltac break_match_hyp :=
  match goal with
  | H : context [ match ?e with _ => _ end ] |- _ =>
      lazymatch e with
      | context [ match _ with _ => _ end ] => fail
      | _ => let E := fresh "Heq" in destruct e eqn:E
      end
  end.

Ltac go_crush :=
  repeat first
    [ progress simplify_eq/=
    | progress intros
    | break_match
    | break_match_hyp ];
  try done; try lia; eauto with go.

(** ** Machine integers

    A Go integer of width [w] is kept as the [Z] it denotes; an operation that
    can leave the range of its type is followed by the wrap of that type. *)
Definition wrapU (w z : Z) : Z := z mod 2 ^ w.

Definition wrapS (w z : Z) : Z := (z + 2 ^ (w - 1)) mod 2 ^ w - 2 ^ (w - 1).

Abbreviation u8 := (wrapU 8).
Abbreviation u16 := (wrapU 16).
Abbreviation u32 := (wrapU 32).
Abbreviation u64 := (wrapU 64).
Abbreviation i16 := (wrapS 16).
Abbreviation i32 := (wrapS 32).
Abbreviation i64 := (wrapS 64).

Definition maxInt64 : Z := 2 ^ 63 - 1.
Definition minInt64 : Z := - 2 ^ 63.

(** Saturation at the range of [time.Duration], as [Time.Sub] does. *)
Definition satDuration (z : Z) : Z := Z.max minInt64 (Z.min maxInt64 z).

Lemma wrapU_range w z : 0 <= w -> 0 <= wrapU w z < 2 ^ w.
Proof. intros; apply Z.mod_pos_bound; lia. Qed.

Lemma wrapU_id w z : 0 <= z < 2 ^ w -> wrapU w z = z.
Proof. intros; by apply Z.mod_small. Qed.

Lemma wrapU_idem w z : 0 <= w -> wrapU w (wrapU w z) = wrapU w z.
Proof. intros; apply wrapU_id, wrapU_range; lia. Qed.

Lemma wrapS_range w z : 1 <= w -> - 2 ^ (w - 1) <= wrapS w z < 2 ^ (w - 1).
Proof.
  intros Hw. unfold wrapS.
  pose proof (Z.mod_pos_bound (z + 2 ^ (w - 1)) (2 ^ w) ltac:(lia)).
  assert (2 ^ w = 2 * 2 ^ (w - 1)) by (rewrite <- Z.pow_succ_r by lia; f_equal; lia).
  lia.
Qed.

Lemma wrapS_id w z : 1 <= w -> - 2 ^ (w - 1) <= z < 2 ^ (w - 1) -> wrapS w z = z.
Proof.
  intros Hw Hz. unfold wrapS.
  assert (2 ^ w = 2 * 2 ^ (w - 1)) by (rewrite <- Z.pow_succ_r by lia; f_equal; lia).
  rewrite Z.mod_small; lia.
Qed.

(** The signed view only depends on the unsigned one. *)
Lemma wrapS_wrapU w z : 1 <= w -> wrapS w (wrapU w z) = wrapS w z.
Proof.
  intros Hw. unfold wrapS, wrapU. f_equal.
  rewrite Zplus_mod_idemp_l. done.
Qed.

Lemma wrapU_wrapS w z : 1 <= w -> wrapU w (wrapS w z) = wrapU w z.
Proof.
  intros Hw. unfold wrapU, wrapS.
  rewrite Zminus_mod_idemp_l. f_equal. lia.
Qed.

Lemma satDuration_id z : minInt64 <= z <= maxInt64 -> satDuration z = z.
Proof. unfold satDuration; lia. Qed.

(** ** Output monad

    The stateful code of the repository is written as state passing with a
    trace of the effects it performs: [M S E A] runs from a state [S], returns
    an [A] and the new state, and lists the effects [E] in the order in which
    they happen. *)
Definition M (S E A : Type) : Type := S -> A * S * list E.

Definition mreturn {S E A} (a : A) : M S E A := fun s => (a, s, []).

Definition mbind' {S E A B} (m : M S E A) (f : A -> M S E B) : M S E B :=
  fun s =>
    match m s with
    | (a, s1, t1) => match f a s1 with (b, s2, t2) => (b, s2, t1 ++ t2) end
    end.

Definition mget {S E} : M S E S := fun s => (s, s, []).

Definition mput {S E} (s : S) : M S E unit := fun _ => (tt, s, []).

Definition mmodify {S E} (f : S -> S) : M S E unit := fun s => (tt, f s, []).

Definition memit {S E} (e : E) : M S E unit := fun s => (tt, s, [e]).

Definition mwhen {S E} (b : bool) (m : M S E unit) : M S E unit :=
  if b then m else mreturn tt.

Notation "'let*' x := m 'in' k" := (mbind' m (fun x => k))
  (at level 10, x name, m at level 100, k at level 200,
   format "'[v' 'let*'  x  :=  m  'in' '/' k ']'") : go_scope.
Notation "'do*' m 'in' k" := (mbind' m (fun _ => k))
  (at level 10, m at level 100, k at level 200,
   format "'[v' 'do*'  m  'in' '/' k ']'") : go_scope.

Definition result_of {S E A} (r : A * S * list E) : A := r.1.1.
Definition state_of {S E A} (r : A * S * list E) : S := r.1.2.
Definition trace_of {S E A} (r : A * S * list E) : list E := r.2.

Section monad_lemmas.
Context {S E : Type}.

Lemma bind_ret_l {A B} (a : A) (f : A -> M S E B) s :
  mbind' (mreturn a) f s = f a s.
Proof. unfold mbind', mreturn. by destruct (f a s) as [[b s2] t2]. Qed.

Lemma bind_trace {A B} (m : M S E A) (f : A -> M S E B) s :
  trace_of (mbind' m f s) =
  trace_of (m s) ++ trace_of (f (result_of (m s)) (state_of (m s))).
Proof.
  unfold mbind', trace_of, result_of, state_of.
  destruct (m s) as [[a s1] t1]; simpl. by destruct (f a s1) as [[b s2] t2].
Qed.

Lemma bind_state {A B} (m : M S E A) (f : A -> M S E B) s :
  state_of (mbind' m f s) = state_of (f (result_of (m s)) (state_of (m s))).
Proof.
  unfold mbind', result_of, state_of.
  destruct (m s) as [[a s1] t1]; simpl. by destruct (f a s1) as [[b s2] t2].
Qed.

Lemma bind_result {A B} (m : M S E A) (f : A -> M S E B) s :
  result_of (mbind' m f s) = result_of (f (result_of (m s)) (state_of (m s))).
Proof.
  unfold mbind', result_of, state_of.
  destruct (m s) as [[a s1] t1]; simpl. by destruct (f a s1) as [[b s2] t2].
Qed.

(** [mspec m s Q]: the run of [m] from [s] gives a result, a state and a trace
    that satisfy [Q].  The rules follow the structure of the code. *)
Definition mspec {A} (m : M S E A) (s : S) (Q : A -> S -> list E -> Prop) : Prop :=
  match m s with (a, s', t) => Q a s' t end.

Lemma mspec_bind {A B} (m : M S E A) (f : A -> M S E B) s Q :
  mspec m s (fun a s1 t1 => mspec (f a) s1 (fun b s2 t2 => Q b s2 (t1 ++ t2))) ->
  mspec (mbind' m f) s Q.
Proof.
  unfold mspec, mbind'. destruct (m s) as [[a s1] t1]. by destruct (f a s1) as [[b s2] t2].
Qed.

(** A part of a program whose effect does not matter. *)
Lemma mspec_any {A} (m : M S E A) s (Q : A -> S -> list E -> Prop) :
  (forall a s' t, Q a s' t) -> mspec m s Q.
Proof. intros HQ. unfold mspec. destruct (m s) as [[a s'] t]. apply HQ. Qed.

Lemma mspec_mono {A} (m : M S E A) s (Q Q' : A -> S -> list E -> Prop) :
  mspec m s Q -> (forall a s' t, Q a s' t -> Q' a s' t) -> mspec m s Q'.
Proof. unfold mspec. destruct (m s) as [[a s1] t1]. auto. Qed.

Lemma mspec_and {A} (m : M S E A) s (P Q : A -> S -> list E -> Prop) :
  mspec m s P -> mspec m s Q -> mspec m s (fun a s' t => P a s' t /\ Q a s' t).
Proof. unfold mspec. by destruct (m s) as [[a s1] t1]. Qed.

Lemma mspec_ret {A} (a : A) s (Q : A -> S -> list E -> Prop) :
  Q a s [] -> mspec (mreturn a) s Q.
Proof. done. Qed.

Lemma mspec_get s (Q : S -> S -> list E -> Prop) : Q s s [] -> mspec mget s Q.
Proof. done. Qed.

Lemma mspec_put s0 s (Q : unit -> S -> list E -> Prop) : Q tt s0 [] -> mspec (mput s0) s Q.
Proof. done. Qed.

Lemma mspec_modify f s (Q : unit -> S -> list E -> Prop) :
  Q tt (f s) [] -> mspec (mmodify f) s Q.
Proof. done. Qed.

Lemma mspec_emit e s (Q : unit -> S -> list E -> Prop) : Q tt s [e] -> mspec (memit e) s Q.
Proof. done. Qed.

Lemma mspec_when (b : bool) (m : M S E unit) s (Q : unit -> S -> list E -> Prop) :
  (b = true -> mspec m s Q) -> (b = false -> Q tt s []) -> mspec (mwhen b m) s Q.
Proof. destruct b; cbv [mwhen]; auto using mspec_ret. Qed.

(** A reading of the rules back to the run. *)
Lemma mspec_run {A} (m : M S E A) s (Q : A -> S -> list E -> Prop) a s' t :
  mspec m s Q -> m s = (a, s', t) -> Q a s' t.
Proof. unfold mspec. intros HQ Hr. by rewrite Hr in HQ. Qed.

(** [mtrace P m]: every effect of [m] satisfies [P], from any state. *)
Definition mtrace {A} (P : E -> Prop) (m : M S E A) : Prop :=
  forall s, mspec m s (fun _ _ t => Forall P t).

Lemma mtrace_bind {A B} P (m : M S E A) (f : A -> M S E B) :
  mtrace P m -> (forall a, mtrace P (f a)) -> mtrace P (mbind' m f).
Proof.
  intros Hm Hf s. apply mspec_bind. eapply mspec_mono; [apply Hm|]. cbv beta.
  intros a s1 t1 H1. eapply mspec_mono; [apply Hf|]. cbv beta. intros. by apply Forall_app.
Qed.

Lemma mtrace_ret {A} P (a : A) : mtrace P (mreturn a).
Proof. by intros s; apply mspec_ret. Qed.

Lemma mtrace_get P : mtrace P mget.
Proof. by intros s; apply mspec_get. Qed.

Lemma mtrace_put P s0 : mtrace P (mput s0).
Proof. by intros s; apply mspec_put. Qed.

Lemma mtrace_modify P f : mtrace P (mmodify f).
Proof. by intros s; apply mspec_modify. Qed.

Lemma mtrace_emit (P : E -> Prop) e : P e -> mtrace P (memit e).
Proof. intros He s; apply mspec_emit. by constructor. Qed.

Lemma mtrace_when P (b : bool) (m : M S E unit) : mtrace P m -> mtrace P (mwhen b m).
Proof. destruct b; [done|]. intros _. apply mtrace_ret. Qed.

(** [mrel R m]: every run of [m] relates its states through [R], a relation that
    composes along traces. *)
Class TraceRel (R : S -> list E -> S -> Prop) : Prop := {
  tr_refl : forall s, R s [] s;
  tr_trans : forall s1 t1 s2 t2 s3, R s1 t1 s2 -> R s2 t2 s3 -> R s1 (t1 ++ t2) s3;
}.

Definition mrel {A} (R : S -> list E -> S -> Prop) (m : M S E A) : Prop :=
  forall s, mspec m s (fun _ s' t => R s t s').

Lemma mrel_bind {A B} R `{!TraceRel R} (m : M S E A) (f : A -> M S E B) :
  mrel R m -> (forall a, mrel R (f a)) -> mrel R (mbind' m f).
Proof.
  intros Hm Hf s. apply mspec_bind. eapply mspec_mono; [apply Hm|]. cbv beta.
  intros a s1 t1 H1. eapply mspec_mono; [apply Hf|]. cbv beta. intros. by eapply tr_trans.
Qed.

(** After [mget] the value read is the state. *)
Lemma mrel_get {A} R `{!TraceRel R} (f : S -> M S E A) :
  (forall s, mspec (f s) s (fun _ s' t => R s t s')) -> mrel R (mbind' mget f).
Proof. intros Hf s. apply mspec_bind, mspec_get, Hf. Qed.

Lemma mrel_ret {A} R `{!TraceRel R} (a : A) : mrel R (mreturn a).
Proof. intros s; apply mspec_ret, tr_refl. Qed.

Lemma mrel_mget R `{!TraceRel R} : mrel R mget.
Proof. intros s; apply mspec_get, tr_refl. Qed.

Lemma mrel_modify (R : S -> list E -> S -> Prop) f : (forall s, R s [] (f s)) -> mrel R (mmodify f).
Proof. intros Hf s; apply mspec_modify, Hf. Qed.

Lemma mrel_emit (R : S -> list E -> S -> Prop) e : (forall s, R s [e] s) -> mrel R (memit e).
Proof. intros Hf s; apply mspec_emit, Hf. Qed.

Lemma mrel_when R `{!TraceRel R} (b : bool) (m : M S E unit) : mrel R m -> mrel R (mwhen b m).
Proof. destruct b; [done|]. intros _. by apply mrel_ret. Qed.
End monad_lemmas.

(** [mstep] applies the rule of the head of a program. *)
Ltac mstep :=
  lazymatch goal with
  | |- mspec (mbind' _ _) _ _ => apply mspec_bind
  | |- mspec (mreturn _) _ _ => apply mspec_ret
  | |- mspec mget _ _ => apply mspec_get
  | |- mspec (mput _) _ _ => apply mspec_put
  | |- mspec (mmodify _) _ _ => apply mspec_modify
  | |- mspec (memit _) _ _ => apply mspec_emit
  | |- mspec (mwhen _ _) _ _ => apply mspec_when; intros ?
  end.

#[export] Hint Resolve mtrace_bind mtrace_ret mtrace_get mtrace_put mtrace_modify mtrace_when : go.

(** Effects of a program, by its structure. *)
Ltac trace_step :=
  lazymatch goal with
  | |- mtrace _ (mbind' _ _) => apply mtrace_bind; [|intros ?]
  | |- mtrace _ (mreturn _) => apply mtrace_ret
  | |- mtrace _ mget => apply mtrace_get
  | |- mtrace _ (mput _) => apply mtrace_put
  | |- mtrace _ (mmodify _) => apply mtrace_modify
  | |- mtrace _ (memit _) => apply mtrace_emit
  | |- mtrace _ (mwhen _ _) => apply mtrace_when
  | |- mtrace _ (match ?e with _ => _ end) => destruct e
  | |- mtrace _ (let '_ := ?e in _) => destruct e
  end.

Ltac rel_step :=
  lazymatch goal with
  | |- mrel _ (mbind' _ _) => apply mrel_bind; [apply _| |intros ?]
  | |- mrel _ (mreturn _) => apply mrel_ret, _
  | |- mrel _ mget => apply mrel_mget, _
  | |- mrel _ (mmodify _) => apply mrel_modify; intros ?
  | |- mrel _ (memit _) => apply mrel_emit; intros ?
  | |- mrel _ (mwhen _ _) => apply mrel_when; [apply _|]
  | |- mrel _ (match ?e with _ => _ end) => destruct e
  | |- mrel _ (let '_ := ?e in _) => destruct e
  end.

(** ** Lists *)

(** The list without the first occurrence of a number, if it has one. *)
Fixpoint removeOne (x : Z) (l : list Z) : option (list Z) :=
  match l with
  | [] => None
  | y :: l' => if Z.eqb x y then Some l' else match removeOne x l' with Some r => Some (y :: r) | None => None end
  end.

Lemma removeOne_perm x l r : removeOne x l = Some r -> l ≡ₚ x :: r.
Proof.
  revert r. induction l as [|y l IH]; intros r; cbn; [done|]. destruct (Z.eqb_spec x y) as [->|Hne]; [by intros [= ->]|].
  destruct (removeOne x l) as [r'|]; [|done]. intros [= <-]. rewrite (IH r' eq_refl). apply Permutation_swap.
Qed.

(** The elements of [l] that satisfy [p], counted. *)
Definition countb {A} (p : A -> bool) (l : list A) : nat :=
  length (List.filter p l).

Lemma countb_app {A} (p : A -> bool) l1 l2 :
  countb p (l1 ++ l2) = (countb p l1 + countb p l2)%nat.
Proof. unfold countb. by rewrite List.filter_app, length_app. Qed.

Lemma countb_nil {A} (p : A -> bool) : countb p [] = 0%nat.
Proof. done. Qed.

Lemma countb_cons {A} (p : A -> bool) x l :
  countb p (x :: l) = ((if p x then 1 else 0) + countb p l)%nat.
Proof. unfold countb; simpl; by destruct (p x). Qed.

Lemma countb_none {A} (p : A -> bool) t : (forall a, p a = false) -> countb p t = 0%nat.
Proof. intros Hp. induction t as [|a t IH]; [done|]. by rewrite countb_cons, Hp, IH. Qed.

Lemma countb_Forall {A} (p : A -> bool) l : Forall (fun x => p x = false) l -> countb p l = 0%nat.
Proof. induction 1 as [|x l Hx _ IH]; [done|]. by rewrite countb_cons, Hx, IH. Qed.

Lemma countb_map {A B} (f : A -> B) p q t :
  (forall a, p (f a) = q a) -> countb p (map f t) = countb q t.
Proof. intros Hf. induction t as [|a t IH]; [done|]. simpl. by rewrite !countb_cons, Hf, IH. Qed.

Lemma countb_head {A} (p : A -> bool) x l : countb p (x :: l) = (countb p [x] + countb p l)%nat.
Proof. rewrite !countb_cons, countb_nil. lia. Qed.

(** A Go map used as a lookup table, kept as the list of its pairs in the order
    of a [range] over it. *)
Fixpoint assoc {V} (k : string) (l : list (string * V)) : option V :=
  match l with
  | [] => None
  | (k', v) :: l' => if String.eqb k k' then Some v else assoc k l'
  end.

(** ** Options: the first value present *)
Definition orElse {A} (o o' : option A) : option A :=
  match o with Some a => Some a | None => o' end.

Lemma orElse_none_r {A} (o : option A) : orElse o None = o.
Proof. by destruct o. Qed.

Lemma orElse_assoc {A} (a b c : option A) :
  orElse (orElse a b) c = orElse a (orElse b c).
Proof. by destruct a. Qed.

#[export] Hint Resolve wrapU_range wrapS_range : go.
