(* ===== verification/GoStd.v ===== *)
(** * The Go standard library functions the SIP code uses

    Executable versions of the functions of [strings], [strconv] and [net] that
    the modelled files call, with the lemmas about them that the components
    share.  A Go string is a byte string, here Rocq's [string].  Case mapping
    and space trimming act on the ASCII characters; they are the identity on
    bytes outside ASCII, so the model agrees with Go on ASCII text, which is
    what SIP header names, parameters and status lines are made of. *)

From stdpp Require Import base tactics list strings option.
From Stdlib Require Import ZArith Ascii Lia.
From S2P Require Import Prelude.

(** ** Package strings *)
Module strings.

Definition code (c : ascii) : Z := Z.of_N (N_of_ascii c).

Definition chr (z : Z) : ascii := ascii_of_N (Z.to_N z).

Definition in_range (lo hi c : ascii) : bool :=
  (code lo <=? code c) && (code c <=? code hi).

Definition lower (c : ascii) : ascii :=
  if in_range "A" "Z" c then chr (code c + 32) else c.

Definition upper (c : ascii) : ascii :=
  if in_range "a" "z" c then chr (code c - 32) else c.

Fixpoint smap (f : ascii -> ascii) (s : string) : string :=
  match s with
  | "" => ""
  | String c s' => String (f c) (smap f s')
  end.

Definition ToLower (s : string) : string := smap lower s.

Definition ToUpper (s : string) : string := smap upper s.

Definition EqualFold (a b : string) : bool := String.eqb (ToLower a) (ToLower b).

Fixpoint TrimLeft (s : string) : string :=
  match s with
  | "" => ""
  | String c s' => if Ascii.is_space c then TrimLeft s' else s
  end.

Fixpoint TrimRight (s : string) : string :=
  match s with
  | "" => ""
  | String c s' =>
      match TrimRight s' with
      | "" => if Ascii.is_space c then "" else String c ""
      | r => String c r
      end
  end.

Definition TrimSpace (s : string) : string := TrimRight (TrimLeft s).

(** [Index] of a one-character separator, returned with the two halves
    [s[:i]] and [s[i+1:]], which is all the code uses of the position. *)
Fixpoint cutc (c : ascii) (s : string) : option (string * string) :=
  match s with
  | "" => None
  | String x s' =>
      if Ascii.eqb x c then Some ("", s')
      else match cutc c s' with
           | Some (l, r) => Some (String x l, r)
           | None => None
           end
  end.

Definition Cut (c : ascii) (s : string) : string * string :=
  match cutc c s with
  | Some p => p
  | None => (s, "")
  end.

(** [strings.Split] with a one-character separator. *)
Fixpoint Split (c : ascii) (s : string) : list string :=
  match s with
  | "" => [""]
  | String x s' =>
      if Ascii.eqb x c then "" :: Split c s'
      else match Split c s' with
           | h :: t => String x h :: t
           | [] => [String x ""]
           end
  end.

(** [strings.SplitN] with [n > 0]: at most [n] pieces, the last one unsplit. *)
Fixpoint SplitN (c : ascii) (n : nat) (s : string) : list string :=
  match n with
  | O => []
  | S O => [s]
  | S n' =>
      match cutc c s with
      | None => [s]
      | Some (l, r) => l :: SplitN c n' r
      end
  end.

Fixpoint Contains (s sub : string) : bool :=
  match s with
  | "" => String.prefix sub ""
  | String _ s' => String.prefix sub s || Contains s' sub
  end.

Definition ContainsRune (set : string) (c : ascii) : bool :=
  match cutc c set with Some _ => true | None => false end.

Fixpoint ContainsAny (s set : string) : bool :=
  match s with
  | "" => false
  | String c s' => ContainsRune set c || ContainsAny s' set
  end.

Definition HasPrefix (s p : string) : bool := String.prefix p s.

(** [strings.TrimSuffix] with a one-character suffix. *)
Fixpoint TrimSuffixC (c : ascii) (s : string) : string :=
  match s with
  | "" => ""
  | String x "" => if Ascii.eqb x c then "" else s
  | String x s' => String x (TrimSuffixC c s')
  end.

(** [strings.ReplaceAll(s, c, "")] for a character [c]. *)
Fixpoint RemoveC (c : ascii) (s : string) : string :=
  match s with
  | "" => ""
  | String x s' => if Ascii.eqb x c then RemoveC c s' else String x (RemoveC c s')
  end.

Definition Fields (s : string) : list string := String.words s.

Fixpoint Join (c : ascii) (l : list string) : string :=
  match l with
  | [] => ""
  | [s] => s
  | s :: l' => s +:+ String c (Join c l')
  end.

(** Every character satisfies [p]. *)
Fixpoint allc (p : ascii -> bool) (s : string) : bool :=
  match s with
  | "" => true
  | String c s' => p c && allc p s'
  end.

Definition freec (c : ascii) (s : string) : bool :=
  allc (fun x => negb (Ascii.eqb x c)) s.

End strings.

Import strings.

(** Lemmas on strings. *)
Lemma sapp_nil_l s : "" +:+ s = s.
Proof. done. Qed.

Lemma sapp_cons c s t : String c s +:+ t = String c (s +:+ t).
Proof. done. Qed.

Lemma sapp_nil_r s : s +:+ "" = s.
Proof. induction s as [|c s IH]; [done|]. by rewrite sapp_cons, IH. Qed.

Lemma sapp_assoc (a b c : string) : (a +:+ b) +:+ c = a +:+ (b +:+ c).
Proof. induction a as [|x a IH]; [done|]. by rewrite !sapp_cons, IH. Qed.

Lemma code_range c : 0 <= code c < 256.
Proof.
  unfold code. pose proof (N_ascii_bounded c). lia.
Qed.

Lemma code_chr z : 0 <= z < 256 -> code (chr z) = z.
Proof.
  intros. unfold code, chr. rewrite N_ascii_embedding; lia.
Qed.

Lemma chr_code c : chr (code c) = c.
Proof. unfold code, chr. by rewrite N2Z.id, ascii_N_embedding. Qed.

Lemma lower_idem c : lower (lower c) = lower c.
Proof. by destruct c as [[] [] [] [] [] [] [] []]. Qed.

Lemma lower_upper c : lower (upper c) = lower c.
Proof. by destruct c as [[] [] [] [] [] [] [] []]. Qed.

Lemma upper_lower c : upper (lower c) = upper c.
Proof. by destruct c as [[] [] [] [] [] [] [] []]. Qed.

Lemma smap_smap f g s : smap f (smap g s) = smap (fun c => f (g c)) s.
Proof. induction s; simpl; congruence. Qed.

Lemma smap_ext f g s : (forall c, f c = g c) -> smap f s = smap g s.
Proof. intros E; induction s; simpl; rewrite ?E; congruence. Qed.

Lemma smap_id s : smap (fun c => c) s = s.
Proof. induction s; simpl; congruence. Qed.

Lemma ToLower_idem s : ToLower (ToLower s) = ToLower s.
Proof. unfold ToLower. rewrite smap_smap. apply smap_ext, lower_idem. Qed.

Lemma ToLower_ToUpper s : ToLower (ToUpper s) = ToLower s.
Proof. unfold ToLower, ToUpper. rewrite smap_smap. apply smap_ext, lower_upper. Qed.

Lemma ToUpper_ToLower s : ToUpper (ToLower s) = ToUpper s.
Proof. unfold ToLower, ToUpper. rewrite smap_smap. apply smap_ext, upper_lower. Qed.

Lemma EqualFold_spec a b : EqualFold a b = true <-> ToLower a = ToLower b.
Proof. apply String.eqb_eq. Qed.

Lemma EqualFold_refl a : EqualFold a a = true.
Proof. by apply EqualFold_spec. Qed.

Lemma EqualFold_sym a b : EqualFold a b = EqualFold b a.
Proof. apply String.eqb_sym. Qed.

Lemma freec_app c s t : freec c (s +:+ t) = freec c s && freec c t.
Proof.
  unfold freec. induction s as [|x s IH]; [done|].
  rewrite sapp_cons; simpl. rewrite IH. by rewrite andb_assoc.
Qed.

Lemma allc_app p s t : allc p (s +:+ t) = allc p s && allc p t.
Proof.
  induction s as [|x s IH]; [done|].
  rewrite sapp_cons; simpl. rewrite IH. by rewrite andb_assoc.
Qed.

Lemma cutc_free c s : freec c s = true -> cutc c s = None.
Proof.
  unfold freec. induction s as [|x s IH]; simpl; [done|].
  intros [Hx Hs]%andb_prop. apply negb_true_iff in Hx. rewrite Hx, IH; done.
Qed.

Lemma cutc_app c s t :
  freec c s = true -> cutc c (s +:+ String c t) = Some (s, t).
Proof.
  unfold freec. induction s as [|x s IH]; simpl; intros Hs.
  - by rewrite Ascii.eqb_refl.
  - apply andb_prop in Hs as [Hx Hs]. apply negb_true_iff in Hx.
    by rewrite Hx, IH.
Qed.

Lemma cutc_spec c s l r :
  cutc c s = Some (l, r) -> s = l +:+ String c r /\ freec c l = true.
Proof.
  unfold freec. revert l r. induction s as [|x s IH]; simpl; intros l r H; [done|].
  destruct (Ascii.eqb_spec x c) as [->|Hne].
  - by simplify_eq.
  - destruct (cutc c s) as [[l' r']|] eqn:E; simplify_eq.
    destruct (IH l' r eq_refl) as [-> Hf]. simpl. rewrite Hf.
    apply Ascii.eqb_neq in Hne. by rewrite Hne.
Qed.

Lemma cutc_none c s : cutc c s = None -> freec c s = true.
Proof.
  unfold freec. induction s as [|x s IH]; simpl; intros H; [done|].
  destruct (Ascii.eqb x c); [done|]. simpl.
  destruct (cutc c s) as [[]|]; [done|]. auto.
Qed.

Lemma Split_nonnil c s : Split c s <> [].
Proof. destruct s as [|x s]; simpl; [done|]. repeat case_match; done. Qed.

Lemma Split_free c s : freec c s = true -> Split c s = [s].
Proof.
  unfold freec. induction s as [|x s IH]; simpl; intros H; [done|].
  apply andb_prop in H as [Hx Hs]. apply negb_true_iff in Hx.
  by rewrite Hx, IH.
Qed.

Lemma Split_app c s t :
  freec c s = true -> Split c (s +:+ String c t) = s :: Split c t.
Proof.
  unfold freec. induction s as [|x s IH]; simpl; intros H.
  - by rewrite Ascii.eqb_refl.
  - apply andb_prop in H as [Hx Hs]. apply negb_true_iff in Hx.
    by rewrite Hx, IH.
Qed.

Lemma Join_Split c s : Join c (Split c s) = s.
Proof.
  induction s as [|x s IH]; [done|]. simpl.
  destruct (Ascii.eqb_spec x c) as [->|Hne].
  - simpl. destruct (Split c s) eqn:E; [by destruct (Split_nonnil c s)|].
    by rewrite IH.
  - pose proof (Split_nonnil c s). destruct (Split c s) as [|h t]; [done|].
    rewrite <- IH. by destruct t.
Qed.

(** Trimming is the identity on text that neither starts nor ends with a space. *)
Lemma TrimRight_nospace s :
  allc (fun c => negb (Ascii.is_space c)) s = true -> TrimRight s = s.
Proof.
  induction s as [|c s IH]; simpl; intros H; [done|].
  apply andb_prop in H as [Hc Hs]. apply negb_true_iff in Hc.
  rewrite IH by done. destruct s; by rewrite ?Hc.
Qed.

Lemma TrimLeft_nospace s :
  allc (fun c => negb (Ascii.is_space c)) s = true -> TrimLeft s = s.
Proof.
  destruct s as [|c s]; simpl; intros H; [done|].
  apply andb_prop in H as [Hc _]. apply negb_true_iff in Hc. by rewrite Hc.
Qed.

Lemma TrimSpace_nospace s :
  allc (fun c => negb (Ascii.is_space c)) s = true -> TrimSpace s = s.
Proof.
  intros H. unfold TrimSpace. by rewrite TrimLeft_nospace, TrimRight_nospace.
Qed.

Lemma TrimRight_idem s : TrimRight (TrimRight s) = TrimRight s.
Proof.
  induction s as [|c s IH]; [done|]. simpl.
  destruct (TrimRight s) as [|x r] eqn:E.
  - destruct (Ascii.is_space c) eqn:Ec; simpl; by rewrite ?Ec.
  - change (TrimRight (String c (String x r))) with
      (match TrimRight (String x r) with
       | "" => if Ascii.is_space c then "" else String c ""
       | r' => String c r'
       end).
    by rewrite IH.
Qed.

Lemma TrimRight_app s d :
  Ascii.is_space d = false -> TrimRight (s +:+ String d "") = s +:+ String d "".
Proof.
  intros Hd. induction s as [|x s IH]; simpl; [by rewrite Hd|].
  rewrite IH. by destruct s.
Qed.

Lemma TrimSpace_ends c s d :
  Ascii.is_space c = false -> Ascii.is_space d = false ->
  TrimSpace (String c (s +:+ String d "")) = String c (s +:+ String d "").
Proof.
  intros Hc Hd. unfold TrimSpace. simpl. rewrite Hc.
  exact (TrimRight_app (String c s) d Hd).
Qed.

Create Rewrite HintDb strs.
#[export] Hint Rewrite sapp_nil_l sapp_cons sapp_nil_r sapp_assoc
  ToLower_idem ToLower_ToUpper ToUpper_ToLower : strs.

(** ** Package strconv

    The parsers return the value and the error, as Go does: on a range error
    the value is the bound that was exceeded, on a syntax error it is 0. *)
Module strconv.

Inductive NumErr := ErrSyntax | ErrRange.

#[export] Instance NumErr_eq_dec : EqDecision NumErr.
Proof. solve_decision. Defined.

Definition digit_of (c : ascii) : option Z :=
  if in_range "0" "9" c then Some (code c - 48)
  else if in_range "a" "z" (lower c) then Some (code (lower c) - 87)
  else None.

(** The digit loop of [ParseUint]: [us] says whether underscores are skipped. *)
Fixpoint uintLoop (base max : Z) (us : bool) (n : Z) (s : string) : Z * option NumErr :=
  match s with
  | "" => (n, None)
  | String c s' =>
      if us && Ascii.eqb c "_" then uintLoop base max us n s'
      else match digit_of c with
           | None => (0, Some ErrSyntax)
           | Some d =>
               if base <=? d then (0, Some ErrSyntax)
               else if max <? n * base + d then (max, Some ErrRange)
               else uintLoop base max us (n * base + d) s'
           end
  end.

(** [underscoreOK]: [saw] is the kind of the last character seen. *)
Fixpoint underscoreLoop (hex : bool) (saw : ascii) (s : string) : bool :=
  match s with
  | "" => negb (Ascii.eqb saw "_")
  | String c s' =>
      if in_range "0" "9" c || (hex && in_range "a" "f" (lower c))
      then underscoreLoop hex "0" s'
      else if Ascii.eqb c "_"
      then if Ascii.eqb saw "0" then underscoreLoop hex "_" s' else false
      else if Ascii.eqb saw "_" then false
      else underscoreLoop hex "!" s'
  end.

Definition underscoreOK (s : string) : bool :=
  match s with
  | String "0" (String x s') =>
      let l := lower x in
      if Ascii.eqb l "b" || Ascii.eqb l "o" || Ascii.eqb l "x"
      then underscoreLoop (Ascii.eqb l "x") "0" s'
      else underscoreLoop false "^" s
  | _ => underscoreLoop false "^" s
  end.

Fixpoint hasUnderscore (s : string) : bool :=
  match s with
  | "" => false
  | String c s' => Ascii.eqb c "_" || hasUnderscore s'
  end.

(** [ParseUint(s, 10, bits)]. *)
Definition ParseUint10 (bits : Z) (s : string) : Z * option NumErr :=
  match s with
  | "" => (0, Some ErrSyntax)
  | _ => uintLoop 10 (2 ^ bits - 1) false 0 s
  end.

(** [ParseUint(s, 0, bits)]: the base comes from the prefix. *)
Definition ParseUint0 (bits : Z) (s : string) : Z * option NumErr :=
  let max := 2 ^ bits - 1 in
  let finish r :=
    match r with
    | (n, None) =>
        if hasUnderscore s && negb (underscoreOK s) then (0, Some ErrSyntax) else (n, None)
    | _ => r
    end in
  match s with
  | "" => (0, Some ErrSyntax)
  | String "0" (String x (String y s') as rest) =>
      let l := lower x in
      if Ascii.eqb l "b" then finish (uintLoop 2 max true 0 (String y s'))
      else if Ascii.eqb l "o" then finish (uintLoop 8 max true 0 (String y s'))
      else if Ascii.eqb l "x" then finish (uintLoop 16 max true 0 (String y s'))
      else finish (uintLoop 8 max true 0 rest)
  | String "0" rest => finish (uintLoop 8 max true 0 rest)
  | _ => finish (uintLoop 10 max true 0 s)
  end.

(** [ParseInt(s, 10, bits)]: the magnitude is read as a 64-bit unsigned
    number, then checked against the signed range. *)
Definition ParseInt10 (bits : Z) (s : string) : Z * option NumErr :=
  let cutoff := 2 ^ (bits - 1) in
  let signed (neg : bool) (body : string) :=
    match ParseUint10 64 body with
    | (_, Some ErrSyntax) => (0, Some ErrSyntax)
    | (un, _) =>
        if negb neg && (cutoff <=? un) then (cutoff - 1, Some ErrRange)
        else if neg && (cutoff <? un) then (- cutoff, Some ErrRange)
        else (if neg then - un else un, None)
    end in
  match s with
  | "" => (0, Some ErrSyntax)
  | String "+" body => signed false body
  | String "-" body => signed true body
  | _ => signed false s
  end.

(** [Atoi] is [ParseInt(s, 10, 0)] with a 64-bit [int]. *)
Definition Atoi (s : string) : Z * option NumErr := ParseInt10 64 s.

Definition atoi_val (s : string) : Z := (Atoi s).1.

Definition digitc (d : Z) : ascii := chr (48 + d).

Fixpoint itoaLoop (fuel : nat) (n : Z) (acc : string) : string :=
  match fuel with
  | O => acc
  | S f =>
      let acc' := String (digitc (n mod 10)) acc in
      if n / 10 =? 0 then acc' else itoaLoop f (n / 10) acc'
  end.

(** The decimal text of a natural number; [log2 n + 1] digits are enough. *)
Definition utoa (n : Z) : string := itoaLoop (S (Z.to_nat (Z.log2 n))) n "".

Definition Itoa (n : Z) : string :=
  if n <? 0 then String "-" (utoa (- n)) else utoa n.

Definition ParseBool (s : string) : bool :=
  bool_decide (s ∈ ["1"; "t"; "T"; "TRUE"; "true"; "True"]).

End strconv.

Import strconv.

Lemma digit_of_digitc d : 0 <= d < 10 -> digit_of (digitc d) = Some d.
Proof.
  intros Hd. unfold digit_of, digitc, in_range.
  rewrite code_chr by lia. change (code "0") with 48. change (code "9") with 57.
  rewrite (proj2 (Z.leb_le 48 (48 + d))) by lia.
  rewrite (proj2 (Z.leb_le (48 + d) 57)) by lia. simpl. f_equal. lia.
Qed.

(** Reading back what [itoaLoop] prints: the digits of [n] shift the value
    accumulated so far and add [n]. *)
Lemma uintLoop_itoaLoop fuel max n acc :
  0 <= n < 10 ^ Z.of_nat fuel -> (0 < fuel)%nat ->
  exists k, 0 <= k /\ forall a, 0 <= a -> a * 10 ^ k + n <= max ->
    uintLoop 10 max false a (itoaLoop fuel n acc) = uintLoop 10 max false (a * 10 ^ k + n) acc.
Proof.
  revert n acc. induction fuel as [|f IH]; intros n acc Hn Hf; [lia|].
  assert (Hdiv : n = 10 * (n / 10) + n mod 10) by (apply Z.div_mod; lia).
  pose proof (Z.mod_pos_bound n 10 ltac:(lia)) as Hmod.
  simpl itoaLoop. destruct (Z.eqb_spec (n / 10) 0) as [H0|H0].
  - exists 1. split; [lia|]. intros a Ha Hmax. simpl uintLoop.
    rewrite digit_of_digitc by lia.
    rewrite (proj2 (Z.leb_gt 10 (n mod 10))) by lia.
    replace (a * 10 + n mod 10) with (a * 10 ^ 1 + n) by lia.
    rewrite (proj2 (Z.ltb_ge max (a * 10 ^ 1 + n))) by lia. done.
  - assert (Hq : 0 <= n / 10 < 10 ^ Z.of_nat f).
    { split; [apply Z.div_pos; lia|]. apply Z.div_lt_upper_bound; [lia|].
      rewrite <- Z.pow_succ_r by lia. rewrite <- Nat2Z.inj_succ. lia. }
    destruct f as [|f']; [simpl in Hq; lia|].
    destruct (IH (n / 10) (String (digitc (n mod 10)) acc) Hq ltac:(lia)) as (k & Hk & Hrun).
    exists (k + 1). split; [lia|]. intros a Ha Hmax.
    assert (Hpow : 10 ^ (k + 1) = 10 * 10 ^ k) by (rewrite Z.pow_add_r by lia; lia).
    rewrite Hrun by (try lia; nia). simpl uintLoop.
    rewrite digit_of_digitc by lia.
    rewrite (proj2 (Z.leb_gt 10 (n mod 10))) by lia.
    replace ((a * 10 ^ k + n / 10) * 10 + n mod 10) with (a * 10 ^ (k + 1) + n) by nia.
    rewrite (proj2 (Z.ltb_ge max (a * 10 ^ (k + 1) + n))) by lia. done.
Qed.

Lemma utoa_fuel n : 0 <= n -> 0 <= n < 10 ^ Z.of_nat (S (Z.to_nat (Z.log2 n))).
Proof.
  intros Hn. split; [done|].
  pose proof (Z.log2_nonneg n). rewrite Nat2Z.inj_succ, Z2Nat.id by done.
  destruct (Z.eq_dec n 0) as [->|]; [done|].
  pose proof (Z.log2_spec n ltac:(lia)) as [_ Hlt].
  eapply Z.lt_le_trans; [exact Hlt|]. apply Z.pow_le_mono_l. lia.
Qed.

Lemma itoaLoop_app fuel n acc : itoaLoop fuel n acc = itoaLoop fuel n "" +:+ acc.
Proof.
  revert n acc. induction fuel as [|f IH]; intros n acc; [done|]. simpl.
  case_match; [done|].
  rewrite (IH _ (String _ acc)), (IH _ (String _ "")). by rewrite sapp_assoc.
Qed.

Lemma digitc_props d : 0 <= d < 10 ->
  Ascii.is_space (digitc d) = false /\ in_range "0" "9" (digitc d) = true.
Proof.
  intros Hd. assert (d = 0 \/ d = 1 \/ d = 2 \/ d = 3 \/ d = 4 \/ d = 5 \/ d = 6
    \/ d = 7 \/ d = 8 \/ d = 9) as Hc by lia.
  destruct_or! Hc; subst d; done.
Qed.

(** The decimal text of a number is made of digits. *)
Lemma itoaLoop_digits fuel n acc :
  0 <= n -> allc (in_range "0" "9") acc = true ->
  allc (in_range "0" "9") (itoaLoop fuel n acc) = true.
Proof.
  revert n acc. induction fuel as [|f IH]; intros n acc Hn Hacc; [done|]. simpl.
  pose proof (Z.mod_pos_bound n 10 ltac:(lia)).
  assert (allc (in_range "0" "9") (String (digitc (n mod 10)) acc) = true).
  { simpl. rewrite (proj2 (digitc_props (n mod 10) ltac:(lia))). done. }
  case_match; [done|]. apply IH; [apply Z.div_pos; lia|done].
Qed.

Lemma utoa_digits n : 0 <= n -> allc (in_range "0" "9") (utoa n) = true.
Proof. intros; by apply itoaLoop_digits. Qed.

Lemma utoa_nonempty n : utoa n <> "".
Proof.
  unfold utoa. simpl. case_match; [done|].
  rewrite itoaLoop_app. by destruct (itoaLoop _ _ "").
Qed.

Lemma allc_impl p q s :
  (forall c, p c = true -> q c = true) -> allc p s = true -> allc q s = true.
Proof.
  intros Hpq. induction s as [|c s IH]; simpl; [done|].
  intros [Hc Hs]%andb_prop. rewrite (Hpq c Hc). auto.
Qed.

(** A digit is none of the characters that delimit numbers. *)
Lemma digit_neq c x :
  in_range "0" "9" c = true -> in_range "0" "9" x = false -> negb (Ascii.eqb c x) = true.
Proof.
  intros Hc Hx. apply negb_true_iff, Ascii.eqb_neq. by intros ->; rewrite Hc in Hx.
Qed.

Lemma digit_nospace c : in_range "0" "9" c = true -> negb (Ascii.is_space c) = true.
Proof. by destruct c as [[] [] [] [] [] [] [] []]. Qed.

(** *** Round trips between [Itoa] and the parsers *)
Lemma ParseUint10_utoa bits n :
  0 <= n < 2 ^ bits -> ParseUint10 bits (utoa n) = (n, None).
Proof.
  intros Hn. unfold ParseUint10. pose proof (utoa_nonempty n).
  destruct (utoa n) as [|c s] eqn:E; [done|]. rewrite <- E. unfold utoa.
  destruct (uintLoop_itoaLoop (S (Z.to_nat (Z.log2 n))) (2 ^ bits - 1) n ""
              (utoa_fuel n ltac:(lia)) ltac:(lia)) as (k & Hk & Hrun).
  rewrite Hrun by lia. simpl. f_equal; lia.
Qed.

Lemma ParseInt10_utoa bits n :
  1 <= bits <= 64 -> 0 <= n < 2 ^ (bits - 1) -> ParseInt10 bits (utoa n) = (n, None).
Proof.
  intros Hb Hn.
  assert (2 ^ (bits - 1) <= 2 ^ 64) by (apply Z.pow_le_mono_r; lia).
  assert (Hp : ParseUint10 64 (utoa n) = (n, None)) by (apply ParseUint10_utoa; lia).
  pose proof (utoa_digits n ltac:(lia)) as Hd. pose proof (utoa_nonempty n).
  unfold ParseInt10.
  destruct (utoa n) as [|c s] eqn:E; [done|].
  assert (Hc : in_range "0" "9" c = true) by (simpl in Hd; by apply andb_prop in Hd as [? ?]).
  rewrite Hp.
  assert (negb false && (2 ^ (bits - 1) <=? n) = false) as Hle
    by (simpl; apply Z.leb_gt; lia).
  clear - Hc Hle. destruct c as [[] [] [] [] [] [] [] []]; try done; by rewrite Hle.
Qed.

Lemma Atoi_utoa n : 0 <= n <= maxInt64 -> Atoi (utoa n) = (n, None).
Proof. intros; apply ParseInt10_utoa; unfold maxInt64 in *; lia. Qed.

Lemma atoi_Itoa n : 0 <= n <= maxInt64 -> atoi_val (Itoa n) = n.
Proof.
  intros. unfold atoi_val, Itoa. rewrite (proj2 (Z.ltb_ge n 0)) by lia.
  by rewrite Atoi_utoa.
Qed.

(** The value returned by [Atoi] is always a 64-bit integer. *)
Lemma uintLoop_range base max us n s :
  0 <= base -> 0 <= n <= max -> 0 <= (uintLoop base max us n s).1 <= max.
Proof.
  intros Hb. revert n. induction s as [|c s IH]; intros n Hn; simpl; [lia|].
  case_match; [auto|]. destruct (digit_of c) as [d|] eqn:Ed; simpl; [|lia].
  destruct (Z.leb_spec base d); simpl; [lia|].
  destruct (Z.ltb_spec max (n * base + d)); simpl; [lia|].
  apply IH. split; [|lia].
  assert (0 <= d).
  { unfold digit_of in Ed. unfold in_range in Ed.
    change (code "0") with 48 in Ed. change (code "a") with 97 in Ed.
    destruct (Z.leb_spec 48 (code c)), (Z.leb_spec (code c) (code "9"));
      simplify_eq/=; try lia;
      destruct (Z.leb_spec 97 (code (lower c))), (Z.leb_spec (code (lower c)) (code "z"));
      simplify_eq/=; lia. }
  nia.
Qed.

Lemma ParseUint10_range bits s : 0 <= bits -> 0 <= (ParseUint10 bits s).1 <= 2 ^ bits - 1.
Proof.
  intros. assert (0 < 2 ^ bits) by lia.
  destruct s as [|c s']; [simpl; lia|]. apply uintLoop_range; lia.
Qed.

Lemma Atoi_range s : minInt64 <= atoi_val s <= maxInt64.
Proof.
  assert (Hsg : forall (neg : bool) body,
    minInt64 <= (match ParseUint10 64 body with
      | (_, Some ErrSyntax) => (0, Some ErrSyntax)
      | (un, _) =>
          if negb neg && (2 ^ (64 - 1) <=? un) then (2 ^ (64 - 1) - 1, Some ErrRange)
          else if neg && (2 ^ (64 - 1) <? un) then (- 2 ^ (64 - 1), Some ErrRange)
          else (if neg then - un else un, None)
      end).1 <= maxInt64).
  { intros neg body. pose proof (ParseUint10_range 64 body ltac:(lia)).
    unfold minInt64, maxInt64. destruct (ParseUint10 64 body) as [un [[]|]]; simpl in *;
    destruct neg; simpl; repeat case_match; simpl; lia. }
  unfold atoi_val, Atoi, ParseInt10.
  destruct s as [|c s']; [simpl; unfold minInt64, maxInt64; lia|].
  destruct c as [[] [] [] [] [] [] [] []];
    first [ apply (Hsg false s') | apply (Hsg true s') | apply (Hsg false (String _ s')) ].
Qed.

(** *** [strconv.Unquote]

    The text is taken to be valid UTF-8, as Go's fast path requires; a
    character that is not ASCII is copied with the bytes its first byte
    announces. *)
Module unquote.

Definition dquote : ascii := "034".
Definition squote : ascii := "'".
Definition bquote : ascii := "`".
Definition bslash : ascii := "\".
Definition newline : ascii := "010".
Definition creturn : ascii := "013".

Fixpoint stake (n : nat) (s : string) : string :=
  match n, s with
  | S n', String c s' => String c (stake n' s')
  | _, _ => ""
  end.

Fixpoint sdrop (n : nat) (s : string) : string :=
  match n, s with
  | S n', String _ s' => sdrop n' s'
  | _, _ => s
  end.

Definition rune_len (c : ascii) : nat :=
  let b := code c in
  if b <? 192 then 1 else if b <? 224 then 2 else if b <? 240 then 3 else 4.

(** UTF-8 encoding of a code point. *)
Definition encode_rune (v : Z) : string :=
  if v <? 128 then String (chr v) ""
  else if v <? 2048 then String (chr (192 + v / 64)) (String (chr (128 + v mod 64)) "")
  else if v <? 65536 then
    String (chr (224 + v / 4096)) (String (chr (128 + v / 64 mod 64)) (String (chr (128 + v mod 64)) ""))
  else
    String (chr (240 + v / 262144)) (String (chr (128 + v / 4096 mod 64))
      (String (chr (128 + v / 64 mod 64)) (String (chr (128 + v mod 64)) ""))).

Definition valid_rune (v : Z) : bool :=
  ((0 <=? v) && (v <? 55296)) || ((57343 <? v) && (v <=? 1114111)).

Definition hex_digit (c : ascii) : option Z :=
  match digit_of c with
  | Some d => if d <? 16 then Some d else None
  | None => None
  end.

(** The [n] hexadecimal digits at the head of [s], and the rest. *)
Fixpoint hex_run (n : nat) (v : Z) (s : string) : option (Z * string) :=
  match n with
  | O => Some (v, s)
  | S n' =>
      match s with
      | String c s' =>
          match hex_digit c with
          | Some d => hex_run n' (v * 16 + d) s'
          | None => None
          end
      | "" => None
      end
  end.

Definition oct_digit (c : ascii) : option Z :=
  if in_range "0" "7" c then Some (code c - 48) else None.

Definition simple_escape (c : ascii) : option ascii :=
  match c with
  | "a" => Some "007" | "b" => Some "008" | "f" => Some "012" | "n" => Some "010"
  | "r" => Some "013" | "t" => Some "009" | "v" => Some "011"
  | _ => None
  end%char.

(** The bytes of the first character of [s] and the rest of [s]. *)
Definition UnquoteChar (quote : ascii) (s : string) : option (string * string) :=
  match s with
  | "" => None
  | String c s' =>
      if Ascii.eqb c quote then None
      else if 128 <=? code c then
        let n := rune_len c in Some (stake n s, sdrop n s)
      else if negb (Ascii.eqb c bslash) then Some (String c "", s')
      else match s' with
      | "" => None
      | String e t =>
          match simple_escape e with
          | Some b => Some (String b "", t)
          | None =>
              if Ascii.eqb e "x" then
                '(v, t') ← hex_run 2 0 t; Some (String (chr v) "", t')
              else if Ascii.eqb e "u" then
                '(v, t') ← hex_run 4 0 t;
                if valid_rune v then Some (encode_rune v, t') else None
              else if Ascii.eqb e "U" then
                '(v, t') ← hex_run 8 0 t;
                if valid_rune v then Some (encode_rune v, t') else None
              else if Ascii.eqb e bslash then Some (String bslash "", t)
              else if Ascii.eqb e squote || Ascii.eqb e dquote then
                if Ascii.eqb e quote then Some (String e "", t) else None
              else match oct_digit e, t with
              | Some a, String y (String z t') =>
                  match oct_digit y, oct_digit z with
                  | Some b, Some d =>
                      let v := (a * 8 + b) * 8 + d in
                      if 255 <? v then None else Some (String (chr v) "", t')
                  | _, _ => None
                  end
              | _, _ => None
              end
          end
      end
  end.

(** The escape loop: the unquoted text and what follows the closing quote.
    Every round consumes input, so the length of the input bounds the loop. *)
Fixpoint loop (fuel : nat) (quote : ascii) (s : string) : option (string * string) :=
  match s with
  | "" => None
  | String c s' =>
      if Ascii.eqb c quote then Some ("", s')
      else match fuel with
      | O => None
      | S f =>
          if Ascii.eqb c newline then None
          else match UnquoteChar quote s with
          | None => None
          | Some (b, t) =>
              if Ascii.eqb quote squote then
                (* a single character, then the closing quote *)
                match t with
                | String q t' => if Ascii.eqb q quote then Some (b, t') else None
                | "" => None
                end
              else '(r, t') ← loop f quote t; Some (b +:+ r, t')
          end
      end
  end.

Definition Unquote (s : string) : option string :=
  match s with
  | String q s' =>
      if Ascii.eqb q bquote then
        match cutc q s' with
        | Some (body, "") => Some (RemoveC creturn body)
        | _ => None
        end
      else if Ascii.eqb q dquote || Ascii.eqb q squote then
        match cutc q s' with
        | None => None
        | Some _ =>
            match loop (String.length s') q s' with
            | Some (r, "") =>
                (* the empty single-quoted text is no character *)
                if Ascii.eqb q squote && String.eqb r "" then None else Some r
            | _ => None
            end
        end
      else None
  | "" => None
  end.

(** Text that [Unquote] copies as it is: printable ASCII without quotes,
    backslashes and line ends. *)
Definition plainc (c : ascii) : bool :=
  (32 <=? code c) && (code c <? 127) && negb (Ascii.eqb c dquote) && negb (Ascii.eqb c bslash).

Definition quote (s : string) : string := String dquote (s +:+ String dquote "").

End unquote.

Import unquote.

Lemma UnquoteChar_plain c s :
  plainc c = true -> UnquoteChar dquote (String c s) = Some (String c "", s).
Proof.
  unfold plainc. intros [[[H1 H2]%andb_prop H3]%andb_prop H4]%andb_prop.
  apply Z.ltb_lt in H2. unfold UnquoteChar.
  apply negb_true_iff in H3. rewrite H3.
  rewrite (proj2 (Z.leb_gt 128 (code c))) by lia. by rewrite H4.
Qed.

Lemma unquote_loop_plain fuel s rest :
  allc plainc s = true -> (String.length s <= fuel)%nat ->
  loop fuel dquote (s +:+ String dquote rest) = Some (s, rest).
Proof.
  revert fuel. induction s as [|c s IH]; intros fuel Hs Hf.
  - by destruct fuel.
  - simpl in Hs. apply andb_prop in Hs as [Hc Hs].
    rewrite sapp_cons. destruct fuel as [|f]; [simpl in Hf; lia|].
    pose proof Hc as Hc'. unfold plainc in Hc'.
    apply andb_prop in Hc' as [[[H1 H2]%andb_prop H3]%andb_prop H4].
    apply negb_true_iff in H3.
    assert (Hnl : Ascii.eqb c newline = false).
    { apply Ascii.eqb_neq. intros ->. apply Z.leb_le in H1. by vm_compute in H1. }
    unfold loop; fold loop. rewrite H3, Hnl, UnquoteChar_plain by done.
    change (Ascii.eqb dquote squote) with false. cbv iota.
    rewrite IH; [done|done|]. simpl in Hf; lia.
Qed.

(** Quoting plain text and unquoting it gives the text back. *)
Lemma Unquote_quote s : allc plainc s = true -> Unquote (quote s) = Some s.
Proof.
  intros Hs. unfold Unquote, quote.
  change (Ascii.eqb dquote bquote) with false.
  change (Ascii.eqb dquote dquote || Ascii.eqb dquote squote) with true. cbv iota.
  assert (Hf : freec dquote s = true).
  { eapply allc_impl, Hs. intros c. unfold plainc.
    by intros [[[_ _]%andb_prop H3]%andb_prop _]%andb_prop. }
  rewrite (cutc_app _ s "" Hf). cbv iota.
  rewrite unquote_loop_plain; [done|done|].
  clear. induction s; simpl; [lia|]. apply le_n_S, IHs.
Qed.

(** ** Package net *)
Module net.

Inductive SplitErr := MissingPort | TooManyColons | MissingBracket | UnexpectedBracket.

(** The text before and after the last occurrence of [c]. *)
Fixpoint rcutc (c : ascii) (s : string) : option (string * string) :=
  match s with
  | "" => None
  | String x s' =>
      match rcutc c s' with
      | Some (l, r) => Some (String x l, r)
      | None => if Ascii.eqb x c then Some ("", s') else None
      end
  end.

(** [net.SplitHostPort]. *)
Definition SplitHostPort (hostport : string) : (string * string) + SplitErr :=
  match rcutc ":" hostport with
  | None => inr MissingPort
  | Some (before, port) =>
      match hostport with
      | String "[" inner =>
          match cutc "]" inner with
          | None => inr MissingBracket
          | Some (host, after) =>
              match after with
              | "" => inr MissingPort
              | String c after' =>
                  if negb (Ascii.eqb c ":") then inr MissingPort
                  else if negb (String.eqb after' port) then inr TooManyColons
                  else if ContainsRune inner "[" || ContainsRune after "]"
                  then inr UnexpectedBracket
                  else inl (host, port)
              end
          end
      | _ =>
          if ContainsRune before ":" then inr TooManyColons
          else if ContainsRune hostport "[" || ContainsRune hostport "]"
          then inr UnexpectedBracket
          else inl (before, port)
      end
  end.

End net.

Lemma rcutc_app c s t :
  freec c t = true -> net.rcutc c (s +:+ String c t) = Some (s, t).
Proof.
  intros Ht.
  assert (Hn : net.rcutc c t = None).
  { revert Ht. unfold freec. induction t as [|x t IH]; simpl; [done|].
    intros [Hx Ht]%andb_prop. apply negb_true_iff in Hx. by rewrite IH, Hx. }
  induction s as [|x s IH].
  - simpl. by rewrite Hn, Ascii.eqb_refl.
  - rewrite sapp_cons; simpl. by rewrite IH.
Qed.

Lemma ContainsRune_free c s : freec c s = true -> ContainsRune s c = false.
Proof. intros H. unfold ContainsRune. by rewrite cutc_free. Qed.

(** A plain host and port split as they were joined. *)
Lemma SplitHostPort_join host port :
  freec ":" host = true -> freec "[" host = true -> freec "]" host = true ->
  freec ":" port = true -> freec "[" port = true -> freec "]" port = true ->
  net.SplitHostPort (host +:+ String ":" port) = inl (host, port).
Proof.
  intros Hc Hl Hr Hpc Hpl Hpr. unfold net.SplitHostPort.
  rewrite rcutc_app by done.
  assert (Hwl : freec "[" (host +:+ String ":" port) = true)
    by (rewrite freec_app, Hl; done).
  assert (Hwr : freec "]" (host +:+ String ":" port) = true)
    by (rewrite freec_app, Hr; done).
  rewrite !ContainsRune_free by done. simpl.
  destruct host as [|x host]; [done|]. rewrite sapp_cons in *.
  unfold freec in Hl; simpl in Hl. apply andb_prop in Hl as [Hx _].
  clear - Hx. destruct x as [[] [] [] [] [] [] [] []]; done.
Qed.
