(* ===== verification/GoErr.v ===== *)
(** * Go errors

    The errors the modelled code produces, inspects and wraps.  A Go error is
    a tree: [Unwrap] gives its children, [errors.Is] and [errors.As] search it
    in pre-order.  The tree has one constructor per concrete error type the code
    distinguishes; every other error is an [EText] leaf.  The text of the types
    that live outside the repository ([livekit.SIPStatus], [psrpc.Error]) is a
    parameter, the class [ErrorText]. *)

From stdpp Require Import base tactics list strings option.
From Stdlib Require Import ZArith Ascii Lia.
From S2P Require Import Prelude GoStd.
Import strings strconv unquote.

(** ** Error codes of psrpc

    [psrpc.ErrorCode] is a string type; [OtherCode] stands for the values the
    code does not name. *)
Inductive ErrorCode :=
| OK | Canceled | Unknown | InvalidArgument | MalformedRequest | MalformedResponse
| DeadlineExceeded | NotFound | NotAcceptable | AlreadyExists | PermissionDenied
| ResourceExhausted | FailedPrecondition | Aborted | OutOfRange | Unimplemented
| Internal | Unavailable | DataLoss | Unauthenticated
| UpstreamServerError | UpstreamClientError
| OtherCode (s : string).

#[global] Instance ErrorCode_eq_dec : EqDecision ErrorCode.
Proof. solve_decision. Defined.

(** ** Sentinel values compared with [errors.Is] *)
Inductive sentinel :=
| ErrSIPRequestTimeout | ErrAuthMaxRetry | ErrAuthMissingCreds | ErrAuthNoHeader
| errTransferCallEnded | errReferSubscriptionTerminated
| errNoACK | errDigestNonceExpired | sealer_ErrInvalid
| sdp_ErrNoCommonMedia | sdp_ErrNoCommonCrypto
| context_DeadlineExceeded | context_Canceled
| os_ErrDeadlineExceeded | net_ErrClosed | io_EOF.

#[global] Instance sentinel_eq_dec : EqDecision sentinel.
Proof. solve_decision. Defined.

(** [livekit.SIPStatus]: the status code of a SIP response and its text. *)
Record SIPStatus := { Code : Z; Status : string }.

#[global] Instance SIPStatus_eq_dec : EqDecision SIPStatus.
Proof. solve_decision. Defined.

(** The texts of the errors declared outside the repository. *)
Class ErrorText := {
  SIPStatus_Error : SIPStatus -> string;
  psrpc_Error : ErrorCode -> string -> string;
  net_Error : string -> string -> string;
  sdp_NoCommonMedia_Error : string;
  sdp_NoCommonCrypto_Error : string;
}.

Definition sentinel_text `{ErrorText} (s : sentinel) : string :=
  match s with
  | ErrSIPRequestTimeout => "sip request timed out"
  | ErrAuthMaxRetry => "max auth retry attempts reached for SIP invite"
  | ErrAuthMissingCreds => "sip server required auth, but no username or password was provided"
  | ErrAuthNoHeader => "no auth header in sip invite response"
  | errTransferCallEnded => "call ended before transfer completed"
  | errReferSubscriptionTerminated => "REFER subscription terminated without a final status"
  | errNoACK => "no ACK received for 200 OK"
  | errDigestNonceExpired => "digest nonce expired"
  | sealer_ErrInvalid => "sealer: invalid sealed value"
  | sdp_ErrNoCommonMedia => sdp_NoCommonMedia_Error
  | sdp_ErrNoCommonCrypto => sdp_NoCommonCrypto_Error
  | context_DeadlineExceeded => "context deadline exceeded"
  | context_Canceled => "context canceled"
  | os_ErrDeadlineExceeded => "i/o timeout"
  | net_ErrClosed => "use of closed network connection"
  | io_EOF => "EOF"
  end.

(** ** The error tree *)
Inductive error :=
| ESentinel (s : sentinel)
| EText (msg : string)
| EWrap (pre : string) (e : error) (post : string)     (* fmt.Errorf with one %w *)
| EWrap2 (e1 : error) (sep : string) (e2 : error)      (* fmt.Errorf "%w: %w" *)
| EPsrpc (c : ErrorCode) (cause : error) (details : list SIPStatus)
| ESIPStatus (st : SIPStatus)
| ESDP (e : error)
| ETxTimeout (responses : Z)
| ECarrierBlocked (st : SIPStatus) (provider : string) (providerCode : Z)
| ENetAddr (msg : string)
| ENetDNS (msg : string)
| ENetDNSBy (e : error)
| ENetOp (op : string) (e : error).

#[global] Instance error_eq_dec : EqDecision error.
Proof. solve_decision. Defined.

(** [psrpc.NewError] and [psrpc.NewErrorf] with one [%w]. *)
Definition NewError (c : ErrorCode) (e : error) : error := EPsrpc c e [].

Definition NewErrorf (c : ErrorCode) (msg : string) : error := EPsrpc c (EText msg) [].

Definition NewErrorfW (c : ErrorCode) (pre : string) (e : error) (post : string) : error :=
  EPsrpc c (EWrap pre e post) [].

(** The children given by [Unwrap]. *)
Definition Unwrap (e : error) : list error :=
  match e with
  | EWrap _ e _ | EPsrpc _ e _ | ESDP e | ENetDNSBy e | ENetOp _ e => [e]
  | EWrap2 e1 _ e2 => [e1; e2]
  | ECarrierBlocked st _ _ => [ESIPStatus st]
  | _ => []
  end.

(** Pre-order search of the tree: the first node accepted by [f]. *)
Fixpoint find_err {A} (f : error -> option A) (e : error) : option A :=
  match f e with
  | Some a => Some a
  | None =>
      match e with
      | EWrap _ e _ | EPsrpc _ e _ | ESDP e | ENetDNSBy e | ENetOp _ e => find_err f e
      | EWrap2 e1 _ e2 =>
          match find_err f e1 with Some a => Some a | None => find_err f e2 end
      | ECarrierBlocked st _ _ => f (ESIPStatus st)
      | _ => None
      end
  end.

Module errors.

Definition isSentinel (s : sentinel) (e : error) : option unit :=
  match e with
  | ESentinel s' => if decide (s = s') then Some tt else None
  | _ => None
  end.

(** [errors.Is(err, sentinel)]; a nil error is no sentinel. *)
Definition Is (e : error) (s : sentinel) : bool :=
  match find_err (isSentinel s) e with Some _ => true | None => false end.

Definition IsO (e : option error) (s : sentinel) : bool :=
  match e with Some e => Is e s | None => false end.

Definition AsSIPStatus (e : error) : option SIPStatus :=
  find_err (fun e => match e with ESIPStatus st => Some st | _ => None end) e.

Definition AsPsrpc (e : error) : option ErrorCode :=
  find_err (fun e => match e with EPsrpc c _ _ => Some c | _ => None end) e.

Definition AsSDPError (e : error) : option error :=
  find_err (fun e => match e with ESDP e => Some e | _ => None end) e.

Definition AsTxTimeout (e : error) : option Z :=
  find_err (fun e => match e with ETxTimeout n => Some n | _ => None end) e.

Definition AsNetAddr (e : error) : bool :=
  match find_err (fun e => match e with ENetAddr _ => Some tt | _ => None end) e with
  | Some _ => true | None => false end.

Definition AsNetDNS (e : error) : bool :=
  match find_err (fun e => match e with ENetDNS _ | ENetDNSBy _ => Some tt | _ => None end) e with
  | Some _ => true | None => false end.

Definition AsNetOp (e : error) : bool :=
  match find_err (fun e => match e with ENetOp _ _ => Some tt | _ => None end) e with
  | Some _ => true | None => false end.

End errors.

(** ** Texts *)

(** [%d] of a Go int and [%q] of a string.  [Quote] escapes control bytes,
    quotes and backslashes and keeps the bytes of multi-byte runes. *)
Definition fmt_d (n : Z) : string := Itoa n.

Definition hexc (d : Z) : ascii := if d <? 10 then chr (48 + d) else chr (87 + d).

Definition quotec (c : ascii) : string :=
  if Ascii.eqb c dquote || Ascii.eqb c bslash then String bslash (String c "")
  else if Ascii.eqb c newline then String bslash "n"
  else if Ascii.eqb c creturn then String bslash "r"
  else if code c =? 9 then String bslash "t"
  else if code c =? 7 then String bslash "a"
  else if code c =? 8 then String bslash "b"
  else if code c =? 12 then String bslash "f"
  else if code c =? 11 then String bslash "v"
  else if (code c <? 32) || (code c =? 127) then
    String bslash (String "x" (String (hexc (code c / 16)) (String (hexc (code c mod 16)) "")))
  else String c "".

Fixpoint quoteBody (s : string) : string :=
  match s with
  | "" => ""
  | String c s' => quotec c +:+ quoteBody s'
  end.

Definition fmt_q (s : string) : string := String dquote (quoteBody s +:+ String dquote "").

Fixpoint Error `{ErrorText} (e : error) : string :=
  match e with
  | ESentinel s => sentinel_text s
  | EText msg => msg
  | EWrap pre e post => pre +:+ Error e +:+ post
  | EWrap2 e1 sep e2 => Error e1 +:+ sep +:+ Error e2
  | EPsrpc c e _ => psrpc_Error c (Error e)
  | ESIPStatus st => SIPStatus_Error st
  | ESDP e => Error e
  | ETxTimeout n =>
      "transaction failed to complete (" +:+ fmt_d n +:+ " intermediate responses)"
  | ECarrierBlocked st provider code =>
      "carrier blocked call (" +:+ provider +:+ " error " +:+ fmt_d code +:+ "): "
        +:+ SIPStatus_Error st
  | ENetAddr msg | ENetDNS msg => msg
  | ENetDNSBy e => net_Error "lookup" (Error e)
  | ENetOp op e => net_Error op (Error e)
  end.

(** ** Searches and wrapping *)

(** Contexts that only add a message or a psrpc code around an error. *)
Inductive wraps : error -> error -> Prop :=
| wraps_refl e : wraps e e
| wraps_msg pre e post e' : wraps e e' -> wraps e (EWrap pre e' post)
| wraps_psrpc c ds e e' : wraps e e' -> wraps e (EPsrpc c e' ds).

#[export] Hint Constructors wraps : go.

(** A search that ignores messages and psrpc codes sees through such a
    context. *)
Lemma find_err_wraps {A} (f : error -> option A) e e' :
  (forall pre x post, f (EWrap pre x post) = None) ->
  (forall c x ds, f (EPsrpc c x ds) = None) ->
  wraps e e' -> find_err f e' = find_err f e.
Proof. intros H1 H2. induction 1; simpl; rewrite ?H1, ?H2; auto. Qed.

Lemma Is_wraps e e' s : wraps e e' -> errors.Is e' s = errors.Is e s.
Proof. intros; unfold errors.Is. by erewrite find_err_wraps. Qed.

Lemma AsSIPStatus_wraps e e' : wraps e e' -> errors.AsSIPStatus e' = errors.AsSIPStatus e.
Proof. intros; unfold errors.AsSIPStatus. by erewrite find_err_wraps. Qed.

Lemma AsNetAddr_wraps e e' : wraps e e' -> errors.AsNetAddr e' = errors.AsNetAddr e.
Proof. intros; unfold errors.AsNetAddr. by erewrite find_err_wraps. Qed.

Lemma AsNetDNS_wraps e e' : wraps e e' -> errors.AsNetDNS e' = errors.AsNetDNS e.
Proof. intros; unfold errors.AsNetDNS. by erewrite find_err_wraps. Qed.

Lemma AsNetOp_wraps e e' : wraps e e' -> errors.AsNetOp e' = errors.AsNetOp e.
Proof. intros; unfold errors.AsNetOp. by erewrite find_err_wraps. Qed.

(** [errors.As] finds the code of the outermost psrpc error. *)
Lemma AsPsrpc_head c e ds : errors.AsPsrpc (EPsrpc c e ds) = Some c.
Proof. done. Qed.
