(* ===== verification/Participant.v ===== *)
(** * Call outcomes

    [pkg/sip/participant.go] and [pkg/stats/termination.go]: the status of a call, the termination
    recorded for the SLI, and how a room disconnect is classified. *)

From stdpp Require Import base tactics list strings option.
From Stdlib Require Import ZArith Lia.
From S2P Require Import Prelude GoStd.

(** ** [livekit.DisconnectReason]

    The values the code names; the enum is open ("any future proto value"), so
    the remaining ones are [OtherReason]. *)
Inductive DisconnectReason :=
| UNKNOWN_REASON | CLIENT_INITIATED | DUPLICATE_IDENTITY | SERVER_SHUTDOWN
| PARTICIPANT_REMOVED | ROOM_DELETED | STATE_MISMATCH | JOIN_FAILURE | MIGRATION
| SIGNAL_CLOSE | ROOM_CLOSED | USER_UNAVAILABLE | USER_REJECTED
| SIP_TRUNK_FAILURE | CONNECTION_TIMEOUT | MEDIA_FAILURE | AGENT_ERROR
| OtherReason (n : Z).

#[global] Instance DisconnectReason_eq_dec : EqDecision DisconnectReason.
Proof. solve_decision. Defined.

(** ** Terminations *)
Module stats.

Inductive TerminationResult :=
| ResultSuccess | ResultServerError | ResultClientError
| ResultIndeterminate | ResultUpstreamError.

#[global] Instance TerminationResult_eq_dec : EqDecision TerminationResult.
Proof. solve_decision. Defined.

(** The metric label of a result. *)
Definition result_label (r : TerminationResult) : string :=
  match r with
  | ResultSuccess => "success"
  | ResultServerError => "server_error"
  | ResultClientError => "client_error"
  | ResultIndeterminate => "indeterminate"
  | ResultUpstreamError => "upstream_error"
  end.

Record Termination := { Result : TerminationResult; Reason : string }.

#[global] Instance Termination_eq_dec : EqDecision Termination.
Proof. solve_decision. Defined.

Definition Success (reason : string) : Termination :=
  {| Result := ResultSuccess; Reason := reason |}.
Definition ServerError (reason : string) : Termination :=
  {| Result := ResultServerError; Reason := reason |}.
Definition ClientError (reason : string) : Termination :=
  {| Result := ResultClientError; Reason := reason |}.
Definition Indeterminate (reason : string) : Termination :=
  {| Result := ResultIndeterminate; Reason := reason |}.
Definition UpstreamError (reason : string) : Termination :=
  {| Result := ResultUpstreamError; Reason := reason |}.

End stats.

(** ** Room disconnects *)
Definition terminationFromRoomDisconnect (reason : DisconnectReason) : stats.Termination :=
  match reason with
  | CLIENT_INITIATED | ROOM_CLOSED | ROOM_DELETED | PARTICIPANT_REMOVED =>
      stats.Success "removed"
  | JOIN_FAILURE | SIGNAL_CLOSE | STATE_MISMATCH => stats.ServerError "room-failed"
  | SERVER_SHUTDOWN => stats.ServerError "server-shutdown"
  | CONNECTION_TIMEOUT => stats.ServerError "connection-timeout"
  | MIGRATION => stats.ServerError "migration"
  | SIP_TRUNK_FAILURE => stats.ServerError "sip-trunk-failure"
  | MEDIA_FAILURE => stats.ServerError "media-failure"
  | AGENT_ERROR => stats.ServerError "agent-error"
  | DUPLICATE_IDENTITY => stats.ClientError "duplicate-identity"
  | USER_UNAVAILABLE => stats.ClientError "user-unavailable"
  | USER_REJECTED => stats.ClientError "user-rejected"
  | UNKNOWN_REASON | OtherReason _ => stats.ServerError "room-disconnected"
  end.

Definition disconnectReasonFromRoomClose (reason : DisconnectReason) : DisconnectReason :=
  if decide (reason = UNKNOWN_REASON) then CLIENT_INITIATED else reason.

(** ** [CallStatus] *)
Inductive CallStatus :=
| callDropped | callFlood | CallDialing | CallRinging | CallAutomation
| CallActive | CallHangup | CallCancelled | callUnavailable | callRejected
| callMediaFailed | callAcceptFailed | callNoACK | callHangupMedia.

#[global] Instance CallStatus_eq_dec : EqDecision CallStatus.
Proof. solve_decision. Defined.

Definition Attribute (v : CallStatus) : string :=
  match v with
  | CallDialing => "dialing"
  | CallRinging => "ringing"
  | CallAutomation => "automation"
  | CallActive => "active"
  | CallHangup | callHangupMedia | CallCancelled => "hangup"
  | _ => ""
  end.

(** The call duration limits, in nanoseconds. *)
Definition second : Z := 1000000000.
Definition maxCallDuration : Z := 24 * 3600 * second.
Definition defaultRingingTimeout : Z := 3 * 60 * second.

(** ** Headers copied to attributes *)
Definition AttrSIPPrefix : string := "sip.".

Definition headerToAttr : list (string * string) :=
  [ ("X-Twilio-AccountSid", AttrSIPPrefix +:+ "twilio.accountSid");
    ("X-Twilio-CallSid", AttrSIPPrefix +:+ "twilio.callSid");
    ("X-Twilio-CallToken", AttrSIPPrefix +:+ "twilio.callToken");
    ("X-call_leg_id", AttrSIPPrefix +:+ "telnyx.callLegID");
    ("X-call_session_id", AttrSIPPrefix +:+ "telnyx.callSessionID");
    ("X-Amzn-ConnectContactId", AttrSIPPrefix +:+ "amazon.contactId");
    ("X-Amzn-ConnectInitialContactId", AttrSIPPrefix +:+ "amazon.initialContactId");
    ("X-Amzn-SourceAccount", AttrSIPPrefix +:+ "amazon.sourceAccount");
    ("X-Amzn-SourceArn", AttrSIPPrefix +:+ "amazon.sourceArn");
    ("X-Amzn-TargetArn", AttrSIPPrefix +:+ "amazon.targetArn");
    ("X-Lk-Test-Id", "lktest.id") ].

Definition headerToLog : list (string * string) :=
  [ ("X-Twilio-AccountSid", "twilioAccSID");
    ("X-Twilio-CallSid", "twilioCallSID");
    ("X-call_leg_id", "telnyxCallLegID");
    ("X-call_session_id", "telnyxCallSessionID") ].

(** ** Lemmas *)

(** Whatever the room reports, the reason put on the call is never the unknown
    one, and it keeps the termination the room's own reason would get unless
    that reason was missing. *)
Lemma disconnectReasonFromRoomClose_known r :
  disconnectReasonFromRoomClose r <> UNKNOWN_REASON.
Proof. unfold disconnectReasonFromRoomClose. by case_decide. Qed.

Lemma terminationFromRoomDisconnect_success r :
  stats.Result (terminationFromRoomDisconnect r) = stats.ResultSuccess <->
  r ∈ [CLIENT_INITIATED; ROOM_CLOSED; ROOM_DELETED; PARTICIPANT_REMOVED].
Proof.
  split.
  - destruct r; simpl; intros H; try discriminate H; by repeat constructor.
  - intros H; repeat (apply elem_of_cons in H as [-> | H]; [done |]).
    by apply elem_of_nil in H.
Qed.
