(* ===== verification/Errors.v ===== *)
(** * Classification of failed INVITEs

    [pkg/sip/errors.go] and [pkg/errors/errors.go]: the verdict on an outbound
    INVITE that failed (how to record the call, how to count it, which error to return),
    the error built from a SIP response, and the carrier-block detection. *)

From stdpp Require Import base tactics list strings option.
From Stdlib Require Import ZArith Lia.
From S2P Require Import Prelude GoStd GoErr Participant.
Import strings strconv.

(** ** Data *)

(** [EndCall] of [protocol.go].  [Report] is a Go error, nil as [None]. *)
Record EndCall := {
  Report : option error;
  ec_Status : CallStatus;
  Term : stats.Termination;
  Reason : DisconnectReason;
  Headers : list (string * string);
  ec_Code : Z;
}.

Record inviteFailure := {
  endCall : EndCall;
  returnErr : option error;
}.

(** What the code reads of a [sip.Response]; of its To header, the address as text
    and the tag. *)
Record Response := {
  StatusCode : Z;
  resp_Reason : string;
  GetHeader : string -> option string;
  resp_To : option (string * option string);
  resp_Body : string;
}.

(** ** Verdicts of self-classifying errors *)
Definition SDPError_ClassifyInvite (e : error) : inviteFailure :=
  {| endCall :=
       {| Report := Some e;
          ec_Status := callRejected;
          Term :=
            if errors.Is e sdp_ErrNoCommonMedia then stats.ClientError "no-common-codec"
            else if errors.Is e sdp_ErrNoCommonCrypto then stats.ClientError "encryption-required"
            else stats.ClientError "sdp-error";
          Reason := USER_REJECTED;
          Headers := []; ec_Code := 0 |};
     returnErr := Some (ESDP e) |}.

Definition transactionTimeoutError_ClassifyInvite (responses : Z) : inviteFailure :=
  {| endCall :=
       {| Report := Some (ETxTimeout responses);
          ec_Status := callUnavailable;
          Term := if 0 <? responses then stats.ClientError "no-final-response"
                  else stats.Indeterminate "upstream-no-response";
          Reason := SIP_TRUNK_FAILURE;
          Headers := []; ec_Code := 0 |};
     returnErr := Some (NewError Canceled (ETxTimeout responses)) |}.

Definition carrierBlockedError_ClassifyInvite (st : SIPStatus) (provider : string)
    (providerCode : Z) : inviteFailure :=
  {| endCall :=
       {| Report := Some (ECarrierBlocked st provider providerCode);
          ec_Status := callRejected;
          Term := stats.ClientError "carrier-blocked";
          Reason := USER_REJECTED;
          Headers := []; ec_Code := 0 |};
     returnErr := Some (ESIPStatus st) |}.

(** The types that implement [inviteClassifier]. *)
Definition ClassifyInvite (e : error) : option inviteFailure :=
  match e with
  | ESDP e => Some (SDPError_ClassifyInvite e)
  | ETxTimeout n => Some (transactionTimeoutError_ClassifyInvite n)
  | ECarrierBlocked st p c => Some (carrierBlockedError_ClassifyInvite st p c)
  | _ => None
  end.

(** ** The residual switch of [classifyInviteError] *)

(** The tuple assigned by each branch, whether the branch clears [Report], and
    the error to return. *)
Definition verdict (err : error) (s : CallStatus) (t : stats.Termination)
    (r : DisconnectReason) (keepReport : bool) (ret : error) : inviteFailure :=
  {| endCall :=
       {| Report := if keepReport then Some err else None;
          ec_Status := s; Term := t; Reason := r; Headers := []; ec_Code := 0 |};
     returnErr := Some ret |}.

Definition default_verdict (err : error) : inviteFailure :=
  verdict err callDropped (stats.ServerError "invite-failed") UNKNOWN_REASON true err.

Definition classifySIPStatus (err : error) (st : SIPStatus) : inviteFailure :=
  let code := Code st in
  if (code =? 401) || (code =? 407) then
    verdict err callRejected (stats.ClientError "auth-required") USER_REJECTED false err
  else if code =? 403 then
    verdict err callRejected (stats.ClientError "forbidden") USER_REJECTED false err
  else if code =? 404 then
    verdict err callUnavailable (stats.ClientError "not-found") USER_UNAVAILABLE false err
  else if code =? 408 then
    verdict err callUnavailable (stats.ClientError "request-timeout") USER_UNAVAILABLE false err
  else if code =? 480 then
    verdict err callUnavailable (stats.ClientError "unavailable") USER_UNAVAILABLE false err
  else if code =? 486 then
    verdict err callRejected (stats.ClientError "busy") USER_REJECTED false err
  else if code =? 488 then
    verdict err callRejected (stats.ClientError "not-acceptable") USER_REJECTED false err
  else if (400 <=? code) && (code <? 500) then
    verdict err callRejected (stats.ClientError ("client-error-" +:+ fmt_d code))
      USER_UNAVAILABLE false err
  else if (500 <=? code) && (code <? 600) then
    let body := ToLower (Status st) in
    if Contains body "cps limit exceeded" then
      verdict err callRejected (stats.ClientError "cps-limit-exceeded") SIP_TRUNK_FAILURE true err
    else if Contains body "concurrent call limit exceeded" then
      verdict err callRejected (stats.ClientError "concurrent-limit-exceeded")
        SIP_TRUNK_FAILURE true err
    else
      verdict err callDropped (stats.UpstreamError ("upstream-server-error-" +:+ fmt_d code))
        SIP_TRUNK_FAILURE true err
  else if (600 <=? code) && (code <? 700) then
    verdict err callRejected (stats.ClientError ("global-decline-" +:+ fmt_d code))
      USER_REJECTED false err
  else default_verdict err.

Definition classifyInviteError (err : error) : inviteFailure :=
  match find_err ClassifyInvite err with
  | Some f => f
  | None =>
      match errors.AsSIPStatus err with
      | Some st => classifySIPStatus err st
      | None =>
          if errors.Is err ErrSIPRequestTimeout then
            verdict err callUnavailable (stats.ClientError "no-answer") USER_UNAVAILABLE false err
          else if errors.Is err context_DeadlineExceeded then
            verdict err callDropped (stats.ServerError "deadline-exceeded") UNKNOWN_REASON true
              (NewError DeadlineExceeded err)
          else if errors.Is err context_Canceled then
            verdict err callRejected (stats.ClientError "canceled") USER_UNAVAILABLE false
              (NewError Canceled err)
          else if errors.AsNetAddr err then
            verdict err callDropped (stats.ClientError "address-error") SIP_TRUNK_FAILURE true
              (NewError InvalidArgument err)
          else if errors.AsNetDNS err then
            verdict err callDropped (stats.ClientError "dns-resolution") SIP_TRUNK_FAILURE true
              (NewError InvalidArgument err)
          else if errors.AsNetOp err then
            verdict err callDropped (stats.ServerError "network-error") SIP_TRUNK_FAILURE true
              (NewError Unavailable err)
          else if errors.Is err ErrAuthMaxRetry || errors.Is err ErrAuthMissingCreds
                  || errors.Is err ErrAuthNoHeader then
            verdict err callRejected (stats.ClientError "auth-failed") USER_REJECTED true err
          else default_verdict err
      end
  end.

(** ** [afterInvite] *)
Definition afterInvite (f : inviteFailure) : inviteFailure :=
  if decide (stats.Result (Term (endCall f)) = stats.ResultServerError) then
    let cause := match returnErr f with
                 | Some e => e
                 | None => EText (stats.Reason (Term (endCall f)))
                 end in
    {| endCall := endCall f; returnErr := Some (NewError FailedPrecondition cause) |}
  else f.

(** ** Errors built from a response *)
Definition sipStatusFromResponse (resp : Response) : SIPStatus :=
  {| Code := i32 (StatusCode resp);
     Status := match GetHeader resp "X-Twilio-Error" with
               | Some v => v
               | None => resp_Reason resp
               end |}.

Definition authError (s : error) (resp : option Response) : error :=
  match resp with
  | None => NewError FailedPrecondition s
  | Some resp =>
      let st := sipStatusFromResponse resp in
      NewError FailedPrecondition
        (EWrap "" s (" (last response " +:+ fmt_d (Code st) +:+ ": " +:+ Status st +:+ ")"))
  end.

Definition twilioPermanentBlockCodes : list Z := [32203].

Definition parseLeadingProviderCode (v : string) : Z :=
  match Fields v with
  | [] => 0
  | f :: _ => match Atoi f with (n, None) => n | (_, Some _) => 0 end
  end.

Definition carrierBlockFromResponse (resp : Response) (st : SIPStatus) : option error :=
  match GetHeader resp "X-Twilio-Error" with
  | Some v =>
      let code := parseLeadingProviderCode v in
      if code =? 0 then None
      else if decide (code ∈ twilioPermanentBlockCodes)
           then Some (ECarrierBlocked st "twilio" code)
           else None
  | None => None
  end.

(** ** [ApplySIPStatus] of [pkg/errors]

    [livekit.SIPStatus.GRPCStatus] and [psrpc.ErrorCodeFromGRPC] are library
    code; their composition is the parameter [sipErrorCode]. *)
Definition ApplySIPStatus (sipErrorCode : SIPStatus -> ErrorCode) (err : error) : error :=
  match errors.AsSIPStatus err with
  | None => err
  | Some st => EPsrpc (sipErrorCode st) err [st]
  end.

(** ** Lemmas *)

(** Two verdicts that record and count the call the same way; they may carry
    different errors. *)
Definition sameVerdict (f g : inviteFailure) : Prop :=
  ec_Status (endCall f) = ec_Status (endCall g) /\
  Term (endCall f) = Term (endCall g) /\
  Reason (endCall f) = Reason (endCall g) /\
  (Report (endCall f) = None <-> Report (endCall g) = None).

#[global] Instance sameVerdict_equiv : Equivalence sameVerdict.
Proof. unfold sameVerdict; split; red; intros; intuition congruence. Qed.

Lemma verdict_same e e' s t r k x x' : sameVerdict (verdict e s t r k x) (verdict e' s t r k x').
Proof. unfold sameVerdict; destruct k; simpl; intuition congruence. Qed.

#[export] Hint Resolve verdict_same : go.

Lemma classifySIPStatus_same e e' st : sameVerdict (classifySIPStatus e st) (classifySIPStatus e' st).
Proof. unfold classifySIPStatus, default_verdict. repeat case_match; apply verdict_same. Qed.

Lemma ClassifyInvite_wraps e e' :
  wraps e e' -> find_err ClassifyInvite e' = find_err ClassifyInvite e.
Proof. by apply find_err_wraps. Qed.

Lemma wraps_same_verdict e e' :
  wraps e e' -> sameVerdict (classifyInviteError e') (classifyInviteError e).
Proof.
  intros H. unfold classifyInviteError.
  rewrite (ClassifyInvite_wraps _ _ H), (AsSIPStatus_wraps _ _ H),
    (AsNetAddr_wraps _ _ H), (AsNetDNS_wraps _ _ H), (AsNetOp_wraps _ _ H),
    !(Is_wraps _ _ _ H).
  unfold default_verdict.
  repeat case_match; first [reflexivity | apply classifySIPStatus_same | apply verdict_same].
Qed.

Lemma afterInvite_endCall f : endCall (afterInvite f) = endCall f.
Proof. unfold afterInvite; by case_decide. Qed.

(** The branches of the residual switch that count as server errors. *)
Definition isServerError (f : inviteFailure) : bool :=
  bool_decide (stats.Result (Term (endCall f)) = stats.ResultServerError).

Lemma isServerError_verdict e s t r k x :
  isServerError (verdict e s t r k x) = bool_decide (stats.Result t = stats.ResultServerError).
Proof. done. Qed.

Lemma classifier_not_server e f :
  find_err ClassifyInvite e = Some f -> isServerError f = false /\ Report (endCall f) <> None.
Proof.
  induction e; simpl; intros H; simplify_eq/=; eauto;
    try (by repeat case_match; simplify_eq/=; eauto).
  - unfold SDPError_ClassifyInvite, isServerError; simpl. by repeat case_match.
  - unfold isServerError; simpl. by repeat case_match.
Qed.

Lemma classify_returns e : is_Some (returnErr (classifyInviteError e)).
Proof.
  unfold classifyInviteError. case_match eqn:Hf.
  - revert Hf. induction e; simpl; intros H; simplify_eq/=; eauto;
      by repeat case_match; simplify_eq/=; eauto.
  - unfold classifySIPStatus, default_verdict, verdict. repeat case_match; eauto.
Qed.

Lemma classifySIPStatus_server e st :
  isServerError (classifySIPStatus e st) = negb ((400 <=? Code st) && (Code st <? 700)).
Proof.
  unfold classifySIPStatus, default_verdict. cbv zeta.
  repeat case_match; rewrite ?isServerError_verdict; simpl; symmetry;
    rewrite ?negb_false_iff, ?negb_true_iff, ?andb_true_iff, ?andb_false_iff; lia.
Qed.

Lemma classifySIPStatus_report e st :
  Report (endCall (classifySIPStatus e st)) = None ->
  stats.Result (Term (endCall (classifySIPStatus e st))) = stats.ResultClientError.
Proof. unfold classifySIPStatus, default_verdict. by repeat case_match. Qed.

(** ** Properties *)

(** wrapping an error in messages or psrpc codes on its way up does not
    change how the call is recorded: status, termination, disconnect reason and
    whether the error is reported stay the same, also after [afterInvite]. *)
Theorem classify_wrap_invariant e e' :
  wraps e e' ->
  sameVerdict (afterInvite (classifyInviteError e')) (afterInvite (classifyInviteError e)).
Proof.
  intros H. pose proof (wraps_same_verdict e e' H) as Hs.
  unfold sameVerdict in *. by rewrite !afterInvite_endCall.
Qed.

Lemma classify_wrap_invariant_witness :
  sameVerdict
    (afterInvite (classifyInviteError
       (NewErrorfW Internal "dial: " (ESIPStatus {| Code := 486; Status := "Busy Here" |}) "")))
    (afterInvite (classifyInviteError (ESIPStatus {| Code := 486; Status := "Busy Here" |}))).
Proof. apply classify_wrap_invariant. repeat constructor. Defined.

(** [afterInvite] never changes how the call is recorded; it replaces the
    returned error exactly when the failure counts as a server error, by a
    [FailedPrecondition] error whose cause is the error that was to be returned,
    so that [errors.Is] and [errors.As] still find everything in it. *)
Theorem afterInvite_nonretryable e :
  let f := classifyInviteError e in
  endCall (afterInvite f) = endCall f /\
  (isServerError f = false -> afterInvite f = f) /\
  (isServerError f = true ->
     exists cause, returnErr f = Some cause /\
       returnErr (afterInvite f) = Some (NewError FailedPrecondition cause) /\
       wraps cause (NewError FailedPrecondition cause)).
Proof.
  intros f. split; [apply afterInvite_endCall |]. unfold isServerError, afterInvite.
  split; intros H; case_decide as Hd; try done.
  destruct (classify_returns e : is_Some (returnErr f)) as [c Hc].
  exists c. simpl. rewrite Hc. repeat split. repeat constructor.
Qed.

Lemma afterInvite_nonretryable_witness :
  returnErr (afterInvite (classifyInviteError (ENetOp "dial" (EText "refused")))) =
    Some (NewError FailedPrecondition (NewError Unavailable (ENetOp "dial" (EText "refused")))).
Proof.
  destruct (afterInvite_nonretryable (ENetOp "dial" (EText "refused"))) as [_ [_ H]].
  destruct (H eq_refl) as [c [Hc [Hr _]]]. vm_compute in Hc. injection Hc as <-. exact Hr.
Defined.

(** which failed INVITEs count against the server-error SLI.  A final
    response in 400..699 never does, nor does an error that classifies itself, a
    ring timeout, a cancellation, a bad address, a failed lookup or an
    authentication failure; a blown deadline, a network error and every
    unrecognised error always do. *)
Theorem classify_server_error_iff e :
  isServerError (classifyInviteError e) = true <->
  find_err ClassifyInvite e = None /\
  match errors.AsSIPStatus e with
  | Some st => Code st < 400 \/ 700 <= Code st
  | None =>
      errors.Is e ErrSIPRequestTimeout = false /\
      (errors.Is e context_DeadlineExceeded = true \/
       (errors.Is e context_Canceled = false /\ errors.AsNetAddr e = false /\
        errors.AsNetDNS e = false /\
        (errors.AsNetOp e = true \/
         (errors.Is e ErrAuthMaxRetry = false /\ errors.Is e ErrAuthMissingCreds = false /\
          errors.Is e ErrAuthNoHeader = false))))
  end.
Proof.
  unfold classifyInviteError. case_match eqn:Hf.
  { apply classifier_not_server in Hf as [-> _]. split; [done | by intros []]. }
  destruct (errors.AsSIPStatus e) as [st |].
  { rewrite classifySIPStatus_server, negb_true_iff, andb_false_iff, Z.leb_gt, Z.ltb_ge.
    split; [split; [done | lia] | intros [_ H]; lia]. }
  unfold default_verdict.
  repeat case_match; rewrite isServerError_verdict; simpl;
    rewrite ?orb_true_iff, ?orb_false_iff in *; intuition congruence.
Qed.

(** an error report is dropped only for failures that are attributed to the
    caller's side; server, upstream and indeterminate failures are always reported. *)
Theorem classify_report_dropped e :
  Report (endCall (classifyInviteError e)) = None ->
  stats.Result (Term (endCall (classifyInviteError e))) = stats.ResultClientError.
Proof.
  unfold classifyInviteError. case_match eqn:Hf.
  { intros H. by apply classifier_not_server in Hf as [_ Hf]. }
  unfold default_verdict. case_match; [apply classifySIPStatus_report | by repeat case_match].
Qed.

Lemma classify_report_dropped_witness :
  stats.Result (Term (endCall (classifyInviteError (ESentinel ErrSIPRequestTimeout)))) =
  stats.ResultClientError.
Proof. apply classify_report_dropped. reflexivity. Defined.

(** an authentication failure is bucketed as "auth-failed" and reported
    whatever status and text the last response had, since the response detail is
    only part of the message. *)
Theorem authError_bucket s resp :
  s ∈ [ErrAuthMaxRetry; ErrAuthMissingCreds; ErrAuthNoHeader] ->
  sameVerdict (classifyInviteError (authError (ESentinel s) resp))
    (verdict (ESentinel s) callRejected (stats.ClientError "auth-failed") USER_REJECTED true
       (ESentinel s)).
Proof.
  intros Hs. etransitivity.
  - apply (wraps_same_verdict (ESentinel s)). unfold authError, NewError. destruct resp; eauto with go.
  - repeat (apply elem_of_cons in Hs as [-> | Hs]; [reflexivity |]). by apply elem_of_nil in Hs.
Qed.

Lemma authError_bucket_witness :
  sameVerdict
    (classifyInviteError (authError (ESentinel ErrAuthMaxRetry)
       (Some {| StatusCode := 403; resp_Reason := "Forbidden"; GetHeader := fun _ => None;
                resp_To := None; resp_Body := "" |})))
    (verdict (ESentinel ErrAuthMaxRetry) callRejected (stats.ClientError "auth-failed")
       USER_REJECTED true (ESentinel ErrAuthMaxRetry)).
Proof. apply authError_bucket. apply elem_of_cons. by left. Defined.

(** the carrier-block detection.  A final response is treated as a permanent
    carrier block exactly when its X-Twilio-Error value starts with 32203;
    then, whatever its SIP status, the call is recorded as a rejected
    "carrier-blocked" client error, the error returned is the SIP status itself
    and the header text is kept in it. *)
Theorem carrier_block_exact resp :
  let st := sipStatusFromResponse resp in
  match carrierBlockFromResponse resp st with
  | Some blocked =>
      (exists v, GetHeader resp "X-Twilio-Error" = Some v /\ Status st = v /\
                 parseLeadingProviderCode v = 32203) /\
      classifyInviteError (EWrap "INVITE blocked by carrier: " blocked "") =
        carrierBlockedError_ClassifyInvite st "twilio" 32203
  | None =>
      forall v, GetHeader resp "X-Twilio-Error" = Some v -> parseLeadingProviderCode v <> 32203
  end.
Proof.
  simpl. unfold carrierBlockFromResponse.
  destruct (GetHeader resp "X-Twilio-Error") as [v |] eqn:Hh; [| done].
  destruct (parseLeadingProviderCode v =? 0) eqn:Hz.
  { intros v' [= <-]. apply Z.eqb_eq in Hz. lia. }
  unfold twilioPermanentBlockCodes. case_decide as Hd.
  - apply list_elem_of_singleton in Hd. rewrite Hd. split; [| done].
    exists v. split; [done |]. split; done.
  - intros v' [= <-] Hv. apply Hd. by apply list_elem_of_singleton.
Qed.

(** Sanity checks on concrete values. *)
Example parseLeadingProviderCode_ex :
  map parseLeadingProviderCode
    ["32203 Call blocked as potential fraud"; " 32202"; ""; "x 1"; "99999999999999999999"] =
  [32203; 32202; 0; 0; 0].
Proof. reflexivity. Qed.
