(* ===== verification/Types.v ===== *)
(** * URIs, transports and header mapping

    [pkg/sip/types.go] and the transport helpers of [pkg/sip/protocol.go].
    The values of the SIP library are kept as what the code reads of them:
    [SipUri] for [sip.Uri], [Request] for [sip.Request], header parameters
    as finite maps. *)

From Stdlib Require Import ZArith Ascii QArith Lia.
From stdpp Require Import base tactics list gmap strings option.
From S2P Require Import Prelude GoStd Participant.
#[local] Close Scope Q_scope.
#[local] Open Scope Z_scope.
Import strings strconv.

(** ** Package net/netip *)
Module netip.

(** An address: the zero value, an IPv4 address, or an IPv6 address with its
    zone, kept as eight 16-bit groups. *)
Inductive Addr :=
| AddrZero
| Addr4 (a b c d : Z)
| Addr6 (groups : list Z) (zone : string).

#[global] Instance Addr_eq_dec : EqDecision Addr.
Proof. solve_decision. Defined.

Definition IsValid (a : Addr) : bool :=
  match a with AddrZero => false | _ => true end.

Definition string4 (a b c d : Z) : string :=
  utoa a +:+ "." +:+ utoa b +:+ "." +:+ utoa c +:+ "." +:+ utoa d.

Definition hexdigit (d : Z) : ascii := if d <? 10 then chr (48 + d) else chr (87 + d).

(** Lower-case hexadecimal of a 16-bit group without leading zeros. *)
Definition hex16 (g : Z) : string :=
  let d i := String (hexdigit (Z.shiftr g i mod 16)) "" in
  (if 4096 <=? g then d 12 else "") +:+ (if 256 <=? g then d 8 else "") +:+
  (if 16 <=? g then d 4 else "") +:+ d 0.

Fixpoint zeros (l : list Z) : nat :=
  match l with
  | 0 :: l' => S (zeros l')
  | _ => O
  end.

(** The start and length of the first longest run of zero groups. *)
Fixpoint longest (i : nat) (l : list Z) : nat * nat :=
  match l with
  | [] => (i, O)
  | _ :: l' =>
      let n := zeros l in
      let '(j, m) := longest (S i) l' in
      if (m <=? n)%nat then (i, n) else (j, m)
  end.

Fixpoint joinHex (l : list Z) : string :=
  match l with
  | [] => ""
  | [g] => hex16 g
  | g :: l' => hex16 g +:+ ":" +:+ joinHex l'
  end.

Definition string6 (g : list Z) : string :=
  let '(i, n) := longest 0 g in
  if (2 <=? n)%nat then joinHex (take i g) +:+ "::" +:+ joinHex (drop (i + n) g)
  else joinHex g.

(** [Addr.String], with the RFC 5952 form of IPv6 and the dotted form of
    IPv4-mapped addresses. *)
Definition String_ (a : Addr) : string :=
  match a with
  | AddrZero => "invalid IP"
  | Addr4 a b c d => string4 a b c d
  | Addr6 g zone =>
      (match g with
       | [0; 0; 0; 0; 0; 65535; x; y] =>
           "::ffff:" +:+ string4 (x / 256) (x mod 256) (y / 256) (y mod 256)
       | _ => string6 g
       end) +:+ (if String.eqb zone "" then "" else "%" +:+ zone)
  end.

Record AddrPort := { addr : Addr; port : Z }.

#[global] Instance AddrPort_eq_dec : EqDecision AddrPort.
Proof. solve_decision. Defined.

Definition AddrPortFrom (a : Addr) (p : Z) : AddrPort := {| addr := a; port := p |}.

End netip.

(** ** Transports *)

(** [livekit.SIPTransport]. *)
Inductive SIPTransport :=
| SIP_TRANSPORT_AUTO | SIP_TRANSPORT_UDP | SIP_TRANSPORT_TCP | SIP_TRANSPORT_TLS
| SIP_TRANSPORT_OTHER (n : Z).

Definition Transport : Type := string.
Definition TransportUDP : Transport := "udp".
Definition TransportTCP : Transport := "tcp".
Definition TransportTLS : Transport := "tls".

Definition TransportFrom (t : SIPTransport) : Transport :=
  match t with
  | SIP_TRANSPORT_UDP => TransportUDP
  | SIP_TRANSPORT_TCP => TransportTCP
  | SIP_TRANSPORT_TLS => TransportTLS
  | _ => ""
  end.

Definition SIPTransportFrom (t : Transport) : SIPTransport :=
  if String.eqb t TransportUDP then SIP_TRANSPORT_UDP
  else if String.eqb t TransportTCP then SIP_TRANSPORT_TCP
  else if String.eqb t TransportTLS then SIP_TRANSPORT_TLS
  else SIP_TRANSPORT_AUTO.

(** ** Values of the SIP library *)
Abbreviation Params := (gmap string string).

Record SipUri := {
  su_User : string;
  su_Host : string;
  su_Port : Z;
  su_UriParams : Params;
}.

(** A To or From header: its address and its parameters. *)
Record AddrHeader := { Address : SipUri; hdr_Params : Params }.

Record ViaHeader := { via_Transport : string; via_Branch : option string }.

(** What the code reads of a request. *)
Record Request := {
  Method : string;
  Recipient : SipUri;
  req_To : option AddrHeader;
  req_From : option AddrHeader;
  req_Via : option ViaHeader;
  req_CallID : option string;
  req_CSeq : option Z;
  req_GetHeader : string -> option string;
  req_Body : string;
  req_Source : string;
}.

Definition param (p : Params) (k : string) : string := default "" (p !! k).

Definition transportFromURI (u : SipUri) : Transport :=
  let tr := param (su_UriParams u) "transport" in
  if String.eqb tr "" then "" else ToLower tr.

Definition transportFromTo (to : option AddrHeader) : Transport :=
  match to with
  | Some to =>
      let tr := transportFromURI (Address to) in
      if negb (String.eqb tr "") then tr
      else let tr := param (hdr_Params to) "transport" in
           if negb (String.eqb tr "") then ToLower tr else ""
  | None => ""
  end.

Definition callTransportFromReq (req : Request) : Transport :=
  let tr := transportFromTo (req_To req) in
  if negb (String.eqb tr "") then tr
  else match req_Via req with
       | Some via => ToLower (via_Transport via)
       | None => ""
       end.

Definition legTransportFromReq (req : Request) : Transport :=
  match req_Via req with
  | Some via => ToLower (via_Transport via)
  | None =>
      let tr := transportFromURI (Recipient req) in
      if negb (String.eqb tr "") then tr else transportFromTo (req_To req)
  end.

(** What [transportPort] and [getContactURI] read of the configuration. *)
Record SignalingConfig := {
  SIPPort : Z;
  TLS_Port : option Z;
  SIPHostname : string;
}.

Definition transportPort (c : SignalingConfig) (t : Transport) : Z :=
  match TLS_Port c with
  | Some p => if String.eqb t TransportTLS then p else SIPPort c
  | None => SIPPort c
  end.

(** ** URI *)
Record URI := {
  User : string;
  Host : string;
  uri_Addr : netip.AddrPort;
  uri_Transport : Transport;
}.

#[global] Instance URI_eq_dec : EqDecision URI.
Proof. solve_decision. Defined.

Definition Normalize (u : URI) : URI :=
  match net.SplitHostPort (Host u) with
  | inl (addr, sport) =>
      match Atoi sport with
      | (port, None) =>
          {| User := User u; Host := addr;
             uri_Addr := netip.AddrPortFrom (netip.addr (uri_Addr u)) (u16 port);
             uri_Transport := uri_Transport u |}
      | (_, Some _) => u
      end
  | inr _ => u
  end.

Definition ConvertURI (u : SipUri) : URI :=
  let tr := transportFromURI u in
  Normalize
    {| User := su_User u; Host := su_Host u;
       uri_Addr := netip.AddrPortFrom netip.AddrZero (u16 (su_Port u));
       uri_Transport := if negb (String.eqb tr "") then tr else TransportUDP |}.

Definition CreateURIFromUserAndAddress (user address : string) (transport : Transport) : URI :=
  Normalize
    {| User := user; Host := address;
       uri_Addr := netip.AddrPortFrom netip.AddrZero 0;
       uri_Transport := transport |}.

Definition GetHost (u : URI) : string :=
  if String.eqb (Host u) "" then netip.String_ (netip.addr (uri_Addr u)) else Host u.

Definition GetPort (u : URI) : Z :=
  let port := netip.port (uri_Addr u) in
  if port =? 0 then if String.eqb (uri_Transport u) TransportTLS then 5061 else 5060
  else port.

Definition GetPortOrNone (u : URI) : Z :=
  let port := GetPort u in if port =? 5060 then 0 else port.

Definition GetHostPort (u : URI) : string := GetHost u +:+ ":" +:+ Itoa (GetPort u).

Definition GetDest (u : URI) : string :=
  let a := netip.addr (uri_Addr u) in
  let host := if netip.IsValid a then netip.String_ a else Host u in
  host +:+ ":" +:+ Itoa (GetPort u).

Definition GetURI (u : URI) : SipUri :=
  {| su_User := User u; su_Host := GetHost u;
     su_Port := netip.port (uri_Addr u);
     su_UriParams := if String.eqb (uri_Transport u) "" then ∅
                     else {[ "transport" := uri_Transport u ]} |}.

Definition GetContactURI (u : URI) : SipUri :=
  let su := GetURI u in
  let a := netip.addr (uri_Addr u) in
  if (String.eqb (uri_Transport u) TransportUDP || String.eqb (uri_Transport u) TransportTCP)
     && netip.IsValid a
  then {| su_User := su_User su; su_Host := netip.String_ a;
          su_Port := su_Port su; su_UriParams := su_UriParams su |}
  else su.

(** [livekit.SIPUri]. *)
Record SIPUri := {
  pu_User : string; pu_Host : string; pu_Ip : string; pu_Port : Z;
  pu_Transport : SIPTransport;
}.

Definition URI_ToSIPUri (u : URI) : SIPUri :=
  let a := netip.addr (uri_Addr u) in
  {| pu_User := User u; pu_Host := GetHost u;
     pu_Ip := if netip.IsValid a then netip.String_ a else "";
     pu_Port := u32 (GetPort u);
     pu_Transport := SIPTransportFrom (uri_Transport u) |}.

Definition ToSIPUri (ip : string) (u : SipUri) : SIPUri :=
  {| pu_User := su_User u; pu_Host := su_Host u; pu_Ip := ip; pu_Port := u32 (su_Port u);
     pu_Transport := SIPTransportFrom (param (su_UriParams u) "transport") |}.

Definition getContactURI (c : SignalingConfig) (ip : netip.Addr) (t : Transport) : URI :=
  {| User := "";
     Host := if String.eqb t TransportTLS then SIPHostname c else "";
     uri_Addr := netip.AddrPortFrom ip (u16 (transportPort c t));
     uri_Transport := t |}.

(** ** Tags *)
Definition getTagFrom (p : Params) : option string := p !! "tag".

Definition GetLocalTagUAS (r : Request) : string + string :=
  match req_To r with
  | None => inr "no To on Request"
  | Some to =>
      match getTagFrom (hdr_Params to) with
      | None => inr "no tag in To on Request"
      | Some tag => inl tag
      end
  end.

(** ** Headers and attributes *)

(** [Headers]: name and value, in message order. *)
Definition HeaderList : Type := list (string * string).

(** [sip.HeaderToLower] is the library's ASCII lower-casing. *)
Fixpoint Headers_GetHeader (h : HeaderList) (name : string) : option string :=
  match h with
  | [] => None
  | (k, v) :: h' => if String.eqb (ToLower k) (ToLower name) then Some v
                    else Headers_GetHeader h' name
  end.

Inductive SIPHeaderOptions := SIP_NO_HEADERS | SIP_X_HEADERS | SIP_ALL_HEADERS.

Definition AttrSIPHeaderPrefix : string := "sip.h.".
Definition AttrSIPCallIDFull : string := AttrSIPPrefix +:+ "callIDFull".
Definition AttrSIPCallTag : string := AttrSIPPrefix +:+ "callTag".

Abbreviation attrmap := (gmap string string).

(** First loop: the headers asked for by the options.  A nil header cannot be an
    element of a list of pairs. *)
Fixpoint mapAllHeaders (opts : SIPHeaderOptions) (headers : HeaderList) (attrs : attrmap) : attrmap :=
  match headers with
  | [] => attrs
  | (k, v) :: headers' =>
      let name := ToLower k in
      let skip := String.eqb name "" ||
        match opts with
        | SIP_X_HEADERS => negb (HasPrefix name "x-")
        | _ => false
        end in
      mapAllHeaders opts headers'
        (if skip then attrs else <[AttrSIPHeaderPrefix +:+ name := v]> attrs)
  end.

(** A [range] over a header-to-attribute map, in the order given. *)
Fixpoint mapHeaders (table : list (string * string)) (headers : HeaderList)
    (attrs : attrmap) : attrmap :=
  match table with
  | [] => attrs
  | (hdr, name) :: table' =>
      mapHeaders table' headers
        (match Headers_GetHeader headers hdr with
         | Some v => <[name := v]> attrs
         | None => attrs
         end)
  end.

(** What the code reads of a [Signaling]: its remote headers, tag and Call-ID. *)
Record SignalingView := {
  RemoteHeaders : HeaderList;
  Tag : string;
  SIPCallID : string;
}.

(** [global] and [hdrToAttr] list the two maps in the order the [range] loops
    happen to visit them. *)
Definition HeadersToAttrs (global : list (string * string)) (attrs : attrmap)
    (hdrToAttr : list (string * string)) (opts : SIPHeaderOptions)
    (c : option SignalingView) (headers : HeaderList) : attrmap :=
  let headers := match c with Some c => RemoteHeaders c | None => headers end in
  let attrs := match opts with
               | SIP_NO_HEADERS => attrs
               | _ => mapAllHeaders opts headers attrs
               end in
  let attrs := mapHeaders global headers attrs in
  let attrs := mapHeaders hdrToAttr headers attrs in
  match c with
  | Some c =>
      let attrs := if String.eqb (Tag c) "" then attrs
                   else <[AttrSIPCallTag := Tag c]> attrs in
      if String.eqb (SIPCallID c) "" then attrs
      else <[AttrSIPCallIDFull := SIPCallID c]> attrs
  | None => attrs
  end.

(** [livekit.ValidateHeaderValue] is library code: the parameter [validate]. *)
Fixpoint attrsLoop (validate : string -> string -> bool) (attrs : attrmap)
    (attrToHdr : list (string * string)) (headers : attrmap) : attrmap :=
  match attrToHdr with
  | [] => headers
  | (attr, hdr) :: rest =>
      attrsLoop validate attrs rest
        (match attrs !! attr with
         | Some v => if validate hdr v then <[hdr := v]> headers else headers
         | None => headers
         end)
  end.

Definition AttrsToHeaders (validate : string -> string -> bool) (attrs : attrmap)
    (attrToHdr : list (string * string)) (headers : attrmap) : attrmap :=
  match attrToHdr with
  | [] => headers
  | _ => attrsLoop validate attrs attrToHdr headers
  end.

(** ** Media encryption *)
Inductive SIPMediaEncryption :=
| SIP_MEDIA_ENCRYPT_DISABLE | SIP_MEDIA_ENCRYPT_ALLOW | SIP_MEDIA_ENCRYPT_REQUIRE
| SIP_MEDIA_ENCRYPT_OTHER (n : Z).

Inductive Encryption := EncryptionNone | EncryptionAllow | EncryptionRequire.

(** A nil pointer dereferences to the first value of the enum. *)
Definition sdpEncryption (e : option SIPMediaEncryption) : Encryption * option string :=
  match default SIP_MEDIA_ENCRYPT_DISABLE e with
  | SIP_MEDIA_ENCRYPT_DISABLE => (EncryptionNone, None)
  | SIP_MEDIA_ENCRYPT_ALLOW => (EncryptionAllow, None)
  | SIP_MEDIA_ENCRYPT_REQUIRE => (EncryptionRequire, None)
  | SIP_MEDIA_ENCRYPT_OTHER _ => (EncryptionAllow, Some "invalid SIP media encryption type")
  end.

(** ** Random selection; [r] is the sample of [rand.Float64]. *)
Definition SelectValue {T} (r : Q) (then_ els : T) (probElse : Q) : T :=
  if Qle_bool probElse 0 then then_
  else if negb (Qle_bool probElse r) then then_ else els.

Definition SelectValueBool (r : Q) (then_ : bool) (probElse : Q) : bool :=
  SelectValue r then_ (negb then_) probElse.

(** ** Lemmas *)

#[local] Arguments String.eqb : simpl never.
#[local] Arguments String.append : simpl never.

Lemma Itoa_nonneg n : 0 <= n -> Itoa n = utoa n.
Proof. intros. unfold Itoa. by rewrite (proj2 (Z.ltb_ge n 0)) by lia. Qed.

(** A decimal number contains none of the separators of a host and port. *)
Lemma utoa_free c n : 0 <= n -> in_range "0" "9" c = false -> freec c (utoa n) = true.
Proof.
  intros Hn Hc. unfold freec. eapply allc_impl; [| apply (utoa_digits n Hn)].
  intros x Hx. simpl. destruct (Ascii.eqb_spec x c); [congruence | done].
Qed.

Lemma GetPort_range u :
  0 <= netip.port (uri_Addr u) < 65536 -> 1 <= GetPort u <= 65535.
Proof. unfold GetPort. repeat case_match; lia. Qed.

(** What the second occurrence of a map entry leaves of the first: the value a
    table of headers gives to the attribute [k]. *)
Fixpoint tableValue (table : list (string * string)) (headers : HeaderList) (k : string)
    : option string :=
  match table with
  | [] => None
  | (hdr, name) :: table' =>
      match tableValue table' headers k with
      | Some v => Some v
      | None => if String.eqb name k then Headers_GetHeader headers hdr else None
      end
  end.

(** The value the options copy to the attribute [k]: that of the last header
    whose prefixed lower-case name is [k]. *)
Fixpoint optionValue (opts : SIPHeaderOptions) (headers : HeaderList) (k : string) : option string :=
  match headers with
  | [] => None
  | (h, v) :: headers' =>
      match optionValue opts headers' k with
      | Some v => Some v
      | None =>
          let name := ToLower h in
          if negb (String.eqb name "") &&
             match opts with
             | SIP_NO_HEADERS => false
             | SIP_X_HEADERS => HasPrefix name "x-"
             | SIP_ALL_HEADERS => true
             end && String.eqb (AttrSIPHeaderPrefix +:+ name) k
          then Some v else None
      end
  end.

Definition metaValue (c : option SignalingView) (k : string) : option string :=
  match c with
  | Some c =>
      if String.eqb k AttrSIPCallIDFull && negb (String.eqb (SIPCallID c) "") then Some (SIPCallID c)
      else if String.eqb k AttrSIPCallTag && negb (String.eqb (Tag c) "") then Some (Tag c)
      else None
  | None => None
  end.

Lemma mapHeaders_lookup table headers attrs k :
  mapHeaders table headers attrs !! k = orElse (tableValue table headers k) (attrs !! k).
Proof.
  revert attrs. induction table as [|[hdr name] table IH]; intros attrs; simpl.
  { done. }
  rewrite IH. destruct (tableValue table headers k); simpl; [done|].
  destruct (String.eqb_spec name k) as [->|Hk];
    destruct (Headers_GetHeader headers hdr); simpl;
    rewrite ?lookup_insert_eq, ?lookup_insert_ne by done; done.
Qed.

Lemma mapAllHeaders_lookup opts headers attrs k :
  opts <> SIP_NO_HEADERS ->
  mapAllHeaders opts headers attrs !! k = orElse (optionValue opts headers k) (attrs !! k).
Proof.
  intros Ho. revert attrs. induction headers as [|[h v] headers IH]; intros attrs; simpl.
  { done. }
  rewrite IH. destruct (optionValue opts headers k); simpl; [done|].
  generalize (AttrSIPHeaderPrefix +:+ ToLower h), (HasPrefix (ToLower h) "x-"),
    (String.eqb (ToLower h) "").
  intros key isX empty. destruct empty, opts, isX, (String.eqb_spec key k) as [<-|Hk];
    simpl; rewrite ?lookup_insert_eq, ?lookup_insert_ne by done; done.
Qed.

Lemma optionValue_none headers k : optionValue SIP_NO_HEADERS headers k = None.
Proof.
  induction headers as [|[h v] headers IH]; simpl; [done|].
  rewrite IH, andb_false_r. done.
Qed.

Lemma mapHeaders_perm t1 t2 headers attrs :
  Permutation t1 t2 -> NoDup t1.*2 ->
  mapHeaders t1 headers attrs = mapHeaders t2 headers attrs.
Proof.
  intros Hp. revert attrs. induction Hp as [|[h n] t1 t2 _ IH|[h1 n1] [h2 n2] t|t1 t2 t3 H1 IH1 H2 IH2];
    intros attrs Hnd; simpl in *.
  - done.
  - apply list.NoDup_cons in Hnd as [_ Hnd]. by rewrite IH.
  - apply list.NoDup_cons in Hnd as [Hni _]. f_equal.
    assert (n2 <> n1) by (intros ->; apply Hni; by left).
    repeat case_match; try done. by apply insert_insert_ne.
  - rewrite IH1 by done. apply IH2. by rewrite <- H1.
Qed.

Lemma headerToAttr_nodup : NoDup headerToAttr.*2.
Proof. apply (bool_decide_unpack _). by vm_compute. Qed.

(** ** Properties *)

(** what [HeadersToAttrs] puts on a participant.  The value of every
    attribute is decided by precedence: call tag and Call-ID, then the mapping of
    the request, then the built-in mapping, then the headers included by the
    options, then the attributes passed in. *)
Theorem HeadersToAttrs_precedence global attrs hdrToAttr opts c headers k :
  let hs := match c with Some c => RemoteHeaders c | None => headers end in
  HeadersToAttrs global attrs hdrToAttr opts c headers !! k =
  orElse (metaValue c k)
    (orElse (tableValue hdrToAttr hs k)
      (orElse (tableValue global hs k)
        (orElse (optionValue opts hs k) (attrs !! k)))).
Proof.
  intros hs. unfold HeadersToAttrs. fold hs. cbv zeta.
  set (base := match opts with SIP_NO_HEADERS => attrs | _ => _ end).
  assert (Hb : base !! k = orElse (optionValue opts hs k) (attrs !! k)).
  { destruct opts; subst base; [by rewrite optionValue_none | |]; by apply mapAllHeaders_lookup. }
  rewrite <- Hb, <- !mapHeaders_lookup. unfold metaValue. destruct c as [c|]; [|done].
  assert (Hne : AttrSIPCallTag <> AttrSIPCallIDFull) by done.
  destruct (String.eqb_spec (SIPCallID c) ""), (String.eqb_spec (Tag c) "");
    rewrite ?andb_true_r, ?andb_false_r;
    destruct (String.eqb_spec k AttrSIPCallIDFull), (String.eqb_spec k AttrSIPCallTag);
    simpl; rewrite ?lookup_insert, ?decide_False, ?decide_True by congruence; congruence.
Qed.

(** Go visits a map in random order, but the attributes do not depend on it:
    the built-in mapping assigns every attribute once, so any visiting order of
    it, together with any visiting order of a request mapping that assigns every
    attribute once, gives the same result. *)
Theorem HeadersToAttrs_order g attrs t1 t2 opts c headers :
  Permutation headerToAttr g -> Permutation t1 t2 -> NoDup t1.*2 ->
  HeadersToAttrs g attrs t2 opts c headers =
  HeadersToAttrs headerToAttr attrs t1 opts c headers.
Proof.
  intros Hg Ht Hnd. unfold HeadersToAttrs.
  by rewrite <- (mapHeaders_perm _ _ _ _ Hg headerToAttr_nodup), <- (mapHeaders_perm _ _ _ _ Ht Hnd).
Qed.

Lemma HeadersToAttrs_order_witness :
  HeadersToAttrs (rev headerToAttr) ∅ [("b", "y"); ("a", "x")] SIP_X_HEADERS None
    [("A", "1"); ("X-Twilio-CallSid", "2")] =
  HeadersToAttrs headerToAttr ∅ [("a", "x"); ("b", "y")] SIP_X_HEADERS None
    [("A", "1"); ("X-Twilio-CallSid", "2")].
Proof.
  apply HeadersToAttrs_order.
  - apply Permutation.Permutation_rev.
  - apply Permutation.perm_swap.
  - apply (bool_decide_unpack _). by vm_compute.
Defined.

(** a host and port given as an address are taken apart as they were joined:
    the URI has that host and that port, and prints back as the same address. *)
Theorem address_roundtrip user host port t :
  host <> "" -> freec ":" host = true -> freec "[" host = true -> freec "]" host = true ->
  1 <= port <= 65535 ->
  let u := CreateURIFromUserAndAddress user (host +:+ String ":" (utoa port)) t in
  Host u = host /\ GetPort u = port /\ GetHostPort u = host +:+ String ":" (utoa port).
Proof.
  intros Hne Hc Hl Hr Hp u.
  assert (Hu : u = {| User := user; Host := host;
                      uri_Addr := netip.AddrPortFrom netip.AddrZero port; uri_Transport := t |}).
  { subst u. unfold CreateURIFromUserAndAddress, Normalize. cbn [Host uri_Addr User uri_Transport].
    rewrite SplitHostPort_join by first [done | apply utoa_free; [lia | done]].
    rewrite Atoi_utoa by (unfold maxInt64; lia).
    rewrite (wrapU_id 16) by (simpl; lia). done. }
  rewrite Hu. unfold GetHostPort, GetHost, GetPort; simpl.
  rewrite (proj2 (Z.eqb_neq port 0)) by lia.
  destruct (String.eqb_spec host ""); [done|].
  rewrite Itoa_nonneg by lia. done.
Qed.

Lemma address_roundtrip_witness :
  GetHostPort (CreateURIFromUserAndAddress "u" ("sip.example.com" +:+ String ":" (utoa 5080)) "tcp")
  = "sip.example.com:5080".
Proof. by destruct (address_roundtrip "u" "sip.example.com" 5080 "tcp") as [_ [_ ->]]. Defined.

(** a URI without an address survives the conversion to the SIP library's
    form and back, if its host has no port of its own and its transport is set and
    in lower case. *)
Theorem ConvertURI_GetURI u :
  Host u <> "" -> freec ":" (Host u) = true -> netip.addr (uri_Addr u) = netip.AddrZero ->
  0 <= netip.port (uri_Addr u) < 65536 ->
  uri_Transport u <> "" -> ToLower (uri_Transport u) = uri_Transport u ->
  ConvertURI (GetURI u) = u.
Proof.
  destruct u as [user host [a p] t]; simpl. intros Hne Hc -> Hp Ht Hl.
  unfold ConvertURI, transportFromURI, GetURI, GetHost, param; simpl.
  destruct (String.eqb_spec host ""); [done|]. destruct (String.eqb_spec t ""); [done|].
  rewrite lookup_singleton_eq. simpl. destruct (String.eqb_spec t ""); [done|]. rewrite Hl.
  destruct (String.eqb_spec t ""); [done|]. simpl.
  unfold Normalize, net.SplitHostPort; simpl.
  assert (net.rcutc ":" host = None) as ->.
  { clear - Hc. revert Hc. unfold freec. induction host as [|x h IH]; simpl; [done|].
    intros [Hx Hh]%andb_prop. rewrite IH by done. by apply negb_true_iff in Hx as ->. }
  by rewrite (wrapU_id 16) by (simpl; lia).
Qed.

Lemma ConvertURI_GetURI_witness :
  let u := {| User := "a"; Host := "h"; uri_Addr := netip.AddrPortFrom netip.AddrZero 0;
              uri_Transport := "tls" |} in
  ConvertURI (GetURI u) = u.
Proof. apply ConvertURI_GetURI; simpl; (done || lia). Defined.

(** [Normalize] takes the port modulo 2^16 without checking it: an address
    with port 70000 gets port 4464, one with port -1 gets 65535. *)
Theorem Normalize_port_wraps :
  GetPort (CreateURIFromUserAndAddress "" "host:70000" "udp") = 4464 /\
  GetPort (CreateURIFromUserAndAddress "" "host:-1" "udp") = 65535.
Proof. split; vm_compute; reflexivity. Qed.

(** the destination string of an IPv4 address splits back into that address
    and port; that of an IPv6 address has no brackets and cannot be split. *)
Theorem GetDest_parses a b c d p user host t :
  0 <= a -> 0 <= b -> 0 <= c -> 0 <= d -> 1 <= p <= 65535 ->
  net.SplitHostPort
    (GetDest {| User := user; Host := host; uri_Addr := netip.AddrPortFrom (netip.Addr4 a b c d) p;
                uri_Transport := t |}) = inl (netip.string4 a b c d, utoa p) /\
  net.SplitHostPort
    (GetDest {| User := user; Host := host;
                uri_Addr := netip.AddrPortFrom (netip.Addr6 [0; 0; 0; 0; 0; 0; 0; 1] "") 5070;
                uri_Transport := t |}) = inr net.TooManyColons.
Proof.
  intros Ha Hb Hc Hd Hp. split; [|by vm_compute].
  unfold GetDest, GetPort; simpl. rewrite (proj2 (Z.eqb_neq p 0)), Itoa_nonneg by lia.
  change (":" +:+ utoa p) with (String ":" (utoa p)).
  unfold netip.string4.
  apply SplitHostPort_join; rewrite ?freec_app; rewrite !utoa_free by (lia || done); done.
Qed.

Lemma GetDest_parses_witness :
  net.SplitHostPort
    (GetDest {| User := ""; Host := ""; uri_Addr := netip.AddrPortFrom (netip.Addr4 10 0 0 1) 5060;
                uri_Transport := "udp" |}) = inl ("10.0.0.1", "5060").
Proof. destruct (GetDest_parses 10 0 0 1 5060 "" "" "udp") as [H _]; try lia. exact H. Defined.

(** the contact of a call names the signaling address itself over UDP and
    TCP, and the configured host name over TLS when there is one; its port is the
    TLS port only over TLS. *)
Theorem contact_host c ip t :
  netip.IsValid ip = true ->
  let su := GetContactURI (getContactURI c ip t) in
  su_Host su =
    (if String.eqb t TransportTLS && negb (String.eqb (SIPHostname c) "") then SIPHostname c
     else netip.String_ ip) /\
  su_Port su = u16 (match TLS_Port c with
                    | Some p => if String.eqb t TransportTLS then p else SIPPort c
                    | None => SIPPort c
                    end).
Proof.
  intros Hv su. subst su. unfold GetContactURI, getContactURI, GetURI, GetHost, transportPort; simpl.
  rewrite Hv, andb_true_r.
  destruct (String.eqb_spec t TransportTLS) as [->|]; simpl.
  - destruct (String.eqb_spec (SIPHostname c) "") as [->|]; done.
  - by destruct (_ || _).
Qed.

Lemma contact_host_witness :
  su_Host (GetContactURI (getContactURI
    {| SIPPort := 5060; TLS_Port := Some 5061; SIPHostname := "sip.example.com" |}
    (netip.Addr4 10 0 0 1) "udp")) = "10.0.0.1".
Proof.
  destruct (contact_host {| SIPPort := 5060; TLS_Port := Some 5061; SIPHostname := "sip.example.com" |}
    (netip.Addr4 10 0 0 1) "udp" eq_refl) as [H _]. exact H.
Defined.

(** the parameter [probElse] is the probability of the first value, not of
    the second: a positive sample below it selects [then_], and only a
    non-positive [probElse] selects [then_] always. *)
Theorem SelectValue_prob {T} (r p : Q) (a b : T) :
  Qlt 0 p -> SelectValue r a b p = if Qle_bool p r then b else a.
Proof.
  intros Hp. unfold SelectValue.
  destruct (Qle_bool p 0) eqn:H; [|by destruct (Qle_bool p r)].
  apply Qle_bool_iff in H. exfalso. by apply (Qlt_not_le _ _ Hp).
Qed.

Lemma SelectValue_prob_witness : SelectValueBool (1 # 2) true (1 # 100) = false.
Proof. unfold SelectValueBool. rewrite SelectValue_prob; reflexivity. Defined.

Example ipv6_text :
  map netip.String_
    [ netip.Addr6 [8193; 3512; 0; 0; 1; 0; 0; 1] "";
      netip.Addr6 [65152; 0; 0; 0; 0; 0; 0; 1] "eth0";
      netip.Addr6 [0; 0; 0; 0; 0; 65535; 2560; 1] "" ]
  = ["2001:db8::1:0:0:1"; "fe80::1%eth0"; "::ffff:10.0.0.1"].
Proof. reflexivity. Qed.
