(* ===== verification/Protocol.v ===== *)
(** * SIP protocol helpers

    [pkg/sip/protocol.go]: status names and responses, the response loop of a
    client transaction ([sipResponse] of [outbound.go]) and the BYE and REFER
    requests built on it, NOTIFY parsing, the mapping of errors to SIP codes, and
    the Subscription-State and Reason headers. *)

From stdpp Require Import base tactics list strings option.
From Stdlib Require Import ZArith Ascii Lia.
From S2P Require Import Prelude GoStd GoErr Participant Errors Types.
Import strings strconv unquote.

(** ** Timeouts, in nanoseconds *)
Definition notifyAckTimeout : Z := 5 * second.
Definition referByeTimeout : Z := second.
Definition byeRetryGrace : Z := 5 * second.
Definition referResultGrace : Z := second.

(** ** Status names *)
Definition statusNamesMap : list (Z * string) :=
  [
    (100, "Trying");
    (180, "Ringing");
    (181, "Call Is Being Forwarded");
    (182, "Queued");
    (183, "Session Progress");
    (199, "Early Dialog Terminated");
    (200, "OK");
    (202, "Accepted");
    (204, "No Notification");
    (300, "Multiple Choices");
    (301, "Moved Permanently");
    (302, "Moved Temporarily");
    (305, "Use Proxy");
    (380, "Alternative Service");
    (400, "Bad Request");
    (401, "Unauthorized");
    (402, "Payment Required");
    (403, "Forbidden");
    (404, "Not Found");
    (405, "Method Not Allowed");
    (406, "Not Acceptable");
    (407, "Proxy Authentication Required");
    (408, "Request Timeout");
    (409, "Conflict");
    (410, "Gone");
    (411, "Length Required");
    (412, "Conditional Request Failed");
    (413, "Request Entity Too Large");
    (414, "Request URI Too Long");
    (415, "Unsupported Media Type");
    (416, "Unsupported URI Scheme");
    (417, "Unknown Resource-Priority");
    (420, "Bad Extension");
    (421, "Extension Required");
    (422, "Session Interval Too Small");
    (423, "Interval Too Brief");
    (424, "Bad Location Information");
    (425, "Bad Alert Message");
    (428, "Use Identity Header");
    (429, "Provide Referrer Identity");
    (430, "Flow Failed");
    (433, "Anonymity Disallowed");
    (436, "Bad Identity Info");
    (437, "Unsupported Credential");
    (438, "Invalid Identity Header");
    (439, "First Hop Lacks Outbound Support");
    (440, "Max-Breadth Exceeded");
    (469, "Bad Info Package");
    (470, "Consent Needed");
    (480, "Temporarily Unavailable");
    (481, "Call Does Not Exist");
    (482, "Loop Detected");
    (483, "Too Many Hops");
    (484, "Address Incomplete");
    (485, "Ambiguous");
    (486, "Busy Here");
    (487, "Request Terminated");
    (488, "Not Acceptable Here");
    (489, "Bad Event");
    (491, "Request Pending");
    (493, "Undecipherable");
    (494, "Security Agreement Required");
    (500, "Internal Server Error");
    (501, "Not Implemented");
    (502, "Bad Gateway");
    (503, "Service Unavailable");
    (504, "Gateway Timeout");
    (505, "Version Not Supported");
    (513, "Message Too Large");
    (555, "Push Notification Service Not Supported");
    (580, "Precondition Failure");
    (600, "Busy Everywhere");
    (603, "Decline");
    (604, "Does Not Exist Anywhere");
    (606, "Not Acceptable Anywhere");
    (607, "Unwanted");
    (608, "Rejected") ].

Fixpoint statusLookup (code : Z) (l : list (Z * string)) : string :=
  match l with
  | [] => ""
  | (c, name) :: l' => if code =? c then name else statusLookup code l'
  end.

Definition sipStatus (code : Z) : string :=
  let name := statusLookup code statusNamesMap in
  if String.eqb name "" then "Status " +:+ fmt_d code else name.

Definition sipStatusOr (code : Z) (defaultStatus : string) : string :=
  let name := statusLookup code statusNamesMap in
  if String.eqb name "" then defaultStatus else name.

Definition statusName (status : Z) : string :=
  let name := statusLookup status statusNamesMap in
  if String.eqb name "" then "status-" +:+ fmt_d status
  else fmt_d status +:+ "-" +:+ RemoveC " " name.

(** ** Responses

    A response the code builds: status code, reason phrase and body.  The
    headers copied from the request are the SIP library's. *)
Record OutResponse := { or_Code : Z; or_Reason : string; or_Body : string }.

Definition newResponse (code : Z) (reason body : string) : OutResponse :=
  {| or_Code := code;
     or_Reason := if String.eqb reason "" then sipStatus code else reason;
     or_Body := body |}.

Record SResult := { res_Code : Z; res_Status : string }.

Definition Result_NewResponse (r : SResult) : OutResponse :=
  newResponse (if res_Code r =? 0 then 503 else res_Code r) (res_Status r) "".

(** ** The response loop of a client transaction

    What the [select] of [sipResponse] can receive.  A nil [stop] channel is
    never ready, so [EvStop] is then skipped. *)
Inductive TxEvent :=
| EvCtxDone (cause : error)
| EvStop
| EvTxDone
| EvResponse (r : option Response).

Inductive TxEffect :=
| TxCancel                   (* tx.Cancel() *)
| TxOnResponse (code : Z)    (* the onResponse callback *)
| TxTerminate.               (* tx.Terminate() *)

Record TxResult := {
  tx_res : option Response;
  tx_cancelled : string;
  tx_err : option error;
}.

(** The loop over a script of select outcomes; [None] when the script ends while
    the loop is still waiting. *)
Fixpoint sipResponse (hasStop onResponse : bool) (cnt : Z) (script : list TxEvent)
    : list TxEffect * option TxResult :=
  match script with
  | [] => ([], None)
  | EvCtxDone cause :: _ =>
      ([TxCancel],
       Some {| tx_res := None;
               tx_cancelled := if errors.Is cause ErrSIPRequestTimeout then "timeout" else "hangup";
               tx_err := Some (NewError Canceled (ESentinel ErrSIPRequestTimeout)) |})
  | EvStop :: script' =>
      if hasStop then
        ([TxCancel],
         Some {| tx_res := None; tx_cancelled := "shutdown";
                 tx_err := Some (NewErrorf Canceled "service shutting down") |})
      else sipResponse hasStop onResponse cnt script'
  | EvTxDone :: _ | EvResponse None :: _ =>
      ([], Some {| tx_res := None; tx_cancelled := "";
                   tx_err := Some (NewError Canceled (ETxTimeout cnt)) |})
  | EvResponse (Some res) :: script' =>
      let cb := if onResponse then [TxOnResponse (StatusCode res)] else [] in
      if negb (Z.quot (StatusCode res) 100 =? 1) then
        (cb, Some {| tx_res := Some res; tx_cancelled := ""; tx_err := None |})
      else
        let '(eff, r) := sipResponse hasStop onResponse (cnt + 1) script' in (cb ++ eff, r)
  end.

(** [sendBye]: the outcome of [c.Transaction(req)] is an error or the script of
    the transaction. *)
Definition sendBye (tx : error + list TxEvent)
    : list TxEffect * option (option Response * option error) :=
  match tx with
  | inl err => ([], Some (None, Some err))
  | inr script =>
      match sipResponse false false 0 script with
      | (eff, None) => (eff, None)
      | (eff, Some r) =>
          (eff ++ [TxTerminate],
           Some (match tx_err r with
                 | Some err => (None, Some err)
                 | None => (tx_res r, None)
                 end))
      end
  end.

Definition byeSucceeded (res : option Response) (err : option error) : bool :=
  match err, res with
  | None, Some r => (200 <=? StatusCode r) && (StatusCode r <? 300)
  | _, _ => false
  end.

(** [sendRefer]; its context is detached from cancellation, so the script it
    runs on has no [EvCtxDone]. *)
Definition isCtxDone (e : TxEvent) : bool :=
  match e with EvCtxDone _ => true | _ => false end.

Definition sendRefer (tx : error + list TxEvent)
    : list TxEffect * option (option Response * option error) :=
  match tx with
  | inl err => ([], Some (None, Some err))
  | inr script =>
      match sipResponse true false 0 (List.filter (fun e => negb (isCtxDone e)) script) with
      | (eff, None) => (eff, None)
      | (eff, Some r) =>
          (eff ++ [TxTerminate],
           Some (match tx_err r, tx_res r with
                 | Some err, _ => (None, Some err)
                 | None, Some resp =>
                     if (StatusCode resp =? 200) || (StatusCode resp =? 202) then (Some resp, None)
                     else (Some resp, Some (ESIPStatus {| Code := i32 (StatusCode resp);
                                                          Status := resp_Reason resp |}))
                 | None, None => (None, None)
                 end))
      end
  end.

(** ** NOTIFY bodies *)
Definition numErrText (fn s : string) (e : NumErr) : string :=
  "strconv." +:+ fn +:+ ": parsing " +:+ fmt_q s +:+ ": " +:+
  match e with ErrSyntax => "invalid syntax" | ErrRange => "value out of range" end.

Definition parseNotifyBody (body : string) : error + (Z * string) :=
  match SplitN " " 3 body with
  | v0 :: v1 :: rest =>
      if negb (String.eqb (ToUpper v0) "SIP/2.0") then
        inl (NewErrorf InvalidArgument "invalid notify body: wrong prefix or SIP version")
      else
        match ParseInt10 32 v1 with
        | (_, Some e) => inl (NewError InvalidArgument (EText (numErrText "ParseInt" v1 e)))
        | (code, None) =>
            if (code <? 100) || (699 <? code) then
              inl (NewErrorf InvalidArgument
                     ("invalid notify body: status " +:+ fmt_d code +:+ " out of range"))
            else
              match rest with
              | [] => inr (code, "")
              | reason :: _ =>
                  inr (code, match cutc newline reason with
                             | Some (l, _) => TrimSuffixC creturn l
                             | None => reason
                             end)
              end
        end
  | _ => inl (NewErrorf InvalidArgument "invalid notify body: not enough tokens")
  end.

(** ** Subscription-State *)
Record SubscriptionState := {
  sub_State : string;
  sub_Reason : string;
  sub_Expires : Z;
}.

#[global] Instance SubscriptionState_eq_dec : EqDecision SubscriptionState.
Proof. solve_decision. Defined.

Definition zeroSub : SubscriptionState :=
  {| sub_State := ""; sub_Reason := ""; sub_Expires := 0 |}.

Definition Terminated (s : SubscriptionState) : bool := String.eqb (sub_State s) "terminated".

Definition SubscriptionState_String (s : SubscriptionState) : string :=
  if String.eqb (sub_State s) "" then "<none>"
  else if String.eqb (sub_Reason s) "" then sub_State s
  else sub_State s +:+ ";reason=" +:+ sub_Reason s.

(** One parameter of a header: the lower-case key and the value, both trimmed;
    [None] if there is no "=". *)
Definition headerParam (line : string) : option (string * string) :=
  match cutc "=" (TrimSpace line) with
  | None => None
  | Some (k, v) => Some (ToLower (TrimSpace k), TrimSpace v)
  end.

Definition subParam (st : SubscriptionState) (line : string) : SubscriptionState :=
  match headerParam line with
  | None => st
  | Some (key, val) =>
      if String.eqb key "reason" then
        {| sub_State := sub_State st; sub_Reason := ToLower val; sub_Expires := sub_Expires st |}
      else if String.eqb key "expires" then
        {| sub_State := sub_State st; sub_Reason := sub_Reason st; sub_Expires := atoi_val val |}
      else st
  end.

Definition ParseSubscriptionState (header : string) : SubscriptionState :=
  match Split ";" header with
  | [] => zeroSub
  | h :: params =>
      fold_left subParam params
        {| sub_State := ToLower (TrimSpace h); sub_Reason := ""; sub_Expires := 0 |}
  end.

(** ** The Event header *)

Definition prepend (c : ascii) (l : list string) : list string :=
  match l with
  | h :: t => String c h :: t
  | [] => [String c ""]
  end.

(** The loop of [splitEventParams]; [quoted] is its local variable, and the text
    since [start] is the head of the list. *)
Fixpoint splitLoop (quoted : bool) (v : string) : list string :=
  match v with
  | "" => [""]
  | String c v' =>
      if Ascii.eqb c bslash then
        if quoted then
          match v' with
          | "" => [String c ""]
          | String d v'' => prepend c (prepend d (splitLoop quoted v''))
          end
        else prepend c (splitLoop quoted v')
      else if Ascii.eqb c dquote then prepend c (splitLoop (negb quoted) v')
      else if Ascii.eqb c ";" && negb quoted then "" :: splitLoop quoted v'
      else prepend c (splitLoop quoted v')
  end.

Definition splitEventParams (v : string) : list string := splitLoop false v.

Record notifyInfo := {
  ni_Method : string;
  ni_CSeq : Z;
  ni_Status : Z;
  ni_Reason : string;
  ni_Sub : SubscriptionState;
}.

(** The loop over the event parameters: the value of the last "id" parameter, or
    the error of the first one that is no 32-bit number. *)
Fixpoint eventID (cseq : Z) (params : list string) : error + Z :=
  match params with
  | [] => inr cseq
  | p :: params' =>
      let '(key, val) := Cut "=" p in
      if negb (EqualFold (TrimSpace key) "id") then eventID cseq params'
      else match ParseUint10 32 (TrimSpace val) with
           | (_, Some _) =>
               inl (NewErrorf MalformedRequest ("invalid event id " +:+ fmt_q val))
           | (n, None) => eventID (u32 n) params'
           end
  end.

Definition handleNotify (req : Request) : error + notifyInfo :=
  match orElse (req_GetHeader req "Event") (req_GetHeader req "o") with
  | None => inl (NewErrorf MalformedRequest "no event in NOTIFY request")
  | Some event =>
      match splitEventParams event with
      | [] => inl (NewErrorf Unimplemented "unknown event")
      | p0 :: params =>
          if negb (EqualFold (TrimSpace p0) "refer") then
            inl (NewErrorf Unimplemented "unknown event")
          else
            match eventID 0 params with
            | inl err => inl err
            | inr cseq =>
                let sub := match req_GetHeader req "Subscription-State" with
                           | Some h => ParseSubscriptionState h
                           | None => zeroSub
                           end in
                let body := TrimSpace (req_Body req) in
                if String.eqb body "" then
                  inr {| ni_Method := "REFER"; ni_CSeq := cseq; ni_Status := 0;
                         ni_Reason := ""; ni_Sub := sub |}
                else
                  match parseNotifyBody body with
                  | inl err => inl err
                  | inr (status, reason) =>
                      inr {| ni_Method := "REFER"; ni_CSeq := cseq; ni_Status := status;
                             ni_Reason := reason; ni_Sub := sub |}
                  end
            end
      end
  end.

(** ** The result of a REFER

    [None]: the NOTIFY decides nothing (it is for another REFER, or the
    transfer is still in progress).  [Some r]: [r] is offered on [referDone]
    until it is taken or [notifyAckTimeout] has passed; a nil error means
    success.  [GetErrorCode] of a SIP status is library code, the parameter
    [sipErrorCode]. *)
Definition handleReferNotify (sipErrorCode : SIPStatus -> ErrorCode) (info : notifyInfo)
    (referCseq : Z) : option (option error) :=
  if negb (ni_CSeq info =? 0) && negb (ni_CSeq info =? referCseq) then None
  else if ni_Status info =? 200 then Some None
  else if (ni_Status info =? 0) || ((100 <=? ni_Status info) && (ni_Status info <? 200)) then
    if negb (Terminated (ni_Sub info)) then None
    else
      let reason := if String.eqb (sub_Reason (ni_Sub info)) "" then "unspecified"
                    else sub_Reason (ni_Sub info) in
      Some (Some (NewErrorfW UpstreamServerError "call transfer failed: "
                    (ESentinel errReferSubscriptionTerminated)
                    (" (reason " +:+ fmt_q reason +:+ ", last status "
                       +:+ fmt_d (ni_Status info) +:+ ")")))
  else
    let st := {| Code := i32 (ni_Status info); Status := ni_Reason info |} in
    let errorCode := sipErrorCode st in
    let errorCode :=
      if bool_decide (errorCode = Internal) || bool_decide (errorCode = Unavailable) then
        if (ni_Status info <? 500) || (600 <=? ni_Status info) then UpstreamClientError
        else UpstreamServerError
      else errorCode in
    Some (Some (NewErrorfW errorCode "call transfer failed: " (ESIPStatus st) "")).

(** ** Errors as SIP codes *)
Definition sipStatusForErrorCode (code : ErrorCode) : Z :=
  match code with
  | OK => 200
  | Canceled | DeadlineExceeded => 408
  | Unknown | MalformedResponse | Internal | DataLoss => 500
  | InvalidArgument | MalformedRequest => 400
  | NotFound => 404
  | NotAcceptable => 406
  | AlreadyExists | Aborted => 409
  | PermissionDenied => 403
  | ResourceExhausted => 480
  | FailedPrecondition => 481
  | OutOfRange => 416
  | Unimplemented => 501
  | Unavailable => 503
  | Unauthenticated => 401
  | UpstreamServerError => 502
  | UpstreamClientError => 480
  | OtherCode _ => 500
  end.

Definition sipCodeAndMessageFromError `{ErrorText} (err : option error) : Z * string :=
  match err with
  | None => (200, "success")
  | Some e =>
      (match errors.AsPsrpc e with
       | Some c => sipStatusForErrorCode c
       | None => 500
       end, Error e)
  end.

(** ** Reason *)
Record ReasonHeader := { rh_Type : string; rh_Cause : Z; rh_Text : string }.

#[global] Instance ReasonHeader_eq_dec : EqDecision ReasonHeader.
Proof. solve_decision. Defined.

Definition zeroReason : ReasonHeader := {| rh_Type := ""; rh_Cause := 0; rh_Text := "" |}.

Definition IsZero (r : ReasonHeader) : bool := bool_decide (r = zeroReason).

Definition IsNormal (r : ReasonHeader) : bool :=
  if IsZero r then true
  else if String.eqb (rh_Type r) "q.850" then rh_Cause r =? 16
  else if String.eqb (rh_Type r) "x.int" then rh_Cause r =? 0
  else if String.eqb (rh_Type r) "release_cause" then rh_Cause r =? 1
  else if String.eqb (rh_Type r) "sip" then (rh_Cause r =? 0) || (rh_Cause r =? 200)
  else false.

Definition ReasonHeader_String (r : ReasonHeader) : string :=
  if IsZero r then "<none>"
  else rh_Type r +:+ "-" +:+ fmt_d (rh_Cause r) +:+ ": " +:+ rh_Text r.

(** The loop over the parameters keeps the header and the raw reason code. *)
Definition unquoted (val : string) : string := default "" (Unquote val).

Definition reasonParam (acc : ReasonHeader * string) (line : string) : ReasonHeader * string :=
  let '(r, reasonCode) := acc in
  match headerParam line with
  | None => (r, reasonCode)
  | Some (key, val) =>
      if String.eqb key "cause" then
        ({| rh_Type := rh_Type r; rh_Cause := atoi_val val; rh_Text := rh_Text r |}, reasonCode)
      else if String.eqb key "text" then
        ({| rh_Type := rh_Type r; rh_Cause := rh_Cause r; rh_Text := unquoted val |}, reasonCode)
      else if String.eqb key "description" then
        if String.eqb (rh_Text r) "" then
          ({| rh_Type := rh_Type r; rh_Cause := rh_Cause r; rh_Text := unquoted val |}, reasonCode)
        else (r, reasonCode)
      else if String.eqb key "reasoncode" then (r, val)
      else (r, reasonCode)
  end.

Definition ParseReasonHeader (header : string) : error + ReasonHeader :=
  match Split ";" header with
  | t :: p :: params =>
      let typ := ToLower (TrimSpace t) in
      let '(r, reasonCode) :=
        fold_left reasonParam (p :: params)
          ({| rh_Type := typ; rh_Cause := 0; rh_Text := "" |}, "") in
      inr
        (if String.eqb typ "x.int" && (rh_Cause r =? 0) then
           if negb (String.eqb reasonCode "") then
             {| rh_Type := rh_Type r; rh_Cause := i64 (ParseUint0 64 reasonCode).1;
                rh_Text := rh_Text r |}
           else if negb (String.eqb (rh_Text r) "") then
             {| rh_Type := rh_Type r; rh_Cause := i64 (ParseUint0 64 (rh_Text r)).1;
                rh_Text := match (ParseUint0 64 (rh_Text r)).2 with
                           | None => ""
                           | Some _ => rh_Text r
                           end |}
           else r
         else r)
  | _ => inl (EText "no fields in the reason")
  end.

(** ** Examples from the unit tests of the repository *)
Example notify_ex :
  parseNotifyBody "SIP/2.0 404 Not found" = inr (404, "Not found") /\
  splitEventParams ("refer;x=" +:+ fmt_q "a;b" +:+ ";id=1") = ["refer"; "x=" +:+ fmt_q "a;b"; "id=1"] /\
  ParseSubscriptionState " Terminated ; Reason = TimeOut " =
    {| sub_State := "terminated"; sub_Reason := "timeout"; sub_Expires := 0 |}.
Proof. repeat split. Qed.

Example reason_ex :
  ParseReasonHeader "X.int;ReasonCode=0x0000032D;add-info=05CC.0001.0004" =
  inr {| rh_Type := "x.int"; rh_Cause := 813; rh_Text := "" |}.
Proof. reflexivity. Qed.

(** ** Lemmas *)

#[local] Arguments String.eqb : simpl never.

Lemma sipStatus_nonempty code : sipStatus code <> "".
Proof.
  unfold sipStatus. cbv zeta. destruct (String.eqb_spec (statusLookup code statusNamesMap) ""); done.
Qed.

(** The events on which the loop of [sipResponse] goes on waiting. *)
Definition provisional (hasStop : bool) (e : TxEvent) : bool :=
  match e with
  | EvResponse (Some r) => Z.quot (StatusCode r) 100 =? 1
  | EvStop => negb hasStop
  | _ => false
  end.

Definition isResponse (e : TxEvent) : bool :=
  match e with EvResponse (Some _) => true | _ => false end.

(** What the loop returns on the first event that ends it, after [cnt]
    provisional responses. *)
Definition txVerdict (cnt : Z) (e : TxEvent) : TxResult :=
  match e with
  | EvCtxDone cause =>
      {| tx_res := None;
         tx_cancelled := if errors.Is cause ErrSIPRequestTimeout then "timeout" else "hangup";
         tx_err := Some (NewError Canceled (ESentinel ErrSIPRequestTimeout)) |}
  | EvStop => {| tx_res := None; tx_cancelled := "shutdown";
                 tx_err := Some (NewErrorf Canceled "service shutting down") |}
  | EvTxDone | EvResponse None =>
      {| tx_res := None; tx_cancelled := ""; tx_err := Some (NewError Canceled (ETxTimeout cnt)) |}
  | EvResponse (Some r) => {| tx_res := Some r; tx_cancelled := ""; tx_err := None |}
  end.

Lemma sipResponse_spec hs onr cnt pre e rest :
  forallb (provisional hs) pre = true -> provisional hs e = false ->
  (sipResponse hs onr cnt (pre ++ e :: rest)).2 =
    Some (txVerdict (cnt + Z.of_nat (countb isResponse pre)) e).
Proof.
  revert cnt. induction pre as [|p pre IH]; intros cnt Hpre He; simpl.
  - rewrite Z.add_0_r. destruct e as [cause| | |[r|]]; simpl in *; try done.
    + by destruct hs.
    + by rewrite He.
  - simpl in Hpre. apply andb_prop in Hpre as [Hp Hpre].
    destruct p as [cause| | |[r|]]; simpl in *; try done.
    + destruct hs; [done|]. by rewrite countb_cons, IH.
    + rewrite Hp; simpl. specialize (IH (cnt + 1) Hpre He).
      destruct (sipResponse hs onr (cnt + 1) (pre ++ e :: rest)) as [eff r'].
      simpl in *. rewrite IH, countb_cons. simpl. do 2 f_equal. lia.
Qed.

(** A loop that has not returned has only seen events it waits through. *)
Lemma sipResponse_waiting hs onr cnt script :
  (sipResponse hs onr cnt script).2 = None <-> forallb (provisional hs) script = true.
Proof.
  revert cnt. induction script as [|p script IH]; intros cnt; simpl; [done|].
  destruct p as [cause| | |[r|]]; simpl; try done.
  - destruct hs; [done|]. apply IH.
  - destruct (Z.quot (StatusCode r) 100 =? 1); simpl; [|done].
    specialize (IH (cnt + 1)). by destruct (sipResponse _ _ (cnt + 1) script).
Qed.

Lemma prepend_Join c sep l : l <> [] -> Join sep (prepend c l) = String c (Join sep l).
Proof. destruct l as [|h [|h' t]]; simpl; done. Qed.

Lemma prepend_nonnil c l : prepend c l <> [].
Proof. by destruct l. Qed.

Lemma splitLoop_nonnil q v : splitLoop q v <> [].
Proof.
  destruct v as [|c v]; simpl; [done|].
  repeat case_match; try done; apply prepend_nonnil.
Qed.

#[local] Hint Resolve splitLoop_nonnil prepend_nonnil : go.

Lemma splitLoop_Join q v : Join ";" (splitLoop q v) = v.
Proof.
  remember (String.length v) as n eqn:Hn. revert q v Hn.
  induction n as [n IH] using (well_founded_induction Wf_nat.lt_wf); intros q v Hn.
  destruct v as [|c v]; simpl; [done|].
  assert (Hrec : forall q', Join ";" (splitLoop q' v) = v)
    by (intros q'; eapply IH; [| reflexivity]; simpl in Hn; lia).
  destruct (Ascii.eqb c bslash) eqn:Hb.
  - destruct q; [|by rewrite prepend_Join, Hrec by eauto with go].
    destruct v as [|d v]; [done|].
    rewrite !prepend_Join by eauto with go. do 2 f_equal.
    eapply IH; [| reflexivity]. simpl in Hn; lia.
  - destruct (Ascii.eqb c dquote); [by rewrite prepend_Join, Hrec by eauto with go|].
    destruct (Ascii.eqb_spec c ";") as [->|]; simpl.
    + destruct q; simpl; [by rewrite prepend_Join, Hrec by eauto with go|].
      pose proof (splitLoop_nonnil false v). specialize (Hrec false).
      destruct (splitLoop false v); [done|]. by rewrite Hrec.
    + by rewrite prepend_Join, Hrec by eauto with go.
Qed.

(** Scanning a parameter with the quoting rules of the header: the quoting state
    at its end, [None] if it has a semicolon outside quotes or ends inside an
    escape. *)
Fixpoint scan (quoted : bool) (p : string) : option bool :=
  match p with
  | "" => Some quoted
  | String c p' =>
      if Ascii.eqb c bslash then
        if quoted then match p' with "" => None | String _ p'' => scan quoted p'' end
        else scan quoted p'
      else if Ascii.eqb c dquote then scan (negb quoted) p'
      else if Ascii.eqb c ";" && negb quoted then None
      else scan quoted p'
  end.

Lemma splitLoop_scan q q' p rest h t :
  scan q p = Some q' -> splitLoop q' rest = h :: t ->
  splitLoop q (p +:+ rest) = (p +:+ h) :: t.
Proof.
  intros Hs Hr. revert q Hs.
  remember (String.length p) as n eqn:Hn. revert p Hn.
  induction n as [n IH] using (well_founded_induction Wf_nat.lt_wf); intros p Hn q Hs.
  destruct p as [|c p]; simpl in *; [by simplify_eq|].
  assert (Hrec : forall q0, scan q0 p = Some q' -> splitLoop q0 (p +:+ rest) = (p +:+ h) :: t)
    by (intros q0; eapply IH; [| reflexivity]; lia).
  destruct (Ascii.eqb c bslash).
  - destruct q; [|by rewrite Hrec].
    destruct p as [|d p]; [done|]. simpl.
    rewrite (IH (String.length p)) by (done || (simpl in Hn; lia)). done.
  - destruct (Ascii.eqb c dquote); [by rewrite Hrec|].
    destruct (Ascii.eqb c ";" && negb q); [done|]. by rewrite Hrec.
Qed.

Lemma splitLoop_Join_scan l :
  l <> [] -> Forall (fun p => scan false p = Some false) l ->
  splitLoop false (Join ";" l) = l.
Proof.
  intros Hne Hl. induction Hl as [|p l Hp Hl IH]; [done|].
  destruct l as [|p' l].
  - simpl. rewrite <- (sapp_nil_r p) at 1.
    rewrite (splitLoop_scan false false p "" "" [] Hp eq_refl). by rewrite sapp_nil_r.
  - specialize (IH ltac:(done)).
    change (Join ";" (p :: p' :: l)) with (p +:+ String ";" (Join ";" (p' :: l))).
    rewrite (splitLoop_scan false false p _ "" (p' :: l) Hp); [by rewrite sapp_nil_r|].
    simpl in IH |- *. by rewrite IH.
Qed.

(** A status line: its three tokens. *)
Lemma SplitN_status a b r :
  freec " " a = true -> freec " " b = true ->
  SplitN " " 3 (a +:+ String " " (b +:+ String " " r)) = [a; b; r].
Proof. intros Ha Hb. simpl. by rewrite cutc_app, cutc_app. Qed.

Lemma TrimSuffixC_app c s : TrimSuffixC c (s +:+ String c "") = s.
Proof.
  induction s as [|x s IH]; simpl; [by rewrite Ascii.eqb_refl|].
  destruct s; simpl in *; [by rewrite Ascii.eqb_refl|]. by rewrite IH.
Qed.

Lemma parseNotifyBody_code prefix code r :
  ToUpper prefix = "SIP/2.0" -> freec " " prefix = true -> 100 <= code <= 699 ->
  parseNotifyBody (prefix +:+ String " " (utoa code +:+ String " " r)) =
  inr (code, match cutc newline r with
             | Some (l, _) => TrimSuffixC creturn l
             | None => r
             end).
Proof.
  intros Hp Hf Hc. unfold parseNotifyBody.
  rewrite SplitN_status by (done || (apply utoa_free; [lia | done])).
  rewrite Hp. simpl. rewrite ParseInt10_utoa by (simpl; lia).
  rewrite (proj2 (Z.ltb_ge code 100)), (proj2 (Z.ltb_ge 699 code)) by lia. done.
Qed.

Lemma parseNotifyBody_range body c r :
  parseNotifyBody body = inr (c, r) -> 100 <= c <= 699.
Proof.
  unfold parseNotifyBody. intros H.
  destruct (SplitN " " 3 body) as [|v0 [|v1 rest]]; [done|done|].
  destruct (negb _); [done|].
  destruct (ParseInt10 32 v1) as [code [e|]]; [done|].
  destruct ((code <? 100) || (699 <? code)) eqn:Hr; [done|].
  apply orb_false_iff in Hr as [H1%Z.ltb_ge H2%Z.ltb_ge].
  destruct rest; simplify_eq; lia.
Qed.

(** Header parameters without spaces are read as they are written. *)
Lemma headerParam_plain k v :
  allc (fun c => negb (Ascii.is_space c)) k = true ->
  allc (fun c => negb (Ascii.is_space c)) v = true -> freec "=" k = true ->
  headerParam (k +:+ String "=" v) = Some (ToLower k, v).
Proof.
  intros Hk Hv Hf. unfold headerParam.
  rewrite (TrimSpace_nospace (k +:+ String "=" v)) by (rewrite allc_app, Hk; done).
  rewrite cutc_app by done. by rewrite !TrimSpace_nospace.
Qed.

(** The same for a quoted value, which may contain spaces. *)
Lemma headerParam_quoted x k v :
  Ascii.is_space x = false -> allc (fun c => negb (Ascii.is_space c)) (String x k) = true ->
  freec "=" (String x k) = true ->
  headerParam (String x k +:+ String "=" (quote v)) = Some (ToLower (String x k), quote v).
Proof.
  intros Hx Hk Hf. unfold headerParam, quote.
  replace (String x k +:+ String "=" (String dquote (v +:+ String dquote "")))
    with (String x ((k +:+ String "=" (String dquote v)) +:+ String dquote ""))
    by (rewrite sapp_cons, sapp_assoc; done).
  rewrite TrimSpace_ends by done.
  replace (String x ((k +:+ String "=" (String dquote v)) +:+ String dquote ""))
    with (String x k +:+ String "=" (String dquote (v +:+ String dquote "")))
    by (rewrite sapp_cons, sapp_assoc; done).
  rewrite cutc_app by done. rewrite TrimSpace_nospace by done.
  by rewrite TrimSpace_ends.
Qed.

Lemma allc_digits_nospace n :
  0 <= n -> allc (fun c => negb (Ascii.is_space c)) (utoa n) = true.
Proof. intros H. eapply allc_impl; [apply digit_nospace | by apply utoa_digits]. Qed.

(** ** Properties *)

(** the response loop returns exactly when something other than a
    provisional response arrives, whatever follows it, and its result is decided
    by that event alone: a final response is returned without error, a closed
    transaction becomes a timeout that counts the provisional responses seen
    before, and a cancellation or shutdown an error that hides them. *)
Theorem sipResponse_first_decisive hs onr pre e rest :
  forallb (provisional hs) pre = true -> provisional hs e = false ->
  (sipResponse hs onr 0 (pre ++ e :: rest)).2 =
    Some (txVerdict (Z.of_nat (countb isResponse pre)) e) /\
  (sipResponse hs onr 0 pre).2 = None.
Proof.
  intros Hpre He. rewrite sipResponse_spec by done. split; [done|].
  by apply sipResponse_waiting.
Qed.

Definition exResponse (code : Z) : Response :=
  {| StatusCode := code; resp_Reason := ""; GetHeader := fun _ => None;
     resp_To := Some ("sip:b@h", Some "tt"); resp_Body := "" |}.

Lemma sipResponse_first_decisive_witness :
  (sipResponse true true 0 ([EvResponse (Some (exResponse 100)); EvResponse (Some (exResponse 180))]
     ++ EvTxDone :: [])).2 = Some (txVerdict 2 EvTxDone).
Proof.
  refine (proj1 (sipResponse_first_decisive true true
    [EvResponse (Some (exResponse 100)); EvResponse (Some (exResponse 180))] EvTxDone [] _ _));
    reflexivity.
Defined.

(** the transaction is cancelled exactly when the loop ends because of the
    context or the shutdown, and once only. *)
Theorem sipResponse_cancel hs onr cnt script :
  countb (fun e => match e with TxCancel => true | _ => false end)
    (sipResponse hs onr cnt script).1 =
  match (sipResponse hs onr cnt script).2 with
  | Some r => if String.eqb (tx_cancelled r) "" then 0%nat else 1%nat
  | None => 0%nat
  end.
Proof.
  revert cnt. induction script as [|p script IH]; intros cnt; simpl; [done|].
  destruct p as [cause| | |[r|]]; simpl; try done.
  - by destruct (errors.Is cause _).
  - destruct hs; [done|]. apply IH.
  - destruct (Z.quot (StatusCode r) 100 =? 1); simpl; [|by destruct onr].
    specialize (IH (cnt + 1)). destruct (sipResponse hs onr (cnt + 1) script) as [eff r'].
    simpl in *. rewrite countb_app, IH. by destruct onr.
Qed.

(** a status line written with a code in the SIP range is read back with its
    code and reason, with or without a line end after it, and every code that is
    read is in that range. *)
Theorem parseNotifyBody_roundtrip code reason tail :
  100 <= code <= 699 -> freec newline reason = true ->
  let line := "SIP/2.0 " +:+ utoa code +:+ String " " reason in
  parseNotifyBody line = inr (code, reason) /\
  parseNotifyBody (line +:+ String creturn (String newline tail)) = inr (code, reason) /\
  (forall body c r, parseNotifyBody body = inr (c, r) -> 100 <= c <= 699).
Proof.
  intros Hc Hr line. subst line.
  change ("SIP/2.0 " +:+ ?x) with ("SIP/2.0" +:+ String " " x).
  split; [|split; [|apply parseNotifyBody_range]].
  - rewrite parseNotifyBody_code by done. by rewrite cutc_free.
  - rewrite !sapp_assoc, !sapp_cons, !sapp_assoc, !sapp_cons.
    change (String "S" ?x) with ("SIP/2.0" +:+ String " " (utoa code +:+ String " "
      (reason +:+ String creturn (String newline tail)))).
    rewrite parseNotifyBody_code by done.
    replace (reason +:+ String creturn (String newline tail))
      with ((reason +:+ String creturn "") +:+ String newline tail) by by rewrite sapp_assoc.
    rewrite cutc_app by (rewrite freec_app, Hr; done).
    by rewrite TrimSuffixC_app.
Qed.

Lemma parseNotifyBody_roundtrip_witness :
  parseNotifyBody ("SIP/2.0 " +:+ utoa 486 +:+ String " " "Busy Here") = inr (486, "Busy Here").
Proof.
  refine (proj1 (parseNotifyBody_roundtrip 486 "Busy Here" "" _ _)); [lia | reflexivity].
Defined.

(** an Event header is split at the semicolons outside quoted strings: no
    text is lost, and joining parameters that are well quoted and splitting them
    again gives the same parameters, semicolons inside quotes included. *)
Theorem splitEventParams_join v l :
  l <> [] -> Forall (fun p => scan false p = Some false) l ->
  Join ";" (splitEventParams v) = v /\ splitEventParams (Join ";" l) = l.
Proof. intros. split; [apply splitLoop_Join | by apply splitLoop_Join_scan]. Qed.

Lemma splitEventParams_join_witness :
  splitEventParams (Join ";" ["refer"; "x=" +:+ fmt_q "a;b"; "id=3"]) =
  ["refer"; "x=" +:+ fmt_q "a;b"; "id=3"].
Proof.
  refine (proj2 (splitEventParams_join "" ["refer"; "x=" +:+ fmt_q "a;b"; "id=3"] _ _)).
  - discriminate.
  - repeat constructor.
Defined.

Lemma handleReferNotify_success sipErrorCode info cseq :
  handleReferNotify sipErrorCode info cseq = Some None ->
  ((ni_CSeq info =? 0) || (ni_CSeq info =? cseq)) = true /\ ni_Status info = 200.
Proof.
  unfold handleReferNotify. destruct (ni_CSeq info =? 0), (ni_CSeq info =? cseq); try done; cbn [negb andb orb].
  all: destruct (Z.eqb_spec (ni_Status info) 200); [done|].
  all: destruct ((ni_Status info =? 0) || _); [by destruct (Terminated _)|done].
Qed.

(** what a NOTIFY says about a transfer.  It is a success exactly when it is
    for this REFER and carries 200, whatever the subscription says; it decides
    nothing exactly when it is for another REFER, or carries no final status while
    the subscription lives on; every failure is an error that is neither Internal
    nor Unavailable, so that it is not taken for a failure of the service. *)
Theorem handleReferNotify_decision sipErrorCode info cseq :
  let ours := (ni_CSeq info =? 0) || (ni_CSeq info =? cseq) in
  let pending := (ni_Status info =? 0) || ((100 <=? ni_Status info) && (ni_Status info <? 200)) in
  let r := handleReferNotify sipErrorCode info cseq in
  (r = Some None <-> ours = true /\ ni_Status info = 200) /\
  (r = None <-> ours = false \/ (pending = true /\ Terminated (ni_Sub info) = false)) /\
  (forall e, r = Some (Some e) ->
     exists c, errors.AsPsrpc e = Some c /\ c <> Internal /\ c <> Unavailable).
Proof.
  cbv zeta. unfold handleReferNotify.
  destruct (ni_CSeq info =? 0) eqn:H0, (ni_CSeq info =? cseq) eqn:H1; simpl;
    try (split; [split; [done | by intros []] | split; [split; [by left | done] | done]]).
  all: destruct (Z.eqb_spec (ni_Status info) 200) as [->|Hs]; simpl;
    [split; [done | split; [split; [done | intros [?|[? _]]; done] | done]] |].
  all: destruct ((ni_Status info =? 0) || _) eqn:Hp;
    [destruct (Terminated (ni_Sub info)) eqn:Ht; simpl |].
  all: split; [split; [done | by intros [_ ?]] |].
  all: split; [split; [done || (by right) | try done; intros [?|[? ?]]; done] |].
  all: intros e He; simplify_eq; simpl; eexists; (split; [reflexivity|]);
    try (split; discriminate).
  all: set (st := {| Code := _; Status := _ |});
    destruct (bool_decide_reflect (sipErrorCode st = Internal)),
      (bool_decide_reflect (sipErrorCode st = Unavailable)); simpl;
    try destruct ((ni_Status info <? 500) || (600 <=? ni_Status info)); split; congruence.
Qed.

(** the SIP answer to a request whose handling failed is 200 only if there
    was no error (or an error that is marked OK), and a code in 400..503
    otherwise. *)
Theorem sipCodeAndMessageFromError_code `{ErrorText} err :
  let code := (sipCodeAndMessageFromError err).1 in
  (code = 200 <-> match err with None => True | Some e => errors.AsPsrpc e = Some OK end) /\
  (code <> 200 -> 400 <= code <= 503).
Proof.
  unfold sipCodeAndMessageFromError. destruct err as [e|]; simpl; [|done].
  destruct (errors.AsPsrpc e) as [c|]; simpl; [|done].
  destruct c; simpl; (split; [split; [done || lia | congruence || done] | lia]).
Qed.

(** every response that is sent has a reason phrase, and a response built
    from a result never has code 0. *)
Theorem response_reason code reason body r :
  or_Reason (newResponse code reason body) <> "" /\
  or_Code (Result_NewResponse r) <> 0 /\ or_Reason (Result_NewResponse r) <> "".
Proof.
  assert (Hn : forall c s b, or_Reason (newResponse c s b) <> "").
  { intros c s b. unfold newResponse; simpl.
    destruct (String.eqb_spec s ""); [apply sipStatus_nonempty | done]. }
  split; [apply Hn|]. split; [|apply Hn].
  unfold Result_NewResponse, newResponse; simpl. destruct (Z.eqb_spec (res_Code r) 0); lia.
Qed.

(** Words of a header: lower case, without spaces and separators. *)
Definition word (s : string) : bool :=
  String.eqb (ToLower s) s && allc (fun c => negb (Ascii.is_space c)) s && freec ";" s.

Lemma word_props s : word s = true ->
  ToLower s = s /\ allc (fun c => negb (Ascii.is_space c)) s = true /\ freec ";" s = true.
Proof.
  unfold word. intros [[H1 H2]%andb_prop H3]%andb_prop. apply String.eqb_eq in H1. done.
Qed.

(** a Subscription-State value is read back as it is written: state, reason
    and expiry for any words and any number of seconds; and a value printed for
    the log is read back with its state and reason. *)
Theorem SubscriptionState_roundtrip st reason expires :
  word st = true -> word reason = true -> 0 <= expires <= maxInt64 ->
  ParseSubscriptionState
    (st +:+ String ";" ("reason" +:+ String "=" (reason +:+ String ";"
       ("expires" +:+ String "=" (utoa expires))))) =
  {| sub_State := st; sub_Reason := reason; sub_Expires := expires |} /\
  (st <> "" ->
   ParseSubscriptionState (SubscriptionState_String
     {| sub_State := st; sub_Reason := reason; sub_Expires := expires |}) =
   {| sub_State := st; sub_Reason := reason; sub_Expires := 0 |}).
Proof.
  intros (Hl1 & Hs1 & Hf1)%word_props (Hl2 & Hs2 & Hf2)%word_props He.
  unfold ParseSubscriptionState, SubscriptionState_String; cbn [sub_State sub_Reason].
  split.
  - rewrite Split_app by done.
    replace ("reason" +:+ String "=" (reason +:+ String ";" ("expires" +:+ String "=" (utoa expires))))
      with (("reason" +:+ String "=" reason) +:+ String ";" ("expires" +:+ String "=" (utoa expires)))
      by by rewrite sapp_assoc.
    rewrite Split_app by (rewrite freec_app; by rewrite andb_true_iff; split).
    rewrite Split_free by (rewrite freec_app, andb_true_iff; split; [done|];
      unfold freec; simpl; apply utoa_free; [lia | done]).
    cbn [fold_left]. unfold subParam.
    rewrite !headerParam_plain by (done || (apply allc_digits_nospace; lia)).
    simpl. unfold atoi_val. rewrite Atoi_utoa by lia.
    by rewrite TrimSpace_nospace, Hl1, Hl2.
  - intros Hne. destruct (String.eqb_spec st ""); [done|].
    destruct (String.eqb_spec reason "") as [->|].
    + rewrite Split_free by done. simpl. by rewrite TrimSpace_nospace, Hl1.
    + change (";reason=" +:+ reason) with (String ";" ("reason" +:+ String "=" reason)).
      rewrite Split_app by done.
      rewrite Split_free by (rewrite freec_app; by rewrite andb_true_iff; split).
      cbn [fold_left]. unfold subParam. rewrite headerParam_plain by done.
      simpl. by rewrite TrimSpace_nospace, Hl1, Hl2.
Qed.

Lemma SubscriptionState_roundtrip_witness :
  ParseSubscriptionState
    ("terminated" +:+ String ";" ("reason" +:+ String "=" ("timeout" +:+ String ";"
       ("expires" +:+ String "=" (utoa 60))))) =
  {| sub_State := "terminated"; sub_Reason := "timeout"; sub_Expires := 60 |}.
Proof.
  refine (proj1 (SubscriptionState_roundtrip "terminated" "timeout" 60 _ _ _));
    [reflexivity | reflexivity | unfold maxInt64; lia].
Defined.

(** a state the bridge does not know is kept, not replaced by the zero
    value; it is not terminated, so the transfer keeps waiting. *)
Theorem ParseSubscriptionState_unknown st :
  word st = true -> st <> "terminated" ->
  sub_State (ParseSubscriptionState st) = st /\ Terminated (ParseSubscriptionState st) = false.
Proof.
  intros (Hl & Hs & Hf)%word_props Hne. unfold ParseSubscriptionState, Terminated.
  rewrite Split_free by done. simpl. rewrite TrimSpace_nospace, Hl by done.
  split; [done|]. by apply String.eqb_neq.
Qed.

Lemma ParseSubscriptionState_unknown_witness :
  sub_State (ParseSubscriptionState "waiting") = "waiting".
Proof. apply (ParseSubscriptionState_unknown "waiting"); done. Defined.

(** a Reason header with a cause and a quoted text is read back with the
    protocol in lower case, for every cause and every printable text without
    quotes, backslashes and semicolons; the call end it describes is normal
    exactly for the normal cause of its protocol. *)
Theorem ReasonHeader_roundtrip typ cause text :
  allc (fun c => negb (Ascii.is_space c)) typ = true -> freec ";" typ = true ->
  ToLower typ <> "x.int" -> ToLower typ <> "" ->
  0 <= cause <= maxInt64 -> allc plainc text = true -> freec ";" text = true ->
  let hdr := typ +:+ String ";" ("cause" +:+ String "=" (utoa cause +:+ String ";"
               ("text" +:+ String "=" (quote text)))) in
  exists r, ParseReasonHeader hdr = inr r /\
    r = {| rh_Type := ToLower typ; rh_Cause := cause; rh_Text := text |} /\
    (IsNormal r = true <->
       (ToLower typ = "q.850" /\ cause = 16) \/
       (ToLower typ = "release_cause" /\ cause = 1) \/
       (ToLower typ = "sip" /\ (cause = 0 \/ cause = 200))).
Proof.
  intros Hs Hf Hx He Hc Ht Htf hdr. subst hdr.
  eexists. split; [|split; [reflexivity|]].
  - unfold ParseReasonHeader. rewrite Split_app by done.
    replace ("cause" +:+ String "=" (utoa cause +:+ String ";" ("text" +:+ String "=" (quote text))))
      with (("cause" +:+ String "=" (utoa cause)) +:+ String ";" ("text" +:+ String "=" (quote text)))
      by by rewrite sapp_assoc.
    rewrite Split_app by (rewrite freec_app, andb_true_iff; split; [done|];
      unfold freec; simpl; apply utoa_free; [lia | done]).
    rewrite Split_free by (unfold quote; rewrite !freec_app, andb_true_iff; split; [done|];
      unfold freec in *; simpl; rewrite allc_app, Htf; done).
    cbn [fold_left]. unfold reasonParam.
    rewrite headerParam_plain by (done || (apply allc_digits_nospace; lia)).
    rewrite headerParam_quoted by done. rewrite TrimSpace_nospace by done.
    simpl. unfold atoi_val. rewrite Atoi_utoa by lia.
    unfold unquoted. rewrite Unquote_quote by done. simpl.
    destruct (String.eqb_spec (ToLower typ) "x.int"); done.
  - unfold IsNormal, IsZero. rewrite bool_decide_false by (intros [=]; congruence).
    cbn [rh_Type rh_Cause].
    destruct (String.eqb_spec (ToLower typ) "q.850") as [->|];
      [rewrite Z.eqb_eq; intuition congruence|].
    destruct (String.eqb_spec (ToLower typ) "x.int"); [done|].
    destruct (String.eqb_spec (ToLower typ) "release_cause") as [->|];
      [rewrite Z.eqb_eq; intuition congruence|].
    destruct (String.eqb_spec (ToLower typ) "sip") as [->|];
      [rewrite orb_true_iff, !Z.eqb_eq; intuition congruence | intuition congruence].
Qed.

Lemma ReasonHeader_roundtrip_witness :
  exists r, ParseReasonHeader ("Q.850" +:+ String ";" ("cause" +:+ String "=" (utoa 16 +:+ String ";"
               ("text" +:+ String "=" (quote "Normal call clearing"))))) = inr r /\
    rh_Cause r = 16 /\ IsNormal r = true.
Proof.
  destruct (ReasonHeader_roundtrip "Q.850" 16 "Normal call clearing") as (r & H & Hr & _);
    [reflexivity | reflexivity | discriminate | discriminate | unfold maxInt64; lia
    | reflexivity | reflexivity |].
  exists r. split; [exact H|]. rewrite Hr. split; reflexivity.
Defined.

(** the parameters of a Reason header are split at every semicolon, quoted
    or not, so a text that contains one is lost, with the cause kept. *)
Theorem ReasonHeader_semicolon_lost :
  ParseReasonHeader ("SIP;cause=480;text=" +:+ quote "busy; try later") =
  inr {| rh_Type := "sip"; rh_Cause := 480; rh_Text := "" |}.
Proof. reflexivity. Qed.
