(* ===== verification/Refer.v ===== *)
(** * The hand-off of a transfer result

    [handleReferNotify] and [waitReferResult] of [pkg/sip/protocol.go] meet on the channel
    [referDone] of the dialog, which is unbuffered and serves all transfers of the call: a
    NOTIFY handler reads the number of the current REFER, offers its result for
    [notifyAckTimeout], the waiting transfer takes it, gives up when its context ends, and
    waits [referResultGrace] longer once the call has ended.  The transfers of a call run one
    after the other ([Transfers]); the handlers, the transfers, the end of the call and the
    clock are a transition system, and Go's [select] is the choice among its enabled steps.
    Time passes only when the waiting transfer can take nothing, since a ready [select] does
    not wait; a handler may pause between reading the number and offering its result. *)

From stdpp Require Import base tactics list strings option.
From Stdlib Require Import ZArith Lia.
From S2P Require Import Prelude GoStd GoErr Participant Errors Types Protocol.

(** ** State *)

(** A NOTIFY handler: the NOTIFY, the number of the REFER that was current when it read it,
    and that time. *)
Record handler := { h_info : notifyInfo; h_cseq : Z; h_read : Z }.

(** A result on the channel, and since when. *)
Record offer := { o_by : handler; o_result : option error; o_at : Z }.

(** Why a transfer returned. *)
Inductive cause := BySend | ByNotify (o : offer) (t : Z) | ByContext (e : error) | ByCallEnd.

(** Where the transfer is: none yet, its REFER numbered and being sent, in the first select
    of [waitReferResult], in the grace select since the given time, or returned. *)
Inductive phase :=
| Idle
| Sending
| Waiting
| Grace (since : Z)
| Returned (r : option error) (why : cause).

Record rstate := {
  now : Z;
  callDone : option Z;                    (* when the call ended *)
  ctxErr : option error;                  (* ctx.Err() once the context of the transfer is done *)
  referCseq : Z;                          (* the number of the last REFER, 0 before the first *)
  numberedAt : Z;                         (* ... and when it was set *)
  waitAt : Z;                             (* when [waitReferResult] was called last *)
  handlers : list handler;                (* handlers that have read [referCseq] *)
  parked : list offer;                    (* handlers in their select *)
  ph : phase;
  offered : list offer;                   (* every offer so far *)
}.

Definition rinit : rstate :=
  {| now := 0; callDone := None; ctxErr := None; referCseq := 0; numberedAt := 0; waitAt := 0; handlers := [];
     parked := []; ph := Idle; offered := [] |}.

Definition set_now (t : Z) (s : rstate) : rstate :=
  {| now := t; callDone := callDone s; ctxErr := ctxErr s; referCseq := referCseq s; numberedAt := numberedAt s;
     waitAt := waitAt s; handlers := handlers s; parked := parked s; ph := ph s; offered := offered s |}.
Definition set_callDone (s : rstate) : rstate :=
  {| now := now s; callDone := Some (now s); ctxErr := ctxErr s; referCseq := referCseq s; numberedAt := numberedAt s;
     waitAt := waitAt s; handlers := handlers s; parked := parked s; ph := ph s; offered := offered s |}.
Definition set_ctxErr (e : error) (s : rstate) : rstate :=
  {| now := now s; callDone := callDone s; ctxErr := Some e; referCseq := referCseq s; numberedAt := numberedAt s;
     waitAt := waitAt s; handlers := handlers s; parked := parked s; ph := ph s; offered := offered s |}.
Definition set_handlers (l : list handler) (s : rstate) : rstate :=
  {| now := now s; callDone := callDone s; ctxErr := ctxErr s; referCseq := referCseq s; numberedAt := numberedAt s;
     waitAt := waitAt s; handlers := l; parked := parked s; ph := ph s; offered := offered s |}.
Definition set_parked (l : list offer) (s : rstate) : rstate :=
  {| now := now s; callDone := callDone s; ctxErr := ctxErr s; referCseq := referCseq s; numberedAt := numberedAt s;
     waitAt := waitAt s; handlers := handlers s; parked := l; ph := ph s; offered := offered s |}.
Definition set_ph (p : phase) (s : rstate) : rstate :=
  {| now := now s; callDone := callDone s; ctxErr := ctxErr s; referCseq := referCseq s; numberedAt := numberedAt s;
     waitAt := waitAt s; handlers := handlers s; parked := parked s; ph := p; offered := offered s |}.

(** A handler puts its result on the channel. *)
Definition put_offer (o : offer) (s : rstate) : rstate :=
  {| now := now s; callDone := callDone s; ctxErr := ctxErr s; referCseq := referCseq s; numberedAt := numberedAt s;
     waitAt := waitAt s; handlers := handlers s; parked := parked s ++ [o]; ph := ph s; offered := offered s ++ [o] |}.

(** A transfer begins: its REFER gets the next number, its context is its own. *)
Definition number_refer (c : Z) (s : rstate) : rstate :=
  {| now := now s; callDone := callDone s; ctxErr := None; referCseq := c; numberedAt := now s;
     waitAt := waitAt s; handlers := handlers s; parked := parked s; ph := Sending; offered := offered s |}.

(** Its REFER was accepted, and it waits. *)
Definition start_wait (s : rstate) : rstate :=
  {| now := now s; callDone := callDone s; ctxErr := ctxErr s; referCseq := referCseq s; numberedAt := numberedAt s;
     waitAt := now s; handlers := handlers s; parked := parked s; ph := Waiting; offered := offered s |}.

Definition abortedErr : error := NewError Aborted (ESentinel errTransferCallEnded).

Definition canceledErr (e : error) : error := NewErrorfW Canceled "refer canceled: " e "".

(** The transfer has a case of its select ready. *)
Definition ready (s : rstate) : Prop :=
  match ph s with
  | Waiting => parked s <> [] \/ is_Some (callDone s) \/ is_Some (ctxErr s)
  | Grace t => parked s <> []
  | _ => False
  end.

(** The first time at which a timer fires; time does not pass beyond it before the timer's
    case has run. *)
Definition before_timers (s : rstate) (t : Z) : Prop :=
  match ph s with Grace t0 => t <= t0 + referResultGrace | _ => True end /\
  forall o, o ∈ parked s -> t <= o_at o + notifyAckTimeout.

(** A transfer can begin: there is none, or the last one has returned. *)
Definition free (p : phase) : Prop := match p with Idle | Returned _ _ => True | _ => False end.

(** The transfer receives from the channel. *)
Definition receiving (p : phase) : Prop := match p with Waiting | Grace _ => True | _ => False end.

Section refer.
(** [psrpc.GetErrorCode] of a SIP status. *)
Context (sipErrorCode : SIPStatus -> ErrorCode).

Inductive rstep : rstate -> rstate -> Prop :=
| R_tick s d : 0 < d -> ~ ready s -> before_timers s (now s + d) -> rstep s (set_now (now s + d) s)
| R_refer s c : free (ph s) -> referCseq s < c ->              (* the locked part of a transfer *)
    rstep s (number_refer c s)
| R_sendFailed s e : ph s = Sending ->                         (* sendRefer returns an error *)
    rstep s (set_ph (Returned (Some e) BySend) s)
| R_sent s : ph s = Sending -> rstep s (start_wait s)
| R_read s info :                                              (* a NOTIFY handler reads referCseq *)
    rstep s (set_handlers (handlers s ++ [{| h_info := info; h_cseq := referCseq s; h_read := now s |}]) s)
| R_offer s l1 h l2 r :                                        (* ... and decides the transfer *)
    handlers s = l1 ++ h :: l2 -> handleReferNotify sipErrorCode (h_info h) (h_cseq h) = Some r ->
    rstep s (put_offer {| o_by := h; o_result := r; o_at := now s |} (set_handlers (l1 ++ l2) s))
| R_ignore s l1 h l2 :                                         (* ... or returns *)
    handlers s = l1 ++ h :: l2 -> handleReferNotify sipErrorCode (h_info h) (h_cseq h) = None ->
    rstep s (set_handlers (l1 ++ l2) s)
| R_callEnd s : callDone s = None -> rstep s (set_callDone s)
| R_ctxDone s e : ctxErr s = None -> rstep s (set_ctxErr e s)
| R_handoff s l1 o l2 :                                        (* case err := <-referDone, in both selects *)
    parked s = l1 ++ o :: l2 -> receiving (ph s) ->
    rstep s (set_ph (Returned (o_result o) (ByNotify o (now s))) (set_parked (l1 ++ l2) s))
| R_ackTimeout s l1 o l2 :                                     (* the handler gives up *)
    parked s = l1 ++ o :: l2 -> o_at o + notifyAckTimeout <= now s ->
    rstep s (set_parked (l1 ++ l2) s)
| R_canceled s e :                                             (* case <-ctx.Done() *)
    ph s = Waiting -> ctxErr s = Some e ->
    rstep s (set_ph (Returned (Some (canceledErr e)) (ByContext e)) s)
| R_callDone s t :                                             (* case <-callDone *)
    ph s = Waiting -> callDone s = Some t ->
    rstep s (set_ph (Grace (now s)) s)
| R_graceTimeout s t :                                         (* case <-time.After(referResultGrace) *)
    ph s = Grace t -> t + referResultGrace <= now s ->
    rstep s (set_ph (Returned (Some abortedErr) ByCallEnd) s).

Inductive rreach : rstate -> Prop :=
| rreach_init : rreach rinit
| rreach_step s s' : rreach s -> rstep s s' -> rreach s'.

(** ** Invariants *)

(** A handler read the number of the current REFER, or began before it was set. *)
Definition good (s : rstate) (h : handler) : Prop :=
  h_read h <= now s /\ (h_cseq h = referCseq s \/ h_cseq h < referCseq s /\ h_read h <= numberedAt s).

Definition decided (o : offer) : Prop :=
  handleReferNotify sipErrorCode (h_info (o_by o)) (h_cseq (o_by o)) = Some (o_result o).

(** Nothing was offered between the start of the wait and now that is not still on the channel. *)
Definition open_wait (s : rstate) : Prop :=
  forall o, o ∈ offered s -> waitAt s < o_at o -> o ∈ parked s /\ o_at o = now s.

Definition justified (s : rstate) (r : option error) (why : cause) : Prop :=
  match why with
  | BySend => r <> None
  | ByNotify o t => r = o_result o /\ decided o /\ good s (o_by o) /\
      waitAt s <= t /\ o_at o <= t /\ t <= now s /\ t <= o_at o + notifyAckTimeout
  | ByContext e => ctxErr s = Some e /\ r = Some (canceledErr e)
  | ByCallEnd => r = Some abortedErr /\
      exists t, callDone s = Some t /\ Z.max t (waitAt s) + referResultGrace <= now s /\
        forall o, o ∈ offered s -> waitAt s < o_at o -> Z.max t (waitAt s) + referResultGrace <= o_at o
  end.

Record rinv (s : rstate) : Prop := {
  inv_handlers : forall h, h ∈ handlers s -> good s h;
  inv_parked : forall o, o ∈ parked s ->
    decided o /\ good s (o_by o) /\ o_at o <= now s /\ now s <= o_at o + notifyAckTimeout;
  inv_offered : forall o, o ∈ offered s -> o_at o <= now s;
  inv_times : numberedAt s <= now s /\ waitAt s <= now s /\ forall t, callDone s = Some t -> t <= now s;
  inv_ph : match ph s with
           | Idle | Sending => True
           | Waiting => open_wait s /\ forall t, callDone s = Some t -> now s = Z.max t (waitAt s)
           | Grace g => open_wait s /\ now s <= g + referResultGrace /\
                        exists t, callDone s = Some t /\ g = Z.max t (waitAt s)
           | Returned r why => justified s r why
           end;
}.

Lemma rinv_init : rinv rinit.
Proof. split; cbn; try done; intros ? H; by apply elem_of_nil in H. Qed.

Lemma good_mono s s' h : now s <= now s' -> numberedAt s' = numberedAt s -> referCseq s' = referCseq s -> good s h -> good s' h.
Proof. unfold good. intros ? -> -> []. split; [lia|done]. Qed.

(** A returned transfer keeps its reason while the past grows. *)
Lemma justified_mono s s' r why :
  now s <= now s' -> waitAt s' = waitAt s -> numberedAt s' = numberedAt s -> referCseq s' = referCseq s ->
  (callDone s' = callDone s \/ callDone s = None) -> (ctxErr s' = ctxErr s \/ ctxErr s = None) ->
  (forall o, o ∈ offered s' -> o ∈ offered s \/ o_at o = now s) ->
  justified s r why -> justified s' r why.
Proof.
  intros Hnow Hw Hn Hr Hcd Hctx Ho. destruct why as [|o t|e|]; cbn; rewrite ?Hw; [done| | |].
  - intros (? & ? & ? & ? & ? & ? & ?). split_and!; [done|done|by eapply good_mono|lia..].
  - intros [He ->]. split; [|done]. destruct Hctx; congruence.
  - intros (-> & t & Ht & Hg & Hall). split; [done|]. exists t. split_and!; [destruct Hcd; congruence|lia|].
    intros o [?| ->]%Ho ?; [by apply Hall|lia].
Qed.

(** While a transfer waits, time passes only if nothing is on the channel. *)
Lemma waiting_quiet s : ph s = Waiting -> ~ ready s -> parked s = [] /\ callDone s = None.
Proof.
  unfold ready. intros -> H. split.
  - destruct (parked s); [done|]. destruct H; by left.
  - destruct (callDone s) eqn:E; [|done]. destruct H. right; left; eauto.
Qed.

Lemma grace_quiet s t : ph s = Grace t -> ~ ready s -> parked s = [].
Proof. unfold ready. intros -> H. by destruct (parked s); [|destruct H]. Qed.

(** An open wait with nothing on the channel: nothing was offered since it began. *)
Lemma open_quiet s s' : open_wait s -> parked s = [] -> offered s' = offered s -> waitAt s' = waitAt s -> open_wait s'.
Proof.
  intros Ho Hp E1 E2 o. rewrite E1, E2. intros H1 H2. destruct (Ho o H1 H2) as [H _].
  rewrite Hp in H. by apply elem_of_nil in H.
Qed.

Lemma rinv_tick s d : 0 < d -> ~ ready s -> before_timers s (now s + d) -> rinv s -> rinv (set_now (now s + d) s).
Proof.
  intros Hd Hr [Hg Hb] [I1 I2 I3 (I4 & I5 & I6) I7]. split; cbn.
  - intros h Hh. eapply good_mono; [| | |by apply I1]; cbn; [lia|done..].
  - intros o Ho. destruct (I2 o Ho) as (? & ? & ? & ?). split_and!; [done|eapply good_mono; [| | |done]; cbn; [lia|done..]|lia|by apply Hb].
  - intros o Ho%I3. lia.
  - split_and!; [lia..|]. intros t Ht%I6. lia.
  - destruct (ph s) as [| | |g|r why] eqn:E; [done|done| | |].
    + destruct (waiting_quiet s E Hr) as [Hp Hc], I7 as [Ho _]. split; [by apply (open_quiet s)|]. cbn. by rewrite Hc.
    + destruct I7 as (Ho & _ & Ht). split_and!; [apply (open_quiet s); [done|by eapply grace_quiet|done..]|done|done].
    + eapply (justified_mono s); cbn; try done; [lia|auto..].
Qed.

Lemma rinv_refer s c : referCseq s < c -> rinv s -> rinv (number_refer c s).
Proof.
  intros Hc [I1 I2 I3 (I4 & I5 & I6) I7].
  assert (forall h, good s h -> good (number_refer c s) h) as Hg.
  { intros h [? Hh]. split; [done|]. cbn. right. destruct Hh as [->|[? ?]]; lia. }
  split; cbn; auto; [|split_and!; [lia|done..]]. intros o Ho. destruct (I2 o Ho) as (? & ? & ?). auto.
Qed.

(** The transfer begins to wait: nothing was offered since. *)
Lemma rinv_sent s : rinv s -> rinv (start_wait s).
Proof.
  intros [I1 I2 I3 (I4 & I5 & I6) I7]. split; cbn; auto; [split_and!; [done..|lia|done]|].
  split; [intros o Ho%I3 ?; cbn in *; lia|]. intros t Ht%I6. lia.
Qed.

Lemma rinv_read s info :
  rinv s -> rinv (set_handlers (handlers s ++ [{| h_info := info; h_cseq := referCseq s; h_read := now s |}]) s).
Proof.
  intros [I1 I2 I3 I4 I7]. split; cbn; auto.
  intros h [H%I1| ->%list_elem_of_singleton]%elem_of_app; [done|]. split; [done|by left].
Qed.

Lemma elem_of_remove {A} (l1 l2 : list A) p q : p ∈ l1 ++ l2 -> p ∈ l1 ++ q :: l2.
Proof. rewrite !elem_of_app, elem_of_cons. tauto. Qed.

Lemma elem_of_at {A} (l l1 l2 : list A) q : l = l1 ++ q :: l2 -> q ∈ l.
Proof. intros ->. apply elem_of_app. right. left. Qed.

Lemma rinv_drop s l1 h l2 : handlers s = l1 ++ h :: l2 -> rinv s -> rinv (set_handlers (l1 ++ l2) s).
Proof.
  intros Hh [I1 I2 I3 I4 I7]. split; cbn; auto. intros h' H. apply I1. rewrite Hh. by apply elem_of_remove.
Qed.

Lemma rinv_offer s h r : good s h -> handleReferNotify sipErrorCode (h_info h) (h_cseq h) = Some r ->
  rinv s -> rinv (put_offer {| o_by := h; o_result := r; o_at := now s |} s).
Proof.
  intros Hgood Hd [I1 I2 I3 I4 I7]. set (o := {| o_by := h; o_result := r; o_at := now s |}).
  assert (open_wait s -> open_wait (put_offer o s)) as Hopen.
  { intros Ho p [Hp| ->%list_elem_of_singleton]%elem_of_app Hw; cbn in *.
    - destruct (Ho p Hp Hw). split; [apply elem_of_app; by left|done].
    - split; [apply elem_of_app; right; by left|done]. }
  split; cbn; auto.
  - intros p [H%I2| ->%list_elem_of_singleton]%elem_of_app; [done|]. split_and!; [done|done|done|].
    unfold o; cbn. unfold notifyAckTimeout, second. lia.
  - intros p [H%I3| ->%list_elem_of_singleton]%elem_of_app; done.
  - destruct (ph s); [done|done| | |].
    + destruct I7. auto.
    + destruct I7 as (? & ? & ?). auto.
    + eapply (justified_mono s); cbn; try done; auto.
      intros p [?| ->%list_elem_of_singleton]%elem_of_app; [by left|by right].
Qed.

Lemma rinv_callEnd s : callDone s = None -> rinv s -> rinv (set_callDone s).
Proof.
  intros Hn [I1 I2 I3 (I4 & I5 & I6) I7]. split; cbn; auto; [split_and!; [done..|by intros t [= ->]]|].
  destruct (ph s); [done|done| | |].
  - destruct I7. split; [done|]. intros t [= <-]. lia.
  - destruct I7 as (_ & _ & t & ? & _). congruence.
  - eapply (justified_mono s); cbn; try done; auto.
Qed.

Lemma rinv_ctxDone s e : ctxErr s = None -> rinv s -> rinv (set_ctxErr e s).
Proof.
  intros Hn [I1 I2 I3 I4 I7]. split; cbn; auto. destruct (ph s); try done. eapply (justified_mono s); cbn; try done; auto.
Qed.

Lemma rinv_handoff s l1 o l2 : parked s = l1 ++ o :: l2 -> receiving (ph s) -> rinv s ->
  rinv (set_ph (Returned (o_result o) (ByNotify o (now s))) (set_parked (l1 ++ l2) s)).
Proof.
  intros Hp _ [I1 I2 I3 (I4 & I5 & I6) I7]. destruct (I2 o (elem_of_at _ _ _ _ Hp)) as (? & ? & ? & ?).
  split; cbn; auto; [|by split_and!]. intros p Hin. apply I2. rewrite Hp. by apply elem_of_remove.
Qed.

(** A handler that gives up offered its result before the current wait began. *)
Lemma rinv_ackTimeout s l1 o l2 : parked s = l1 ++ o :: l2 -> o_at o + notifyAckTimeout <= now s -> rinv s ->
  rinv (set_parked (l1 ++ l2) s).
Proof.
  intros Hp Ht [I1 I2 I3 I4 I7].
  assert (open_wait s -> open_wait (set_parked (l1 ++ l2) s)) as Hopen.
  { intros Ho p H1 H2. destruct (Ho p H1 H2) as [Hin Hat]. split; [|done]. cbn. rewrite Hp in Hin.
    apply elem_of_app in Hin as [?|[->|?]%elem_of_cons]; [apply elem_of_app; by left| |apply elem_of_app; by right].
    unfold notifyAckTimeout, second in Ht. lia. }
  split; cbn; auto; [intros p H; apply I2; rewrite Hp; by apply elem_of_remove|].
  destruct (ph s); [done|done| | |done]; [destruct I7; auto|destruct I7 as (? & ? & ?); auto].
Qed.

Lemma rinv_step s s' : rstep s s' -> rinv s -> rinv s'.
Proof.
  intros Hs Hinv. destruct Hs.
  - by apply rinv_tick.
  - by apply rinv_refer.
  - destruct Hinv. by split.
  - by apply rinv_sent.
  - by apply rinv_read.
  - apply (rinv_offer (set_handlers (l1 ++ l2) s)); [|done|by eapply rinv_drop]. apply (inv_handlers s Hinv), (elem_of_at _ _ _ _ H).
  - by eapply rinv_drop.
  - by apply rinv_callEnd.
  - by apply rinv_ctxDone.
  - by apply rinv_handoff.
  - by eapply rinv_ackTimeout.
  - destruct Hinv as [I1 I2 I3 I4 I7]. by split.
  - destruct Hinv as [I1 I2 I3 I4 I7]. rewrite H in I7. destruct I7 as [Ho Ht]. split; cbn; auto.
    split_and!; [done|unfold referResultGrace, second; lia|]. exists t. auto.
  - destruct Hinv as [I1 I2 I3 I4 I7]. rewrite H in I7. destruct I7 as (Ho & Hle & t' & Ht & ->). split; cbn; auto.
    split; [done|]. exists t'. split_and!; [done|done|]. intros o H1 H2. destruct (Ho o H1 H2) as [_ ->]. done.
Qed.

Lemma rreach_inv s : rreach s -> rinv s.
Proof. induction 1; eauto using rinv_init, rinv_step. Qed.

(** ** Properties *)

(** C20: a transfer is reported as successful only if a NOTIFY with the status 200 was handed
    to it while it waited: neither a provisional status, nor the end of the subscription, of
    the call or of its context counts as success.  The NOTIFY names the REFER of this transfer,
    or names none, or names the earlier REFER that was the current one when its handler began.
    The last case is a NOTIFY of an earlier transfer of the same call: its handler began before
    this REFER was numbered, and its result was on the channel for at most [notifyAckTimeout]
    when it was taken. *)
Theorem refer_success_notified s why :
  rreach s -> ph s = Returned None why ->
  exists o t, why = ByNotify o t /\ ni_Status (h_info (o_by o)) = 200 /\
    waitAt s <= t <= now s /\ o_at o <= t <= o_at o + notifyAckTimeout /\
    let id := ni_CSeq (h_info (o_by o)) in
    id = referCseq s \/ id = 0 \/ (id = h_cseq (o_by o) /\ id < referCseq s /\ h_read (o_by o) <= numberedAt s).
Proof.
  intros Hr%rreach_inv Hp. pose proof (inv_ph s Hr) as Hj. rewrite Hp in Hj.
  destruct why as [|o t|e|]; cbn in Hj; [done| |by destruct Hj|by destruct Hj].
  destruct Hj as (E & Hd & [_ Hg] & ?). unfold decided in Hd. rewrite <- E in Hd.
  apply handleReferNotify_success in Hd as [Hc Hst]. exists o, t. split_and!; try lia; try done.
Qed.

(** The end of the call does not hide a result that is on its way: if the transfer is reported
    as aborted because the call ended, then every result offered after it began to wait came at
    least [referResultGrace] after the end of the call, or after the wait began if that was
    later. *)
Theorem refer_race_kept s r :
  rreach s -> ph s = Returned r ByCallEnd ->
  r = Some abortedErr /\
  exists t, callDone s = Some t /\
    forall o, o ∈ offered s -> waitAt s < o_at o -> Z.max t (waitAt s) + referResultGrace <= o_at o.
Proof.
  intros Hr%rreach_inv Hp. pose proof (inv_ph s Hr) as Hj. rewrite Hp in Hj.
  destruct Hj as (-> & t & Ht & _ & Ho). eauto.
Qed.

(** Once the call has ended a transfer that waits does not wait on: at any later time than
    [referResultGrace] after that, it has returned. *)
Theorem refer_bounded s t :
  rreach s -> callDone s = Some t -> Z.max t (waitAt s) + referResultGrace < now s -> ~ receiving (ph s).
Proof.
  intros Hr%rreach_inv Ht Hn. pose proof (inv_ph s Hr) as Hj. destruct (ph s) as [| | |g|]; try (by intros []); exfalso.
  - destruct Hj as [_ Hw]. rewrite (Hw t Ht) in Hn. unfold referResultGrace, second in Hn. lia.
  - destruct Hj as (_ & ? & t' & ? & ->). simplify_eq. lia.
Qed.

End refer.

(** *** Runs *)
Definition exNotify (cseq : Z) : notifyInfo :=
  {| ni_Method := "REFER"; ni_CSeq := cseq; ni_Status := 200; ni_Reason := "OK";
     ni_Sub := {| sub_State := "terminated"; sub_Reason := ""; sub_Expires := 0 |} |}.

Definition exCode (st : SIPStatus) : ErrorCode := Internal.

Definition exHandler : handler := {| h_info := exNotify 7; h_cseq := 7; h_read := 0 |}.
Definition exOffer : offer := {| o_by := exHandler; o_result := None; o_at := 0 |}.

(** A REFER that was sent, and the handler of its NOTIFY on the channel. *)
Definition run_wait : rstate := start_wait (number_refer 7 rinit).
Definition run_offer : rstate := put_offer exOffer (set_handlers [] (set_handlers [exHandler] run_wait)).
Definition run_ok : rstate := set_ph (Returned None (ByNotify exOffer 0)) (set_parked [] run_offer).

Lemma run_wait_reach : rreach exCode run_wait.
Proof.
  eapply rreach_step; [|by apply R_sent]. eapply rreach_step; [apply rreach_init|by apply R_refer].
Qed.

Lemma run_ok_reach : rreach exCode run_ok.
Proof.
  eapply rreach_step; [|by apply (R_handoff exCode run_offer [] exOffer [])].
  eapply rreach_step; [|by apply (R_offer exCode (set_handlers [exHandler] run_wait) [] exHandler [] None)].
  eapply rreach_step; [apply run_wait_reach|by apply (R_read exCode run_wait (exNotify 7))].
Qed.

Lemma refer_success_notified_witness :
  exists o t, ByNotify exOffer 0 = ByNotify o t /\ ni_Status (h_info (o_by o)) = 200 /\
    0 <= t <= 0 /\ o_at o <= t <= o_at o + notifyAckTimeout /\
    let id := ni_CSeq (h_info (o_by o)) in
    id = 7 \/ id = 0 \/ (id = h_cseq (o_by o) /\ id < 7 /\ h_read (o_by o) <= 0).
Proof. exact (refer_success_notified exCode run_ok (ByNotify exOffer 0) run_ok_reach eq_refl). Defined.

(** The channel is shared by the transfers of a call: the first transfer gives up, its NOTIFY
    comes after that and waits on the channel, the second transfer begins, and takes it.  The
    second REFER has the number 8 and is reported as successful by a NOTIFY for the number 7. *)
Definition exCanceled : error := ESentinel context_DeadlineExceeded.
Definition run_gaveup : rstate := set_ph (Returned (Some (canceledErr exCanceled)) (ByContext exCanceled)) (set_ctxErr exCanceled run_wait).
Definition run_late : rstate := put_offer exOffer (set_handlers [] (set_handlers [exHandler] run_gaveup)).
Definition run_second : rstate := start_wait (number_refer 8 run_late).

Lemma old_notify_taken :
  exists s o t, rreach exCode s /\ referCseq s = 8 /\ ph s = Returned None (ByNotify o t) /\ ni_CSeq (h_info (o_by o)) = 7.
Proof.
  assert (rreach exCode run_gaveup) as H1.
  { eapply rreach_step; [|by apply R_canceled]. eapply rreach_step; [apply run_wait_reach|by apply R_ctxDone]. }
  assert (rreach exCode run_late) as H2.
  { eapply rreach_step; [|by apply (R_offer exCode (set_handlers [exHandler] run_gaveup) [] exHandler [] None)].
    eapply rreach_step; [exact H1|by apply (R_read exCode run_gaveup (exNotify 7))]. }
  assert (rreach exCode run_second) as H3.
  { eapply rreach_step; [|by apply R_sent]. eapply rreach_step; [exact H2|by apply R_refer]. }
  eexists _, exOffer, 0. split; [eapply rreach_step; [exact H3|by apply (R_handoff exCode run_second [] exOffer [])]|].
  by split_and!.
Qed.

(** The call ends with no NOTIFY. *)
Definition run_grace : rstate := set_ph (Grace 0) (set_callDone run_wait).
Definition run_ended : rstate := set_ph (Returned (Some abortedErr) ByCallEnd) (set_now referResultGrace run_grace).
Definition run_after : rstate := set_now (referResultGrace + 1) run_ended.

Lemma run_ended_reach : rreach exCode run_ended.
Proof.
  eapply rreach_step; [|by apply (R_graceTimeout _ _ 0)].
  eapply rreach_step; [|apply (R_tick exCode run_grace referResultGrace); [done|unfold ready; cbn; tauto|]].
  - eapply rreach_step; [|by apply (R_callDone exCode (set_callDone run_wait) 0)].
    eapply rreach_step; [apply run_wait_reach|by apply R_callEnd].
  - split; [cbn; lia|]. intros o H. by apply elem_of_nil in H.
Qed.

Lemma refer_race_kept_witness :
  Some abortedErr = Some abortedErr /\
  exists t, Some 0 = Some t /\
    forall o, o ∈ ([] : list offer) -> 0 < o_at o -> Z.max t 0 + referResultGrace <= o_at o.
Proof. exact (refer_race_kept exCode run_ended (Some abortedErr) run_ended_reach eq_refl). Defined.

Lemma refer_bounded_witness : ~ receiving (ph run_after).
Proof.
  apply (refer_bounded exCode run_after 0); [|reflexivity|cbn; lia].
  eapply rreach_step; [apply run_ended_reach|]. apply (R_tick exCode run_ended 1); [done|unfold ready; cbn; tauto|].
  split; [done|]. intros o H. by apply elem_of_nil in H.
Defined.
