(* ===== verification/CallState.v ===== *)
(** * Call state and signaling events

    [pkg/sip/analytics.go] ([CallState]: the call record sent upstream, with its
    dirty bit and the transfers in progress) and [pkg/sip/signaling_events.go]
    (the events of a call's signaling).  The state handler is the trace of the
    calls made to it, in order. *)

From stdpp Require Import base tactics list gmap strings option.
From Stdlib Require Import ZArith Lia.
From S2P Require Import Prelude GoStd GoErr Participant Errors Types Protocol.

(** ** Data *)
Inductive SIPCallStatus :=
| SCS_CALL_INCOMING | SCS_PARTICIPANT_JOINED | SCS_ACTIVE | SCS_DISCONNECTED | SCS_ERROR.

Inductive SIPCallDirection := SCD_UNKNOWN | SCD_INBOUND | SCD_OUTBOUND.

#[global] Instance SIPCallStatus_eq_dec : EqDecision SIPCallStatus.
Proof. solve_decision. Defined.

(** The fields of [livekit.SIPCallInfo] that the signaling code reads or
    writes. *)
Record SIPCallInfo := {
  CallId : string;
  SipCallId : string;
  CallDirection : SIPCallDirection;
  TrunkId : string;
  RoomId : string;
  RoomName : string;
  DispatchRuleId : string;
  info_CallStatus : SIPCallStatus;
  info_DisconnectReason : DisconnectReason;
  info_Error : string;
  CallStatusCode : option SIPStatus;
  StartedAtNs : Z;
  EndedAtNs : Z;
  ParticipantIdentity : string;
  ParticipantAttributes : gmap string string;
  AudioCodec : string;
}.

Inductive SIPTransferStatus :=
| STS_TRANSFER_ONGOING | STS_TRANSFER_FAILED | STS_TRANSFER_SUCCESSFUL.

#[global] Instance SIPTransferStatus_eq_dec : EqDecision SIPTransferStatus.
Proof. solve_decision. Defined.

Record SIPTransferInfo := {
  TransferId : string;
  ti_CallId : string;
  TransferTo : string;
  TransferInitiatedAtNs : Z;
  TransferCompletedAtNs : Z;
  TransferStatus : SIPTransferStatus;
  ti_Error : string;
  TransferStatusCode : option SIPStatus;
}.

(** ** Signaling events *)
Inductive SignalingEventType :=
| EventInviteReceived | EventTryingSent | EventInviteAuthorized | EventRingingSent
| EventCallDispatched | EventRoomJoined | EventAnsweredSent | EventAckReceived
| EventCancelReceived | EventRejected
| EventCallRequested | EventInviteSent | EventProvisionalReceived | EventAuthChallenged
| EventAnsweredReceived | EventAckSent | EventFailed | EventCancelSent
| EventLateAnswerReceived
| EventByeReceived | EventByeSent | EventCallEnded.

#[global] Instance SignalingEventType_eq_dec : EqDecision SignalingEventType.
Proof. solve_decision. Defined.

(** The name each type has on the wire. *)
Definition event_name (t : SignalingEventType) : string :=
  match t with
  | EventInviteReceived => "sip.invite.received"
  | EventTryingSent => "sip.trying.sent"
  | EventInviteAuthorized => "sip.invite.authorized"
  | EventRingingSent => "sip.ringing.sent"
  | EventCallDispatched => "sip.call.dispatched"
  | EventRoomJoined => "sip.room.joined"
  | EventAnsweredSent => "sip.answered.sent"
  | EventAckReceived => "sip.ack.received"
  | EventCancelReceived => "sip.cancel.received"
  | EventRejected => "sip.rejected"
  | EventCallRequested => "sip.call.requested"
  | EventInviteSent => "sip.invite.sent"
  | EventProvisionalReceived => "sip.provisional.received"
  | EventAuthChallenged => "sip.auth.challenged"
  | EventAnsweredReceived => "sip.answered.received"
  | EventAckSent => "sip.ack.sent"
  | EventFailed => "sip.failed"
  | EventCancelSent => "sip.cancel.sent"
  | EventLateAnswerReceived => "sip.late_answer.received"
  | EventByeReceived => "sip.bye.received"
  | EventByeSent => "sip.bye.sent"
  | EventCallEnded => "sip.call.ended"
  end.

(** [ev_Time] is the time of the step in nanoseconds, [None] the zero
    [time.Time]. *)
Record SignalingEvent := {
  ev_Type : SignalingEventType;
  ev_Time : option Z;
  ev_CallID : string;
  ev_SIPCallID : string;
  ev_Direction : SIPCallDirection;
  ev_TrunkID : string;
  ev_RoomID : string;
  ev_DispatchRuleID : string;
  ev_ParticipantID : string;
  ev_SIPMethod : string;
  ev_StatusCode : Z;
  ev_CSeq : Z;
  ev_Transport : Transport;
  ev_Reason : string;
  ev_Result : string;
  ev_Duration : Z;
  ev_WithPIN : bool;
}.

(** An event literal: the fields the Go literals set; the rest is zero. *)
Definition newEvent (typ : SignalingEventType) (t : option Z) (method : string) (status cseq : Z)
    (tr : Transport) (reason result : string) (d : Z) : SignalingEvent :=
  {| ev_Type := typ; ev_Time := t; ev_CallID := ""; ev_SIPCallID := "";
     ev_Direction := SCD_UNKNOWN; ev_TrunkID := ""; ev_RoomID := ""; ev_DispatchRuleID := "";
     ev_ParticipantID := ""; ev_SIPMethod := method; ev_StatusCode := status; ev_CSeq := cseq;
     ev_Transport := tr; ev_Reason := reason; ev_Result := result; ev_Duration := d;
     ev_WithPIN := false |}.

Inductive AuthResult :=
| AuthNotFound | AuthDrop | AuthPassword | AuthAccept | AuthQuotaExceeded
| AuthNoTrunkFound | AuthRouteNotAllowed | AuthRejectedAsError | AuthFailureOther | AuthOther (n : Z).

Inductive DispatchResult :=
| DispatchAccept | DispatchRequestPin | DispatchNoRuleReject | DispatchNoRuleDrop
| DispatchServiceUnavailable | DispatchOther (n : Z).

#[global] Instance AuthResult_eq_dec : EqDecision AuthResult.
Proof. solve_decision. Defined.
#[global] Instance DispatchResult_eq_dec : EqDecision DispatchResult.
Proof. solve_decision. Defined.

Definition authResultName (r : AuthResult) : string :=
  match r with
  | AuthNotFound => "not-found"
  | AuthDrop => "drop"
  | AuthPassword => "password"
  | AuthAccept => "accept"
  | AuthQuotaExceeded => "quota-exceeded"
  | AuthNoTrunkFound => "no-trunk"
  | AuthRouteNotAllowed => "route-not-allowed"
  | AuthRejectedAsError => "rejected-as-error"
  | AuthFailureOther | AuthOther _ => "other"
  end.

Definition dispatchResultName (r : DispatchResult) : string :=
  match r with
  | DispatchAccept => "accept"
  | DispatchRequestPin => "request-pin"
  | DispatchNoRuleReject => "no-rule-reject"
  | DispatchNoRuleDrop => "no-rule-drop"
  | DispatchServiceUnavailable => "service-unavailable"
  | DispatchOther _ => "other"
  end.

Definition lookupEvent (typ : SignalingEventType) (t : option Z) (d : Z) (result : string)
    : SignalingEvent :=
  newEvent typ t "" 0 0 "" "" result d.

Definition byeOutcome (res : option Response) (err : option error) : string :=
  if byeSucceeded res err then "ok"
  else match res with
       | Some _ => "error"
       | None =>
           match err with
           | Some e =>
               if match errors.AsTxTimeout e with Some _ => true | None => false end
                  || errors.Is e ErrSIPRequestTimeout
               then "timeout" else "error"
           | None => "error"
           end
       end.

Definition reasonCause (r : ReasonHeader) : string :=
  if IsZero r then "" else rh_Type r +:+ ";cause=" +:+ fmt_d (rh_Cause r).

(** [header] is the message's Reason header. *)
Definition messageCause (header : option string) : string :=
  match header with
  | None => ""
  | Some h => match ParseReasonHeader h with
              | inl _ => ""
              | inr r => reasonCause r
              end
  end.

Definition requestCSeq (req : Request) : Z := default 0 (req_CSeq req).

Definition inviteResponseEvent (typ : SignalingEventType) (t : option Z) (statusCode cseq : Z)
    : SignalingEvent :=
  newEvent typ t "INVITE" statusCode cseq "" "" "" 0.

Definition callEndedEvent (t : option Z) (term : stats.Termination) (statusCode : Z)
    : SignalingEvent :=
  newEvent EventCallEnded t "" statusCode 0 ""
    (stats.Reason term) (stats.result_label (stats.Result term)) 0.

(** ** [CallState]

    The calls made to the state handler; a handler gets a pointer it must not
    keep, so what it sees is the value at the time of the call. *)
Inductive HandlerCall :=
| HandleUpdate (info : SIPCallInfo)
| HandleTransfer (ti : SIPTransferInfo)
| HandleCallContextRecorded (info : SIPCallInfo)
| HandleSignalingEvent (ev : SignalingEvent).

Record CallState := {
  acceptsEvents : bool;      (* the handler implements SignalingEventHandler *)
  callInfo : SIPCallInfo;
  transferInfos : gmap string SIPTransferInfo;
  dirty : bool;
}.

Definition NewCallState (acc : bool) (initial : SIPCallInfo) : CallState :=
  {| acceptsEvents := acc; callInfo := initial; transferInfos := ∅; dirty := true |}.

Definition set_info (i : SIPCallInfo) (d : bool) (s : CallState) : CallState :=
  {| acceptsEvents := acceptsEvents s; callInfo := i; transferInfos := transferInfos s; dirty := d |}.

Definition set_transfers (t : gmap string SIPTransferInfo) (s : CallState) : CallState :=
  {| acceptsEvents := acceptsEvents s; callInfo := callInfo s; transferInfos := t; dirty := dirty s |}.

Section operations.
Open Scope go_scope.
Context `{ErrorText}.

Abbreviation CS := (M CallState HandlerCall).

Definition flushLocked : CS unit :=
  let* s := mget in
  do* memit (HandleUpdate (callInfo s)) in
  mput (set_info (callInfo s) false s).

Definition DeferUpdate (update : SIPCallInfo -> SIPCallInfo) : CS unit :=
  mmodify (fun s => set_info (update (callInfo s)) true s).

Definition Update (update : SIPCallInfo -> SIPCallInfo) : CS unit :=
  do* mmodify (fun s => set_info (update (callInfo s)) true s) in
  flushLocked.

Definition Flush : CS unit :=
  let* s := mget in
  if negb (dirty s) then mreturn tt else flushLocked.

Definition ForceFlush : CS unit := flushLocked.

(** [id] is the fresh identifier made by [guid.New], [now] the clock. *)
Definition StartTransfer (id : string) (now : Z) (transferTo : string) : CS string :=
  let* s := mget in
  let ti := {| TransferId := id; ti_CallId := CallId (callInfo s); TransferTo := transferTo;
               TransferInitiatedAtNs := now; TransferCompletedAtNs := 0;
               TransferStatus := STS_TRANSFER_ONGOING; ti_Error := "";
               TransferStatusCode := None |} in
  do* memit (HandleTransfer ti) in
  do* mput (set_transfers (<[id := ti]> (transferInfos s)) s) in
  mreturn id.

Definition endTransferInfo (now : Z) (inErr : option error) (ti : SIPTransferInfo)
    : SIPTransferInfo :=
  {| TransferId := TransferId ti; ti_CallId := ti_CallId ti; TransferTo := TransferTo ti;
     TransferInitiatedAtNs := TransferInitiatedAtNs ti; TransferCompletedAtNs := now;
     TransferStatus := match inErr with
                       | Some _ => STS_TRANSFER_FAILED
                       | None => STS_TRANSFER_SUCCESSFUL
                       end;
     ti_Error := match inErr with Some e => Error e | None => ti_Error ti end;
     TransferStatusCode :=
       match inErr ≫= errors.AsSIPStatus with
       | Some st => Some st
       | None => TransferStatusCode ti
       end |}.

Definition EndTransfer (now : Z) (transferID : string) (inErr : option error) : CS unit :=
  let* s := mget in
  do* mput (set_transfers (delete transferID (transferInfos s)) s) in
  match transferInfos s !! transferID with
  | None => mreturn tt
  | Some ti => memit (HandleTransfer (endTransferInfo now inErr ti))
  end.

Definition RecordCallContext (appendInfo : option (SIPCallInfo -> SIPCallInfo)) : CS unit :=
  do* mmodify (fun s => match appendInfo with
                        | Some f => set_info (f (callInfo s)) (dirty s) s
                        | None => s
                        end) in
  let* s := mget in
  memit (HandleCallContextRecorded (callInfo s)).

Definition stamp (info : SIPCallInfo) (ev : SignalingEvent) : SignalingEvent :=
  {| ev_Type := ev_Type ev; ev_Time := ev_Time ev;
     ev_CallID := CallId info; ev_SIPCallID := SipCallId info;
     ev_Direction := CallDirection info; ev_TrunkID := TrunkId info; ev_RoomID := RoomId info;
     ev_DispatchRuleID :=
       if decide (ev_Type ev = EventCallDispatched) then ev_DispatchRuleID ev
       else DispatchRuleId info;
     ev_ParticipantID := ev_ParticipantID ev; ev_SIPMethod := ev_SIPMethod ev;
     ev_StatusCode := ev_StatusCode ev; ev_CSeq := ev_CSeq ev; ev_Transport := ev_Transport ev;
     ev_Reason := ev_Reason ev; ev_Result := ev_Result ev; ev_Duration := ev_Duration ev;
     ev_WithPIN := ev_WithPIN ev |}.

(** A nil [CallState] is handled by the callers of this definition. *)
Definition EmitSignalingEvent (ev : SignalingEvent) : CS unit :=
  match ev_Time ev with
  | None => mreturn tt
  | Some _ =>
      let* s := mget in
      if acceptsEvents s then memit (HandleSignalingEvent (stamp (callInfo s) ev))
      else mreturn tt
  end.

(** A sequence of calls of the public methods. *)
Inductive Op :=
| OpDefer (f : SIPCallInfo -> SIPCallInfo)
| OpUpdate (f : SIPCallInfo -> SIPCallInfo)
| OpFlush
| OpForce
| OpStart (id : string) (now : Z) (transferTo : string)
| OpEnd (now : Z) (id : string) (err : option error)
| OpRecord (f : option (SIPCallInfo -> SIPCallInfo))
| OpEmit (ev : SignalingEvent).

Definition runOp (o : Op) : CS unit :=
  match o with
  | OpDefer f => DeferUpdate f
  | OpUpdate f => Update f
  | OpFlush => Flush
  | OpForce => ForceFlush
  | OpStart id now to => do* StartTransfer id now to in mreturn tt
  | OpEnd now id err => EndTransfer now id err
  | OpRecord f => RecordCallContext f
  | OpEmit ev => EmitSignalingEvent ev
  end.

Fixpoint runOps (l : list Op) : CS unit :=
  match l with
  | [] => mreturn tt
  | o :: l' => do* runOp o in runOps l'
  end.
End operations.

(** ** Lemmas *)

(** The call record the handler saw last. *)
Fixpoint lastUpdate (prev : option SIPCallInfo) (t : list HandlerCall) : option SIPCallInfo :=
  match t with
  | [] => prev
  | HandleUpdate i :: t' => lastUpdate (Some i) t'
  | _ :: t' => lastUpdate prev t'
  end.

Lemma lastUpdate_app prev t1 t2 : lastUpdate prev (t1 ++ t2) = lastUpdate (lastUpdate prev t1) t2.
Proof. revert prev. induction t1 as [|[] t1 IH]; intros prev; simpl; auto. Qed.

(** The transfer records of [id] the handler was given, in order. *)
Fixpoint transfersOf (id : string) (t : list HandlerCall) : list SIPTransferInfo :=
  match t with
  | [] => []
  | HandleTransfer ti :: t' =>
      if String.eqb (TransferId ti) id then ti :: transfersOf id t' else transfersOf id t'
  | _ :: t' => transfersOf id t'
  end.

Lemma transfersOf_app id t1 t2 : transfersOf id (t1 ++ t2) = transfersOf id t1 ++ transfersOf id t2.
Proof.
  induction t1 as [|[] t1 IH]; simpl; auto. destruct (String.eqb _ _); simpl; by rewrite IH.
Qed.

Definition startID (o : Op) : option string :=
  match o with OpStart id _ _ => Some id | _ => None end.

Definition startIDs (l : list Op) : list string := omap startID l.

(** An operation that appends no late context. *)
Definition noAppend (o : Op) : Prop :=
  match o with OpRecord (Some _) => False | _ => True end.

Section lemmas.
Context `{ErrorText}.

(** The upstream record is current whenever the state is clean. *)
Definition synced (s : CallState) (last : option SIPCallInfo) : Prop :=
  dirty s = false -> last = Some (callInfo s).

Lemma runOps_cons o l s :
  runOps (o :: l) s =
  (let r := runOp o s in
   let r' := runOps l (state_of r) in (result_of r', state_of r', trace_of r ++ trace_of r')).
Proof.
  simpl. unfold mbind', result_of, state_of, trace_of.
  destruct (runOp o s) as [[[] s1] t1]; simpl. by destruct (runOps l s1) as [[[] s2] t2].
Qed.

Lemma runOp_synced o s last :
  noAppend o -> synced s last ->
  synced (state_of (runOp o s)) (lastUpdate last (trace_of (runOp o s))).
Proof.
  unfold synced. intros Ho Hs.
  destruct o as [f|f| | |id now to|now id err|[f|]|ev]; try done.
  - unfold runOp, Flush, mbind', mget; simpl.
    destruct (dirty s) eqn:E; simpl; [done|]. intros _. by apply Hs.
  - unfold runOp, EndTransfer, mbind', mget, mput; simpl.
    by destruct (transferInfos s !! id).
  - unfold runOp, EmitSignalingEvent, mbind', mget; simpl.
    destruct (ev_Time ev); [|done]. simpl. by destruct (acceptsEvents s).
Qed.

Lemma runOps_synced l s last :
  Forall noAppend l -> synced s last ->
  synced (state_of (runOps l s)) (lastUpdate last (trace_of (runOps l s))).
Proof.
  intros Hl. revert s last. induction Hl as [|o l Ho Hl IH]; intros s last Hs; [done|].
  rewrite runOps_cons. simpl. unfold trace_of at 1, state_of at 1; simpl.
  rewrite lastUpdate_app. apply IH. by apply runOp_synced.
Qed.

(** What the handler was told about a transfer, by where the transfer is. *)
Definition transferInv (id : string) (s : CallState) (t : list SIPTransferInfo) : Prop :=
  match transferInfos s !! id with
  | Some ti => t = [ti] /\ TransferId ti = id /\ TransferStatus ti = STS_TRANSFER_ONGOING
  | None => t = [] \/ exists ti now err,
              TransferStatus ti = STS_TRANSFER_ONGOING /\ t = [ti; endTransferInfo now err ti]
  end.

Lemma runOp_transfer o id s t :
  (startID o = Some id -> t = [] /\ transferInfos s !! id = None) -> transferInv id s t ->
  (forall id', transferInfos s !! id' = None \/
     exists ti, transferInfos s !! id' = Some ti /\ TransferId ti = id') ->
  transferInv id (state_of (runOp o s)) (t ++ transfersOf id (trace_of (runOp o s))).
Proof.
  intros Hfresh Hinv Hids.
  destruct o as [f|f| | |id0 now to|now id0 err|[f|]|ev];
    try (unfold transferInv in *; simpl; rewrite ?app_nil_r; exact Hinv).
  - unfold runOp, Flush, mbind', mget; simpl.
    destruct (negb (dirty s)); simpl; rewrite app_nil_r; exact Hinv.
  - unfold transferInv in *; simpl in *. destruct (String.eqb_spec id0 id) as [->|Hne].
    + destruct (Hfresh eq_refl) as [-> _]. rewrite lookup_insert_eq. simpl. done.
    + rewrite lookup_insert_ne by done. rewrite app_nil_r. exact Hinv.
  - unfold runOp, EndTransfer, mbind', mget, mput; simpl.
    unfold transferInv in *; simpl.
    destruct (decide (id0 = id)) as [->|Hne].
    + destruct (transferInfos s !! id) as [ti|] eqn:E; simpl;
        rewrite lookup_delete_eq.
      * destruct Hinv as (-> & Hid & Hon). rewrite Hid, String.eqb_refl. simpl.
        right. by exists ti, now, err.
      * by rewrite app_nil_r.
    + destruct (transferInfos s !! id0) as [ti|] eqn:E; simpl; rewrite lookup_delete_ne by done.
      * destruct (Hids id0) as [?|[ti' [? Hti]]]; [congruence|].
        assert (ti' = ti) as -> by congruence. rewrite Hti.
        destruct (String.eqb_spec id0 id); [done|]. rewrite app_nil_r. exact Hinv.
      * rewrite app_nil_r. exact Hinv.
  - unfold runOp, EmitSignalingEvent, mbind', mget; simpl.
    destruct (ev_Time ev); simpl; [destruct (acceptsEvents s); simpl|]; rewrite app_nil_r; exact Hinv.
Qed.

Definition idsOK (s : CallState) : Prop :=
  forall id', transferInfos s !! id' = None \/
     exists ti, transferInfos s !! id' = Some ti /\ TransferId ti = id'.

Lemma runOp_idsOK o s : idsOK s -> idsOK (state_of (runOp o s)).
Proof.
  intros Hids. destruct o as [f|f| | |id0 now to|now id0 err|[f|]|ev]; try exact Hids.
  - unfold runOp, Flush, mbind', mget; simpl. by destruct (negb (dirty s)).
  - intros id'. simpl. destruct (decide (id0 = id')) as [->|].
    + rewrite lookup_insert_eq. right. eexists; done.
    + rewrite lookup_insert_ne by done. apply Hids.
  - intros id'. unfold runOp, EndTransfer, mbind', mget, mput; simpl.
    destruct (transferInfos s !! id0); simpl;
      (destruct (decide (id0 = id')) as [->|];
       [rewrite lookup_delete_eq; by left | rewrite lookup_delete_ne by done; apply Hids]).
  - unfold runOp, EmitSignalingEvent, mbind', mget; simpl.
    destruct (ev_Time ev); simpl; [by destruct (acceptsEvents s)|done].
Qed.

(** Operations that do not start [id] do not put it in the table. *)
Lemma runOp_absent o id s t :
  startID o <> Some id -> t = [] -> transferInfos s !! id = None -> idsOK s ->
  transferInfos (state_of (runOp o s)) !! id = None /\
  t ++ transfersOf id (trace_of (runOp o s)) = [].
Proof.
  intros Hne -> Hn Hids.
  destruct o as [f|f| | |id0 now to|now id0 err|[f|]|ev]; try done.
  - unfold runOp, Flush, mbind', mget; simpl. by destruct (negb (dirty s)).
  - simpl. rewrite lookup_insert_ne by (intros ->; by apply Hne). split; [done|].
    by destruct (String.eqb_spec id0 id) as [->|].
  - unfold runOp, EndTransfer, mbind', mget, mput; simpl.
    destruct (transferInfos s !! id0) as [ti|] eqn:E; simpl;
      (split; [apply lookup_delete_None; by right|]); [|done].
    destruct (Hids id0) as [?|[ti' [? Hti]]]; [congruence|].
    assert (ti' = ti) as -> by congruence. rewrite Hti.
    destruct (String.eqb_spec id0 id); [congruence|done].
  - unfold runOp, EmitSignalingEvent, mbind', mget; simpl.
    destruct (ev_Time ev); simpl; [by destruct (acceptsEvents s)|done].
Qed.

Lemma runOps_transfer l id s t :
  NoDup (startIDs l) ->
  (id ∈ startIDs l -> t = [] /\ transferInfos s !! id = None) ->
  transferInv id s t -> idsOK s ->
  transferInv id (state_of (runOps l s)) (t ++ transfersOf id (trace_of (runOps l s))).
Proof.
  revert s t. induction l as [|o l IH]; intros s t Hnd Hfresh Hinv Hids.
  { simpl. by rewrite app_nil_r. }
  rewrite runOps_cons. simpl. unfold state_of at 1, trace_of at 1; simpl.
  rewrite transfersOf_app, app_assoc.
  assert (Hstart : startID o = Some id -> (id ∉ startIDs l) /\ (id ∈ startIDs (o :: l))).
  { unfold startIDs in *; simpl in *. intros Ho; rewrite Ho in *.
    apply list.NoDup_cons in Hnd as [? _]. split; [done | by left]. }
  assert (Hin : id ∈ startIDs l -> id ∈ startIDs (o :: l)).
  { unfold startIDs; simpl. destruct (startID o); [by right | done]. }
  apply IH.
  - unfold startIDs in *; simpl in *. destruct (startID o); [|done].
    by apply list.NoDup_cons in Hnd as [_ ?].
  - intros Hl. destruct (Hfresh (Hin Hl)) as [Ht Hn].
    destruct (runOp_absent o id s t) as [? ?]; try done.
    intros Ho. by destruct (Hstart Ho).
  - apply runOp_transfer; [|done|exact Hids].
    intros Ho. by apply Hfresh, Hstart.
  - by apply runOp_idsOK.
Qed.
End lemmas.

(** ** Properties *)

(** C35: the dirty bit.  Whatever sequence of updates, flushes, transfers and
    events is run, a clean state means the record last sent upstream is the
    current one, a flush always ends in that situation, and it sends nothing when
    the state was clean. *)
Theorem CallState_upstream_current `{ErrorText} acc info l :
  Forall noAppend l ->
  let s := state_of (runOps l (NewCallState acc info)) in
  let t := trace_of (runOps l (NewCallState acc info)) in
  (dirty s = false -> lastUpdate None t = Some (callInfo s)) /\
  lastUpdate None (t ++ trace_of (Flush s)) = Some (callInfo s) /\
  (dirty s = false -> trace_of (Flush s) = []).
Proof.
  intros Hl s t.
  assert (Hs : synced s (lastUpdate None t)) by (apply runOps_synced; done).
  split; [exact Hs|].
  unfold Flush, mbind', mget; simpl. destruct (dirty s) eqn:E; simpl.
  - rewrite lastUpdate_app. done.
  - unfold trace_of; simpl. rewrite app_nil_r. split; [by apply Hs | done].
Qed.

Definition exInfo : SIPCallInfo :=
  {| CallId := "SCL_1"; SipCallId := "abc"; CallDirection := SCD_INBOUND; TrunkId := "ST_1";
     RoomId := ""; RoomName := ""; DispatchRuleId := ""; info_CallStatus := SCS_CALL_INCOMING;
     info_DisconnectReason := UNKNOWN_REASON; info_Error := ""; CallStatusCode := None;
     StartedAtNs := 0; EndedAtNs := 0; ParticipantIdentity := "";
     ParticipantAttributes := ∅; AudioCodec := "" |}.

(** A trivial choice of the texts of library errors, for the witnesses. *)
Definition exErrorText : ErrorText :=
  {| SIPStatus_Error := Status; psrpc_Error := fun _ t => t; net_Error := fun op t => op +:+ t;
     sdp_NoCommonMedia_Error := "media"; sdp_NoCommonCrypto_Error := "crypto" |}.

Lemma CallState_upstream_current_witness :
  let l := [OpUpdate (fun i => i); OpStart "t" 1 "sip:a"; OpEnd 2 "t" None] in
  let s := state_of (runOps (H := exErrorText) l (NewCallState true exInfo)) in
  lastUpdate None (trace_of (runOps (H := exErrorText) l (NewCallState true exInfo))) =
  Some (callInfo s).
Proof.
  intros l s. apply (CallState_upstream_current (H := exErrorText) true exInfo l).
  repeat constructor.
Defined.

(** a transfer is reported upstream at most twice, first as ongoing and then
    once with its outcome: failed exactly when it ended with an error, with the
    SIP status of that error when it has one.  A second end of the same transfer,
    or the end of an unknown one, reports nothing.  Transfer identifiers are taken
    to be distinct. *)
Theorem CallState_transfer_pairing `{ErrorText} acc info l id :
  NoDup (startIDs l) ->
  let s := state_of (runOps l (NewCallState acc info)) in
  let t := transfersOf id (trace_of (runOps l (NewCallState acc info))) in
  (t = [] \/
   (exists ti, t = [ti] /\ TransferStatus ti = STS_TRANSFER_ONGOING /\
      transferInfos s !! id = Some ti) \/
   (exists ti now err, t = [ti; endTransferInfo now err ti] /\
      TransferStatus ti = STS_TRANSFER_ONGOING /\ transferInfos s !! id = None)).
Proof.
  intros Hnd s t.
  assert (Hi : transferInv id s t).
  { apply (runOps_transfer l id (NewCallState acc info) []); try done; [|by left].
    by left. }
  unfold transferInv in Hi. destruct (transferInfos s !! id) as [ti|] eqn:E.
  - destruct Hi as (Ht & _ & Hon). right; left. eauto.
  - destruct Hi as [?|(ti & now & err & Hon & Ht)]; [by left|]. right; right. eauto 8.
Qed.

Lemma CallState_transfer_pairing_witness :
  let l := [OpStart "t" 1 "sip:a"; OpEnd 2 "t" None; OpEnd 3 "t" None] in
  let t := transfersOf "t" (trace_of (runOps (H := exErrorText) l (NewCallState true exInfo))) in
  t <> [] /\ length t <> 1%nat /\ length t = 2%nat.
Proof.
  intros l t. split; [discriminate|]. split; [discriminate|].
  destruct (CallState_transfer_pairing (H := exErrorText) true exInfo l "t")
    as [Ht|[(ti & Ht & _)|(ti & now & err & Ht & _)]].
  - repeat constructor. intros Hx. by apply elem_of_nil in Hx.
  - fold t in Ht. discriminate Ht.
  - fold t in Ht. discriminate Ht.
  - fold t in Ht. by rewrite Ht.
Defined.

(** an emitted event carries the identifiers of the call as they are when it
    is emitted, except that a dispatch event keeps its own rule; it changes
    nothing in the call state; an event without a time, or a handler that takes no
    events, produces nothing. *)
Theorem EmitSignalingEvent_stamped `{ErrorText} ev s :
  state_of (EmitSignalingEvent ev s) = s /\
  (ev_Time ev = None \/ acceptsEvents s = false -> trace_of (EmitSignalingEvent ev s) = []) /\
  (ev_Time ev <> None -> acceptsEvents s = true ->
   exists ev', trace_of (EmitSignalingEvent ev s) = [HandleSignalingEvent ev'] /\
     ev_Type ev' = ev_Type ev /\ ev_Time ev' = ev_Time ev /\
     ev_CallID ev' = CallId (callInfo s) /\ ev_RoomID ev' = RoomId (callInfo s) /\
     (ev_Type ev = EventCallDispatched -> ev_DispatchRuleID ev' = ev_DispatchRuleID ev) /\
     (ev_Type ev <> EventCallDispatched -> ev_DispatchRuleID ev' = DispatchRuleId (callInfo s))).
Proof.
  unfold EmitSignalingEvent, mbind', mget. destruct (ev_Time ev) as [t|] eqn:Et; simpl.
  2: { split; [done|]. split; [done|]. by intros ?. }
  destruct (acceptsEvents s) eqn:Ea; simpl.
  - split; [done|]. split; [by intros []|]. intros _ _.
    exists (stamp (callInfo s) ev). unfold stamp; simpl. split; [done|].
    repeat (split; [done|]). split; intros He; by destruct (decide _).
  - done.
Qed.

Lemma EmitSignalingEvent_stamped_witness :
  exists ev', trace_of (EmitSignalingEvent (inviteResponseEvent EventRingingSent (Some 5) 180 1)
                         (NewCallState true exInfo)) = [HandleSignalingEvent ev'] /\
    ev_CallID ev' = "SCL_1".
Proof.
  destruct (EmitSignalingEvent_stamped (H := exErrorText)
    (inviteResponseEvent EventRingingSent (Some 5) 180 1) (NewCallState true exInfo))
    as (_ & _ & Hev).
  destruct Hev as (ev' & Ht & _ & _ & Hc & _); [discriminate | reflexivity |].
  exists ev'. split; [exact Ht | exact Hc].
Defined.
