(* ===== verification/CallCommon.v ===== *)
(** * What inbound and outbound calls share

    Setters of the call record, the signaling timestamps of
    [pkg/sip/signaling_timestamps.go], and the view a call has of its LiveKit room. *)

From stdpp Require Import base tactics list gmap strings option.
From Stdlib Require Import ZArith Lia.
From S2P Require Import Prelude GoStd GoErr Participant Errors CallState.

(** ** Setters of the call record *)
Section setters.
Definition info_with (sipID room : string) (st : SIPCallStatus) (dr : DisconnectReason)
    (err : string) (code : option SIPStatus) (started ended : Z) (pid : string)
    (attrs : gmap string string) (codec : string) (i : SIPCallInfo) : SIPCallInfo :=
  {| CallId := CallId i; SipCallId := sipID; CallDirection := CallDirection i;
     TrunkId := TrunkId i; RoomId := room; RoomName := RoomName i;
     DispatchRuleId := DispatchRuleId i; info_CallStatus := st; info_DisconnectReason := dr;
     info_Error := err; CallStatusCode := code; StartedAtNs := started; EndedAtNs := ended;
     ParticipantIdentity := pid; ParticipantAttributes := attrs; AudioCodec := codec |}.

Variable i : SIPCallInfo.

Definition set_CallStatus (st : SIPCallStatus) : SIPCallInfo :=
  info_with (SipCallId i) (RoomId i) st (info_DisconnectReason i) (info_Error i)
    (CallStatusCode i) (StartedAtNs i) (EndedAtNs i) (ParticipantIdentity i)
    (ParticipantAttributes i) (AudioCodec i) i.
Definition set_DisconnectReason (r : DisconnectReason) : SIPCallInfo :=
  info_with (SipCallId i) (RoomId i) (info_CallStatus i) r (info_Error i)
    (CallStatusCode i) (StartedAtNs i) (EndedAtNs i) (ParticipantIdentity i)
    (ParticipantAttributes i) (AudioCodec i) i.
Definition set_Error (e : string) : SIPCallInfo :=
  info_with (SipCallId i) (RoomId i) (info_CallStatus i) (info_DisconnectReason i) e
    (CallStatusCode i) (StartedAtNs i) (EndedAtNs i) (ParticipantIdentity i)
    (ParticipantAttributes i) (AudioCodec i) i.
Definition set_CallStatusCode (c : option SIPStatus) : SIPCallInfo :=
  info_with (SipCallId i) (RoomId i) (info_CallStatus i) (info_DisconnectReason i) (info_Error i)
    c (StartedAtNs i) (EndedAtNs i) (ParticipantIdentity i)
    (ParticipantAttributes i) (AudioCodec i) i.
Definition set_Started (room : string) (n : Z) : SIPCallInfo :=
  info_with (SipCallId i) room (info_CallStatus i) (info_DisconnectReason i) (info_Error i)
    (CallStatusCode i) n (EndedAtNs i) (ParticipantIdentity i)
    (ParticipantAttributes i) (AudioCodec i) i.
(** [if info.EndedAtNs == 0 { info.EndedAtNs = n }] *)
Definition mark_Ended (n : Z) : SIPCallInfo :=
  info_with (SipCallId i) (RoomId i) (info_CallStatus i) (info_DisconnectReason i) (info_Error i)
    (CallStatusCode i) (StartedAtNs i) (if EndedAtNs i =? 0 then n else EndedAtNs i)
    (ParticipantIdentity i) (ParticipantAttributes i) (AudioCodec i) i.
Definition set_Participant (pid : string) (attrs : gmap string string) : SIPCallInfo :=
  info_with (SipCallId i) (RoomId i) (info_CallStatus i) (info_DisconnectReason i) (info_Error i)
    (CallStatusCode i) (StartedAtNs i) (EndedAtNs i) pid attrs (AudioCodec i) i.
Definition set_Attributes (attrs : gmap string string) : SIPCallInfo :=
  set_Participant (ParticipantIdentity i) attrs.
Definition set_AudioCodec (c : string) : SIPCallInfo :=
  info_with (SipCallId i) (RoomId i) (info_CallStatus i) (info_DisconnectReason i) (info_Error i)
    (CallStatusCode i) (StartedAtNs i) (EndedAtNs i) (ParticipantIdentity i)
    (ParticipantAttributes i) c i.
Definition set_SipCallId (s : string) : SIPCallInfo :=
  info_with s (RoomId i) (info_CallStatus i) (info_DisconnectReason i) (info_Error i)
    (CallStatusCode i) (StartedAtNs i) (EndedAtNs i) (ParticipantIdentity i)
    (ParticipantAttributes i) (AudioCodec i) i.
(** The update after the first dispatch. *)
Definition set_Dispatch (trunk rule room identity : string) (attrs : gmap string string)
    : SIPCallInfo :=
  {| CallId := CallId i; SipCallId := SipCallId i; CallDirection := CallDirection i;
     TrunkId := trunk; RoomId := RoomId i; RoomName := room; DispatchRuleId := rule;
     info_CallStatus := info_CallStatus i; info_DisconnectReason := info_DisconnectReason i;
     info_Error := info_Error i; CallStatusCode := CallStatusCode i;
     StartedAtNs := StartedAtNs i; EndedAtNs := EndedAtNs i; ParticipantIdentity := identity;
     ParticipantAttributes := attrs; AudioCodec := AudioCodec i |}.
Definition set_Room (room name : string) : SIPCallInfo :=
  {| CallId := CallId i; SipCallId := SipCallId i; CallDirection := CallDirection i;
     TrunkId := TrunkId i; RoomId := room; RoomName := name; DispatchRuleId := DispatchRuleId i;
     info_CallStatus := info_CallStatus i; info_DisconnectReason := info_DisconnectReason i;
     info_Error := info_Error i; CallStatusCode := CallStatusCode i;
     StartedAtNs := StartedAtNs i; EndedAtNs := EndedAtNs i;
     ParticipantIdentity := ParticipantIdentity i;
     ParticipantAttributes := ParticipantAttributes i; AudioCodec := AudioCodec i |}.
Definition set_Ended (n : Z) : SIPCallInfo :=
  info_with (SipCallId i) (RoomId i) (info_CallStatus i) (info_DisconnectReason i) (info_Error i)
    (CallStatusCode i) (StartedAtNs i) n (ParticipantIdentity i) (ParticipantAttributes i)
    (AudioCodec i) i.
End setters.

(** ** Terminal records

    A call that has ended: the end time is set, and the status is ERROR exactly
    when an error was recorded, else DISCONNECTED. *)
Definition ended (i : SIPCallInfo) : Prop :=
  EndedAtNs i <> 0 /\
  info_CallStatus i = if String.eqb (info_Error i) "" then SCS_DISCONNECTED else SCS_ERROR.

(** ** Signaling timestamps; [None] is the zero time. *)
Record SignalingTimestamps := {
  APITime : option Z;
  InviteTime : option Z;
  TryingTime : option Z;
  RingingTime : option Z;
  AcceptTime : option Z;
  JoinRoomTime : option Z;
  AckTime : option Z;
}.

Definition zeroTimestamps : SignalingTimestamps :=
  {| APITime := None; InviteTime := None; TryingTime := None; RingingTime := None;
     AcceptTime := None; JoinRoomTime := None; AckTime := None |}.

(** [b.Sub(a).Milliseconds()] *)
Definition subMs (b a : Z) : Z := Z.quot (satDuration (b - a)) 1000000.

Definition field (name : string) (a b : option Z) : list (string * Z) :=
  match a, b with Some a, Some b => [(name, subMs b a)] | _, _ => [] end.

(** [Log]: the fields of the log line; [None] when there is none. *)
Definition SignalingTimestamps_Log (ts : SignalingTimestamps) : option (list (string * Z)) :=
  match InviteTime ts with
  | None => None
  | Some _ =>
      Some (field "apiToInviteMs" (APITime ts) (InviteTime ts)
         ++ field "inviteToTryingMs" (InviteTime ts) (TryingTime ts)
         ++ field "inviteToRingingMs" (InviteTime ts) (RingingTime ts)
         ++ field "inviteToJoinRoomMs" (InviteTime ts) (JoinRoomTime ts)
         ++ field "inviteToAcceptMs" (InviteTime ts) (AcceptTime ts)
         ++ field "acceptToAckMs" (AcceptTime ts) (AckTime ts)
         ++ field "apiToAckMs" (APITime ts) (AckTime ts))
  end.

(** A field is logged exactly when both of its times are known, with their
    difference. *)
Lemma Log_field name a b n : (name, n) ∈ field name a b <->
  exists x y, a = Some x /\ b = Some y /\ n = subMs y x.
Proof.
  unfold field. destruct a as [x|], b as [y|]; rewrite ?list_elem_of_singleton.
  - split; [intros [= ->]; eauto|intros (? & ? & [= ->] & [= ->] & ->); done].
  - split; [by intros ?%not_elem_of_nil|intros (? & ? & ? & ? & ?); done].
  - split; [by intros ?%not_elem_of_nil|intros (? & ? & ? & ? & ?); done].
  - split; [by intros ?%not_elem_of_nil|intros (? & ? & ? & ? & ?); done].
Qed.

(** ** The room

    What [lkRoom.Room()] gives at some moment: nil, or the room's SID and name and its
    local participant (nil, or its identity and attributes).  The room library is not part
    of the program, so this is an argument of the operations that look at it. *)
Record RoomView := { rv_SID : string; rv_Name : string; rv_local : option (string * gmap string string) }.
