(* ===== verification/Monitor.v ===== *)
(** * Call metrics

    [CallMonitor] of [pkg/stats/monitor.go] with the transfer counters of
    [Monitor]: which time series each call changes.  The flags are atomic and
    each method is taken as one step (a [CallEnd] between the flag and the label of
    a concurrent [CallStart] is not modelled), so a schedule of the methods is a
    list.  A series is named
    by the labels it has besides the constant ones. *)

From stdpp Require Import base tactics list strings option.
From Stdlib Require Import ZArith Lia.
From S2P Require Import Prelude GoStd Participant.
Import strings.

Inductive CallDir := Inbound | Outbound.

Definition CallDir_String (d : CallDir) : string :=
  match d with Inbound => "in" | Outbound => "out" end.

Definition ProviderUnknown : string := "unknown".

(** [livekit.ProviderInfo], a nil pointer reading as the zero value. *)
Inductive ProviderType := PROVIDER_TYPE_UNKNOWN | PROVIDER_TYPE_INTERNAL | PROVIDER_TYPE_EXTERNAL.

Definition providerLabel (typ : ProviderType) (name : string) : string :=
  match typ with
  | PROVIDER_TYPE_INTERNAL =>
      if negb (String.eqb name "") then "internal/" +:+ ToLower name
      else "internal/" +:+ ProviderUnknown
  | PROVIDER_TYPE_EXTERNAL => "external"
  | PROVIDER_TYPE_UNKNOWN => ProviderUnknown
  end.

(** ** State and effects *)
Record CallMonitor := {
  mon_dir : string;
  mon_to : string;
  mon_provider : option string;
  providerRecordedAtCallStart : option string;
  mon_started : bool;
  mon_terminated : bool;
}.

Definition NewCall (dir : CallDir) (toHost : string) : CallMonitor :=
  {| mon_dir := CallDir_String dir; mon_to := toHost; mon_provider := None;
     providerRecordedAtCallStart := None; mon_started := false; mon_terminated := false |}.

Inductive MEffect :=
| CallsActive (dir to provider : string) (delta : Z)
| CallsTerminated (dir to provider : string) (result : stats.TerminationResult) (reason : string)
| InviteErr (dir to provider reason : string)
| InviteReqInc (dir : string)
| InviteAcceptInc (dir to provider : string).

Section monitor.
Open Scope go_scope.
Abbreviation MM := (M CallMonitor MEffect).

Definition set_mon (provider atStart : option string) (started terminated : bool)
    (c : CallMonitor) : CallMonitor :=
  {| mon_dir := mon_dir c; mon_to := mon_to c; mon_provider := provider;
     providerRecordedAtCallStart := atStart; mon_started := started;
     mon_terminated := terminated |}.

Definition SetProvider (provider : string) : MM unit :=
  if String.eqb provider "" then mreturn tt
  else mmodify (fun c => set_mon (Some provider) (providerRecordedAtCallStart c) (mon_started c)
                           (mon_terminated c) c).

Definition mon_providerLabel (c : CallMonitor) : string := default ProviderUnknown (mon_provider c).

Definition InviteReq : MM unit := let* c := mget in memit (InviteReqInc (mon_dir c)).

Definition InviteAccept : MM unit :=
  let* c := mget in memit (InviteAcceptInc (mon_dir c) (mon_to c) (mon_providerLabel c)).

Definition InviteErrorShort (t : stats.Termination) : MM unit :=
  let* c := mget in
  do* memit (InviteErr (mon_dir c) "unknown" (mon_providerLabel c) (stats.Reason t)) in
  memit (CallsTerminated (mon_dir c) "unknown" (mon_providerLabel c) (stats.Result t) (stats.Reason t)).

Definition InviteError (reason : string) : MM unit :=
  let* c := mget in memit (InviteErr (mon_dir c) (mon_to c) (mon_providerLabel c) reason).

Definition CallStart : MM unit :=
  let* c := mget in
  if mon_started c then mreturn tt
  else
    let p := mon_providerLabel c in
    do* mput (set_mon (mon_provider c) (Some p) true (mon_terminated c) c) in
    memit (CallsActive (mon_dir c) (mon_to c) p 1).

(** The label is read back through a pointer that [CallStart] set. *)
Definition CallEnd : MM unit :=
  let* c := mget in
  if negb (mon_started c) then mreturn tt
  else
    do* mput (set_mon (mon_provider c) (providerRecordedAtCallStart c) false (mon_terminated c) c) in
    match providerRecordedAtCallStart c with
    | Some p => memit (CallsActive (mon_dir c) (mon_to c) p (-1))
    | None => mreturn tt                       (* a nil dereference *)
    end.

Definition CallTerminate (t : stats.Termination) : MM unit :=
  let* c := mget in
  if mon_terminated c then mreturn tt
  else
    do* mput (set_mon (mon_provider c) (providerRecordedAtCallStart c) (mon_started c) true c) in
    memit (CallsTerminated (mon_dir c) (mon_to c) (mon_providerLabel c) (stats.Result t) (stats.Reason t)).

Inductive MOp :=
| MSetProvider (p : string) | MInviteReq | MInviteAccept | MInviteError (reason : string)
| MInviteErrorShort (t : stats.Termination)
| MCallStart | MCallEnd | MCallTerminate (t : stats.Termination).

Definition runMOp (o : MOp) : MM unit :=
  match o with
  | MSetProvider p => SetProvider p
  | MInviteReq => InviteReq
  | MInviteAccept => InviteAccept
  | MInviteError r => InviteError r
  | MInviteErrorShort t => InviteErrorShort t
  | MCallStart => CallStart
  | MCallEnd => CallEnd
  | MCallTerminate t => CallTerminate t
  end.

Fixpoint runMOps (l : list MOp) : MM unit :=
  match l with
  | [] => mreturn tt
  | o :: l' => do* runMOp o in runMOps l'
  end.
End monitor.


Definition terminations (l : list MEffect) : nat :=
  countb (fun e => match e with CallsTerminated _ _ _ _ _ => true | _ => false end) l.










(** A rejection reported early and a termination of the same monitor are two
    terminations. *)
Lemma invite_error_short_uncounted t :
  let '(_, _, tr) := runMOps [MInviteErrorShort t; MCallTerminate t] (NewCall Inbound "host") in
  terminations tr = 2%nat.
Proof. reflexivity. Qed.

(** ** Transfers *)
Inductive TEffect :=
| TTotal (dir : CallDir) | TActive (dir : CallDir) (delta : Z)
| TSucceeded (dir : CallDir) | TFailed (dir : CallDir) (reason : string).

Definition TransferStarted (dir : CallDir) : list TEffect := [TTotal dir; TActive dir 1].
Definition TransferSucceeded (dir : CallDir) : list TEffect := [TSucceeded dir; TActive dir (-1)].
Definition TransferFailed (dir : CallDir) (reason : string) (changeActive : bool) : list TEffect :=
  TFailed dir reason :: if changeActive then [TActive dir (-1)] else [].

(** ** Health

    The CPU idle time and the utilisation limit are exact rationals here; in the
    program they are floating-point numbers.  A limit of NaN, which [Config] lets through,
    is left out: with it the comparison is never true. *)
From Stdlib Require Import QArith.
Inductive HealthStatus := HealthOK | HealthNotStarted | HealthStopped | HealthUnderLoad | HealthDisabled.

Definition Health (started shutdown : bool) (idle numCPU maxUtilization : Q) : HealthStatus :=
  if negb started then HealthNotStarted
  else if shutdown then HealthStopped
  else if negb (Qle_bool (numCPU * (1 - maxUtilization)) idle) then HealthUnderLoad
  else HealthOK.
