(* ===== verification/Sealer.v ===== *)
(** * Sealed digest nonces

    [pkg/sealer/sealer.go] (encryption with a list of keys) and
    [pkg/sip/digest_nonce.go] (the nonce of a digest challenge: the sealed time
    of its creation).  AES-GCM and SHA-256 are library code: the class [AEAD]
    states what is used of them. *)

From stdpp Require Import base tactics list strings option.
From Stdlib Require Import ZArith Ascii Lia.
From S2P Require Import Prelude GoStd GoErr Participant.
Import strings strconv unquote.

(** Byte strings are Go's [[]byte]; [slen] is their length. *)
Definition slen (s : string) : Z := Z.of_nat (String.length s).

(** ** The cipher

    [aead_seal] and [aead_open] are [cipher.AEAD]'s [Seal] and [Open] for one
    key, [derive] the key made from a configured string.  The laws: opening what
    was sealed gives it back; what opens was sealed (GCM recomputes the tag); a
    sealed text is 16 bytes longer than the plain one. *)
Class AEAD := {
  AKey : Type;
  derive : string -> AKey;
  aead_seal : AKey -> string -> string -> string -> string;
  aead_open : AKey -> string -> string -> string -> option string;
  aead_open_seal k n p a : aead_open k n (aead_seal k n p a) a = Some p;
  aead_authentic k n b p a : aead_open k n b a = Some p -> b = aead_seal k n p a;
  aead_overhead k n p a : slen (aead_seal k n p a) = slen p + 16;
}.

Definition nonceSize : Z := 12.
Definition tagSize : Z := 16.

Section sealer.
Context `{AEAD}.

(** [AESGCM]: its keys in order; the first one seals. *)
Record AESGCM := { aeads : list AKey }.

Fixpoint newLoop (i : Z) (ks : list string) (acc : list AKey) : error + AESGCM :=
  match ks with
  | [] => inr {| aeads := acc |}
  | key :: ks' =>
      if String.eqb key "" then inl (EText ("sealer: key " +:+ fmt_d i +:+ " is empty"))
      else newLoop (i + 1) ks' (acc ++ [derive key])
  end.

Definition NewAESGCM (keys : list string) : error + AESGCM :=
  match keys with
  | [] => inl (EText "sealer: no keys")
  | _ => newLoop 0 keys []
  end.

Definition Overhead : Z := nonceSize + tagSize.

(** [rand] is what [io.ReadFull] reads from the random source: 12 bytes, or an
    error.  Without a key the index panics; [NewAESGCM] never builds that. *)
Definition Seal (s : AESGCM) (rand : error + string) (plain aad : string) : error + string :=
  match rand with
  | inl err => inl (EWrap "sealer: reading nonce: " err "")
  | inr nonce =>
      match aeads s with
      | [] => inl (EText "index out of range")
      | k :: _ => inr (nonce +:+ aead_seal k nonce plain aad)
      end
  end.

Fixpoint openLoop (ks : list AKey) (nonce body aad : string) : option string :=
  match ks with
  | [] => None
  | k :: ks' =>
      match aead_open k nonce body aad with
      | Some out => Some out
      | None => openLoop ks' nonce body aad
      end
  end.

Definition Open (s : AESGCM) (sealed aad : string) : error + string :=
  if slen sealed <? nonceSize + tagSize then inl (ESentinel sealer_ErrInvalid)
  else
    match openLoop (aeads s) (stake 12 sealed) (sdrop 12 sealed) aad with
    | Some out => inr out
    | None => inl (ESentinel sealer_ErrInvalid)
    end.
End sealer.

(** ** encoding/binary *)
Fixpoint beBytes (n : nat) (z : Z) : string :=
  match n with
  | O => ""
  | S n' => String (chr (Z.shiftr z (8 * Z.of_nat n') mod 256)) (beBytes n' z)
  end.

Definition AppendUint64 (z : Z) : string := beBytes 8 z.

Fixpoint beVal (acc : Z) (s : string) : Z :=
  match s with
  | "" => acc
  | String c s' => beVal (acc * 256 + code c) s'
  end.

Definition Uint64 (s : string) : Z := beVal 0 s.

(** ** encoding/base64, RawURLEncoding *)
Definition b64chr (i : Z) : ascii :=
  if i <? 26 then chr (65 + i)
  else if i <? 52 then chr (71 + i)
  else if i <? 62 then chr (i - 4)
  else if i =? 62 then "-" else "_".

Definition b64val (c : ascii) : option Z :=
  if in_range "A" "Z" c then Some (code c - 65)
  else if in_range "a" "z" c then Some (code c - 71)
  else if in_range "0" "9" c then Some (code c + 4)
  else if Ascii.eqb c "-" then Some 62
  else if Ascii.eqb c "_" then Some 63
  else None.

Fixpoint EncodeToString (b : string) : string :=
  match b with
  | "" => ""
  | String x "" =>
      let n := code x * 65536 in
      String (b64chr (n / 262144)) (String (b64chr (n / 4096 mod 64)) "")
  | String x (String y "") =>
      let n := code x * 65536 + code y * 256 in
      String (b64chr (n / 262144)) (String (b64chr (n / 4096 mod 64))
        (String (b64chr (n / 64 mod 64)) ""))
  | String x (String y (String z b')) =>
      let n := code x * 65536 + code y * 256 + code z in
      String (b64chr (n / 262144)) (String (b64chr (n / 4096 mod 64))
        (String (b64chr (n / 64 mod 64)) (String (b64chr (n mod 64)) (EncodeToString b'))))
  end.

(** The decoder skips line ends; a final group of two or three characters gives
    one or two bytes, a single character is an error. *)
Fixpoint decodeQuads (s : string) : option string :=
  match s with
  | "" => Some ""
  | String _ "" => None
  | String c1 (String c2 "") =>
      match b64val c1, b64val c2 with
      | Some a, Some b => Some (String (chr ((a * 262144 + b * 4096) / 65536)) "")
      | _, _ => None
      end
  | String c1 (String c2 (String c3 "")) =>
      match b64val c1, b64val c2, b64val c3 with
      | Some a, Some b, Some c =>
          let n := a * 262144 + b * 4096 + c * 64 in
          Some (String (chr (n / 65536)) (String (chr (n / 256 mod 256)) ""))
      | _, _, _ => None
      end
  | String c1 (String c2 (String c3 (String c4 s'))) =>
      match b64val c1, b64val c2, b64val c3, b64val c4, decodeQuads s' with
      | Some a, Some b, Some c, Some d, Some r =>
          let n := a * 262144 + b * 4096 + c * 64 + d in
          Some (String (chr (n / 65536)) (String (chr (n / 256 mod 256)) (String (chr (n mod 256)) r)))
      | _, _, _, _, _ => None
      end
  end.

Definition DecodeString (s : string) : option string :=
  decodeQuads (RemoveC newline (RemoveC creturn s)).

(** ** Digest nonces; times are in nanoseconds *)
Definition authChallengeTimeout : Z := 30 * second.
Definition digestNonceTTL : Z := authChallengeTimeout.

Definition digestNonceAAD (sipCallID : string) : string :=
  "sip-digest-nonce" +:+ String "000" sipCallID.

(** [time.Duration.String] of a duration of at least one second, the only kind
    the expiry message prints. *)
Fixpoint trimZeros (s : string) : string :=
  match s with
  | "" => ""
  | String c s' =>
      match trimZeros s' with
      | "" => if Ascii.eqb c "0" then "" else String c ""
      | r => String c r
      end
  end.

Fixpoint padZeros (n : nat) (s : string) : string :=
  match n with
  | O => s
  | S n' => if (String.length s <? n)%nat then String "0" (padZeros n' s) else s
  end.

Definition durationString (d : Z) : string :=
  let u := Z.abs d in
  let frac := trimZeros (padZeros 9 (utoa (u mod second))) in
  let secs := u / second in
  (if d <? 0 then "-" else "") +:+
  (if 3600 <=? secs then utoa (secs / 3600) +:+ "h" else "") +:+
  (if 60 <=? secs then utoa (secs / 60 mod 60) +:+ "m" else "") +:+
  utoa (secs mod 60) +:+ (if String.eqb frac "" then "" else "." +:+ frac) +:+ "s".

Example durationString_ex :
  map durationString [31 * second; - 61 * second - 500000000; 3600 * second] =
  ["31s"; "-1m1.5s"; "1h0m0s"].
Proof. reflexivity. Qed.

Definition UnixMicro (t : Z) : Z := t / 1000.

Section nonce.
Context `{AEAD}.

Definition issueDigestNonce (s : AESGCM) (rand : error + string) (sipCallID : string) (now : Z)
    : error + string :=
  let plain := AppendUint64 (u64 (UnixMicro now)) in
  match Seal s rand plain (digestNonceAAD sipCallID) with
  | inl err => inl err
  | inr b => inr (EncodeToString b)
  end.

Definition checkDigestNonce (s : AESGCM) (nonce sipCallID : string) (now : Z) : option error :=
  match DecodeString nonce with
  | None => Some (EWrap2 (ESentinel sealer_ErrInvalid) ": " (EText "illegal base64 data"))
  | Some b =>
      match Open s b (digestNonceAAD sipCallID) with
      | inl err => Some err
      | inr plain =>
          if negb (slen plain =? 8) then
            Some (EWrap "" (ESentinel sealer_ErrInvalid)
                    (": timestamp length " +:+ fmt_d (slen plain)))
          else
            let created := i64 (Uint64 plain) * 1000 in
            let age := satDuration (now - created) in
            if (digestNonceTTL <? age) || (age <? - digestNonceTTL) then
              Some (EWrap "" (ESentinel errDigestNonceExpired) (": age " +:+ durationString age))
            else None
      end
  end.
End nonce.

(** ** Lemmas *)

Lemma slen_app s t : slen (s +:+ t) = slen s + slen t.
Proof.
  unfold slen. induction s as [|c s IH]; [done|]. rewrite sapp_cons. simpl String.length. lia.
Qed.

Lemma stake_app n s t : String.length s = n -> stake n (s +:+ t) = s.
Proof. revert s. induction n as [|n IH]; intros [|c s]; simpl; intros [=]; [done|]. by rewrite IH. Qed.

Lemma sdrop_app n s t : String.length s = n -> sdrop n (s +:+ t) = t.
Proof. revert s. induction n as [|n IH]; intros [|c s]; simpl; intros [=]; [done|]. by rewrite IH. Qed.

Lemma stake_sdrop n s : stake n s +:+ sdrop n s = s.
Proof.
  revert s. induction n as [|n IH]; intros [|c s]; try done. simpl. rewrite sapp_cons. f_equal. apply IH.
Qed.

Lemma beVal_beBytes n acc z :
  beVal acc (beBytes n z) = acc * 2 ^ (8 * Z.of_nat n) + z mod 2 ^ (8 * Z.of_nat n).
Proof.
  revert acc. induction n as [|n IH]; intros acc; simpl beBytes; simpl beVal.
  { rewrite Z.mod_1_r. lia. }
  rewrite IH, code_chr by (apply Z.mod_pos_bound; lia).
  rewrite Z.shiftr_div_pow2 by lia.
  replace (8 * Z.of_nat (S n)) with (8 * Z.of_nat n + 8) by lia.
  rewrite Z.pow_add_r by lia. change (2 ^ 8) with 256.
  rewrite Z.rem_mul_r by lia. lia.
Qed.

Lemma beBytes_slen n z : slen (beBytes n z) = Z.of_nat n.
Proof.
  induction n as [|n IH]; [done|]. simpl beBytes. unfold slen in *. simpl String.length. lia.
Qed.

Lemma Uint64_AppendUint64 z : 0 <= z < 2 ^ 64 -> Uint64 (AppendUint64 z) = z.
Proof.
  intros. unfold Uint64, AppendUint64. rewrite beVal_beBytes.
  change (8 * Z.of_nat 8) with 64. rewrite Z.mod_small by done. lia.
Qed.

Lemma Uint64_u64_i64 t : minInt64 <= t <= maxInt64 -> i64 (Uint64 (AppendUint64 (u64 t))) = t.
Proof.
  intros. unfold minInt64, maxInt64 in *.
  rewrite Uint64_AppendUint64 by (apply wrapU_range; lia).
  rewrite wrapS_wrapU by lia. apply wrapS_id; simpl; lia.
Qed.

(** The 64 characters of the alphabet. *)
Lemma b64val_b64chr i :
  0 <= i < 64 -> b64val (b64chr i) = Some i /\ Ascii.eqb (b64chr i) newline = false /\
                 Ascii.eqb (b64chr i) creturn = false.
Proof.
  intros Hi.
  assert (Hall : forallb (fun n =>
            let i := Z.of_nat n in
            match b64val (b64chr i) with Some j => j =? i | None => false end &&
            negb (Ascii.eqb (b64chr i) newline) && negb (Ascii.eqb (b64chr i) creturn))
            (seq 0 64) = true) by by vm_compute.
  rewrite forallb_forall in Hall.
  specialize (Hall (Z.to_nat i)). rewrite Z2Nat.id in Hall by lia. cbv zeta in Hall.
  rewrite !andb_true_iff, !negb_true_iff in Hall.
  destruct Hall as [[H1 H2] H3]; [apply List.in_seq; lia|].
  destruct (b64val (b64chr i)) as [j|]; [|done]. apply Z.eqb_eq in H1. by subst.
Qed.

Lemma byte_quad x y z :
  0 <= x < 256 -> 0 <= y < 256 -> 0 <= z < 256 ->
  let n := x * 65536 + y * 256 + z in
  0 <= n / 262144 < 64 /\ 0 <= n / 4096 mod 64 < 64 /\ 0 <= n / 64 mod 64 < 64 /\
  0 <= n mod 64 < 64 /\
  n / 262144 * 262144 + n / 4096 mod 64 * 4096 + n / 64 mod 64 * 64 + n mod 64 = n /\
  n / 65536 = x /\ n / 256 mod 256 = y /\ n mod 256 = z.
Proof. intros Hx Hy Hz n. subst n. Z.to_euclidean_division_equations. lia. Qed.

Lemma string_ind3 (P : string -> Prop) :
  P "" -> (forall x, P (String x "")) -> (forall x y, P (String x (String y ""))) ->
  (forall x y z s, P s -> P (String x (String y (String z s)))) -> forall s, P s.
Proof.
  intros H0 H1 H2 H3 s.
  assert (P s /\ (forall x, P (String x s)) /\ (forall x y, P (String x (String y s)))) as [? _];
    [|done].
  induction s as [|c s (Ha & Hb & Hc)]; [done|]. split; [apply Hb|]. split; [intros y; apply Hc|]. intros; apply H3, Ha.
Qed.

Lemma decode_encode s : decodeQuads (EncodeToString s) = Some s.
Proof.
  induction s as [|x|x y|x y z s IH] using string_ind3; [done| | |].
  - pose proof (byte_quad (code x) 0 0 (code_range x) ltac:(lia) ltac:(lia)) as Hq; cbv zeta in Hq.
    rewrite Z.add_0_r in Hq. replace (0 * 256) with 0 in Hq by lia. rewrite Z.add_0_r in Hq.
    destruct Hq as (H1 & H2 & H3 & H4 & H5 & H6 & H7 & H8). simpl.
    rewrite (proj1 (b64val_b64chr _ H1)), (proj1 (b64val_b64chr _ H2)).
    replace ((_ + _) / 65536) with (code x)
      by (clear - H1; pose proof (code_range x); Z.to_euclidean_division_equations; lia).
    by rewrite chr_code.
  - pose proof (byte_quad (code x) (code y) 0 (code_range x) (code_range y) ltac:(lia)) as Hq;
      cbv zeta in Hq. rewrite Z.add_0_r in Hq.
    destruct Hq as (H1 & H2 & H3 & H4 & H5 & H6 & H7 & H8). simpl.
    rewrite (proj1 (b64val_b64chr _ H1)), (proj1 (b64val_b64chr _ H2)), (proj1 (b64val_b64chr _ H3)).
    set (n := code x * 65536 + code y * 256) in *.
    replace (n / 262144 * 262144 + n / 4096 mod 64 * 4096 + n / 64 mod 64 * 64) with n
      by (subst n; pose proof (code_range y); clear - H5 H8 H; Z.to_euclidean_division_equations; lia).
    by rewrite H6, H7, !chr_code.
  - pose proof (byte_quad (code x) (code y) (code z) (code_range x) (code_range y) (code_range z))
      as (H1 & H2 & H3 & H4 & H5 & H6 & H7 & H8). simpl.
    rewrite (proj1 (b64val_b64chr _ H1)), (proj1 (b64val_b64chr _ H2)),
      (proj1 (b64val_b64chr _ H3)), (proj1 (b64val_b64chr _ H4)), IH.
    by rewrite H5, H6, H7, H8, !chr_code.
Qed.

Lemma RemoveC_free c s : freec c s = true -> RemoveC c s = s.
Proof.
  unfold freec. induction s as [|x s IH]; simpl; [done|].
  intros [Hx Hs]%andb_prop. apply negb_true_iff in Hx. by rewrite Hx, IH.
Qed.

(** Encoded text is free of line ends. *)
Lemma encode_free c s :
  (forall i, 0 <= i < 64 -> Ascii.eqb (b64chr i) c = false) -> freec c (EncodeToString s) = true.
Proof.
  intros Hc. unfold freec.
  assert (Hq : forall n, 0 <= n < 16777216 -> 0 <= n / 262144 < 64)
    by (intros; Z.to_euclidean_division_equations; lia).
  assert (Hm : forall n, 0 <= n mod 64 < 64) by (intros; apply Z.mod_pos_bound; lia).
  induction s as [|x|x y|x y z s IH] using string_ind3; simpl; [done| | |];
    pose proof (code_range x); try pose proof (code_range y); try pose proof (code_range z);
    rewrite ?Hc by (apply Hm || (apply Hq; lia)); done.
Qed.

Lemma DecodeString_EncodeToString s : DecodeString (EncodeToString s) = Some s.
Proof.
  unfold DecodeString. rewrite !RemoveC_free; [apply decode_encode | ..];
    rewrite ?RemoveC_free; apply encode_free; intros i Hi; by apply b64val_b64chr.
Qed.

Section nonce_lemmas.
Context `{AEAD}.

(** The keys before [k] that do not open the value, as wrong keys do not. *)
Definition rejectedBy (ks : list AKey) (nonce body aad : string) : Prop :=
  Forall (fun k => aead_open k nonce body aad = None) ks.

Lemma openLoop_skip ks1 k ks2 nonce plain aad :
  rejectedBy ks1 nonce (aead_seal k nonce plain aad) aad ->
  openLoop (ks1 ++ k :: ks2) nonce (aead_seal k nonce plain aad) aad = Some plain.
Proof.
  induction 1 as [|k' ks1 Hk Hks IH]; simpl.
  - by rewrite aead_open_seal.
  - by rewrite Hk.
Qed.

(** What opens was sealed with a key of the list, and no key before that one opens it. *)
Lemma openLoop_authentic ks nonce body aad plain :
  openLoop ks nonce body aad = Some plain ->
  exists ks1 k ks2, ks = ks1 ++ k :: ks2 /\ rejectedBy ks1 nonce body aad /\
    body = aead_seal k nonce plain aad.
Proof.
  induction ks as [|k ks IH]; simpl; [done|].
  destruct (aead_open k nonce body aad) as [out|] eqn:E; intros Ho.
  - simplify_eq. exists [], k, ks. split; [done|]. split; [constructor | by apply aead_authentic].
  - destruct (IH Ho) as (ks1 & k' & ks2 & -> & Hr & ?).
    exists (k :: ks1), k', ks2. split; [done|]. split; [by constructor | done].
Qed.

Lemma stake_length n s : (n <= String.length s)%nat -> String.length (stake n s) = n.
Proof.
  revert s. induction n as [|n IH]; intros [|c s]; simpl; try lia. intros. by rewrite IH by lia.
Qed.

Lemma Open_Seal ks1 k ks2 nonce plain aad :
  String.length nonce = 12%nat ->
  rejectedBy ks1 nonce (aead_seal k nonce plain aad) aad ->
  Open {| aeads := ks1 ++ k :: ks2 |} (nonce +:+ aead_seal k nonce plain aad) aad = inr plain.
Proof.
  intros Hn Hr. unfold Open. rewrite slen_app, aead_overhead.
  rewrite (proj2 (Z.ltb_ge _ _)) by (unfold slen, nonceSize, tagSize; lia).
  rewrite stake_app, sdrop_app by done. cbn [aeads]. by rewrite openLoop_skip.
Qed.

(** The verdict on a nonce that opens to a time. *)
Definition ageVerdict (created now : Z) : option error :=
  let age := satDuration (now - created * 1000) in
  if (digestNonceTTL <? age) || (age <? - digestNonceTTL) then
    Some (EWrap "" (ESentinel errDigestNonceExpired) (": age " +:+ durationString age))
  else None.

Lemma checkDigestNonce_opened s nonce b callID plain created now :
  DecodeString nonce = Some b -> Open s b (digestNonceAAD callID) = inr plain ->
  slen plain = 8 -> i64 (Uint64 plain) = created ->
  checkDigestNonce s nonce callID now = ageVerdict created now.
Proof.
  intros Hd Ho Hl Hc. unfold checkDigestNonce, ageVerdict. rewrite Hd, Ho, Hl, Hc. done.
Qed.

Lemma issue_check ks1 k ks2 kseal rest rnd callID t now nonce :
  kseal = k :: rest -> String.length rnd = 12%nat ->
  minInt64 <= UnixMicro t <= maxInt64 ->
  rejectedBy ks1 rnd
    (aead_seal k rnd (AppendUint64 (u64 (UnixMicro t))) (digestNonceAAD callID)) (digestNonceAAD callID) ->
  issueDigestNonce {| aeads := kseal |} (inr rnd) callID t = inr nonce ->
  checkDigestNonce {| aeads := ks1 ++ k :: ks2 |} nonce callID now = ageVerdict (UnixMicro t) now.
Proof.
  intros -> Hr Ht Hrej Hi. unfold issueDigestNonce, Seal in Hi; simpl in Hi. injection Hi as <-.
  eapply checkDigestNonce_opened.
  - apply DecodeString_EncodeToString.
  - by apply Open_Seal.
  - apply (beBytes_slen 8).
  - by apply Uint64_u64_i64.
Qed.

Lemma ageVerdict_fresh created now :
  - digestNonceTTL <= now - created * 1000 <= digestNonceTTL <-> ageVerdict created now = None.
Proof.
  unfold ageVerdict, satDuration, digestNonceTTL, authChallengeTimeout, second, minInt64, maxInt64.
  cbv zeta. destruct (_ || _) eqn:E.
  - apply orb_true_iff in E. rewrite !Z.ltb_lt in E. split; [lia | done].
  - apply orb_false_iff in E. rewrite !Z.ltb_ge in E. split; [done | lia].
Qed.

Lemma ageVerdict_expired created now e :
  ageVerdict created now = Some e -> errors.Is e errDigestNonceExpired = true.
Proof. unfold ageVerdict. cbv zeta. destruct (_ || _); intros; by simplify_eq. Qed.
End nonce_lemmas.

(** A cipher for the witnesses: the key, nonce and associated data are appended to
    the plain text through a 16-byte tag that spells their sum. *)
Fixpoint ssum (acc : Z) (s : string) : Z :=
  match s with "" => acc | String c s' => ssum (acc * 256 + code c + 1) s' end.

Definition toyTag (k n p a : string) : string :=
  beBytes 16 (ssum 0 k * 2 ^ 96 + ssum (ssum (ssum 0 n) p) a).

Definition toyOpen (k n b a : string) : option string :=
  let p := stake (String.length b - 16) b in
  if String.eqb b (p +:+ toyTag k n p a) then Some p else None.

#[local] Program Instance toyAEAD : AEAD := {
  AKey := string;
  derive := fun s => s;
  aead_seal := fun k n p a => p +:+ toyTag k n p a;
  aead_open := toyOpen;
}.
Next Obligation.
  intros k n p a. unfold toyOpen.
  assert (Hl : (String.length (p +:+ toyTag k n p a) - 16)%nat = String.length p).
  { pose proof (slen_app p (toyTag k n p a)) as Hs. unfold toyTag in *.
    rewrite beBytes_slen in Hs. unfold slen in Hs. lia. }
  rewrite Hl, stake_app by done. by rewrite String.eqb_refl.
Qed.
Next Obligation.
  intros k n b p a. unfold toyOpen.
  destruct (String.eqb_spec b (stake (String.length b - 16) b +:+
    toyTag k n (stake (String.length b - 16) b) a)) as [E|]; [|done].
  intros [= Hp]. rewrite Hp in E. exact E.
Qed.
Next Obligation.
  intros k n p a. change (slen (p +:+ toyTag k n p a) = slen p + 16).
  unfold toyTag. by rewrite slen_app, (beBytes_slen 16).
Qed.

(** ** Properties *)

(** a nonce issued by one server is accepted by every server that has its
    sealing key, for the same Call-ID, exactly while the two clocks read within
    30 seconds of each other (to the microsecond); later, or earlier, it is
    reported as expired and as nothing else.  The server may be rotating keys: the
    keys it tries first are assumed to reject a value they did not seal. *)
Theorem digestNonce_shared `{AEAD} ks1 k ks2 rest rnd callID t now nonce :
  String.length rnd = 12%nat -> minInt64 <= UnixMicro t <= maxInt64 ->
  rejectedBy ks1 rnd
    (aead_seal k rnd (AppendUint64 (u64 (UnixMicro t))) (digestNonceAAD callID)) (digestNonceAAD callID) ->
  issueDigestNonce {| aeads := k :: rest |} (inr rnd) callID t = inr nonce ->
  let r := checkDigestNonce {| aeads := ks1 ++ k :: ks2 |} nonce callID now in
  (r = None <-> - digestNonceTTL <= now - UnixMicro t * 1000 <= digestNonceTTL) /\
  (forall e, r = Some e -> errors.Is e errDigestNonceExpired = true).
Proof.
  intros Hr Ht Hrej Hi r.
  assert (Hc : r = ageVerdict (UnixMicro t) now) by (by eapply issue_check). rewrite Hc.
  split; [symmetry; apply ageVerdict_fresh | apply ageVerdict_expired].
Qed.

Lemma digestNonce_shared_witness :
  checkDigestNonce {| aeads := ["old"; "new"] |}
    (EncodeToString ("abcdefghijkl" +:+ (AppendUint64 (u64 (UnixMicro (5 * second))) +:+
       toyTag "new" "abcdefghijkl" (AppendUint64 (u64 (UnixMicro (5 * second)))) (digestNonceAAD "call-1"))))
    "call-1" (20 * second) = None.
Proof.
  refine (proj2 (proj1 (digestNonce_shared ["old"] "new" [] [] "abcdefghijkl" "call-1" (5 * second)
    (20 * second) _ _ _ _ _)) _).
  - reflexivity.
  - by vm_compute.
  - constructor; [vm_compute; reflexivity | constructor].
  - reflexivity.
  - by vm_compute.
Defined.

(** C25: exactly the sealed nonces are accepted.  Whatever text is presented as a
    nonce, it is accepted if and only if it is (up to base64) a value of exactly 12
    bytes followed by the sealing under that value, with one of the server's keys
    and for this very Call-ID, of an 8-byte time within 30 seconds of the server's
    clock.  The key is the first of the server's that opens the text, since the
    server tries them in order. *)
Theorem digestNonce_authentic `{AEAD} ks nonce callID now :
  checkDigestNonce {| aeads := ks |} nonce callID now = None <->
  exists rnd ks1 k ks2 plain,
    let sealed := aead_seal k rnd plain (digestNonceAAD callID) in
    DecodeString nonce = Some (rnd +:+ sealed) /\ String.length rnd = 12%nat /\
    ks = ks1 ++ k :: ks2 /\ rejectedBy ks1 rnd sealed (digestNonceAAD callID) /\
    slen plain = 8 /\ - digestNonceTTL <= now - i64 (Uint64 plain) * 1000 <= digestNonceTTL.
Proof.
  split.
  - unfold checkDigestNonce. destruct (DecodeString nonce) as [b|]; [|done].
    unfold Open. destruct (Z.ltb_spec (slen b) (nonceSize + tagSize)) as [|Hb12]; [done|]. cbn [aeads].
    destruct (openLoop ks _ _ _) as [plain|] eqn:E; [|done].
    destruct (Z.eqb_spec (slen plain) 8) as [Hl|]; [|done]. cbn [negb].
    intros Hv. apply openLoop_authentic in E as (ks1 & k & ks2 & -> & Hr & Hb).
    exists (stake 12 b), ks1, k, ks2, plain. cbv zeta. rewrite <- Hb, stake_sdrop, stake_length
      by (unfold slen, nonceSize, tagSize in Hb12; lia).
    split_and!; try done; by apply ageVerdict_fresh.
  - intros (rnd & ks1 & k & ks2 & plain & Hd & Hr & -> & Hrej & Hl & Ht).
    rewrite (checkDigestNonce_opened _ _ _ _ plain _ _ Hd (Open_Seal _ _ _ _ _ _ Hr Hrej) Hl eq_refl).
    by apply ageVerdict_fresh.
Qed.

Lemma digestNonce_authentic_witness :
  checkDigestNonce {| aeads := ["old"; "new"] |}
    (EncodeToString ("abcdefghijkl" +:+ (AppendUint64 (u64 5) +:+
       toyTag "new" "abcdefghijkl" (AppendUint64 (u64 5)) (digestNonceAAD "c")))) "c" second = None.
Proof.
  apply (proj2 (digestNonce_authentic (H := toyAEAD) ["old"; "new"] _ "c" second)).
  exists "abcdefghijkl", ["old"], "new", [], (AppendUint64 (u64 5)). cbv zeta.
  split; [vm_compute; reflexivity|]. split; [reflexivity|]. split; [reflexivity|].
  split; [constructor; [vm_compute; reflexivity|constructor]|].
  split; [vm_compute; reflexivity|]. vm_compute. split; discriminate.
Defined.

(** [NewAESGCM] succeeds exactly on a non-empty list of non-empty keys, and
    keeps them all in order, so that a value it seals opens with it. *)
Theorem NewAESGCM_keys `{AEAD} keys :
  (forall s, NewAESGCM keys = inr s ->
     aeads s = map derive keys /\ keys <> [] /\ Forall (fun k => k <> "") keys) /\
  (keys <> [] -> Forall (fun k => k <> "") keys -> NewAESGCM keys = inr {| aeads := map derive keys |}).
Proof.
  unfold NewAESGCM. destruct keys as [|k0 keys0]; [done|].
  assert (Hs : forall ks i acc s, newLoop i ks acc = inr s ->
             aeads s = acc ++ map derive ks /\ Forall (fun k => k <> "") ks).
  { induction ks as [|k ks IH]; simpl; intros i acc s Hs.
    - simplify_eq. rewrite app_nil_r. done.
    - destruct (String.eqb_spec k ""); [done|]. destruct (IH _ _ _ Hs) as [-> ?].
      rewrite <- app_assoc. split; [done | by constructor]. }
  assert (Hc : forall ks i acc, Forall (fun k => k <> "") ks ->
             newLoop i ks acc = inr {| aeads := acc ++ map derive ks |}).
  { induction ks as [|k ks IH]; simpl; intros i acc Hf.
    - by rewrite app_nil_r.
    - inversion Hf; subst. destruct (String.eqb_spec k ""); [done|].
      rewrite IH by done. by rewrite <- app_assoc. }
  split.
  - intros s [? ?]%Hs. done.
  - intros _ Hf. by rewrite (Hc _ 0 []).
Qed.

Lemma NewAESGCM_keys_witness :
  NewAESGCM ["a"; "b"] = inr {| aeads := ["a"; "b"] |}.
Proof. apply (NewAESGCM_keys (H := toyAEAD) ["a"; "b"]); [discriminate | by repeat constructor]. Defined.
