(* ===== verification/InboundAuth.v ===== *)
(** * Authentication of inbound INVITEs

    [pkg/sip/inbound.go]: the digest authentication of an INVITE
    ([handleInviteAuth], [validateAuthorization]), the per-call INVITE counters and
    the timer that finalises a challenged call ([inboundCallInfo]).  The digest
    library is the class [DigestLib]. *)

From stdpp Require Import base tactics list sets strings option.
From Stdlib Require Import ZArith Lia.
From S2P Require Import Prelude GoStd GoErr Participant Errors Types Protocol Sealer.

(** ** Digest authentication *)

(** [digest.Credentials], the fields that are used. *)
Record Credentials := {
  cred_Username : string;
  cred_URI : string;
  cred_Nonce : string;
  cred_Response : string;
}.

(** The digest library: parsing of a credentials header, and the response to a
    challenge given realm, nonce, method, URI, user name and password. *)
Class DigestLib := {
  ParseCredentials : string -> option Credentials;
  Digest : string -> string -> string -> string -> string -> string -> option string;
}.

Record InboundAuthParams := { Realm : string; Username : string; Password : string }.

Record Challenge := {
  chal_Realm : string;
  chal_Nonce : string;
  chal_Algorithm : string;
  chal_Stale : bool;
}.

Definition UserAgent : string := "LiveKit".

Definition inviteHasAuth (r : Request) : bool :=
  match req_GetHeader r "Proxy-Authorization", req_GetHeader r "Authorization" with
  | None, None => false
  | _, _ => true
  end.

Definition callIDOf (req : Request) : string := default "" (req_CallID req).

Section auth.
Context `{AEAD} `{DigestLib}.

Definition validateAuthorization (s : AESGCM) (req : Request) (auth : InboundAuthParams) (now : Z)
    : SResult * bool :=
  match req_GetHeader req "Proxy-Authorization" with
  | None => ({| res_Code := 407; res_Status := "" |}, false)
  | Some credentials =>
      match ParseCredentials credentials with
      | None => ({| res_Code := 401; res_Status := "Bad credentials" |}, false)
      | Some cred =>
          if negb (String.eqb (cred_Username cred) (Username auth)) then
            ({| res_Code := 401; res_Status := "Unauthorized" |}, false)
          else
            let check := checkDigestNonce s (cred_Nonce cred) (callIDOf req) now in
            let invalid := match check with
                           | Some err => negb (errors.Is err errDigestNonceExpired)
                           | None => false
                           end in
            if invalid then ({| res_Code := 401; res_Status := "Bad credentials" |}, false)
            else
              let stale := match check with Some _ => true | None => false end in
              match Digest (Realm auth) (cred_Nonce cred) "INVITE" (cred_URI cred)
                      (cred_Username cred) (Password auth) with
              | None => ({| res_Code := 401; res_Status := "Bad credentials" |}, false)
              | Some response =>
                  if negb (String.eqb (cred_Response cred) response) then
                    ({| res_Code := 401; res_Status := "Unauthorized" |}, false)
                  else if stale then ({| res_Code := 407; res_Status := "Expired nonce" |}, true)
                  else ({| res_Code := 200; res_Status := "OK" |}, false)
              end
      end
  end.

(** [now] is read when the credentials are checked, [now'] when a nonce is
    issued; [rand] is the random source at that time. *)
Definition handleInviteAuth (s : AESGCM) (rand : error + string) (req : Request)
    (auth : InboundAuthParams) (now now' : Z) : SResult * option Challenge :=
  let auth := {| Realm := if String.eqb (Realm auth) "" then UserAgent else Realm auth;
                 Username := Username auth; Password := Password auth |} in
  if String.eqb (Username auth) "" || String.eqb (Password auth) "" then
    ({| res_Code := 200; res_Status := "" |}, None)
  else
    let '(result, stale) := validateAuthorization s req auth now in
    if negb (res_Code result =? 407) then (result, None)
    else
      match issueDigestNonce s rand (callIDOf req) now' with
      | inl _ => ({| res_Code := 500; res_Status := "Internal error" |}, None)
      | inr nonce =>
          ({| res_Code := 407; res_Status := "Unauthorized" |},
           Some {| chal_Realm := Realm auth; chal_Nonce := nonce; chal_Algorithm := "MD5";
                   chal_Stale := stale |})
      end.
End auth.

(** ** Counting INVITEs *)
Record inboundCallCounters := { cseq : Z; cseqAuth : Z; invites : Z; invitesAuth : Z }.

(** The new counters, and whether the INVITE looks like a retry (the warning). *)
Definition countInvite (c : inboundCallCounters) (req : Request) : inboundCallCounters * bool :=
  match req_CSeq req with
  | None => (c, false)
  | Some seq =>
      let count (cur n : Z) : Z * Z * bool :=
        let cur := if cur =? 0 then seq else cur in
        if cur <? seq then (cur, n, false) else (cur, u32 (n + 1), 1 <? u32 (n + 1)) in
      if inviteHasAuth req then
        let '(cur, n, w) := count (cseqAuth c) (invitesAuth c) in
        ({| cseq := cseq c; cseqAuth := cur; invites := invites c; invitesAuth := n |}, w)
      else
        let '(cur, n, w) := count (cseq c) (invites c) in
        ({| cseq := cur; cseqAuth := cseqAuth c; invites := n; invitesAuth := invitesAuth c |}, w)
  end.

(** ** The challenge timer

    Timers are numbered in the order they are created.  A timer that has expired
    runs its function in a goroutine of its own, so the function may still be
    waiting for the lock when the timer is stopped or replaced: [running] are the
    functions started and not yet in their critical section. *)
Record timers := {
  challengeTimer : option nat;
  armed : list nat;
  running : list nat;
  nextTimer : nat;
}.

Inductive tlabel := LStart (id : nat) | LStop | LExpire (id : nat) | LRun (id : nat) (fired : bool).

Definition stopLocked (s : timers) : timers :=
  match challengeTimer s with
  | None => s
  | Some t =>
      {| challengeTimer := None; armed := List.filter (fun i => negb (i =? t)%nat) (armed s);
         running := running s; nextTimer := nextTimer s |}
  end.

Definition startChallengeTimer (s : timers) : timers :=
  let s := stopLocked s in
  {| challengeTimer := Some (nextTimer s); armed := nextTimer s :: armed s;
     running := running s; nextTimer := S (nextTimer s) |}.

Definition stopChallengeTimer (s : timers) : timers := stopLocked s.

(** The critical section of an expired timer's function: does it fire? *)
Definition timerFunc (t : nat) (s : timers) : bool * timers :=
  let running' := List.filter (fun i => negb (i =? t)%nat) (running s) in
  if decide (challengeTimer s = Some t) then
    (true, {| challengeTimer := None; armed := armed s; running := running';
              nextTimer := nextTimer s |})
  else
    (false, {| challengeTimer := challengeTimer s; armed := armed s; running := running';
               nextTimer := nextTimer s |}).

Definition timers0 : timers :=
  {| challengeTimer := None; armed := []; running := []; nextTimer := 0 |}.

Inductive tstep : timers -> tlabel -> timers -> Prop :=
| T_start s : tstep s (LStart (nextTimer s)) (startChallengeTimer s)
| T_stop s : tstep s LStop (stopChallengeTimer s)
| T_expire s t :
    t ∈ armed s ->
    tstep s (LExpire t)
      {| challengeTimer := challengeTimer s;
         armed := List.filter (fun i => negb (i =? t)%nat) (armed s);
         running := t :: running s; nextTimer := nextTimer s |}
| T_run s t : t ∈ running s -> tstep s (LRun t (timerFunc t s).1) (timerFunc t s).2.

(** Reachable states with the history that led there, latest step first. *)
Inductive treach : timers -> list tlabel -> Prop :=
| treach_init : treach timers0 []
| treach_step s h l s' : treach s h -> tstep s l s' -> treach s' (l :: h).

(** ** Lemmas *)
Section auth_lemmas.
Context `{AEAD} `{DigestLib}.

(** The conditions under which credentials are accepted at time [now]. *)
Definition validCredentials (s : AESGCM) (req : Request) (realm : string)
    (auth : InboundAuthParams) (now : Z) : Prop :=
  exists h cred,
    req_GetHeader req "Proxy-Authorization" = Some h /\ ParseCredentials h = Some cred /\
    cred_Username cred = Username auth /\
    checkDigestNonce s (cred_Nonce cred) (callIDOf req) now = None /\
    Digest realm (cred_Nonce cred) "INVITE" (cred_URI cred) (Username auth) (Password auth) =
      Some (cred_Response cred).

Lemma validateAuthorization_200 s req auth now :
  res_Code (validateAuthorization s req auth now).1 = 200 <->
  validCredentials s req (Realm auth) auth now.
Proof.
  unfold validateAuthorization, validCredentials. split.
  - intros Hc. destruct (req_GetHeader req _) as [h|]; [|done].
    destruct (ParseCredentials h) as [cred|] eqn:Hp; [|done].
    destruct (String.eqb_spec (cred_Username cred) (Username auth)) as [Hu|]; [|done].
    simpl in Hc. destruct (checkDigestNonce _ _ _ _) as [err|] eqn:Hn.
    + destruct (errors.Is err _); simpl in Hc; [|done].
      destruct (Digest _ _ _ _ _ _); [|done]. by destruct (String.eqb _ _).
    + destruct (Digest _ _ _ _ _ _) as [r|] eqn:Hd; [|done].
      destruct (String.eqb_spec (cred_Response cred) r); [|done].
      exists h, cred. rewrite <- Hu, Hd. by subst.
  - intros (h & cred & -> & -> & Hu & Hn & Hd).
    rewrite Hu, String.eqb_refl, Hn. simpl. rewrite Hd, String.eqb_refl. done.
Qed.

Lemma validateAuthorization_codes s req auth now :
  res_Code (validateAuthorization s req auth now).1 ∈ [200; 401; 407].
Proof.
  unfold validateAuthorization. cbv zeta.
  repeat case_match; simpl; set_solver.
Qed.

(** A stale answer is one that would have been accepted with a fresh nonce. *)
Lemma validateAuthorization_stale s req auth now :
  (validateAuthorization s req auth now).2 = true ->
  res_Code (validateAuthorization s req auth now).1 = 407 /\
  exists h cred err,
    req_GetHeader req "Proxy-Authorization" = Some h /\ ParseCredentials h = Some cred /\
    cred_Username cred = Username auth /\
    checkDigestNonce s (cred_Nonce cred) (callIDOf req) now = Some err /\
    errors.Is err errDigestNonceExpired = true /\
    Digest (Realm auth) (cred_Nonce cred) "INVITE" (cred_URI cred) (Username auth)
      (Password auth) = Some (cred_Response cred).
Proof.
  unfold validateAuthorization. destruct (req_GetHeader req _) as [h|]; [|done].
  destruct (ParseCredentials h) as [cred|] eqn:Hp; [|done].
  destruct (String.eqb_spec (cred_Username cred) (Username auth)) as [Hu|]; [|done].
  simpl. destruct (checkDigestNonce _ _ _ _) as [err|] eqn:Hn.
  - destruct (errors.Is err _) eqn:He; simpl; [|done].
    destruct (Digest _ _ _ _ _ _) as [r|] eqn:Hd; [|done].
    destruct (String.eqb_spec (cred_Response cred) r); simpl; [|done].
    intros _. split; [done|]. exists h, cred, err. rewrite <- Hu, Hd. by subst.
  - destruct (Digest _ _ _ _ _ _) as [r|]; [|done]. by destruct (negb _).
Qed.
End auth_lemmas.

(** The timer that is pending according to the history. *)
Fixpoint current (h : list tlabel) : option nat :=
  match h with
  | [] => None
  | LStart id :: _ => Some id
  | LStop :: _ => None
  | LRun _ true :: _ => None
  | _ :: h' => current h'
  end.

Definition isFire (id : nat) (l : tlabel) : bool :=
  match l with LRun i true => (i =? id)%nat | _ => false end.

Definition isStart (id : nat) (l : tlabel) : bool :=
  match l with LStart i => (i =? id)%nat | _ => false end.

Lemma stopLocked_timer s : challengeTimer (stopLocked s) = None /\ nextTimer (stopLocked s) = nextTimer s.
Proof. unfold stopLocked. destruct (challengeTimer s) eqn:E; by rewrite ?E. Qed.

Lemma treach_current s h : treach s h -> challengeTimer s = current h.
Proof.
  induction 1 as [|s h l s' Hr IH Hs]; [done|]. destruct Hs as [s|s|s t Ht|s t Ht]; simpl.
  - by rewrite (proj2 (stopLocked_timer s)).
  - apply stopLocked_timer.
  - done.
  - unfold timerFunc. by case_decide.
Qed.

(** A timer is started once, and fires or is pending at most once since. *)
Lemma treach_counts s h id :
  treach s h ->
  (countb (isFire id) h + (if decide (challengeTimer s = Some id) then 1 else 0)
     <= countb (isStart id) h)%nat /\
  (countb (isStart id) h <= if decide (id < nextTimer s)%nat then 1 else 0)%nat.
Proof.
  induction 1 as [|s h l s' Hr IH Hs]; [done|]. destruct IH as [IH1 IH2].
  destruct Hs as [s|s|s t Ht|s t Ht]; rewrite !countb_cons; cbn [isFire isStart].
  - unfold startChallengeTimer; cbn [challengeTimer nextTimer].
    rewrite (proj2 (stopLocked_timer s)).
    destruct (Nat.eqb_spec (nextTimer s) id) as [<-|Hne].
    + rewrite (decide_True (P := Some _ = Some _)) by done.
      rewrite decide_False in IH2 by lia. rewrite decide_True by lia. lia.
    + rewrite decide_False by congruence.
      repeat case_decide; lia.
  - unfold stopChallengeTimer. destruct (stopLocked_timer s) as [-> ->].
    rewrite decide_False by done. repeat case_decide; lia.
  - cbn [challengeTimer nextTimer]. lia.
  - unfold timerFunc. destruct (decide (challengeTimer s = Some t)) as [Hd|Hd];
      cbn [fst snd challengeTimer nextTimer].
    + destruct (Nat.eqb_spec t id) as [->|]; repeat case_decide; try congruence; lia.
    + lia.
Qed.

(** ** Properties *)

(** C23: the exact condition for an INVITE to pass authentication: either the
    trunk has no credentials, or the request carries credentials for its user name,
    with a nonce this server accepts for the request's own Call-ID, and the
    response is the digest of the trunk's password.  The only other outcomes are
    401, 407 with a challenge, and 500 when no nonce could be made. *)
Theorem handleInviteAuth_exact `{AEAD} `{DigestLib} s rand req auth now now' :
  let r := handleInviteAuth s rand req auth now now' in
  (res_Code r.1 = 200 <->
     Username auth = "" \/ Password auth = "" \/
     validCredentials s req (if String.eqb (Realm auth) "" then UserAgent else Realm auth) auth now) /\
  (res_Code r.1 = 407 <-> is_Some r.2) /\
  (res_Code r.1 ∈ [200; 401; 407; 500]).
Proof.
  cbv zeta. unfold handleInviteAuth. cbn [Username Password Realm].
  set (auth' := {| Realm := _; Username := _; Password := _ |}).
  destruct (String.eqb_spec (Username auth) "") as [|Hu]; simpl.
  { split; [split; auto|]. split; [split; [done | by intros []] | set_solver]. }
  destruct (String.eqb_spec (Password auth) "") as [|Hp]; simpl.
  { split; [split; auto|]. split; [split; [done | by intros []] | set_solver]. }
  pose proof (validateAuthorization_200 s req auth' now) as H200.
  pose proof (validateAuthorization_codes s req auth' now) as Hcodes.
  destruct (validateAuthorization s req auth' now) as [result stale]; simpl in *.
  assert (Hv : validCredentials s req (Realm auth') auth' now <->
               Username auth = "" \/ Password auth = "" \/ validCredentials s req (Realm auth') auth now)
    by (unfold validCredentials; simpl; tauto).
  destruct (Z.eqb_spec (res_Code result) 407) as [E|E]; simpl.
  - destruct (issueDigestNonce s rand (callIDOf req) now'); simpl.
    + split; [|split; [split; [done | by intros []] | set_solver]].
      split; [done|]. intros Hx. apply Hv, H200 in Hx. congruence.
    + split; [|split; [split; [eauto | done] | set_solver]].
      split; [done|]. intros Hx. apply Hv, H200 in Hx. congruence.
  - split; [by rewrite H200|]. split; [split; [done | by intros []]|]. set_solver.
Qed.

(** C24: a challenge can be answered on any server of the group.  If one server
    answers an INVITE with a challenge, then a retry of the same call that reaches
    a server holding the same key within 30 seconds, and that answers the challenge
    with the trunk's user name and password, is authenticated. *)
Theorem challenge_answered `{AEAD} `{DigestLib} k rest ks1 ks2 rnd req auth t t' chal
    req' cred h now rand' :
  String.length rnd = 12%nat -> minInt64 <= UnixMicro t' <= maxInt64 ->
  (handleInviteAuth {| aeads := k :: rest |} (inr rnd) req auth t t').2 = Some chal ->
  rejectedBy ks1 rnd (aead_seal k rnd (AppendUint64 (u64 (UnixMicro t')))
    (digestNonceAAD (callIDOf req))) (digestNonceAAD (callIDOf req)) ->
  callIDOf req' = callIDOf req ->
  req_GetHeader req' "Proxy-Authorization" = Some h -> ParseCredentials h = Some cred ->
  cred_Username cred = Username auth -> cred_Nonce cred = chal_Nonce chal ->
  Digest (chal_Realm chal) (chal_Nonce chal) "INVITE" (cred_URI cred) (Username auth)
    (Password auth) = Some (cred_Response cred) ->
  - digestNonceTTL <= now - UnixMicro t' * 1000 <= digestNonceTTL ->
  res_Code (handleInviteAuth {| aeads := ks1 ++ k :: ks2 |} rand' req' auth now now).1 = 200.
Proof.
  intros Hr Ht Hchal Hrej Hid Hh Hcred Hu Hnonce Hd Hage.
  unfold handleInviteAuth in Hchal |- *. cbn [Username Password Realm] in *.
  set (auth' := {| Realm := _; Username := _; Password := _ |}) in *.
  destruct (String.eqb (Username auth) "" || String.eqb (Password auth) ""); [done|].
  destruct (validateAuthorization _ req auth' t) as [result stale].
  destruct (negb (res_Code result =? 407)); [done|].
  destruct (issueDigestNonce _ (inr rnd) (callIDOf req) t') as [|nonce] eqn:Hi; [done|].
  simpl in Hchal. injection Hchal as <-. cbn [chal_Nonce chal_Realm] in *.
  assert (Hv : res_Code (validateAuthorization {| aeads := ks1 ++ k :: ks2 |} req' auth' now).1 = 200).
  { apply validateAuthorization_200. exists h, cred. subst auth'. cbn [Realm Username Password] in *.
    rewrite Hnonce, Hid. repeat (split; [done|]). split; [|done].
    rewrite (issue_check ks1 k ks2 (k :: rest) rest rnd (callIDOf req) t' now nonce) by done.
    by apply ageVerdict_fresh. }
  destruct (validateAuthorization _ req' auth' now) as [r st]; simpl in *. by rewrite Hv.
Qed.

(** the challenge timer.  Its function takes effect only if the timer was
    neither stopped nor replaced since it was started, however late it is
    scheduled, and never twice; so a challenged call is finalised at most once, and
    not at all once its authenticated retry has arrived. *)
Theorem challengeTimer_fires_once s h l s' id :
  treach s h -> tstep s l s' -> isFire id l = true ->
  current h = Some id /\ countb (isFire id) (l :: h) = 1%nat.
Proof.
  intros Hr Hs Hf. destruct Hs as [s|s|s t Ht|s t Ht]; try done.
  pose proof (treach_counts s h id Hr) as [Hc Hn].
  assert (challengeTimer s = Some id).
  { unfold isFire, timerFunc in Hf. destruct (decide (challengeTimer s = Some t)); [|done].
    apply Nat.eqb_eq in Hf. by subst. }
  split; [by rewrite <- (treach_current s h Hr)|].
  rewrite countb_cons, Hf. rewrite decide_True in Hc by done. case_decide; lia.
Qed.

(** Concrete instances for the witnesses: credentials are the nonce itself. *)
#[local] Existing Instance toyAEAD.

Definition exDigest : DigestLib :=
  {| ParseCredentials := fun h =>
       Some {| cred_Username := "alice"; cred_URI := "sip:livekit"; cred_Nonce := h;
               cred_Response := "md5" |};
     Digest := fun _ _ _ _ _ _ => Some "md5" |}.

Definition exRequest (auth : option string) : Request :=
  {| Method := "INVITE";
     Recipient := {| su_User := ""; su_Host := "livekit"; su_Port := 0; su_UriParams := ∅ |};
     req_To := None; req_From := None; req_Via := None; req_CallID := Some "call-1";
     req_CSeq := Some 1;
     req_GetHeader := fun n => if String.eqb n "Proxy-Authorization" then auth else None;
     req_Body := ""; req_Source := "10.0.0.1:5060" |}.

Definition exAuth : InboundAuthParams := {| Realm := ""; Username := "alice"; Password := "secret" |}.

Definition exNonce : string :=
  match issueDigestNonce (H := toyAEAD) {| aeads := ["new"] |} (inr "abcdefghijkl") "call-1" second with
  | inr n => n
  | inl _ => ""
  end.

Lemma challenge_answered_witness :
  res_Code (handleInviteAuth (H := toyAEAD) (H0 := exDigest) {| aeads := ["old"; "new"] |}
    (inr "") (exRequest (Some exNonce)) exAuth (20 * second) (20 * second)).1 = 200.
Proof.
  apply (challenge_answered (H := toyAEAD) (H0 := exDigest) "new" [] ["old"] [] "abcdefghijkl"
    (exRequest None) exAuth second second
    {| chal_Realm := UserAgent; chal_Nonce := exNonce; chal_Algorithm := "MD5"; chal_Stale := false |}
    (exRequest (Some exNonce))
    {| cred_Username := "alice"; cred_URI := "sip:livekit"; cred_Nonce := exNonce;
       cred_Response := "md5" |} exNonce);
    try (vm_compute; reflexivity).
  - by vm_compute.
  - constructor; [vm_compute; reflexivity | constructor].
  - by vm_compute.
Defined.

Definition exExpired : timers :=
  {| challengeTimer := Some 0%nat; armed := []; running := [0%nat]; nextTimer := 1 |}.

Lemma exExpired_reach : treach exExpired [LExpire 0; LStart 0].
Proof.
  apply (treach_step (startChallengeTimer timers0)).
  - exact (treach_step _ _ _ _ treach_init (T_start timers0)).
  - apply (T_expire (startChallengeTimer timers0) 0). by left.
Qed.

Lemma challengeTimer_fires_once_witness :
  current [LExpire 0; LStart 0] = Some 0%nat /\
  countb (isFire 0) [LRun 0 true; LExpire 0; LStart 0] = 1%nat.
Proof.
  apply (challengeTimer_fires_once exExpired [LExpire 0; LStart 0] (LRun 0 true)
    (timerFunc 0 exExpired).2).
  - apply exExpired_reach.
  - apply (T_run exExpired 0). by left.
  - reflexivity.
Defined.
