(* ===== verification/SipInbound.v ===== *)
(** * The dialog of an inbound call

    [sipInbound] of [pkg/sip/inbound.go]: what is sent on the INVITE transaction
    and in the dialog it creates.  Each method is a function of the dialog state
    that lists what it does to the outside in order; the outcomes it does not
    control (whether a write succeeds, whether an ACK comes in time) are
    arguments.  The methods run under the dialog's lock, so sequences of them are
    the behaviours of the dialog; an ACK may also come while [Accept] waits.  A
    transfer makes and numbers its REFER under the lock ([newReferReq]) and sends it
    after the lock is released ([referSend]): these are two steps, and the REFERs
    between them are part of the state ([si_refers]). *)

From stdpp Require Import base tactics list sets strings option.
From Stdlib Require Import ZArith Lia.
From S2P Require Import Prelude GoStd GoErr Participant Errors Types Protocol CallState Sealer InboundAuth.

(** ** Constants, durations in nanoseconds *)
Definition millisecond : Z := 1000000.
Definition inviteOkRetryInterval : Z := 250 * millisecond.
Definition inviteOkRetryIntervalMax : Z := 3 * second.
Definition inviteOKRetryAttempts : Z := 5.
Definition inviteOKRetryAttemptsNoACK : Z := 2.

(** ** State *)
Record sipInbound := {
  si_id : string;
  si_tag : string;
  si_sipCallID : string;
  inviteCSeq : Z;
  legTr : Transport;
  si_tr : Transport;
  hasState : bool;                 (* c.state is not nil *)
  hasInvite : bool;                (* c.invite is not nil *)
  inviteTx : bool;                 (* c.inviteTx is not nil *)
  inviteOk : option OutResponse;
  nextRequestCSeq : Z;
  referCseq : Z;
  ringing : bool;                  (* c.ringing is not nil *)
  cancelled : bool;                (* c.cancelled is closed *)
  acked : bool;
  okSending : bool;
  ackReported : bool;
  sipTryingAt : option Z;
  sipOkAt : option Z;
  lastSDP : string;
  lastCallStatus : option SIPStatus;
  si_refers : list Z;              (* REFERs that were made and are not sent yet *)
}.

(** What the dialog does to the outside. *)
Inductive DEffect :=
| DRespond (code : Z) (reason body : string) (sent : bool)  (* inviteTx.Respond *)
| DTerminate                                                (* inviteTx.Terminate *)
| DStopRinging
| DEmit (ev : SignalingEvent)
| DCacheRejected (callID tag : string) (status : Z) (reason : string)
| DReply (method : string) (code : Z)                       (* response to another request *)
| DGo (cseq : Z) (dest : string)                            (* a REFER was made, with its number *)
| DRequest (method : string) (cseq : Z) (dest : string).    (* request sent in the dialog *)

Section dialog.
Open Scope go_scope.
Abbreviation D := (M sipInbound DEffect).

(** Field updates. *)
Definition upd (s : sipInbound) (tx : bool) (ok : option OutResponse) (inv : bool) (next : Z)
    (ring : bool) : sipInbound :=
  {| si_id := si_id s; si_tag := si_tag s; si_sipCallID := si_sipCallID s;
     inviteCSeq := inviteCSeq s; legTr := legTr s; si_tr := si_tr s; hasState := hasState s;
     hasInvite := inv; inviteTx := tx; inviteOk := ok; nextRequestCSeq := next;
     referCseq := referCseq s; ringing := ring; cancelled := cancelled s; acked := acked s;
     okSending := okSending s; ackReported := ackReported s; sipTryingAt := sipTryingAt s;
     sipOkAt := sipOkAt s; lastSDP := lastSDP s; lastCallStatus := lastCallStatus s;
     si_refers := si_refers s |}.

Definition upd_status (s : sipInbound) (okS ackd rep canc : bool) (tryAt okAt : option Z)
    (last : option SIPStatus) (refer : Z) (sdp : string) : sipInbound :=
  {| si_id := si_id s; si_tag := si_tag s; si_sipCallID := si_sipCallID s;
     inviteCSeq := inviteCSeq s; legTr := legTr s; si_tr := si_tr s; hasState := hasState s;
     hasInvite := hasInvite s; inviteTx := inviteTx s; inviteOk := inviteOk s;
     nextRequestCSeq := nextRequestCSeq s; referCseq := refer; ringing := ringing s;
     cancelled := canc; acked := ackd; okSending := okS; ackReported := rep;
     sipTryingAt := tryAt; sipOkAt := okAt; lastSDP := sdp; lastCallStatus := last;
     si_refers := si_refers s |}.

Definition set_refers (l : list Z) (s : sipInbound) : sipInbound :=
  {| si_id := si_id s; si_tag := si_tag s; si_sipCallID := si_sipCallID s;
     inviteCSeq := inviteCSeq s; legTr := legTr s; si_tr := si_tr s; hasState := hasState s;
     hasInvite := hasInvite s; inviteTx := inviteTx s; inviteOk := inviteOk s;
     nextRequestCSeq := nextRequestCSeq s; referCseq := referCseq s; ringing := ringing s;
     cancelled := cancelled s; acked := acked s; okSending := okSending s;
     ackReported := ackReported s; sipTryingAt := sipTryingAt s; sipOkAt := sipOkAt s;
     lastSDP := lastSDP s; lastCallStatus := lastCallStatus s; si_refers := l |}.

Definition set_lastStatus (st : option SIPStatus) (s : sipInbound) : sipInbound :=
  upd_status s (okSending s) (acked s) (ackReported s) (cancelled s) (sipTryingAt s) (sipOkAt s)
    st (referCseq s) (lastSDP s).
Definition set_okSending (b : bool) (s : sipInbound) : sipInbound :=
  upd_status s b (acked s) (ackReported s) (cancelled s) (sipTryingAt s) (sipOkAt s)
    (lastCallStatus s) (referCseq s) (lastSDP s).
Definition set_acked (b rep : bool) (s : sipInbound) : sipInbound :=
  upd_status s (okSending s) b rep (cancelled s) (sipTryingAt s) (sipOkAt s)
    (lastCallStatus s) (referCseq s) (lastSDP s).
Definition set_cancelled (s : sipInbound) : sipInbound :=
  upd_status s (okSending s) (acked s) (ackReported s) true (sipTryingAt s) (sipOkAt s)
    (lastCallStatus s) (referCseq s) (lastSDP s).
Definition set_tryingAt (t : Z) (s : sipInbound) : sipInbound :=
  upd_status s (okSending s) (acked s) (ackReported s) (cancelled s) (Some t) (sipOkAt s)
    (lastCallStatus s) (referCseq s) (lastSDP s).
Definition set_okAt (t : Z) (s : sipInbound) : sipInbound :=
  upd_status s (okSending s) (acked s) (ackReported s) (cancelled s) (sipTryingAt s) (Some t)
    (lastCallStatus s) (referCseq s) (lastSDP s).
Definition set_referCseq (n : Z) (s : sipInbound) : sipInbound :=
  upd_status s (okSending s) (acked s) (ackReported s) (cancelled s) (sipTryingAt s) (sipOkAt s)
    (lastCallStatus s) n (lastSDP s).
Definition set_lastSDP (b : string) (s : sipInbound) : sipInbound :=
  upd_status s (okSending s) (acked s) (ackReported s) (cancelled s) (sipTryingAt s) (sipOkAt s)
    (lastCallStatus s) (referCseq s) b.
Definition set_ringing (b : bool) (s : sipInbound) : sipInbound :=
  upd s (inviteTx s) (inviteOk s) (hasInvite s) (nextRequestCSeq s) b.

(** ** Methods *)
Definition emit (ev : SignalingEvent) : D unit :=
  let* s := mget in
  mwhen (hasState s) (memit (DEmit ev)).

Definition lastStatusCode (s : sipInbound) : Z :=
  match lastCallStatus s with Some st => Code st | None => 0 end.

Definition setLastStatus (code : Z) (reason : string) : D unit :=
  if code <? 200 then mreturn tt
  else
    mmodify (fun s =>
      let success := match lastCallStatus s with
                     | Some last => (200 <=? Code last) && (Code last <? 300)
                     | None => false
                     end in
      if success then s
      else set_lastStatus (Some {| Code := i32 code; Status := reason |}) s).

Definition emitRejected (now status : Z) (reason : string) : D unit :=
  if status <? 300 then mreturn tt
  else
    let* s := mget in
    emit (newEvent EventRejected (Some now) "INVITE" status (inviteCSeq s) "" reason "" 0).

(** [sent]: whether [inviteTx.Respond] returns without an error. *)
Definition respondWithData (now : Z) (sent : bool) (status : Z) (reason body : string) : D bool :=
  let* s := mget in
  if negb (inviteTx s) then mreturn false
  else
    let r := newResponse status (if String.eqb reason "" then sipStatus status else reason) body in
    do* memit (DRespond (or_Code r) (or_Reason r) (or_Body r) sent) in
    if negb sent then mreturn false
    else
      do* setLastStatus status (or_Reason r) in
      do* emitRejected now status (or_Reason r) in
      mreturn true.

Definition respond (now : Z) (sent : bool) (status : Z) (reason : string) : D bool :=
  respondWithData now sent status reason "".

Definition stopRinging : D unit :=
  let* s := mget in
  if ringing s then do* memit DStopRinging in mmodify (set_ringing false) else mreturn tt.

Definition drop : D unit :=
  do* stopRinging in
  let* s := mget in
  do* mwhen (inviteTx s) (memit DTerminate) in
  mmodify (fun s => upd s false None false 0 (ringing s)).

(** [cache]: the manager keeps a cache of rejected INVITEs. *)
Definition RespondAndDrop (cache : bool) (now : Z) (sent : bool) (status : Z) (reason : string) : D unit :=
  do* stopRinging in
  do* respond now sent status reason in
  do* drop in
  let* s := mget in
  mwhen (cache && (300 <=? status) && negb (String.eqb (si_sipCallID s) ""))
    (memit (DCacheRejected (si_sipCallID s) (si_tag s) status reason)).

Definition Processing (now : Z) (sent : bool) : D bool :=
  let* s := mget in
  match sipTryingAt s with
  | Some _ => mreturn false
  | None =>
      let* ok := respond now sent 100 "Processing" in
      if ok then do* mmodify (set_tryingAt now) in mreturn true else mreturn false
  end.

(** [None]: [tx.Cancels()] on a nil transaction panics. *)
Definition StartRinging (now : Z) (sent : bool) : D (option bool) :=
  let* ok := respond now sent 180 "Ringing" in
  do* mmodify (set_ringing true) in
  let* s := mget in
  mreturn (if inviteTx s then Some ok else None).

(** The goroutine of [StartRinging] while its [stop] channel is open: a tick
    repeats the 180, a CANCEL ends it. *)
Definition ringTick (now : Z) (sent : bool) : D unit :=
  let* s := mget in
  mwhen (ringing s && negb (cancelled s)) (do* respond now sent 180 "Ringing" in mreturn tt).

Definition ringCancel (now : Z) : D unit :=
  let* s := mget in
  mwhen (ringing s && negb (cancelled s))
    (do* mmodify set_cancelled in
     do* memit (DReply "CANCEL" 200) in
     emit (newEvent EventCancelReceived (Some now) "CANCEL" 0 (inviteCSeq s) "" "" "" 0)).

Definition AcceptAsKeepAlive (now : Z) (sent : bool) (sdp : string) : D bool :=
  respondWithData now sent 200 "OK" sdp.

Definition RejectAsKeepAlive (now : Z) (sent : bool) (status : Z) (reason : string) : D bool :=
  respond now sent status reason.

Definition RejectReinvite (now : Z) (sent : bool) (err : error) : D bool :=
  match errors.AsSDPError err with
  | None => RejectAsKeepAlive now sent 500 "Internal Server Error"
  | Some _ =>
      RejectAsKeepAlive now sent 488
        (if errors.Is err sdp_ErrNoCommonMedia then "No Acceptable Codec"
         else if errors.Is err sdp_ErrNoCommonCrypto then "No Acceptable Encryption Profile"
         else "Invalid SDP")
  end.

Definition SetOwnSDP (sdpData : string) : D unit := mmodify (set_lastSDP sdpData).

(** *** [AcceptAck] *)
Definition AcceptAck (now : Z) (cseq : option Z) : D unit :=
  let* s := mget in
  match cseq with
  | None => mreturn tt
  | Some n =>
      if negb (n =? inviteCSeq s) then mreturn tt
      else if okSending s && negb (ackReported s) then
        do* mmodify (set_acked true true) in
        emit (newEvent EventAckReceived (Some now) "ACK" 0 n "" "" "" 0)
      else mmodify (set_acked true (ackReported s))
  end.

(** *** [Accept]

    What the select after the [try]-th 200 OK receives. *)
Inductive AckOutcome :=
| GotTxAck             (* <-c.inviteTx.Acks() *)
| GotAck (now : Z)     (* an ACK handled by AcceptAck while waiting: <-c.acked.Watch() *)
| AckTimer.            (* <-t.C *)

(** The environment of one try: whether the write succeeds, the clock, and what
    the select receives. *)
Record TryEnv := { te_sent : bool; te_now : Z; te_out : AckOutcome }.

Inductive AcceptResult :=
| AcceptWriteError       (* Respond failed; the dialog is left as it is *)
| AcceptDone (err : option error)
| AcceptOutOfFuel.

(** The loop [retries]; returns its result and the time spent waiting. *)
Fixpoint acceptLoop (fuel : nat) (env : nat -> TryEnv) (r : OutResponse) (waitForAck : bool)
    (maxRetries : Z) (try : nat) (retryAfter waited : Z) : D (AcceptResult * Z) :=
  match fuel with
  | O => mreturn (AcceptOutOfFuel, waited)
  | S fuel' =>
      let e := env try in
      do* mwhen (Nat.eqb try 1) (mmodify (set_okSending true)) in
      do* memit (DRespond (or_Code r) (or_Reason r) (or_Body r) (te_sent e)) in
      if negb (te_sent e) then
        do* mwhen (Nat.eqb try 1) (mmodify (set_okSending false)) in
        mreturn (AcceptWriteError, waited)
      else
        do* mwhen (Nat.eqb try 1) (mmodify (set_okAt (te_now e))) in
        do* setLastStatus (or_Code r) (or_Reason r) in
        let* s := mget in
        if negb waitForAck && negb (String.eqb (legTr s) TransportUDP) then
          mreturn (AcceptDone None, waited)
        else if acked s then mreturn (AcceptDone None, waited)
        else
          match te_out e with
          | GotTxAck => mreturn (AcceptDone None, waited)
          | GotAck t =>
              do* AcceptAck t (Some (inviteCSeq s)) in mreturn (AcceptDone None, waited)
          | AckTimer =>
              let waited := waited + retryAfter in
              if maxRetries <? Z.of_nat try then
                mreturn (AcceptDone (if waitForAck then Some (ESentinel errNoACK) else None), waited)
              else
                acceptLoop fuel' env r waitForAck maxRetries (S try)
                  (Z.min (retryAfter * 2) inviteOkRetryIntervalMax) waited
          end
  end.

Definition acceptParams (tr : Transport) (waitForAck : bool) : Z * Z :=
  if negb (String.eqb tr TransportUDP) then (1, inviteOkRetryIntervalMax)
  else (if waitForAck then inviteOKRetryAttempts else inviteOKRetryAttemptsNoACK,
        inviteOkRetryInterval).

(** Seven tries are more than any limit allows; see [acceptLoop_terminates]. *)
Definition acceptFuel : nat := 7.

Definition acceptRetries (env : nat -> TryEnv) (r : OutResponse) (waitForAck : bool)
    (tr : Transport) : D (AcceptResult * Z) :=
  let '(maxRetries, retryAfter) := acceptParams tr waitForAck in
  acceptLoop acceptFuel env r waitForAck maxRetries 1 retryAfter 0.

(** [accepted], unless the loop returned early. *)
Definition acceptFinish (r : OutResponse) (res : AcceptResult * Z) : D (AcceptResult * Z) :=
  match res.1 with
  | AcceptDone _ =>
      do* mmodify (fun s => upd s false (Some r) (hasInvite s) (nextRequestCSeq s) (ringing s)) in
      mreturn res
  | _ => mreturn res
  end.

Definition Accept (env : nat -> TryEnv) (sdpData : string) (waitForAck : bool)
    : D (AcceptResult * Z) :=
  let* s := mget in
  if negb (inviteTx s) then mreturn (AcceptDone (Some (EText "call already rejected")), 0)
  else
    do* mmodify (set_lastSDP sdpData) in
    let r := newResponse 200 "" sdpData in
    do* stopRinging in
    let* res := acceptRetries env r waitForAck (legTr s) in
    acceptFinish r res.

(** *** BYE *)
Definition AcceptBye : D unit :=
  do* memit (DReply "BYE" 200) in
  drop.

(** The destinations of a request in the dialog, from what [swapSrcDst] reads:
    where the 200 OK went, the peer's Contact, whether its connection is still
    open, and the Record-Route. *)
Record PeerInfo := {
  okDest : string;
  peerContact : option SipUri;
  connOpen : bool;
  recordRoute : option SipUri;
}.

Definition inviteConnOpen (tr : Transport) (p : PeerInfo) : bool :=
  if String.eqb tr TransportUDP then false else connOpen p.

Definition swapSrcDst (tr : Transport) (p : PeerInfo) : string * string :=
  let '(dest, fallback) :=
    match peerContact p with
    | Some contact =>
        let contactDest := GetDest (ConvertURI contact) in
        if inviteConnOpen tr p then (okDest p, contactDest) else (contactDest, "")
    | None => (okDest p, "")
    end in
  match recordRoute p with
  | Some route => (GetDest (ConvertURI route), "")
  | None => (dest, fallback)
  end.

(** [setCSeq]: the next sequence number of the dialog, a [uint32]. *)
Definition takeCSeq : D Z :=
  let* s := mget in
  do* mput (upd s (inviteTx s) (inviteOk s) (hasInvite s) (u32 (nextRequestCSeq s + 1)) (ringing s)) in
  mreturn (nextRequestCSeq s).

(** The outcomes of a BYE: that of the first attempt with its end time, and
    that of the retry, if it ends within the grace period. *)
Record ByeEnv := {
  be_sentAt : Z;
  be_first : option Response * option error;
  be_firstEnd : Z;
  be_retry : option (option Response * option error * Z);
}.

Definition sendBye_inbound (p : PeerInfo) (e : ByeEnv) : D unit :=
  let* s := mget in
  match inviteOk s with
  | None => mreturn tt
  | Some _ =>
      if negb (hasInvite s) then mreturn tt
      else
        let* cseq := takeCSeq in
        let '(dest, fallback) := swapSrcDst (legTr s) p in
        do* drop in
        do* memit (DRequest "BYE" cseq dest) in
        let res := (be_first e).1 in
        let err := (be_first e).2 in
        let mk cseq res err endAt :=
          newEvent EventByeSent (Some (be_sentAt e)) "BYE"
            (match res with Some r => StatusCode r | None => 0 end) cseq ""
            "" (byeOutcome res err) (endAt - be_sentAt e) in
        if negb (byeSucceeded res err) && negb (String.eqb fallback "") then
          let cseq' := u32 (cseq + 1) in
          do* memit (DRequest "BYE" cseq' fallback) in
          match be_retry e with
          | Some (res', err', endAt) => emit (mk cseq' res' err' endAt)
          | None => emit (mk cseq res err (be_firstEnd e))
          end
        else emit (mk cseq res err (be_firstEnd e))
  end.

Definition sendStatus (now : Z) (sent : bool) (result : SResult) : D unit :=
  let* s := mget in
  match inviteOk s with
  | Some _ => mreturn tt
  | None =>
      if negb (inviteTx s) then mreturn tt
      else
        let r := Result_NewResponse result in
        do* memit (DRespond (or_Code r) (or_Reason r) (or_Body r) sent) in
        do* mwhen sent (do* setLastStatus (or_Code r) (or_Reason r) in
                        emitRejected now (or_Code r) (or_Reason r)) in
        drop
  end.

Definition CloseWithStatus (now : Z) (sent : bool) (p : PeerInfo) (e : ByeEnv) (result : SResult)
    : D unit :=
  let* s := mget in
  match inviteOk s with
  | Some _ => sendBye_inbound p e
  | None => if inviteTx s then sendStatus now sent result else drop
  end.

Definition Close (now : Z) (sent : bool) (p : PeerInfo) (e : ByeEnv) : D unit :=
  CloseWithStatus now sent p e {| res_Code := 486; res_Status := "Rejected" |}.

(** *** REFER *)
Definition newReferReq (hasFrom : bool) (p : PeerInfo) : D (error + (Z * string)) :=
  let* s := mget in
  if negb (hasInvite s) || match inviteOk s with None => true | _ => false end then
    mreturn (inl (NewErrorf FailedPrecondition "can't transfer non established call"))
  else if negb hasFrom then
    mreturn (inl (NewErrorf InvalidArgument "no From URI in invite"))
  else
    let* cseq := takeCSeq in
    do* mmodify (set_referCseq cseq) in
    do* mmodify (fun s => set_refers (si_refers s ++ [cseq]) s) in
    let dest := (swapSrcDst (legTr s) p).1 in
    do* memit (DGo cseq dest) in
    mreturn (inr (cseq, dest)).

(** What [TransferCall] does with the request, without the lock: it is sent unless its
    transaction cannot be made, and the result is waited for; [refer] is the script of the
    REFER transaction, [wait] what [waitReferResult] returns.  [None]: it is still waited for
    (also: there is no such request). *)
Definition referSend (cseq : Z) (dest : string) (refer : error + list TxEvent) (wait : option error)
    : D (option (option error)) :=
  let* s := mget in
  match removeOne cseq (si_refers s) with
  | None => mreturn None
  | Some rest =>
      do* mmodify (set_refers rest) in
      do* match refer with inl _ => mreturn tt | inr _ => memit (DRequest "REFER" cseq dest) end in
      match (sendRefer refer).2 with
      | None => mreturn None
      | Some (_, Some err) => mreturn (Some (Some err))
      | Some (_, None) => mreturn (Some wait)
      end
  end.

Definition TransferCall (hasFrom : bool) (p : PeerInfo) (refer : error + list TxEvent)
    (wait : option error) : D (option (option error)) :=
  let* req := newReferReq hasFrom p in
  match req with
  | inl err => mreturn (Some (Some err))
  | inr (cseq, dest) => referSend cseq dest refer wait
  end.

(** [sipInbound.handleNotify]: the result offered to the waiting transfer. *)
Definition handleNotify_inbound (sipErrorCode : SIPStatus -> ErrorCode) (req : Request)
    : D (error + option (option error)) :=
  match handleNotify req with
  | inl err => mreturn (inl err)
  | inr info =>
      let* s := mget in
      mreturn (inr (if String.eqb (ni_Method info) "REFER"
                    then handleReferNotify sipErrorCode info (referCseq s) else None))
  end.
End dialog.

(** ** Creation

    [newInbound]: the checks on the INVITE and the choice of the local tag.
    [cached] is the tag found in the cache of challenged INVITEs, [freshID] a new
    identifier. *)
Definition newInbound (cached : string -> string -> option string) (freshID : string)
    (invite : Request) : string + sipInbound :=
  let sipCallID := default "" (req_CallID invite) in
  if String.eqb sipCallID "" then inl "no Call-ID header in INVITE"
  else match req_From invite with
       | None => inl "no From header in INVITE"
       | Some from =>
           let fromTag := param (hdr_Params from) "tag" in
           if String.eqb fromTag "" then inl "no tag in From in INVITE"
           else match req_To invite with
                | None => inl "no To header in INVITE"
                | Some to =>
                    let toTag := param (hdr_Params to) "tag" in
                    let toTag :=
                      if String.eqb toTag "" then
                        let c := default "" (cached sipCallID fromTag) in
                        if String.eqb c "" then freshID else c
                      else toTag in
                    inr {| si_id := toTag; si_tag := fromTag; si_sipCallID := sipCallID;
                           inviteCSeq := default 0 (req_CSeq invite);
                           legTr := legTransportFromReq invite;
                           si_tr := callTransportFromReq invite; hasState := false;
                           hasInvite := true; inviteTx := true; inviteOk := None;
                           nextRequestCSeq := match req_CSeq invite with
                                              | Some n => u32 (n + 1) | None => 0 end;
                           referCseq := 0; ringing := false; cancelled := false; acked := false;
                           okSending := false; ackReported := false; sipTryingAt := None;
                           sipOkAt := None; lastSDP := ""; lastCallStatus := None; si_refers := [] |}
                end
       end.

(** ** Retransmission of the 200 OK *)

(** The longest wait of [n] tries whose first timer is [ra]. *)
Fixpoint budget (n : nat) (ra : Z) : Z :=
  match n with
  | O => 0
  | S n' => ra + budget n' (Z.min (ra * 2) inviteOkRetryIntervalMax)
  end.

Definition isOK (e : DEffect) : bool :=
  match e with DRespond c _ _ true => (200 <=? c) && (c <? 300) | _ => false end.

Definition isOKFail (e : DEffect) : bool :=
  match e with DRespond c _ _ false => (200 <=? c) && (c <? 300) | _ => false end.

Definition isReject (e : DEffect) : bool :=
  match e with DRespond c _ _ _ => 300 <=? c | _ => false end.

Definition isBye (e : DEffect) : bool :=
  match e with DRequest m _ _ => String.eqb m "BYE" | _ => false end.

Definition isResp (e : DEffect) : bool :=
  match e with DRespond _ _ _ _ => true | _ => false end.

(** The part of the state that decides what may be sent. *)
Definition dialogState (s : sipInbound) : bool * bool * option OutResponse * Z :=
  (inviteTx s, hasInvite s, inviteOk s, nextRequestCSeq s).

Definition ok200 (sdp : string) : OutResponse := newResponse 200 "" sdp.

(** What a try adds to the trace and keeps of the state. *)
Record quiet (s : sipInbound) (t : list DEffect) (s' : sipInbound) : Prop := {
  q_state : dialogState s' = dialogState s;
  q_ring : ringing s' = ringing s;
  q_leg : legTr s' = legTr s;
  q_reject : countb isReject t = 0%nat;
  q_bye : countb isBye t = 0%nat;
}.

Lemma quiet_refl s : quiet s [] s.
Proof. by split. Qed.

Lemma quiet_trans s1 t1 s2 t2 s3 : quiet s1 t1 s2 -> quiet s2 t2 s3 -> quiet s1 (t1 ++ t2) s3.
Proof.
  intros [] []. split; try congruence; rewrite countb_app; lia.
Qed.

Lemma setLastStatus_quiet code reason s :
  trace_of (setLastStatus code reason s) = [] /\
  quiet s [] (state_of (setLastStatus code reason s)).
Proof.
  unfold setLastStatus, mmodify, state_of, trace_of, mreturn.
  destruct (code <? 200); simpl; [done|]. split; [done|]. by destruct (lastCallStatus s) as [l|];
    [destruct ((200 <=? Code l) && (Code l <? 300))|].
Qed.

Lemma AcceptAck_quiet now cseq s :
  quiet s (trace_of (AcceptAck now cseq s)) (state_of (AcceptAck now cseq s)) /\
  countb isResp (trace_of (AcceptAck now cseq s)) = 0%nat /\
  countb isOK (trace_of (AcceptAck now cseq s)) = 0%nat.
Proof.
  unfold AcceptAck, emit, mbind', mget, mwhen, mmodify, state_of, trace_of.
  destruct cseq as [n|]; simpl; [|done]. destruct (negb (n =? inviteCSeq s)); simpl; [done|].
  destruct (okSending s && negb (ackReported s)); simpl; [|done].
  by destruct (hasState s).
Qed.

(** One unfolding of the loop, with the effects of its send part listed. *)
Lemma acceptLoop_unfold fuel env r w mx try ra waited s :
  exists s1, quiet s [] s1 /\ lastCallStatus s1 = lastCallStatus s /\
  exists s2, quiet s [] s2 /\ acked s2 = acked s /\
  acceptLoop (S fuel) env r w mx try ra waited s =
  let e := env try in
  let d := DRespond (or_Code r) (or_Reason r) (or_Body r) (te_sent e) in
  if negb (te_sent e) then ((AcceptWriteError, waited), s1, [d])
  else if (negb w && negb (String.eqb (legTr s) TransportUDP)) || acked s2
       then ((AcceptDone None, waited), s2, [d])
  else match te_out e with
       | GotTxAck => ((AcceptDone None, waited), s2, [d])
       | GotAck t =>
           ((AcceptDone None, waited), state_of (AcceptAck t (Some (inviteCSeq s2)) s2),
            d :: trace_of (AcceptAck t (Some (inviteCSeq s2)) s2))
       | AckTimer =>
           if mx <? Z.of_nat try then
             ((AcceptDone (if w then Some (ESentinel errNoACK) else None), waited + ra), s2, [d])
           else
             let rec := acceptLoop fuel env r w mx (S try)
                          (Z.min (ra * 2) inviteOkRetryIntervalMax) (waited + ra) s2 in
             (result_of rec, state_of rec, d :: trace_of rec)
       end.
Proof.
  set (s1 := if Nat.eqb try 1 then set_okSending false (set_okSending true s) else s).
  exists s1. split; [by subst s1; case_match|]. split; [by subst s1; case_match|].
  set (s0 := if Nat.eqb try 1 then set_okAt (te_now (env try)) (set_okSending true s) else s).
  set (s2 := state_of (setLastStatus (or_Code r) (or_Reason r) s0)).
  assert (Hq0 : quiet s [] s0) by (by subst s0; case_match).
  assert (Hq2 : quiet s [] s2) by exact (quiet_trans s [] s0 [] s2 Hq0
    (proj2 (setLastStatus_quiet (or_Code r) (or_Reason r) s0))).
  exists s2. split; [done|]. split.
  { assert (Ha : acked s0 = acked s) by (by subst s0; case_match). rewrite <- Ha. subst s2.
    unfold setLastStatus, mmodify, state_of, mreturn. by repeat case_match. }
  simpl. unfold mbind', mwhen, mmodify, memit, mget, mreturn.
  destruct (te_sent (env try)) eqn:Esent; simpl; [|by subst s1; destruct (Nat.eqb try 1)].
  assert (Hsl : setLastStatus (or_Code r) (or_Reason r) s0 = (tt, s2, [])).
  { subst s2. unfold setLastStatus. by repeat case_match. }
  assert (Hleg : legTr s2 = legTr s) by apply Hq2.
  subst s0. destruct (Nat.eqb try 1); simpl in *; rewrite Hsl; simpl; rewrite Hleg;
    (destruct (negb w && negb (String.eqb (legTr s) TransportUDP)); simpl; [done|]);
    (destruct (acked s2); simpl; [done|]); destruct (te_out (env try)) as [|t|]; simpl; try done.
  all: try (destruct (AcceptAck t (Some (inviteCSeq s2)) s2) as [[[] s3] t3]; simpl;
            unfold state_of, trace_of; simpl; by rewrite app_nil_r).
  all: destruct (mx <? Z.of_nat try); simpl; [done|];
       destruct (acceptLoop fuel env r w mx (S try) _ _ s2) as [[res s3] t3]; done.
Qed.

Lemma budget_nonneg n ra : 0 <= ra -> 0 <= budget n ra.
Proof.
  revert ra. induction n as [|n IH]; intros ra Hra; simpl; [lia|].
  specialize (IH (Z.min (ra * 2) inviteOkRetryIntervalMax)).
  unfold inviteOkRetryIntervalMax, second in *. lia.
Qed.

(** The facts about a run of the loop that [Accept] needs. *)
Record acceptFacts (s : sipInbound) (bound waited : Z) (sends : nat)
    (r : AcceptResult * Z * sipInbound * list DEffect) : Prop := {
  af_fuel : (result_of r).1 <> AcceptOutOfFuel;
  af_wait : waited <= (result_of r).2 <= waited + bound;
  af_quiet : quiet s (trace_of r) (state_of r);
  af_sends : (countb isResp (trace_of r) <= sends)%nat;
  af_done : forall e, (result_of r).1 = AcceptDone e ->
              (1 <= countb isOK (trace_of r))%nat /\ countb isOKFail (trace_of r) = 0%nat;
  af_fail : (result_of r).1 = AcceptWriteError -> countb isOKFail (trace_of r) = 1%nat;
}.

Lemma acceptLoop_facts fuel env r w mx try ra waited s :
  200 <= or_Code r < 300 -> 0 <= ra ->
  1 <= Z.of_nat try <= mx + 1 -> mx + 2 <= Z.of_nat try + Z.of_nat fuel ->
  acceptFacts s (budget (Z.to_nat (mx + 2 - Z.of_nat try)) ra) waited
    (Z.to_nat (mx + 2 - Z.of_nat try)) (acceptLoop fuel env r w mx try ra waited s).
Proof.
  intros Hr. revert try ra waited s. induction fuel as [|fuel IH]; intros try ra waited s Hra Ht Hf; [lia|].
  destruct (acceptLoop_unfold fuel env r w mx try ra waited s)
    as (s1 & Hq1 & _ & s2 & Hq2 & _ & ->). cbv zeta.
  set (d := DRespond _ _ _ _).
  assert (Hn : Z.to_nat (mx + 2 - Z.of_nat try) = S (Z.to_nat (mx + 2 - Z.of_nat (S try)))) by lia.
  rewrite Hn. cbn [budget].
  pose proof (budget_nonneg (Z.to_nat (mx + 2 - Z.of_nat (S try)))
    (Z.min (ra * 2) inviteOkRetryIntervalMax)) as Hb.
  assert (Hra' : 0 <= Z.min (ra * 2) inviteOkRetryIntervalMax)
    by (unfold inviteOkRetryIntervalMax, second; lia).
  specialize (Hb Hra').
  assert (Hd : countb isReject [d] = 0%nat /\ countb isBye [d] = 0%nat /\ countb isResp [d] = 1%nat).
  { subst d. unfold countb; simpl. by rewrite (proj2 (Z.leb_gt 300 _)) by lia. }
  assert (Hok : te_sent (env try) = true -> countb isOK [d] = 1%nat /\ countb isOKFail [d] = 0%nat).
  { subst d. intros ->. unfold countb; simpl.
    by rewrite (proj2 (Z.leb_le 200 _)), (proj2 (Z.ltb_lt _ 300)) by lia. }
  assert (Hqd : forall s', quiet s [] s' -> quiet s [d] s').
  { intros s' Hq. destruct Hq, Hd as (? & ? & ?). by split. }
  destruct (te_sent (env try)) eqn:Es; cbn [negb].
  2: { split; unfold result_of, state_of, trace_of; simpl; try done; try lia; [by apply Hqd|].
       intros _. subst d. unfold countb; simpl.
         by rewrite (proj2 (Z.leb_le 200 _)), (proj2 (Z.ltb_lt _ 300)) by lia. }
  destruct (Hok eq_refl) as [Hok1 Hok2]. destruct Hd as (Hd1 & Hd2 & Hd3).
  assert (Hdone : forall res wt, waited <= wt <= waited + (ra + budget
            (Z.to_nat (mx + 2 - Z.of_nat (S try))) (Z.min (ra * 2) inviteOkRetryIntervalMax)) ->
          acceptFacts s (ra + budget (Z.to_nat (mx + 2 - Z.of_nat (S try)))
            (Z.min (ra * 2) inviteOkRetryIntervalMax)) waited
            (S (Z.to_nat (mx + 2 - Z.of_nat (S try)))) (AcceptDone res, wt, s2, [d])).
  { intros res wt Hwt. split; unfold result_of, state_of, trace_of; simpl; try done.
    - by apply Hqd.
    - lia.
    - intros e _. lia. }
  destruct ((negb w && _) || acked s2); [apply Hdone; lia|].
  destruct (te_out (env try)) as [|t|]; [apply Hdone; lia| |].
  - destruct (AcceptAck_quiet t (Some (inviteCSeq s2)) s2) as (Hqa & Hra2 & Hoka).
    split; try (unfold result_of; simpl; done || lia).
    + exact (quiet_trans _ _ _ _ _ (Hqd _ Hq2) Hqa).
    + unfold trace_of at 1; simpl. rewrite countb_head. lia.
    + intros e _. unfold trace_of at 1 3; simpl. rewrite (countb_head isOK), (countb_head isOKFail).
      split; [lia|]. rewrite Hok2. simpl.
      assert (countb isOKFail (trace_of (AcceptAck t (Some (inviteCSeq s2)) s2)) <=
              countb isResp (trace_of (AcceptAck t (Some (inviteCSeq s2)) s2)))%nat; [|lia].
      generalize (trace_of (AcceptAck t (Some (inviteCSeq s2)) s2)). intros l.
      induction l as [|x l IHl]; [done|]. rewrite !countb_cons.
      destruct x as [c ? ? []| | | | | | |]; simpl; try lia. destruct (_ && _); lia.
  - destruct (mx <? Z.of_nat try) eqn:Em; [apply Hdone; lia|].
    apply Z.ltb_ge in Em.
    destruct (IH (S try) _ (waited + ra) s2 Hra' ltac:(lia) ltac:(lia)) as [F1 F2 F3 F4 F5 F6].
    destruct (acceptLoop fuel env r w mx (S try) _ _ s2) as [[res s3] t3].
    unfold result_of, state_of, trace_of in *. cbn [fst snd] in *.
    split; unfold result_of, state_of, trace_of; cbn [fst snd]; try done; try lia.
    + exact (quiet_trans _ _ _ _ _ (Hqd _ Hq2) F3).
    + rewrite countb_head. lia.
    + intros e He. rewrite (countb_head isOK), (countb_head isOKFail).
      destruct (F5 e He). lia.
Qed.

(** ** Sequences of methods *)
Inductive DOp :=
| OProcessing (now : Z) (sent : bool)
| ORing (now : Z) (sent : bool)
| OTick (now : Z) (sent : bool)
| OCancel (now : Z)
| OAck (now : Z) (cseq : option Z)
| OAccept (env : nat -> TryEnv) (sdp : string) (waitForAck : bool)
| OBye
| ORespondAndDrop (cache : bool) (now : Z) (sent : bool) (status : Z) (reason : string)
| OClose (now : Z) (sent : bool) (p : PeerInfo) (e : ByeEnv) (result : SResult)
| OReferReq (hasFrom : bool) (p : PeerInfo)
| OReferSend (cseq : Z) (dest : string) (refer : error + list TxEvent) (wait : option error).

Definition runDOp (o : DOp) : M sipInbound DEffect unit :=
  (match o with
   | OProcessing now sent => do* Processing now sent in mreturn tt
   | ORing now sent => do* StartRinging now sent in mreturn tt
   | OTick now sent => ringTick now sent
   | OCancel now => ringCancel now
   | OAck now cseq => AcceptAck now cseq
   | OAccept env sdp w => do* Accept env sdp w in mreturn tt
   | OBye => AcceptBye
   | ORespondAndDrop cache now sent status reason => RespondAndDrop cache now sent status reason
   | OClose now sent p e result => CloseWithStatus now sent p e result
   | OReferReq f p => do* newReferReq f p in mreturn tt
   | OReferSend cseq dest refer wait => do* referSend cseq dest refer wait in mreturn tt
   end)%go.

Fixpoint runDOps (l : list DOp) : M sipInbound DEffect unit :=
  (match l with
   | [] => mreturn tt
   | o :: l' => do* runDOp o in runDOps l'
   end)%go.

(** Rejections are made with error statuses, as every caller does. *)
Definition opOK (o : DOp) : Prop :=
  match o with
  | ORespondAndDrop _ _ _ status _ => 300 <= status
  | OClose _ _ _ _ result => res_Code result = 0 \/ 300 <= res_Code result
  | _ => True
  end.

(** The counts of what was sent. *)
Definition oks (t : list DEffect) : nat := countb isOK t.
Definition fails (t : list DEffect) : nat := countb isOKFail t.
Definition rejects (t : list DEffect) : nat := countb isReject t.
Definition byes (t : list DEffect) : nat := countb isBye t.

Definition counts (t : list DEffect) : nat * nat * nat * nat := (oks t, fails t, rejects t, byes t).

Lemma counts_app t1 t2 :
  counts (t1 ++ t2) =
  (oks t1 + oks t2, fails t1 + fails t2, rejects t1 + rejects t2, byes t1 + byes t2)%nat.
Proof. unfold counts, oks, fails, rejects, byes. by rewrite !countb_app. Qed.

(** What was sent, by the state of the dialog: on an open transaction nothing
    final (but a 200 OK whose retransmission failed), in an established dialog a
    200 OK and nothing else, and after the end at most one of a rejection and a
    BYE. *)
Definition dinv (s : sipInbound) (c : nat * nat * nat * nat) : Prop :=
  let '(ok, fl, rj, by_) := c in
  match inviteTx s, inviteOk s with
  | true, None => hasInvite s = true /\ rj = 0%nat /\ by_ = 0%nat /\ (ok = 0 \/ 1 <= fl)%nat
  | true, Some _ => False
  | false, Some _ => hasInvite s = true /\ (1 <= ok)%nat /\ rj = 0%nat /\ by_ = 0%nat
  | false, None =>
      hasInvite s = false /\ (rj <= 1)%nat /\ (by_ <= 2)%nat /\
      (rj = 1 -> by_ = 0 /\ (ok = 0 \/ 1 <= fl))%nat /\ (1 <= by_ -> 1 <= ok)%nat
  end.

(** An operation is described by the dialog state it leads to and its counts. *)
Definition leadsTo (s : sipInbound) (r : sipInbound * list DEffect)
    (tx inv : bool) (ok : option OutResponse) (c : nat * nat * nat * nat) : Prop :=
  inviteTx r.1 = tx /\ hasInvite r.1 = inv /\ inviteOk r.1 = ok /\ counts r.2 = c.

Definition same (s : sipInbound) (r : sipInbound * list DEffect) : Prop :=
  leadsTo s r (inviteTx s) (hasInvite s) (inviteOk s) (0, 0, 0, 0)%nat.

Definition run {A} (m : M sipInbound DEffect A) (s : sipInbound) : sipInbound * list DEffect :=
  (state_of (m s), trace_of (m s)).

Lemma run_bind {A B} (m : M sipInbound DEffect A) (f : A -> M sipInbound DEffect B) s :
  run (mbind' m f) s =
  (state_of (f (result_of (m s)) (state_of (m s))),
   trace_of (m s) ++ trace_of (f (result_of (m s)) (state_of (m s)))).
Proof. unfold run. by rewrite bind_state, bind_trace. Qed.

Lemma stopRinging_same s : same s (run stopRinging s).
Proof.
  unfold stopRinging, run, state_of, trace_of, mbind', mget, memit, mmodify; simpl.
  by destruct (ringing s).
Qed.

Lemma drop_spec s : leadsTo s (run drop s) false false None (0, 0, 0, 0)%nat.
Proof.
  unfold drop, stopRinging, run, state_of, trace_of, mbind', mget, memit, mmodify, mwhen; simpl.
  by destruct (ringing s); simpl; destruct (inviteTx s).
Qed.

Lemma emit_same ev s : same s (run (emit ev) s).
Proof. unfold emit, run, state_of, trace_of, mbind', mget, mwhen; simpl. by destruct (hasState s). Qed.

Lemma setLastStatus_same code reason s : same s (run (setLastStatus code reason) s).
Proof.
  destruct (setLastStatus_quiet code reason s) as [Ht [Hq _ _ _ _]].
  unfold run, same, leadsTo. rewrite Ht. unfold dialogState in Hq. simpl.
  by injection Hq as -> -> ->.
Qed.

Lemma emitRejected_same now status reason s : same s (run (emitRejected now status reason) s).
Proof.
  unfold emitRejected. destruct (status <? 300); [done|].
  unfold emit, run, state_of, trace_of, mbind', mget, mwhen; simpl. by destruct (hasState s).
Qed.

(** Composition of descriptions. *)
Lemma same_bind {A B} (m : M sipInbound DEffect A) (f : A -> M sipInbound DEffect B) s tx inv ok c :
  same s (run m s) ->
  leadsTo (state_of (m s)) (run (f (result_of (m s))) (state_of (m s))) tx inv ok c ->
  leadsTo s (run (mbind' m f) s) tx inv ok c.
Proof.
  intros (H1 & H2 & H3 & H4) (G1 & G2 & G3 & G4). rewrite run_bind. unfold leadsTo in *; simpl in *.
  repeat (split; [done|]). rewrite counts_app. unfold counts in *.
  injection H4 as -> -> -> ->. exact G4.
Qed.

Lemma leadsTo_bind_same {A B} (m : M sipInbound DEffect A) (f : A -> M sipInbound DEffect B)
    s tx inv ok c :
  leadsTo s (run m s) tx inv ok c ->
  same (state_of (m s)) (run (f (result_of (m s))) (state_of (m s))) ->
  leadsTo s (run (mbind' m f) s) tx inv ok c.
Proof.
  intros (H1 & H2 & H3 & H4) (G1 & G2 & G3 & G4). rewrite run_bind. unfold leadsTo in *; simpl in *.
  rewrite G1, G2, G3. repeat (split; [done|]). rewrite counts_app. unfold counts in *.
  destruct c as [[[a b] c] d]. injection H4 as -> -> -> ->. injection G4 as -> -> -> ->.
  by rewrite !Nat.add_0_r.
Qed.

Lemma same_trans {A B} (m : M sipInbound DEffect A) (f : A -> M sipInbound DEffect B) s :
  same s (run m s) -> same (state_of (m s)) (run (f (result_of (m s))) (state_of (m s))) ->
  same s (run (mbind' m f) s).
Proof. intros Hm Hf. by apply leadsTo_bind_same. Qed.

Lemma same_ret {A} (a : A) s : same s (run (mreturn a) s).
Proof. done. Qed.

#[local] Hint Resolve same_ret stopRinging_same emit_same setLastStatus_same emitRejected_same
  drop_spec : go.

(** The counts of one response. *)
Definition statusCounts (n : nat) (sent : bool) (status : Z) : nat * nat * nat * nat :=
  if (200 <=? status) && (status <? 300) then if sent then (n, O, O, O) else (O, n, O, O)
  else if 300 <=? status then (O, O, n, O) else (O, O, O, O).

Lemma statusCounts_respond sent status reason body :
  counts [DRespond status reason body sent] = statusCounts 1 sent status.
Proof.
  unfold counts, oks, fails, rejects, byes, countb, statusCounts; simpl.
  destruct (Z.leb_spec 200 status), (Z.ltb_spec status 300), (Z.leb_spec 300 status), sent;
    simpl; try lia; done.
Qed.

Lemma statusCounts_0 sent status : statusCounts 0 sent status = (0, 0, 0, 0)%nat.
Proof. unfold statusCounts. by repeat case_match. Qed.

(** A response on the INVITE transaction: no state of the dialog changes, and the
    counts are those of its status. *)
Lemma respond_spec now sent status reason s :
  leadsTo s (run (respond now sent status reason) s) (inviteTx s) (hasInvite s) (inviteOk s)
    (statusCounts (if inviteTx s then 1 else 0) sent status).
Proof.
  unfold respond, respondWithData.
  eapply same_bind; [done|]. unfold result_of, state_of; cbn [mget fst snd].
  destruct (inviteTx s) eqn:Etx; cbn [negb].
  2: { rewrite statusCounts_0. unfold leadsTo, run; simpl. by rewrite ?Etx. }
  rewrite <- statusCounts_respond with (reason := or_Reason (newResponse status
    (if String.eqb reason "" then sipStatus status else reason) "")) (body := "").
  eapply leadsTo_bind_same.
  - unfold leadsTo, run; simpl. by rewrite ?Etx.
  - unfold result_of, state_of; cbn [memit fst snd]. destruct sent; cbn [negb]; [|done].
    repeat (apply same_trans; eauto with go).
Qed.

Lemma respond_provisional now sent status reason s :
  status < 200 -> same s (run (respond now sent status reason) s).
Proof.
  intros Hs. pose proof (respond_spec now sent status reason s) as H. unfold same.
  unfold statusCounts in H.
  by rewrite (proj2 (Z.leb_gt 200 status)), (proj2 (Z.leb_gt 300 status)) in H by lia.
Qed.

Lemma modify_same (f : sipInbound -> sipInbound) s :
  (forall s, inviteTx (f s) = inviteTx s) -> (forall s, hasInvite (f s) = hasInvite s) ->
  (forall s, inviteOk (f s) = inviteOk s) -> same s (run (mmodify f) s).
Proof.
  intros H1 H2 H3. unfold same, leadsTo, run, state_of, mmodify; simpl. by rewrite H1, H2, H3.
Qed.

#[local] Hint Resolve modify_same : go.

Lemma Processing_same now sent s : same s (run (Processing now sent) s).
Proof.
  unfold Processing. apply same_trans; [done|]. unfold result_of, state_of; cbn [mget fst snd].
  destruct (sipTryingAt s); [done|]. apply same_trans; [by apply respond_provisional|].
  destruct (result_of _); [|done]. apply same_trans; [by apply modify_same | done].
Qed.

Lemma StartRinging_same now sent s : same s (run (StartRinging now sent) s).
Proof.
  unfold StartRinging. apply same_trans; [by apply respond_provisional|].
  apply same_trans; [by apply modify_same|]. done.
Qed.

Lemma ringTick_same now sent s : same s (run (ringTick now sent) s).
Proof.
  unfold ringTick. apply same_trans; [done|]. unfold result_of, state_of; cbn [mget fst snd].
  destruct (ringing s && negb (cancelled s)); [|done]. cbn [mwhen].
  apply same_trans; [by apply respond_provisional | done].
Qed.

Lemma ringCancel_same now s : same s (run (ringCancel now) s).
Proof.
  unfold ringCancel. apply same_trans; [done|]. unfold result_of, state_of; cbn [mget fst snd].
  destruct (ringing s && negb (cancelled s)); [|done]. cbn [mwhen].
  apply same_trans; [by apply modify_same|]. apply same_trans; [done | apply emit_same].
Qed.

Lemma AcceptAck_same now cseq s : same s (run (AcceptAck now cseq) s).
Proof.
  unfold AcceptAck. apply same_trans; [done|]. unfold result_of, state_of; cbn [mget fst snd].
  destruct cseq as [n|]; [|done]. destruct (negb (n =? inviteCSeq s)); [done|].
  destruct (okSending s && negb (ackReported s)); [|by apply modify_same].
  apply same_trans; [by apply modify_same | apply emit_same].
Qed.

Lemma takeCSeq_same s : same s (run takeCSeq s).
Proof. done. Qed.

Lemma newReferReq_same f p s : same s (run (newReferReq f p) s).
Proof.
  unfold newReferReq. apply same_trans; [done|]. unfold result_of, state_of; cbn [mget fst snd].
  destruct (_ || _); [done|]. destruct (negb f); [done|].
  apply same_trans; [apply takeCSeq_same|]. do 2 (apply same_trans; [by apply modify_same|]). by apply same_trans.
Qed.

Lemma referSend_same cseq dest refer wait s : same s (run (referSend cseq dest refer wait) s).
Proof.
  unfold referSend. apply same_trans; [done|]. unfold result_of, state_of; cbn [mget fst snd].
  destruct (removeOne _ _); [|done]. apply same_trans; [by apply modify_same|].
  apply same_trans; [by destruct refer|]. by destruct (sendRefer refer).2 as [[? [?|]]|].
Qed.

Lemma RespondAndDrop_spec cache now sent status reason s :
  300 <= status ->
  leadsTo s (run (RespondAndDrop cache now sent status reason) s) false false None
    (0, 0, (if inviteTx s then 1 else 0), 0)%nat.
Proof.
  intros Hs. unfold RespondAndDrop. apply same_bind; [apply stopRinging_same|].
  destruct (stopRinging_same s) as (Htx & _).
  assert (Htx' : inviteTx (state_of (stopRinging s)) = inviteTx s) by exact Htx.
  set (s1 := state_of (stopRinging s)) in *. clearbody s1. clear Htx. rewrite <- Htx'.
  pose proof (respond_spec now sent status reason s1) as (H1 & H2 & H3 & H4).
  unfold statusCounts in H4.
  rewrite (proj2 (Z.leb_le 200 status)), (proj2 (Z.ltb_ge status 300)),
    (proj2 (Z.leb_le 300 status)) in H4 by lia. cbn [andb] in H4.
  rewrite run_bind. set (s2 := state_of (respond now sent status reason s1)).
  pose proof (leadsTo_bind_same drop (fun _ => (let* s := mget in
    mwhen (cache && (300 <=? status) && negb (String.eqb (si_sipCallID s) ""))
      (memit (DCacheRejected (si_sipCallID s) (si_tag s) status reason)))%go) s2 false false None
      (0, 0, 0, 0)%nat (drop_spec s2)) as Hd.
  destruct Hd as (D1 & D2 & D3 & D4).
  { apply same_trans; [done|]. unfold result_of, state_of; cbn [mget fst snd]. by destruct (_ && _). }
  unfold leadsTo; cbn [fst snd]. repeat (split; [done|]). rewrite counts_app.
  unfold run, counts in H4, D4; cbn [fst snd] in H4, D4.
  injection H4 as -> -> -> ->. injection D4 as -> -> -> ->. by destruct (inviteTx s1).
Qed.

(** Descriptions compose, and their counts add up. *)
Definition cadd (c d : nat * nat * nat * nat) : nat * nat * nat * nat :=
  let '(c1, c2, c3, c4) := c in let '(d1, d2, d3, d4) := d in
  (c1 + d1, c2 + d2, c3 + d3, c4 + d4)%nat.

Lemma leadsTo_bind {A B} (m : M sipInbound DEffect A) (f : A -> M sipInbound DEffect B)
    s tx inv ok c tx' inv' ok' c' :
  leadsTo s (run m s) tx inv ok c ->
  leadsTo (state_of (m s)) (run (f (result_of (m s))) (state_of (m s))) tx' inv' ok' c' ->
  leadsTo s (run (mbind' m f) s) tx' inv' ok' (cadd c c').
Proof.
  intros (_ & _ & _ & Hc) (H1 & H2 & H3 & Hc'). rewrite run_bind. unfold leadsTo in *; cbn [fst snd] in *.
  repeat (split; [done|]). rewrite counts_app. unfold run in Hc, Hc'. cbn [fst snd] in Hc, Hc'.
  by rewrite <- Hc, <- Hc'.
Qed.

Lemma emit_respond_spec sent status reason body s :
  leadsTo s (run (memit (DRespond status reason body sent)) s) (inviteTx s) (hasInvite s)
    (inviteOk s) (statusCounts 1 sent status).
Proof. unfold leadsTo. repeat (split; [done|]). apply statusCounts_respond. Qed.

Lemma emit_bye_spec cseq dest s :
  leadsTo s (run (memit (DRequest "BYE" cseq dest)) s) (inviteTx s) (hasInvite s) (inviteOk s)
    (0, 0, 0, 1)%nat.
Proof. done. Qed.

Lemma statusCounts_reject sent status : 300 <= status -> statusCounts 1 sent status = (0, 0, 1, 0)%nat.
Proof.
  intros. unfold statusCounts.
  by rewrite (proj2 (Z.ltb_ge status 300)), (proj2 (Z.leb_le 300 status)), andb_false_r by lia.
Qed.

Lemma sendStatus_spec now sent result s :
  inviteOk s = None -> inviteTx s = true -> res_Code result = 0 \/ 300 <= res_Code result ->
  leadsTo s (run (sendStatus now sent result) s) false false None (0, 0, 1, 0)%nat.
Proof.
  intros Hok Htx Hc. unfold sendStatus. apply same_bind; [done|].
  unfold result_of, state_of; cbn [mget fst snd]. rewrite Hok, Htx. cbn [negb].
  assert (Hcode : 300 <= or_Code (Result_NewResponse result)).
  { unfold Result_NewResponse, newResponse; simpl. destruct (Z.eqb_spec (res_Code result) 0); lia. }
  rewrite <- (statusCounts_reject sent _ Hcode).
  replace (statusCounts 1 sent _) with (cadd (statusCounts 1 sent (or_Code (Result_NewResponse result)))
    (0, 0, 0, 0)%nat) by (by rewrite statusCounts_reject).
  eapply leadsTo_bind; [apply emit_respond_spec|].
  apply same_bind; [|apply drop_spec]. destruct sent; [|done]. cbn [mwhen].
  apply same_trans; [apply setLastStatus_same | apply emitRejected_same].
Qed.

Lemma sendBye_spec p e s :
  is_Some (inviteOk s) -> hasInvite s = true ->
  exists n, (1 <= n <= 2)%nat /\
    leadsTo s (run (sendBye_inbound p e) s) false false None (0, 0, 0, n)%nat.
Proof.
  intros [ok Hok] Hinv.
  assert (Hemit : forall ev s, inviteTx s = false -> hasInvite s = false -> inviteOk s = None ->
            leadsTo s (run (emit ev) s) false false None (0, 0, 0, 0)%nat).
  { intros ev s0 H1 H2 H3. pose proof (emit_same ev s0) as H. unfold same in H.
    by rewrite H1, H2, H3 in H. }
  set (retry := negb (byeSucceeded (be_first e).1 (be_first e).2) &&
                negb (String.eqb (swapSrcDst (legTr s) p).2 "")).
  exists (if retry then 2 else 1)%nat. split; [destruct retry; lia|].
  unfold sendBye_inbound. apply same_bind; [done|].
  unfold result_of, state_of; cbn [mget fst snd]. rewrite Hok, Hinv. cbn [negb].
  apply same_bind; [apply takeCSeq_same|].
  destruct (swapSrcDst (legTr s) p) as [dest fallback]. cbn [fst snd] in retry. fold retry.
  set (s1 := state_of (takeCSeq s)). set (cs := result_of (takeCSeq s)). clearbody s1 cs.
  pose proof (drop_spec s1) as (D1 & D2 & D3 & _). unfold run in D1, D2, D3; cbn [fst] in D1, D2, D3.
  change (0, 0, 0, if retry then 2 else 1)%nat
    with (cadd (0, 0, 0, 0) (0, 0, 0, if retry then 2 else 1))%nat.
  eapply leadsTo_bind; [apply drop_spec|]. set (s2 := state_of (drop s1)) in *. clearbody s2.
  destruct retry.
  - change (0, 0, 0, 2)%nat with (cadd (0, 0, 0, 1) (cadd (0, 0, 0, 1) (0, 0, 0, 0)))%nat.
    eapply leadsTo_bind; [apply emit_bye_spec|]. eapply leadsTo_bind; [apply emit_bye_spec|].
    destruct (be_retry e) as [[[res' err'] endAt]|]; by apply Hemit.
  - change (0, 0, 0, 1)%nat with (cadd (0, 0, 0, 1) (0, 0, 0, 0))%nat.
    eapply leadsTo_bind; [apply emit_bye_spec|]. by apply Hemit.
Qed.

Lemma CloseWithStatus_spec now sent p e result s c :
  dinv s c -> res_Code result = 0 \/ 300 <= res_Code result ->
  exists c', leadsTo s (run (CloseWithStatus now sent p e result) s) false false None c' /\
    c' ∈ (match inviteTx s, inviteOk s with
          | true, None => [(0, 0, 1, 0)]
          | false, Some _ => [(0, 0, 0, 1); (0, 0, 0, 2)]
          | _, _ => [(0, 0, 0, 0)]
          end)%nat.
Proof.
  intros Hd Hr. destruct c as [[[a b] c] d]. unfold dinv in Hd.
  unfold CloseWithStatus.
  destruct (inviteOk s) as [r|] eqn:Hok.
  - destruct (inviteTx s) eqn:Htx; [done|]. destruct Hd as (Hi & _).
    destruct (sendBye_spec p e s) as (n & Hn & Hl); [by eauto | done |].
    exists (0, 0, 0, n)%nat. split.
    + apply same_bind; [done|]. unfold result_of, state_of; cbn [mget fst snd]. by rewrite Hok.
    + assert (n = 1%nat \/ n = 2%nat) as [-> | ->] by lia; set_solver.
  - destruct (inviteTx s) eqn:Htx.
    + exists (0, 0, 1, 0)%nat. split; [|set_solver].
      apply same_bind; [done|]. unfold result_of, state_of; cbn [mget fst snd]. rewrite Hok, Htx.
      by apply sendStatus_spec.
    + exists (0, 0, 0, 0)%nat. split; [|set_solver].
      apply same_bind; [done|]. unfold result_of, state_of; cbn [mget fst snd]. rewrite Hok, Htx.
      apply drop_spec.
Qed.

(** The parameters of the loop allow seven tries at most. *)
Lemma acceptParams_range tr w :
  0 <= (acceptParams tr w).2 /\ 1 <= (acceptParams tr w).1 <= 5.
Proof.
  unfold acceptParams, inviteOkRetryIntervalMax, inviteOkRetryInterval, inviteOKRetryAttempts,
    inviteOKRetryAttemptsNoACK, second, millisecond.
  destruct (negb _), w; simpl; lia.
Qed.

Lemma acceptRetries_facts env sdp w s tr :
  exists b n, acceptFacts s b 0 n (acceptRetries env (ok200 sdp) w tr s) /\
    b = budget (Z.to_nat ((acceptParams tr w).1 + 1)) (acceptParams tr w).2 /\
    n = Z.to_nat ((acceptParams tr w).1 + 1).
Proof.
  pose proof (acceptParams_range tr w) as Hp. unfold acceptRetries.
  destruct (acceptParams tr w) as [mx ra]; cbn [fst snd] in *.
  eexists _, _. split; [|done].
  replace (mx + 1) with (mx + 2 - Z.of_nat 1) by lia.
  apply acceptLoop_facts; [simpl; lia | lia | lia | unfold acceptFuel; lia].
Qed.

Lemma acceptFacts_leads {s bound waited sends} (m : M sipInbound DEffect (AcceptResult * Z)) :
  acceptFacts s bound waited sends (m s) ->
  leadsTo s (run m s) (inviteTx s) (hasInvite s) (inviteOk s)
    (oks (trace_of (m s)), fails (trace_of (m s)), 0, 0)%nat.
Proof.
  intros [_ _ [Hq _ _ Hr Hb] _ _ _]. unfold dialogState in Hq. injection Hq as H1 H2 H3 _.
  unfold leadsTo, run, counts, rejects, byes; cbn [fst snd]. by rewrite H1, H2, H3, Hr, Hb.
Qed.

(** The part of [Accept] after its guard, from a state with an open transaction. *)
Lemma accept_tail env sdp w tr s :
  inviteTx s = true -> inviteOk s = None ->
  exists ok fl tx iok,
    leadsTo s (run (mbind' (acceptRetries env (ok200 sdp) w tr) (acceptFinish (ok200 sdp))) s)
      tx (hasInvite s) iok (ok, fl, 0, 0)%nat /\
    ((tx = false /\ is_Some iok /\ 1 <= ok)%nat \/ (tx = true /\ iok = None /\ 1 <= fl)%nat).
Proof.
  intros Htx Hok. destruct (acceptRetries_facts env sdp w s tr) as (b & n & F & _ & _).
  set (loop := acceptRetries env (ok200 sdp) w tr) in *. clearbody loop.
  pose proof (acceptFacts_leads loop F) as Hl. rewrite Htx, Hok in Hl.
  destruct F as [F1 _ _ _ F5 F6].
  exists (oks (trace_of (loop s))), (fails (trace_of (loop s))).
  destruct ((result_of (loop s)).1) as [|err|] eqn:Hres; [| |done].
  - exists true, None. split.
    + apply leadsTo_bind_same; [exact Hl|]. unfold acceptFinish. by rewrite Hres.
    + right. split; [done|]. split; [done|]. unfold fails. by rewrite F6.
  - exists false, (Some (ok200 sdp)). split.
    2: { left. split; [done|]. split; [eauto|]. by apply (F5 err). }
    replace (_, _, 0, 0)%nat with (cadd (oks (trace_of (loop s)), fails (trace_of (loop s)), 0, 0)
      (0, 0, 0, 0))%nat by (simpl; by rewrite !Nat.add_0_r).
    eapply leadsTo_bind; [exact Hl|]. unfold acceptFinish. rewrite Hres.
    destruct Hl as (L1 & L2 & L3 & _). unfold run in L1, L2, L3; cbn [fst] in L1, L2, L3.
    unfold leadsTo, run, state_of, mbind', mmodify; cbn [fst snd]. by rewrite <- L2.
Qed.

Lemma Accept_spec env sdp w s :
  inviteTx s = true -> inviteOk s = None ->
  exists ok fl tx iok,
    leadsTo s (run (Accept env sdp w) s) tx (hasInvite s) iok (ok, fl, 0, 0)%nat /\
    ((tx = false /\ is_Some iok /\ 1 <= ok)%nat \/ (tx = true /\ iok = None /\ 1 <= fl)%nat).
Proof.
  intros Htx Hok.
  pose proof (modify_same (set_lastSDP sdp) s ltac:(done) ltac:(done) ltac:(done)) as M1.
  set (s1 := set_lastSDP sdp s).
  pose proof (stopRinging_same s1) as (R1 & R2 & R3 & _).
  set (s2 := state_of (stopRinging s1)).
  assert (T1 : inviteTx s2 = true) by (etransitivity; [exact R1 | exact Htx]).
  assert (T2 : hasInvite s2 = hasInvite s) by exact R2.
  assert (T3 : inviteOk s2 = None) by (etransitivity; [exact R3 | exact Hok]).
  destruct (accept_tail env sdp w (legTr s) s2 T1 T3) as (ok & fl & tx & iok & Hl & Hc).
  exists ok, fl, tx, iok. split; [|done]. rewrite T2 in Hl.
  unfold Accept. apply same_bind; [done|].
  unfold result_of, state_of; cbn [mget fst snd]. rewrite Htx. cbn [negb].
  apply same_bind; [exact M1|]. apply same_bind; [apply stopRinging_same|]. exact Hl.
Qed.

(** ** The invariant *)
Lemma dinv_same s r t : same s r -> dinv s (counts t) -> dinv r.1 (counts (t ++ r.2)).
Proof.
  intros (H1 & H2 & H3 & H4) Hd. rewrite counts_app. unfold counts in H4.
  injection H4 as -> -> -> ->. rewrite !Nat.add_0_r. unfold dinv, counts in *.
  by rewrite H1, H2, H3.
Qed.

Lemma dinv_leads s r t tx inv ok c :
  leadsTo s r tx inv ok c ->
  (forall s', inviteTx s' = tx -> hasInvite s' = inv -> inviteOk s' = ok ->
     dinv s' (cadd (counts t) c)) ->
  dinv r.1 (counts (t ++ r.2)).
Proof.
  intros (H1 & H2 & H3 & <-) Hd. rewrite counts_app. by apply (Hd r.1).
Qed.

Lemma runDOp_inv o s t :
  opOK o -> dinv s (counts t) ->
  dinv (state_of (runDOp o s)) (counts (t ++ trace_of (runDOp o s))).
Proof.
  intros Ho Hd. change (dinv (run (runDOp o) s).1 (counts (t ++ (run (runDOp o) s).2))).
  destruct o; cbn [runDOp opOK] in *.
  1, 2, 3, 4, 5, 10, 11: apply (dinv_same s); [|done].
  - apply same_trans; [apply Processing_same | done].
  - apply same_trans; [apply StartRinging_same | done].
  - apply ringTick_same.
  - apply ringCancel_same.
  - apply AcceptAck_same.
  - apply same_trans; [apply newReferReq_same | done].
  - apply same_trans; [apply referSend_same | done].
  - destruct (inviteTx s) eqn:Htx.
    + assert (Hok : inviteOk s = None) by (unfold dinv, counts in Hd; rewrite Htx in Hd; by destruct (inviteOk s)).
      destruct (Accept_spec env sdp waitForAck s Htx Hok) as (ok & fl & tx & iok & Hl & Hc).
      eapply dinv_leads; [apply leadsTo_bind_same; [exact Hl | done]|].
      intros s' H1 H2 H3. unfold dinv, counts, cadd in *. rewrite Htx, Hok in Hd.
      rewrite H1, H2, H3. destruct Hc as [(-> & [? ->] & ?)|(-> & -> & ?)]; intuition lia.
    + apply (dinv_same s); [|done]. apply same_trans; [|done].
      unfold Accept. apply same_trans; [done|]. unfold result_of, state_of; cbn [mget fst snd].
      by rewrite Htx.
  - eapply dinv_leads; [unfold AcceptBye; apply same_bind; [done | apply drop_spec]|].
    intros s' H1 H2 H3. unfold dinv, counts, cadd in *. rewrite H1, H2, H3, !Nat.add_0_r.
    destruct (inviteTx s), (inviteOk s); intuition lia.
  - eapply dinv_leads; [by apply RespondAndDrop_spec|].
    intros s' H1 H2 H3. unfold dinv, counts, cadd in *. rewrite H1, H2, H3, !Nat.add_0_r.
    destruct (inviteTx s), (inviteOk s); intuition lia.
  - destruct (CloseWithStatus_spec now sent p e result s _ Hd Ho) as (c' & Hl & Hc).
    eapply dinv_leads; [exact Hl|]. intros s' H1 H2 H3. unfold dinv, counts in *.
    rewrite H1, H2, H3. destruct (inviteTx s), (inviteOk s); try done;
      rewrite ?elem_of_cons, ?elem_of_nil in Hc; unfold cadd;
      repeat destruct Hc as [->|Hc]; try done; intuition lia.
Qed.

Lemma runDOps_inv l s t :
  Forall opOK l -> dinv s (counts t) ->
  dinv (state_of (runDOps l s)) (counts (t ++ trace_of (runDOps l s))).
Proof.
  intros Hl. revert s t. induction Hl as [|o l Ho Hl IH]; intros s t Hd.
  { simpl. by rewrite app_nil_r. }
  change (runDOps (o :: l)) with (mbind' (runDOp o) (fun _ => runDOps l)).
  rewrite bind_state, bind_trace, app_assoc. apply IH. by apply runDOp_inv.
Qed.

Lemma newInbound_dinv cached freshID invite s :
  newInbound cached freshID invite = inr s -> dinv s (counts []).
Proof.
  unfold newInbound. intros H. repeat case_match; simplify_eq/=;
    (split; [done|]; split; [done|]; split; [done|]; by left).
Qed.

(** *** A closed dialog stays silent *)
Definition closed (s : sipInbound) : Prop :=
  inviteTx s = false /\ hasInvite s = false /\ inviteOk s = None.

Definition isSend (e : DEffect) : bool :=
  match e with
  | DRespond _ _ _ _ | DGo _ _ => true
  | DRequest m _ _ => negb (String.eqb m "REFER")
  | _ => false
  end.

(** A computation that, in a closed dialog, sends nothing and keeps it closed. *)
Definition silent {A} (m : M sipInbound DEffect A) : Prop :=
  forall s, closed s -> closed (state_of (m s)) /\ countb isSend (trace_of (m s)) = 0%nat.

Lemma silent_bind {A B} (m : M sipInbound DEffect A) (f : A -> M sipInbound DEffect B) :
  silent m -> (forall a, silent (f a)) -> silent (mbind' m f).
Proof.
  intros Hm Hf s Hs. rewrite bind_state, bind_trace, countb_app.
  destruct (Hm s Hs) as [Hc ->]. destruct (Hf (result_of (m s)) _ Hc) as [Hc' ->]. done.
Qed.

(** Reading the state of a closed dialog. *)
Lemma silent_get {A} (f : sipInbound -> M sipInbound DEffect A) :
  (forall s, closed s -> closed (state_of (f s s)) /\ countb isSend (trace_of (f s s)) = 0%nat) ->
  silent (mbind' mget f).
Proof.
  intros Hf s Hs. rewrite bind_state, bind_trace. by apply Hf.
Qed.

Lemma silent_ret {A} (a : A) : silent (mreturn a).
Proof. by intros s Hs. Qed.

Lemma silent_modify f :
  (forall s, closed s -> closed (f s)) -> silent (mmodify f).
Proof. intros Hf s Hs. split; [by apply Hf | done]. Qed.

Lemma silent_emit e : isSend e = false -> silent (memit e).
Proof. intros He s Hs. split; [done|]. unfold trace_of; simpl. by rewrite countb_cons, He. Qed.

Lemma silent_when b (m : M sipInbound DEffect unit) : silent m -> silent (mwhen b m).
Proof. destruct b; [done | intros _; apply silent_ret]. Qed.

#[local] Hint Resolve silent_ret silent_emit silent_modify silent_when silent_bind : go.

Lemma silent_emitEv ev : silent (emit ev).
Proof. apply silent_get. intros s Hs. unfold mwhen. by destruct (hasState s). Qed.

Lemma silent_respond now sent status reason : silent (respond now sent status reason).
Proof. apply silent_get. intros s (Htx & ? & ?). rewrite Htx. done. Qed.

Lemma silent_stopRinging : silent stopRinging.
Proof. apply silent_get. intros s Hs. by destruct (ringing s). Qed.

Lemma silent_drop : silent drop.
Proof.
  apply silent_bind; [apply silent_stopRinging|]. intros _. apply silent_get.
  intros s (Htx & ? & ?). rewrite Htx. done.
Qed.

Lemma silent_AcceptAck now cseq : silent (AcceptAck now cseq).
Proof.
  apply silent_get. intros s Hs. destruct cseq as [n|]; [|done].
  destruct (negb _); [done|]. destruct (_ && _); [|done].
  rewrite bind_state, bind_trace, countb_app. by apply silent_emitEv.
Qed.

Lemma runDOp_silent o : silent (runDOp o).
Proof.
  destruct o; cbn [runDOp].
  - apply silent_bind; [|intros; apply silent_ret]. apply silent_get. intros s Hs.
    destruct (sipTryingAt s); [done|].
    apply (silent_bind (respond now sent 100 "Processing")); [apply silent_respond | | done].
    intros []; [|apply silent_ret]. apply silent_bind; [by apply silent_modify | intros; apply silent_ret].
  - apply silent_bind; [|intros; apply silent_ret]. unfold StartRinging.
    apply silent_bind; [apply silent_respond|]. intros ok.
    apply silent_bind; [by apply silent_modify|]. intros _. by apply silent_get.
  - apply silent_get. intros s Hs. destruct (_ && _); [|done]. cbn [mwhen].
    apply (silent_bind (respond now sent 180 "Ringing")); [apply silent_respond | | done].
    intros; apply silent_ret.
  - apply silent_get. intros s Hs. destruct (_ && _); [|done]. cbn [mwhen].
    apply (silent_bind (mmodify set_cancelled)); [by apply silent_modify | | done].
    intros _. apply silent_bind; [by apply silent_emit|]. intros _. apply silent_emitEv.
  - apply silent_AcceptAck.
  - apply silent_bind; [|intros; apply silent_ret]. apply silent_get.
    intros s (Htx & ? & ?). rewrite Htx. done.
  - apply silent_bind; [by apply silent_emit|]. intros _. apply silent_drop.
  - unfold RespondAndDrop. apply silent_bind; [apply silent_stopRinging|]. intros _.
    apply silent_bind; [apply silent_respond|]. intros _.
    apply silent_bind; [apply silent_drop|]. intros _. apply silent_get. intros s Hs.
    by destruct (_ && _).
  - apply silent_get. intros s (Htx & Hi & Hok). rewrite Hok, Htx. by apply silent_drop.
  - apply silent_bind; [|intros; apply silent_ret]. intros s (Htx & Hi & Hok).
    unfold newReferReq, mbind', mget. rewrite Hi. done.
  - apply silent_bind; [|intros; apply silent_ret]. apply silent_get. intros s Hs.
    destruct (removeOne _ _) as [rest|]; [|done]. apply (silent_bind (mmodify (set_refers rest))); [by apply silent_modify| |done].
    intros _. apply silent_bind; [by destruct refer; [apply silent_ret | apply silent_emit]|].
    intros _. destruct (sendRefer refer).2 as [[? [?|]]|]; apply silent_ret.
Qed.

Lemma runDOps_silent l : silent (runDOps l).
Proof.
  induction l as [|o l IH]; [apply silent_ret|].
  change (runDOps (o :: l)) with (mbind' (runDOp o) (fun _ => runDOps l)).
  apply silent_bind; [apply runDOp_silent | done].
Qed.

(** *** A success status is kept *)
Definition succeeded (s : sipInbound) : Prop :=
  exists st, lastCallStatus s = Some st /\ 200 <= Code st < 300.

Definition keeps {A} (m : M sipInbound DEffect A) : Prop :=
  forall s, succeeded s -> lastCallStatus (state_of (m s)) = lastCallStatus s.

Lemma keeps_bind {A B} (m : M sipInbound DEffect A) (f : A -> M sipInbound DEffect B) :
  keeps m -> (forall a, keeps (f a)) -> keeps (mbind' m f).
Proof.
  intros Hm Hf s Hs. rewrite bind_state. pose proof (Hm s Hs) as E. rewrite <- E. apply Hf.
  unfold succeeded. by rewrite E.
Qed.

Lemma keeps_ret {A} (a : A) : keeps (mreturn a).
Proof. by intros s Hs. Qed.

Lemma keeps_get : keeps mget.
Proof. by intros s Hs. Qed.

Lemma keeps_emit e : keeps (memit e).
Proof. by intros s Hs. Qed.

Lemma keeps_modify f : (forall s, lastCallStatus (f s) = lastCallStatus s) -> keeps (mmodify f).
Proof. intros Hf s Hs. apply Hf. Qed.

Lemma keeps_when b (m : M sipInbound DEffect unit) : keeps m -> keeps (mwhen b m).
Proof. destruct b; [done | intros _; apply keeps_ret]. Qed.

Lemma keeps_setLastStatus code reason : keeps (setLastStatus code reason).
Proof.
  intros s (st & Hst & Hr). unfold setLastStatus. destruct (code <? 200); [done|].
  unfold mmodify, state_of; simpl. rewrite Hst.
  by rewrite (proj2 (Z.leb_le 200 _)), (proj2 (Z.ltb_lt _ 300)) by lia.
Qed.

Lemma keeps_takeCSeq : keeps takeCSeq.
Proof. by intros s Hs. Qed.

Ltac keeps_tac :=
  repeat (first
    [ apply keeps_ret | apply keeps_get | apply keeps_emit | apply keeps_setLastStatus
    | apply keeps_takeCSeq | by apply keeps_modify | apply keeps_when
    | apply keeps_bind; [|intros ?]
    | progress cbv zeta
    | match goal with
      | |- keeps (match ?x with _ => _ end) => destruct x
      | |- keeps (let '(_, _) := ?x in _) => destruct x
      end ]).

Lemma keeps_emitEv ev : keeps (emit ev).
Proof. unfold emit. keeps_tac. Qed.

Lemma keeps_emitRejected now status reason : keeps (emitRejected now status reason).
Proof. unfold emitRejected. keeps_tac. Qed.

Lemma keeps_respond now sent status reason : keeps (respond now sent status reason).
Proof. unfold respond, respondWithData. keeps_tac; apply keeps_emitRejected. Qed.

Lemma keeps_drop : keeps drop.
Proof. unfold drop, stopRinging. keeps_tac. Qed.

Lemma keeps_AcceptAck now cseq : keeps (AcceptAck now cseq).
Proof. unfold AcceptAck. keeps_tac; apply keeps_emitEv. Qed.

Lemma keeps_acceptLoop fuel env r w mx try ra waited :
  keeps (acceptLoop fuel env r w mx try ra waited).
Proof.
  revert try ra waited. induction fuel as [|fuel IH]; intros try ra waited; cbn [acceptLoop]; [done|].
  keeps_tac; try apply keeps_AcceptAck; try apply IH.
Qed.

Lemma runDOp_keeps o : keeps (runDOp o).
Proof.
  destruct o; cbn [runDOp]; unfold Processing, StartRinging, ringTick, ringCancel, Accept,
    acceptRetries, acceptFinish, AcceptBye, RespondAndDrop, CloseWithStatus, referSend,
    newReferReq, sendBye_inbound, sendStatus, stopRinging;
    keeps_tac;
    first [apply keeps_respond | apply keeps_emitRejected | apply keeps_drop | apply keeps_emitEv | apply keeps_AcceptAck
          | apply keeps_acceptLoop].
Qed.

Lemma runDOps_keeps l : keeps (runDOps l).
Proof.
  induction l as [|o l IH]; [apply keeps_ret|].
  change (runDOps (o :: l)) with (mbind' (runDOp o) (fun _ => runDOps l)).
  apply keeps_bind; [apply runDOp_keeps | done].
Qed.

(** ** Properties *)

(** what an inbound dialog sends over its life.  In any sequence of its
    methods, with any outcome of every write, ACK and BYE: the INVITE is rejected
    at most once; a dialog that was rejected never sends a BYE; a BYE is sent only
    if a 200 OK was, at most twice (the second time as the retry over the Contact);
    and a rejection follows a 200 OK only if a write of the 200 OK failed. *)
Theorem inbound_final_exclusive cached freshID invite s l :
  newInbound cached freshID invite = inr s -> Forall opOK l ->
  let t := trace_of (runDOps l s) in
  (rejects t <= 1)%nat /\ (byes t <= 2)%nat /\
  (1 <= rejects t -> byes t = 0 /\ (oks t = 0 \/ 1 <= fails t))%nat /\
  (1 <= byes t -> 1 <= oks t)%nat.
Proof.
  intros Hs Hl t. pose proof (runDOps_inv l s [] Hl (newInbound_dinv _ _ _ _ Hs)) as Hd.
  cbn [app] in Hd. fold t in Hd. unfold dinv, counts in Hd.
  destruct (inviteTx _), (inviteOk _); intuition lia.
Qed.

Definition exInvite : Request :=
  {| Method := "INVITE";
     Recipient := {| su_User := ""; su_Host := "livekit"; su_Port := 0; su_UriParams := ∅ |};
     req_To := Some {| Address := {| su_User := "b"; su_Host := "lk"; su_Port := 0; su_UriParams := ∅ |};
                       hdr_Params := ∅ |};
     req_From := Some {| Address := {| su_User := "a"; su_Host := "h"; su_Port := 0; su_UriParams := ∅ |};
                         hdr_Params := {[ "tag" := "ft" ]} |};
     req_Via := Some {| via_Transport := "UDP"; via_Branch := None |};
     req_CallID := Some "call-1"; req_CSeq := Some 7; req_GetHeader := fun _ => None;
     req_Body := ""; req_Source := "10.0.0.1:5060" |}.

Definition exDialog : sipInbound :=
  match newInbound (fun _ _ => None) "SCL_1" exInvite with inr s => s | inl _ =>
    {| si_id := ""; si_tag := ""; si_sipCallID := ""; inviteCSeq := 0; legTr := ""; si_tr := "";
       hasState := false; hasInvite := false; inviteTx := false; inviteOk := None;
       nextRequestCSeq := 0; referCseq := 0; ringing := false; cancelled := false; acked := false;
       okSending := false; ackReported := false; sipTryingAt := None; sipOkAt := None; lastSDP := "";
       lastCallStatus := None; si_refers := [] |} end.

Definition exPeer : PeerInfo :=
  {| okDest := "10.0.0.1:5060"; peerContact := None; connOpen := false; recordRoute := None |}.

Definition exByeEnv : ByeEnv :=
  {| be_sentAt := 10; be_first := (Some (exResponse 200), None); be_firstEnd := 11; be_retry := None |}.

Definition exTries (sent2 : bool) (n : nat) : TryEnv :=
  {| te_sent := if Nat.eqb n 1 then true else sent2; te_now := Z.of_nat n; te_out := AckTimer |}.

Definition busy : SResult := {| res_Code := 486; res_Status := "Rejected" |}.

Lemma inbound_final_exclusive_witness :
  let t := trace_of (runDOps [OProcessing 1 true; ORing 2 true; OAccept (exTries true) "v=0" true;
                              OClose 9 true exPeer exByeEnv busy; OClose 9 true exPeer exByeEnv busy]
                       exDialog) in
  (rejects t <= 1)%nat /\ oks t = 6%nat /\ byes t = 1%nat.
Proof.
  intros t.
  assert (Hc : oks t = 6%nat /\ byes t = 1%nat) by (vm_compute; split; reflexivity).
  split; [|exact Hc].
  refine (proj1 (inbound_final_exclusive (fun _ _ => None) "SCL_1" exInvite exDialog _ _ _)).
  - reflexivity.
  - repeat (constructor; [first [exact I | right; vm_compute; discriminate]|]). constructor.
Defined.

(** The loop when no ACK comes: [k] tries are written, the next write fails. *)
Lemma acceptLoop_fails fuel env r w mx try ra waited s k :
  acked s = false -> (w = true \/ legTr s = TransportUDP) -> (k < fuel)%nat -> Z.of_nat (try + k) <= mx + 1 ->
  (forall i, (try <= i < try + k)%nat -> te_sent (env i) = true /\ te_out (env i) = AckTimer) ->
  te_sent (env (try + k)%nat) = false ->
  let res := acceptLoop fuel env r w mx try ra waited s in
  (result_of res).1 = AcceptWriteError /\ quiet s [] (state_of res) /\
  trace_of res = repeat (DRespond (or_Code r) (or_Reason r) (or_Body r) true) k ++
                 [DRespond (or_Code r) (or_Reason r) (or_Body r) false].
Proof.
  revert fuel try ra waited s. induction k as [|k IH]; intros [|fuel] try ra waited s Ha Hw Hf Hm He Hl; try lia;
    destruct (acceptLoop_unfold fuel env r w mx try ra waited s) as (s1 & Hq1 & _ & s2 & Hq2 & Ha2 & ->); cbv zeta.
  - rewrite Nat.add_0_r in Hl. by rewrite Hl.
  - destruct (He try ltac:(lia)) as [-> ->]. cbn [negb]. rewrite Ha2, Ha.
    assert (negb w && negb (String.eqb (legTr s) TransportUDP) = false) as ->
      by (destruct Hw as [->| ->]; [done|by rewrite andb_false_r]). cbn [orb].
    rewrite (proj2 (Z.ltb_ge _ _)) by lia.
    specialize (IH fuel (S try) (Z.min (ra * 2) inviteOkRetryIntervalMax) (waited + ra) s2).
    destruct IH as (I1 & I2 & I3); [congruence|rewrite (q_leg _ _ _ Hq2); tauto|lia|lia|intros i Hi; apply He; lia|
      by replace (S try + k)%nat with (try + S k)%nat by lia|].
    unfold result_of, state_of, trace_of in *. cbn [fst snd] in *. split_and!; [done|exact (quiet_trans _ [] _ _ _ Hq2 I2)|].
    by rewrite I3.
Qed.

Lemma stopRinging_resp s : List.filter isResp (trace_of (stopRinging s)) = [] /\ byes (trace_of (stopRinging s)) = 0%nat.
Proof. unfold stopRinging, mbind', mget. simpl. by destruct (ringing s). Qed.

(** [Accept] when a retransmission fails. *)
Lemma Accept_fails env sdp w s k :
  inviteTx s = true -> inviteOk s = None -> acked s = false -> (w = true \/ legTr s = TransportUDP) ->
  Z.of_nat k <= (acceptParams (legTr s) w).1 ->
  (forall i, (1 <= i <= k)%nat -> te_sent (env i) = true /\ te_out (env i) = AckTimer) -> te_sent (env (S k)) = false ->
  mspec (Accept env sdp w) s (fun res s' t =>
    res.1 = AcceptWriteError /\ inviteTx s' = true /\ inviteOk s' = None /\
    List.filter isResp t = repeat (DRespond 200 "OK" sdp true) k ++ [DRespond 200 "OK" sdp false]).
Proof.
  intros Htx Hok Ha Hw Hk He Hl. unfold Accept. repeat mstep. rewrite Htx. cbn [negb]. repeat mstep.
  unfold mspec at 1. pose proof (stopRinging_resp (set_lastSDP sdp s)) as [Hr _].
  assert (inviteTx (state_of (stopRinging (set_lastSDP sdp s))) = true /\
          inviteOk (state_of (stopRinging (set_lastSDP sdp s))) = None /\
          acked (state_of (stopRinging (set_lastSDP sdp s))) = false /\
          legTr (state_of (stopRinging (set_lastSDP sdp s))) = legTr s) as (E1 & E2 & E3 & E4).
  { unfold stopRinging, mbind', mget, state_of. cbn. by destruct (ringing s). }
  destruct (stopRinging (set_lastSDP sdp s)) as [[[] s1] t1]. unfold state_of, trace_of in *. cbn [fst snd] in *.
  mstep. unfold acceptRetries. pose proof (acceptParams_range (legTr s) w) as Hp.
  destruct (acceptParams (legTr s) w) as [mx ra]. cbn [fst snd] in *. unfold mspec at 1.
  destruct (acceptLoop_fails acceptFuel env (newResponse 200 "" sdp) w mx 1 ra 0 s1 k) as (R1 & R2 & R3);
    [done|by rewrite E4|unfold acceptFuel; lia|lia|intros i Hi; apply He; lia|done|].
  destruct (acceptLoop _ _ _ _ _ _ _ _ s1) as [[[res wt] s2] t2]. unfold result_of, state_of, trace_of in *. cbn [fst snd] in *.
  destruct R2 as [Hq _ _ _ _]. unfold dialogState in Hq. injection Hq as Q1 Q2 Q3 Q4.
  unfold acceptFinish. cbn [fst]. rewrite R1. mstep. split_and!; [done|congruence|congruence|].
  rewrite !List.filter_app, Hr, R3, !List.filter_app. cbn [app List.filter isResp]. rewrite !app_nil_r. f_equal.
  clear. induction k as [|k IH]; [done|]. cbn. f_equal. exact IH.
Qed.

(** Closing a dialog that is not answered rejects it. *)
Lemma CloseWithStatus_rejects now sent p e result s :
  inviteTx s = true -> inviteOk s = None ->
  mspec (CloseWithStatus now sent p e result) s (fun _ s' t =>
    closed s' /\ byes t = 0%nat /\
    List.filter isResp t = [DRespond (or_Code (Result_NewResponse result)) (or_Reason (Result_NewResponse result)) "" sent]).
Proof.
  intros Htx Hok. unfold CloseWithStatus, sendStatus, setLastStatus, emitRejected, emit, drop, stopRinging, closed, byes. repeat mstep.
  rewrite Hok, Htx. repeat mstep; repeat (case_match; repeat mstep); try (rewrite Htx in *; done); split_and!; try done.
Qed.

(** C40: a failed retransmission of the 200 OK leaves the dialog as if it had not been answered.
    For every open dialog and every network in which the first [k] >= 1 200 OKs are written, no
    ACK comes in between, and the next write fails while retransmissions are still due (on a
    reliable transport: only if the ACK is waited for): [Accept] returns the write error after
    exactly [k] 200 OKs and the failed one, and closing the dialog then answers the same INVITE
    with the rejection, after the 200 OKs, and sends no BYE. *)
Theorem accept_retransmit_failure env sdp w s k now sent p e result :
  inviteTx s = true -> inviteOk s = None -> acked s = false -> (w = true \/ legTr s = TransportUDP) ->
  1 <= Z.of_nat k <= (acceptParams (legTr s) w).1 ->
  (forall i, (1 <= i <= k)%nat -> te_sent (env i) = true /\ te_out (env i) = AckTimer) -> te_sent (env (S k)) = false ->
  let a := Accept env sdp w s in
  let c := CloseWithStatus now sent p e result (state_of a) in
  (result_of a).1 = AcceptWriteError /\ inviteTx (state_of a) = true /\ inviteOk (state_of a) = None /\
  List.filter isResp (trace_of a) = repeat (DRespond 200 "OK" sdp true) k ++ [DRespond 200 "OK" sdp false] /\
  List.filter isResp (trace_of c) =
    [DRespond (or_Code (Result_NewResponse result)) (or_Reason (Result_NewResponse result)) "" sent] /\
  byes (trace_of c) = 0%nat /\ closed (state_of c).
Proof.
  intros Htx Hok Ha Hw Hk He Hl a c.
  pose proof (Accept_fails env sdp w s k Htx Hok Ha Hw ltac:(lia) He Hl) as H1. unfold mspec in H1. subst c. subst a.
  destruct (Accept env sdp w s) as [[res s1] t1]. unfold state_of at 1 2 3 4 5 6. cbn [fst snd].
  destruct H1 as (R1 & R2 & R3 & R4). pose proof (CloseWithStatus_rejects now sent p e result s1 R2 R3) as H2. unfold mspec in H2.
  destruct (CloseWithStatus now sent p e result s1) as [[[] s2] t2]. destruct H2 as (C1 & C2 & C3). by split_and!.
Qed.

Lemma accept_retransmit_failure_witness :
  let a := Accept (exTries false) "v=0" true exDialog in
  let c := CloseWithStatus 9 true exPeer exByeEnv busy (state_of a) in
  List.filter isResp (trace_of a ++ trace_of c) =
    [DRespond 200 "OK" "v=0" true; DRespond 200 "OK" "v=0" false; DRespond 486 "Rejected" "" true] /\ byes (trace_of c) = 0%nat.
Proof.
  destruct (accept_retransmit_failure (exTries false) "v=0" true exDialog 1 9 true exPeer exByeEnv busy)
    as (_ & _ & _ & H1 & H2 & H3 & _); [reflexivity|reflexivity|reflexivity|by left|vm_compute; intuition discriminate|
      intros i Hi; by replace i with 1%nat by lia|reflexivity|].
  cbv zeta. rewrite List.filter_app, H1, H2. split; [reflexivity|exact H3].
Defined.

(** C38: answering always ends.  Whatever the network does, [Accept] returns after
    at most six 200 OKs within 9.75 s when it waits for the ACK over UDP, three
    within 1.75 s when it does not, and two within 6 s over a reliable transport. *)
Theorem Accept_bounded env sdp w tr s :
  let r := acceptRetries env (ok200 sdp) w tr s in
  let bound := if negb (String.eqb tr TransportUDP) then (2%nat, 6000)
               else if w then (6%nat, 9750) else (3%nat, 1750) in
  (result_of r).1 <> AcceptOutOfFuel /\
  (countb isResp (trace_of r) <= bound.1)%nat /\
  0 <= (result_of r).2 <= bound.2 * millisecond.
Proof.
  intros r bound. destruct (acceptRetries_facts env sdp w s tr) as (b & n & F & Hb & Hn).
  fold r in F. destruct F as [F1 F2 _ F4 _ _]. split; [done|].
  unfold acceptParams in *. subst bound b n.
  destruct (negb (String.eqb tr TransportUDP)), w; cbn [fst snd] in *;
    unfold inviteOKRetryAttempts, inviteOKRetryAttemptsNoACK in *; (split; [lia|]);
    match type of F2 with context [budget ?n ?r] =>
      let v := eval vm_compute in (budget n r) in change (budget n r) with v in F2 end;
    unfold millisecond; lia.
Qed.

(** a dialog that was closed, by a rejection, a BYE in either direction or a
    drop, stays silent: no later method sends a response to the INVITE or a BYE or makes a
    REFER (one that was made before may still be sent), and it stays closed. *)
Theorem closed_silent s l :
  closed s ->
  closed (state_of (runDOps l s)) /\ countb isSend (trace_of (runDOps l s)) = 0%nat.
Proof. apply runDOps_silent. Qed.

Definition exClosed : sipInbound := state_of (runDOps [OBye] exDialog).

Lemma closed_silent_witness :
  countb isSend (trace_of (runDOps [ORing 1 true; OClose 9 true exPeer exByeEnv busy] exClosed)) = 0%nat.
Proof. refine (proj2 (closed_silent exClosed _ _)). repeat split. Defined.

(** [StartRinging] on a closed dialog takes the cancel channel of a nil
    transaction, which panics; a BYE that arrives between the registration of the
    call and the ringing leads there. *)
Theorem StartRinging_closed_panics now sent s :
  closed s -> result_of (StartRinging now sent s) = None.
Proof.
  intros (Htx & _ & _). destruct (respond_spec now sent 180 "Ringing" s) as (H1 & _).
  rewrite Htx in H1. unfold run, state_of in H1. unfold StartRinging, mbind', result_of.
  destruct (respond now sent 180 "Ringing" s) as [[ok s'] t']. simpl in *. by rewrite H1.
Qed.

Lemma StartRinging_closed_panics_witness : result_of (StartRinging 1 true exClosed) = None.
Proof. apply StartRinging_closed_panics. repeat split. Defined.

(** the status recorded for the call is never overwritten once it is a
    success, so that a call that was answered is recorded as answered however its
    dialog goes on. *)
Theorem success_status_kept s l :
  succeeded s -> lastCallStatus (state_of (runDOps l s)) = lastCallStatus s.
Proof. apply runDOps_keeps. Qed.

Lemma success_status_kept_witness :
  let s := state_of (runDOps [OAccept (exTries false) "v=0" true] exDialog) in
  lastCallStatus (state_of (runDOps [OClose 9 true exPeer exByeEnv busy] s)) =
  Some {| Code := 200; Status := "OK" |}.
Proof.
  intros s. rewrite success_status_kept; [vm_compute; reflexivity|].
  exists {| Code := 200; Status := "OK" |}. split; [vm_compute; reflexivity | simpl; lia].
Defined.
