(* ===== verification/Uas.v ===== *)
(** * The inbound dialog as a user agent server

    An abstract specification of what a callee may send over the life of one INVITE (RFC
    3261, sections 13.3, 15 and 17.2.1), as a labelled transition system, and the theorem
    that [sipInbound] of [pkg/sip/inbound.go] refines it: the responses and requests of
    every sequence of its methods are a run of the specification.  Requests carry the
    consecutive sequence numbers of the dialog.

    They are listed in the order in which they are made, under the lock of the dialog.  A
    REFER is sent after the lock is released, so on the wire it may come later, even after
    the BYE: [delayed] relates the two orders. *)

From stdpp Require Import base tactics list strings option.
From Stdlib Require Import ZArith Ascii Lia.
From S2P Require Import Prelude GoStd GoErr Types Protocol CallState SipInbound.

(** ** Specification *)

(** What is seen on the wire: a response to the INVITE, a response that could not be
    written, a request in the dialog. *)
Inductive wire := Resp (code : Z) | Unsent (code : Z) | Req (method : string) (cseq : Z).

(** [n]: the sequence number of the next request. *)
Inductive uas :=
| Proceeding (n : Z)       (* no final response *)
| Answered (n : Z)         (* a 200 was sent and may be repeated *)
| Established (n : Z)
| Ending (n : Z)           (* a BYE was sent *)
| Over.

Inductive ustep : uas -> option wire -> uas -> Prop :=
| u_provisional n c : 100 <= c < 200 -> ustep (Proceeding n) (Some (Resp c)) (Proceeding n)
| u_unsent n c : ustep (Proceeding n) (Some (Unsent c)) (Proceeding n)
| u_reject n c : 300 <= c -> ustep (Proceeding n) (Some (Resp c)) Over
| u_answer n : ustep (Proceeding n) (Some (Resp 200)) (Answered n)
| u_again n : ustep (Answered n) (Some (Resp 200)) (Answered n)
(** a 200 that could not be repeated is forgotten *)
| u_lost n : ustep (Answered n) (Some (Unsent 200)) (Proceeding n)
| u_establish n : ustep (Answered n) None (Established n)
| u_refer n : ustep (Established n) (Some (Req "REFER" n)) (Established (u32 (n + 1)))
| u_bye n : ustep (Established n) (Some (Req "BYE" n)) (Ending (u32 (n + 1)))
| u_retry n : ustep (Ending n) (Some (Req "BYE" n)) Over
| u_give_up n : ustep (Proceeding n) None Over
| u_hung_up n : ustep (Established n) None Over
| u_ended n : ustep (Ending n) None Over.

(** Runs, by what is visible of them. *)
Inductive runs : uas -> list wire -> uas -> Prop :=
| runs_nil u : runs u [] u
| runs_silent u u1 w u2 : ustep u None u1 -> runs u1 w u2 -> runs u w u2
| runs_cons u x u1 w u2 : ustep u (Some x) u1 -> runs u1 w u2 -> runs u (x :: w) u2.

#[export] Hint Constructors ustep runs : go.

Lemma runs_app u w1 u1 w2 u2 : runs u w1 u1 -> runs u1 w2 u2 -> runs u (w1 ++ w2) u2.
Proof. induction 1; cbn [app]; eauto with go. Qed.

Lemma runs_one u x u' : ustep u (Some x) u' -> runs u [x] u'.
Proof. eauto with go. Qed.

(** ** Abstraction *)

(** What an effect of the dialog puts on the wire. *)
Definition wireOf (e : DEffect) : option wire :=
  match e with
  | DRespond code _ _ sent => Some (if sent then Resp code else Unsent code)
  | DRequest method cseq _ => Some (Req method cseq)
  | _ => None
  end.

Definition wires (t : list DEffect) : list wire := omap wireOf t.

Definition abs (s : sipInbound) : uas :=
  if inviteTx s then Proceeding (nextRequestCSeq s)
  else match inviteOk s with Some _ => Established (nextRequestCSeq s) | None => Over end.

(** The states of a dialog: pending, established or over. *)
Definition wfDialog (s : sipInbound) : Prop :=
  (inviteTx s = true -> inviteOk s = None /\ hasInvite s = true) /\ (is_Some (inviteOk s) -> hasInvite s = true) /\
  (hasInvite s = true -> inviteTx s = true \/ is_Some (inviteOk s)).

(** ** Simulation *)
Definition simulates (s : sipInbound) (t : list DEffect) (s' : sipInbound) : Prop :=
  wfDialog s -> wfDialog s' /\ runs (abs s) (wires t) (abs s').

#[export] Instance simulates_rel : TraceRel simulates.
Proof.
  split; unfold simulates.
  - intros s Hw. split; [done | apply runs_nil].
  - intros s1 t1 s2 t2 s3 H1 H2 Hw. destruct (H1 Hw) as [Hw2 R1]. destruct (H2 Hw2) as [Hw3 R2].
    split; [done|]. unfold wires. rewrite omap_app. by eapply runs_app.
Qed.

(** Steps that neither send anything nor change the dialog. *)
Definition inner (s : sipInbound) (t : list DEffect) (s' : sipInbound) : Prop :=
  dialogState s' = dialogState s /\ wires t = [].

#[export] Instance inner_rel : TraceRel inner.
Proof.
  split; unfold inner; [done|]. intros s1 t1 s2 t2 s3 [E1 W1] [E2 W2]. unfold wires in *. rewrite omap_app, W1, W2.
  split; [congruence | done].
Qed.

Lemma inner_simulates s t s' : inner s t s' -> simulates s t s'.
Proof.
  intros [E W] Hw. rewrite W. unfold dialogState in E. injection E as E1 E2 E3 E4.
  unfold wfDialog, abs in *. rewrite E1, E2, E3, E4. split; [done | apply runs_nil].
Qed.

Lemma inner_mrel {A} (m : M sipInbound DEffect A) : mrel inner m -> mrel simulates m.
Proof. intros Hm s. specialize (Hm s). unfold mspec in *. destruct (m s) as [[a s'] t]. by apply inner_simulates. Qed.

Section methods.

Lemma emit_inner ev : mrel inner (emit ev).
Proof. unfold emit. repeat rel_step; done. Qed.

Lemma setLastStatus_inner code reason : mrel inner (setLastStatus code reason).
Proof. unfold setLastStatus. repeat rel_step. by repeat case_match. Qed.

Lemma emitRejected_inner now status reason : mrel inner (emitRejected now status reason).
Proof. unfold emitRejected. repeat rel_step. apply emit_inner. Qed.

Lemma stopRinging_inner : mrel inner stopRinging.
Proof. unfold stopRinging. repeat rel_step; done. Qed.

Lemma AcceptAck_inner now cseq : mrel inner (AcceptAck now cseq).
Proof. unfold AcceptAck. repeat first [apply emit_inner | rel_step]; done. Qed.

Lemma ringCancel_inner now : mrel inner (ringCancel now).
Proof. unfold ringCancel. repeat first [apply emit_inner | rel_step]; done. Qed.

(** The write of a response: what is on the wire is the response, if there is a
    transaction to write it to. *)
Definition written (s : sipInbound) (status : Z) (sent : bool) : list wire :=
  if inviteTx s then [if sent then Resp status else Unsent status] else [].

Definition writes (status : Z) (sent : bool) (s : sipInbound) (t : list DEffect) (s' : sipInbound) : Prop :=
  dialogState s' = dialogState s /\ wires t = written s status sent.

Lemma mspec_inner {A} (m : M sipInbound DEffect A) s (Q : A -> sipInbound -> list DEffect -> Prop) :
  mrel inner m -> (forall a s' t, inner s t s' -> Q a s' t) -> mspec m s Q.
Proof. intros Hm HQ. eapply mspec_mono; [apply Hm|]. cbv beta. eauto. Qed.

Lemma respondWithData_writes now sent status reason body :
  mrel (writes status sent) (respondWithData now sent status reason body).
Proof.
  intros s. unfold respondWithData, writes, written. mstep. mstep. destruct (inviteTx s); cbn [negb]; [|by mstep].
  mstep. mstep. destruct sent; cbn [negb]; [|by mstep].
  mstep. apply mspec_inner; [apply setLastStatus_inner|]. intros _ s1 t1 [E1 W1].
  mstep. apply mspec_inner; [apply emitRejected_inner|]. intros _ s2 t2 [E2 W2]. mstep.
  unfold wires in *. rewrite !omap_app, W1, W2. split; [congruence | done].
Qed.

Lemma respond_writes now sent status reason : mrel (writes status sent) (respond now sent status reason).
Proof. apply respondWithData_writes. Qed.

Lemma provisional_simulates now sent status reason :
  100 <= status < 200 -> mrel simulates (respond now sent status reason).
Proof.
  intros Hs s. eapply mspec_mono; [apply respond_writes|]. cbv beta. intros _ s' t [E W] Hw.
  unfold dialogState in E. injection E as E1 E2 E3 E4. rewrite W. unfold wfDialog, abs, written in *. rewrite E1, E2, E3, E4.
  split; [done|]. destruct (inviteTx s); [|apply runs_nil]. apply runs_one. destruct sent; eauto with go.
Qed.

(** [drop] ends the dialog. *)
Lemma drop_run s : mspec drop s (fun _ s' t => wires t = [] /\ wfDialog s' /\ abs s' = Over).
Proof.
  unfold drop. mstep. apply mspec_inner; [apply stopRinging_inner|]. intros _ s1 t1 [_ W1]. repeat mstep;
  (unfold wires in *; rewrite !omap_app, W1; split; [done|]; split; [|done]; split_and!; [done | by intros [? ?] | done]).
Qed.

Lemma runs_over s : wfDialog s -> runs (abs s) [] Over.
Proof. intros _. unfold abs. destruct (inviteTx s), (inviteOk s); eauto with go. Qed.

Lemma drop_simulates : mrel simulates drop.
Proof.
  intros s. eapply mspec_mono; [apply drop_run|]. cbv beta. intros _ s' t (W & Hw' & Ha) Hw.
  split; [done|]. rewrite W, Ha. by apply runs_over.
Qed.

(** A response that is written and followed by [drop]. *)
Lemma written_over s status sent : wfDialog s -> 300 <= status -> runs (abs s) (written s status sent) Over.
Proof.
  intros Hw Hs. unfold written. destruct (inviteTx s) eqn:E; [|by apply runs_over].
  unfold abs. rewrite E. destruct sent; [by apply runs_one; constructor|]. eauto with go.
Qed.

Lemma writes_drop {A B} (m : M sipInbound DEffect A) (k : unit -> M sipInbound DEffect B) status sent : 300 <= status ->
  mrel (writes status sent) m -> mrel inner (k tt) -> mrel simulates (mbind' m (fun _ => mbind' drop k)).
Proof.
  intros Hs Hm Hk s. mstep. eapply mspec_mono; [apply Hm|]. cbv beta. intros _ s1 t1 [E1 W1].
  mstep. eapply mspec_mono; [apply drop_run|]. cbv beta. intros [] s2 t2 (W2 & Hw2 & Ha).
  apply mspec_inner; [apply Hk|]. intros _ s3 t3 [E3 W3] Hw.
  unfold dialogState in E3. injection E3 as F1 F2 F3 F4. unfold wires in *.
  rewrite !omap_app, W1, W2, W3, !app_nil_r. replace (abs s3) with Over by (rewrite <- Ha; unfold abs; by rewrite F1, F3, F4).
  split; [|by apply written_over]. unfold wfDialog in *. by rewrite F1, F2, F3.
Qed.

Lemma bind_drop_simulates {A} (m : M sipInbound DEffect A) status sent : 300 <= status ->
  mrel (writes status sent) m -> mrel simulates (mbind' m (fun _ => drop)).
Proof.
  intros Hs Hm s. pose proof (writes_drop m (fun _ => mreturn tt) status sent Hs Hm (mrel_ret _ _) s) as Hd.
  unfold mspec, mbind', mreturn in *. destruct (m s) as [[a s1] t1]. destruct (drop s1) as [[[] s2] t2].
  by rewrite app_nil_r in Hd.
Qed.

Lemma RespondAndDrop_simulates cache now sent status reason :
  300 <= status -> mrel simulates (RespondAndDrop cache now sent status reason).
Proof.
  intros Hs. unfold RespondAndDrop. apply mrel_bind; [apply _|apply inner_mrel, stopRinging_inner|intros _].
  eapply writes_drop; [exact Hs | apply respond_writes|]. repeat rel_step; done.
Qed.

Lemma Processing_simulates now sent : mrel simulates (Processing now sent).
Proof.
  unfold Processing. repeat first [apply provisional_simulates; lia | rel_step].
  all: apply inner_simulates; done.
Qed.

Lemma StartRinging_simulates now sent : mrel simulates (StartRinging now sent).
Proof.
  unfold StartRinging. repeat first [apply provisional_simulates; lia | rel_step].
  all: apply inner_simulates; done.
Qed.

Lemma ringTick_simulates now sent : mrel simulates (ringTick now sent).
Proof. unfold ringTick. repeat first [apply provisional_simulates; lia | rel_step]. Qed.

Lemma AcceptBye_simulates : mrel simulates AcceptBye.
Proof.
  unfold AcceptBye. rel_step; [|apply drop_simulates]. apply inner_mrel. by rel_step.
Qed.

Lemma sendStatus_simulates now sent result :
  res_Code result = 0 \/ 300 <= res_Code result -> mrel simulates (sendStatus now sent result).
Proof.
  intros Hr s. unfold sendStatus. mstep. mstep. destruct (inviteOk s) eqn:Eok; [mstep; apply (tr_refl (R := simulates))|].
  destruct (inviteTx s) eqn:Etx; cbn [negb]; [|mstep; apply (tr_refl (R := simulates))].
  set (r := Result_NewResponse result). assert (300 <= or_Code r) as Hc by (cbn; case_match; lia).
  mstep. mstep. mstep. apply mspec_inner.
  { apply mrel_when; [apply _|]. rel_step; [apply setLastStatus_inner | apply emitRejected_inner]. }
  intros _ s1 t1 [E1 W1]. eapply mspec_mono; [apply drop_run|]. cbv beta. intros _ s2 t2 (W2 & Hw2 & Ha) Hw.
  split; [done|]. unfold wires in *. rewrite !omap_app, W1, W2, Ha, !app_nil_r, app_nil_l. cbn [omap list_omap wireOf].
  pose proof (written_over s (or_Code r) sent Hw Hc) as Hv. unfold written in Hv. by rewrite Etx in Hv.
Qed.

(** What the states with a 200 OK are. *)
Lemma established s : wfDialog s -> is_Some (inviteOk s) ->
  abs s = Established (nextRequestCSeq s) /\ hasInvite s = true /\ inviteTx s = false.
Proof.
  intros (H1 & H2 & _) Hs. pose proof (H2 Hs). destruct Hs as [r E]. unfold abs. destruct (inviteTx s).
  - by rewrite (proj1 (H1 eq_refl)) in E.
  - by rewrite E.
Qed.

Lemma sendBye_simulates p e : mrel simulates (sendBye_inbound p e).
Proof.
  intros s. unfold sendBye_inbound. mstep. mstep.
  destruct (inviteOk s) as [ok|] eqn:Eok; [|mstep; apply (tr_refl (R := simulates))].
  destruct (hasInvite s) eqn:Einv; cbn [negb]; [|mstep; apply (tr_refl (R := simulates))].
  unfold takeCSeq. mstep. mstep. mstep. mstep. mstep. mstep. destruct (swapSrcDst (legTr s) p) as [dest fallback].
  mstep. eapply mspec_mono; [apply drop_run|]. cbv beta. intros _ s1 t1 (W1 & Hw1 & Ha1).
  mstep. mstep. cbv zeta.
  assert (forall w s2, wfDialog s -> inner s1 w s2 -> wfDialog s2 /\ abs s2 = Over /\ wires w = []) as Hin.
  { intros w s2 _ [E W]. unfold dialogState in E. injection E as F1 F2 F3 F4. unfold wfDialog, abs in *. by rewrite F1, F2, F3, F4. }
  assert (wfDialog s -> abs s = Established (nextRequestCSeq s)) as Hes by (intros Hw; by apply established; [|eexists]).
  case_match.
  - mstep. mstep. case_match; [repeat case_match|]; apply mspec_inner; try apply emit_inner; intros _ s2 t2 Hi Hw;
      destruct (Hin _ _ Hw Hi) as (Hw2 & Ha2 & W2); (split; [done|]); unfold wires in *;
      rewrite !omap_app, W1, W2, Ha2, (Hes Hw); cbn; eauto with go.
  - apply mspec_inner; [apply emit_inner|]. intros _ s2 t2 Hi Hw. destruct (Hin _ _ Hw Hi) as (Hw2 & Ha2 & W2).
    split; [done|]. unfold wires in *. rewrite !omap_app, W1, W2, Ha2, (Hes Hw). cbn. eauto with go.
Qed.

Lemma CloseWithStatus_simulates now sent p e result :
  res_Code result = 0 \/ 300 <= res_Code result -> mrel simulates (CloseWithStatus now sent p e result).
Proof.
  intros Hr. unfold CloseWithStatus.
  repeat first [apply sendBye_simulates | by apply sendStatus_simulates | apply drop_simulates | rel_step].
Qed.

(** The 200 OKs of the loop: repeated until it ends, or until a write fails. *)
Definition answers (res : AcceptResult) (w : list wire) : Prop :=
  exists k, match res with
            | AcceptDone _ => w = repeat (Resp 200) (S k)
            | AcceptWriteError => w = repeat (Resp 200) k ++ [Unsent 200]
            | AcceptOutOfFuel => True
            end.

Lemma answers_again res w : answers res w -> answers res (Resp 200 :: w).
Proof. intros [k Hk]. exists (S k). destruct res; cbn; by rewrite ?Hk. Qed.

Lemma acceptLoop_answers fuel env r w mx : or_Code r = 200 -> forall try ra waited s,
  mspec (acceptLoop fuel env r w mx try ra waited) s (fun res s' t =>
    dialogState s' = dialogState s /\ answers res.1 (wires t)).
Proof.
  intros Hr. induction fuel as [|fuel IH]; intros try ra waited s; [by split; [|exists 0%nat]|].
  destruct (acceptLoop_unfold fuel env r w mx try ra waited s) as (s1 & [Q1 _ _ _ _] & _ & s2 & [Q2 _ _ _ _] & _ & E).
  unfold mspec. rewrite E. clear E. cbv zeta. destruct (te_sent (env try)) eqn:Es; cbn [negb].
  2: { split; [done|]. exists 0%nat. cbn. by rewrite Hr. }
  assert (forall err, answers (AcceptDone err) (wires [DRespond (or_Code r) (or_Reason r) (or_Body r) true])) as Hone.
  { intros err. exists 0%nat. cbn. by rewrite Hr. }
  destruct (_ || _); [split; [done | apply Hone]|]. destruct (te_out (env try)) as [|now|]; [split; [done | apply Hone]| |].
  - pose proof (AcceptAck_inner now (Some (inviteCSeq s2)) s2) as Hi. unfold mspec in Hi. unfold state_of, trace_of.
    destruct (AcceptAck now (Some (inviteCSeq s2)) s2) as [[[] s3] t3]. destruct Hi as [E3 W3]. cbn [fst snd].
    split; [congruence|]. unfold wires in *. cbn. rewrite W3, Hr. by exists 0%nat.
  - destruct (mx <? Z.of_nat try); [split; [done | apply Hone]|].
    specialize (IH (S try) (Z.min (ra * 2) inviteOkRetryIntervalMax) (waited + ra) s2). unfold mspec in IH.
    unfold result_of, state_of, trace_of. destruct (acceptLoop fuel env r w mx (S try) _ _ s2) as [[res s3] t3].
    destruct IH as [E3 A3]. cbn [fst snd]. split; [congruence|]. unfold wires in *. cbn. rewrite Hr. by apply answers_again.
Qed.

Lemma runs_answers n k : runs (Proceeding n) (repeat (Resp 200) (S k)) (Answered n).
Proof.
  cbn. eapply runs_cons; [apply u_answer|]. induction k as [|k IH]; [constructor|]. cbn. eapply runs_cons; [apply u_again | exact IH].
Qed.

Lemma runs_lost n k : runs (Proceeding n) (repeat (Resp 200) k ++ [Unsent 200]) (Proceeding n).
Proof.
  destruct k as [|k]; [cbn; eauto with go|]. eapply runs_app; [apply runs_answers|]. eauto with go.
Qed.

Lemma Accept_simulates env sdp w : mrel simulates (Accept env sdp w).
Proof.
  intros s. unfold Accept. mstep. mstep. destruct (inviteTx s) eqn:Etx; cbn [negb]; [|mstep; apply (tr_refl (R := simulates))].
  mstep. mstep. mstep. apply mspec_inner; [apply stopRinging_inner|]. intros _ s1 t1 [E1 W1].
  pose proof (acceptRetries_facts env sdp w s1 (legTr s)) as (b & n & [Hfuel _ _ _ _ _] & _ & _).
  assert (mspec (acceptRetries env (ok200 sdp) w (legTr s)) s1 (fun res s' t =>
    dialogState s' = dialogState s1 /\ answers res.1 (wires t))) as Ha.
  { unfold acceptRetries. destruct (acceptParams (legTr s) w) as [mx ra]. by apply acceptLoop_answers. }
  mstep. change (newResponse 200 "" sdp) with (ok200 sdp). unfold mspec in Ha. unfold mspec at 1.
  unfold result_of in Hfuel. destruct (acceptRetries env (ok200 sdp) w (legTr s) s1) as [[res s2] t2]. cbn [fst] in Hfuel.
  destruct Ha as [E2 [k A2]]. rewrite E1 in E2. unfold dialogState in E2. injection E2 as F1 F2 F3 F4.
  unfold acceptFinish. destruct res.1 eqn:Eres; [| |done]; repeat mstep; intros Hw;
    unfold wires in *; rewrite !omap_app, W1, A2, !app_nil_r; cbn [omap list_omap app];
    pose proof (proj1 Hw Etx) as Hn.
  - split; [unfold wfDialog in *; by rewrite F1, F2, F3|]. unfold abs. rewrite F1, F4. cbn. rewrite Etx. apply runs_lost.
  - split; [split_and!; cbn; [done | intros _; by rewrite F2, (proj2 Hn) | by right; eexists]|]. unfold abs. cbn. rewrite F4, Etx.
    rewrite <- (app_nil_r (_ :: _)). change (Resp 200 :: repeat (Resp 200) k) with (repeat (Resp 200) (S k)).
    eapply runs_app; [apply runs_answers|]. cbn. eauto with go.
Qed.
End methods.

(** ** The language of the specification *)

(** Requests with consecutive sequence numbers. *)
Fixpoint numbered (n : Z) (methods : list string) : list wire :=
  match methods with [] => [] | m :: l => Req m n :: numbered (u32 (n + 1)) l end.

Definition early (x : wire) : Prop :=
  match x with Resp c => 100 <= c < 200 | Unsent _ => True | Req _ _ => False end.

(** A dialog: transfers, then a BYE and perhaps its retry. *)
Definition conversation (n : Z) (w : list wire) : Prop :=
  exists r b, (b <= 2)%nat /\ w = numbered n (repeat "REFER" r ++ repeat "BYE" b).

(** A call: provisional responses, then nothing more, or one rejection, or a 200 OK that
    may be repeated and the dialog it opens. *)
Definition callLife (n : Z) (w : list wire) : Prop :=
  exists p q, w = p ++ q /\ Forall early p /\
    (q = [] \/ (exists c, 300 <= c /\ q = [Resp c]) \/
     (exists k d, q = repeat (Resp 200) (S k) ++ d /\ conversation n d)).

Definition lifeFrom (u : uas) (w : list wire) : Prop :=
  match u with
  | Proceeding n => callLife n w
  | Answered n => exists k d, w = repeat (Resp 200) k ++ d /\ conversation n d
  | Established n => conversation n w
  | Ending n => exists b, (b <= 1)%nat /\ w = numbered n (repeat "BYE" b)
  | Over => w = []
  end.

Lemma early_life n x w : early x -> callLife n w -> callLife n (x :: w).
Proof. intros Hx (p & q & -> & Hp & Hq). exists (x :: p), q. split; [done|]. split; [by constructor | done]. Qed.

Lemma runs_life u w u' : runs u w u' -> Unsent 200 ∉ w -> lifeFrom u w.
Proof.
  induction 1 as [u|u u1 w u2 Hs _ IH|u x u1 w u2 Hs _ IH]; intros Hn.
  - destruct u; cbn; [by exists [], []; auto|by exists 0%nat, []; split; [|exists 0%nat, 0%nat; split; [lia|]]
                     |by exists 0%nat, 0%nat; split; [lia|]|by exists 0%nat; split; [lia|]|done].
  - specialize (IH Hn). inversion Hs; subst; cbn in *.
    + by exists 0%nat, w.
    + subst w. exists [], []. auto.
    + subst w. exists 0%nat, 0%nat. split; [lia | done].
    + subst w. exists 0%nat. split; [lia | done].
  - assert (Unsent 200 ∉ w) as Hw by (intros ?; apply Hn; by right). specialize (IH Hw).
    inversion Hs; subst; cbn in *.
    + by apply early_life.
    + by apply early_life.
    + subst w. exists [], [Resp c]. split; [done|]. split; [constructor|]. right. left. eauto.
    + destruct IH as (k & d & -> & Hd). exists [], (Resp 200 :: repeat (Resp 200) k ++ d).
      split; [done|]. split; [constructor|]. right. right. by exists k, d.
    + destruct IH as (k & d & -> & Hd). by exists (S k), d.
    + destruct Hn. left.
    + destruct IH as (r & b & Hb & ->). by exists (S r), b.
    + destruct IH as (b & Hb & ->). exists 0%nat, (S b). split; [lia | done].
    + subst w. exists 1%nat. split; [lia | done].
Qed.

(** ** REFERs: made, and sent later *)

(** The messages in the order in which they are made. *)
Definition madeOf (e : DEffect) : option wire :=
  match e with
  | DGo cseq _ => Some (Req "REFER" cseq)
  | DRequest method _ _ => if String.eqb method "REFER" then None else wireOf e
  | _ => wireOf e
  end.

Definition mades (t : list DEffect) : list wire := omap madeOf t.

Definition isRefer (x : wire) : bool := match x with Req m _ => String.eqb m "REFER" | _ => false end.

Definition refersOf : list wire -> list Z :=
  omap (fun x => match x with Req m c => if String.eqb m "REFER" then Some c else None | _ => None end).

(** On the wire, everything but the REFERs is in the order in which it was made, and each REFER
    that was made is sent at most once. *)
Definition delayed (made w : list wire) : Prop :=
  List.filter (fun x => negb (isRefer x)) w = List.filter (fun x => negb (isRefer x)) made /\
  refersOf w ⊆+ refersOf made.

(** What a step does with the REFERs that are waiting to be sent. *)
Definition delayR (s : sipInbound) (t : list DEffect) (s' : sipInbound) : Prop :=
  exists lost, si_refers s ++ refersOf (mades t) ≡ₚ refersOf (wires t) ++ lost ++ si_refers s'.

#[export] Instance delayR_rel : TraceRel delayR.
Proof.
  split; unfold delayR.
  - intros s. exists []. cbn. by rewrite app_nil_r.
  - intros s1 t1 s2 t2 s3 [l1 H1] [l2 H2]. exists (l1 ++ l2). unfold mades, wires, refersOf in *.
    rewrite !omap_app, app_assoc, H1, <- !app_assoc, H2. f_equiv. apply Permutation_app_swap_app.
Qed.

(** Methods that have nothing to do with REFERs. *)
Definition noRefer (e : DEffect) : Prop :=
  match e with DGo _ _ => False | DRequest m _ _ => m <> "REFER" | _ => True end.

Definition noRefers (s : sipInbound) (t : list DEffect) (s' : sipInbound) : Prop :=
  si_refers s' = si_refers s /\ Forall noRefer t.

#[export] Instance noRefers_rel : TraceRel noRefers.
Proof.
  split; unfold noRefers; [done|]. intros s1 t1 s2 t2 s3 [E1 F1] [E2 F2]. split; [congruence | by apply Forall_app].
Qed.

Lemma noRefers_made s t s' : noRefers s t s' -> mades t = wires t /\ delayR s t s'.
Proof.
  intros [E F]. assert (mades t = wires t /\ refersOf (wires t) = []) as [Hm Hr].
  { clear E. unfold mades, wires, refersOf. induction F as [|e t He _ [I1 I2]]; [done|].
    destruct e; cbn; rewrite ?I1; try done; [by destruct sent|]. cbn in He.
    by destruct (String.eqb_spec method "REFER"). }
  split; [done|]. exists []. rewrite Hm, Hr, E. cbn. by rewrite app_nil_r.
Qed.

(** A method and the messages it makes. *)
Definition simMade (s : sipInbound) (t : list DEffect) (s' : sipInbound) : Prop :=
  (wfDialog s -> wfDialog s' /\ runs (abs s) (mades t) (abs s')) /\ delayR s t s'.

#[export] Instance simMade_rel : TraceRel simMade.
Proof.
  split; unfold simMade.
  - intros s. split; [|apply tr_refl]. intros Hw. split; [done | apply runs_nil].
  - intros s1 t1 s2 t2 s3 [H1 D1] [H2 D2]. split; [|by eapply tr_trans]. intros Hw.
    destruct (H1 Hw) as [Hw2 R1]. destruct (H2 Hw2) as [Hw3 R2].
    split; [done|]. unfold mades. rewrite omap_app. by eapply runs_app.
Qed.

Lemma simulates_made {A} (m : M sipInbound DEffect A) : mrel simulates m -> mrel noRefers m -> mrel simMade m.
Proof.
  intros Hm Hn s. eapply mspec_mono; [apply mspec_and; [apply Hm | apply Hn]|]. cbv beta. intros a s' t [S N].
  destruct (noRefers_made _ _ _ N) as [Hw Hd]. split; [|done]. rewrite Hw. exact S.
Qed.

Ltac norefer_step :=
  first [ done | lazymatch goal with
                 | |- noRefers _ _ _ => by (split; [done | repeat constructor])
                 | |- _ => rel_step
                 end ].

Section refers.
Lemma emit_noRefers ev : mrel noRefers (emit ev).
Proof. unfold emit. repeat norefer_step. Qed.

Lemma setLastStatus_noRefers code reason : mrel noRefers (setLastStatus code reason).
Proof. unfold setLastStatus. repeat norefer_step. by repeat case_match. Qed.

Lemma stopRinging_noRefers : mrel noRefers stopRinging.
Proof. unfold stopRinging. repeat norefer_step. Qed.

Lemma drop_noRefers : mrel noRefers drop.
Proof. unfold drop. repeat first [apply stopRinging_noRefers | norefer_step]. Qed.

Lemma respondWithData_noRefers now sent status reason body : mrel noRefers (respondWithData now sent status reason body).
Proof.
  unfold respondWithData, emitRejected. repeat first [apply setLastStatus_noRefers | apply emit_noRefers | norefer_step].
Qed.

Lemma AcceptAck_noRefers now cseq : mrel noRefers (AcceptAck now cseq).
Proof. unfold AcceptAck. repeat first [apply emit_noRefers | norefer_step]. Qed.

Lemma acceptLoop_noRefers fuel env r w mx try ra waited : mrel noRefers (acceptLoop fuel env r w mx try ra waited).
Proof.
  revert try ra waited. induction fuel as [|fuel IH]; intros; cbn [acceptLoop];
    repeat first [apply setLastStatus_noRefers | apply AcceptAck_noRefers | apply IH | norefer_step].
Qed.

Lemma sendBye_noRefers p e : mrel noRefers (sendBye_inbound p e).
Proof. unfold sendBye_inbound, takeCSeq. repeat first [apply drop_noRefers | apply emit_noRefers | norefer_step]. Qed.

Lemma newReferReq_made f p : mrel simMade (newReferReq f p).
Proof.
  intros s. unfold newReferReq. mstep. mstep.
  destruct (hasInvite s) eqn:Einv; cbn [negb orb]; [|mstep; apply (tr_refl (R := simMade))].
  destruct (inviteOk s) as [ok|] eqn:Eok; [|mstep; apply (tr_refl (R := simMade))].
  destruct f; cbn [negb]; [|mstep; apply (tr_refl (R := simMade))].
  unfold takeCSeq. repeat mstep. split.
  - intros Hw. destruct (established s Hw) as (Ha & _ & Htx); [by eexists|].
    split; [unfold wfDialog in *; cbn; rewrite ?Htx, ?Eok in *; by intuition|].
    rewrite Ha. unfold abs; cbn; rewrite ?Htx, ?Eok; eauto with go.
  - exists []. done.
Qed.

Lemma referSend_made cseq dest refer wait : mrel simMade (referSend cseq dest refer wait).
Proof.
  intros s. unfold referSend. mstep. mstep. destruct (removeOne cseq (si_refers s)) as [rest|] eqn:E; [|mstep; apply (tr_refl (R := simMade))].
  apply removeOne_perm in E. mstep. mstep. mstep.
  destruct refer as [err|script]; repeat mstep; repeat case_match; mstep; (split; [intros Hw; split; [exact Hw | apply runs_nil]|]).
  all: first [ exists [cseq]; cbn; by rewrite app_nil_r | exists []; cbn; by rewrite app_nil_r ].
Qed.
End refers.

(** From a state in which no REFER waits to be sent. *)
Lemma delayR_delayed s t s' : si_refers s = [] -> delayR s t s' -> delayed (mades t) (wires t).
Proof.
  intros Hs [lost Hp]. rewrite Hs in Hp. cbn in Hp. split.
  - clear. unfold mades, wires. induction t as [|e t IH]; [done|]. destruct e; cbn; try (by rewrite ?IH).
    destruct (String.eqb method "REFER") eqn:E; cbn; rewrite ?E; cbn; by rewrite IH.
  - rewrite Hp. by apply submseteq_inserts_r.
Qed.

(** ** Refinement *)
Lemma runDOp_made o : opOK o -> mrel simMade (runDOp o).
Proof.
  intros Ho. destruct o; cbn [runDOp opOK] in *;
    try (rel_step; [first [apply newReferReq_made | apply referSend_made] | rel_step]; fail);
    (apply simulates_made;
     [ repeat first
         [ apply Processing_simulates | apply StartRinging_simulates | apply ringTick_simulates
         | apply inner_mrel, ringCancel_inner | apply inner_mrel, AcceptAck_inner | apply Accept_simulates
         | apply AcceptBye_simulates | by apply RespondAndDrop_simulates | by apply CloseWithStatus_simulates | rel_step ]
     | unfold Processing, StartRinging, ringTick, ringCancel, Accept, acceptRetries, acceptFinish, AcceptBye, RespondAndDrop,
         CloseWithStatus, sendStatus, respond, emitRejected;
       repeat first
         [ apply respondWithData_noRefers | apply setLastStatus_noRefers | apply stopRinging_noRefers | apply emit_noRefers
         | apply AcceptAck_noRefers | apply acceptLoop_noRefers | apply drop_noRefers | apply sendBye_noRefers | norefer_step ] ]).
Qed.

Lemma runDOps_made l : Forall opOK l -> mrel simMade (runDOps l).
Proof.
  induction 1 as [|o l Ho _ IH]; cbn [runDOps]; [apply mrel_ret, _|].
  apply mrel_bind; [apply _|by apply runDOp_made|done].
Qed.

Lemma newInbound_wf cached freshID invite s : newInbound cached freshID invite = inr s ->
  wfDialog s /\ abs s = Proceeding (nextRequestCSeq s).
Proof.
  unfold newInbound. repeat case_match; intros; simplify_eq; (split; [split_and!; [done | by intros [? ?] | by left] | done]).
Qed.

(** C12: The inbound dialog refines the specification.  Whatever methods are called on it in
    whatever order, whenever the goroutines of its transfers send their REFERs, and with any
    outcome of every write, ACK and BYE, what it makes is a run of the user agent server, from
    a pending INVITE to the state that the dialog's fields stand for; the wire differs from it
    only in that a REFER may come later than it was made, or not at all.  In particular,
    unless the write of a 200 OK fails: after provisional responses there is nothing more, or
    one rejection and nothing after it, or 200 OKs followed only by REFERs and then at most two
    BYEs, which are made with consecutive sequence numbers from that of the dialog. *)
Theorem inbound_refines_uas cached freshID invite s l :
  newInbound cached freshID invite = inr s -> Forall opOK l ->
  let r := runDOps l s in
  let made := mades (trace_of r) in
  runs (Proceeding (nextRequestCSeq s)) made (abs (state_of r)) /\ delayed made (wires (trace_of r)) /\
  (Unsent 200 ∉ made -> callLife (nextRequestCSeq s) made).
Proof.
  intros Hs Hl r made. destruct (newInbound_wf _ _ _ _ Hs) as [Hw Ha].
  assert (si_refers s = []) as Hn by (unfold newInbound in Hs; repeat case_match; by simplify_eq).
  pose proof (runDOps_made l Hl s) as Hr. unfold mspec in Hr. subst made r.
  destruct (runDOps l s) as [[[] s'] t]. destruct Hr as [Hr Hd]. destruct (Hr Hw) as [_ Hrun]. rewrite Ha in Hrun.
  cbn [state_of trace_of fst snd]. split; [exact Hrun|]. split; [by apply (delayR_delayed s t s')|].
  by apply (runs_life _ _ _ Hrun).
Qed.

(** A REFER that is made before the hangup and sent after it. *)
Definition exCall : list DOp :=
  [OProcessing 1 true; ORing 2 true; OAccept (exTries true) "v=0" true;
   OReferReq true exPeer; OClose 9 true exPeer exByeEnv busy; OReferSend 8 "10.0.0.1:5060" (inr []) None].

Lemma inbound_refines_uas_witness :
  let made := mades (trace_of (runDOps exCall exDialog)) in
  let w := wires (trace_of (runDOps exCall exDialog)) in
  made = [Resp 100; Resp 180] ++ repeat (Resp 200) 6 ++ [Req "REFER" 8; Req "BYE" 9] /\
  w = [Resp 100; Resp 180] ++ repeat (Resp 200) 6 ++ [Req "BYE" 9; Req "REFER" 8] /\
  runs (Proceeding 8) made Over /\ delayed made w /\ callLife 8 made.
Proof.
  assert (Forall opOK exCall) as Ho.
  { repeat (constructor; [first [exact I | right; vm_compute; discriminate]|]). constructor. }
  destruct (inbound_refines_uas (fun _ _ => None) "SCL_1" exInvite exDialog exCall eq_refl Ho) as (Hr & Hd & Hl).
  assert (mades (trace_of (runDOps exCall exDialog)) =
          [Resp 100; Resp 180] ++ repeat (Resp 200) 6 ++ [Req "REFER" 8; Req "BYE" 9]) as E by (vm_compute; reflexivity).
  split; [exact E|]. split; [vm_compute; reflexivity|]. split; [exact Hr|]. split; [exact Hd|]. apply Hl. rewrite E. cbn. intros Hin.
  repeat (apply elem_of_cons in Hin as [Hin|Hin]; [discriminate|]). by apply elem_of_nil in Hin.
Defined.
