(* ===== verification/SipOutbound.v ===== *)
(** * The dialog of an outbound call

    [sipOutbound] of [pkg/sip/outbound.go]: the INVITE with its authentication
    retries, the ACK, BYE and REFER of the dialog, and the watch for an answer that
    races a CANCEL.  As for inbound dialogs, a method is a function of the state
    that lists its effects, and the network is its argument: for every attempt, the
    outcome of creating the transaction and the script of what it receives.

    A method that holds [c.mu] to its end is one step.  Two things happen outside the
    lock and later, in goroutines of their own: the REFER of a transfer is made and
    numbered under the lock and sent after it is released, and the watch of a
    cancelled INVITE acknowledges and hangs up an answer that comes late.  What these
    goroutines still have to do is part of the state ([so_refers], [so_watch]), and
    their steps are operations of their own ([sendReferO], [watchLate]). *)

From stdpp Require Import base tactics list sets strings option.
From Stdlib Require Import ZArith Lia.
From S2P Require Import Prelude GoStd GoErr Participant Errors Types Protocol CallState.
Import strings.

(** ** State *)
Record sipOutbound := {
  callID : string;
  so_tag : string;
  so_invite : option Z;          (* c.invite, by its CSeq *)
  so_inviteOk : bool;            (* c.inviteOk is not nil *)
  nextCSeq : Z;
  so_referCseq : Z;
  latestInviteCSeq : Z;
  provisionalSeen : list Z;
  finalStatus : Z;
  so_refers : list Z;            (* REFERs that were made and are not sent yet *)
  so_watch : list Z;             (* cancelled INVITEs that are watched *)
}.

Definition newOutbound (callID : string) : sipOutbound :=
  {| callID := callID; so_tag := ""; so_invite := None; so_inviteOk := false; nextCSeq := 1;
     so_referCseq := 0; latestInviteCSeq := 0; provisionalSeen := []; finalStatus := 0;
     so_refers := []; so_watch := [] |}.

Inductive OEffect :=
| OInvite (cseq : Z) (auth : option (string * string))    (* INVITE sent, with its auth header *)
| OTxCancel                                               (* tx.Cancel() *)
| OTerminate                                              (* tx.Terminate() *)
| OWatch (cseq : Z)                                       (* handed to watchCancelledInvite *)
| OSetState (code : Z)                                    (* the setState callback *)
| OEmit (ev : SignalingEvent)
| OAck (cseq : Z)
| OBye (cseq : Z) (waited : bool)
| OCancelReq (cseq : Z)
| OGo (cseq : Z)                                          (* a REFER was made, with its number *)
| ORefer (cseq : Z)                                       (* a REFER was sent *)
| OLateAck (cseq : Z)                                     (* sent by the watch of a cancelled INVITE *)
| OLateBye (cseq : Z)
| OReply (code : Z).

(** The digest library, as the client uses it. *)
Class DigestClient := {
  DigestChallenge : Type;
  ParseChallenge : string -> option DigestChallenge;
  (** challenge, method, URI, user name, password; the credentials header *)
  ClientDigest : DigestChallenge -> string -> string -> string -> string -> error + string;
}.

(** ** The watch of a cancelled INVITE

    What the background goroutine can receive, and what it sends when a 2xx
    arrives. *)
Inductive WatchEvent := WResponse (r : option Response) | WTxDone | WTimer.

Inductive WatchEffect := WAnswered (code : Z) | WAck | WBye | WTerminate.

Fixpoint watchCancelledInvite (script : list WatchEvent) : list WatchEffect * bool :=
  match script with
  | [] => ([], false)
  | WResponse None :: _ | WTxDone :: _ | WTimer :: _ => ([WTerminate], true)
  | WResponse (Some res) :: script' =>
      if Z.quot (StatusCode res) 100 =? 1 then watchCancelledInvite script'
      else if Z.quot (StatusCode res) 100 =? 2 then
        ([WAnswered (StatusCode res); WAck; WBye; WTerminate], true)
      else ([WTerminate], true)
  end.

Section dialog.
Open Scope go_scope.
Context `{DigestClient}.
Abbreviation OB := (M sipOutbound OEffect).

Definition set_dialog (inv : option Z) (ok : bool) (next : Z) (s : sipOutbound) : sipOutbound :=
  {| callID := callID s; so_tag := so_tag s; so_invite := inv; so_inviteOk := ok; nextCSeq := next;
     so_referCseq := so_referCseq s; latestInviteCSeq := latestInviteCSeq s;
     provisionalSeen := provisionalSeen s; finalStatus := finalStatus s;
     so_refers := so_refers s; so_watch := so_watch s |}.

Definition set_rest (tag : string) (refer latest : Z) (prov : list Z) (final : Z)
    (s : sipOutbound) : sipOutbound :=
  {| callID := callID s; so_tag := tag; so_invite := so_invite s; so_inviteOk := so_inviteOk s;
     nextCSeq := nextCSeq s; so_referCseq := refer; latestInviteCSeq := latest;
     provisionalSeen := prov; finalStatus := final;
     so_refers := so_refers s; so_watch := so_watch s |}.

Definition set_pending (refers watch : list Z) (s : sipOutbound) : sipOutbound :=
  {| callID := callID s; so_tag := so_tag s; so_invite := so_invite s; so_inviteOk := so_inviteOk s;
     nextCSeq := nextCSeq s; so_referCseq := so_referCseq s; latestInviteCSeq := latestInviteCSeq s;
     provisionalSeen := provisionalSeen s; finalStatus := finalStatus s;
     so_refers := refers; so_watch := watch |}.

Definition set_final (n : Z) (s : sipOutbound) : sipOutbound :=
  set_rest (so_tag s) (so_referCseq s) (latestInviteCSeq s) (provisionalSeen s) n s.
Definition set_tag (t : string) (s : sipOutbound) : sipOutbound :=
  set_rest t (so_referCseq s) (latestInviteCSeq s) (provisionalSeen s) (finalStatus s) s.
Definition add_provisional (n : Z) (s : sipOutbound) : sipOutbound :=
  set_rest (so_tag s) (so_referCseq s) (latestInviteCSeq s) (provisionalSeen s ++ [n])
    (finalStatus s) s.
Definition set_refer (n : Z) (s : sipOutbound) : sipOutbound :=
  set_rest (so_tag s) n (latestInviteCSeq s) (provisionalSeen s) (finalStatus s) s.
Definition add_refer (n : Z) (s : sipOutbound) : sipOutbound := set_pending (so_refers s ++ [n]) (so_watch s) s.
Definition add_watch (n : Z) (s : sipOutbound) : sipOutbound := set_pending (so_refers s) (so_watch s ++ [n]) s.

Definition RecordInvite (cseq : Z) : OB unit :=
  mmodify (fun s => if latestInviteCSeq s <? cseq
                    then set_rest (so_tag s) (so_referCseq s) cseq (provisionalSeen s)
                           (finalStatus s) s
                    else s).

(** [setCSeq]; a [uint32]. *)
Definition takeCSeqO : OB Z :=
  let* s := mget in
  do* mput (set_dialog (so_invite s) (so_inviteOk s) (u32 (nextCSeq s + 1)) s) in
  mreturn (nextCSeq s).

Definition dropO : OB unit := mmodify (set_dialog None false 0).

(** [emit]: the events are reported when the callback is set. *)
Definition emitEvent (ev : SignalingEvent) : OB unit := memit (OEmit ev).

(** *** One attempt *)

(** The callback given to [sipResponse]. *)
Definition onResponse (now cseq code : Z) : OB unit :=
  let* s := mget in
  do* mwhen ((code <? 200) && negb (bool_decide (code ∈ provisionalSeen s)))
        (do* mmodify (add_provisional code) in
         emitEvent (newEvent EventProvisionalReceived (Some now) "INVITE" code cseq "" "" "" 0)) in
  memit (OSetState code).

(** The effects of the response loop, in order. *)
Fixpoint replay (now cseq : Z) (l : list TxEffect) : OB unit :=
  match l with
  | [] => mreturn tt
  | TxCancel :: l' => do* memit OTxCancel in replay now cseq l'
  | TxOnResponse code :: l' => do* onResponse now cseq code in replay now cseq l'
  | TxTerminate :: l' => do* memit OTerminate in replay now cseq l'
  end.

(** The environment of an attempt: the clock, the transport of the request, and
    the transaction. *)
Record AttemptEnv := {
  ae_now : Z;
  ae_transport : string;
  ae_tx : error + list TxEvent;
}.

Inductive Attempt :=
| ABlocked                                   (* still waiting when the script ends *)
| AErr (err : error)
| AResp (cseq : Z) (resp : Response).

(** The header is added when the credentials are not empty. *)
Definition withAuth (authHeaderName authHeader : string) : option (string * string) :=
  if String.eqb authHeader "" then None else Some (authHeaderName, authHeader).

Definition attemptInvite (e : AttemptEnv) (authHeaderName authHeader : string) : OB Attempt :=
  let* cseq := takeCSeqO in
  match ae_tx e with
  | inl err => mreturn (AErr err)
  | inr script =>
      do* memit (OInvite cseq (withAuth authHeaderName authHeader)) in
      do* emitEvent (newEvent EventInviteSent (Some (ae_now e)) "INVITE" 0 cseq
                       (ToLower (ae_transport e)) "" "" 0) in
      match sipResponse true true 0 script with
      | (eff, None) => do* replay (ae_now e) cseq eff in mreturn ABlocked
      | (eff, Some r) =>
          do* replay (ae_now e) cseq eff in
          do* (if String.eqb (tx_cancelled r) "" then memit OTerminate
               else
                 do* emitEvent (newEvent EventCancelSent (Some (ae_now e)) "CANCEL" 0 cseq ""
                                  (tx_cancelled r) "" 0) in
                 do* mmodify (add_watch cseq) in
                 memit (OWatch cseq)) in
          mreturn (match tx_err r, tx_res r with
                   | Some err, _ => AErr err
                   | None, Some resp => AResp cseq resp
                   | None, None => ABlocked
                   end)
      end
  end.

(** *** The loop [authLoop] *)
Inductive InviteResult :=
| InvBlocked
| InvOutOfFuel
| InvErr (err : error) (last : option (Z * Response))   (* the error, and [req]/[resp] at return *)
| InvOk (cseq : Z) (resp : Response).

Definition statusError (resp : Response) (prefix : string) : error :=
  let st := sipStatusFromResponse resp in
  match carrierBlockFromResponse resp st with
  | Some blocked => EWrap "INVITE blocked by carrier: " blocked ""
  | None => EWrap prefix (ESIPStatus st) ""
  end.

(** The answer to a 401 or 407: the header to add to the next attempt, or the
    error to return. *)
Definition answerChallenge (user pass : string) (resp : Response) : error + (string * string) :=
  let '(authHeaderName, authHeaderRespName) :=
    if StatusCode resp =? 401 then ("WWW-Authenticate", "Authorization")
    else ("Proxy-Authenticate", "Proxy-Authorization") in
  if String.eqb user "" || String.eqb pass "" then
    inl (authError (ESentinel ErrAuthMissingCreds) (Some resp))
  else
    match GetHeader resp authHeaderName with
    | None => inl (authError (ESentinel ErrAuthNoHeader) (Some resp))
    | Some challengeStr =>
        match ParseChallenge challengeStr with
        | None => inl (NewErrorf Internal ("invalid challenge " +:+ fmt_q challengeStr))
        | Some challenge =>
            match resp_To resp with
            | None => inl (NewErrorf Internal "no 'To' header on Response")
            | Some (uri, _) =>
                match ClientDigest challenge "INVITE" uri user pass with
                | inl err => inl err
                | inr cred => inr (authHeaderRespName, cred)
                end
            end
        end
    end.

Definition isAuthStatus (code : Z) : bool := (code =? 401) || (code =? 407).

Definition answeredEvent (now : Z) (code cseq : Z) : SignalingEvent :=
  newEvent (if code =? 200 then EventAnsweredReceived else EventAuthChallenged) (Some now)
    "INVITE" code cseq "" "" "" 0.

Fixpoint authLoop (fuel : nat) (env : nat -> AttemptEnv) (user pass : string) (try : nat)
    (authHeaderRespName authHeader : string) (last : option (Z * Response)) : OB InviteResult :=
  match fuel with
  | O => mreturn InvOutOfFuel
  | S fuel' =>
      if (5 <=? try)%nat then
        mreturn (InvErr (authError (ESentinel ErrAuthMaxRetry) (snd <$> last)) last)
      else
        let* a := attemptInvite (env try) authHeaderRespName authHeader in
        match a with
        | ABlocked => mreturn InvBlocked
        | AErr err => mreturn (InvErr err None)
        | AResp cseq resp =>
            let code := StatusCode resp in
            do* mwhen (code =? 200) (mmodify (set_final code)) in
            do* mwhen ((code =? 200) || isAuthStatus code)
                  (emitEvent (answeredEvent (ae_now (env try)) code cseq)) in
            if code =? 200 then mreturn (InvOk cseq resp)
            else if isAuthStatus code then
              match answerChallenge user pass resp with
              | inl err => mreturn (InvErr err (Some (cseq, resp)))
              | inr (name, cred) =>
                  authLoop fuel' env user pass (S try) name cred (Some (cseq, resp))
              end
            else
              mreturn (InvErr (statusError resp
                (if (code =? 400) || (code =? 404) || (code =? 480) || (code =? 488) || (code =? 486)
                 then "INVITE failed: " else "unexpected status from INVITE response: "))
                (Some (cseq, resp)))
        end
  end.

(** Six passes are enough: the sixth finds [try = 5]. *)
Definition inviteFuel : nat := 6.

(** The deferred function of [Invite], for a call that returns an error. *)
Definition inviteDefer (now : Z) (last : option (Z * Response)) : OB unit :=
  match last with
  | None => mreturn tt
  | Some (cseq, resp) =>
      if StatusCode resp =? 200 then mreturn tt
      else
        do* mmodify (set_final (StatusCode resp)) in
        if StatusCode resp <? 300 then mreturn tt
        else emitEvent (newEvent EventFailed (Some now) "INVITE" (StatusCode resp) cseq ""
                          (messageCause (GetHeader resp "Reason")) "" 0)
  end.

(** [Invite]: [inr body] on success; [None] while it is still waiting.  [now] is
    the time of the last response. *)
Definition Invite (env : nat -> AttemptEnv) (now : Z) (user pass : string)
    : OB (option (error + string)) :=
  let* r := authLoop inviteFuel env user pass 0 "" "" None in
  match r with
  | InvBlocked | InvOutOfFuel => mreturn None
  | InvErr err last => do* inviteDefer now last in mreturn (Some (inl err))
  | InvOk cseq resp =>
      do* mmodify (fun s => set_dialog (Some cseq) true (nextCSeq s) s) in
      match resp_To resp with
      | None => mreturn (Some (inl (NewErrorf Internal "no To header in INVITE response")))
      | Some (_, None) =>
          do* mmodify (set_tag "") in
          mreturn (Some (inl (NewErrorf Internal "no tag in To header in INVITE response")))
      | Some (_, Some tag) =>
          do* mmodify (set_tag tag) in
          mreturn (Some (inr (resp_Body resp)))
      end
  end.

(** *** ACK, BYE, CANCEL *)
Definition AckInviteOK (now : Z) (write : option error) : OB (option error) :=
  let* s := mget in
  match so_invite s with
  | Some cseq =>
      if so_inviteOk s then
        do* memit (OAck cseq) in
        match write with
        | Some err => mreturn (Some err)
        | None =>
            do* emitEvent (newEvent EventAckSent (Some now) "ACK" 0 cseq "" "" "" 0) in
            mreturn None
        end
      else mreturn (Some (NewErrorf Canceled "call already closed"))
  | None => mreturn (Some (NewErrorf Canceled "call already closed"))
  end.

Definition AcceptByeO : OB unit :=
  do* memit (OReply 200) in
  dropO.

(** [closing]: the service is stopping.  [libCSeq] is the CSeq of the BYE the
    library makes from the INVITE and its answer, which stays when it is not
    replaced by [setCSeq]. *)
Definition sendByeO (closing : bool) (libCSeq now endAt : Z) (res : option Response) (err : option error)
    : OB unit :=
  let* s := mget in
  match so_invite s with
  | Some _ =>
      if so_inviteOk s then
        if closing then
          do* memit (OBye libCSeq false) in
          emitEvent (newEvent EventByeSent (Some now) "BYE" 0 libCSeq "" "" "" 0)
        else
          let* cseq := takeCSeqO in
          do* dropO in
          do* memit (OBye cseq true) in
          emitEvent (newEvent EventByeSent (Some now) "BYE"
                       (match res with Some r => StatusCode r | None => 0 end) cseq ""
                       "" (byeOutcome res err) (endAt - now))
      else mreturn tt
  | None => mreturn tt
  end.

Definition sendCancel : OB unit :=
  let* s := mget in
  match so_invite s with
  | None => mreturn tt
  | Some cseq => do* memit (OCancelReq cseq) in dropO
  end.

Definition CloseO (closing : bool) (libCSeq now endAt : Z) (res : option Response) (err : option error)
    : OB unit :=
  let* s := mget in
  if so_inviteOk s then sendByeO closing libCSeq now endAt res err
  else match so_invite s with
       | Some _ => sendCancel
       | None => dropO
       end.

(** *** REFER *)

(** [transferCall] while it holds the lock: the checks, and the request with its number. *)
Definition newReferO (closing : bool) : OB (error + Z) :=
  let* s := mget in
  match so_invite s with
  | Some _ =>
      if so_inviteOk s then
        if closing then mreturn (inl (NewErrorf FailedPrecondition "can't transfer hung up call"))
        else
          let* cseq := takeCSeqO in
          do* mmodify (set_refer cseq) in
          do* mmodify (add_refer cseq) in
          do* memit (OGo cseq) in
          mreturn (inr cseq)
      else mreturn (inl (NewErrorf FailedPrecondition "can't transfer non established call"))
  | None => mreturn (inl (NewErrorf FailedPrecondition "can't transfer non established call"))
  end.

(** The rest of it, without the lock: the request [cseq] is sent unless its transaction cannot
    be made, and the result is waited for.  [None]: it is still waited for (also: there is no
    such request). *)
Definition sendReferO (cseq : Z) (refer : error + list TxEvent) (wait : option error)
    : OB (option (option error)) :=
  let* s := mget in
  match removeOne cseq (so_refers s) with
  | None => mreturn None
  | Some rest =>
      do* mput (set_pending rest (so_watch s) s) in
      do* match refer with inl _ => mreturn tt | inr _ => memit (ORefer cseq) end in
      match (sendRefer refer).2 with
      | None => mreturn None
      | Some (_, Some err) => mreturn (Some (Some err))
      | Some (_, None) => mreturn (Some wait)
      end
  end.

Definition transferCallO (closing : bool) (refer : error + list TxEvent) (wait : option error)
    : OB (option (option error)) :=
  let* r := newReferO closing in
  match r with
  | inl err => mreturn (Some (Some err))
  | inr cseq => sendReferO cseq refer wait
  end.

(** *** The watch, in its goroutine *)
Fixpoint watchReplay (now cseq libCSeq : Z) (l : list WatchEffect) : OB unit :=
  match l with
  | [] => mreturn tt
  | WAnswered code :: l' =>
      do* emitEvent (newEvent EventLateAnswerReceived (Some now) "INVITE" code cseq "" "" "" 0) in
      watchReplay now cseq libCSeq l'
  | WAck :: l' => do* memit (OLateAck cseq) in watchReplay now cseq libCSeq l'
  | WBye :: l' => do* memit (OLateBye libCSeq) in watchReplay now cseq libCSeq l'
  | WTerminate :: l' => do* memit OTerminate in watchReplay now cseq libCSeq l'
  end.

(** [libCSeq] is the number of the BYE that the library makes from the INVITE and its answer. *)
Definition watchLate (cseq now libCSeq : Z) (script : list WatchEvent) : OB unit :=
  let* s := mget in
  match removeOne cseq (so_watch s), watchCancelledInvite script with
  | Some rest, (eff, true) =>
      do* mput (set_pending (so_refers s) rest s) in
      watchReplay now cseq libCSeq eff
  | _, _ => mreturn tt
  end.

Definition handleNotifyO (sipErrorCode : SIPStatus -> ErrorCode) (req : Request)
    : OB (error + option (option error)) :=
  match handleNotify req with
  | inl err => mreturn (inl err)
  | inr info =>
      let* s := mget in
      mreturn (inr (if String.eqb (ni_Method info) "REFER"
                    then handleReferNotify sipErrorCode info (so_referCseq s) else None))
  end.
End dialog.

(** ** The route of requests in the dialog

    [applyInviteResponse]: the new recipient of the INVITE request, its Route
    headers, and whether its fixed destination is forgotten. *)
Definition defaultPort (u : SipUri) : SipUri :=
  if su_Port u =? 0 then
    {| su_User := su_User u; su_Host := su_Host u; su_Port := 5060; su_UriParams := su_UriParams u |}
  else u.

Definition applyInviteResponse (recipient : SipUri) (routes : list SipUri) (contact : option SipUri)
    (recordRoutes : list SipUri) : SipUri * list SipUri * bool :=
  let '(recipient', flush) :=
    match contact with
    | Some c =>
        let new := defaultPort c in
        let old := defaultPort recipient in
        (new, negb (EqualFold (su_Host old) (su_Host new)) || negb (su_Port old =? su_Port new))
    | None => (recipient, false)
    end in
  let flush := flush || negb (Nat.eqb (length routes) 0) in
  (recipient', rev recordRoutes, flush || negb (Nat.eqb (length recordRoutes) 0)).

(** ** Destination of the INVITE *)
Definition uriTransport (scheme : string) (params : Params) : string :=
  let tr := param params "transport" in
  if negb (String.eqb tr "") then ToLower tr
  else if EqualFold scheme "sips" then "tls" else "udp".

(** [resolve] is the SRV lookup of the SIP library. *)
Definition resolveDest (preferSRV : bool) (routeHeaders : list string)
    (headers : list (string * string)) (resolve : option string) : string :=
  if negb preferSRV then ""
  else match routeHeaders with
       | _ :: _ => ""
       | [] => if existsb (fun kv => EqualFold kv.1 "Route") headers then ""
               else default "" resolve
       end.

(** ** What a run of [Invite] shows *)

(** The INVITEs sent, with their CSeq and credentials header. *)
Definition invitesOf : list OEffect -> list (Z * option (string * string)) :=
  omap (fun e => match e with OInvite c h => Some (c, h) | _ => None end).

(** The signaling events of one type, as status code and CSeq. *)
Definition eventsOf (ty : SignalingEventType) : list OEffect -> list (Z * Z) :=
  omap (fun e => match e with
                 | OEmit ev => if decide (ev_Type ev = ty) then Some (ev_StatusCode ev, ev_CSeq ev)
                               else None
                 | _ => None
                 end).

(** The final response of an attempt, and whether the attempt ends at all. *)
Definition finalOf (e : AttemptEnv) : option Response :=
  match ae_tx e with
  | inl _ => None
  | inr script => match (sipResponse true true 0 script).2 with Some r => tx_res r | None => None end
  end.

Definition decisive (e : AttemptEnv) : bool :=
  match ae_tx e with
  | inl _ => true
  | inr script => match (sipResponse true true 0 script).2 with Some _ => true | None => false end
  end.

Lemma invitesOf_app t1 t2 : invitesOf (t1 ++ t2) = invitesOf t1 ++ invitesOf t2.
Proof. apply omap_app. Qed.

Lemma eventsOf_app ty t1 t2 : eventsOf ty (t1 ++ t2) = eventsOf ty t1 ++ eventsOf ty t2.
Proof. apply omap_app. Qed.

(** A response loop that ends has a response or an error. *)
Lemma sipResponse_outcome hs cb cnt script r :
  (sipResponse hs cb cnt script).2 = Some r ->
  tx_err r = None -> exists resp, tx_res r = Some resp /\ tx_cancelled r = "".
Proof.
  revert cnt r. induction script as [|[c| | |[resp|]] l IH]; intros cnt r; simpl; try done.
  - by intros [= <-].
  - destruct hs; [by intros [= <-]|]. apply IH.
  - by intros [= <-].
  - destruct (negb _); simpl; [intros [= <-]; eauto|].
    destruct (sipResponse hs cb (cnt + 1) l) as [eff o] eqn:E; simpl. intros ->.
    apply (IH (cnt + 1)). by rewrite E.
  - by intros [= <-].
Qed.

Section invite_proofs.
Context `{DigestClient}.

(** What no attempt changes; the provisional responses reported, each code once. *)
Definition frame (s s' : sipOutbound) (t : list OEffect) : Prop :=
  so_invite s' = so_invite s /\ so_inviteOk s' = so_inviteOk s /\ so_tag s' = so_tag s /\
  eventsOf EventFailed t = [] /\
  provisionalSeen s' = provisionalSeen s ++ (eventsOf EventProvisionalReceived t).*1 /\
  (NoDup (provisionalSeen s) -> NoDup (provisionalSeen s')).

Lemma frame_refl s : frame s s [].
Proof. unfold frame; simpl. by rewrite app_nil_r. Qed.

Lemma frame_trans s1 s2 s3 t1 t2 : frame s1 s2 t1 -> frame s2 s3 t2 -> frame s1 s3 (t1 ++ t2).
Proof.
  unfold frame. rewrite !eventsOf_app, fmap_app.
  intros (? & ? & ? & F1 & P1 & N1) (? & ? & ? & F2 & P2 & N2).
  rewrite F1, F2, P2, P1, <- app_assoc. repeat split; try congruence.
  intros Hn. rewrite P1 in *. rewrite app_assoc. rewrite P2 in N2. auto.
Qed.

(** An effect that is neither a failure nor a provisional response. *)
Definition plain (e : OEffect) : bool :=
  match e with
  | OEmit ev => negb (bool_decide (ev_Type ev = EventFailed))
                && negb (bool_decide (ev_Type ev = EventProvisionalReceived))
  | _ => true
  end.

Lemma frame_plain s s' e :
  plain e = true -> so_invite s' = so_invite s -> so_inviteOk s' = so_inviteOk s ->
  so_tag s' = so_tag s -> provisionalSeen s' = provisionalSeen s -> frame s s' [e].
Proof.
  intros Hp ? ? ? Hprov. unfold frame, eventsOf. simpl.
  destruct e as [| | | | |ev| | | | | | | |]; simpl in *; rewrite ?Hprov, ?app_nil_r; try done.
  apply andb_prop in Hp as [Hf%negb_true_iff Hg%negb_true_iff].
  apply bool_decide_eq_false in Hf, Hg.
  rewrite !decide_False by done. simpl. by rewrite app_nil_r.
Qed.

Definition quietO (s s' : sipOutbound) (t : list OEffect) : Prop :=
  frame s s' t /\ nextCSeq s' = nextCSeq s /\ finalStatus s' = finalStatus s /\
  invitesOf t = [] /\ eventsOf EventAnsweredReceived t = [].

Lemma quietO_refl s : quietO s s [].
Proof. unfold quietO. split_and!; try done. apply frame_refl. Qed.

Lemma quietO_trans s1 s2 s3 t1 t2 : quietO s1 s2 t1 -> quietO s2 s3 t2 -> quietO s1 s3 (t1 ++ t2).
Proof.
  intros (F1 & N1 & S1 & I1 & A1) (F2 & N2 & S2 & I2 & A2). unfold quietO.
  rewrite invitesOf_app, eventsOf_app, I1, I2, A1, A2. split_and!; try done; try congruence.
  by eapply frame_trans.
Qed.

Lemma onResponse_quiet now cseq code s :
  mspec (onResponse now cseq code) s (fun _ s' t => quietO s s' t).
Proof.
  unfold onResponse. do 2 mstep. mstep. mstep; [rename select (_ = true) into Hc; repeat mstep|repeat mstep]; cbn [app].
  - apply andb_prop in Hc as [_ Hn%negb_true_iff%bool_decide_eq_false].
    unfold quietO, frame. split_and!; simpl; try done.
    intros Hd. apply list.NoDup_app. repeat split; [done| |by apply list.NoDup_singleton].
    intros x Hx ->%list_elem_of_singleton. done.
  - unfold quietO, frame. split_and!; simpl; rewrite ?app_nil_r; done.
Qed.

Lemma replay_quiet now cseq l s : mspec (replay now cseq l) s (fun _ s' t => quietO s s' t).
Proof.
  revert s. induction l as [|[|code|] l IH]; intros s; cbn [replay].
  - mstep. apply quietO_refl.
  - do 2 mstep. eapply mspec_mono; [apply IH|]. cbv beta. intros _ s' t Hq.
    eapply (quietO_trans s s s'); [|done]. unfold quietO. split_and!; try done. by apply frame_plain.
  - mstep. eapply mspec_mono; [apply onResponse_quiet|]. cbv beta. intros _ s1 t1 Hq1.
    eapply mspec_mono; [apply IH|]. cbv beta. intros _ s2 t2 Hq2. by eapply quietO_trans.
  - do 2 mstep. eapply mspec_mono; [apply IH|]. cbv beta. intros _ s' t Hq.
    eapply (quietO_trans s s s'); [|done]. unfold quietO. split_and!; try done. by apply frame_plain.
Qed.

(** One attempt: one INVITE with the next CSeq, unless the transaction fails. *)
Definition attemptPost (e : AttemptEnv) (name cred : string) (s : sipOutbound) (a : Attempt)
    (s' : sipOutbound) (t : list OEffect) : Prop :=
  frame s s' t /\ nextCSeq s' = u32 (nextCSeq s + 1) /\ finalStatus s' = finalStatus s /\
  eventsOf EventAnsweredReceived t = [] /\
  invitesOf t = (match ae_tx e with inl _ => [] | inr _ => [(nextCSeq s, withAuth name cred)] end) /\
  match a with
  | ABlocked => decisive e = false
  | AErr _ => True
  | AResp c r => c = nextCSeq s /\ finalOf e = Some r
  end.

Lemma attempt_tail e cseq r s :
  mspec (if String.eqb (tx_cancelled r) "" then memit OTerminate
         else mbind' (emitEvent (newEvent EventCancelSent (Some (ae_now e)) "CANCEL" 0 cseq ""
                                   (tx_cancelled r) "" 0)) (fun _ =>
               mbind' (mmodify (add_watch cseq)) (fun _ => memit (OWatch cseq)))) s
    (fun _ s' t => quietO s s' t).
Proof.
  destruct (String.eqb _ _); repeat mstep; unfold emitEvent; repeat mstep;
    unfold quietO; split_and!; try done; try by apply frame_plain.
  apply (frame_trans s s _ [_] [_]); by apply frame_plain.
Qed.

Lemma takeCSeqO_spec s :
  mspec takeCSeqO s (fun c s' t => c = nextCSeq s /\ t = [] /\
    s' = set_dialog (so_invite s) (so_inviteOk s) (u32 (nextCSeq s + 1)) s).
Proof. unfold takeCSeqO. by repeat mstep. Qed.

(** The start of an attempt that has a transaction. *)
Lemma attempt_start e name cred n s s2 t2 :
  quietO (set_dialog (so_invite s) (so_inviteOk s) (u32 (nextCSeq s + 1)) s) s2 t2 ->
  n = nextCSeq s ->
  let t := OInvite n (withAuth name cred)
           :: OEmit (newEvent EventInviteSent (Some (ae_now e)) "INVITE" 0 n
                       (ToLower (ae_transport e)) "" "" 0) :: t2 in
  frame s s2 t /\ nextCSeq s2 = u32 (nextCSeq s + 1) /\ finalStatus s2 = finalStatus s /\
  eventsOf EventAnsweredReceived t = [] /\ invitesOf t = [(nextCSeq s, withAuth name cred)].
Proof.
  intros (F & N & S & I & A) -> t. split_and!; try done; subst t. cbn. by rewrite I.
Qed.

Lemma attemptInvite_spec e name cred s :
  mspec (attemptInvite e name cred) s (attemptPost e name cred s).
Proof.
  unfold attemptInvite. mstep. eapply mspec_mono; [apply takeCSeqO_spec|]. cbv beta.
  intros c s1 t (-> & -> & ->). unfold attemptPost, decisive, finalOf.
  destruct (ae_tx e) as [err|script].
  { mstep. unfold frame. split_and!; simpl; by rewrite ?app_nil_r. }
  mstep; mstep. mstep. unfold emitEvent; mstep.
  destruct (sipResponse true true 0 script) as [eff [r|]] eqn:E; mstep;
    (eapply mspec_mono; [apply replay_quiet|]); cbv beta; intros _ s2 t2 Q2.
  - mstep. eapply mspec_mono; [apply attempt_tail|]. cbv beta. intros _ s3 t3 Q3.
    mstep. rewrite app_nil_r. cbn [app].
    pose proof (attempt_start e name cred _ _ _ _ (quietO_trans _ _ _ _ _ Q2 Q3) eq_refl)
      as (? & ? & ? & ? & ?).
    split_and!; try done.
    cbn [snd]. destruct (tx_err r) eqn:Er; [done|].
    destruct (sipResponse_outcome true true 0 script r) as (resp & -> & _); [by rewrite E|done|].
    done.
  - mstep. rewrite app_nil_r. cbn [app].
    pose proof (attempt_start e name cred _ _ _ _ Q2 eq_refl) as (? & ? & ? & ? & ?).
    by split_and!.
Qed.

(** *** The loop *)

(** [n] consecutive CSeq numbers of 32 bits. *)
Fixpoint cseqFrom (c : Z) (n : nat) : list Z :=
  match n with O => [] | S n' => c :: cseqFrom (u32 (c + 1)) n' end.

(** The header the attempt after [e] carries. *)
Definition hdrAfter (user pass : string) (e : AttemptEnv) (h : option (string * string)) : Prop :=
  exists r name cred, finalOf e = Some r /\ isAuthStatus (StatusCode r) = true /\
    answerChallenge user pass r = inr (name, cred) /\ h = withAuth name cred.

Fixpoint hdrsFrom (env : nat -> AttemptEnv) (user pass : string) (try : nat)
    (h0 : option (string * string)) (l : list (Z * option (string * string))) : Prop :=
  match l with
  | [] => True
  | (_, h) :: l' =>
      h = h0 /\ match l' with
                | [] => True
                | (_, h1) :: _ => hdrAfter user pass (env try) h1 /\
                                  hdrsFrom env user pass (S try) h1 l'
                end
  end.

Definition loopPost (env : nat -> AttemptEnv) (user pass : string) (try : nat)
    (name cred : string) (last : option (Z * Response)) (s : sipOutbound)
    (r : InviteResult) (s' : sipOutbound) (t : list OEffect) : Prop :=
  frame s s' t /\
  (try + length (invitesOf t) <= Nat.max 5 try)%nat /\
  (invitesOf t).*1 = cseqFrom (nextCSeq s) (length (invitesOf t)) /\
  hdrsFrom env user pass try (withAuth name cred) (invitesOf t) /\
  let lastC := List.last (invitesOf t).*1 (default 0 (fst <$> last)) in
  match r with
  | InvOutOfFuel => False
  | InvBlocked => finalStatus s' = finalStatus s /\ eventsOf EventAnsweredReceived t = [] /\
                  exists i, (try <= i < 5)%nat /\ decisive (env i) = false
  | InvErr _ last' =>
      finalStatus s' = finalStatus s /\ eventsOf EventAnsweredReceived t = [] /\
      match last' with
      | None => True
      | Some (c, resp) => StatusCode resp <> 200 /\ c = lastC
      end
  | InvOk c resp =>
      StatusCode resp = 200 /\ finalStatus s' = 200 /\ c = lastC /\
      eventsOf EventAnsweredReceived t = [(200, c)]
  end.

(** One more attempt in front of the rest of the loop. *)
Lemma hdrsFrom_cons env user pass try c h l name cred :
  hdrAfter user pass (env try) (withAuth name cred) ->
  hdrsFrom env user pass (S try) (withAuth name cred) l ->
  hdrsFrom env user pass try h ((c, h) :: l).
Proof.
  intros Ha Hl. cbn. split; [done|]. destruct l as [|[c1 h1] l]; [done|].
  pose proof Hl as [-> _]. done.
Qed.

Lemma answeredEvent_frame now code c s :
  code <> 200 -> frame s s [OEmit (answeredEvent now code c)] /\
    eventsOf EventAnsweredReceived [OEmit (answeredEvent now code c)] = [].
Proof.
  intros Hc. unfold answeredEvent. destruct (Z.eqb_spec code 200); [done|].
  split; [by apply frame_plain|done].
Qed.

Lemma loopPost_retry now env user pass try name cred last name' cred' c resp s s1 t1 r s2 t2 :
  (try < 5)%nat -> attemptPost (env try) name cred s (AResp c resp) s1 t1 ->
  isAuthStatus (StatusCode resp) = true -> StatusCode resp <> 200 ->
  answerChallenge user pass resp = inr (name', cred') ->
  loopPost env user pass (S try) name' cred' (Some (c, resp)) s1 r s2 t2 ->
  loopPost env user pass try name cred last s r s2
    (t1 ++ OEmit (answeredEvent now (StatusCode resp) c) :: t2).
Proof.
  intros Ht (F1 & N1 & S1 & A1 & I1 & -> & Hf) Ha Hne Hans (F2 & L2 & C2 & H2 & R2).
  destruct (answeredEvent_frame now (StatusCode resp) (nextCSeq s) s1 Hne) as [F1' A1'].
  assert (invitesOf t1 = [(nextCSeq s, withAuth name cred)]) as I1'.
  { rewrite I1. unfold finalOf in Hf. by destruct (ae_tx (env try)). }
  rewrite cons_middle. unfold loopPost.
  rewrite !invitesOf_app, !eventsOf_app, I1', A1, A1'. cbn [app length fmap list_fmap invitesOf omap list_omap].
  split_and!.
  - eapply frame_trans; [done|]. by apply (frame_trans _ s1 _ [_]).
  - lia.
  - cbn. f_equal. by rewrite C2, N1.
  - eapply hdrsFrom_cons; [|done]. exists resp, name', cred'. done.
  - assert (forall l d, List.last (nextCSeq s :: l) d = List.last l (nextCSeq s)) as Hlast.
    { intros l d. destruct l; [done|]. cbn. revert z. induction l; intros; cbn; [done|]. apply IHl. }
    cbn [fst fmap list_fmap]. rewrite Hlast. cbn in R2.
    destruct r; [|done| |].
    + destruct R2 as (? & ? & i & ? & ?). split_and!; try done; [congruence|]. exists i. split; [lia|done].
    + destruct R2 as (? & ? & ?). split_and!; try done. congruence.
    + done.
Qed.

(** A loop that stops at this attempt. *)
Lemma loopPost_stop env user pass try name cred last a s s1 t1 r s2 t2 :
  (try < 5)%nat -> attemptPost (env try) name cred s a s1 t1 ->
  match a, r with
  | ABlocked, InvBlocked => s2 = s1 /\ t2 = []
  | AErr _, InvErr _ None => s2 = s1 /\ t2 = []
  | AResp c resp, InvErr _ (Some (c', resp')) =>
      c' = c /\ resp' = resp /\ s2 = s1 /\ StatusCode resp <> 200 /\
      (t2 = [] \/ exists now, t2 = [OEmit (answeredEvent now (StatusCode resp) c)])
  | AResp c resp, InvOk c' resp' =>
      c' = c /\ resp' = resp /\ StatusCode resp = 200 /\ s2 = set_final 200 s1 /\
      exists now, t2 = [OEmit (answeredEvent now 200 c)]
  | _, _ => False
  end ->
  loopPost env user pass try name cred last s r s2 (t1 ++ t2).
Proof.
  intros Ht (F1 & N1 & S1 & A1 & I1 & Ha) Hr.
  assert (frame s1 s2 t2 /\ invitesOf t2 = [] /\ eventsOf EventAnsweredReceived t2 =
            match r with InvOk c _ => [(200, c)] | _ => [] end) as (F2 & I2 & A2).
  { destruct a, r as [| |? [[c' resp']|]|]; try done;
      [by destruct Hr as [-> ->]; split; [apply frame_refl|] ..| |].
    - destruct Hr as (-> & -> & -> & Hn & [->|[now ->]]); [by split; [apply frame_refl|]|].
      destruct (answeredEvent_frame now (StatusCode resp) cseq s1 Hn). done.
    - destruct Hr as (-> & -> & Hc & -> & now & ->). split; [by apply frame_plain|done]. }
  unfold loopPost. rewrite invitesOf_app, eventsOf_app, I1, I2, A1, A2, app_nil_r.
  split_and!.
  - by eapply frame_trans.
  - destruct (ae_tx _); cbn; lia.
  - by destruct (ae_tx _).
  - by destruct (ae_tx _).
  - destruct a, r as [| |? [[c' resp']|]|]; cbn in Hr; try done.
    + destruct Hr as [-> ->]. split_and!; try done. exists try. split; [lia|done].
    + destruct Hr as [-> ->]. done.
    + destruct Hr as (-> & -> & -> & Hn & _), Ha as [-> Hf]. unfold finalOf in Hf.
      by destruct (ae_tx _).
    + destruct Hr as (-> & -> & Hc & -> & _), Ha as [-> Hf]. unfold finalOf in Hf.
      by destruct (ae_tx _).
Qed.

Lemma authLoop_spec fuel env user pass try name cred last s :
  (6 <= fuel + try)%nat -> (try <= 5)%nat ->
  match last with Some (_, r) => StatusCode r <> 200 | None => True end ->
  mspec (authLoop fuel env user pass try name cred last) s
    (loopPost env user pass try name cred last s).
Proof.
  revert try name cred last s. induction fuel as [|fuel IH]; intros try name cred last s Hf Ht Hlast;
    [lia|]. cbn [authLoop].
  destruct (Nat.leb_spec 5 try).
  { mstep. unfold loopPost. split_and!; try done; [apply frame_refl|cbn; lia|].
    by destruct last as [[c r]|]. }
  mstep. eapply mspec_mono; [apply attemptInvite_spec|]. cbv beta. intros a s1 t1 Ha.
  destruct a as [|err|c resp].
  - mstep. eapply loopPost_stop; [done..|]. done.
  - mstep. eapply loopPost_stop; [done..|]. done.
  - destruct (Z.eqb_spec (StatusCode resp) 200) as [E200|N200]; cbn [mwhen orb].
    + do 2 mstep. mstep. unfold emitEvent; mstep. mstep. cbn [app].
      eapply loopPost_stop; [done..|]. rewrite E200. split_and!; eauto.
    + mstep. mstep. mstep.
      destruct (isAuthStatus (StatusCode resp)) eqn:Ea; cbn [mwhen].
      * unfold emitEvent; mstep. cbn [app].
        destruct (answerChallenge user pass resp) as [err|[name' cred']] eqn:Ec.
        -- mstep. eapply loopPost_stop; [done..|]. split_and!; eauto.
        -- eapply mspec_mono; [apply IH; [lia|lia|done]|]. cbv beta. intros r s2 t2 Hl.
           by eapply loopPost_retry.
      * mstep. cbn [app]. mstep. eapply loopPost_stop; [done..|]. split_and!; eauto.
Qed.

(** *** The whole call *)
Definition invitePost (env : nat -> AttemptEnv) (user pass : string) (s : sipOutbound)
    (r : option (error + string)) (s' : sipOutbound) (t : list OEffect) : Prop :=
  (length (invitesOf t) <= 5)%nat /\
  (invitesOf t).*1 = cseqFrom (nextCSeq s) (length (invitesOf t)) /\
  hdrsFrom env user pass 0 None (invitesOf t) /\
  (NoDup (provisionalSeen s) -> NoDup (provisionalSeen s ++ (eventsOf EventProvisionalReceived t).*1)) /\
  let lastC := List.last (invitesOf t).*1 0 in
  let answered := so_invite s' = Some lastC /\ so_inviteOk s' = true /\ finalStatus s' = 200 /\
                  eventsOf EventAnsweredReceived t = [(200, lastC)] /\
                  eventsOf EventFailed t = [] in
  let unanswered := so_invite s' = so_invite s /\ so_inviteOk s' = so_inviteOk s /\
                    eventsOf EventAnsweredReceived t = [] in
  match r with
  | None => exists i, (i < 5)%nat /\ decisive (env i) = false
  | Some (inr _) => answered
  | Some (inl _) =>
      answered \/
      (unanswered /\
       ((finalStatus s' = finalStatus s /\ eventsOf EventFailed t = []) \/
        (finalStatus s' <> 200 /\ finalStatus s' < 300 /\ eventsOf EventFailed t = []) \/
        (300 <= finalStatus s' /\ eventsOf EventFailed t = [(finalStatus s', lastC)])))
  end.

Lemma frame_nodup s s' t :
  frame s s' t -> NoDup (provisionalSeen s) ->
  NoDup (provisionalSeen s ++ (eventsOf EventProvisionalReceived t).*1).
Proof. intros (_ & _ & _ & _ & <- & Hn). done. Qed.

(** The deferred function reports a failure exactly for a final response of 300 or more. *)
Lemma inviteDefer_spec now last s :
  match last with Some (_, r) => StatusCode r <> 200 | None => True end ->
  mspec (inviteDefer now last) s (fun _ s' t =>
    so_invite s' = so_invite s /\ so_inviteOk s' = so_inviteOk s /\
    invitesOf t = [] /\ eventsOf EventAnsweredReceived t = [] /\
    eventsOf EventProvisionalReceived t = [] /\
    match last with
    | None => finalStatus s' = finalStatus s /\ eventsOf EventFailed t = []
    | Some (c, r) => finalStatus s' = StatusCode r /\
        eventsOf EventFailed t = if StatusCode r <? 300 then [] else [(StatusCode r, c)]
    end).
Proof.
  unfold inviteDefer. destruct last as [[c r]|]; intros Hl; [|by mstep].
  destruct (Z.eqb_spec (StatusCode r) 200); [done|]. mstep; mstep.
  destruct (StatusCode r <? 300); unfold emitEvent; mstep; by split_and!.
Qed.

Lemma Invite_spec env now user pass s :
  mspec (Invite env now user pass) s (invitePost env user pass s).
Proof.
  unfold Invite. mstep. eapply mspec_mono; [by apply authLoop_spec; [cbn; lia|lia|]|].
  cbv beta. intros r s1 t1 (F & L & C & Hh & R). cbv zeta in R.
  change (withAuth "" "") with (@None (string * string)) in Hh.
  change (default 0 (fst <$> None)) with 0 in R.
  pose proof (frame_nodup _ _ _ F) as Hn. pose proof F as (Hi & Ho & _ & Hf & _ & _).
  destruct r as [| |err last|c resp]; [..|].
  - mstep. rewrite app_nil_r. unfold invitePost. destruct R as (_ & _ & i & ? & ?).
    split_and!; try done; try lia. exists i. split; [lia|done].
  - done.
  - destruct R as (S1 & A1 & R1). mstep.
    eapply mspec_mono; [apply inviteDefer_spec|].
    { destruct last as [[c resp]|]; [|done]. by destruct R1. }
    cbv beta. intros _ s2 t2 (I2 & O2 & V2 & A2 & P2 & D2). mstep. rewrite app_nil_r.
    unfold invitePost. rewrite !invitesOf_app, !eventsOf_app, V2, A1, A2, P2, Hf, app_nil_r.
    rewrite !app_nil_r. split_and!; try done; try lia. right.
    split; [split_and!; congruence|].
    destruct last as [[c resp]|]; [|left; destruct D2; split; [congruence|done]].
    destruct R1 as [Hne ->], D2 as [-> D2]. right. rewrite D2.
    destruct (Z.ltb_spec (StatusCode resp) 300); [left|right]; split_and!; try done; lia.
  - destruct R as (Hc & S1 & -> & A1). mstep. mstep. cbn [app].
    assert (forall f, (forall s, so_invite (f s) = so_invite s /\ so_inviteOk (f s) = so_inviteOk s /\
              finalStatus (f s) = finalStatus s) -> forall r, r <> None ->
      invitePost env user pass s r
        (f (set_dialog (Some (List.last (invitesOf t1).*1 0)) true (nextCSeq s1) s1)) (t1 ++ [])) as Hp.
    { intros f Hff r Hr. rewrite app_nil_r. unfold invitePost.
      specialize (Hff (set_dialog (Some (List.last (invitesOf t1).*1 0)) true (nextCSeq s1) s1)).
      destruct Hff as (-> & -> & ->). split_and!; try done; try lia.
      destruct r as [[?|?]|]; [left| |done]; split_and!; done. }
    destruct (resp_To resp) as [[uri [tag|]]|]; repeat mstep; cbn [app].
    + by apply (Hp (set_tag tag)).
    + by apply (Hp (set_tag "")).
    + by apply (Hp (fun s => s)).
Qed.
End invite_proofs.

(** ** The operations of a dialog, in any order *)
Section ops.
Open Scope go_scope.
Context `{DigestClient}.

Inductive OOp :=
| OpInvite (env : nat -> AttemptEnv) (now : Z) (user pass : string)
| OpRecordInvite (cseq : Z)
| OpAck (now : Z) (write : option error)
| OpAcceptBye
| OpReferReq (closing : bool)
| OpReferSend (cseq : Z) (refer : error + list TxEvent) (wait : option error)
| OpWatch (cseq now libCSeq : Z) (script : list WatchEvent)
| OpClose (closing : bool) (libCSeq now endAt : Z) (res : option Response) (err : option error)
| OpDrop.

Definition runOOp (o : OOp) : M sipOutbound OEffect unit :=
  match o with
  | OpInvite env now user pass => do* Invite env now user pass in mreturn tt
  | OpRecordInvite cseq => RecordInvite cseq
  | OpAck now w => do* AckInviteOK now w in mreturn tt
  | OpAcceptBye => AcceptByeO
  | OpReferReq closing => do* newReferO closing in mreturn tt
  | OpReferSend cseq refer wait => do* sendReferO cseq refer wait in mreturn tt
  | OpWatch cseq now lib script => watchLate cseq now lib script
  | OpClose c l now e r err => CloseO c l now e r err
  | OpDrop => dropO
  end.

Fixpoint runOOps (l : list OOp) : M sipOutbound OEffect unit :=
  match l with
  | [] => mreturn tt
  | o :: l' => do* runOOp o in runOOps l'
  end.

(** The INVITE and its answer are kept together. *)
Definition paired (s : sipOutbound) : Prop :=
  so_inviteOk s = match so_invite s with Some _ => true | None => false end.

(** Requests that the dialog sends, or makes. *)
Definition inDialog (e : OEffect) : bool :=
  match e with OAck _ | OBye _ _ | OCancelReq _ | OGo _ => true | _ => false end.

Definition isCancel (e : OEffect) : bool := match e with OCancelReq _ => true | _ => false end.

Lemma replay_outside now cseq l : mtrace (fun e => inDialog e = false) (replay now cseq l).
Proof.
  induction l as [|[]]; cbn [replay]; repeat (trace_step || done);
    unfold onResponse, emitEvent; repeat (trace_step || done).
Qed.

Lemma Invite_outside env now user pass :
  mtrace (fun e => inDialog e = false) (Invite env now user pass).
Proof.
  assert (forall fuel try name cred last,
    mtrace (fun e => inDialog e = false) (authLoop fuel env user pass try name cred last)) as Hl.
  { induction fuel; intros; cbn [authLoop]; unfold attemptInvite, takeCSeqO, emitEvent;
      repeat (trace_step || done || apply replay_outside). }
  unfold Invite, inviteDefer, emitEvent. repeat (trace_step || done || apply Hl).
Qed.

Lemma Invite_paired env now user pass s :
  paired s -> mspec (Invite env now user pass) s (fun _ s' _ => paired s').
Proof.
  intros Hp. pose proof (authLoop_spec inviteFuel env user pass 0 "" "" None s) as Hl.
  unfold Invite. mstep. eapply mspec_mono; [apply Hl; cbn; try done; lia|].
  cbv beta. intros r s1 t1 ((Hi & Ho & _) & _). unfold paired in *.
  destruct r; repeat mstep; rewrite ?Hi, ?Ho; try done.
  - unfold inviteDefer, emitEvent. repeat break_match; repeat mstep; simpl; by rewrite Hi, Ho.
  - repeat break_match; by repeat mstep.
Qed.

(** A short explicit trace. *)
Ltac small_trace :=
  simpl; intros; try done;
  rewrite ?list.Forall_cons, ?list.Forall_nil; repeat (first [done | split]).

(** What the watch of a cancelled INVITE can do. *)
Lemma watchCancelledInvite_cases script :
  watchCancelledInvite script = ([], false) \/ watchCancelledInvite script = ([WTerminate], true) \/
  exists code, watchCancelledInvite script = ([WAnswered code; WAck; WBye; WTerminate], true).
Proof.
  induction script as [|[[r|]| |] l IH]; cbn; auto. destruct (_ =? 1); [done|]. destruct (_ =? 2); eauto.
Qed.

(** Each operation keeps the pair, sends no CANCEL, and without a dialog sends
    nothing in one. *)
Lemma runOOp_spec o s :
  paired s -> mspec (runOOp o) s (fun _ s' t =>
    paired s' /\ Forall (fun e => isCancel e = false) t /\
    (so_invite s = None -> Forall (fun e => inDialog e = false) t /\
       match o with OpInvite _ _ _ _ => True | _ => so_invite s' = None end)).
Proof.
  intros Hp. destruct o as [env now user pass|cseq|now w| |c|cs refer w|cs now lib script|c l now e r err|]; cbn [runOOp].
  - apply mspec_bind. pose proof (Invite_outside env now user pass s) as Ho.
    pose proof (Invite_paired env now user pass s Hp) as Hq. unfold mspec in Ho, Hq |- *.
    destruct (Invite _ _ _ _ s) as [[a s1] t1]. cbn. rewrite app_nil_r. split_and!; [done| |by intros _; split].
    eapply list.Forall_impl; [exact Ho|]. by intros [].
  - unfold RecordInvite. mstep. unfold paired in *. by destruct (_ <? _).
  - unfold AckInviteOK, emitEvent. mstep; mstep; mstep. unfold paired in Hp.
    destruct (so_invite s) eqn:Ei, (so_inviteOk s) eqn:Eo, w; try done; repeat mstep;
      unfold paired; rewrite ?Ei, ?Eo; split_and!; small_trace.
  - unfold AcceptByeO, dropO. repeat mstep. split_and!; small_trace.
  - unfold newReferO. mstep; mstep; mstep. unfold paired in Hp.
    destruct (so_invite s) eqn:Ei, (so_inviteOk s) eqn:Eo, c; try done; unfold takeCSeqO; repeat mstep;
      unfold paired; simpl; rewrite ?Ei, ?Eo; split_and!; small_trace.
  - unfold sendReferO. mstep; mstep; mstep. destruct (removeOne _ _); [|repeat mstep; done].
    mstep; mstep; mstep. destruct refer; repeat mstep; repeat (break_match; repeat mstep); split_and!; small_trace.
  - unfold watchLate. mstep; mstep. destruct (removeOne _ _); [|by mstep].
    destruct (watchCancelledInvite_cases script) as [->|[->|[code ->]]]; cbn [watchReplay]; unfold emitEvent; repeat mstep;
      split_and!; small_trace.
  - unfold CloseO, sendByeO, sendCancel, dropO, takeCSeqO, emitEvent. mstep; mstep.
    unfold paired in Hp. destruct (so_invite s) eqn:Ei, (so_inviteOk s) eqn:Eo; try done;
      repeat mstep; rewrite ?Ei, ?Eo; try destruct c; repeat mstep;
      unfold paired; simpl; rewrite ?Ei, ?Eo; split_and!; small_trace.
  - unfold dropO. repeat mstep. done.
Qed.

Lemma runOOps_spec l s :
  paired s -> mspec (runOOps l) s (fun _ s' t =>
    paired s' /\ Forall (fun e => isCancel e = false) t /\
    (so_invite s = None ->
     Forall (fun o => match o with OpInvite _ _ _ _ => False | _ => True end) l ->
     Forall (fun e => inDialog e = false) t)).
Proof.
  revert s. induction l as [|o l IH]; intros s Hp; cbn [runOOps]; [by mstep|].
  mstep. eapply mspec_mono; [by apply runOOp_spec|]. cbv beta. intros _ s1 t1 (P1 & C1 & D1).
  eapply mspec_mono; [by apply IH|]. cbv beta. intros _ s2 t2 (P2 & C2 & D2).
  split_and!; [done|by apply Forall_app|]. intros Hi [Ho Hl]%list.Forall_cons.
  destruct (D1 Hi) as [? Hn]. apply Forall_app. split; [done|]. apply D2; [|done]. by destruct o.
Qed.
End ops.

(** ** Theorems *)
Lemma cseqFrom_small n : (n <= 5)%nat -> cseqFrom 1 n = Z.of_nat <$> seq 1 n.
Proof. intros Hn. do 6 (destruct n as [|n]; [reflexivity|]). lia. Qed.

Lemma hdrsFrom_lookup `{DigestClient} env user pass try h0 l i c h :
  hdrsFrom env user pass try h0 l -> l !! i = Some (c, h) ->
  match i with O => h = h0 | S j => hdrAfter user pass (env (try + j)%nat) h end.
Proof.
  revert try h0 i. induction l as [|[c0 h1] l IH]; intros try h0 i Hl Hi; [done|].
  destruct Hl as [-> Hl]. destruct i as [|i]; [by simplify_eq/=|]. simpl in Hi.
  destruct l as [|[c1 h2] l]; [done|]. destruct Hl as [Ha Hl].
  pose proof (IH _ _ _ Hl Hi) as Hi'. destruct i as [|j]; [by rewrite Nat.add_0_r; subst|].
  by replace (try + S j)%nat with (S try + j)%nat by lia.
Qed.

(** An outbound call sends at most five INVITEs, numbered from CSeq 1 without
    gaps; the first has no credentials, and each later one carries the answer to the
    401 or 407 of the one before it.  Without a user name or a password there is at
    most one INVITE, so no credentials are ever sent. *)
Theorem Invite_attempts `{DigestClient} cid env now user pass :
  let sent := invitesOf (trace_of (Invite env now user pass (newOutbound cid))) in
  (length sent <= 5)%nat /\ sent.*1 = Z.of_nat <$> seq 1 (length sent) /\
  (forall i c h, sent !! i = Some (c, h) ->
     match i with O => h = None | S j => hdrAfter user pass (env j) h end) /\
  (String.eqb user "" || String.eqb pass "" = true -> (length sent <= 1)%nat).
Proof.
  pose proof (Invite_spec env now user pass (newOutbound cid)) as Hs. unfold mspec in Hs.
  unfold trace_of. destruct (Invite _ _ _ _ _) as [[r s'] t]. cbn [snd].
  destruct Hs as (L & C & Hh & _). cbv zeta.
  split_and!; [done|by rewrite C, <- cseqFrom_small| |].
  - intros i c h. by apply (hdrsFrom_lookup env user pass 0 None).
  - intros He. destruct (invitesOf t) as [|x [|[c h] l]] eqn:E; cbn; try lia.
    pose proof (hdrsFrom_lookup env user pass 0 None _ 1 c h Hh eq_refl) as (r0 & n & cr & _ & _ & Hc & _).
    unfold answerChallenge in Hc. rewrite He in Hc. by destruct (StatusCode r0 =? 401).
Qed.

(** C19: [Invite] returns: its loop is bounded, so when the network lets every
    attempt end (a final response, a failed transaction, a timeout or a hangup), the
    call has a result. *)
Theorem Invite_returns `{DigestClient} env now user pass s :
  (forall i, (i < 5)%nat -> decisive (env i) = true) ->
  result_of (Invite env now user pass s) <> None.
Proof.
  intros Hd. pose proof (Invite_spec env now user pass s) as Hs. unfold mspec in Hs.
  unfold result_of. destruct (Invite _ _ _ _ _) as [[[r|] s'] t]; [done|].
  destruct Hs as (_ & _ & _ & _ & i & Hi & Hf). by rewrite Hd in Hf.
Qed.

(** C18: The outcome of a new call's INVITE.  A result other than an error leaves the dialog
    set to the last INVITE sent, the final status 200 and exactly one answered event;
    an error either comes after a 200 (the dialog is then set, so it is hung up on
    close), or leaves no dialog, with exactly one failure event, for the final
    status, when that status is 300 or more, and none otherwise.  No provisional
    code is reported twice. *)
Theorem Invite_outcome `{DigestClient} cid env now user pass :
  let '(r, s', t) := Invite env now user pass (newOutbound cid) in
  let lastC := List.last (invitesOf t).*1 0 in
  let answered := so_invite s' = Some lastC /\ so_inviteOk s' = true /\ finalStatus s' = 200 /\
                  eventsOf EventAnsweredReceived t = [(200, lastC)] /\
                  eventsOf EventFailed t = [] in
  NoDup (eventsOf EventProvisionalReceived t).*1 /\
  match r with
  | None => True
  | Some (inr _) => answered
  | Some (inl _) =>
      answered \/
      (so_invite s' = None /\ so_inviteOk s' = false /\ eventsOf EventAnsweredReceived t = [] /\
       eventsOf EventFailed t = if finalStatus s' <? 300 then [] else [(finalStatus s', lastC)])
  end.
Proof.
  pose proof (Invite_spec env now user pass (newOutbound cid)) as Hs. unfold mspec in Hs.
  destruct (Invite _ _ _ _ _) as [[r s'] t]. destruct Hs as (_ & _ & _ & Hn & R). cbv zeta in *.
  split; [apply Hn; constructor|]. destruct r as [[err|body]|]; [|done|done].
  destruct R as [R|((Hi & Ho & Ha) & R)]; [by left|right]. split_and!; try done.
  destruct R as [[Hf ->]|[(_ & Hf & ->)|[Hf ->]]].
  - by rewrite Hf.
  - by rewrite (proj2 (Z.ltb_lt _ _) Hf).
  - by rewrite (proj2 (Z.ltb_ge _ _) Hf).
Qed.

(** The dialog keeps the INVITE and its answer together, so whatever the order of
    its operations the CANCEL branch of [Close] is never taken, and once the dialog
    is dropped (or before it is set) it sends no ACK or BYE and makes no REFER (one that
    was made before may still be sent). *)
Theorem outbound_no_cancel `{DigestClient} cid l :
  Forall (fun e => isCancel e = false) (trace_of (runOOps l (newOutbound cid))) /\
  (Forall (fun o => match o with OpInvite _ _ _ _ => False | _ => True end) l ->
   Forall (fun e => inDialog e = false) (trace_of (runOOps l (newOutbound cid)))).
Proof.
  pose proof (runOOps_spec l (newOutbound cid) eq_refl) as Hs. unfold mspec in Hs.
  unfold trace_of. destruct (runOOps l _) as [[a s'] t]. destruct Hs as (_ & ? & Hd). auto.
Qed.

(** Hanging up.  When the service is not stopping, closing an established dialog
    twice sends one BYE; when it is stopping, the dialog is not dropped and the
    second close sends the same BYE again. *)
Theorem Close_bye_count closing lib now endAt res err s c :
  so_invite s = Some c -> so_inviteOk s = true ->
  let close := CloseO closing lib now endAt res err in
  omap (fun e => match e with OBye q _ => Some q | _ => None end)
    (trace_of (mbind' close (fun _ => close) s)) =
  if closing then [lib; lib] else [nextCSeq s].
Proof.
  intros Hi Ho. unfold CloseO, sendByeO, takeCSeqO, dropO, emitEvent, mbind', mget, mput, mmodify,
    memit, mreturn, trace_of. cbv beta. rewrite Ho, Hi. cbv iota beta.
  destruct closing; cbn; rewrite ?Ho, ?Hi; by cbn.
Qed.

(** The watch of a cancelled INVITE: an answer that raced the CANCEL is
    acknowledged and hung up, once, exactly when the first final response that
    arrives before the transaction or the timer ends is a 2xx; the watch always ends
    at the first of these. *)
Theorem watchCancelledInvite_exact script :
  watchCancelledInvite script =
  match List.find (fun e => match e with
                            | WResponse (Some r) => negb (Z.quot (StatusCode r) 100 =? 1)
                            | _ => true
                            end) script with
  | None => ([], false)
  | Some (WResponse (Some r)) =>
      if Z.quot (StatusCode r) 100 =? 2
      then ([WAnswered (StatusCode r); WAck; WBye; WTerminate], true) else ([WTerminate], true)
  | Some _ => ([WTerminate], true)
  end.
Proof.
  induction script as [|[[r|]| |] l IH]; try done. cbn.
  destruct (Z.quot (StatusCode r) 100 =? 1); [exact IH|done].
Qed.

(** After the answer, requests of the dialog go to the Contact of the answer (port
    5060 when it has none), through the Record-Route proxies in reverse order, whatever
    Route headers the INVITE had; the address the INVITE was sent to is kept only
    when neither the host and port nor the routes changed. *)
Theorem applyInviteResponse_route recipient routes contact recordRoutes :
  let '(to, route, flush) := applyInviteResponse recipient routes contact recordRoutes in
  route = rev recordRoutes /\
  to = match contact with Some c => defaultPort c | None => recipient end /\
  (flush = false <->
   routes = [] /\ recordRoutes = [] /\
   match contact with
   | Some c => EqualFold (su_Host recipient) (su_Host c) = true /\
               su_Port (defaultPort recipient) = su_Port (defaultPort c)
   | None => True
   end).
Proof.
  assert (forall u, su_Host (defaultPort u) = su_Host u) as Hh
    by (intros u; unfold defaultPort; by destruct (_ =? _)).
  unfold applyInviteResponse. destruct contact as [c|]; cbn; split_and!; try done.
  - rewrite !Hh, !orb_false_iff, !negb_false_iff, Z.eqb_eq, !Nat.eqb_eq, !length_zero_iff_nil. tauto.
  - rewrite !orb_false_iff, !negb_false_iff, !Nat.eqb_eq, !length_zero_iff_nil. tauto.
Qed.

(** *** Instances *)
#[local] Instance exDigest : DigestClient :=
  {| DigestChallenge := string;
     ParseChallenge := fun s => if String.eqb s "" then None else Some s;
     ClientDigest := fun ch m uri u p => inr ("Digest " +:+ u) |}.

Definition exEnv (codes : list Z) (i : nat) : AttemptEnv :=
  {| ae_now := 5; ae_transport := "UDP";
     ae_tx := match codes !! i with
              | Some c => inr [EvResponse (Some (exResponse 180));
                               EvResponse (Some {| StatusCode := c; resp_Reason := "";
                                 GetHeader := fun _ => Some "nonce";
                                 resp_To := Some ("sip:a@b", Some "tag"); resp_Body := "v=0" |})]
              | None => inl (ESentinel ErrAuthMaxRetry)
              end |}.

Lemma Invite_returns_witness :
  (forall i, (i < 5)%nat -> decisive (exEnv [407; 401; 200] i) = true) /\
  result_of (Invite (exEnv [407; 401; 200]) 9 "u" "p" (newOutbound "id")) <> None /\
  invitesOf (trace_of (Invite (exEnv [407; 401; 200]) 9 "u" "p" (newOutbound "id"))) =
    [(1, None); (2, Some ("Proxy-Authorization", "Digest u")); (3, Some ("Authorization", "Digest u"))].
Proof.
  assert (forall i, (i < 5)%nat -> decisive (exEnv [407; 401; 200] i) = true) as Hd
    by (intros i Hi; do 5 (destruct i as [|i]; [reflexivity|]); lia).
  split; [exact Hd|]. split; [apply (Invite_returns _ _ _ _ _ Hd)|vm_compute; reflexivity].
Defined.

Lemma Close_bye_count_witness :
  omap (fun e => match e with OBye q _ => Some q | _ => None end)
    (trace_of (mbind' (CloseO true 4 0 0 None None) (fun _ => CloseO true 4 0 0 None None)
       (set_dialog (Some 3) true 4 (newOutbound "id")))) = [4; 4].
Proof. apply (Close_bye_count true 4 0 0 None None _ 3); reflexivity. Defined.
