(* ===== verification/Uac.v ===== *)
(** * The outbound dialog as a user agent client

    The counterpart of [Uas] for calls that the service makes: a specification of what a
    caller may send (RFC 3261, sections 13.2, 9.1, 12.2 and 15.1), and the theorem that
    [sipOutbound] of [pkg/sip/outbound.go] refines it.  The specification fixes how many
    INVITEs there may be, that a CANCEL ends the attempt, after which only an answer that
    crossed the CANCEL is acknowledged and hung up, that the ACK repeats the sequence
    number of the answered INVITE and that later requests count on from it.

    The requests are listed in the order in which they are made, under the lock of the
    dialog.  A REFER is sent by its goroutine after the lock is released, so on the wire
    it may come later, even after the BYE: [delayed] relates the two orders. *)

From stdpp Require Import base tactics list strings option.
From Stdlib Require Import ZArith Ascii Lia.
From S2P Require Import Prelude GoStd GoErr Errors Types Protocol CallState SipOutbound.

(** ** Specification *)

(** A BYE is [waited] for, or thrown at the network while the service stops. *)
Inductive cmsg :=
| CInvite (cseq : Z) (auth : bool) | CCancel | CAck (cseq : Z) | CRefer (cseq : Z) | CBye (cseq : Z) (waited : bool)
| CLateBye (cseq : Z).                        (* of the watch of a cancelled INVITE *)

(** [i]: the number of the last INVITE, [n]: of the next request, [k]: the INVITEs sent. *)
Inductive uac :=
| Idle (n : Z)
| Calling (k : nat) (i n : Z)
| Cancelled (i : Z)
| LateAcked
| Up (i n : Z)
| Closed.

Definition maxInvites : nat := 5.

Inductive cstep : uac -> option cmsg -> uac -> Prop :=
| c_invite n : cstep (Idle n) (Some (CInvite n false)) (Calling 1 n (u32 (n + 1)))
| c_retry k i n a : (k < maxInvites)%nat -> cstep (Calling k i n) (Some (CInvite n a)) (Calling (S k) n (u32 (n + 1)))
| c_cancel k i n : cstep (Calling k i n) (Some CCancel) (Cancelled i)
(** an answer crossed the CANCEL *)
| c_late_ack i : cstep (Cancelled i) (Some (CAck i)) LateAcked
| c_late_bye c : cstep LateAcked (Some (CLateBye c)) Closed
| c_answered k i n : cstep (Calling k i n) None (Up i n)
| c_ack i n : cstep (Up i n) (Some (CAck i)) (Up i n)
| c_refer i n : cstep (Up i n) (Some (CRefer n)) (Up i (u32 (n + 1)))
| c_bye i n : cstep (Up i n) (Some (CBye n true)) Closed
(** while the service stops the dialog is kept *)
| c_stopping i n c : cstep (Up i n) (Some (CBye c false)) (Up i n)
| c_unsent n : cstep (Idle n) None Closed
| c_failed k i n : cstep (Calling k i n) None Closed
| c_given_up i : cstep (Cancelled i) None Closed
| c_hung_up i n : cstep (Up i n) None Closed.

Inductive cruns : uac -> list cmsg -> uac -> Prop :=
| cruns_nil u : cruns u [] u
| cruns_silent u u1 w u2 : cstep u None u1 -> cruns u1 w u2 -> cruns u w u2
| cruns_cons u x u1 w u2 : cstep u (Some x) u1 -> cruns u1 w u2 -> cruns u (x :: w) u2.

#[export] Hint Constructors cstep cruns : go.

Lemma cruns_app u w1 u1 w2 u2 : cruns u w1 u1 -> cruns u1 w2 u2 -> cruns u (w1 ++ w2) u2.
Proof. induction 1; cbn [app]; eauto with go. Qed.

(** ** Abstraction *)

(** What an effect stands for when the requests are made, and on the wire. *)
Definition msgOf (e : OEffect) : option cmsg :=
  match e with
  | OInvite c h => Some (CInvite c (bool_decide (is_Some h)))
  | OTxCancel | OCancelReq _ => Some CCancel
  | OAck c | OLateAck c => Some (CAck c)
  | OGo c => Some (CRefer c)
  | OBye c waited => Some (CBye c waited)
  | OLateBye c => Some (CLateBye c)
  | _ => None
  end.

Definition wireOf (e : OEffect) : option cmsg :=
  match e with OGo _ => None | ORefer c => Some (CRefer c) | _ => msgOf e end.

Definition msgs (t : list OEffect) : list cmsg := omap msgOf t.
Definition wires (t : list OEffect) : list cmsg := omap wireOf t.

Lemma msgs_app t1 t2 : msgs (t1 ++ t2) = msgs t1 ++ msgs t2.
Proof. apply omap_app. Qed.

(** A dialog that is not set is one that is over, once the INVITE is; a cancelled INVITE that is
    watched may still be answered. *)
Definition absO (s : sipOutbound) : uac :=
  match so_watch s with
  | c :: _ => Cancelled c
  | [] => match so_invite s with
          | Some i => if so_inviteOk s then Up i (nextCSeq s) else Closed
          | None => Closed
          end
  end.

(** ** REFERs: made, and sent later *)
Definition isRefer (m : cmsg) : bool := match m with CRefer _ => true | _ => false end.

Definition refersOf : list cmsg -> list Z := omap (fun m => match m with CRefer c => Some c | _ => None end).

(** On the wire, everything but the REFERs is in the order in which it was made, and each REFER
    that was made is sent at most once. *)
Definition delayed (made w : list cmsg) : Prop :=
  List.filter (fun m => negb (isRefer m)) w = List.filter (fun m => negb (isRefer m)) made /\
  refersOf w ⊆+ refersOf made.

(** What a step does with the REFERs that are waiting to be sent. *)
Definition delayR (s : sipOutbound) (t : list OEffect) (s' : sipOutbound) : Prop :=
  exists lost, so_refers s ++ refersOf (msgs t) ≡ₚ refersOf (wires t) ++ lost ++ so_refers s'.

#[export] Instance delayR_rel : TraceRel delayR.
Proof.
  split; unfold delayR.
  - intros s. exists []. cbn. by rewrite app_nil_r.
  - intros s1 t1 s2 t2 s3 [l1 H1] [l2 H2]. exists (l1 ++ l2). unfold msgs, wires, refersOf in *.
    rewrite !omap_app, app_assoc, H1, <- !app_assoc, H2. f_equiv. apply Permutation_app_swap_app.
Qed.

Definition noRefers (s : sipOutbound) (t : list OEffect) (s' : sipOutbound) : Prop :=
  so_refers s' = so_refers s /\ Forall (fun e => match e with OGo _ | ORefer _ => False | _ => True end) t.

#[export] Instance noRefers_rel : TraceRel noRefers.
Proof.
  split; unfold noRefers; [done|]. intros s1 t1 s2 t2 s3 [E1 F1] [E2 F2]. split; [congruence | by apply Forall_app].
Qed.

Lemma noRefers_delayR s t s' : noRefers s t s' -> delayR s t s'.
Proof.
  intros [E F]. exists []. rewrite E. cbn. assert (refersOf (msgs t) = [] /\ refersOf (wires t) = []) as [-> ->].
  { unfold msgs, wires, refersOf. clear E. induction F as [|e t He _ [I1 I2]]; [done|]. by destruct e; cbn. }
  by rewrite app_nil_r.
Qed.

Lemma mrel_noRefers {A} (m : M sipOutbound OEffect A) : mrel noRefers m -> mrel delayR m.
Proof. intros Hm s. eapply mspec_mono; [apply Hm|]. cbv beta. intros. by apply noRefers_delayR. Qed.

Ltac norefer_step :=
  first [ done | lazymatch goal with
                 | |- noRefers _ _ _ => by (split; [done | repeat constructor])
                 | |- _ => rel_step
                 end ].

Section refers.
Context `{DigestClient}.

Lemma replay_noRefers now cseq l : mrel noRefers (replay now cseq l).
Proof.
  induction l as [|[|code|] l IH]; cbn [replay]; unfold onResponse, emitEvent; repeat norefer_step.
Qed.

Lemma Invite_noRefers env now user pass : mrel noRefers (Invite env now user pass).
Proof.
  assert (forall fuel try name cred last, mrel noRefers (authLoop fuel env user pass try name cred last)) as Hl.
  { induction fuel as [|fuel IH]; intros; cbn [authLoop]; unfold attemptInvite, takeCSeqO, emitEvent;
      repeat first [apply replay_noRefers | norefer_step]. }
  unfold Invite, inviteDefer, emitEvent. repeat first [apply Hl | norefer_step].
Qed.

Lemma newReferO_delay closing : mrel delayR (newReferO closing).
Proof.
  intros s. unfold newReferO, takeCSeqO. mstep. mstep.
  repeat (case_match; [|mstep; apply (tr_refl (R := delayR))]).
  case_match; [mstep; apply (tr_refl (R := delayR))|]. repeat mstep. exists []. done.
Qed.

Lemma sendReferO_delay cseq refer wait : mrel delayR (sendReferO cseq refer wait).
Proof.
  intros s. unfold sendReferO. mstep. mstep. destruct (removeOne cseq (so_refers s)) as [rest|] eqn:E; [|mstep; apply (tr_refl (R := delayR))].
  apply removeOne_perm in E. mstep. mstep. mstep.
  destruct refer as [err|script]; repeat mstep; repeat case_match; mstep.
  all: first [ exists [cseq]; cbn; by rewrite app_nil_r | exists []; cbn; by rewrite app_nil_r ].
Qed.

Lemma watchReplay_noRefers now cseq lib l : mrel noRefers (watchReplay now cseq lib l).
Proof. induction l as [|[] l IH]; cbn [watchReplay]; unfold emitEvent; repeat norefer_step. Qed.

Lemma watchLate_noRefers cseq now lib script : mrel noRefers (watchLate cseq now lib script).
Proof.
  intros s. unfold watchLate. mstep. mstep. destruct (removeOne cseq (so_watch s)); [|by mstep].
  destruct (watchCancelledInvite script) as [eff []]; [|by mstep]. mstep. mstep.
  eapply mspec_mono; [apply watchReplay_noRefers|]. cbv beta. intros _ s' t [E F]. by split.
Qed.

Lemma CloseO_noRefers closing lib now endAt res err : mrel noRefers (CloseO closing lib now endAt res err).
Proof. unfold CloseO, sendByeO, sendCancel, dropO, takeCSeqO, emitEvent. repeat norefer_step. Qed.

Lemma AcceptByeO_noRefers : mrel noRefers AcceptByeO.
Proof. unfold AcceptByeO, dropO. repeat norefer_step. Qed.

Lemma AckInviteOK_noRefers now w : mrel noRefers (AckInviteOK now w).
Proof. unfold AckInviteOK, emitEvent. repeat norefer_step. Qed.

Lemma runOOp_delay o : mrel delayR (runOOp o).
Proof.
  destruct o; cbn [runOOp];
    try (rel_step; [first [apply newReferO_delay | apply sendReferO_delay
                          | apply mrel_noRefers; first [apply Invite_noRefers | apply AckInviteOK_noRefers]] | rel_step]);
    apply mrel_noRefers; first [apply watchLate_noRefers | apply CloseO_noRefers | apply AcceptByeO_noRefers
      | unfold dropO, RecordInvite; rel_step; by repeat case_match ].
Qed.

Lemma runOOps_delay l : mrel delayR (runOOps l).
Proof. induction l as [|o l IH]; cbn [runOOps]; [rel_step|]. rel_step; [apply runOOp_delay | done]. Qed.
End refers.

(** From a state in which no REFER waits to be sent. *)
Lemma delayRO_delayed s t s' : so_refers s = [] -> delayR s t s' -> delayed (msgs t) (wires t).
Proof.
  intros Hs [lost Hp]. rewrite Hs in Hp. cbn in Hp. split.
  - clear. unfold msgs, wires. induction t as [|e t IH]; [done|]. by destruct e; cbn; rewrite ?IH.
  - rewrite Hp. apply submseteq_inserts_r. done.
Qed.

(** ** The INVITE *)
Definition dialogO (s : sipOutbound) : option Z * bool := (so_invite s, so_inviteOk s).

(** Steps that send nothing and keep the dialog, its numbers and the watches. *)
Definition innerO (s : sipOutbound) (t : list OEffect) (s' : sipOutbound) : Prop :=
  dialogO s' = dialogO s /\ nextCSeq s' = nextCSeq s /\ so_watch s' = so_watch s /\ msgs t = [].

#[export] Instance innerO_rel : TraceRel innerO.
Proof.
  split; unfold innerO; [done|]. intros s1 t1 s2 t2 s3 (D1 & N1 & H1 & W1) (D2 & N2 & H2 & W2).
  rewrite msgs_app, W1, W2. split_and!; [congruence..|done].
Qed.

Lemma mspec_innerO {A} (m : M sipOutbound OEffect A) s (Q : A -> sipOutbound -> list OEffect -> Prop) :
  mrel innerO m -> (forall a s' t, innerO s t s' -> Q a s' t) -> mspec m s Q.
Proof. intros Hm HQ. eapply mspec_mono; [apply Hm|]. cbv beta. eauto. Qed.

Lemma onResponse_inner now cseq code : mrel innerO (onResponse now cseq code).
Proof. unfold onResponse, emitEvent. repeat rel_step; done. Qed.

Definition cancelOf (e : TxEffect) : option cmsg := match e with TxCancel => Some CCancel | _ => None end.

Lemma replay_msgs now cseq l s :
  mspec (replay now cseq l) s (fun _ s' t =>
    dialogO s' = dialogO s /\ nextCSeq s' = nextCSeq s /\ so_watch s' = so_watch s /\ msgs t = omap cancelOf l).
Proof.
  revert s. induction l as [|[|code|] l IH]; intros s; cbn [replay]; [by mstep|..].
  - mstep. mstep. eapply mspec_mono; [apply IH|]. cbv beta. intros _ s' t (D & N & H & W). by rewrite msgs_app, W.
  - mstep. apply mspec_innerO; [apply onResponse_inner|]. intros _ s1 t1 (D1 & N1 & H1 & W1).
    eapply mspec_mono; [apply IH|]. cbv beta. intros _ s' t (D & N & H & W). rewrite msgs_app, W, W1.
    split_and!; [congruence..|done].
  - mstep. mstep. eapply mspec_mono; [apply IH|]. cbv beta. intros _ s' t (D & N & H & W). by rewrite msgs_app, W.
Qed.

(** A CANCEL is sent when the loop reports one, and then there is no response. *)
Lemma sipResponse_cancels hs cb cnt script :
  omap cancelOf (sipResponse hs cb cnt script).1 =
  match (sipResponse hs cb cnt script).2 with
  | Some r => if String.eqb (tx_cancelled r) "" then [] else [CCancel]
  | None => []
  end.
Proof.
  revert cnt. induction script as [|[c| | |[resp|]] l IH]; intros cnt; cbn; try done.
  - by destruct (errors.Is c ErrSIPRequestTimeout).
  - destruct hs; [done | apply IH].
  - destruct (negb _); [by destruct cb|]. specialize (IH (cnt + 1)).
    destruct (sipResponse hs cb (cnt + 1) l) as [eff r]. cbn in *. rewrite omap_app, IH. by destruct cb.
Qed.

Section invite.
Context `{DigestClient}.

(** The specification before attempt number [try]. *)
Definition before (try : nat) (s : sipOutbound) (u : uac) : Prop :=
  match try with
  | O => u = Idle (nextCSeq s)
  | S _ => exists i, u = Calling try i (nextCSeq s)
  end.

(** It can be given up. *)
Definition pending (u : uac) : Prop := cstep u None Closed.

Lemma before_pending try s u : before try s u -> pending u.
Proof. destruct try; [intros -> | intros [i ->]]; unfold pending; eauto with go. Qed.

Lemma before_invite try s u a : (try < maxInvites)%nat -> before try s u -> (try = 0%nat -> a = false) ->
  cstep u (Some (CInvite (nextCSeq s) a)) (Calling (S try) (nextCSeq s) (u32 (nextCSeq s + 1))).
Proof. intros Ht. destruct try; [intros -> Ha; rewrite Ha by done | intros [i ->] _]; eauto with go. Qed.

(** An INVITE that was given up, or cancelled and is watched. *)
Definition givenUp (u : uac) (s s' : sipOutbound) (t : list OEffect) : Prop :=
  exists u', cruns u (msgs t) u' /\
    (pending u' /\ so_watch s' = so_watch s \/ exists c, u' = Cancelled c /\ so_watch s' = so_watch s ++ [c]).

(** What an attempt sends, by its outcome. *)
Definition attempted (try : nat) (u : uac) (s : sipOutbound) (a : Attempt) (s' : sipOutbound) (t : list OEffect) : Prop :=
  dialogO s' = dialogO s /\
  match a with
  | AResp c _ => so_watch s' = so_watch s /\ cruns u (msgs t) (Calling (S try) c (nextCSeq s'))
  | _ => givenUp u s s' t
  end.

Lemma attemptInvite_runs e name cred try u s :
  (try < maxInvites)%nat -> (try = 0%nat -> withAuth name cred = None) -> before try s u ->
  mspec (attemptInvite e name cred) s (attempted try u s).
Proof.
  intros Ht Hn Hb. unfold attemptInvite, takeCSeqO, attempted. mstep. mstep. mstep. mstep. mstep. mstep.
  assert (cstep u (Some (CInvite (nextCSeq s) (bool_decide (is_Some (withAuth name cred)))))
            (Calling (S try) (nextCSeq s) (u32 (nextCSeq s + 1)))) as Hi.
  { apply before_invite; [done..|]. intros E. by rewrite Hn. }
  destruct (ae_tx e) as [err|script].
  { mstep. split; [done|]. exists u. split; [apply cruns_nil | left; split; [by eapply before_pending | done]]. }
  mstep. mstep. unfold emitEvent. mstep. mstep.
  pose proof (sipResponse_cancels true true 0 script) as Hc. pose proof (sipResponse_outcome true true 0 script) as Ho.
  assert (forall t1 s', msgs t1 = [] -> so_watch s' = so_watch s ->
    givenUp u s s' ([OInvite (nextCSeq s) (withAuth name cred)] ++ t1)) as Hgo.
  { intros t1 s' W1 H1. eexists. rewrite msgs_app, W1. split; [cbn; eauto with go|]. left. unfold pending. eauto with go. }
  destruct (sipResponse true true 0 script) as [eff [r|]]; cbn [fst snd] in Hc, Ho.
  - mstep. eapply mspec_mono; [apply replay_msgs|]. cbv beta. intros _ s1 t1 (D1 & N1 & H1 & W1). rewrite Hc in W1. mstep.
    destruct (String.eqb_spec (tx_cancelled r) "") as [Ec|Ec].
    + repeat mstep. split; [done|].
      destruct (tx_err r), (tx_res r); try (apply Hgo; [rewrite !msgs_app, W1|]; done).
      split; [done|]. rewrite !msgs_app, W1. cbn. rewrite N1. eauto with go.
    + repeat mstep. split; [done|].
      destruct (tx_err r) eqn:Ee; [|destruct (Ho r eq_refl Ee) as (? & _ & ?); done].
      exists (Cancelled (nextCSeq s)). rewrite !msgs_app, W1. split; [cbn; eauto with go|]. right. eexists. split; [done|].
      cbn. by rewrite H1.
  - mstep. eapply mspec_mono; [apply replay_msgs|]. cbv beta. intros _ s1 t1 (D1 & N1 & H1 & W1). rewrite Hc in W1. mstep.
    split; [done|]. apply Hgo; [rewrite !msgs_app, W1|]; done.
Qed.

Definition looped (u : uac) (s : sipOutbound) (r : InviteResult) (s' : sipOutbound) (t : list OEffect) : Prop :=
  dialogO s' = dialogO s /\
  match r with
  | InvOk c _ => so_watch s' = so_watch s /\ exists k, cruns u (msgs t) (Calling k c (nextCSeq s'))
  | _ => givenUp u s s' t
  end.

Lemma looped_after u u1 s s1 r s' t1 t : cruns u (msgs t1) u1 -> dialogO s1 = dialogO s -> so_watch s1 = so_watch s ->
  looped u1 s1 r s' t -> looped u s r s' (t1 ++ t).
Proof.
  intros H1 D1 Hw [D Hr]. unfold looped, givenUp in *. rewrite msgs_app, Hw in *. split; [congruence|].
  destruct r; [destruct Hr as (u' & ? & ?); exists u'; split; [by eapply cruns_app | done]..|].
  destruct Hr as [? [k Hk]]. split; [done|]. exists k. by eapply cruns_app.
Qed.

Lemma authLoop_runs env user pass fuel : forall try name cred last u s,
  (try = 0%nat -> withAuth name cred = None) -> before try s u ->
  mspec (authLoop fuel env user pass try name cred last) s (looped u s).
Proof.
  assert (forall try u s (r : InviteResult), before try s u -> (forall c resp, r <> InvOk c resp) -> looped u s r s []) as Hend.
  { intros try u s r Hb Hr. split; [done|]. destruct r; [..|by edestruct Hr]; exists u;
      (split; [apply cruns_nil | left; split; [by eapply before_pending | done]]). }
  induction fuel as [|fuel IH]; intros try name cred last u s Hn Hb; cbn [authLoop]; [mstep; by eapply Hend|].
  destruct (Nat.leb_spec 5 try) as [H5|H5]; [mstep; by eapply Hend|].
  mstep. eapply mspec_mono; [by apply attemptInvite_runs|]. cbv beta. intros a s1 t1 [D1 R1].
  destruct a as [|err|c resp]; [mstep; rewrite app_nil_r; by split..|]. destruct R1 as [H1 R1].
  mstep. apply mspec_innerO; [repeat rel_step; done|]. intros _ s2 t2 (D2 & N2 & H2 & W2).
  mstep. apply mspec_innerO; [unfold emitEvent; repeat rel_step; done|]. intros _ s3 t3 (D3 & N3 & H3 & W3).
  assert (cruns u (msgs (t1 ++ t2 ++ t3)) (Calling (S try) c (nextCSeq s3))) as Hr.
  { rewrite !msgs_app, W2, W3, !app_nil_r. congruence. }
  assert (dialogO s3 = dialogO s) as Hd by congruence. assert (so_watch s3 = so_watch s) as Hw by congruence.
  assert (forall r, (forall c resp, r <> InvOk c resp) -> looped u s r s3 ((t1 ++ t2 ++ t3) ++ [])) as Hstop.
  { intros r Hne. eapply looped_after; [exact Hr|done|done|]. by apply (Hend (S try)); [exists c|]. }
  assert (forall t, t1 ++ t2 ++ t3 ++ t = (t1 ++ t2 ++ t3) ++ t) as Ea by (intros; by rewrite <- !app_assoc).
  case_match; [mstep; rewrite Ea; split; [done|]; rewrite app_nil_r; split; [done|]; by eexists|].
  case_match; [|mstep; rewrite Ea; by apply Hstop].
  destruct (answerChallenge user pass resp) as [err|[name' cred']]; [mstep; rewrite Ea; by apply Hstop|].
  eapply mspec_mono; [apply (IH (S try) name' cred' _ (Calling (S try) c (nextCSeq s3))); [done | by exists c]|].
  cbv beta. intros r s4 t4 Hl. rewrite Ea. by eapply looped_after.
Qed.
End invite.

(** The states of a dialog: set or not, and a cancelled INVITE is watched only without one. *)
Definition okO (s : sipOutbound) : Prop :=
  paired s /\ (so_watch s = [] \/ (exists c, so_watch s = [c]) /\ dialogO s = (None, false)).

Lemma Invite_runs `{DigestClient} env now user pass s : dialogO s = (None, false) -> so_watch s = [] ->
  mspec (Invite env now user pass) s (fun _ s' t =>
    okO s' /\ cruns (Idle (nextCSeq s)) (msgs t) (absO s')).
Proof.
  intros Hs Hw. unfold Invite. mstep. eapply mspec_mono; [by apply (authLoop_runs env user pass _ 0 _ _ _ (Idle (nextCSeq s)))|].
  cbv beta. intros r s1 t1 [D1 R1]. rewrite Hs in D1. unfold dialogO in D1. injection D1 as Di Dk.
  assert (forall s2 t2, innerO s1 t2 s2 -> givenUp (Idle (nextCSeq s)) s s1 t1 ->
    okO s2 /\ cruns (Idle (nextCSeq s)) (msgs (t1 ++ t2)) (absO s2)) as Hover.
  { intros s2 t2 (D2 & N2 & H2 & W2) (u' & Hu & Hp). unfold dialogO in D2. injection D2 as Ei Eo.
    unfold okO, paired, dialogO, absO. rewrite Ei, Eo, Di, Dk, H2, msgs_app, W2, app_nil_r.
    destruct Hp as [[Hp ->]|(c & -> & ->)]; rewrite Hw; cbn.
    - split; [auto|]. rewrite <- (app_nil_r (msgs t1)). eapply cruns_app; [exact Hu|]. eapply cruns_silent; [exact Hp | apply cruns_nil].
    - split; [|done]. split; [done|]. right. eauto. }
  destruct r as [| |err last|c resp].
  - mstep. by apply Hover.
  - mstep. by apply Hover.
  - mstep. apply mspec_innerO; [unfold inviteDefer, emitEvent; repeat rel_step; done|]. intros _ s2 t2 Hi. mstep.
    rewrite (app_nil_r t2). by apply Hover.
  - destruct R1 as [Hw1 [k Hk]]. rewrite Hw in Hw1. mstep. mstep.
    assert (cruns (Idle (nextCSeq s)) (msgs t1) (Up c (nextCSeq s1))) as Hup.
    { rewrite <- (app_nil_r (msgs t1)). eapply cruns_app; [exact Hk|]. eauto with go. }
    repeat case_match; repeat mstep; (split; [split; [done | by left]|]); rewrite !msgs_app; cbn; rewrite app_nil_r;
      unfold absO; cbn; by rewrite Hw1.
Qed.

(** ** The other methods *)
Definition simO (s : sipOutbound) (t : list OEffect) (s' : sipOutbound) : Prop :=
  okO s -> okO s' /\ cruns (absO s) (msgs t) (absO s').

#[export] Instance simO_rel : TraceRel simO.
Proof.
  split; unfold simO.
  - intros s Hp. split; [done | apply cruns_nil].
  - intros s1 t1 s2 t2 s3 H1 H2 Hp. destruct (H1 Hp) as [Hp2 R1]. destruct (H2 Hp2) as [Hp3 R2].
    split; [done|]. rewrite msgs_app. by eapply cruns_app.
Qed.

Lemma innerO_simO s t s' : innerO s t s' -> simO s t s'.
Proof.
  intros (D & N & H & W) Hp. unfold okO, paired, dialogO in *. injection D as Di Dk. unfold absO in *.
  rewrite W, Di, Dk, N, H. split; [done | apply cruns_nil].
Qed.

(** With the INVITE and its answer kept together, a dialog is up, over, or cancelled. *)
Lemma okO_cases s : okO s ->
  (exists c, so_invite s = Some c /\ so_inviteOk s = true /\ so_watch s = [] /\ absO s = Up c (nextCSeq s)) \/
  (so_invite s = None /\ so_inviteOk s = false /\ so_watch s = [] /\ absO s = Closed) \/
  (exists c, so_invite s = None /\ so_inviteOk s = false /\ so_watch s = [c] /\ absO s = Cancelled c).
Proof.
  unfold okO, paired, absO, dialogO. intros [Hp [Hw|[[c Hw] Hd]]]; rewrite Hw.
  - destruct (so_invite s) as [c|]; rewrite Hp; [left; by exists c | right; by left].
  - injection Hd as -> ->. right. right. eauto.
Qed.

(** A step without a dialog that sends nothing. *)
Lemma sim_none s s' t : so_invite s = None -> dialogO s' = (None, false) -> so_watch s' = so_watch s -> msgs t = [] -> simO s t s'.
Proof.
  intros Hn Hd Hw Ht Hk. unfold dialogO in Hd. injection Hd as Di Dk. unfold okO, paired, dialogO, absO. rewrite Di, Dk, Hw, Ht, Hn.
  split; [|by destruct (so_watch s); constructor]. split; [done|]. destruct Hk as [_ [?|[? _]]]; auto.
Qed.

Lemma dropO_sim : mrel simO dropO.
Proof.
  intros s. unfold dropO. mstep. intros Hk. pose proof Hk as Hk'.
  destruct (okO_cases s Hk) as [(c & Ei & Eo & Ew & ->)|[(Ei & Eo & Ew & Ea)|(c & Ei & Eo & Ew & Ea)]].
  - unfold okO, absO; cbn. rewrite Ew. split; [split; [done | by left]|]. eauto with go.
  - by apply sim_none.
  - by apply sim_none.
Qed.

Lemma RecordInvite_sim cseq : mrel simO (RecordInvite cseq).
Proof. intros s. unfold RecordInvite. mstep. apply innerO_simO. by destruct (_ <? _). Qed.

(** An operation that needs a dialog: what it does with one. *)
Lemma sim_up s t s' : (forall c, so_invite s = Some c -> so_inviteOk s = true -> so_watch s = [] ->
    okO s' /\ cruns (Up c (nextCSeq s)) (msgs t) (absO s')) ->
  so_invite s <> None -> simO s t s'.
Proof.
  intros Hu Hn Hk. destruct (okO_cases s Hk) as [(c & Ei & Eo & Ew & ->)|[(Ei & _)|(c & Ei & _)]]; [by apply Hu|done..].
Qed.

Lemma AckInviteOK_sim now w : mrel simO (AckInviteOK now w).
Proof.
  intros s. unfold AckInviteOK, emitEvent. mstep. mstep.
  destruct (so_invite s) as [c|] eqn:Ei; [|mstep; apply (tr_refl (R := simO))].
  destruct (so_inviteOk s) eqn:Eo; [|mstep; apply (tr_refl (R := simO))].
  destruct w; repeat mstep; (apply sim_up; [|congruence]); intros c' Ei' _ Ew; simplify_eq;
    (split; [split; [unfold paired; by rewrite Ei, Eo | by left]|]); unfold absO; rewrite Ei, Eo, Ew; cbn; eauto with go.
Qed.

Lemma AcceptByeO_sim : mrel simO AcceptByeO.
Proof.
  unfold AcceptByeO. apply mrel_bind; [apply _| |intros _; apply dropO_sim]. intros s. mstep. by apply innerO_simO.
Qed.

Lemma newReferO_sim closing : mrel simO (newReferO closing).
Proof.
  intros s. unfold newReferO. mstep. mstep.
  destruct (so_invite s) as [c|] eqn:Ei; [|mstep; apply (tr_refl (R := simO))].
  destruct (so_inviteOk s) eqn:Eo; [|mstep; apply (tr_refl (R := simO))].
  destruct closing; [mstep; apply (tr_refl (R := simO))|]. unfold takeCSeqO. repeat mstep.
  apply sim_up; [|congruence]. intros c' Ei' _ Ew; simplify_eq.
  split; [split; [unfold paired; cbn; by rewrite Ei, Eo | by left]|]. unfold absO; cbn; rewrite Ei, Eo, Ew; cbn; eauto with go.
Qed.

Lemma sendReferO_sim cseq refer wait : mrel simO (sendReferO cseq refer wait).
Proof.
  intros s. unfold sendReferO. mstep. mstep. destruct (removeOne cseq (so_refers s)); [|mstep; apply (tr_refl (R := simO))].
  mstep. mstep. mstep. destruct refer; repeat mstep; repeat case_match; mstep; by apply innerO_simO.
Qed.

Lemma watchLate_sim cseq now lib script : mrel simO (watchLate cseq now lib script).
Proof.
  intros s. unfold watchLate. mstep. mstep. destruct (removeOne cseq (so_watch s)) as [rest|] eqn:E; [|mstep; apply (tr_refl (R := simO))].
  assert (okO s -> rest = [] /\ absO s = Cancelled cseq /\ dialogO s = (None, false)) as Hc.
  { intros Hk. destruct (okO_cases s Hk) as [(c & _ & _ & Ew & _)|[(_ & _ & Ew & _)|(c & Ei & Eo & Ew & Ea)]]; rewrite Ew in E; cbn in E; try done.
    destruct (Z.eqb_spec cseq c) as [->|]; [|done]. simplify_eq. unfold dialogO. by rewrite Ei, Eo. }
  assert (forall t, (okO s -> cruns (Cancelled cseq) (msgs t) Closed) -> simO s t (set_pending (so_refers s) rest s)) as Hsim.
  { intros t Ht Hk. destruct (Hc Hk) as (-> & -> & Hd). unfold dialogO in Hd. injection Hd as Ei Eo.
    split; [split; [unfold paired; cbn; by rewrite Ei, Eo | by left]|]. unfold absO; cbn. rewrite Ei. auto. }
  destruct (watchCancelledInvite_cases script) as [->|[->|[code ->]]]; cbn [watchReplay]; unfold emitEvent; repeat mstep;
    [apply (tr_refl (R := simO)) | apply Hsim; intros _; cbn; eauto with go..].
Qed.

Lemma CloseO_sim closing lib now endAt res err : mrel simO (CloseO closing lib now endAt res err).
Proof.
  intros s. unfold CloseO. mstep. mstep. unfold sendByeO, emitEvent.
  destruct (so_inviteOk s) eqn:Eo.
  - mstep. mstep. destruct (so_invite s) as [c|] eqn:Ei; [|mstep; apply (tr_refl (R := simO))]. rewrite Eo.
    destruct closing; unfold takeCSeqO, dropO; repeat mstep; (apply sim_up; [|congruence]); intros c' Ei' _ Ew; simplify_eq;
      (split; [split; [unfold paired; cbn; by rewrite ?Ei, ?Eo | by left]|]); unfold absO; cbn; rewrite ?Ei, ?Eo, Ew; cbn; eauto with go.
  - destruct (so_invite s) as [c|] eqn:Ei; [|apply dropO_sim]. intros; unfold sendCancel, dropO. mstep. mstep. rewrite Ei. repeat mstep.
    intros [Hp _]. unfold paired in Hp. by rewrite Ei, Eo in Hp.
Qed.

Lemma runOOp_sim `{DigestClient} o :
  match o with OpInvite _ _ _ _ => False | _ => True end -> mrel simO (runOOp o).
Proof.
  destruct o; cbn [runOOp]; intros Ho; [done|..];
    repeat first [ apply RecordInvite_sim | apply AckInviteOK_sim | apply AcceptByeO_sim | apply newReferO_sim | apply sendReferO_sim
                 | apply watchLate_sim | apply CloseO_sim | apply dropO_sim | rel_step ].
Qed.

(** ** The language of the specification *)

(** INVITEs with consecutive sequence numbers, by whether they carry credentials. *)
Fixpoint invitesFrom (n : Z) (auths : list bool) : list cmsg :=
  match auths with [] => [] | a :: l => CInvite n a :: invitesFrom (u32 (n + 1)) l end.

(** The dialog of INVITE [i]: its ACKs, transfers numbered from [n], and at most one BYE,
    which is the last request. *)
Fixpoint talk (i n : Z) (w : list cmsg) : Prop :=
  match w with
  | [] => True
  | CAck c :: w' => c = i /\ talk i n w'
  | CRefer c :: w' => c = n /\ talk i (u32 (n + 1)) w'
  | CBye c _ :: w' => c = n /\ w' = []
  | _ => False
  end.

(** After a CANCEL of INVITE [i]: nothing, or the ACK and the BYE for an answer that crossed it. *)
Definition late (i : Z) (w : list cmsg) : Prop := exists c, w `prefix_of` [CAck i; CLateBye c].

(** After the INVITEs: nothing, a CANCEL, or the dialog. *)
Definition afterInvites (i n : Z) (q : list cmsg) : Prop := q = [] \/ (exists w, q = CCancel :: w /\ late i w) \/ talk i n q.

(** The INVITEs from [n] on, and what follows the last of them. *)
Fixpoint attempts (k : nat) (i n : Z) (auths : list bool) (q : list cmsg) : Prop :=
  (k <= maxInvites)%nat /\
  match auths with
  | [] => afterInvites i n q
  | _ :: l => attempts (S k) n (u32 (n + 1)) l q
  end.

Definition wordFrom (u : uac) (w : list cmsg) : Prop :=
  match u with
  | Idle n => w = [] \/ exists auths q, w = invitesFrom n (false :: auths) ++ q /\ attempts 1 n (u32 (n + 1)) auths q
  | Calling k i n => (k <= maxInvites)%nat -> exists auths q, w = invitesFrom n auths ++ q /\ attempts k i n auths q
  | Up i n => talk i n w
  | Cancelled i => late i w
  | LateAcked => exists c, w `prefix_of` [CLateBye c]
  | Closed => w = []
  end.

Lemma late_nil i : late i [].
Proof. exists 0. apply prefix_nil. Qed.

Lemma cruns_word u w u' : cruns u w u' -> (forall c, CBye c false ∉ w) -> wordFrom u w.
Proof.
  induction 1 as [u|u u1 w u2 Hs _ IH|u x u1 w u2 Hs _ IH]; intros Hn.
  - destruct u; cbn; auto using late_nil; [|by exists 0; apply prefix_nil].
    intros Hk. exists [], []. unfold afterInvites. cbn. unfold afterInvites. auto.
  - specialize (IH Hn). inversion Hs; subst; cbn in *; auto; try by subst.
    + intros Hk. exists [], w. cbn. unfold afterInvites. auto.
    + subst w. intros Hk. exists [], []. cbn. unfold afterInvites. auto.
    + subst w. apply late_nil.
  - assert (forall c, CBye c false ∉ w) as Hw by (intros c ?; apply (Hn c); by right). specialize (IH Hw).
    inversion Hs; subst; cbn in *; auto.
    + right. destruct IH as (auths & q & -> & Ha); [unfold maxInvites; lia|]. by exists auths, q.
    + intros Hk. destruct IH as (auths & q & -> & Ha); [lia|]. exists (a :: auths), q. by split.
    + intros Hk. exists [], (CCancel :: w). cbn. unfold afterInvites. eauto 10.
    + destruct IH as [c Hc]. exists c. by apply prefix_cons.
    + subst w. by exists c.
    + destruct (Hn c). left.
Qed.

(** Five INVITEs fit the sequence numbers. *)
Lemma attempts_last k auths q : attempts (S k) (Z.of_nat (S k)) (Z.of_nat (S (S k))) auths q ->
  (S k + length auths <= maxInvites)%nat /\
  afterInvites (Z.of_nat (S k + length auths)) (Z.of_nat (S (S k + length auths))) q.
Proof.
  revert k. induction auths as [|a l IH]; intros k [Hk Hq]; cbn [length].
  - rewrite Nat.add_0_r. by split.
  - rewrite <- Nat.add_succ_comm. apply IH. unfold maxInvites in *.
    replace (u32 _) with (Z.of_nat (S (S (S k)))) in Hq; [done|]. unfold u32. rewrite Z.mod_small; lia.
Qed.

(** ** Refinement *)

(** The operations of a call after its INVITE. *)
Definition later (o : OOp) : Prop := match o with OpInvite _ _ _ _ => False | _ => True end.

Lemma runOOps_sim `{DigestClient} l : Forall later l -> mrel simO (runOOps l).
Proof.
  induction 1 as [|o l Ho _ IH]; cbn [runOOps]; [apply mrel_ret, _|].
  apply mrel_bind; [apply _|by apply runOOp_sim|done].
Qed.

(** C13: The outbound dialog refines the specification.  A call sends its INVITE, and whatever
    methods are called on the dialog then, in whatever order, whenever the goroutines of its
    transfers send their REFERs and an answer that crosses a CANCEL is seen, and whatever the
    network does, what it makes is a run of the user agent client, to the state that the
    fields of the dialog stand for; the wire differs from it only in that a REFER may come
    later than it was made, or not at all.  In particular, unless the service is stopping:
    nothing is made, or [m] INVITEs with the numbers from 1 to [m], at most five and the first
    without credentials, and then nothing, or a CANCEL and after it nothing but the ACK (with
    number [m]) and the BYE for an answer that crossed the CANCEL, or the requests of one dialog:
    ACKs that repeat number [m], REFERs numbered from [m + 1], and at most one BYE, with the
    number that is next, after which nothing is made. *)
Theorem outbound_refines_uac `{DigestClient} cid env now user pass l :
  Forall later l ->
  let r := runOOps (OpInvite env now user pass :: l) (newOutbound cid) in
  let made := msgs (trace_of r) in
  cruns (Idle 1) made (absO (state_of r)) /\ delayed made (wires (trace_of r)) /\
  ((forall c, CBye c false ∉ made) ->
   made = [] \/
   exists auths q, let m := S (length auths) in
     made = invitesFrom 1 (false :: auths) ++ q /\ (m <= maxInvites)%nat /\
     (q = [] \/ (exists w, q = CCancel :: w /\ late (Z.of_nat m) w) \/ talk (Z.of_nat m) (Z.of_nat (S m)) q)).
Proof.
  intros Hl r made.
  assert (cruns (Idle 1) made (absO (state_of r))) as Hr.
  { subst made r. pose proof (Invite_runs env now user pass (newOutbound cid) eq_refl eq_refl) as Hi.
    cbn [runOOps runOOp]. unfold mspec, mbind', mreturn, trace_of, state_of in *.
    destruct (Invite env now user pass (newOutbound cid)) as [[a s1] t1]. destruct Hi as [Hp R1].
    pose proof (runOOps_sim l Hl s1) as R2. unfold mspec in R2. destruct (runOOps l s1) as [[[] s2] t2].
    destruct (R2 Hp) as [_ R]. cbn [fst snd]. rewrite app_nil_r, msgs_app. by eapply cruns_app. }
  split; [exact Hr|]. split.
  { subst made r. pose proof (runOOps_delay (OpInvite env now user pass :: l) (newOutbound cid)) as Hd. unfold mspec in Hd.
    unfold trace_of. destruct (runOOps _ _) as [[[] s'] t]. by apply (delayRO_delayed (newOutbound cid) t s'). }
  intros Hc. destruct (cruns_word _ _ _ Hr Hc) as [Hw|(auths & q & Hw & Ha)]; [by left|right].
  exists auths, q. destruct (attempts_last 0 auths q Ha) as [Hm Hq]. by split_and!.
Qed.

#[local] Instance exClient : DigestClient :=
  {| DigestChallenge := string; ParseChallenge := fun s => Some s;
     ClientDigest := fun ch m uri u p => inr ("Digest " +:+ u) |}.

(** A REFER that is made before the hangup and sent after it. *)
Definition exTalk : list OOp :=
  [OpAck 6 None; OpReferReq false; OpClose false 0 8 9 None None; OpReferSend 3 (inr []) None; OpAck 10 None].

(** An answer that crosses the CANCEL of a call that is not answered in time. *)
Definition exCancelled (i : nat) : AttemptEnv :=
  {| ae_now := 5; ae_transport := "UDP"; ae_tx := inr [EvCtxDone (ESentinel ErrSIPRequestTimeout)] |}.

Lemma outbound_refines_uac_witness :
  let r := runOOps (OpInvite (exEnv [407; 200]) 5 "u" "p" :: exTalk) (newOutbound "id") in
  let r2 := runOOps [OpInvite exCancelled 5 "u" "p"; OpClose false 0 8 9 None None;
                     OpWatch 1 9 2 [WResponse (Some (exResponse 200))]] (newOutbound "id") in
  msgs (trace_of r) = [CInvite 1 false; CInvite 2 true; CAck 2; CRefer 3; CBye 4 true] /\
  wires (trace_of r) = [CInvite 1 false; CInvite 2 true; CAck 2; CBye 4 true; CRefer 3] /\
  delayed (msgs (trace_of r)) (wires (trace_of r)) /\ cruns (Idle 1) (msgs (trace_of r)) Closed /\
  wires (trace_of r2) = [CInvite 1 false; CCancel; CAck 1; CLateBye 2] /\
  cruns (Idle 1) (msgs (trace_of r2)) Closed.
Proof.
  assert (Forall later exTalk) as Hl by (repeat (constructor; [exact I|]); constructor).
  assert (Forall later [OpClose false 0 8 9 None None; OpWatch 1 9 2 [WResponse (Some (exResponse 200))]]) as Hl2
    by (repeat (constructor; [exact I|]); constructor).
  destruct (outbound_refines_uac "id" (exEnv [407; 200]) 5 "u" "p" exTalk Hl) as (Hr & Hd & _).
  destruct (outbound_refines_uac "id" exCancelled 5 "u" "p" _ Hl2) as (Hr2 & _).
  split; [vm_compute; reflexivity|]. split; [vm_compute; reflexivity|]. split; [exact Hd|]. split; [exact Hr|].
  split; [vm_compute; reflexivity|]. exact Hr2.
Defined.
