(* ===== verification/OutboundCall.v ===== *)
(** * Outbound calls

    [outboundCall] of [pkg/sip/outbound.go] with [createSIPParticipant],
    [onOutboundBye] of [client.go]: dialing, waiting for the end, closing and
    transferring, on top of the dialog ([SipOutbound]), the call record
    ([CallState]) and the metrics ([Monitor]).  [connectSIP] and every close hold
    [c.mu], so each operation below is one step of the call and a run of the program
    is a sequence of them.

    The room, the media port and the network answer through the arguments of the
    operations. *)

From stdpp Require Import base tactics list gmap strings option.
From Stdlib Require Import ZArith Lia.
From S2P Require Import Prelude GoStd GoErr Participant Errors Types Protocol CallState CallCommon Monitor SipOutbound.
Import strings.

Definition AttrSIPCallStatus : string := AttrSIPPrefix +:+ "callStatus".

(** ** State *)
Record outboundCall := {
  oc_state : CallState;
  oc_cc : sipOutbound;
  oc_mon : CallMonitor;
  oc_sigTs : SignalingTimestamps;
  oc_started : bool;
  oc_stopped : bool;
  oc_closing : bool;
  oc_media : bool;             (* c.media is not nil *)
  oc_lkRoom : bool;            (* c.lkRoom is not nil *)
  oc_lkRoomIn : bool;          (* c.lkRoomIn is not nil *)
  oc_callDur : bool;
  oc_sessionDur : bool;
  oc_byeReceived : bool;
  oc_ringing : bool;           (* the local [ringing] of sipSignal *)
  oc_active : bool;            (* cm.activeCalls holds the call *)
}.

Inductive CEffect :=
| CState (h : HandlerCall)
| CSip (e : OEffect)
| CMon (e : MEffect)
| CSetAttributes (attrs : list (string * string))
| CHeaderAttrs (code : Z)            (* setExtraAttrs for the headers of a response *)
| CExtraAttrs                        (* setExtraAttrs for the answered call *)
| CConnectMedia (dtmfRate : Z)
| CSubscribe
| CWriteDTMF (digits : string)
| CMute                              (* the room's audio no longer goes to the caller *)
| CRestore
| CMediaClose
| CRoomClose (r : DisconnectReason)
| CRoomInClose
| CDurations (call session : bool)   (* the duration histograms observed *)
| CRegister                          (* of the transfer topic *)
| CDeregister
| CSessionEnd (reason : string)
| CLog (ts : option (list (string * Z))).

Section call.
Open Scope go_scope.
Context `{ErrorText} `{DigestClient}.
Abbreviation OC := (M outboundCall CEffect).

(** *** Setters *)
Definition upd (st : CallState) (cc : sipOutbound) (mon : CallMonitor) (c : outboundCall)
    : outboundCall :=
  {| oc_state := st; oc_cc := cc; oc_mon := mon; oc_sigTs := oc_sigTs c;
     oc_started := oc_started c; oc_stopped := oc_stopped c; oc_closing := oc_closing c;
     oc_media := oc_media c; oc_lkRoom := oc_lkRoom c; oc_lkRoomIn := oc_lkRoomIn c;
     oc_callDur := oc_callDur c; oc_sessionDur := oc_sessionDur c;
     oc_byeReceived := oc_byeReceived c; oc_ringing := oc_ringing c; oc_active := oc_active c |}.

Definition flags (started stopped closing lkRoomIn bye active : bool) (c : outboundCall)
    : outboundCall :=
  {| oc_state := oc_state c; oc_cc := oc_cc c; oc_mon := oc_mon c; oc_sigTs := oc_sigTs c;
     oc_started := started; oc_stopped := stopped; oc_closing := closing;
     oc_media := oc_media c; oc_lkRoom := oc_lkRoom c; oc_lkRoomIn := lkRoomIn;
     oc_callDur := oc_callDur c; oc_sessionDur := oc_sessionDur c;
     oc_byeReceived := bye; oc_ringing := oc_ringing c; oc_active := active |}.

Definition setup (ts : SignalingTimestamps) (ringing media lkRoom lkRoomIn callDur sessionDur : bool)
    (c : outboundCall) : outboundCall :=
  {| oc_state := oc_state c; oc_cc := oc_cc c; oc_mon := oc_mon c; oc_sigTs := ts;
     oc_started := oc_started c; oc_stopped := oc_stopped c; oc_closing := oc_closing c;
     oc_media := media; oc_lkRoom := lkRoom; oc_lkRoomIn := lkRoomIn;
     oc_callDur := callDur; oc_sessionDur := sessionDur;
     oc_byeReceived := oc_byeReceived c; oc_ringing := ringing; oc_active := oc_active c |}.

Definition set_stopped (c : outboundCall) : outboundCall :=
  flags (oc_started c) true (oc_closing c) (oc_lkRoomIn c) (oc_byeReceived c) (oc_active c) c.
Definition break_closing (c : outboundCall) : outboundCall :=
  flags (oc_started c) (oc_stopped c) true (oc_lkRoomIn c) (oc_byeReceived c) (oc_active c) c.
Definition set_started (c : outboundCall) : outboundCall :=
  flags true (oc_stopped c) (oc_closing c) (oc_lkRoomIn c) (oc_byeReceived c) (oc_active c) c.
Definition set_roomIn (b : bool) (c : outboundCall) : outboundCall :=
  flags (oc_started c) (oc_stopped c) (oc_closing c) b (oc_byeReceived c) (oc_active c) c.
Definition set_bye (c : outboundCall) : outboundCall :=
  flags (oc_started c) (oc_stopped c) (oc_closing c) (oc_lkRoomIn c) true (oc_active c) c.
Definition set_active (b : bool) (c : outboundCall) : outboundCall :=
  flags (oc_started c) (oc_stopped c) (oc_closing c) (oc_lkRoomIn c) (oc_byeReceived c) b c.
Definition set_ts (ts : SignalingTimestamps) (ringing : bool) (c : outboundCall) : outboundCall :=
  setup ts ringing (oc_media c) (oc_lkRoom c) (oc_lkRoomIn c) (oc_callDur c) (oc_sessionDur c) c.
Definition set_durs (callDur sessionDur : bool) (c : outboundCall) : outboundCall :=
  setup (oc_sigTs c) (oc_ringing c) (oc_media c) (oc_lkRoom c) (oc_lkRoomIn c) callDur sessionDur c.

Definition ts_invite (n : Z) (t : SignalingTimestamps) : SignalingTimestamps :=
  {| APITime := APITime t; InviteTime := Some n; TryingTime := TryingTime t;
     RingingTime := RingingTime t; AcceptTime := AcceptTime t; JoinRoomTime := JoinRoomTime t;
     AckTime := AckTime t |}.
Definition ts_progress (trying ringing accept ack : option Z) (t : SignalingTimestamps)
    : SignalingTimestamps :=
  {| APITime := APITime t; InviteTime := InviteTime t; TryingTime := trying;
     RingingTime := ringing; AcceptTime := accept; JoinRoomTime := JoinRoomTime t; AckTime := ack |}.

(** *** Calls of the components *)
Definition onState {A} (m : M CallState HandlerCall A) : OC A :=
  fun c => match m (oc_state c) with
           | (a, st, t) => (a, upd st (oc_cc c) (oc_mon c) c, map CState t)
           end.

Definition onMon {A} (m : M CallMonitor MEffect A) : OC A :=
  fun c => match m (oc_mon c) with
           | (a, mon, t) => (a, upd (oc_state c) (oc_cc c) mon c, map CMon t)
           end.

(** [view] is the room at that moment. *)
Definition setStatusWith (view : option RoomView) (v : CallStatus) (extra : list (string * string))
    : OC unit :=
  if String.eqb (Attribute v) "" then mreturn tt
  else
    let* c := mget in
    if negb (oc_lkRoom c) then mreturn tt
    else match view with
         | None => mreturn tt
         | Some _ => memit (CSetAttributes ((AttrSIPCallStatus, Attribute v) :: extra))
         end.

Definition setStatus (view : option RoomView) (v : CallStatus) : OC unit := setStatusWith view v [].

(** The callback that [sipSignal] gives to [Invite]. *)
Definition onInviteResponse (now : Z) (view : option RoomView) (code : Z) : OC unit :=
  if code =? 200 then mreturn tt
  else
    let* c := mget in
    let ts := oc_sigTs c in
    do* mwhen ((code =? 100) && match TryingTime ts with None => true | _ => false end)
          (mput (set_ts (ts_progress (Some now) (RingingTime ts) (AcceptTime ts) (AckTime ts) ts)
                   (oc_ringing c) c)) in
    do* mwhen (negb (oc_ringing c) && (180 <=? code) && (code <? 200))
          (do* mmodify (fun c => let ts := oc_sigTs c in
              set_ts (ts_progress (TryingTime ts) (Some now) (AcceptTime ts) (AckTime ts) ts) true c) in
           setStatus view CallRinging) in
    memit (CHeaderAttrs code).

(** The dialog's events go to the call record's handler, and the responses to the
    callback; [emit] and [setState] do not touch the dialog, so they can be run
    after it, in the order in which it made them. *)
Fixpoint dialogEffects (now : Z) (view : option RoomView) (l : list OEffect) : OC unit :=
  match l with
  | [] => mreturn tt
  | OEmit ev :: l' => do* onState (EmitSignalingEvent ev) in dialogEffects now view l'
  | OSetState code :: l' => do* onInviteResponse now view code in dialogEffects now view l'
  | e :: l' => do* memit (CSip e) in dialogEffects now view l'
  end.

Definition onSip {A} (now : Z) (view : option RoomView) (m : M sipOutbound OEffect A) : OC A :=
  fun c => match m (oc_cc c) with
           | (a, cc, t) =>
               match dialogEffects now view t (upd (oc_state c) cc (oc_mon c) c) with
               | (_, c', t') => (a, c', t')
               end
           end.

(** *** Closing *)

(** What [cc.Close] meets: whether the service is stopping, the BYE made by the
    library, and the outcome of its transaction. *)
Record CloseEnv := {
  ce_closing : bool;
  ce_libCSeq : Z;
  ce_now : Z;
  ce_byeEnd : Z;
  ce_res : option Response;
  ce_err : option error;
  ce_view : option RoomView;
}.

Definition closeSip (e : CloseEnv) : OC unit :=
  onSip (ce_now e) (ce_view e)
    (CloseO (ce_closing e) (ce_libCSeq e) (ce_now e) (ce_byeEnd e) (ce_res e) (ce_err e)).

Definition stopSIP (e : CloseEnv) (t : stats.Termination) : OC unit :=
  do* onMon (CallTerminate t) in
  closeSip e.

Definition closeInfo (end_ : EndCall) (endedAt : Z) (i : SIPCallInfo) : SIPCallInfo :=
  let i := match Report end_ with
           | Some err => if String.eqb (info_Error i) "" then set_Error i (Error err) else i
           | None => i
           end in
  let i := set_CallStatus i (if negb (String.eqb (info_Error i) "") then SCS_ERROR
                             else SCS_DISCONNECTED) in
  mark_Ended (set_DisconnectReason i (Reason end_)) endedAt.

(** The body of [stopped.Once].  The handler of [cm] is set. *)
Definition closeOnce (e : CloseEnv) (end_ : EndCall) : OC unit :=
  do* setStatus (ce_view e) (ec_Status end_) in
  do* onState (Update (closeInfo end_ (ce_now e))) in
  do* onMon CallEnd in
  let* c := mget in
  do* memit (CDurations (oc_callDur c) (oc_sessionDur c)) in
  do* onState (EmitSignalingEvent (callEndedEvent (Some (ce_now e)) (Term end_)
                                     (finalStatus (oc_cc c)))) in
  do* stopSIP e (Term end_) in
  do* mwhen (oc_media c) (memit CMediaClose) in
  do* mwhen (oc_lkRoom c) (memit (CRoomClose (Reason end_))) in
  do* mwhen (oc_lkRoomIn c) (memit CRoomInClose) in
  do* mmodify (set_roomIn false) in
  do* mmodify (set_active false) in
  do* memit CDeregister in
  do* memit (CSessionEnd (stats.Reason (Term end_))) in
  memit (CLog (SignalingTimestamps_Log (oc_sigTs c))).

Definition close (e : CloseEnv) (end_ : EndCall) : OC bool :=
  do* mmodify break_closing in
  let* c := mget in
  if oc_stopped c then mreturn false
  else
    do* mmodify set_stopped in
    do* closeOnce e end_ in
    mreturn true.

Definition endCallOf (st : CallStatus) (t : stats.Termination) (r : DisconnectReason) : EndCall :=
  {| Report := None; ec_Status := st; Term := t; Reason := r; Headers := []; ec_Code := 0 |}.

Definition Close (e : CloseEnv) : OC bool :=
  close e (endCallOf callDropped (stats.ServerError "shutdown") SERVER_SHUTDOWN).

Definition closeWithTimeout (e : CloseEnv) : OC bool :=
  close e {| Report := Some (NewErrorf DeadlineExceeded "media-timeout"); ec_Status := callDropped;
             Term := stats.Indeterminate "media-timeout"; Reason := MEDIA_FAILURE;
             Headers := []; ec_Code := 0 |}.

(** [EndCall] of the room RPC: an error when the call was already closed. *)
Definition EndCall_rpc (e : CloseEnv) (headers : list (string * string)) : OC (option error) :=
  let* done := close e {| Report := None; ec_Status := CallHangup; Term := stats.Success "rpc";
                          Reason := CLIENT_INITIATED; Headers := headers; ec_Code := 0 |} in
  mreturn (if done then None else Some (EText "call already ended")).

Definition ensureClosed (now : Z) (view : option RoomView) : OC unit :=
  onState (Update (fun i =>
    let i := set_CallStatus i (if negb (String.eqb (info_Error i) "") then SCS_ERROR
                               else SCS_DISCONNECTED) in
    let i := match view with
             | Some {| rv_local := Some (identity, attrs) |} => set_Participant i identity attrs
             | _ => i
             end in
    mark_Ended i now)).

Definition setErrStatus (now : Z) (err : option error) : OC unit :=
  match err with
  | None => mreturn tt
  | Some err =>
      onState (Update (fun i =>
        if negb (String.eqb (info_Error i) "") then i
        else mark_Ended (set_CallStatus (set_Error i (Error err)) SCS_ERROR) now))
  end.

(** *** Dialing *)

(** What [sipSignal] meets, in order: the offer, the INVITE's attempts, the close
    of a failed INVITE, the answer's processing, the ACK, the context, the audio. *)
Record SignalEnv := {
  sg_offer : option error;
  sg_inviteAt : Z;
  sg_user : string;
  sg_pass : string;
  sg_attempts : nat -> AttemptEnv;
  sg_respAt : Z;
  sg_progressAt : Z;
  sg_failClose : CloseEnv;
  sg_acceptAt : Z;
  sg_processAnswer : option error;
  sg_ack : option error;
  sg_ackAt : Z;
  sg_cause : option error;          (* context.Cause(ctx) when ctx.Err() is not nil *)
  sg_audio : option string;         (* the full SDP name of the negotiated codec *)
  sg_view : option RoomView;
}.

(** The part after the answer. *)
Definition signalAnswered (e : SignalEnv) : OC (option error) :=
  do* mmodify (fun c => let ts := oc_sigTs c in
        set_ts (ts_progress (TryingTime ts) (RingingTime ts) (Some (sg_acceptAt e)) (AckTime ts) ts)
          (oc_ringing c) c) in
  match sg_processAnswer e with
  | Some err => mreturn (Some err)
  | None =>
      do* onMon InviteAccept in
      let* ack := onSip (sg_ackAt e) (sg_view e) (AckInviteOK (sg_ackAt e) (sg_ack e)) in
      match ack with
      | Some err => mreturn (Some err)
      | None =>
          do* mmodify (fun c => let ts := oc_sigTs c in
                set_ts (ts_progress (TryingTime ts) (RingingTime ts) (AcceptTime ts)
                          (Some (sg_ackAt e)) ts) (oc_ringing c) c) in
          match sg_cause e with
          | Some cause => mreturn (Some (NewError Canceled cause))
          | None =>
              do* mmodify (fun c => set_durs true (oc_sessionDur c) c) in
              do* memit CExtraAttrs in
              match sg_audio e with
              | None => mreturn (Some (EText "call media does not have negotiated audio"))
              | Some codec =>
                  do* onState (DeferUpdate (fun i =>
                        let i := set_AudioCodec i codec in
                        match sg_view e with
                        | Some {| rv_local := Some (_, attrs) |} => set_Attributes i attrs
                        | _ => i
                        end)) in
                  mreturn None
              end
          end
      end
  end.

(** [None]: the INVITE is still waiting. *)
Definition sipSignal (e : SignalEnv) : OC (option (option error)) :=
  match sg_offer e with
  | Some err => mreturn (Some (Some err))
  | None =>
      do* onMon InviteReq in
      do* mmodify (fun c => set_durs (oc_callDur c) true
                              (set_ts (ts_invite (sg_inviteAt e) (oc_sigTs c)) false c)) in
      let* r := onSip (sg_progressAt e) (sg_view e)
                  (Invite (sg_attempts e) (sg_respAt e) (sg_user e) (sg_pass e)) in
      match r with
      | None => mreturn None
      | Some (inl err) =>
          do* match errors.AsSIPStatus err with
              | Some st =>
                  do* onMon (InviteError (statusName (Code st))) in
                  onState (DeferUpdate (fun i => set_CallStatusCode i (Some st)))
              | None => onMon (InviteError "other")
              end in
          do* closeSip (sg_failClose e) in
          mreturn (Some (Some err))
      | Some (inr _) => let* err := signalAnswered e in mreturn (Some err)
      end
  end.

(** [answerAttrs] is the library's [AnswerTimeAttributes]. *)
Variable answerAttrs : option Z -> list (string * string).

Definition dialSIP (e : SignalEnv) (dtmf : string) (writeDTMF : option error)
    : OC (option (option error)) :=
  let* r := sipSignal e in
  match r with
  | None => mreturn None
  | Some (Some err) => mreturn (Some (Some err))
  | Some None =>
      let* c := mget in
      let answered := answerAttrs (AcceptTime (oc_sigTs c)) in
      if negb (String.eqb dtmf "") then
        do* setStatusWith (sg_view e) CallAutomation answered in
        do* memit (CWriteDTMF dtmf) in
        match writeDTMF with
        | Some err =>
            mreturn (Some (Some (EWrap ("error writing digits (" +:+ dtmf +:+ "): ") err "")))
        | None =>
            do* setStatusWith (sg_view e) CallActive [] in mreturn (Some None)
        end
      else
        do* setStatusWith (sg_view e) CallActive answered in mreturn (Some None)
  end.

(** [connectMedia]; the clock rate of the negotiated DTMF, if any. *)
Definition connectMedia (dtmf : option Z) : OC unit :=
  do* memit (CConnectMedia (default 8000 dtmf)) in
  mmodify (set_roomIn false).

Record DialEnv := {
  di_signal : SignalEnv;
  di_dtmf : string;
  di_writeDTMF : option error;
  di_close : CloseEnv;
  di_dtmfRate : option Z;
  di_endAt : Z;                    (* the clock of ensureClosed *)
  di_startAt : Z;
  di_view : option RoomView;
}.

Definition connectSIP (e : DialEnv) : OC (option (option error)) :=
  let* r := dialSIP (di_signal e) (di_dtmf e) (di_writeDTMF e) in
  match r with
  | None => mreturn None
  | Some (Some err) =>
      let res := classifyInviteError err in
      let* c := mget in
      let res := match InviteTime (oc_sigTs c) with
                 | Some _ => afterInvite res
                 | None => res
                 end in
      do* close (di_close e) (endCall res) in
      mreturn (Some (returnErr res))
  | Some None =>
      do* connectMedia (di_dtmfRate e) in
      do* mmodify set_started in
      do* memit CSubscribe in
      mreturn (Some None)
  end.

(** The first step of [Dial]. *)
Definition dialStart : OC unit :=
  let* c := mget in
  if oc_stopped c then mreturn tt else onMon CallStart.

(** The last step of [Dial]. *)
Definition dialActive (now : Z) (view : option RoomView) : OC unit :=
  onState (Update (fun i =>
    if negb (EndedAtNs i =? 0) then i
    else match view with
         | None => i
         | Some r => set_CallStatus (set_Started i (rv_SID r) now) SCS_ACTIVE
         end)).

Definition Dial (e : DialEnv) : OC (option (option error)) :=
  do* dialStart in
  let* r := connectSIP e in
  match r with
  | None => mreturn None
  | Some (Some err) => do* ensureClosed (di_endAt e) (di_view e) in mreturn (Some (Some err))
  | Some None => do* dialActive (di_startAt e) (di_view e) in mreturn (Some None)
  end.

(** *** Waiting for the end *)
Inductive WaitEvent :=
| WTick                                  (* the keep-alive ticker *)
| WRoomClosed (reason : DisconnectReason)
| WMediaTimeout
| WCtxDone
| WStopped.                              (* closed by someone else *)

Definition waitEnd (e : CloseEnv) (ev : WaitEvent) : OC (option (option error)) :=
  match ev with
  | WTick => do* onState ForceFlush in mreturn None
  | WRoomClosed reason =>
      do* close e (endCallOf callDropped (terminationFromRoomDisconnect reason)
                     (disconnectReasonFromRoomClose reason)) in
      mreturn (Some None)
  | WMediaTimeout =>
      do* closeWithTimeout e in
      let err := NewErrorf DeadlineExceeded "media timeout" in
      do* setErrStatus (ce_now e) (Some err) in
      mreturn (Some (Some err))
  | WCtxDone =>
      do* close e (endCallOf CallHangup (stats.Success "hangup") CLIENT_INITIATED) in
      mreturn (Some None)
  | WStopped => mreturn (Some None)
  end.

Fixpoint waitClose (e : CloseEnv) (evs : list WaitEvent) : OC (option (option error)) :=
  match evs with
  | [] => mreturn None
  | ev :: evs' =>
      let* r := waitEnd e ev in
      match r with
      | None => waitClose e evs'
      | Some err => do* ensureClosed (ce_now e) (ce_view e) in mreturn (Some err)
      end
  end.

(** *** Requests from the other side *)
Definition onOutboundBye (e : CloseEnv) (receivedAt cseq : Z) (reason : string) : OC bool :=
  let* c := mget in
  if negb (oc_active c) then mreturn false
  else
    do* mwhen (negb (oc_byeReceived c))
          (do* mmodify set_bye in
           onState (EmitSignalingEvent
             (newEvent EventByeReceived (Some receivedAt) "BYE" 0 cseq "" reason "" 0))) in
    do* onSip receivedAt (ce_view e) AcceptByeO in
    do* close e (endCallOf CallHangup (stats.Success "bye") CLIENT_INITIATED) in
    mreturn true.

(** *** Transfer: [transferCall] up to its result, and the hangup that follows a
    success after [referByeTimeout].  [ringback]: a dial tone is played to the
    caller meanwhile, and the room's audio is muted; it is restored when the
    transfer fails and the call goes on.

    The transfer does not hold the lock of the call, and that of the dialog only while
    the REFER is made: it is in three parts, between which anything may happen. *)
Definition transferStart (id : string) (startAt : Z) (to : string) (ringback closing : bool)
    (view : option RoomView) : OC (bool * (error + Z)) :=
  let* _tid := onState (StartTransfer id startAt to) in
  let* c := mget in
  let mute := ringback && oc_started c && negb (oc_stopped c) in
  do* mwhen mute (memit CMute) in
  let* r := onSip startAt view (newReferO closing) in
  mreturn (mute, r).

(** The deferred functions. *)
Definition transferEnd (id : string) (endAt : Z) (mute : bool) (err : option error)
    : OC (option (option error)) :=
  let* c := mget in
  do* mwhen (mute && match err with Some _ => true | None => false end && negb (oc_stopped c))
        (memit CRestore) in
  do* onState (EndTransfer endAt id err) in
  mreturn (Some err).

Definition transferSend (id : string) (endAt : Z) (mute : bool) (cseq : Z)
    (refer : error + list TxEvent) (wait : option error) (view : option RoomView)
    : OC (option (option error)) :=
  let* r := onSip endAt view (sendReferO cseq refer wait) in
  match r with
  | None => mreturn None
  | Some err => transferEnd id endAt mute err
  end.

Definition transferCall (id : string) (startAt endAt : Z) (to : string) (ringback closing : bool)
    (refer : error + list TxEvent) (wait : option error) (view : option RoomView)
    : OC (option (option error)) :=
  let* r := transferStart id startAt to ringback closing view in
  match r with
  | (mute, inl err) => transferEnd id endAt mute (Some err)
  | (mute, inr cseq) => transferSend id endAt mute cseq refer wait view
  end.

Definition afterTransfer (e : CloseEnv) : OC bool :=
  close e (endCallOf CallHangup (stats.Success "call transferred") CLIENT_INITIATED).

(** *** Creation *)
Definition initCall (st : CallState) (cid : string) (now : Z) (toHost : string) : outboundCall :=
  {| oc_state := st; oc_cc := newOutbound cid; oc_mon := NewCall Outbound toHost;
     oc_sigTs := {| APITime := Some now; InviteTime := None; TryingTime := None;
                    RingingTime := None; AcceptTime := None; JoinRoomTime := None;
                    AckTime := None |};
     oc_started := false; oc_stopped := false; oc_closing := false; oc_media := false;
     oc_lkRoom := false; oc_lkRoomIn := false; oc_callDur := false; oc_sessionDur := false;
     oc_byeReceived := false; oc_ringing := false; oc_active := false |}.

Definition clampCallDuration (d : Z) : Z :=
  if (d <=? 0) || (maxCallDuration <? d) then maxCallDuration else d.
Definition clampRinging (d : Z) : Z := if d <=? 0 then defaultRingingTimeout else d.

(** The outcomes of the steps of [newCall] and [connectToRoom]. *)
Record NewCallEnv := {
  nc_now : Z;
  nc_provider : string;
  nc_mediaPort : option error;
  nc_attrCallID : string;            (* attrs[livekit.AttrSIPCallID] *)
  nc_connect : option error;
  nc_track : option error;
  nc_rpc : option error;             (* of the two RPC registrations *)
  nc_close : CloseEnv;
}.

Definition connectToRoom (e : NewCallEnv) : OC (option error) :=
  do* mwhen (negb (String.eqb (nc_attrCallID e) "")) (memit CRegister) in
  match nc_connect e, nc_track e with
  | Some err, _ => mreturn (Some err)
  | None, Some err => mreturn (Some err)
  | None, None =>
      do* mmodify (fun c => setup (oc_sigTs c) (oc_ringing c) (oc_media c) true true
                              (oc_callDur c) (oc_sessionDur c) c) in
      mreturn (nc_rpc e)
  end.

(** [newCall], except for the registration in [cm.activeCalls] that ends it. *)
Definition newCall (e : NewCallEnv) : OC (option error) :=
  let* c := mget in
  do* onState (DeferUpdate (fun i =>
        let i := set_SipCallId i (callID (oc_cc c)) in
        set_Attributes i (<[AttrSIPCallIDFull := callID (oc_cc c)]> (ParticipantAttributes i)))) in
  do* onState (EmitSignalingEvent
        (newEvent EventCallRequested (Some (nc_now e)) "" 0 0 "" "" "" 0)) in
  do* onMon (SetProvider (nc_provider e)) in
  match nc_mediaPort e with
  | Some err =>
      do* close (nc_close e)
            {| Report := Some (EWrap "media failed: " err ""); ec_Status := callDropped;
               Term := stats.ServerError "media-failed"; Reason := MEDIA_FAILURE;
               Headers := []; ec_Code := 0 |} in
      mreturn (Some err)
  | None =>
      do* mmodify (fun c => setup (oc_sigTs c) (oc_ringing c) true (oc_lkRoom c) (oc_lkRoomIn c)
                              (oc_callDur c) (oc_sessionDur c) c) in
      let* r := connectToRoom e in
      match r with
      | Some err =>
          do* close (nc_close e)
                {| Report := Some (EWrap "room join failed: " err ""); ec_Status := callDropped;
                   Term := stats.ServerError "join-failed"; Reason := JOIN_FAILURE;
                   Headers := []; ec_Code := 0 |} in
          mreturn (Some (NewError Internal (EWrap "update room failed: " err "")))
      | None => mreturn None
      end
  end.

Definition registerActive : OC unit := mmodify (set_active true).

(** The deferred update of [createSIPParticipant]. *)
Definition createDefer (retErr : option error) : OC unit :=
  onState (Update (fun i =>
    match retErr with
    | None => set_CallStatus i SCS_PARTICIPANT_JOINED
    | Some err =>
        set_Error (set_DisconnectReason (set_CallStatus i SCS_ERROR) UNKNOWN_REASON) (Error err)
    end)).

(** [createSIPParticipant] from the creation of the call state on, for a request
    with [WaitUntilAnswered]. *)
Definition createAndWait (n : NewCallEnv) (d : DialEnv) : OC (option (option error)) :=
  let* r := newCall n in
  match r with
  | Some err => do* createDefer (Some err) in mreturn (Some (Some err))
  | None =>
      do* registerActive in
      let* r := Dial d in
      match r with
      | None => mreturn None
      | Some err => do* createDefer err in mreturn (Some err)
      end
  end.
End call.

(** ** Lemmas *)

(** The effects that mark the end of a call. *)
Definition isEnded (e : CEffect) : bool :=
  match e with
  | CState (HandleSignalingEvent ev) => bool_decide (ev_Type ev = EventCallEnded)
  | _ => false
  end.
Definition isSessionEnd (e : CEffect) : bool := match e with CSessionEnd _ => true | _ => false end.

Definition endedEvent (h : HandlerCall) : bool :=
  match h with
  | HandleSignalingEvent ev => bool_decide (ev_Type ev = EventCallEnded)
  | _ => false
  end.

(** A record with an end time whose status is final, or was set to joined after the end. *)
Definition over (i : SIPCallInfo) : Prop :=
  EndedAtNs i <> 0 /\ (ended i \/ info_CallStatus i = SCS_PARTICIPANT_JOINED).

(** An update that takes neither from a record. *)
Definition keepsEnd (f : SIPCallInfo -> SIPCallInfo) : Prop :=
  forall i, (ended i -> ended (f i)) /\ (over i -> over (f i)).

(** What a step that does not close the call keeps, for the record, the metrics and
    the call. *)
Definition stillS (s : CallState) (t : list HandlerCall) (s' : CallState) : Prop :=
  acceptsEvents s' = acceptsEvents s /\ (ended (callInfo s) -> ended (callInfo s')) /\
  (over (callInfo s) -> over (callInfo s')) /\ countb endedEvent t = 0%nat.

Definition stillM (c : CallMonitor) (t : list MEffect) (c' : CallMonitor) : Prop :=
  mon_started c = false -> mon_started c' = false.

Definition still (c : outboundCall) (t : list CEffect) (c' : outboundCall) : Prop :=
  oc_stopped c' = oc_stopped c /\ oc_active c' = oc_active c /\
  acceptsEvents (oc_state c') = acceptsEvents (oc_state c) /\
  (ended (callInfo (oc_state c)) -> ended (callInfo (oc_state c'))) /\
  (over (callInfo (oc_state c)) -> over (callInfo (oc_state c'))) /\
  (mon_started (oc_mon c) = false -> mon_started (oc_mon c') = false) /\
  countb isEnded t = 0%nat /\ countb isSessionEnd t = 0%nat.

#[global] Instance stillS_rel : TraceRel stillS.
Proof.
  split; [done|]. intros s1 t1 s2 t2 s3 (? & ? & ? & ?) (? & ? & ? & ?). unfold stillS.
  rewrite countb_app. split_and!; [congruence|auto|auto|lia].
Qed.

#[global] Instance stillM_rel : TraceRel stillM.
Proof. split; unfold stillM; [done|auto]. Qed.

#[global] Instance still_rel : TraceRel still.
Proof.
  split; [done|]. intros s1 t1 s2 t2 s3 (? & ? & ? & ? & ? & ? & ? & ?) (? & ? & ? & ? & ? & ? & ? & ?).
  unfold still. rewrite !countb_app. split_and!; try congruence; try lia; auto.
Qed.

Section proofs.
Context `{ErrorText} `{DigestClient}.

(** *** Components inside the call *)
Lemma onState_still {A} (m : M CallState HandlerCall A) : mrel stillS m -> mrel still (onState m).
Proof.
  intros Hm c. specialize (Hm (oc_state c)). unfold mspec, onState in *.
  destruct (m (oc_state c)) as [[a st] t]. destruct Hm as (? & ? & ? & Hc).
  unfold still. simpl. rewrite (countb_map CState isEnded endedEvent) by done.
  rewrite (countb_map CState isSessionEnd (fun _ => false)) by done.
  rewrite (countb_none (fun _ => false)) by done. split_and!; done.
Qed.

Lemma onMon_still {A} (m : M CallMonitor MEffect A) : mrel stillM m -> mrel still (onMon m).
Proof.
  intros Hm c. specialize (Hm (oc_mon c)). unfold mspec, onMon in *.
  destruct (m (oc_mon c)) as [[a st] t]. unfold still. simpl.
  rewrite (countb_map CMon isEnded (fun _ => false)), (countb_map CMon isSessionEnd (fun _ => false)) by done.
  rewrite (countb_none (fun _ => false)) by done. split_and!; done.
Qed.

Lemma Update_still f : keepsEnd f -> mrel stillS (Update f).
Proof. intros Hf s. unfold Update, flushLocked. repeat mstep. unfold stillS. simpl. split_and!; try done; apply Hf. Qed.

Lemma DeferUpdate_still f : keepsEnd f -> mrel stillS (DeferUpdate f).
Proof. intros Hf s. unfold DeferUpdate. repeat mstep. unfold stillS. simpl. split_and!; try done; apply Hf. Qed.

Lemma Emit_still ev : ev_Type ev <> EventCallEnded -> mrel stillS (EmitSignalingEvent ev).
Proof.
  intros Ht s. unfold EmitSignalingEvent. destruct (ev_Time ev); [|by mstep].
  do 2 mstep. destruct (acceptsEvents s) eqn:E; mstep; unfold stillS; [|done].
  simpl. rewrite countb_cons. cbn. by rewrite bool_decide_eq_false_2.
Qed.

Lemma ForceFlush_still : mrel stillS ForceFlush.
Proof. intros s. unfold ForceFlush, flushLocked. repeat mstep. done. Qed.

Lemma StartTransfer_still id now to : mrel stillS (StartTransfer id now to).
Proof. intros s. unfold StartTransfer. repeat mstep. done. Qed.

Lemma EndTransfer_still now id err : mrel stillS (EndTransfer now id err).
Proof. intros s. unfold EndTransfer. do 4 mstep. destruct (_ !! _); repeat mstep; done. Qed.

Lemma setStatusWith_still view v extra : mrel still (setStatusWith view v extra).
Proof.
  intros c. unfold setStatusWith. destruct (String.eqb _ _); [by mstep|]. do 2 mstep.
  destruct (negb _), view; repeat mstep; done.
Qed.

Lemma onInviteResponse_still now view code : mrel still (onInviteResponse now view code).
Proof.
  unfold onInviteResponse. destruct (code =? 200); [by rel_step|].
  apply mrel_get; [apply _|]. intros c. mstep. mstep.
  - mstep. mstep. destruct (negb _ && _ && _); cbn [mwhen]; repeat mstep; [|done].
    eapply mspec_mono; [apply setStatusWith_still|]. cbv beta. intros _ c1 t1 Hst. repeat mstep.
    cbn [app]. by apply (tr_trans (R := still) c t1 c1).
  - mstep. destruct (negb _ && _ && _); cbn [mwhen]; repeat mstep; [|done].
    eapply mspec_mono; [apply setStatusWith_still|]. cbv beta. intros _ c1 t1 Hst. repeat mstep.
    cbn [app]. by apply (tr_trans (R := still) c t1 c1).
Qed.

Definition okEvent (e : OEffect) : Prop :=
  match e with OEmit ev => ev_Type ev <> EventCallEnded | _ => True end.

Lemma dialogEffects_still now view l : Forall okEvent l -> mrel still (dialogEffects now view l).
Proof.
  induction 1 as [|e l He Hl IH]; cbn [dialogEffects]; [by rel_step|].
  destruct e; try (rel_step; [by rel_step|done]).
  - rel_step; [apply onInviteResponse_still|done].
  - rel_step; [by apply onState_still, Emit_still|done].
Qed.

Lemma onSip_still {A} now view (m : M sipOutbound OEffect A) :
  mtrace okEvent m -> mrel still (onSip now view m).
Proof.
  intros Hm c. specialize (Hm (oc_cc c)). unfold mspec, onSip in *.
  destruct (m (oc_cc c)) as [[a cc] t].
  pose proof (dialogEffects_still now view t Hm (upd (oc_state c) cc (oc_mon c) c)) as Hd.
  unfold mspec in Hd. destruct (dialogEffects _ _ _ _) as [[u c'] t']. exact Hd.
Qed.

Ltac ok_trace := repeat (trace_step || (cbn; done)).

Lemma CloseO_ok c l now e r err : mtrace okEvent (CloseO c l now e r err).
Proof. unfold CloseO, sendByeO, sendCancel, dropO, takeCSeqO, emitEvent. ok_trace. Qed.

Lemma AckInviteOK_ok now w : mtrace okEvent (AckInviteOK now w).
Proof. unfold AckInviteOK, emitEvent. ok_trace. Qed.

Lemma AcceptByeO_ok : mtrace okEvent AcceptByeO.
Proof. unfold AcceptByeO, dropO. ok_trace. Qed.

Lemma newReferO_ok c : mtrace okEvent (newReferO c).
Proof. unfold newReferO, takeCSeqO. ok_trace. Qed.

Lemma sendReferO_ok c r w : mtrace okEvent (sendReferO c r w).
Proof. unfold sendReferO. ok_trace. Qed.

Lemma watchLate_ok c now lib script : mtrace okEvent (watchLate c now lib script).
Proof.
  assert (forall l, mtrace okEvent (watchReplay now c lib l)) as Hr.
  { induction l as [|[] l IH]; cbn [watchReplay]; unfold emitEvent; repeat (trace_step || (cbn; done)). }
  unfold watchLate. intros s. mstep. mstep. destruct (removeOne _ _); [|by mstep; constructor].
  destruct (watchCancelledInvite script) as [eff []]; [|by mstep; constructor]. mstep. mstep. apply Hr.
Qed.

Lemma Invite_ok env now user pass : mtrace okEvent (Invite env now user pass).
Proof.
  assert (forall now cseq l, mtrace okEvent (replay now cseq l)) as Hr.
  { intros ? ? l. induction l as [|[]]; cbn [replay]; repeat (trace_step || (cbn; done) || done);
      unfold onResponse, emitEvent; ok_trace. }
  assert (forall code, ev_Type (answeredEvent 0 code 0) <> EventCallEnded) as Ha
    by (intros code; unfold answeredEvent; by destruct (code =? 200)).
  assert (forall fuel try name cred last,
    mtrace okEvent (authLoop fuel env user pass try name cred last)) as Hl.
  { induction fuel; intros; cbn [authLoop]; unfold attemptInvite, takeCSeqO, emitEvent;
      repeat (trace_step || done || apply Hr); apply (Ha (StatusCode _)). }
  unfold Invite, inviteDefer, emitEvent. repeat (trace_step || (cbn; done) || apply Hl).
Qed.

Lemma closeSip_still e : mrel still (closeSip e).
Proof. apply onSip_still, CloseO_ok. Qed.

Lemma InviteReq_still : mrel stillM InviteReq.
Proof. intros c. unfold InviteReq. repeat mstep. unfold stillM; simpl; done. Qed.
Lemma InviteAccept_still : mrel stillM InviteAccept.
Proof. intros c. unfold InviteAccept. repeat mstep. unfold stillM; simpl; done. Qed.
Lemma InviteError_still r : mrel stillM (InviteError r).
Proof. intros c. unfold InviteError. repeat mstep. unfold stillM; simpl; done. Qed.
Lemma SetProvider_still p : mrel stillM (SetProvider p).
Proof. intros c. unfold SetProvider. destruct (String.eqb p ""); mstep; unfold stillM; simpl; done. Qed.
Lemma CallTerminate_still t : mrel stillM (CallTerminate t).
Proof. intros c. unfold CallTerminate. do 2 mstep. destruct (mon_terminated c); repeat mstep; unfold stillM; simpl; done. Qed.

Lemma keepsEnd_same f :
  (forall i, EndedAtNs (f i) = EndedAtNs i /\ info_CallStatus (f i) = info_CallStatus i /\
             info_Error (f i) = info_Error i) -> keepsEnd f.
Proof. intros Hf i. destruct (Hf i) as (E1 & E2 & E3). unfold over, ended. by rewrite E1, E2, E3. Qed.

(** An update after which a record with an end time is final. *)
Lemma keepsEnd_final f : (forall i, EndedAtNs i <> 0 -> ended (f i)) -> keepsEnd f.
Proof.
  intros Hf i. split; [intros [He _]; by apply Hf|]. intros [He _]. pose proof (Hf i He) as Hg.
  split; [apply Hg | by left].
Qed.

Lemma signalAnswered_still e : mrel still (signalAnswered e).
Proof.
  unfold signalAnswered.
  repeat first
    [ progress cbv beta | apply onMon_still, InviteAccept_still | apply onSip_still, AckInviteOK_ok
    | apply onState_still, DeferUpdate_still, keepsEnd_same; intros i;
      by destruct (sg_view e) as [[? ? [[]|]]|]
    | rel_step; try done ].
Qed.

Lemma sipSignal_still e : mrel still (sipSignal e).
Proof.
  unfold sipSignal.
  repeat first
    [ progress cbv beta | apply signalAnswered_still | apply closeSip_still
    | apply onMon_still, InviteReq_still | apply onMon_still, InviteError_still
    | apply onSip_still, Invite_ok
    | apply onState_still, DeferUpdate_still, keepsEnd_same; intros i; done
    | rel_step; try done ].
Qed.

Lemma dialSIP_still aa e d w : mrel still (dialSIP aa e d w).
Proof.
  unfold dialSIP.
  repeat first [ apply sipSignal_still | apply setStatusWith_still | rel_step; try done ].
Qed.

(** The record [ensureClosed] leaves. *)
Lemma ensureClosed_final now view c :
  EndedAtNs (callInfo (oc_state c)) <> 0 ->
  mspec (ensureClosed now view) c (fun _ c' _ => ended (callInfo (oc_state c'))).
Proof.
  intros He. unfold mspec, ensureClosed, ended, mark_Ended. destruct view as [[? ? [[]|]]|]; simpl;
    rewrite (proj2 (Z.eqb_neq _ _) He); destruct (String.eqb _ _); done.
Qed.

Lemma ensureClosed_still now view : mrel still (ensureClosed now view).
Proof.
  unfold ensureClosed. apply onState_still, Update_still, keepsEnd_final. intros i He.
  unfold ended, mark_Ended. destruct view as [[? ? [[]|]]|]; simpl;
    rewrite (proj2 (Z.eqb_neq _ _) He); destruct (String.eqb _ _); done.
Qed.

(** Closing: once, and then the record is final. *)
Definition closePost (e : CloseEnv) (c : outboundCall) (r : bool) (c' : outboundCall)
    (t : list CEffect) : Prop :=
  acceptsEvents (oc_state c') = acceptsEvents (oc_state c) /\
  if oc_stopped c then r = false /\ c' = break_closing c /\ t = []
  else r = true /\ oc_stopped c' = true /\ oc_active c' = false /\
       (ce_now e <> 0 -> ended (callInfo (oc_state c'))) /\ mon_started (oc_mon c') = false /\
       countb isSessionEnd t = 1%nat /\
       countb isEnded t = (if acceptsEvents (oc_state c) then 1 else 0)%nat.

Lemma closeInfo_ended end_ now i : now <> 0 -> ended (closeInfo end_ now i).
Proof.
  intros Hn. unfold ended, closeInfo, mark_Ended. destruct (Report end_) as [err|]; simpl.
  - destruct (String.eqb (info_Error i) "") eqn:E; simpl.
    + split; [destruct (Z.eqb_spec (EndedAtNs i) 0); done|]. by destruct (String.eqb (Error err) "").
    + split; [destruct (Z.eqb_spec (EndedAtNs i) 0); done|]. by rewrite E.
  - split; [destruct (Z.eqb_spec (EndedAtNs i) 0); done|]. by destruct (String.eqb (info_Error i) "").
Qed.
Lemma Update_run f (c : outboundCall) (Q : unit -> outboundCall -> list CEffect -> Prop) :
  Q tt (upd (set_info (f (callInfo (oc_state c))) false (oc_state c)) (oc_cc c) (oc_mon c) c)
    [CState (HandleUpdate (f (callInfo (oc_state c))))] ->
  mspec (onState (Update f)) c Q.
Proof. done. Qed.

Lemma CallEnd_run (c : outboundCall) :
  mspec (onMon CallEnd) c (fun _ c' t =>
    still c t c' /\ callInfo (oc_state c') = callInfo (oc_state c) /\ mon_started (oc_mon c') = false).
Proof.
  unfold mspec, onMon, CallEnd, mbind', mget, mput, memit, mreturn.
  destruct (mon_started (oc_mon c)) eqn:E; simpl; [|by rewrite E].
  destruct (providerRecordedAtCallStart (oc_mon c)); simpl; done.
Qed.

Lemma EmitEnded_run now term code (c : outboundCall) :
  mspec (onState (EmitSignalingEvent (callEndedEvent (Some now) term code))) c (fun _ c' t =>
    oc_stopped c' = oc_stopped c /\ oc_state c' = oc_state c /\ oc_mon c' = oc_mon c /\
    countb isEnded t = (if acceptsEvents (oc_state c) then 1 else 0)%nat /\
    countb isSessionEnd t = 0%nat).
Proof.
  unfold mspec, onState, EmitSignalingEvent, mbind', mget, memit, mreturn. simpl.
  destruct (acceptsEvents (oc_state c)); done.
Qed.

Lemma stopSIP_still e t : mrel still (stopSIP e t).
Proof. unfold stopSIP. rel_step; [apply onMon_still, CallTerminate_still|apply closeSip_still]. Qed.

(** The last steps of a close: resources released, the handler told. *)
Lemma closeTail_spec (b1 b2 b3 : bool) r reason log (c : outboundCall) :
  mspec (mbind' (mwhen b1 (memit CMediaClose)) (fun _ =>
         mbind' (mwhen b2 (memit (CRoomClose r))) (fun _ =>
         mbind' (mwhen b3 (memit CRoomInClose)) (fun _ =>
         mbind' (mmodify (set_roomIn false)) (fun _ =>
         mbind' (mmodify (set_active false)) (fun _ =>
         mbind' (memit CDeregister) (fun _ =>
         mbind' (memit (CSessionEnd reason)) (fun _ => memit (CLog log))))))))) c
    (fun _ c' t => c' = set_active false (set_roomIn false c) /\ countb isEnded t = 0%nat /\
                   countb isSessionEnd t = 1%nat).
Proof. destruct b1, b2, b3; done. Qed.

Lemma closeOnce_spec e end_ c :
  mspec (closeOnce e end_) c (fun _ c' t =>
    oc_stopped c' = oc_stopped c /\ oc_active c' = false /\
    acceptsEvents (oc_state c') = acceptsEvents (oc_state c) /\
    (ce_now e <> 0 -> ended (callInfo (oc_state c'))) /\ mon_started (oc_mon c') = false /\
    countb isSessionEnd t = 1%nat /\
    countb isEnded t = (if acceptsEvents (oc_state c) then 1 else 0)%nat).
Proof.
  unfold closeOnce. mstep.
  eapply mspec_mono; [apply setStatusWith_still|]. intros _ c1 t1 (S1 & A1 & E1 & I1 & _ & M1 & C1 & D1).
  mstep. apply Update_run. mstep.
  eapply mspec_mono; [apply CallEnd_run|]. intros _ c3 t3 ((S3 & A3 & E3 & _ & _ & _ & C3 & D3) & I3 & M3).
  mstep. mstep. mstep. mstep. mstep.
  eapply mspec_mono; [apply EmitEnded_run|]. intros _ c4 t4 (S4 & I4 & M4 & C4 & D4).
  mstep. eapply mspec_mono; [apply stopSIP_still|]. intros _ c5 t5 (S5 & A5 & E5 & I5 & _ & M5 & C5 & D5).
  eapply mspec_mono; [apply closeTail_spec|]. intros _ c6 t6 (-> & C6 & D6).
  cbn [oc_stopped oc_active oc_state oc_mon set_active set_roomIn flags upd set_info callInfo acceptsEvents] in *.
  split_and!; try congruence.
  - intros Hn. apply I5. rewrite I4, I3. by apply closeInfo_ended.
  - apply M5. congruence.
  - rewrite !countb_app, D1, D3, D4, D5, D6. done.
  - rewrite !countb_app, C1, C3, C4, C5, C6. rewrite E3, E1. cbn. by rewrite !Nat.add_0_r.
Qed.

Lemma close_spec e end_ c : mspec (close e end_) c (closePost e c).
Proof.
  unfold close. do 4 mstep. unfold closePost. cbn [break_closing flags oc_stopped].
  destruct (oc_stopped c) eqn:E; [by mstep|]. mstep. mstep. mstep.
  eapply mspec_mono; [apply closeOnce_spec|]. cbv beta. intros _ c' t (S & A & I & J & K & L & N).
  mstep. rewrite app_nil_r. cbn [app]. cbn in S. split_and!; done.
Qed.
End proofs.

(** ** The steps of a call, in any order

    A call is created by [CoNew]; [Dial] and [waitClose] are sequences of the steps
    that take the lock, and the closes come from other goroutines. *)
Section ops.
Open Scope go_scope.
Context `{ErrorText} `{DigestClient}.
Variable answerAttrs : option Z -> list (string * string).

Inductive COp :=
| CoNew (e : NewCallEnv)
| CoRegister
| CoStart
| CoConnect (e : DialEnv)
| CoActive (now : Z) (view : option RoomView)
| CoDefer (retErr : option error)             (* of createSIPParticipant, when it returns *)
| CoEnsureClosed (now : Z) (view : option RoomView)
| CoWait (e : CloseEnv) (ev : WaitEvent)
| CoClose (e : CloseEnv)
| CoEndCall (e : CloseEnv) (headers : list (string * string))
| CoBye (e : CloseEnv) (receivedAt cseq : Z) (reason : string)
| CoTransferStart (id : string) (startAt : Z) (to : string) (ringback closing : bool) (view : option RoomView)
| CoTransferSend (id : string) (endAt : Z) (mute : bool) (cseq : Z)
    (refer : error + list TxEvent) (wait : option error) (view : option RoomView)
| CoTransferEnd (id : string) (endAt : Z) (mute : bool) (err : option error)
| CoWatch (cseq now libCSeq : Z) (script : list WatchEvent) (view : option RoomView)
| CoAfterTransfer (e : CloseEnv).

Definition runCOp (o : COp) : M outboundCall CEffect unit :=
  match o with
  | CoNew e => do* newCall e in mreturn tt
  | CoRegister => registerActive
  | CoStart => dialStart
  | CoConnect e => do* connectSIP answerAttrs e in mreturn tt
  | CoActive now view => dialActive now view
  | CoDefer retErr => createDefer retErr
  | CoEnsureClosed now view => ensureClosed now view
  | CoWait e ev => do* waitEnd e ev in mreturn tt
  | CoClose e => do* Close e in mreturn tt
  | CoEndCall e h => do* EndCall_rpc e h in mreturn tt
  | CoBye e at_ cseq reason => do* onOutboundBye e at_ cseq reason in mreturn tt
  | CoTransferStart id s to rb cl v => do* transferStart id s to rb cl v in mreturn tt
  | CoTransferSend id e m c r w v => do* transferSend id e m c r w v in mreturn tt
  | CoTransferEnd id e m err => do* transferEnd id e m err in mreturn tt
  | CoWatch c now lib script v => onSip now v (watchLate c now lib script)
  | CoAfterTransfer e => do* afterTransfer e in mreturn tt
  end.

Fixpoint runCOps (l : list COp) : M outboundCall CEffect unit :=
  match l with
  | [] => mreturn tt
  | o :: l' => do* runCOp o in runCOps l'
  end.

(** The clock is past 1970 whenever a close reads it, and an error that is recorded has a text. *)
Definition clockOK (o : COp) : Prop :=
  match o with
  | CoDefer (Some err) => Error err <> ""
  | CoNew e => ce_now (nc_close e) <> 0
  | CoConnect e => ce_now (di_close e) <> 0
  | CoWait e _ | CoClose e | CoEndCall e _ | CoBye e _ _ _ | CoAfterTransfer e => ce_now e <> 0
  | _ => True
  end.

(** A closed call has a final record and is not counted as active. *)
Definition callInv (c : outboundCall) : Prop :=
  oc_stopped c = true -> ended (callInfo (oc_state c)) /\ mon_started (oc_mon c) = false.

Definition stopsIn (c c' : outboundCall) : nat :=
  if oc_stopped c then 0 else if oc_stopped c' then 1 else 0.

Definition opRel (c : outboundCall) (t : list CEffect) (c' : outboundCall) : Prop :=
  (oc_stopped c = true -> oc_stopped c' = true) /\
  acceptsEvents (oc_state c') = acceptsEvents (oc_state c) /\
  countb isSessionEnd t = stopsIn c c' /\
  countb isEnded t = (if acceptsEvents (oc_state c) then stopsIn c c' else 0%nat) /\
  (callInv c -> callInv c') /\
  (oc_stopped c = true -> over (callInfo (oc_state c)) -> over (callInfo (oc_state c'))) /\
  (oc_stopped c = true -> mon_started (oc_mon c) = false -> mon_started (oc_mon c') = false).

#[global] Instance opRel_rel : TraceRel opRel.
Proof.
  split.
  - intros c. unfold opRel, stopsIn. destruct (oc_stopped c), (acceptsEvents _); done.
  - intros c1 t1 c2 t2 c3 (K1 & A1 & S1 & E1 & I1 & O1 & M1) (K2 & A2 & S2 & E2 & I2 & O2 & M2). unfold opRel.
    rewrite !countb_app, S1, S2, E1, E2, A1. unfold stopsIn in *.
    split_and!; auto; try congruence;
      destruct (oc_stopped c1) eqn:?, (oc_stopped c2) eqn:?, (oc_stopped c3) eqn:?,
        (acceptsEvents (oc_state c1)); solve [ done | naive_solver ].
Qed.

Lemma still_opRel c t c' : still c t c' -> opRel c t c'.
Proof.
  intros (S & A & E & I & O & M & C & D). unfold opRel, stopsIn, callInv. rewrite S, C, D.
  split_and!; auto.
  - by destruct (oc_stopped c).
  - destruct (acceptsEvents (oc_state c)); [by destruct (oc_stopped c)|done].
  - intros Hi Hs. destruct (Hi Hs). auto.
Qed.

Lemma mrel_still {A} (m : M outboundCall CEffect A) : mrel still m -> mrel opRel m.
Proof.
  intros Hm c. eapply mspec_mono; [apply Hm|]. cbv beta. intros. by apply still_opRel.
Qed.

Lemma close_opRel e end_ : ce_now e <> 0 -> mrel opRel (close e end_).
Proof.
  intros Hn c. eapply mspec_mono; [apply close_spec|]. cbv beta. unfold closePost, opRel, stopsIn, callInv.
  intros r c' t [A P]. destruct (oc_stopped c) eqn:E.
  - destruct P as (-> & -> & ->). split_and!; try done; [by destruct (acceptsEvents _)|].
    intros Hi _. exact (Hi eq_refl).
  - destruct P as (-> & S & _ & I & M & L & N). rewrite S, L, N. split_and!; try done; auto.
Qed.
Ltac op_step :=
  first
    [ apply close_opRel; assumption
    | apply mrel_still, dialSIP_still
    | apply mrel_still, onSip_still, AcceptByeO_ok
    | apply mrel_still, onSip_still, newReferO_ok
    | apply mrel_still, onSip_still, sendReferO_ok
    | apply mrel_still, onSip_still, watchLate_ok
    | apply mrel_still, onState_still, ForceFlush_still
    | apply mrel_still, onState_still, StartTransfer_still
    | apply mrel_still, onState_still, EndTransfer_still
    | apply mrel_still, onState_still, Emit_still; done
    | apply mrel_still, onMon_still, SetProvider_still
    | rel_step; try (apply still_opRel; done) ].

Lemma connectSIP_opRel e : ce_now (di_close e) <> 0 -> mrel opRel (connectSIP answerAttrs e).
Proof. intros Hn. unfold connectSIP, connectMedia. repeat op_step. Qed.

Lemma newCall_opRel e : ce_now (nc_close e) <> 0 -> mrel opRel (newCall e).
Proof.
  intros Hn. unfold newCall, connectToRoom. repeat op_step.
Qed.

Lemma dialStart_opRel : mrel opRel dialStart.
Proof.
  intros c. unfold dialStart. do 2 mstep. destruct (oc_stopped c) eqn:E; [mstep; apply tr_refl|].
  unfold mspec, onMon, CallStart, mbind', mget, mput, memit, mreturn, opRel, stopsIn, callInv.
  destruct (mon_started (oc_mon c)); simpl; rewrite E; split_and!; try done; by destruct (acceptsEvents _).
Qed.

Lemma dialActive_opRel now view : mrel opRel (dialActive now view).
Proof.
  apply mrel_still, onState_still, Update_still. intros i.
  destruct (Z.eqb_spec (EndedAtNs i) 0) as [E|_]; cbn [negb]; [|done]. split; [by intros [? _]|by intros [? _]].
Qed.

Lemma setErrStatus_opRel now err :
  Error err <> "" -> mrel opRel (setErrStatus now (Some err)).
Proof.
  intros Ht. apply mrel_still, onState_still, Update_still. intros i.
  destruct (String.eqb (info_Error i) "") eqn:E; cbn [negb]; [|done].
  assert (EndedAtNs i <> 0 -> ended (mark_Ended (set_CallStatus (set_Error i (Error err)) SCS_ERROR) now)) as Hf.
  { intros He. unfold ended. simpl. rewrite (proj2 (Z.eqb_neq _ _) He).
    split; [done|]. by rewrite (proj2 (String.eqb_neq _ _) Ht). }
  split; [intros [He _]; auto|]. intros [He _]. split; [apply (Hf He) | left; auto].
Qed.

Hypothesis timeoutText : Error (NewErrorf DeadlineExceeded "media timeout") <> "".

(** The deferred update of a request that returns an error. *)
Lemma createDefer_opRel err : Error err <> "" -> mrel opRel (createDefer (Some err)).
Proof.
  intros Ht. apply mrel_still, onState_still, Update_still, keepsEnd_final. intros i He.
  split; [done|]. cbn. by rewrite (proj2 (String.eqb_neq _ _) Ht).
Qed.

Lemma runCOp_opRel o : clockOK o -> o <> CoDefer None -> mrel opRel (runCOp o).
Proof.
  intros Hc Hd. destruct o as [e| | |e|now view|[err|]|now view|e ev|e|e h|e at_ cs rs|id s to rb cl v|id e m cs r w v|id e m err|cs now lib script v|e];
    cbn [runCOp clockOK] in *; [..|done| | | | | | | | | |].
  - rel_step; [by apply newCall_opRel|rel_step].
  - intros c. unfold registerActive. mstep. unfold opRel, stopsIn, callInv; simpl.
    destruct (oc_stopped c), (acceptsEvents _); done.
  - apply dialStart_opRel.
  - rel_step; [by apply connectSIP_opRel|rel_step].
  - apply dialActive_opRel.
  - by apply createDefer_opRel.
  - apply mrel_still, ensureClosed_still.
  - unfold waitEnd, closeWithTimeout. destruct ev; repeat (op_step || by apply setErrStatus_opRel).
  - unfold Close. repeat op_step.
  - unfold EndCall_rpc. repeat op_step.
  - unfold onOutboundBye. repeat op_step.
  - unfold transferStart. repeat op_step.
  - unfold transferSend, transferEnd. repeat op_step.
  - unfold transferEnd. repeat op_step.
  - repeat op_step.
  - unfold afterTransfer. repeat op_step.
Qed.

(** The record of a closed call says joined only if a request that succeeded came after the
    close, and the call's own [ensureClosed] did not come after it. *)
Definition isEnsureClosed (o : COp) : bool := match o with CoEnsureClosed _ _ => true | _ => false end.

Definition lateJoin (l : list COp) (c0 : outboundCall) : Prop :=
  exists l1 l2, l = l1 ++ CoDefer None :: l2 /\ oc_stopped (state_of (runCOps l1 c0)) = true /\
    forallb (fun o => negb (isEnsureClosed o)) l2 = true.

Lemma lateJoin_snoc l o c0 : isEnsureClosed o = false -> lateJoin l c0 -> lateJoin (l ++ [o]) c0.
Proof.
  intros Ho (l1 & l2 & -> & Hs & Hf). exists l1, (l2 ++ [o]). rewrite <- app_assoc. split_and!; try done.
  rewrite forallb_app, Hf. cbn. by rewrite Ho.
Qed.

(** What holds of a call after the steps [l]. *)
Definition callHist (l : list COp) (c0 c : outboundCall) (t : list CEffect) : Prop :=
  acceptsEvents (oc_state c) = acceptsEvents (oc_state c0) /\
  countb isSessionEnd t = stopsIn c0 c /\
  countb isEnded t = (if acceptsEvents (oc_state c0) then stopsIn c0 c else 0%nat) /\
  (oc_stopped c = true -> mon_started (oc_mon c) = false /\ EndedAtNs (callInfo (oc_state c)) <> 0 /\
     (ended (callInfo (oc_state c)) \/
      info_CallStatus (callInfo (oc_state c)) = SCS_PARTICIPANT_JOINED /\ lateJoin l c0)).

Lemma runCOps_snoc l o c :
  runCOps (l ++ [o]) c =
  let '(_, c1, t1) := runCOps l c in let '(_, c2, t2) := runCOp o c1 in (tt, c2, t1 ++ t2).
Proof.
  revert c. induction l as [|o' l IH]; intros c; cbn [runCOps app]; unfold mbind'.
  - cbn. destruct (runCOp o c) as [[[] c2] t2]. by rewrite app_nil_r.
  - destruct (runCOp o' c) as [[[] c1] t1]. rewrite IH. destruct (runCOps l c1) as [[[] c2] t2].
    destruct (runCOp o c2) as [[[] c3] t3]. by rewrite app_assoc.
Qed.

Lemma callHist_ensureClosed l c0 c now view t :
  oc_stopped c0 = false -> callHist l c0 c t ->
  mspec (ensureClosed now view) c (fun _ c' t' => callHist (l ++ [CoEnsureClosed now view]) c0 c' (t ++ t')).
Proof.
  intros Hn0 (A & S & E & I). destruct (oc_stopped c) eqn:Es.
  - destruct (I eq_refl) as (Hm & He & _).
    eapply mspec_mono; [apply mspec_and; [by apply ensureClosed_final|apply ensureClosed_still]|].
    cbv beta. intros _ c' t' [Hf (S' & _ & A' & _ & _ & M' & C' & D')].
    unfold callHist, stopsIn in *. rewrite !countb_app, C', D', S', A', A, S, E, Hn0, Es, !Nat.add_0_r.
    split_and!; try done. intros _. split_and!; [by apply M'|apply Hf|by left].
  - eapply mspec_mono; [apply ensureClosed_still|]. cbv beta. intros _ c' t' (S' & _ & A' & _ & _ & M' & C' & D').
    unfold callHist, stopsIn in *. rewrite !countb_app, C', D', S', A', A, S, E, Hn0, Es, !Nat.add_0_r. done.
Qed.

Lemma callHist_defer l c0 c t :
  oc_stopped c0 = false -> state_of (runCOps l c0) = c -> callHist l c0 c t ->
  mspec (createDefer None) c (fun _ c' t' => callHist (l ++ [CoDefer None]) c0 c' (t ++ t')).
Proof.
  intros Hn0 Hc (A & S & E & I). unfold mspec, createDefer, callHist, stopsIn in *. cbn.
  rewrite !countb_app, S, E, Hn0. change (countb isSessionEnd [_]) with 0%nat. change (countb isEnded [_]) with 0%nat.
  rewrite !Nat.add_0_r. split_and!; try done. intros Hs. destruct (I Hs) as (Hm & He & _).
  split_and!; try done. right. split; [done|]. exists l, []. by rewrite Hc.
Qed.

Lemma callHist_op l c0 c o t :
  oc_stopped c0 = false -> clockOK o -> o <> CoDefer None -> isEnsureClosed o = false -> callHist l c0 c t ->
  mspec (runCOp o) c (fun _ c' t' => callHist (l ++ [o]) c0 c' (t ++ t')).
Proof.
  intros Hn0 Hc Hd He (A & S & E & I). eapply mspec_mono; [by apply runCOp_opRel|]. cbv beta.
  intros _ c' t' (K' & A' & S' & E' & I' & O' & M'). unfold callHist, stopsIn in *.
  rewrite !countb_app, S, S', E, E', A', A, Hn0.
  split_and!; [done|..].
  - destruct (oc_stopped c); [by rewrite K'|done].
  - destruct (acceptsEvents (oc_state c0)); [|done]. destruct (oc_stopped c); [by rewrite K'|done].
  - intros Hs. destruct (oc_stopped c) eqn:Es.
    + destruct (I eq_refl) as (Hm & Hn & [Hf|[Hj Hl]]).
      * destruct (I' (fun _ => conj Hf Hm) Hs) as [Hf' Hm']. split_and!; [done|apply Hf'|by left].
      * destruct (O' eq_refl) as [Hn' Hf']; [by split; [|right]|]. split_and!; [by apply M'|done|].
        destruct Hf' as [?|?]; [by left|]. right. split; [done|by apply lateJoin_snoc].
    + destruct (I' ltac:(unfold callInv; by rewrite Es) Hs) as [Hf' Hm']. split_and!; [done|apply Hf'|by left].
Qed.

Lemma runCOps_hist l c0 :
  oc_stopped c0 = false -> Forall clockOK l ->
  mspec (runCOps l) c0 (fun _ c t => callHist l c0 c t).
Proof.
  intros Hn0. induction l as [|o l IH] using rev_ind; intros Hl.
  { cbn [runCOps]. mstep. unfold callHist, stopsIn. rewrite Hn0. split_and!; try done.
    by destruct (acceptsEvents _). }
  apply Forall_app in Hl as [Hl [Ho _]%list.Forall_cons]. specialize (IH Hl).
  unfold mspec in *. rewrite runCOps_snoc.
  destruct (runCOps l c0) as [[u c1] t1] eqn:E1.
  assert (mspec (runCOp o) c1 (fun _ c' t' => callHist (l ++ [o]) c0 c' (t1 ++ t'))) as Hm.
  { destruct (isEnsureClosed o) eqn:Ee; [destruct o; try done; by apply callHist_ensureClosed|].
    destruct o as [| | | | |[err|]| | | | | | | | | |]; try (by apply callHist_op).
    apply callHist_defer; try done. by rewrite E1. }
  unfold mspec in Hm. destruct (runCOp o c1) as [[u' c2] t2]. exact Hm.
Qed.
End ops.

(** ** Steps that leave the dialog alone *)

Definition sameCC (c : outboundCall) (t : list CEffect) (c' : outboundCall) : Prop :=
  oc_cc c' = oc_cc c /\ AcceptTime (oc_sigTs c') = AcceptTime (oc_sigTs c).

#[global] Instance sameCC_rel : TraceRel sameCC.
Proof. split; [done|]. intros ? ? ? ? ? [? ?] [? ?]. split; congruence. Qed.

Section sameCC.
Context `{ErrorText} `{DigestClient}.

Lemma onState_sameCC {A} (m : M CallState HandlerCall A) : mrel sameCC (onState m).
Proof. intros c. unfold mspec, onState. by destruct (m (oc_state c)) as [[a st] t]. Qed.

Lemma onMon_sameCC {A} (m : M CallMonitor MEffect A) : mrel sameCC (onMon m).
Proof. intros c. unfold mspec, onMon. by destruct (m (oc_mon c)) as [[a st] t]. Qed.

Lemma setStatusWith_sameCC view v extra : mrel sameCC (setStatusWith view v extra).
Proof. unfold setStatusWith. repeat (rel_step; try done). Qed.

Lemma onInviteResponse_sameCC now view code : mrel sameCC (onInviteResponse now view code).
Proof.
  unfold onInviteResponse. destruct (code =? 200); [by rel_step|].
  apply mrel_get; [apply _|]. intros c.
  set (m1 := mwhen _ _). mstep.
  assert (mspec m1 c (fun _ c' t => sameCC c t c')) as H1.
  { subst m1. destruct (_ && _); cbn [mwhen]; by mstep. }
  eapply mspec_mono; [apply H1|]. cbv beta. intros _ c1 t1 S1.
  assert (mrel sameCC (mbind' (mwhen (negb (oc_ringing c) && (180 <=? code) && (code <? 200))
     (mbind' (mmodify (fun c => let ts := oc_sigTs c in
        set_ts (ts_progress (TryingTime ts) (Some now) (AcceptTime ts) (AckTime ts) ts) true c))
        (fun _ => setStatus view CallRinging))) (fun _ => memit (CHeaderAttrs code)))) as H2.
  { repeat (rel_step; try done). apply setStatusWith_sameCC. }
  eapply mspec_mono; [apply H2|]. cbv beta. intros _ c2 t2 S2. by eapply tr_trans.
Qed.

Lemma dialogEffects_sameCC now view l : mrel sameCC (dialogEffects now view l).
Proof.
  induction l as [|[]]; cbn [dialogEffects]; repeat (rel_step; try done);
    [apply onInviteResponse_sameCC|apply onState_sameCC].
Qed.

(** The requests of the dialog are those of the call. *)
Definition isRequest (e : OEffect) : bool :=
  match e with OEmit _ | OSetState _ => false | _ => true end.
End sameCC.

(** *** Instances *)
Definition exClose (now : Z) : CloseEnv :=
  {| ce_closing := false; ce_libCSeq := 9; ce_now := now; ce_byeEnd := now + 1;
     ce_res := Some (exResponse 200); ce_err := None; ce_view := None |}.

Definition exView : option RoomView :=
  Some {| rv_SID := "RM_1"; rv_Name := "room"; rv_local := Some ("caller", ∅) |}.

Definition exSignal (codes : list Z) (cause : option error) : SignalEnv :=
  {| sg_offer := None; sg_inviteAt := 10; sg_user := "u"; sg_pass := "p";
     sg_attempts := exEnv codes; sg_respAt := 20; sg_progressAt := 15; sg_failClose := exClose 21;
     sg_acceptAt := 22; sg_processAnswer := None; sg_ack := None; sg_ackAt := 23;
     sg_cause := cause; sg_audio := Some "PCMU/8000"; sg_view := exView |}.

Definition exDial (codes : list Z) (cause : option error) : DialEnv :=
  {| di_signal := exSignal codes cause; di_dtmf := ""; di_writeDTMF := None; di_close := exClose 30;
     di_dtmfRate := None; di_endAt := 31; di_startAt := 25; di_view := exView |}.

Definition exNew : NewCallEnv :=
  {| nc_now := 1; nc_provider := ""; nc_mediaPort := None; nc_attrCallID := "SCL_1";
     nc_connect := None; nc_track := None; nc_rpc := None; nc_close := exClose 2 |}.

Definition exCall : outboundCall := initCall (NewCallState true exInfo) "cid" 1 "host".

(** C8: A call ends once.  In any order of its steps (creation, dialing, closing by a hangup from
    either side, a room disconnect, a media timeout, a transfer, a shutdown, the update deferred by
    [createSIPParticipant]), the session handler is told exactly once if the call was closed and
    never otherwise, and so is the ended event when events are accepted.  Once closed, the call is
    not counted as active and its record has an end time, whatever runs after; the record is ERROR
    or DISCONNECTED by whether an error was recorded, except that it says joined while the
    deferred update of a request that succeeded came after the close and [ensureClosed] has not
    run since.  Assumed: a close does not read the clock at 1970-01-01 00:00 (the zero time stands
    for no end), and the texts of the media timeout and of a returned error are not empty. *)
Theorem outbound_ends_once `{ErrorText} `{DigestClient} aa st cid now host l :
  Error (NewErrorf DeadlineExceeded "media timeout") <> "" -> Forall clockOK l ->
  let '(_, c, t) := runCOps aa l (initCall st cid now host) in
  countb isSessionEnd t = (if oc_stopped c then 1 else 0)%nat /\
  countb isEnded t = (if acceptsEvents st && oc_stopped c then 1 else 0)%nat /\
  (oc_stopped c = true ->
     mon_started (oc_mon c) = false /\ EndedAtNs (callInfo (oc_state c)) <> 0 /\
     (ended (callInfo (oc_state c)) \/
      info_CallStatus (callInfo (oc_state c)) = SCS_PARTICIPANT_JOINED /\
      lateJoin aa l (initCall st cid now host))).
Proof.
  intros Ht Hl. pose proof (runCOps_hist aa Ht l (initCall st cid now host) eq_refl Hl) as Hr.
  unfold mspec in Hr. destruct (runCOps aa l _) as [[u c] t].
  destruct Hr as (_ & S & E & I). unfold stopsIn in *. cbn in S, E.
  split_and!; [done| |done]. by destruct (acceptsEvents st).
Qed.

(** Ended twice, and joined in between: the media timeout corrects the record. *)
Lemma outbound_ends_once_witness :
  let l := [CoNew exNew; CoRegister; CoStart; CoConnect (exDial [200] None); CoActive 25 exView;
            CoBye (exClose 40) 39 7 ""; CoDefer None; CoWait (exClose 41) WMediaTimeout; CoClose (exClose 42);
            CoEnsureClosed 43 None] in
  let '(_, c, t) := runCOps (H := exErrorText) (H0 := exDigest) (fun _ => []) l exCall in
  oc_stopped c = true /\ countb isSessionEnd t = 1%nat /\ countb isEnded t = 1%nat /\
  EndedAtNs (callInfo (oc_state c)) <> 0.
Proof.
  intros l.
  pose proof (outbound_ends_once (H := exErrorText) (H0 := exDigest) (fun _ => [])
    (NewCallState true exInfo) "cid" 1 "host" l ltac:(vm_compute; congruence)
    ltac:(repeat constructor; vm_compute; congruence)) as Ho.
  fold exCall in Ho. revert Ho.
  assert (oc_stopped (runCOps (H := exErrorText) (H0 := exDigest) (fun _ => []) l exCall).1.2 = true) as Hs
    by (vm_compute; reflexivity).
  revert Hs. destruct (runCOps _ l exCall) as [[u c] t]. simpl. intros -> (? & ? & Hi).
  split_and!; try done. by apply Hi.
Defined.

(** [createSIPParticipant] overwrites the outcome of the dial it waited for.  For a
    request that waits until the call is answered, the deferred update runs after
    [Dial]: a call that was answered is recorded as PARTICIPANT_JOINED (not ACTIVE),
    and a call that failed loses the disconnect reason its close recorded. *)
Theorem createAndWait_overwrites `{ErrorText} `{DigestClient} aa n d c :
  let '(r, c', t) := createAndWait aa n d c in
  match r with
  | None => True
  | Some None => info_CallStatus (callInfo (oc_state c')) = SCS_PARTICIPANT_JOINED
  | Some (Some _) => info_CallStatus (callInfo (oc_state c')) = SCS_ERROR /\
                     info_DisconnectReason (callInfo (oc_state c')) = UNKNOWN_REASON
  end.
Proof.
  unfold createAndWait, mbind'. destruct (newCall n c) as [[[err|] c1] t1]; [done|].
  simpl. destruct (Dial aa d _) as [[[[err|]|] c2] t2]; done.
Qed.

(** The statuses reported upstream in such a run. *)
Definition statuses (t : list CEffect) : list SIPCallStatus :=
  omap (fun e => match e with CState (HandleUpdate i) => Some (info_CallStatus i) | _ => None end) t.

Lemma createAndWait_example :
  statuses (trace_of (createAndWait (H := exErrorText) (H0 := exDigest) (fun _ => []) exNew
                        (exDial [200] None) exCall)) = [SCS_ACTIVE; SCS_PARTICIPANT_JOINED].
Proof. vm_compute. reflexivity. Qed.

(** ** A call closed before it is registered *)
Definition staleR (c : outboundCall) (t : list CEffect) (c' : outboundCall) : Prop :=
  oc_stopped c = true -> oc_active c = true -> oc_stopped c' = true /\ oc_active c' = true.

#[global] Instance staleR_rel : TraceRel staleR.
Proof. split; unfold staleR; [done|]. intros ? ? ? ? ? F G Hs Ha. destruct (F Hs Ha). auto. Qed.

Section stale.
Context `{ErrorText} `{DigestClient}.
Variable aa : option Z -> list (string * string).

Lemma still_stale {A} (m : M outboundCall CEffect A) : mrel still m -> mrel staleR m.
Proof.
  intros Hm c. eapply mspec_mono; [apply Hm|]. cbv beta. intros _ c' t (S & A' & _) Hs Ha. by rewrite S, A'.
Qed.

Lemma close_stale e end_ : mrel staleR (close e end_).
Proof.
  intros c. eapply mspec_mono; [apply close_spec|]. cbv beta. intros r c' t [_ P] Hs Ha.
  rewrite Hs in P. destruct P as (_ & -> & _). done.
Qed.

Ltac stale_step :=
  first
    [ apply close_stale
    | apply still_stale, dialSIP_still
    | apply still_stale, onSip_still, AcceptByeO_ok
    | apply still_stale, onSip_still, newReferO_ok
    | apply still_stale, onSip_still, sendReferO_ok
    | apply still_stale, onSip_still, watchLate_ok
    | apply still_stale, onState_still, ForceFlush_still
    | apply still_stale, onState_still, StartTransfer_still
    | apply still_stale, onState_still, EndTransfer_still
    | apply still_stale, onState_still, Emit_still; done
    | apply still_stale, onMon_still, SetProvider_still
    | apply still_stale, ensureClosed_still
    | rel_step; try (by intros ? ?) ].

Lemma onState_stale {A} (m : M CallState HandlerCall A) : mrel staleR (onState m).
Proof. intros c. unfold mspec, onState. by destruct (m (oc_state c)) as [[a st] t]. Qed.

Lemma runCOp_stale o : mrel staleR (runCOp aa o).
Proof.
  destruct o as [e| | |e|now view|retErr|now view|e ev|e|e h|e at_ cs rs|id s to rb cl v|id e m cs r w v|id e m err|cs now lib script v|e]; cbn [runCOp].
  - unfold newCall, connectToRoom. repeat stale_step.
  - by intros c ? ?.
  - intros c. unfold dialStart. do 2 mstep. destruct (oc_stopped c) eqn:E; [by mstep|].
    unfold mspec, staleR. destruct (onMon CallStart c) as [[? ?] ?]. congruence.
  - unfold connectSIP, connectMedia. repeat stale_step.
  - apply onState_stale.
  - apply onState_stale.
  - apply onState_stale.
  - unfold waitEnd, closeWithTimeout, setErrStatus. destruct ev; repeat (stale_step || apply onState_stale).
  - unfold Close. repeat stale_step.
  - unfold EndCall_rpc. repeat stale_step.
  - unfold onOutboundBye. repeat stale_step.
  - unfold transferStart. repeat stale_step.
  - unfold transferSend, transferEnd. repeat stale_step.
  - unfold transferEnd. repeat stale_step.
  - repeat stale_step.
  - unfold afterTransfer. repeat stale_step.
Qed.

Lemma runCOps_stale l : mrel staleR (runCOps aa l).
Proof. induction l as [|o l IH]; cbn [runCOps]; [rel_step|]. rel_step; [apply runCOp_stale|done]. Qed.
End stale.

(** [newCall] publishes the call's RPC methods before it registers the call as active.
    If the room ends the call in between, the registration that follows is never undone:
    whatever runs afterwards, the closed call stays among the active calls. *)
Theorem outbound_stale_registration `{ErrorText} `{DigestClient} aa st cid now host n e hdrs l :
  result_of (newCall n (initCall st cid now host)) = None ->
  let c := state_of (runCOps aa ([CoNew n; CoEndCall e hdrs; CoRegister] ++ l) (initCall st cid now host)) in
  oc_stopped c = true /\ oc_active c = true.
Proof.
  intros Hn. cbv zeta.
  enough (mspec (runCOps aa ([CoNew n; CoEndCall e hdrs; CoRegister] ++ l)) (initCall st cid now host)
            (fun _ c _ => oc_stopped c = true /\ oc_active c = true)) as Hm
    by (unfold mspec in Hm; unfold state_of; by destruct (runCOps aa _ _) as [[? ?] ?]).
  cbn [app runCOps runCOp]. do 2 mstep.
  unfold mspec at 1. destruct (newCall n _) as [[r c1] t1]. mstep. mstep. mstep.
  unfold EndCall_rpc. mstep. eapply mspec_mono; [apply close_spec|]. cbv beta.
  intros b c2 t2 [_ P]. unfold registerActive. repeat mstep.
  eapply mspec_mono; [apply (runCOps_stale aa l)|]. cbv beta. intros _ c3 t3 Hs. apply Hs; [|done].
  simpl. destruct (oc_stopped c1) eqn:E; [by destruct P as (_ & -> & _)|by destruct P as (_ & ? & _)].
Qed.

Lemma outbound_stale_registration_witness :
  let c := state_of (runCOps (H := exErrorText) (H0 := exDigest) (fun _ => [])
    ([CoNew exNew; CoEndCall (exClose 5) []; CoRegister] ++
     [CoStart; CoConnect (exDial [200] None); CoClose (exClose 50)]) exCall) in
  oc_stopped c = true /\ oc_active c = true.
Proof.
  apply (outbound_stale_registration (H := exErrorText) (H0 := exDigest) (fun _ => [])
           (NewCallState true exInfo) "cid" 1 "host" exNew (exClose 5) []).
  vm_compute. reflexivity.
Defined.
