(* ===== verification/DialWire.v ===== *)
(** * What an outbound call sends

    The composition of the outbound call ([OutboundCall]) and its dialog ([SipOutbound]) with
    the specification of a user agent client ([Uac]): the requests of a call, from its
    creation, through dialing, transfers and hangups, in any order; and what a dial that
    fails leaves at the callee. *)

From stdpp Require Import base tactics list gmap strings option.
From Stdlib Require Import ZArith Ascii Lia.
From S2P Require Import Prelude GoStd GoErr Participant Errors Types Protocol CallState CallCommon Monitor SipOutbound Uac OutboundCall.

(** What the call sent in its dialog. *)
Definition sipOf : list CEffect -> list OEffect := omap (fun e => match e with CSip d => Some d | _ => None end).

Lemma sipOf_app t1 t2 : sipOf (t1 ++ t2) = sipOf t1 ++ sipOf t2.
Proof. apply omap_app. Qed.

Lemma sipOf_none {A} (f : A -> CEffect) l : (forall a, match f a with CSip _ => False | _ => True end) -> sipOf (map f l) = [].
Proof.
  intros Hf. induction l as [|a l IH]; [done|]. unfold sipOf in *. simpl. specialize (Hf a). by destruct (f a).
Qed.

(** ** Relations of the dialog, in the call *)
Section lift.
Context `{ErrorText} `{DigestClient} (aa : option Z -> list (string * string)).

(** A relation that does not look at events and callbacks. *)
Context (R : sipOutbound -> list OEffect -> sipOutbound -> Prop) `{!TraceRel R}.
Hypothesis R_requests : forall s t s', R s t s' -> R s (List.filter isRequest t) s'.

Definition lift (c : outboundCall) (t : list CEffect) (c' : outboundCall) : Prop := R (oc_cc c) (sipOf t) (oc_cc c').

#[local] Instance lift_rel : TraceRel lift.
Proof.
  split; unfold lift; [intros c; apply tr_refl|]. intros c1 t1 c2 t2 c3 H1 H2. rewrite sipOf_app. by eapply tr_trans.
Qed.









(** What the operations of the dialog do, other than the INVITE and its ACK. *)
Hypothesis R_close : forall closing lib now e res err, mrel R (CloseO closing lib now e res err).
Hypothesis R_bye : mrel R AcceptByeO.
Hypothesis R_refer : forall closing, mrel R (newReferO closing).
Hypothesis R_send : forall cseq refer wait, mrel R (sendReferO cseq refer wait).
Hypothesis R_watch : forall cseq now lib script, mrel R (watchLate cseq now lib script).



(** Every operation of a call but dialing. *)
Definition notConnect (o : COp) : Prop := match o with CoConnect _ => False | _ => True end.
#[export] Instance notConnect_dec o : Decision (notConnect o).
Proof. destruct o; first [by left | by right; intros []]. Defined.


End lift.

(** ** Before the call is dialed *)



(** Nothing is made, and the sequence number stays or, when the call is closed, is reset. *)
Definition preO (s : sipOutbound) (t : list OEffect) (s' : sipOutbound) : Prop :=
  dialogO s = (None, false) -> so_watch s = [] ->
  dialogO s' = (None, false) /\ so_watch s' = [] /\ msgs t = [] /\ (nextCSeq s' = nextCSeq s \/ nextCSeq s' = 0).

#[export] Instance preO_rel : TraceRel preO.
Proof.
  split; unfold preO; [auto|]. intros s1 t1 s2 t2 s3 H1 H2 Hd Hw. destruct (H1 Hd Hw) as (D2 & E2 & W1 & N1).
  destruct (H2 D2 E2) as (D3 & E3 & W2 & N2).
  rewrite msgs_app, W1, W2. split_and!; [done..|]. destruct N1, N2; [left; congruence|right; congruence..].
Qed.








(** ** Dialing *)
Section dialing.
Context `{ErrorText} `{DigestClient} (aa : option Z -> list (string * string)).






(** The REFERs of a call. *)
#[local] Instance liftDelay_rel : TraceRel (lift delayR).
Proof. apply lift_rel, _. Qed.




#[local] Instance liftSim_rel : TraceRel (lift simO).
Proof. apply lift_rel, _. Qed.






End dialing.

(** ** What a failed dial leaves behind *)

(** The requests that take up an answer, or end it. *)
Definition isTalk (e : OEffect) : bool := match e with OAck _ | OBye _ _ => true | _ => false end.
Definition hungUp (t : list OEffect) : Prop := exists q w, OBye q w ∈ t.
Definition noTalk (t : list OEffect) : Prop := Forall (fun e => isTalk e = false) t.




(** Steps after the INVITE: a dialog that is set stays or is hung up, and without one nothing is
    acknowledged or hung up. *)
Definition keptR (s : sipOutbound) (t : list OEffect) (s' : sipOutbound) : Prop :=
  paired s -> paired s' /\ finalStatus s' = finalStatus s /\
  (so_invite s = None -> so_invite s' = None /\ noTalk t) /\
  (so_invite s <> None -> so_invite s' <> None \/ hungUp t).

Lemma hungUp_app t1 t2 : hungUp t1 \/ hungUp t2 -> hungUp (t1 ++ t2).
Proof. intros [(q & w & ?)|(q & w & ?)]; exists q, w; apply elem_of_app; auto. Qed.

#[export] Instance keptR_rel : TraceRel keptR.
Proof.
  split; unfold keptR.
  - intros s Hp. split_and!; [done..|intros Hn; split; [done | constructor]|auto].
  - intros s1 t1 s2 t2 s3 H1 H2 Hp. destruct (H1 Hp) as (P2 & F1 & N1 & U1). destruct (H2 P2) as (P3 & F2 & N2 & U2).
    split_and!; [done|congruence| |].
    + intros Hn. destruct (N1 Hn) as [Hn2 T1]. destruct (N2 Hn2) as [Hn3 T2]. split; [done | by apply Forall_app].
    + intros Hn. destruct (U1 Hn) as [Hn2|Hh]; [|right; apply hungUp_app; auto].
      destruct (U2 Hn2) as [?|?]; [auto | right; apply hungUp_app; auto].
Qed.





Section zombie.
Context `{ErrorText} `{DigestClient} (aa : option Z -> list (string * string)).

#[local] Instance liftKept_rel : TraceRel (lift keptR).
Proof. apply lift_rel, _. Qed.









(** Steps that leave the dialog alone and send nothing. *)
Definition idleR (c : outboundCall) (t : list CEffect) (c' : outboundCall) : Prop := oc_cc c' = oc_cc c.
#[local] Instance idleR_rel : TraceRel idleR.
Proof. split; unfold idleR; [done|]. intros; congruence. Qed.











End zombie.

(** ** Theorems *)
Lemma runCOps_app `{ErrorText} `{DigestClient} aa l1 l2 c :
  runCOps aa (l1 ++ l2) c = mbind' (runCOps aa l1) (fun _ => runCOps aa l2) c.
Proof.
  revert c. induction l1 as [|o l1 IH]; intros c; cbn [app runCOps]; unfold mbind', mreturn.
  - by destruct (runCOps aa l2 c) as [[? ?] ?].
  - destruct (runCOp aa o c) as [[? c1] t1]. rewrite IH. unfold mbind'. destruct (runCOps aa l1 c1) as [[? c2] t2].
    destruct (runCOps aa l2 c2) as [[? c3] t3]. by rewrite app_assoc.
Qed.



(** A call that was closed sends nothing when it is closed again. *)
Definition closer (o : COp) : Prop :=
  match o with CoWait _ _ | CoClose _ | CoEndCall _ _ | CoAfterTransfer _ | CoEnsureClosed _ _ | CoActive _ _ => True | _ => False end.

Lemma closed_quiet `{ErrorText} `{DigestClient} aa l c : Forall closer l -> oc_stopped c = true ->
  mspec (runCOps aa l) c (fun _ c' t => oc_stopped c' = true /\ oc_cc c' = oc_cc c /\ sipOf t = []).
Proof.
  pose (R := fun c t c' => oc_stopped c = true -> oc_stopped c' = true /\ oc_cc c' = oc_cc c /\ sipOf t = []).
  assert (TraceRel R) as HR.
  { split; unfold R; [done|]. intros c1 t1 c2 t2 c3 H1 H2 Hs. destruct (H1 Hs) as (S1 & C1 & T1). destruct (H2 S1) as (S2 & C2 & T2).
    rewrite sipOf_app, T1, T2. split_and!; [done|congruence|done]. }
  assert (forall A (m : M CallState HandlerCall A), mrel R (onState m)) as Hst.
  { intros A m x. unfold mspec, onState. destruct (m (oc_state x)) as [[a st] t]. intros Hs. split_and!; [done..|]. by apply sipOf_none. }
  assert (forall e end_, mrel R (close e end_)) as Hcl.
  { intros e end_ x. destruct (oc_stopped x) eqn:E.
    - unfold close. do 4 mstep. change (oc_stopped (break_closing x)) with (oc_stopped x). rewrite E. by mstep.
    - unfold mspec. destruct (close e end_ x) as [[? ?] ?]. intros Hs. congruence. }
  assert (Forall closer l -> mrel R (runCOps aa l)) as Hl.
  { induction 1 as [|o l Ho _ IH]; cbn [runCOps]; [apply mrel_ret, _|]. apply mrel_bind; [done| |done].
    destruct o; try done; cbn [runCOp]; unfold waitEnd, closeWithTimeout, setErrStatus, Close, EndCall_rpc, afterTransfer, ensureClosed, dialActive;
      repeat lazymatch goal with
      | |- mrel _ (onState _) => apply Hst
      | |- mrel _ (close _ _) => apply Hcl
      | |- _ => rel_step
      end. }
  intros Ho Hs. eapply mspec_mono; [apply (Hl Ho)|]. cbv beta. intros _ c' t Hx. by apply Hx.
Qed.

Lemma closed_after `{ErrorText} `{DigestClient} aa l0 l c :
  oc_stopped (state_of (runCOps aa l0 c)) = true -> Forall closer l ->
  msgs (sipOf (trace_of (runCOps aa (l0 ++ l) c))) = msgs (sipOf (trace_of (runCOps aa l0 c))) /\
  oc_cc (state_of (runCOps aa (l0 ++ l) c)) = oc_cc (state_of (runCOps aa l0 c)).
Proof.
  intros Hs Hl. rewrite runCOps_app. unfold mbind', trace_of, state_of in *. destruct (runCOps aa l0 c) as [[u c1] t1].
  pose proof (closed_quiet aa l c1 Hl Hs) as Hq. unfold mspec in Hq. destruct (runCOps aa l c1) as [[v c2] t2].
  destruct Hq as (_ & C & T). cbn [fst snd]. by rewrite sipOf_app, msgs_app, T, C, app_nil_r.
Qed.

#[local] Existing Instance exErrorText.
#[local] Existing Instance exDigest.


(** A call that is ended over RPC, and then dialed and answered. *)
Definition exEnded : list COp :=
  [CoNew exNew; CoEndCall (exClose 5) []; CoRegister; CoStart; CoConnect (exDial [200] None)].

Definition exAttrs (_ : option Z) : list (string * string) := [].

Abbreviation exRun l := (runCOps exAttrs l exCall).

Lemma exEnded_run : oc_stopped (state_of (exRun exEnded)) = true /\
  msgs (sipOf (trace_of (exRun exEnded))) = [CInvite 0 false; CAck 0] /\ absO (oc_cc (state_of (exRun exEnded))) = Up 0 1.
Proof. split; [|split]; vm_compute; reflexivity. Qed.

(** A call that is ended (by a request over RPC) before it is dialed is dialed all the same:
    an INVITE with number 0 is sent; and if it is answered before the cancellation is seen,
    the answer is acknowledged and nothing that ends calls hangs it up any more. *)
Theorem ended_call_dialed l : Forall closer l ->
  msgs (sipOf (trace_of (exRun (exEnded ++ l)))) = [CInvite 0 false; CAck 0] /\
  absO (oc_cc (state_of (exRun (exEnded ++ l)))) = Up 0 1.
Proof.
  intros Hl. destruct exEnded_run as (Hs & Hw & Ha).
  destruct (closed_after exAttrs exEnded l exCall Hs Hl) as [E1 E2].
  split; [exact (eq_trans E1 Hw)|]. exact (eq_trans (f_equal absO E2) Ha).
Qed.

Lemma ended_call_dialed_witness :
  Forall closer [CoWait (exClose 40) WStopped; CoClose (exClose 50)] /\
  absO (oc_cc (state_of (exRun (exEnded ++ [CoWait (exClose 40) WStopped; CoClose (exClose 50)])))) = Up 0 1.
Proof.
  assert (Forall closer [CoWait (exClose 40) WStopped; CoClose (exClose 50)]) as Hl by (repeat constructor).
  split; [exact Hl|]. exact (proj2 (ended_call_dialed _ Hl)).
Defined.

