(* ===== verification/InboundCall.v ===== *)
(** * Inbound calls

    [inboundCall] of [pkg/sip/inbound.go]: from the accepted INVITE through
    ringing, dispatch, the PIN prompt, joining the room and answering, to the end of
    the call, on top of the dialog ([SipInbound]), the call record ([CallState]) and
    the metrics ([Monitor]).

    [handleInvite] runs in one goroutine; what comes from others while it runs (a
    BYE, an ACK, a CANCEL, the shutdown of the service) is interleaved between its
    steps by the argument [ext].  The room, the media port, the dispatch service and
    the network answer through its environment. *)

From stdpp Require Import base tactics list gmap strings option.
From Stdlib Require Import ZArith Ascii Lia.
From S2P Require Import Prelude GoStd GoErr Participant Errors Types Protocol CallState CallCommon Monitor Sealer InboundAuth SipInbound.
Import strings.

(** ** State *)
Record inboundCall := {
  ic_state : CallState;
  ic_cc : sipInbound;
  ic_mon : CallMonitor;
  ic_sigTs : SignalingTimestamps;
  ic_done : bool;
  ic_started : bool;
  ic_media : bool;                       (* c.media is not nil *)
  ic_lateAnswerPending : bool;
  ic_closeReason : option ReasonHeader;
  ic_ctxDone : bool;                     (* c.cancel was called *)
  ic_callDur : bool;
  ic_byeReceived : bool;
  ic_registered : bool;                  (* cm.byLocalTag holds the call *)
}.

Inductive IEffect :=
| IState (h : HandlerCall)
| ISip (e : DEffect)
| IMon (e : MEffect)
| ISetAttributes (attr : string)
| ISetupDur (answered : bool) (d : Z)
| ICallDur
| IDispatch (pin : string) (noPin : bool)
| IPlay (what : string)
| IMediaSetTimeout (late : bool)         (* the initial media timeout; late: after a missing ACK *)
| IAttachRoom
| ISubscribe
| IMediaClose
| IRoomClose
| IDeregister
| ISessionEnd (reason : string)
| IMute                                  (* the room's audio no longer goes to the caller *)
| IRestore
| ILog (ts : option (list (string * Z))).

(** ** Calls of the components *)
Section call.
Open Scope go_scope.
Context `{ErrorText}.
Abbreviation IC := (M inboundCall IEffect).

Definition updI (st : CallState) (cc : sipInbound) (mon : CallMonitor) (ts : SignalingTimestamps)
    (c : inboundCall) : inboundCall :=
  {| ic_state := st; ic_cc := cc; ic_mon := mon; ic_sigTs := ts; ic_done := ic_done c;
     ic_started := ic_started c; ic_media := ic_media c;
     ic_lateAnswerPending := ic_lateAnswerPending c; ic_closeReason := ic_closeReason c;
     ic_ctxDone := ic_ctxDone c; ic_callDur := ic_callDur c; ic_byeReceived := ic_byeReceived c;
     ic_registered := ic_registered c |}.

Definition flagsI (done started media late : bool) (reason : option ReasonHeader)
    (ctxDone callDur bye registered : bool) (c : inboundCall) : inboundCall :=
  {| ic_state := ic_state c; ic_cc := ic_cc c; ic_mon := ic_mon c; ic_sigTs := ic_sigTs c;
     ic_done := done; ic_started := started; ic_media := media; ic_lateAnswerPending := late;
     ic_closeReason := reason; ic_ctxDone := ctxDone; ic_callDur := callDur;
     ic_byeReceived := bye; ic_registered := registered |}.

Definition set_done (c : inboundCall) : inboundCall :=
  flagsI true (ic_started c) (ic_media c) (ic_lateAnswerPending c) (ic_closeReason c)
    (ic_ctxDone c) (ic_callDur c) (ic_byeReceived c) (ic_registered c) c.
Definition set_startedI (c : inboundCall) : inboundCall :=
  flagsI (ic_done c) true (ic_media c) (ic_lateAnswerPending c) (ic_closeReason c)
    (ic_ctxDone c) (ic_callDur c) (ic_byeReceived c) (ic_registered c) c.
Definition set_media (c : inboundCall) : inboundCall :=
  flagsI (ic_done c) (ic_started c) true (ic_lateAnswerPending c) (ic_closeReason c)
    (ic_ctxDone c) (ic_callDur c) (ic_byeReceived c) (ic_registered c) c.
Definition set_late (b : bool) (c : inboundCall) : inboundCall :=
  flagsI (ic_done c) (ic_started c) (ic_media c) b (ic_closeReason c)
    (ic_ctxDone c) (ic_callDur c) (ic_byeReceived c) (ic_registered c) c.
Definition set_closeReason (r : ReasonHeader) (c : inboundCall) : inboundCall :=
  flagsI (ic_done c) (ic_started c) (ic_media c) (ic_lateAnswerPending c) (Some r)
    (ic_ctxDone c) (ic_callDur c) (ic_byeReceived c) (ic_registered c) c.
Definition set_ctxDone (c : inboundCall) : inboundCall :=
  flagsI (ic_done c) (ic_started c) (ic_media c) (ic_lateAnswerPending c) (ic_closeReason c)
    true (ic_callDur c) (ic_byeReceived c) (ic_registered c) c.
Definition set_callDur (c : inboundCall) : inboundCall :=
  flagsI (ic_done c) (ic_started c) (ic_media c) (ic_lateAnswerPending c) (ic_closeReason c)
    (ic_ctxDone c) true (ic_byeReceived c) (ic_registered c) c.
Definition set_byeReceived (c : inboundCall) : inboundCall :=
  flagsI (ic_done c) (ic_started c) (ic_media c) (ic_lateAnswerPending c) (ic_closeReason c)
    (ic_ctxDone c) (ic_callDur c) true (ic_registered c) c.
Definition set_registered (b : bool) (c : inboundCall) : inboundCall :=
  flagsI (ic_done c) (ic_started c) (ic_media c) (ic_lateAnswerPending c) (ic_closeReason c)
    (ic_ctxDone c) (ic_callDur c) (ic_byeReceived c) b c.
Definition set_tsI (ts : SignalingTimestamps) (c : inboundCall) : inboundCall :=
  updI (ic_state c) (ic_cc c) (ic_mon c) ts c.

Definition ts_ring (n : Z) (t : SignalingTimestamps) : SignalingTimestamps :=
  {| APITime := APITime t; InviteTime := InviteTime t; TryingTime := TryingTime t;
     RingingTime := Some n; AcceptTime := AcceptTime t; JoinRoomTime := JoinRoomTime t;
     AckTime := AckTime t |}.
Definition ts_accept (n : Z) (t : SignalingTimestamps) : SignalingTimestamps :=
  {| APITime := APITime t; InviteTime := InviteTime t; TryingTime := TryingTime t;
     RingingTime := RingingTime t; AcceptTime := Some n; JoinRoomTime := JoinRoomTime t;
     AckTime := AckTime t |}.
Definition ts_join (n : Z) (t : SignalingTimestamps) : SignalingTimestamps :=
  {| APITime := APITime t; InviteTime := InviteTime t; TryingTime := TryingTime t;
     RingingTime := RingingTime t; AcceptTime := AcceptTime t; JoinRoomTime := Some n;
     AckTime := AckTime t |}.

Definition onStateI {A} (m : M CallState HandlerCall A) : IC A :=
  fun c => match m (ic_state c) with
           | (a, st, t) => (a, updI st (ic_cc c) (ic_mon c) (ic_sigTs c) c, map IState t)
           end.

Definition onMonI {A} (m : M CallMonitor MEffect A) : IC A :=
  fun c => match m (ic_mon c) with
           | (a, mon, t) => (a, updI (ic_state c) (ic_cc c) mon (ic_sigTs c) c, map IMon t)
           end.

(** The events of the dialog go to the call record's handler. *)
Fixpoint dialogEffectsI (l : list DEffect) : IC unit :=
  match l with
  | [] => mreturn tt
  | DEmit ev :: l' => do* onStateI (EmitSignalingEvent ev) in dialogEffectsI l'
  | e :: l' => do* memit (ISip e) in dialogEffectsI l'
  end.

Definition onCC {A} (m : M sipInbound DEffect A) : IC A :=
  fun c => match m (ic_cc c) with
           | (a, cc, t) =>
               match dialogEffectsI t (updI (ic_state c) cc (ic_mon c) (ic_sigTs c) c) with
               | (_, c', t') => (a, c', t')
               end
           end.

(** ** Closing *)
Definition setStatusI (view : option RoomView) (v : CallStatus) : IC unit :=
  if String.eqb (Attribute v) "" then mreturn tt
  else match view with
       | Some {| rv_local := Some _ |} => memit (ISetAttributes (Attribute v))
       | _ => mreturn tt
       end.

(** The final response of a call that is closed before it was answered. *)
Definition closeResult (end_ : EndCall) : SResult :=
  let result :=
    match ec_Status end_ with
    | callMediaFailed => {| res_Code := 488; res_Status := "Media Failed" |}
    | CallCancelled => {| res_Code := 487; res_Status := "Request Terminated" |}
    | _ => {| res_Code := 486; res_Status := "Rejected" |}
    end in
  if 300 <=? ec_Code end_ then
    {| res_Code := ec_Code end_; res_Status := sipStatusOr (ec_Code end_) (res_Status result) |}
  else result.

(** What [close] meets: the clock, the peer, and the outcomes of the final
    response or of the BYE. *)
Record ICloseEnv := {
  ie_now : Z;
  ie_sent : bool;
  ie_peer : PeerInfo;
  ie_bye : ByeEnv;
  ie_view : option RoomView;
}.

Definition closeBody (e : ICloseEnv) (end_ : EndCall) : IC unit :=
  do* setStatusI (ie_view e) (ec_Status end_) in
  do* onMonI (CallTerminate (Term end_)) in
  let* c := mget in
  do* match InviteTime (ic_sigTs c) with
      | None => mreturn tt
      | Some inv =>
          match AcceptTime (ic_sigTs c) with
          | None => memit (ISetupDur false (satDuration (ie_now e - inv)))
          | Some acc => memit (ISetupDur true (satDuration (acc - inv)))
          end
      end in
  do* onCC (CloseWithStatus (ie_now e) (ie_sent e) (ie_peer e) (ie_bye e) (closeResult end_)) in
  let* c := mget in
  do* onStateI (EmitSignalingEvent (callEndedEvent (Some (ie_now e)) (Term end_)
                                      (lastStatusCode (ic_cc c)))) in
  do* memit IRoomClose in
  do* mwhen (ic_media c) (memit IMediaClose) in
  do* mwhen (ic_callDur c) (memit ICallDur) in
  do* mmodify (set_registered false) in
  do* memit IDeregister in
  do* match lastCallStatus (ic_cc c) with
      | Some st => onStateI (DeferUpdate (fun i => set_CallStatusCode i (Some st)))
      | None => mreturn tt
      end in
  do* memit (ISessionEnd (stats.Reason (Term end_))) in
  do* mmodify set_ctxDone in
  memit (ILog (SignalingTimestamps_Log (ic_sigTs c))).

Definition closeI (e : ICloseEnv) (end_ : EndCall) : IC unit :=
  let* c := mget in
  if ic_done c then mreturn tt
  else do* mmodify set_done in closeBody e end_.

Definition endOf (st : CallStatus) (t : stats.Termination) : EndCall :=
  {| Report := None; ec_Status := st; Term := t; Reason := UNKNOWN_REASON; Headers := [];
     ec_Code := 0 |}.

Definition closeWithTerm (e : ICloseEnv) (t : stats.Termination) : IC unit :=
  closeI e (endOf callDropped t).

Definition mediaTimeoutError : error := NewErrorf DeadlineExceeded "media-timeout".

Definition closeWithTimeoutI (e : ICloseEnv) (isError : bool) : IC unit :=
  do* mwhen (negb isError)
        (onStateI (DeferUpdate (fun i =>
           if String.eqb (info_Error i) "" then set_Error i (Error mediaTimeoutError) else i))) in
  closeI e (endOf (if isError then callDropped else callHangupMedia)
              (stats.Indeterminate "media-timeout")).

Definition closeWithNoACK (e : ICloseEnv) : IC unit :=
  closeI e (endOf callNoACK (stats.Indeterminate "no-ack")).

Definition closeWith (e : ICloseEnv) (status : CallStatus) (t : stats.Termination)
    (reason : ReasonHeader) : IC unit :=
  do* onStateI (DeferUpdate (fun i =>
        let i := set_DisconnectReason i CLIENT_INITIATED in
        if String.eqb (info_Error i) "" && negb (IsNormal reason)
        then set_Error i (ReasonHeader_String reason) else i)) in
  let t := if negb (String.eqb (rh_Type reason) "") && negb (IsNormal reason) then
             {| stats.Result := stats.Result t;
                stats.Reason := "bye-" +:+ ToLower (rh_Type reason) +:+ "-" +:+ fmt_d (rh_Cause reason) |}
           else t in
  closeI e (endOf status t).

Definition closeWithCancelled (e : ICloseEnv) : IC unit :=
  let* c := mget in
  closeWith e CallCancelled (stats.Success "cancelled") (default zeroReason (ic_closeReason c)).

Definition closeWithHangup (e : ICloseEnv) : IC unit :=
  let* c := mget in
  closeWith e CallHangup (stats.Success "hangup") (default zeroReason (ic_closeReason c)).

Definition Shutdown (e : ICloseEnv) : IC unit := closeWithTerm e (stats.ServerError "shutdown").

Definition mediaTimeout (e : ICloseEnv) : IC (option error) :=
  let* c := mget in
  if negb (acked (ic_cc c)) then
    do* closeWithNoACK e in mreturn (Some (NewError DeadlineExceeded (ESentinel errNoACK)))
  else
    do* closeWithTimeoutI e false in mreturn None.
(** ** Requests and signals from other goroutines *)
Inductive Ext :=
| ExtBye (reason : ReasonHeader) (cseq : option Z) (now : Z)
| ExtAck (now : Z) (cseq : option Z)
| ExtRingTick (now : Z) (sent : bool)
| ExtCancel (now : Z)
| ExtShutdown (e : ICloseEnv).

(** The part of [HandleBye] for a known inbound call: [AcceptBye], the event, once,
    and [Bye]. *)
Definition byeInbound (reason : ReasonHeader) (cseq : option Z) (now : Z) : IC unit :=
  do* onCC AcceptBye in
  let* c := mget in
  do* mwhen (negb (ic_byeReceived c))
        (do* mmodify set_byeReceived in
         onStateI (EmitSignalingEvent (newEvent EventByeReceived (Some now) "BYE" 0 (default 0 cseq)
                                         "" (reasonCause reason) "" 0))) in
  do* mmodify (set_closeReason reason) in
  mmodify set_ctxDone.

Definition runExt (x : Ext) : IC unit :=
  match x with
  | ExtBye reason cseq now => byeInbound reason cseq now
  | ExtAck now cseq => onCC (AcceptAck now cseq)
  | ExtRingTick now sent => onCC (ringTick now sent)
  | ExtCancel now => onCC (ringCancel now)
  | ExtShutdown e => Shutdown e
  end.

Fixpoint runExts (l : list Ext) : IC unit :=
  match l with
  | [] => mreturn tt
  | x :: l' => do* runExt x in runExts l'
  end.

(** ** Transfer

    [transferCall] up to its result, and what its timer does after a success.
    [ringback]: a dial tone is played to the caller meanwhile. *)
Definition transferCallI (id : string) (startAt endAt : Z) (to : string) (ringback hasFrom : bool)
    (p : PeerInfo) (refer : error + list TxEvent) (wait : option error) : IC (option (option error)) :=
  let* _tid := onStateI (StartTransfer id startAt to) in
  let* c := mget in
  let tone := ringback && ic_started c && negb (ic_done c) in
  if tone && negb (ic_media c) then
    let err := Some (EText "media port not found") in
    do* onStateI (EndTransfer endAt id err) in
    mreturn (Some err)
  else
    do* mwhen tone (memit IMute) in
    let* r := onCC (TransferCall hasFrom p refer wait) in
    match r with
    | None => mreturn None
    | Some err =>
        let* c := mget in
        do* mwhen (tone && bool_decide (is_Some err) && negb (ic_done c)) (memit IRestore) in
        do* onStateI (EndTransfer endAt id err) in
        mreturn (Some err)
    end.

Definition afterTransferI : IC unit := mmodify set_ctxDone.

(** ** Dispatch *)
Record CallDispatch := {
  disp_Result : DispatchResult;
  disp_RoomName : string;
  disp_Identity : string;
  disp_Attributes : gmap string string;
  disp_TrunkID : string;
  disp_DispatchRuleID : string;
  disp_lateOffer : bool;                 (* the feature flag *)
  disp_RingingTimeoutStatus : Z;
}.

Definition emitDispatch (at_ dur : Z) (withPIN : bool) (d : CallDispatch) : IC unit :=
  let ev := lookupEvent EventCallDispatched (Some at_) dur (dispatchResultName (disp_Result d)) in
  onStateI (EmitSignalingEvent
    {| ev_Type := ev_Type ev; ev_Time := ev_Time ev; ev_CallID := ev_CallID ev;
       ev_SIPCallID := ev_SIPCallID ev; ev_Direction := ev_Direction ev;
       ev_TrunkID := ev_TrunkID ev; ev_RoomID := ev_RoomID ev;
       ev_DispatchRuleID := disp_DispatchRuleID d; ev_ParticipantID := ev_ParticipantID ev;
       ev_SIPMethod := ev_SIPMethod ev; ev_StatusCode := ev_StatusCode ev; ev_CSeq := ev_CSeq ev;
       ev_Transport := ev_Transport ev; ev_Reason := ev_Reason ev; ev_Result := ev_Result ev;
       ev_Duration := ev_Duration ev; ev_WithPIN := withPIN |}).

(** ** Waiting for media and for a subscriber *)
Inductive WaitOutcome :=
| WoCancelled | WoCtxDone | WoRoomClosed | WoMediaTimeout | WoEndCall (end_ : EndCall)
| WoTimer                              (* the delay, or the ringing timeout *)
| WoReady.                             (* media received, or subscribed *)

Definition waitMedia (e : ICloseEnv) (o : WaitOutcome) : IC (bool * option error) :=
  match o with
  | WoCancelled => do* closeWithCancelled e in mreturn (false, None)
  | WoCtxDone => do* closeWithHangup e in mreturn (false, None)
  | WoRoomClosed =>
      do* closeWithHangup e in mreturn (false, Some (NewErrorf Canceled "room closed"))
  | WoMediaTimeout => let* err := mediaTimeout e in mreturn (false, err)
  | WoEndCall end_ => do* closeI e end_ in mreturn (false, None)
  | WoTimer | WoReady => mreturn (true, None)
  end.

Definition waitSubscribe (e : ICloseEnv) (timeoutStatus : Z) (o : WaitOutcome)
    : IC (bool * option error) :=
  match o with
  | WoCancelled => do* closeWithCancelled e in mreturn (false, None)
  | WoCtxDone => do* closeWithHangup e in mreturn (false, None)
  | WoRoomClosed =>
      do* closeWithHangup e in mreturn (false, Some (NewErrorf Canceled "room closed"))
  | WoMediaTimeout => let* err := mediaTimeout e in mreturn (false, err)
  | WoEndCall end_ =>
      do* closeI e end_ in mreturn (false, Some (NewErrorf Canceled "rpc terminated the call"))
  | WoTimer =>
      do* closeI e {| Report := None; ec_Status := callDropped;
                      Term := stats.ServerError "cannot-subscribe"; Reason := UNKNOWN_REASON;
                      Headers := []; ec_Code := timeoutStatus |} in
      mreturn (false, Some (NewErrorf DeadlineExceeded "room subscription timed out"))
  | WoReady => mreturn (true, None)
  end.

(** ** Answering *)
Record AnswerEnv := {
  ae_tries : nat -> TryEnv;
  ae_acceptAt : Z;
  ae_ackBody : option string;            (* c.cc.Ack(), by its body *)
  ae_lateAnswer : option (error + (string * option string));
    (* None: audio is already negotiated; the late answer: its error, or the local
       SDP and the negotiated codec *)
  ae_media : WaitOutcome;
  ae_view : option RoomView;
}.

Definition acceptCall (e : ICloseEnv) (a : AnswerEnv) (sdp : string) (waitForAck : bool)
    : IC (option error) :=
  let* r := onCC (Accept (ae_tries a) sdp waitForAck) in
  do* mmodify (fun c => set_tsI (ts_accept (ae_acceptAt a) (ic_sigTs c)) c) in
  let* c := mget in
  do* onStateI (EmitSignalingEvent (inviteResponseEvent EventAnsweredSent (sipOkAt (ic_cc c)) 200
                                      (inviteCSeq (ic_cc c)))) in
  match r.1 with
  | AcceptDone None => mreturn None
  | AcceptDone (Some err) =>
      if errors.Is err errNoACK then do* closeWithNoACK e in mreturn (Some err)
      else
        do* closeI e (endOf callAcceptFailed (stats.ServerError "accept-failed")) in
        mreturn (Some err)
  | AcceptWriteError | AcceptOutOfFuel =>
      do* closeI e (endOf callAcceptFailed (stats.ServerError "accept-failed")) in
      mreturn (Some (EText "write error"))
  end.

Definition updateCallStateAudio (codec : option string) : IC (option error) :=
  match codec with
  | None => mreturn (Some (EText "media does not have negotiated audio"))
  | Some c => do* onStateI (DeferUpdate (fun i => set_AudioCodec i c)) in mreturn None
  end.

Definition negotiateMediaForLateAnswer (ans : option (error + (string * option string))) : IC (option error) :=
  let* r :=
    match ans with
    | None => mreturn None
    | Some (inl err) => mreturn (Some err)
    | Some (inr (localSDP, codec)) =>
        do* onCC (SetOwnSDP localSDP) in updateCallStateAudio codec
    end in
  do* mmodify (set_late false) in
  mreturn r.

Definition waitForMedia (e : ICloseEnv) (a : AnswerEnv) : IC (bool * option error) :=
  do* memit (IMediaSetTimeout false) in
  do* memit IAttachRoom in
  let* r := waitMedia e (ae_media a) in
  if r.1 then do* setStatusI (ae_view a) CallActive in mreturn (true, None)
  else mreturn (false, r.2).

(** The result, and whether the late-ACK timer runs. *)
Definition acceptCallAndWaitForMedia (e : ICloseEnv) (a : AnswerEnv) (sdp : string)
    (inboundWaitACK expectingLateAnswer : bool) : IC (bool * option error * bool) :=
  let waitForAck := expectingLateAnswer || inboundWaitACK in
  let* err := acceptCall e a sdp waitForAck in
  match err with
  | Some err => mreturn (false, Some err, false)
  | None =>
      let* late :=
        if expectingLateAnswer then
          match ae_ackBody a with
          | None => mreturn (Some (EText "ack not found"))
          | Some _ => negotiateMediaForLateAnswer (ae_lateAnswer a)
          end
        else mreturn None in
      match late with
      | Some err => mreturn (false, Some err, false)
      | None =>
          let* r := waitForMedia e a in
          mreturn (r, negb waitForAck)
      end
  end.
(** ** The PIN prompt

    What its select receives; a digit comes with the answer the dispatch service
    would give if it ends the PIN. *)
Inductive PinEvent :=
| PinCancelled | PinCtxDone | PinMediaTimeout
| PinClosed                                     (* the DTMF channel was closed *)
| PinDigit (digit : ascii) (at_ dur : Z) (answer : CallDispatch).

Inductive PinResult :=
| PinWaiting
| PinFailed (err : option error)
| PinOK (d : CallDispatch).

Definition pinLimit : nat := 16.

Definition wrongPin : error := NewErrorf PermissionDenied "wrong pin".

(** The dispatch at the end of the PIN. *)
Definition pinDispatch (e : ICloseEnv) (pin : string) (at_ dur : Z) (d : CallDispatch) : IC PinResult :=
  do* memit (IDispatch pin (String.eqb pin "")) in
  do* emitDispatch at_ dur true d in
  if decide (disp_Result d = DispatchServiceUnavailable) then
    do* closeWithTerm e (stats.ServerError "dispatch-error") in
    mreturn (PinFailed (Some (NewErrorf Unavailable "dispatch rule evaluation unavailable")))
  else if negb (bool_decide (disp_Result d = DispatchAccept)) || String.eqb (disp_RoomName d) "" then
    do* memit (IPlay "wrongPin") in
    do* closeWithTerm e (stats.ClientError "wrong-pin") in
    mreturn (PinFailed (Some wrongPin))
  else
    do* memit (IPlay "roomJoin") in
    mreturn (PinOK d).

Fixpoint pinLoop (e : ICloseEnv) (evs : list PinEvent) (pin : string) : IC PinResult :=
  match evs with
  | [] => mreturn PinWaiting
  | PinCancelled :: _ => do* closeWithCancelled e in mreturn (PinFailed None)
  | PinCtxDone :: _ => do* closeWithHangup e in mreturn (PinFailed None)
  | PinMediaTimeout :: _ => let* err := mediaTimeout e in mreturn (PinFailed err)
  | PinClosed :: _ =>
      do* mmodify set_ctxDone in
      mreturn (PinFailed (Some (NewErrorf Canceled "failed reading DTMF event")))
  | PinDigit digit at_ dur answer :: evs' =>
      if Ascii.eqb digit "000"%char then pinLoop e evs' pin
      else if Ascii.eqb digit "#"%char then pinDispatch e pin at_ dur answer
      else
        let pin := pin +:+ String digit "" in
        if (pinLimit <? String.length pin)%nat then
          do* memit (IPlay "wrongPin") in
          do* closeI e (endOf callDropped (stats.ClientError "wrong-pin")) in
          mreturn (PinFailed (Some wrongPin))
        else pinLoop e evs' pin
  end.

Definition pinPrompt (e : ICloseEnv) (evs : list PinEvent) : IC PinResult :=
  do* memit (IPlay "enterPin") in
  pinLoop e evs "".

(** ** Waiting for the end of the call *)
Inductive EndEvent :=
| EvTick | EvCtx | EvEndCall (end_ : EndCall) | EvRoomClosed (reason : DisconnectReason)
| EvMediaTimeout | EvAckReceived | EvAckTimeout.

(** [ackReceived] and [ackTimeout]: the channel is not nil.  [None]: still in the
    call. *)
Fixpoint waitForCallEnd (e : ICloseEnv) (ackReceived ackTimeout : bool) (evs : list EndEvent)
    : IC (option (option error)) :=
  match evs with
  | [] => mreturn None
  | EvTick :: evs' => do* onStateI ForceFlush in waitForCallEnd e ackReceived ackTimeout evs'
  | EvCtx :: _ => do* closeWithHangup e in mreturn (Some None)
  | EvEndCall end_ :: _ => do* closeI e end_ in mreturn (Some None)
  | EvRoomClosed reason :: _ =>
      do* onStateI (DeferUpdate (fun i =>
            set_DisconnectReason i (disconnectReasonFromRoomClose reason))) in
      do* closeWithTerm e (terminationFromRoomDisconnect reason) in
      mreturn (Some None)
  | EvMediaTimeout :: _ => let* err := mediaTimeout e in mreturn (Some err)
  | EvAckReceived :: evs' =>
      waitForCallEnd e false (if ackReceived then false else ackTimeout) evs'
  | EvAckTimeout :: evs' =>
      do* mwhen ackTimeout (memit (IMediaSetTimeout true)) in
      waitForCallEnd e ackReceived false evs'
  end.

(** ** [rejectMedia] *)
Definition rejectMediaVerdict (err : error) : Z * string * CallStatus * stats.Termination :=
  if errors.Is err sdp_ErrNoCommonMedia then
    (488, "No Acceptable Codec", callMediaFailed, stats.ClientError "no-common-codec")
  else if errors.Is err sdp_ErrNoCommonCrypto then
    (488, "No Acceptable Encryption Profile", callMediaFailed, stats.ClientError "no-common-crypto")
  else match errors.AsSDPError err with
       | Some _ => (488, "Invalid SDP", callMediaFailed, stats.ClientError "sdp-error")
       | None => (500, "", callDropped, stats.ServerError "media-failed")
       end.

Definition rejectMedia (cache sent : bool) (e : ICloseEnv) (err : error) : IC (option error) :=
  let '(code, phrase, status, term) := rejectMediaVerdict err in
  do* onCC (RespondAndDrop cache (ie_now e) sent code phrase) in
  do* closeI e (endOf status term) in
  mreturn (Some err).
(** ** [handleInvite] *)
Record HandleEnv := {
  he_close : ICloseEnv;                  (* of the close, whichever it is *)
  he_cache : bool;                       (* the manager caches rejected INVITEs *)
  he_ringAt : Z;
  he_ringSent : bool;
  he_dispatch : CallDispatch;
  he_dispatchAt : Z;
  he_dispatchDur : Z;
  he_mediaConfig : option error;         (* of newMediaConfig *)
  he_sipCallId : string;
  he_createMedia : option error;
  he_hasOffer : bool;                    (* the INVITE has a body *)
  he_generate : error + string;          (* GenerateOffer, for a late offer *)
  he_negotiate : error + (string * option string);
    (* GenerateAnswer: the answer and the negotiated codec *)
  he_inboundWaitACK : bool;
  he_answer : AnswerEnv;
  he_pin : list PinEvent;
  he_join : option error;
  he_joinAt : Z;
  he_participant : string;
  he_joinView : option RoomView;
  he_publish : option error;
  he_subscribe : WaitOutcome;
  he_startAt : Z;
  he_startView : option RoomView;
  he_end : list EndEvent;
}.

Inductive IResult :=
| IPanic                                 (* StartRinging on a closed dialog *)
| IRunning                               (* a script ended while waiting *)
| IRet (err : option error).

Definition joinRoom (e : HandleEnv) : IC (option error) :=
  do* mmodify set_callDur in
  match he_join e with
  | Some err =>
      do* closeWithTerm (he_close e) (stats.ServerError "participant-failed") in
      mreturn (Some (EWrap "cannot create LiveKit participant: " err ""))
  | None =>
      do* mmodify (fun c => set_tsI (ts_join (he_joinAt e) (ic_sigTs c)) c) in
      mreturn None
  end.

(** The SDP of the 200 OK, and whether a late answer is expected. *)
Definition prepareMedia (e : HandleEnv) : IC (error + (string * bool)) :=
  match he_createMedia e with
  | Some err => mreturn (inl err)
  | None =>
      do* mmodify set_media in
      if negb (he_hasOffer e) then
        if negb (disp_lateOffer (he_dispatch e)) then
          mreturn (inl (ESDP (EText "received INVITE without offer, late offer disabled")))
        else
          do* mmodify (set_late true) in
          match he_generate e with
          | inl err => mreturn (inl err)
          | inr sdp => mreturn (inr (sdp, true))
          end
      else
        match he_negotiate e with
        | inl err => mreturn (inl err)
        | inr (sdp, codec) =>
            let* r := updateCallStateAudio codec in
            mreturn (match r with Some err => inl err | None => inr (sdp, false) end)
        end
  end.

(** From joining the room on. *)
Definition inRoom (e : HandleEnv) (ext : nat -> list Ext) (d : CallDispatch) (pinned : bool)
    (sdp : string) (late ackTimeout : bool) : IC IResult :=
  let timeoutStatus := if disp_RingingTimeoutStatus d =? 0 then 486 else disp_RingingTimeoutStatus d in
  let* joined := joinRoom e in
  match joined with
  | Some err => mreturn (IRet (Some (EWrap "failed joining room: " err "")))
  | None =>
      do* onStateI (Update (fun i => match he_joinView e with
                                     | Some r => set_Room i (rv_SID r) (rv_Name r)
                                     | None => i
                                     end)) in
      do* onStateI (EmitSignalingEvent
            (let ev := newEvent EventRoomJoined (Some (he_joinAt e)) "" 0 0 "" "" "" 0 in
             {| ev_Type := ev_Type ev; ev_Time := ev_Time ev; ev_CallID := ""; ev_SIPCallID := "";
                ev_Direction := ev_Direction ev; ev_TrunkID := ""; ev_RoomID := "";
                ev_DispatchRuleID := "";
                ev_ParticipantID := match he_joinView e with Some _ => he_participant e | None => "" end;
                ev_SIPMethod := ""; ev_StatusCode := 0; ev_CSeq := 0; ev_Transport := "";
                ev_Reason := ""; ev_Result := ""; ev_Duration := 0; ev_WithPIN := false |})) in
      do* runExts (ext 3%nat) in
      match he_publish e with
      | Some err =>
          do* closeWithTerm (he_close e) (stats.ServerError "publish-failed") in
          mreturn (IRet (Some (EWrap "publishing track to room failed: " err "")))
      | None =>
          do* memit ISubscribe in
          let* r :=
            if pinned then mreturn (true, None, ackTimeout)
            else
              let* s := waitSubscribe (he_close e) timeoutStatus (he_subscribe e) in
              do* runExts (ext 4%nat) in
              if s.1 then
                acceptCallAndWaitForMedia (he_close e) (he_answer e) sdp (he_inboundWaitACK e) late
              else mreturn (false, s.2, false) in
          let '(ok, err, ackTimeout) := r in
          if negb ok then mreturn (IRet err)
          else
            do* onStateI (Update (fun i =>
                  let i := set_CallStatus (set_Started i (RoomId i) (he_startAt e)) SCS_ACTIVE in
                  match he_startView e with
                  | Some {| rv_SID := sid; rv_Name := name; rv_local := Some (_, attrs) |} =>
                      set_Attributes (set_Room i sid name) attrs
                  | _ => i
                  end)) in
            do* mmodify set_startedI in
            do* runExts (ext 5%nat) in
            let* w := waitForCallEnd (he_close e) (negb late && negb (he_inboundWaitACK e))
                        ackTimeout (he_end e) in
            mreturn (match w with None => IRunning | Some err => IRet err end)
      end
  end.

(** From the accepted dispatch on. *)
Definition dispatched (e : HandleEnv) (ext : nat -> list Ext) (withPin : bool) : IC IResult :=
  let* m := prepareMedia e in
  match m with
  | inl err =>
      let* r := rejectMedia (he_cache e) (ie_sent (he_close e)) (he_close e) err in
      mreturn (IRet r)
  | inr (sdp, late) =>
      if negb withPin then inRoom e ext (he_dispatch e) false sdp late false
      else
        let* a := acceptCallAndWaitForMedia (he_close e) (he_answer e) sdp (he_inboundWaitACK e) late in
        let '(ok, err, ackTimeout) := a in
        if negb ok then mreturn (IRet err)
        else
          do* runExts (ext 2%nat) in
          let* p := pinPrompt (he_close e) (he_pin e) in
          match p with
          | PinWaiting => mreturn IRunning
          | PinFailed err => mreturn (IRet err)
          | PinOK d => inRoom e ext d true sdp late ackTimeout
          end
  end.

Definition rejectCall (e : HandleEnv) (code : Z) (phrase : string) (t : stats.Termination)
    (err : error) : IC IResult :=
  do* onCC (RespondAndDrop (he_cache e) (ie_now (he_close e)) (ie_sent (he_close e)) code phrase) in
  do* closeWithTerm (he_close e) t in
  mreturn (IRet (Some err)).

Definition handleDispatch (e : HandleEnv) (ext : nat -> list Ext) : IC IResult :=
  let d := he_dispatch e in
  do* memit (IDispatch "" false) in
  do* emitDispatch (he_dispatchAt e) (he_dispatchDur e) false d in
  do* runExts (ext 1%nat) in
  match he_mediaConfig e with
  | Some err => rejectCall e 500 "" (stats.ServerError "media-config-error") (NewError Internal err)
  | None =>
      do* onStateI (Update (fun i =>
            set_Dispatch i (disp_TrunkID d) (disp_DispatchRuleID d) (disp_RoomName d) (disp_Identity d)
              (if negb (String.eqb (he_sipCallId e) "")
               then <[AttrSIPCallIDFull := he_sipCallId e]> (disp_Attributes d)
               else disp_Attributes d))) in
      match disp_Result d with
      | DispatchNoRuleDrop =>
          do* onCC drop in
          do* closeI (he_close e) (endOf callFlood (stats.ClientError "flood")) in
          mreturn (IRet (Some (NewErrorf PermissionDenied
                                 "call was not authorized by trunk configuration")))
      | DispatchNoRuleReject =>
          rejectCall e 404 "Does not match Trunks or Dispatch Rules" (stats.ClientError "no-dispatch")
            (NewErrorf NotFound "no trunk configuration for call")
      | DispatchServiceUnavailable =>
          rejectCall e 503 "Try again later" (stats.ServerError "dispatch-error")
            (NewErrorf Unavailable "dispatch rule evaluation unavailable")
      | DispatchAccept => dispatched e ext false
      | DispatchRequestPin => dispatched e ext true
      | DispatchOther _ =>
          rejectCall e 501 "" (stats.ServerError "unexpected-result")
            (NewError Unimplemented (EText "unexpected dispatch result"))
      end
  end.

(** The deferred calls run when the function returns. *)
Definition handleInvite (e : HandleEnv) (ext : nat -> list Ext) : IC IResult :=
  do* onMonI InviteAccept in
  do* onMonI CallStart in
  do* runExts (ext 0%nat) in
  let* ring := onCC (StartRinging (he_ringAt e) (he_ringSent e)) in
  match ring with
  | None => mreturn IPanic
  | Some sent =>
      do* mwhen sent
            (do* mmodify (fun c => set_tsI (ts_ring (he_ringAt e) (ic_sigTs c)) c) in
             let* c := mget in
             onStateI (EmitSignalingEvent
               (inviteResponseEvent EventRingingSent (Some (he_ringAt e)) 180 (inviteCSeq (ic_cc c))))) in
      let* r := handleDispatch e ext in
      match r with
      | IRet err =>
          do* closeWithTerm (he_close e) (stats.ServerError "other") in
          do* onMonI CallEnd in
          mreturn (IRet err)
      | _ => mreturn r
      end
  end.
End call.

(** ** Lemmas *)

(** *** The dialog inside the call *)

(** What a step of the dialog keeps: the invariant of what was sent, and that a
    closed dialog stays closed. *)
Definition dlgR (s : sipInbound) (t : list DEffect) (s' : sipInbound) : Prop :=
  (forall tr, dinv s (counts tr) -> dinv s' (counts (tr ++ t))) /\ (closed s -> closed s').

Definition okEventI (e : DEffect) : Prop :=
  match e with DEmit ev => ev_Type ev <> EventCallEnded | _ => True end.

(** An operation of the dialog, run by the call. *)
Definition dialogOp {A} (m : M sipInbound DEffect A) : Prop := mrel dlgR m /\ mtrace okEventI m.

Lemma dlgR_op o : opOK o -> mrel dlgR (runDOp o).
Proof.
  intros Ho s. unfold mspec. pose proof (runDOp_inv o s) as Hi. pose proof (runDOp_silent o s) as Hs.
  unfold state_of, trace_of in *. destruct (runDOp o s) as [[u s'] t]. cbn in *.
  split; [intros tr; by apply Hi|]. intros Hc. by apply Hs.
Qed.

(** The same without the result that [runDOp] drops. *)
Lemma dlgR_bare {A} (m : M sipInbound DEffect A) :
  mrel dlgR (mbind' m (fun _ => mreturn tt)) -> mrel dlgR m.
Proof.
  intros Hm s. specialize (Hm s). unfold mspec, mbind', mreturn in *.
  destruct (m s) as [[a s'] t]. by rewrite app_nil_r in Hm.
Qed.

Ltac ok_event := repeat (trace_step || (cbn; done)).

Lemma emit_ok ev : ev_Type ev <> EventCallEnded -> mtrace okEventI (emit ev).
Proof. intros He. unfold emit. ok_event. Qed.

Lemma setLastStatus_ok code reason : mtrace okEventI (setLastStatus code reason).
Proof. unfold setLastStatus. ok_event. Qed.

Lemma respond_ok now sent status reason : mtrace okEventI (respond now sent status reason).
Proof. unfold respond, respondWithData, setLastStatus, emitRejected, emit. ok_event. Qed.

Lemma drop_ok : mtrace okEventI drop.
Proof. unfold drop, stopRinging. ok_event. Qed.

Lemma AcceptAck_ok now cseq : mtrace okEventI (AcceptAck now cseq).
Proof. unfold AcceptAck, emit. ok_event. Qed.

Lemma acceptLoop_ok fuel env r w mx try ra waited :
  mtrace okEventI (acceptLoop fuel env r w mx try ra waited).
Proof.
  revert try ra waited. induction fuel as [|fuel IH]; intros; cbn [acceptLoop];
    repeat (trace_step || apply setLastStatus_ok || apply AcceptAck_ok || apply IH || (cbn; done)).
Qed.

Lemma StartRinging_op now sent : dialogOp (StartRinging now sent).
Proof.
  split; [apply dlgR_bare, (dlgR_op (ORing now sent)); done|].
  unfold StartRinging. repeat (trace_step || apply respond_ok).
Qed.

Lemma ringTick_op now sent : dialogOp (ringTick now sent).
Proof.
  split; [apply (dlgR_op (OTick now sent)); done|].
  unfold ringTick. repeat (trace_step || apply respond_ok).
Qed.

Lemma ringCancel_op now : dialogOp (ringCancel now).
Proof.
  split; [apply (dlgR_op (OCancel now)); done|]. unfold ringCancel, emit. ok_event.
Qed.

Lemma AcceptAck_op now cseq : dialogOp (AcceptAck now cseq).
Proof. split; [apply (dlgR_op (OAck now cseq)); done|apply AcceptAck_ok]. Qed.

Lemma Accept_op env sdp w : dialogOp (Accept env sdp w).
Proof.
  split; [apply dlgR_bare, (dlgR_op (OAccept env sdp w)); done|].
  unfold Accept, acceptRetries, acceptFinish, stopRinging.
  repeat (trace_step || apply acceptLoop_ok || (cbn; done)).
Qed.

Lemma AcceptBye_op : dialogOp AcceptBye.
Proof.
  split; [apply (dlgR_op OBye); done|]. unfold AcceptBye. repeat (trace_step || apply drop_ok || (cbn; done)).
Qed.

Lemma RespondAndDrop_op cache now sent status reason :
  300 <= status -> dialogOp (RespondAndDrop cache now sent status reason).
Proof.
  intros Hs. split; [apply (dlgR_op (ORespondAndDrop cache now sent status reason)); done|].
  unfold RespondAndDrop, stopRinging. repeat (trace_step || apply drop_ok || apply respond_ok || (cbn; done)).
Qed.

Lemma CloseWithStatus_op now sent p e result :
  300 <= res_Code result -> dialogOp (CloseWithStatus now sent p e result).
Proof.
  intros Hr. split; [apply (dlgR_op (OClose now sent p e result)); by right|].
  unfold CloseWithStatus, sendBye_inbound, sendStatus, takeCSeq, emitRejected, emit.
  repeat (trace_step || apply drop_ok || apply setLastStatus_ok || (cbn; done)).
Qed.

(** [drop] alone, and a change of the stored SDP. *)
Lemma drop_op : dialogOp drop.
Proof.
  split; [|apply drop_ok]. intros s. unfold mspec.
  pose proof (drop_spec s) as Hd. pose proof (silent_drop s) as Hs.
  unfold run, state_of, trace_of in *. destruct (drop s) as [[u s'] t]. cbn in *. split.
  - intros tr Hi. eapply (dinv_leads s (s', t) tr); [exact Hd|]. intros s2 H1 H2 H3.
    unfold dinv, counts, cadd in *. rewrite H1, H2, H3, !Nat.add_0_r.
    destruct (inviteTx s), (inviteOk s); intuition lia.
  - intros Hc. by apply Hs.
Qed.

Lemma SetOwnSDP_op sdp : dialogOp (SetOwnSDP sdp).
Proof.
  split; [|unfold SetOwnSDP; ok_event]. intros s. unfold SetOwnSDP. mstep.
  split; [intros tr; by rewrite app_nil_r|done].
Qed.

(** *** Steps of the call *)
Definition isEndedI (e : IEffect) : bool :=
  match e with
  | IState (HandleSignalingEvent ev) => bool_decide (ev_Type ev = EventCallEnded)
  | _ => false
  end.
Definition isSessionEndI (e : IEffect) : bool := match e with ISessionEnd _ => true | _ => false end.

(** What the call sent in its dialog. *)
Definition sipTrace : list IEffect -> list DEffect :=
  omap (fun e => match e with ISip d => Some d | _ => None end).

Definition stopsI (c c' : inboundCall) : nat :=
  if ic_done c then 0 else if ic_done c' then 1 else 0.

(** A closed call has a closed dialog and is no longer registered. *)
Definition callInvI (c : inboundCall) : Prop :=
  (exists tr, dinv (ic_cc c) (counts tr)) /\
  (ic_done c = true -> closed (ic_cc c) /\ ic_registered c = false).

Definition relI (c : inboundCall) (t : list IEffect) (c' : inboundCall) : Prop :=
  (ic_done c = true -> ic_done c' = true) /\
  acceptsEvents (ic_state c') = acceptsEvents (ic_state c) /\
  countb isSessionEndI t = stopsI c c' /\
  countb isEndedI t = (if acceptsEvents (ic_state c) then stopsI c c' else 0%nat) /\
  (forall tr, dinv (ic_cc c) (counts tr) -> dinv (ic_cc c') (counts (tr ++ sipTrace t))) /\
  (callInvI c -> callInvI c').

Lemma sipTrace_app t1 t2 : sipTrace (t1 ++ t2) = sipTrace t1 ++ sipTrace t2.
Proof. apply omap_app. Qed.

#[global] Instance relI_rel : TraceRel relI.
Proof.
  split.
  - intros c. unfold relI, stopsI. split_and!; try done.
    + by destruct (ic_done c).
    + destruct (acceptsEvents _); [by destruct (ic_done c)|done].
    + intros tr. by rewrite app_nil_r.
  - intros c1 t1 c2 t2 c3 (K1 & A1 & S1 & E1 & D1 & I1) (K2 & A2 & S2 & E2 & D2 & I2). unfold relI.
    rewrite !countb_app, S1, S2, E1, E2, A1, sipTrace_app. unfold stopsI in *.
    split_and!; auto; try congruence;
      try (destruct (ic_done c1) eqn:?, (ic_done c2) eqn:?, (ic_done c3) eqn:?,
          (acceptsEvents (ic_state c1)); solve [ done | naive_solver ]).
    intros tr Hd. rewrite app_assoc. auto.
Qed.

(** A step that does not close the call. *)
Definition baseR (c : inboundCall) (t : list IEffect) (c' : inboundCall) : Prop :=
  ic_done c' = ic_done c /\ ic_registered c' = ic_registered c /\
  acceptsEvents (ic_state c') = acceptsEvents (ic_state c) /\
  countb isSessionEndI t = 0%nat /\ countb isEndedI t = 0%nat /\
  (forall tr, dinv (ic_cc c) (counts tr) -> dinv (ic_cc c') (counts (tr ++ sipTrace t))) /\
  (closed (ic_cc c) -> closed (ic_cc c')).

#[global] Instance baseR_rel : TraceRel baseR.
Proof.
  split.
  - intros c. unfold baseR. split_and!; try done. intros tr. by rewrite app_nil_r.
  - intros c1 t1 c2 t2 c3 (? & ? & ? & ? & ? & D1 & ?) (? & ? & ? & ? & ? & D2 & ?). unfold baseR.
    rewrite !countb_app, sipTrace_app. split_and!; try congruence; try lia; auto.
    intros tr Hd. rewrite app_assoc. auto.
Qed.

Lemma base_relI c t c' : baseR c t c' -> relI c t c'.
Proof.
  intros (D & R & A & S & E & I & C). unfold relI, stopsI, callInvI. rewrite D, R, S, E.
  split_and!; try done.
  - by destruct (ic_done c).
  - destruct (acceptsEvents (ic_state c)); [by destruct (ic_done c)|done].
  - intros [[tr Htr] Hx]. split; [exists (tr ++ sipTrace t); by apply I|].
    intros Hdone. destruct (Hx Hdone). auto.
Qed.

Lemma mrel_base {A} (m : M inboundCall IEffect A) : mrel baseR m -> mrel relI m.
Proof. intros Hm c. eapply mspec_mono; [apply Hm|]. cbv beta. intros. by apply base_relI. Qed.

(** A step that leaves the dialog alone, too. *)
Lemma base_quiet c t c' :
  ic_done c' = ic_done c -> ic_cc c' = ic_cc c -> ic_registered c' = ic_registered c ->
  acceptsEvents (ic_state c') = acceptsEvents (ic_state c) ->
  countb isSessionEndI t = 0%nat -> countb isEndedI t = 0%nat -> sipTrace t = [] -> baseR c t c'.
Proof.
  intros Hd Hc Hr Ha S E T. unfold baseR. rewrite Hc, T.
  split_and!; try done. intros tr. by rewrite app_nil_r.
Qed.

Section steps.
Context `{ErrorText}.

Lemma sipTrace_none {A} (f : A -> IEffect) l :
  (forall a, match f a with ISip _ => False | _ => True end) -> sipTrace (map f l) = [].
Proof.
  intros Hf. induction l as [|a l IH]; [done|]. unfold sipTrace in *. simpl. specialize (Hf a).
  destruct (f a); done.
Qed.

(** The record: no update of it is an end event, whatever it changes. *)
Definition quietS {A} (m : M CallState HandlerCall A) : Prop :=
  mrel (fun s t s' => acceptsEvents s' = acceptsEvents s /\
                      countb (fun h => match h with
                                       | HandleSignalingEvent ev => bool_decide (ev_Type ev = EventCallEnded)
                                       | _ => false end) t = 0%nat) m.

Lemma onStateI_rest {A} (m : M CallState HandlerCall A) c :
  quietS m -> mspec (onStateI m) c (fun _ c' t =>
    ic_done c' = ic_done c /\ ic_cc c' = ic_cc c /\ ic_registered c' = ic_registered c /\
    acceptsEvents (ic_state c') = acceptsEvents (ic_state c) /\
    countb isSessionEndI t = 0%nat /\ countb isEndedI t = 0%nat /\ sipTrace t = []).
Proof.
  intros Hm. specialize (Hm (ic_state c)). unfold mspec, onStateI in *.
  destruct (m (ic_state c)) as [[a st] t]. destruct Hm as [Ha Hc]. split_and!; try done.
  - rewrite (countb_map IState isSessionEndI (fun _ => false)) by done. by apply countb_none.
  - by rewrite (countb_map IState isEndedI _ t (fun _ => eq_refl)).
  - by apply sipTrace_none.
Qed.

Lemma onStateI_base {A} (m : M CallState HandlerCall A) : quietS m -> mrel baseR (onStateI m).
Proof.
  intros Hm c. eapply mspec_mono; [by apply onStateI_rest|]. cbv beta.
  intros _ c' t (? & ? & ? & ? & ? & ? & ?). by apply base_quiet.
Qed.

Lemma onMonI_base {A} (m : M CallMonitor MEffect A) : mrel baseR (onMonI m).
Proof.
  intros c. unfold mspec, onMonI. destruct (m (ic_mon c)) as [[a mon] t].
  apply base_quiet; try done.
  - rewrite (countb_map IMon isSessionEndI (fun _ => false)) by done. by apply countb_none.
  - rewrite (countb_map IMon isEndedI (fun _ => false)) by done. by apply countb_none.
  - by apply sipTrace_none.
Qed.

Lemma Update_quiet f : quietS (Update f).
Proof. intros s. unfold Update, flushLocked. repeat mstep. done. Qed.
Lemma DeferUpdate_quiet f : quietS (DeferUpdate f).
Proof. intros s. unfold DeferUpdate. repeat mstep. done. Qed.
Lemma ForceFlush_quiet : quietS ForceFlush.
Proof. intros s. unfold ForceFlush, flushLocked. repeat mstep. done. Qed.
Lemma Emit_quiet ev : ev_Type ev <> EventCallEnded -> quietS (EmitSignalingEvent ev).
Proof.
  intros Ht s. unfold EmitSignalingEvent. destruct (ev_Time ev); [|by mstep].
  do 2 mstep. destruct (acceptsEvents s) eqn:E; mstep; [|done]. split; [done|].
  cbn [app]. rewrite countb_cons. cbn. by rewrite bool_decide_eq_false_2.
Qed.

(** A dialog operation run by the call: its requests are the call's, its events
    go to the record. *)
Lemma dialogEffectsI_spec l c :
  Forall okEventI l -> mspec (dialogEffectsI l) c (fun _ c' t =>
    ic_done c' = ic_done c /\ ic_cc c' = ic_cc c /\ ic_registered c' = ic_registered c /\
    acceptsEvents (ic_state c') = acceptsEvents (ic_state c) /\
    countb isSessionEndI t = 0%nat /\ countb isEndedI t = 0%nat /\ counts (sipTrace t) = counts l).
Proof.
  intros Hl. revert c. induction Hl as [|e l He Hl IH]; intros c; cbn [dialogEffectsI]; [by mstep|].
  assert (forall d, (forall l, countb isOK (d :: l) = countb isOK l /\
    countb isOKFail (d :: l) = countb isOKFail l /\ countb isReject (d :: l) = countb isReject l /\
    countb isBye (d :: l) = countb isBye l) -> counts (d :: l) = counts l) as Hno.
  { intros d Hd. destruct (Hd l) as (E1 & E2 & E3 & E4). unfold counts, oks, fails, rejects, byes. congruence. }
  assert (forall d t, counts (sipTrace t) = counts l -> counts (sipTrace (ISip d :: t)) = counts (d :: l)) as Hyes.
  { intros d t Ht. unfold counts, oks, fails, rejects, byes in *. injection Ht as T1 T2 T3 T4.
    change (sipTrace (ISip d :: t)) with (d :: sipTrace t). rewrite !countb_cons. congruence. }
  destruct e; try (do 2 mstep; (eapply mspec_mono; [apply IH|]); cbv beta;
    intros _ c' t (? & ? & ? & ? & ? & ? & ?); split_and!; try done; by apply Hyes).
  mstep. eapply mspec_mono; [apply onStateI_rest, (Emit_quiet ev He)|]. cbv beta.
  intros _ c1 t1 (D1 & C1 & R1 & A1 & S1 & E1 & T1).
  eapply mspec_mono; [apply IH|]. cbv beta. intros _ c2 t2 (D2 & C2 & R2 & A2 & S2 & E2 & K2).
  rewrite !countb_app, S1, S2, E1, E2, sipTrace_app, T1. cbn [app]. rewrite K2.
  split_and!; try congruence; try done.
Qed.

Lemma onCC_base {A} (m : M sipInbound DEffect A) : dialogOp m -> mrel baseR (onCC m).
Proof.
  intros [Hd Hm] c. specialize (Hd (ic_cc c)). specialize (Hm (ic_cc c)). unfold mspec, onCC in *.
  destruct (m (ic_cc c)) as [[a cc] t]. destruct Hd as [Hi Hc].
  pose proof (dialogEffectsI_spec t (updI (ic_state c) cc (ic_mon c) (ic_sigTs c) c) Hm) as Hs.
  unfold mspec in Hs. destruct (dialogEffectsI t _) as [[u c'] t'].
  cbn [ic_done ic_cc ic_registered ic_state updI] in Hs. destruct Hs as (D & C & R & Ac & S & E & K).
  unfold baseR. rewrite D, C, R, Ac, S, E. split_and!; try done.
  intros tr Htr. specialize (Hi tr Htr). rewrite counts_app in Hi |- *. unfold counts in K.
  injection K as -> -> -> ->. done.
Qed.
(** *** Closing *)
Lemma closeResult_final end_ : 300 <= res_Code (closeResult end_).
Proof. unfold closeResult. destruct (Z.leb_spec 300 (ec_Code end_)); [done|]. by destruct (ec_Status end_). Qed.

Lemma setStatusI_base view v : mrel baseR (setStatusI view v).
Proof.
  unfold setStatusI. destruct (String.eqb _ _); [by rel_step|].
  destruct view as [[? ? [?|]]|]; rel_step; by apply base_quiet.
Qed.

(** [CloseWithStatus] closes the dialog. *)
Lemma CloseWithStatus_closes now sent p e result c :
  300 <= res_Code result -> (exists tr, dinv (ic_cc c) (counts tr)) ->
  mspec (onCC (CloseWithStatus now sent p e result)) c (fun _ c' t => closed (ic_cc c')).
Proof.
  intros Hr [tr Hd].
  destruct (CloseWithStatus_spec now sent p e result (ic_cc c) _ Hd (or_intror Hr)) as (k & (L1 & L2 & L3 & _) & _).
  destruct (CloseWithStatus_op now sent p e result Hr) as [_ Hm]. specialize (Hm (ic_cc c)).
  unfold run, state_of, mspec, onCC in *. destruct (CloseWithStatus _ _ _ _ _ (ic_cc c)) as [[a cc] t].
  pose proof (dialogEffectsI_spec t (updI (ic_state c) cc (ic_mon c) (ic_sigTs c) c) Hm) as Hs.
  unfold mspec in Hs. destruct (dialogEffectsI t _) as [[u c'] t']. destruct Hs as (_ & C & _).
  unfold closed. rewrite C. done.
Qed.

Definition closeBodyPost (c c' : inboundCall) (t : list IEffect) : Prop :=
  ic_done c' = ic_done c /\ ic_registered c' = false /\
  acceptsEvents (ic_state c') = acceptsEvents (ic_state c) /\
  countb isSessionEndI t = 1%nat /\
  countb isEndedI t = (if acceptsEvents (ic_state c) then 1 else 0)%nat /\
  (forall tr, dinv (ic_cc c) (counts tr) -> dinv (ic_cc c') (counts (tr ++ sipTrace t))) /\
  ((exists tr, dinv (ic_cc c) (counts tr)) -> closed (ic_cc c')).

(** The steps after the dialog is closed. *)
Lemma closeRest_spec e end_ cseq (b1 b2 : bool) (st : option SIPStatus) log c :
  mspec (mbind' (onStateI (EmitSignalingEvent (callEndedEvent (Some (ie_now e)) (Term end_) cseq))) (fun _ =>
         mbind' (memit IRoomClose) (fun _ =>
         mbind' (mwhen b1 (memit IMediaClose)) (fun _ =>
         mbind' (mwhen b2 (memit ICallDur)) (fun _ =>
         mbind' (mmodify (set_registered false)) (fun _ =>
         mbind' (memit IDeregister) (fun _ =>
         mbind' (match st with
                 | Some st => onStateI (DeferUpdate (fun i => set_CallStatusCode i (Some st)))
                 | None => mreturn tt
                 end) (fun _ =>
         mbind' (memit (ISessionEnd (stats.Reason (Term end_)))) (fun _ =>
         mbind' (mmodify set_ctxDone) (fun _ => memit (ILog log))))))))))) c
    (fun _ c' t => ic_done c' = ic_done c /\ ic_cc c' = ic_cc c /\ ic_registered c' = false /\
       acceptsEvents (ic_state c') = acceptsEvents (ic_state c) /\
       countb isSessionEndI t = 1%nat /\
       countb isEndedI t = (if acceptsEvents (ic_state c) then 1 else 0)%nat /\ sipTrace t = []).
Proof.
  unfold EmitSignalingEvent. cbn [ev_Time callEndedEvent newEvent].
  unfold onStateI, mspec, mbind', mget, memit, mmodify, mwhen, mreturn. cbv beta iota.
  destruct (acceptsEvents (ic_state c)) eqn:E, b1, b2, st; simpl; rewrite ?E; split_and!; try done; try congruence.
Qed.

Lemma closeBody_spec e end_ c : mspec (closeBody e end_) c (fun _ c' t => closeBodyPost c c' t).
Proof.
  unfold closeBody. mstep. eapply mspec_mono; [apply setStatusI_base|]. cbv beta. intros _ c1 t1 B1. mstep.
  eapply mspec_mono; [apply onMonI_base|]. cbv beta. intros _ c2 t2 B2. mstep. mstep. mstep.
  eapply (mspec_mono _ _ (fun _ c' t => baseR c2 t c')).
  { destruct (InviteTime _); [|mstep; apply tr_refl].
    destruct (AcceptTime _); mstep; by apply base_quiet. }
  cbv beta. intros _ c3 t3 B3.
  assert (baseR c (t1 ++ t2 ++ t3) c3) as B.
  { rewrite app_assoc. eapply tr_trans; [|exact B3]. by eapply tr_trans. }
  clear B1 B2 B3. destruct B as (D & R & A & S & E & I & C). mstep.
  eapply mspec_mono.
  { apply mspec_and; [apply (onCC_base _ (CloseWithStatus_op _ _ _ _ _ (closeResult_final end_)))|].
    instantiate (1 := fun _ c' _ => (exists tr, dinv (ic_cc c3) (counts tr)) -> closed (ic_cc c')).
    pose proof (CloseWithStatus_closes (ie_now e) (ie_sent e) (ie_peer e) (ie_bye e) (closeResult end_) c3
      (closeResult_final end_)) as Hc. unfold mspec in Hc |- *.
    destruct (onCC _ c3) as [[u c'] t]. exact Hc. }
  cbv beta. intros _ c4 t4 [(D4 & R4 & A4 & S4 & E4 & I4 & C4) Hcl]. mstep. mstep.
  eapply mspec_mono; [apply closeRest_spec|]. cbv beta.
  intros _ c5 t5 (D5 & C5 & R5 & A5 & S5 & E5 & T5). unfold closeBodyPost.
  replace (t1 ++ t2 ++ [] ++ t3 ++ t4 ++ [] ++ t5) with ((t1 ++ t2 ++ t3) ++ t4 ++ t5)
    by (by rewrite !app_nil_l, <- !app_assoc).
  rewrite (sipTrace_app _ (t4 ++ t5)), (sipTrace_app t4), T5, app_nil_r.
  split_and!; try congruence.
  - rewrite (countb_app _ _ (t4 ++ t5)), (countb_app _ t4). lia.
  - rewrite (countb_app _ _ (t4 ++ t5)), (countb_app _ t4), E5, A4, A. lia.
  - intros tr Htr. rewrite C5, app_assoc. apply I4, I. done.
  - intros [tr Htr]. rewrite C5. apply Hcl. eexists. by apply I.
Qed.

Lemma closeI_rel e end_ : mrel relI (closeI e end_).
Proof.
  intros c. unfold closeI. mstep. mstep. destruct (ic_done c) eqn:Ed; [mstep; apply tr_refl|].
  mstep. mstep. eapply mspec_mono; [apply closeBody_spec|]. cbv beta. cbn [app].
  intros _ c' t (D & R & A & S & E & I & C). cbn in D. unfold relI, stopsI, callInvI.
  rewrite D, Ed, S, E, R. split_and!; try done.
  intros [Hd _]. split; [destruct Hd as [tr Htr]; eexists; by apply I|]. auto.
Qed.
Lemma modify_base f :
  (forall c, ic_done (f c) = ic_done c /\ ic_cc (f c) = ic_cc c /\ ic_registered (f c) = ic_registered c /\
             ic_state (f c) = ic_state c) -> mrel relI (mmodify f).
Proof.
  intros Hf. apply mrel_base. intros c. mstep. destruct (Hf c) as (? & ? & ? & E).
  apply base_quiet; try done. by rewrite E.
Qed.

Lemma emit_base e :
  isEndedI e = false -> isSessionEndI e = false -> match e with ISip _ => False | _ => True end ->
  mrel relI (memit e).
Proof.
  intros H1 H2 H3. apply mrel_base. intros c. mstep.
  apply base_quiet; try done; unfold countb, sipTrace; simpl; rewrite ?H1, ?H2; try done. by destruct e.
Qed.

(** One step of the automation: known operations first, then the structure. *)
Ltac ic_step :=
  lazymatch goal with
  | |- mrel _ (closeI _ _) => apply closeI_rel
  | |- mrel _ (onMonI _) => apply mrel_base, onMonI_base
  | |- mrel _ (onStateI _) =>
      apply mrel_base, onStateI_base;
      first [ apply Update_quiet | apply DeferUpdate_quiet | apply ForceFlush_quiet
            | apply Emit_quiet; done ]
  | |- mrel _ (setStatusI _ _) => apply mrel_base, setStatusI_base
  | |- mrel _ (onCC _) =>
      apply mrel_base, onCC_base;
      first [ apply AcceptBye_op | apply AcceptAck_op | apply ringTick_op | apply ringCancel_op
            | apply Accept_op | apply SetOwnSDP_op | apply drop_op | apply StartRinging_op
            | apply RespondAndDrop_op; done ]
  | |- mrel _ (mmodify _) => apply modify_base; done
  | |- mrel _ (memit _) => apply emit_base; done
  | |- _ => rel_step
  end.

Lemma closeWith_rel e st t r : mrel relI (closeWith e st t r).
Proof. unfold closeWith. repeat ic_step. Qed.

Lemma mediaTimeout_rel e : mrel relI (mediaTimeout e).
Proof. unfold mediaTimeout, closeWithNoACK, closeWithTimeoutI. repeat ic_step. Qed.

Lemma closeWithCancelled_rel e : mrel relI (closeWithCancelled e).
Proof. unfold closeWithCancelled. repeat (apply closeWith_rel || ic_step). Qed.

Lemma closeWithHangup_rel e : mrel relI (closeWithHangup e).
Proof. unfold closeWithHangup. repeat (apply closeWith_rel || ic_step). Qed.

Lemma runExts_rel l : mrel relI (runExts l).
Proof.
  induction l as [|x l IH]; cbn [runExts]; [rel_step|]. rel_step; [|done].
  destruct x; cbn [runExt]; unfold byeInbound, Shutdown, closeWithTerm; repeat ic_step.
Qed.

Ltac ic_step2 :=
  lazymatch goal with
  | |- mrel _ (runExts _) => apply runExts_rel
  | |- mrel _ (mediaTimeout _) => apply mediaTimeout_rel
  | |- mrel _ (closeWithCancelled _) => apply closeWithCancelled_rel
  | |- mrel _ (closeWithHangup _) => apply closeWithHangup_rel
  | |- _ => ic_step
  end.

Lemma waitMedia_rel e o : mrel relI (waitMedia e o).
Proof. unfold waitMedia. repeat ic_step2. Qed.

Lemma waitSubscribe_rel e n o : mrel relI (waitSubscribe e n o).
Proof. unfold waitSubscribe. repeat ic_step2. Qed.

Lemma acceptCall_rel e a sdp w : mrel relI (acceptCall e a sdp w).
Proof. unfold acceptCall, closeWithNoACK. repeat ic_step2. Qed.

Lemma updateCallStateAudio_rel o : mrel relI (updateCallStateAudio o).
Proof. unfold updateCallStateAudio. repeat ic_step2. Qed.

Lemma acceptCallAndWaitForMedia_rel e a sdp w late :
  mrel relI (acceptCallAndWaitForMedia e a sdp w late).
Proof.
  unfold acceptCallAndWaitForMedia, negotiateMediaForLateAnswer, waitForMedia.
  repeat (apply acceptCall_rel || apply waitMedia_rel || apply updateCallStateAudio_rel || ic_step2).
Qed.

Lemma emitDispatch_rel at_ dur b d : mrel relI (emitDispatch at_ dur b d).
Proof. unfold emitDispatch. repeat ic_step2. Qed.

Lemma pinLoop_rel e evs pin : mrel relI (pinLoop e evs pin).
Proof.
  revert pin. induction evs as [|ev evs IH]; intros pin; cbn [pinLoop]; [rel_step|].
  destruct ev; unfold pinDispatch, closeWithTerm;
    repeat (apply IH || apply emitDispatch_rel || ic_step2).
Qed.

Lemma waitForCallEnd_rel e a b evs : mrel relI (waitForCallEnd e a b evs).
Proof.
  revert a b. induction evs as [|ev evs IH]; intros a b; cbn [waitForCallEnd]; [rel_step|].
  destruct ev; unfold closeWithTerm; repeat (apply IH || ic_step2).
Qed.

Lemma rejectMedia_rel cache sent e err : mrel relI (rejectMedia cache sent e err).
Proof.
  unfold rejectMedia, rejectMediaVerdict.
  destruct (errors.Is err sdp_ErrNoCommonMedia); [repeat ic_step2|].
  destruct (errors.Is err sdp_ErrNoCommonCrypto); [repeat ic_step2|].
  destruct (errors.AsSDPError err); repeat ic_step2.
Qed.

Lemma inRoom_rel e ext d p sdp late at_ : mrel relI (inRoom e ext d p sdp late at_).
Proof.
  unfold inRoom, joinRoom, closeWithTerm.
  repeat (apply waitSubscribe_rel || apply acceptCallAndWaitForMedia_rel || apply waitForCallEnd_rel || ic_step2).
Qed.

Lemma dispatched_rel e ext p : mrel relI (dispatched e ext p).
Proof.
  unfold dispatched, prepareMedia, pinPrompt.
  repeat (apply rejectMedia_rel || apply inRoom_rel || apply acceptCallAndWaitForMedia_rel
          || apply pinLoop_rel || apply updateCallStateAudio_rel || ic_step2).
Qed.

Lemma handleDispatch_rel e ext : mrel relI (handleDispatch e ext).
Proof.
  unfold handleDispatch, rejectCall, closeWithTerm.
  repeat (apply dispatched_rel || apply emitDispatch_rel || ic_step2).
Qed.

Lemma handleInvite_rel e ext : mrel relI (handleInvite e ext).
Proof.
  unfold handleInvite, closeWithTerm. repeat (apply handleDispatch_rel || ic_step2).
Qed.
End steps.

(** ** Theorems *)
Section theorems.
Context `{ErrorText}.

Lemma closeI_done e end_ c : mspec (closeI e end_) c (fun _ c' _ => ic_done c' = true).
Proof.
  unfold closeI. mstep. mstep. destruct (ic_done c) eqn:E; [by mstep|]. mstep. mstep.
  eapply mspec_mono; [apply closeBody_spec|]. cbv beta. by intros _ c' t (-> & _).
Qed.

Lemma CallEndI_run c :
  mspec (onMonI CallEnd) c (fun _ c' _ => ic_done c' = ic_done c /\ mon_started (ic_mon c') = false).
Proof.
  unfold mspec, onMonI, CallEnd, mbind', mget, mput, memit, mreturn.
  destruct (mon_started (ic_mon c)) eqn:E; simpl; [|by rewrite E].
  destruct (providerRecordedAtCallStart (ic_mon c)); simpl; done.
Qed.

(** A call that returns was closed. *)
Lemma handleInvite_done e ext c :
  mspec (handleInvite e ext) c (fun r c' _ =>
    match r with IRet _ => ic_done c' = true /\ mon_started (ic_mon c') = false | _ => True end).
Proof.
  unfold handleInvite.
  mstep. eapply mspec_mono; [apply onMonI_base|]. cbv beta. intros _ c1 t1 _.
  mstep. eapply mspec_mono; [apply onMonI_base|]. cbv beta. intros _ c2 t2 _.
  mstep. eapply mspec_mono; [apply runExts_rel|]. cbv beta. intros _ c3 t3 _.
  mstep. unfold mspec at 1. destruct (onCC (StartRinging _ _) c3) as [[[ring|] c4] t4]; [|by mstep].
  mstep. unfold mspec at 1. destruct (mwhen ring _ c4) as [[u c5] t5].
  mstep. unfold mspec at 1. destruct (handleDispatch e ext c5) as [[r c6] t6].
  destruct r as [| |err]; [by mstep..|]. mstep. unfold closeWithTerm.
  eapply mspec_mono; [apply closeI_done|]. cbv beta. intros _ c7 t7 D7. mstep.
  eapply mspec_mono; [apply CallEndI_run|]. cbv beta. intros _ c8 t8 [D8 M8]. mstep. by rewrite D8.
Qed.
End theorems.

(** C1: An inbound call leaves nothing behind.  Whatever the dispatch, the network, the room and
    the caller do, and however BYEs, ACKs, CANCELs and a shutdown interleave, when
    [handleInvite] returns the call was closed exactly once: the session handler was
    told once, the ended event was sent once (if events are accepted), the dialog is
    closed, the call is unregistered and not counted as active.  Over its life the
    caller got at most one rejection, never together with a BYE, and a BYE only
    after a 200 OK. *)
Theorem handleInvite_leaves_nothing `{ErrorText} e ext c :
  ic_done c = false -> dinv (ic_cc c) (counts []) ->
  let '(r, c', t) := handleInvite e ext c in
  match r with
  | IRet _ =>
      ic_done c' = true /\ closed (ic_cc c') /\ ic_registered c' = false /\
      mon_started (ic_mon c') = false /\ countb isSessionEndI t = 1%nat /\
      countb isEndedI t = (if acceptsEvents (ic_state c) then 1 else 0)%nat /\
      (rejects (sipTrace t) <= 1)%nat /\
      (rejects (sipTrace t) = 1 -> byes (sipTrace t) = 0)%nat /\
      (1 <= byes (sipTrace t) -> 1 <= oks (sipTrace t))%nat
  | _ => True
  end.
Proof.
  intros Hn Hd. pose proof (handleInvite_rel e ext c) as Hr. pose proof (handleInvite_done e ext c) as Hf.
  unfold mspec in Hr, Hf. destruct (handleInvite e ext c) as [[r c'] t].
  destruct r as [| |err]; [done..|]. destruct Hf as [Df Mf].
  destruct Hr as (_ & _ & S & E & I & K). unfold stopsI in *. rewrite Hn, Df in S, E.
  destruct K as [_ Kc]; [split; [by exists []|by rewrite Hn]|]. destruct (Kc Df) as [Cl Rg].
  specialize (I [] Hd). cbn [app] in I. destruct Cl as (T1 & T2 & T3) eqn:Ecl.
  unfold dinv, counts in I. rewrite T1, T3 in I. destruct I as (_ & I1 & I2 & I3 & I4).
  split_and!; try done. intros Hx. by apply I3.
Qed.

(** *** The PIN *)
Definition isDispatch (e : IEffect) : bool := match e with IDispatch _ _ => true | _ => false end.

Section pin.
Context `{ErrorText}.
Abbreviation ND := (fun e => isDispatch e = false).

Lemma onStateI_nd {A} (m : M CallState HandlerCall A) : mtrace ND (onStateI m).
Proof.
  intros c. unfold mspec, onStateI. destruct (m (ic_state c)) as [[a st] t].
  induction t; constructor; done.
Qed.

Lemma onMonI_nd {A} (m : M CallMonitor MEffect A) : mtrace ND (onMonI m).
Proof.
  intros c. unfold mspec, onMonI. destruct (m (ic_mon c)) as [[a st] t].
  induction t; constructor; done.
Qed.

Lemma onCC_nd {A} (m : M sipInbound DEffect A) : mtrace ND (onCC m).
Proof.
  assert (forall l, mtrace ND (dialogEffectsI l)) as Hl.
  { intros l. induction l as [|[] l IH]; cbn [dialogEffectsI];
      repeat (trace_step || done || apply onStateI_nd). }
  intros c. unfold mspec, onCC. destruct (m (ic_cc c)) as [[a cc] t].
  specialize (Hl t (updI (ic_state c) cc (ic_mon c) (ic_sigTs c) c)). unfold mspec in Hl.
  by destruct (dialogEffectsI t _) as [[u c'] t'].
Qed.

Lemma closeI_nd e end_ : mtrace ND (closeI e end_).
Proof.
  unfold closeI, closeBody, setStatusI.
  repeat lazymatch goal with
  | |- mtrace _ (onStateI _) => apply onStateI_nd
  | |- mtrace _ (onMonI _) => apply onMonI_nd
  | |- mtrace _ (onCC _) => apply onCC_nd
  | |- mtrace _ _ => trace_step
  | |- _ => done
  end.
Qed.

Lemma slength_app (a b : string) : String.length (a +:+ b) = (String.length a + String.length b)%nat.
Proof. induction a as [|x a IH]; [done|]. rewrite sapp_cons. cbn [String.length]. rewrite IH. lia. Qed.

Definition digits (at_ dur : Z) (d : CallDispatch) (ds : list ascii) : list PinEvent :=
  map (fun x => PinDigit x at_ dur d) ds.

Definition isDigit (x : ascii) : Prop := x <> "#"%char /\ x <> "000"%char.

Lemma pinLoop_digit e x at_ dur d evs pin :
  isDigit x -> pinLoop e (PinDigit x at_ dur d :: evs) pin =
  (if (pinLimit <? S (String.length pin))%nat then
     mbind' (memit (IPlay "wrongPin")) (fun _ =>
     mbind' (closeI e (endOf callDropped (stats.ClientError "wrong-pin"))) (fun _ =>
     mreturn (PinFailed (Some wrongPin))))
   else pinLoop e evs (pin +:+ String x "")).
Proof.
  intros [H1 H2]. cbn [pinLoop].
  rewrite (proj2 (Ascii.eqb_neq _ _) H2), (proj2 (Ascii.eqb_neq _ _) H1).
  rewrite slength_app. cbn [String.length]. by rewrite Nat.add_1_r.
Qed.

Lemma pinLoop_collect e at_ dur d rest ds pin :
  Forall isDigit ds -> (String.length pin + length ds <= pinLimit)%nat ->
  pinLoop e (digits at_ dur d ds ++ PinDigit "#" at_ dur d :: rest) pin =
  pinDispatch e (pin +:+ String.string_of_list_ascii ds) at_ dur d.
Proof.
  intros Hds. revert pin. induction Hds as [|x ds Hx Hds IH]; intros pin Hl; cbn [digits map app].
  - cbn. by rewrite sapp_nil_r.
  - rewrite pinLoop_digit by done. cbn [length] in Hl.
    destruct (Nat.ltb_spec pinLimit (S (String.length pin))); [lia|].
    fold (digits at_ dur d ds). rewrite IH.
    + f_equal. cbn [String.string_of_list_ascii]. by rewrite sapp_assoc.
    + rewrite slength_app. cbn. lia.
Qed.

Lemma pinLoop_overflow e at_ dur d evs ds pin :
  Forall isDigit ds -> (String.length pin <= pinLimit)%nat ->
  (pinLimit < String.length pin + length ds)%nat ->
  pinLoop e (digits at_ dur d ds ++ evs) pin =
  mbind' (memit (IPlay "wrongPin")) (fun _ =>
     mbind' (closeI e (endOf callDropped (stats.ClientError "wrong-pin"))) (fun _ =>
     mreturn (PinFailed (Some wrongPin)))).
Proof.
  intros Hds. revert pin. induction Hds as [|x ds Hx Hds IH]; intros pin Hp Hl; cbn [digits map app length] in *;
    [lia|].
  rewrite pinLoop_digit by done. destruct (Nat.ltb_spec pinLimit (S (String.length pin))); [done|].
  fold (digits at_ dur d ds). apply IH; rewrite slength_app; cbn; lia.
Qed.
End pin.

(** C37: The PIN a caller types.  The digits before '#' are collected in order and sent to the
    dispatch service as they were typed, marked as no PIN when there are none; the
    call goes on only if the service accepts it with a room.  More than sixteen
    digits end the call as a wrong PIN without asking the service. *)
Theorem pinPrompt_collects `{ErrorText} e ds at_ dur d rest c :
  Forall isDigit ds ->
  let '(r, _, t) := pinPrompt e (digits at_ dur d ds ++ PinDigit "#" at_ dur d :: rest) c in
  if (length ds <=? pinLimit)%nat then
    IDispatch (String.string_of_list_ascii ds) (Nat.eqb (length ds) 0) ∈ t /\
    (r = PinOK d <-> disp_Result d = DispatchAccept /\ disp_RoomName d <> "")
  else r = PinFailed (Some wrongPin) /\ Forall (fun e => isDispatch e = false) t.
Proof.
  intros Hds. unfold pinPrompt, mbind', memit.
  destruct (Nat.leb_spec (length ds) pinLimit) as [Hl|Hl].
  - rewrite pinLoop_collect by done. change ("" +:+ String.string_of_list_ascii ds) with (String.string_of_list_ascii ds).
    assert (String.eqb (String.string_of_list_ascii ds) "" = Nat.eqb (length ds) 0) as Hz by by destruct ds.
    unfold pinDispatch, mbind', memit. rewrite Hz.
    destruct (emitDispatch at_ dur true d c) as [[u c1] t1].
    case_decide as Hu.
    { destruct (closeWithTerm e _ c1) as [[u2 c2] t2]. cbn. split; [set_solver|]. rewrite Hu.
      split; [done|]. by intros [? _]. }
    destruct (negb (bool_decide (disp_Result d = DispatchAccept)) || _) eqn:Eb.
    + destruct (closeWithTerm e _ c1) as [[u2 c2] t2]. cbn. split; [set_solver|]. split; [done|].
      intros [Ha Hr]. rewrite bool_decide_eq_true_2 in Eb by done. cbn in Eb.
      by apply String.eqb_eq in Eb.
    + cbn. split; [set_solver|]. apply orb_false_elim in Eb as [Ha%negb_false_iff%bool_decide_eq_true Hr].
      apply String.eqb_neq in Hr. done.
  - rewrite pinLoop_overflow by (done || cbn; lia). unfold mbind', memit.
    pose proof (closeI_nd e (endOf callDropped (stats.ClientError "wrong-pin")) c) as Hc. unfold mspec in Hc.
    destruct (closeI e _ c) as [[u c1] t1]. cbn. split; [done|]. rewrite app_nil_r. by repeat constructor.
Qed.

(** ** The dispatch rule in the record *)
Definition ruleR (c : inboundCall) (t : list IEffect) (c' : inboundCall) : Prop :=
  DispatchRuleId (callInfo (ic_state c')) = DispatchRuleId (callInfo (ic_state c)) /\
  ParticipantIdentity (callInfo (ic_state c')) = ParticipantIdentity (callInfo (ic_state c)).

#[global] Instance ruleR_rel : TraceRel ruleR.
Proof. split; [done|]. intros ? ? ? ? ? [? ?] [? ?]. split; congruence. Qed.

Section rule.
Context `{ErrorText}.

Definition keepsRule (f : SIPCallInfo -> SIPCallInfo) : Prop :=
  forall i, DispatchRuleId (f i) = DispatchRuleId i /\ ParticipantIdentity (f i) = ParticipantIdentity i.

Lemma Update_rule f : keepsRule f -> mrel ruleR (onStateI (Update f)).
Proof. intros Hf c. apply (Hf (callInfo (ic_state c))). Qed.
Lemma DeferUpdate_rule f : keepsRule f -> mrel ruleR (onStateI (DeferUpdate f)).
Proof. intros Hf c. apply (Hf (callInfo (ic_state c))). Qed.
Lemma ForceFlush_rule : mrel ruleR (onStateI ForceFlush).
Proof. by intros c. Qed.
Lemma Emit_rule ev : mrel ruleR (onStateI (EmitSignalingEvent ev)).
Proof.
  intros c. unfold mspec, onStateI, EmitSignalingEvent, mbind', mget, memit, mreturn.
  destruct (ev_Time ev); [|done]. by destruct (acceptsEvents (ic_state c)).
Qed.
Lemma onMonI_rule {A} (m : M CallMonitor MEffect A) : mrel ruleR (onMonI m).
Proof. intros c. unfold mspec, onMonI. by destruct (m (ic_mon c)) as [[a st] t]. Qed.
Lemma onCC_rule {A} (m : M sipInbound DEffect A) : mrel ruleR (onCC m).
Proof.
  assert (forall l, mrel ruleR (dialogEffectsI l)) as Hl.
  { intros l. induction l as [|[] l IH]; cbn [dialogEffectsI];
      repeat (rel_step || done || apply Emit_rule). }
  intros c. unfold mspec, onCC. destruct (m (ic_cc c)) as [[a cc] t].
  specialize (Hl t (updI (ic_state c) cc (ic_mon c) (ic_sigTs c) c)). unfold mspec in Hl.
  by destruct (dialogEffectsI t _) as [[u c'] t'].
Qed.

Ltac keeps := intros i; cbv beta zeta; repeat case_match; done.

Ltac rule_step :=
  lazymatch goal with
  | |- mrel _ (onStateI (EmitSignalingEvent _)) => apply Emit_rule
  | |- mrel _ (onStateI ForceFlush) => apply ForceFlush_rule
  | |- mrel _ (onStateI (Update _)) => apply Update_rule; keeps
  | |- mrel _ (onStateI (DeferUpdate _)) => apply DeferUpdate_rule; keeps
  | |- mrel _ (onMonI _) => apply onMonI_rule
  | |- mrel _ (onCC _) => apply onCC_rule
  | |- mrel _ _ => rel_step
  | |- _ => done
  end.

Lemma closeI_rule e end_ : mrel ruleR (closeI e end_).
Proof. unfold closeI, closeBody, setStatusI. repeat rule_step. Qed.

Ltac rule_step2 :=
  lazymatch goal with
  | |- mrel _ (closeI _ _) => apply closeI_rule
  | |- _ => rule_step
  end.

Lemma closeWith_rule e st t r : mrel ruleR (closeWith e st t r).
Proof. unfold closeWith. repeat rule_step2. Qed.

Lemma mediaTimeout_rule e : mrel ruleR (mediaTimeout e).
Proof. unfold mediaTimeout, closeWithNoACK, closeWithTimeoutI. repeat rule_step2. Qed.

Lemma runExts_rule l : mrel ruleR (runExts l).
Proof.
  induction l as [|x l IH]; cbn [runExts]; [rel_step|]. rel_step; [|done].
  destruct x; cbn [runExt]; unfold byeInbound, Shutdown, closeWithTerm; repeat rule_step2.
Qed.

Ltac rule_step3 :=
  lazymatch goal with
  | |- mrel _ (closeWith _ _ _ _) => apply closeWith_rule
  | |- mrel _ (mediaTimeout _) => apply mediaTimeout_rule
  | |- mrel _ (runExts _) => apply runExts_rule
  | |- _ => rule_step2
  end.

Lemma answer_rule e a sdp w late : mrel ruleR (acceptCallAndWaitForMedia e a sdp w late).
Proof.
  unfold acceptCallAndWaitForMedia, acceptCall, closeWithNoACK, negotiateMediaForLateAnswer,
    updateCallStateAudio, waitForMedia, waitMedia, closeWithCancelled, closeWithHangup, setStatusI.
  repeat rule_step3.
Qed.

Lemma pinPrompt_rule e evs : mrel ruleR (pinPrompt e evs).
Proof.
  unfold pinPrompt. rel_step; [by rel_step|]. generalize ""%string. induction evs as [|ev evs IH]; intros pin;
    cbn [pinLoop]; [rel_step|].
  destruct ev; unfold pinDispatch, closeWithTerm, emitDispatch, closeWithCancelled, closeWithHangup;
    repeat (apply IH || rule_step3).
Qed.

Lemma waitForCallEnd_rule e a b evs : mrel ruleR (waitForCallEnd e a b evs).
Proof.
  revert a b. induction evs as [|ev evs IH]; intros a b; cbn [waitForCallEnd]; [rel_step|].
  destruct ev; unfold closeWithTerm, closeWithHangup; repeat (apply IH || rule_step3).
Qed.

Lemma inRoom_rule e ext d p sdp late at_ : mrel ruleR (inRoom e ext d p sdp late at_).
Proof.
  unfold inRoom, joinRoom, closeWithTerm, waitSubscribe, closeWithCancelled, closeWithHangup.
  repeat (apply answer_rule || apply waitForCallEnd_rule || rule_step3).
Qed.

Lemma dispatched_rule e ext p : mrel ruleR (dispatched e ext p).
Proof.
  unfold dispatched, prepareMedia, updateCallStateAudio, rejectMedia, rejectMediaVerdict.
  repeat (apply inRoom_rule || apply answer_rule || apply pinPrompt_rule || rule_step3).
Qed.
End rule.

Lemma Update_recorded f c :
  mspec (onStateI (Update f)) c (fun _ c' _ =>
    DispatchRuleId (callInfo (ic_state c')) = DispatchRuleId (f (callInfo (ic_state c))) /\
    ParticipantIdentity (callInfo (ic_state c')) = ParticipantIdentity (f (callInfo (ic_state c)))).
Proof. done. Qed.

(** What [handleInvite] leaves of the dispatch in the record. *)
Lemma handleDispatch_rule `{ErrorText} e ext c :
  he_mediaConfig e = None ->
  mspec (handleDispatch e ext) c (fun _ c' _ =>
    DispatchRuleId (callInfo (ic_state c')) = disp_DispatchRuleID (he_dispatch e) /\
    ParticipantIdentity (callInfo (ic_state c')) = disp_Identity (he_dispatch e)).
Proof.
  intros Hm. unfold handleDispatch. rewrite Hm.
  mstep. mstep. mstep. eapply mspec_mono; [apply Emit_rule|]. cbv beta. intros _ c1 t1 _.
  mstep. eapply mspec_mono; [apply runExts_rule|]. cbv beta. intros _ c2 t2 _.
  mstep. eapply mspec_mono; [exact (Update_recorded _ c2)|]. cbv beta. intros _ c3 t3 [R3 I3].
  cbn in R3, I3. rewrite <- R3, <- I3.
  match goal with |- mspec ?m c3 _ => enough (mrel ruleR m) as Hk; [apply Hk|] end.
  destruct (disp_Result (he_dispatch e)); unfold rejectCall, closeWithTerm;
    repeat first [apply dispatched_rule | lazymatch goal with
      | |- mrel _ (onCC _) => apply onCC_rule
      | |- mrel _ (closeI _ _) => apply closeI_rule
      | |- mrel _ _ => rel_step | |- _ => done end].
Qed.

(** The rule of a call in its record.  Once the media configuration is known, the dispatch
    rule and the participant identity a call is reported with until its end are
    those of the first answer of the dispatch service, whatever happens next.  A
    caller who is asked for a PIN is dispatched a second time, with the PIN, and
    what that answer says is not reported. *)
Theorem pin_rule_not_recorded `{ErrorText} e ext c :
  he_mediaConfig e = None ->
  let '(r, c', _) := handleInvite e ext c in
  r <> IPanic ->
  DispatchRuleId (callInfo (ic_state c')) = disp_DispatchRuleID (he_dispatch e) /\
  ParticipantIdentity (callInfo (ic_state c')) = disp_Identity (he_dispatch e).
Proof.
  intros Hm.
  enough (mspec (handleInvite e ext) c (fun r c' _ => r <> IPanic ->
    DispatchRuleId (callInfo (ic_state c')) = disp_DispatchRuleID (he_dispatch e) /\
    ParticipantIdentity (callInfo (ic_state c')) = disp_Identity (he_dispatch e))) as Hs
    by (unfold mspec in Hs; by destruct (handleInvite e ext c) as [[r c'] t]).
  unfold handleInvite.
  mstep. eapply mspec_mono; [apply onMonI_rule|]. cbv beta. intros _ c1 t1 _.
  mstep. eapply mspec_mono; [apply onMonI_rule|]. cbv beta. intros _ c2 t2 _.
  mstep. eapply mspec_mono; [apply runExts_rule|]. cbv beta. intros _ c3 t3 _.
  mstep. unfold mspec at 1. destruct (onCC (StartRinging _ _) c3) as [[[ring|] c4] t4]; [|by mstep].
  mstep. unfold mspec at 1. destruct (mwhen ring _ c4) as [[u c5] t5].
  mstep. eapply mspec_mono; [by apply handleDispatch_rule|]. cbv beta. intros r c6 t6 [<- <-].
  destruct r as [| |err]; [by mstep..|].
  mstep. unfold closeWithTerm. eapply mspec_mono; [apply closeI_rule|]. cbv beta. intros _ c7 t7 [R7 I7].
  mstep. eapply mspec_mono; [apply onMonI_rule|]. cbv beta. intros _ c8 t8 [R8 I8]. mstep.
  intros _. split; congruence.
Qed.

(** *** A call with a PIN, for the witnesses *)
Definition exICall : inboundCall :=
  {| ic_state := NewCallState true exInfo; ic_cc := exDialog; ic_mon := NewCall Inbound "lk";
     ic_sigTs := {| APITime := None; InviteTime := Some 1; TryingTime := None; RingingTime := None;
                    AcceptTime := None; JoinRoomTime := None; AckTime := None |};
     ic_done := false; ic_started := false; ic_media := false; ic_lateAnswerPending := false;
     ic_closeReason := None; ic_ctxDone := false; ic_callDur := false; ic_byeReceived := false;
     ic_registered := true |}.

Definition exIClose : ICloseEnv :=
  {| ie_now := 50; ie_sent := true; ie_peer := exPeer; ie_bye := exByeEnv; ie_view := None |}.

Definition exRule (r : DispatchResult) (room identity rule : string) : CallDispatch :=
  {| disp_Result := r; disp_RoomName := room; disp_Identity := identity; disp_Attributes := ∅;
     disp_TrunkID := "ST_1"; disp_DispatchRuleID := rule; disp_lateOffer := false;
     disp_RingingTimeoutStatus := 0 |}.

Definition exAccepted : CallDispatch := exRule DispatchAccept "room" "caller" "SDR_1".

Definition exHandle : HandleEnv :=
  {| he_close := exIClose; he_cache := false; he_ringAt := 2; he_ringSent := true;
     he_dispatch := exRule DispatchRequestPin "" "" ""; he_dispatchAt := 3; he_dispatchDur := 1;
     he_mediaConfig := None; he_sipCallId := "abc"; he_createMedia := None; he_hasOffer := true;
     he_generate := inr "v=0"; he_negotiate := inr ("v=0", Some "PCMU"); he_inboundWaitACK := false;
     he_answer := {| ae_tries := exTries true; ae_acceptAt := 8; ae_ackBody := None;
                     ae_lateAnswer := None; ae_media := WoReady; ae_view := None |};
     he_pin := [PinDigit "4" 9 1 exAccepted; PinDigit "2" 9 1 exAccepted; PinDigit "#" 9 1 exAccepted];
     he_join := None; he_joinAt := 10; he_participant := "PA_1"; he_joinView := None;
     he_publish := None; he_subscribe := WoReady; he_startAt := 11; he_startView := None;
     he_end := [EvTick; EvRoomClosed UNKNOWN_REASON] |}.

Lemma handleInvite_leaves_nothing_witness :
  let '(r, c', t) := handleInvite (H := exErrorText) exHandle (fun _ => []) exICall in
  r = IRet None /\ closed (ic_cc c') /\ byes (sipTrace t) = 1%nat /\ rejects (sipTrace t) = 0%nat.
Proof.
  pose proof (handleInvite_leaves_nothing (H := exErrorText) exHandle (fun _ => []) exICall
                eq_refl ltac:(vm_compute; repeat split; lia || congruence)) as Ht.
  assert (Hr : (handleInvite (H := exErrorText) exHandle (fun _ => []) exICall).1.1 = IRet None)
    by (vm_compute; reflexivity).
  assert (Hb : byes (sipTrace (handleInvite (H := exErrorText) exHandle (fun _ => []) exICall).2) = 1%nat)
    by (vm_compute; reflexivity).
  assert (Hj : rejects (sipTrace (handleInvite (H := exErrorText) exHandle (fun _ => []) exICall).2) = 0%nat)
    by (vm_compute; reflexivity).
  destruct (handleInvite (H := exErrorText) exHandle (fun _ => []) exICall) as [[r c'] t].
  cbn in Hr, Hb, Hj. subst r. destruct Ht as (_ & Hc & _). done.
Defined.

Lemma pinPrompt_collects_witness :
  let t := (pinPrompt (H := exErrorText) exIClose (he_pin exHandle) exICall).2 in
  IDispatch "42" false ∈ t.
Proof.
  intros t.
  pose proof (pinPrompt_collects (H := exErrorText) exIClose ["4"; "2"]%char 9 1 exAccepted [] exICall
                ltac:(repeat constructor; vm_compute; congruence)) as Ht.
  change (digits 9 1 exAccepted ["4"; "2"]%char ++ [PinDigit "#" 9 1 exAccepted])
    with (he_pin exHandle) in Ht. subst t.
  destruct (pinPrompt (H := exErrorText) exIClose (he_pin exHandle) exICall) as [[r c'] t].
  apply Ht.
Defined.

Lemma pin_rule_not_recorded_witness :
  let '(r, c', t) := handleInvite (H := exErrorText) exHandle (fun _ => []) exICall in
  IDispatch "42" false ∈ t /\ disp_DispatchRuleID exAccepted = "SDR_1" /\
  DispatchRuleId (callInfo (ic_state c')) = "" /\ ParticipantIdentity (callInfo (ic_state c')) = "".
Proof.
  pose proof (pin_rule_not_recorded (H := exErrorText) exHandle (fun _ => []) exICall eq_refl) as Ht.
  assert (Hr : (handleInvite (H := exErrorText) exHandle (fun _ => []) exICall).1.1 = IRet None)
    by (vm_compute; reflexivity).
  assert (Hd : filter isDispatch (handleInvite (H := exErrorText) exHandle (fun _ => []) exICall).2 =
               [IDispatch "" false; IDispatch "42" false]) by (vm_compute; reflexivity).
  destruct (handleInvite (H := exErrorText) exHandle (fun _ => []) exICall) as [[r c'] t].
  cbn in Hr, Hd. subst r. split; [|split; [done|by apply Ht]].
  assert (IDispatch "42" false ∈ filter isDispatch t) as [_ Hi]%list_elem_of_filter
    by (rewrite Hd; set_solver). done.
Defined.
