(* ===== verification/Manager.v ===== *)
(** * The call manager

    [callManager] of [pkg/sip/manager.go] and the part of [pkg/sip/inbound.go] that
    receives requests: [processInvite] from the INVITE to the end of the call it
    starts, the other SIP handlers, and [Stop].

    A request is handled to its end before the next one is looked at; what other
    requests do to a call in the meantime is the [ext] argument of [handleInvite].
    The caches of the manager expire: an operation may start in any state of them.

    The auth service, the random source, the media ports and the transactions answer
    through [InviteEnv]. *)

From stdpp Require Import base tactics list gmap strings option.
From Stdlib Require Import ZArith Lia.
From S2P Require Import Prelude GoStd GoErr Participant Errors Types Protocol CallState CallCommon Monitor Sealer InboundAuth SipInbound SipOutbound OutboundCall InboundCall.
Import strings.

(** ** State *)

(** What a challenge keeps for its timer: the record to finalize, when the 407 was
    sent, and its status. *)
Record Pending := { pd_state : CallState; pd_at : Z; pd_status : SResult }.

Record inboundCallInfo := {
  ci_counters : inboundCallCounters;
  ci_timers : timers;
  ci_fire : gmap nat Pending;                (* the functions of the timers *)
}.

Definition newCallInfo : inboundCallInfo :=
  {| ci_counters := {| cseq := 0; cseqAuth := 0; invites := 0; invitesAuth := 0 |};
     ci_timers := timers0; ci_fire := ∅ |}.

Record callManager := {
  cm_byLocalTag : gmap string inboundCall;
  cm_activeCalls : gmap string outboundCall;
  provisionalInvites : gmap (string * string) string;
  rejectedInvites : option (gmap (string * string) (Z * string));
  cm_infos : gmap string inboundCallInfo;
}.

Inductive PEffect :=
| PState (h : HandlerCall)
| PSip (e : DEffect)
| PMon (e : MEffect)
| PInviteReqRaw
| PRespond (r : OutResponse) (chal : option Challenge) (sent : bool)
    (* tx.Respond, not through the dialog *)
| PTerminate                                 (* tx.Terminate *)
| PAuthLookup
| PUpdateSDP (tag : string)                  (* updateRemoteFromSDP of a call *)
| PCall (e : IEffect)
| POut (e : CEffect).

(** The handling of one INVITE: the manager, the dialog, the record it reports to
    ([cc.state]) and the metrics. *)
Record pstate := {
  p_cm : callManager;
  p_cc : sipInbound;
  p_st : option CallState;
  p_mon : CallMonitor;
}.

Definition set_cm (cm : callManager) (p : pstate) : pstate :=
  {| p_cm := cm; p_cc := p_cc p; p_st := p_st p; p_mon := p_mon p |}.

Definition upd_calls (f : gmap string inboundCall -> gmap string inboundCall) (cm : callManager) : callManager :=
  {| cm_byLocalTag := f (cm_byLocalTag cm); cm_activeCalls := cm_activeCalls cm;
     provisionalInvites := provisionalInvites cm; rejectedInvites := rejectedInvites cm;
     cm_infos := cm_infos cm |}.
Definition upd_active (f : gmap string outboundCall -> gmap string outboundCall) (cm : callManager) : callManager :=
  {| cm_byLocalTag := cm_byLocalTag cm; cm_activeCalls := f (cm_activeCalls cm);
     provisionalInvites := provisionalInvites cm; rejectedInvites := rejectedInvites cm;
     cm_infos := cm_infos cm |}.
Definition add_provisional (k : string * string) (tag : string) (cm : callManager) : callManager :=
  {| cm_byLocalTag := cm_byLocalTag cm; cm_activeCalls := cm_activeCalls cm;
     provisionalInvites := <[k := tag]> (provisionalInvites cm); rejectedInvites := rejectedInvites cm;
     cm_infos := cm_infos cm |}.
Definition add_rejected (k : string * string) (v : Z * string) (cm : callManager) : callManager :=
  {| cm_byLocalTag := cm_byLocalTag cm; cm_activeCalls := cm_activeCalls cm;
     provisionalInvites := provisionalInvites cm;
     rejectedInvites := (fun m => <[k := v]> m) <$> rejectedInvites cm; cm_infos := cm_infos cm |}.
Definition set_callInfo (tag : string) (ci : inboundCallInfo) (cm : callManager) : callManager :=
  {| cm_byLocalTag := cm_byLocalTag cm; cm_activeCalls := cm_activeCalls cm;
     provisionalInvites := provisionalInvites cm; rejectedInvites := rejectedInvites cm;
     cm_infos := <[tag := ci]> (cm_infos cm) |}.

Definition getCallInfo (tag : string) (cm : callManager) : inboundCallInfo :=
  default newCallInfo (cm_infos cm !! tag).

(** What the auth service says of an INVITE. *)
Record AuthInfo := {
  ai_Result : AuthResult;
  ai_TrunkID : string;
  ai_ProviderType : ProviderType;
  ai_ProviderName : string;
  ai_Auth : InboundAuthParams;
  ai_events : bool;                          (* the project's state handler accepts events *)
}.

Record InviteEnv := {
  pe_start : Z;
  pe_srcOK : bool;                           (* netip.ParseAddrPort of the source *)
  pe_freshID : string;
  pe_hide : bool;                            (* conf.HideInboundPort *)
  pe_sent : bool;                            (* a response of this INVITE is sent *)
  pe_now : Z;
  pe_sdpUpdate : option error;               (* updateRemoteFromSDP *)
  pe_localSDP : error + string;              (* GetLocalSDP of the outbound call's media *)
  pe_auth : error + AuthInfo;
  pe_authAt : Z;
  pe_authDur : Z;
  pe_errEvents : bool;                       (* the handler of an unknown project accepts events *)
  pe_rand : error + string;
  pe_authCheckAt : Z;
  pe_nonceAt : Z;
  pe_handle : HandleEnv;
  pe_ext : nat -> list Ext;
  pe_endAt : Z;
}.

Inductive PResult :=
| PPanic
| PRunning
| PRet (err : option error).

(** What is left to do when [processInvite] returns: nothing ([state] is nil), report
    an INVITE that set up no call, or report a call. *)
Inductive Finalize := FinNone | FinReject (t : stats.Termination) | FinCall.

Definition newerThan {A} (n : Z) (seqOf : A -> Z) (o : option A) : option A :=
  match o with Some a => if seqOf a <? n then Some a else None | None => None end.

(** [info.EndedAtNs = n] *)
Definition set_EndedAt (i : SIPCallInfo) (n : Z) : SIPCallInfo :=
  info_with (SipCallId i) (RoomId i) (info_CallStatus i) (info_DisconnectReason i) (info_Error i)
    (CallStatusCode i) (StartedAtNs i) n (ParticipantIdentity i) (ParticipantAttributes i)
    (AudioCodec i) i.

Section manager.
Open Scope go_scope.
Context `{ErrorText} `{AEAD} `{DigestLib} `{DigestClient}.
Abbreviation P := (M pstate PEffect).

(** ** Calls of the components *)
Definition onCM (f : callManager -> callManager) : P unit :=
  mmodify (fun p => set_cm (f (p_cm p)) p).

Definition onMonP {A} (m : M CallMonitor MEffect A) : P A :=
  fun p => match m (p_mon p) with
           | (a, mon, t) => (a, {| p_cm := p_cm p; p_cc := p_cc p; p_st := p_st p; p_mon := mon |},
                             map PMon t)
           end.

(** A nil record ignores what is reported to it. *)
Definition onStateP (m : M CallState HandlerCall unit) : P unit :=
  fun p => match p_st p with
           | None => (tt, p, [])
           | Some st =>
               match m st with
               | (_, st', t) => (tt, {| p_cm := p_cm p; p_cc := p_cc p; p_st := Some st'; p_mon := p_mon p |},
                                 map PState t)
               end
           end.

Fixpoint dialogEffectsP (l : list DEffect) : P unit :=
  match l with
  | [] => mreturn tt
  | DEmit ev :: l' => do* onStateP (EmitSignalingEvent ev) in dialogEffectsP l'
  | DCacheRejected callID tag status reason :: l' =>
      do* onCM (add_rejected (callID, tag) (status, reason)) in
      do* memit (PSip (DCacheRejected callID tag status reason)) in
      dialogEffectsP l'
  | e :: l' => do* memit (PSip e) in dialogEffectsP l'
  end.

Definition onCCP {A} (m : M sipInbound DEffect A) : P A :=
  fun p => match m (p_cc p) with
           | (a, cc, t) =>
               match dialogEffectsP t {| p_cm := p_cm p; p_cc := cc; p_st := p_st p; p_mon := p_mon p |} with
               | (_, p', t') => (a, p', t')
               end
           end.

(** A method of an active outbound call that does not close it. *)
Definition onActive {A} (tag : string) (m : M outboundCall CEffect A) (cm : callManager) : callManager :=
  upd_active (alter (fun oc => state_of (m oc)) tag) cm.

(** ** [newState] *)
Definition initialInfo (cc : sipInbound) (trunk : string) : SIPCallInfo :=
  {| CallId := si_id cc; SipCallId := si_sipCallID cc; CallDirection := SCD_INBOUND;
     TrunkId := trunk; RoomId := ""; RoomName := ""; DispatchRuleId := "";
     info_CallStatus := SCS_CALL_INCOMING; info_DisconnectReason := UNKNOWN_REASON;
     info_Error := ""; CallStatusCode := None; StartedAtNs := 0; EndedAtNs := 0;
     ParticipantIdentity := ""; ParticipantAttributes := ∅; AudioCodec := "" |}.

Definition storeState (st : CallState) (p : pstate) : pstate :=
  {| p_cm := p_cm p;
     p_cc := let s := p_cc p in
             {| si_id := si_id s; si_tag := si_tag s; si_sipCallID := si_sipCallID s;
                inviteCSeq := inviteCSeq s; legTr := legTr s; si_tr := si_tr s; hasState := true;
                hasInvite := hasInvite s; inviteTx := inviteTx s; inviteOk := inviteOk s;
                nextRequestCSeq := nextRequestCSeq s; referCseq := referCseq s;
                ringing := ringing s; cancelled := cancelled s; acked := acked s;
                okSending := okSending s; ackReported := ackReported s;
                sipTryingAt := sipTryingAt s; sipOkAt := sipOkAt s; lastSDP := lastSDP s;
                lastCallStatus := lastCallStatus s; si_refers := si_refers s |};
     p_st := Some st; p_mon := p_mon p |}.

Definition newState (start : Z) (acc : bool) (trunk : string) : P unit :=
  let* p := mget in
  do* mmodify (storeState (NewCallState acc (initialInfo (p_cc p) trunk))) in
  do* onStateP (EmitSignalingEvent (newEvent EventInviteReceived (Some start) "INVITE" 0
                                      (inviteCSeq (p_cc p)) (si_tr (p_cc p)) "" "" 0)) in
  match sipTryingAt (p_cc p) with
  | Some t => onStateP (EmitSignalingEvent (inviteResponseEvent EventTryingSent (Some t) 100
                                              (inviteCSeq (p_cc p))))
  | None => mreturn tt
  end.

(** ** [newInboundCall] and the call *)
Definition newInboundCall (start : Z) (p : pstate) : option inboundCall :=
  match p_st p with
  | None => None
  | Some st =>
      Some {| ic_state := st; ic_cc := p_cc p; ic_mon := p_mon p;
              ic_sigTs := {| APITime := None; InviteTime := Some start;
                             TryingTime := sipTryingAt (p_cc p); RingingTime := None;
                             AcceptTime := None; JoinRoomTime := None; AckTime := None |};
              ic_done := false; ic_started := false; ic_media := false;
              ic_lateAnswerPending := false; ic_closeReason := None; ic_ctxDone := false;
              ic_callDur := false; ic_byeReceived := false; ic_registered := true |}
  end.

(** The cache entries a call made. *)
Definition rejectedBy (l : list IEffect) (cm : callManager) : callManager :=
  fold_left (fun cm e => match e with
                         | ISip (DCacheRejected callID tag status reason) =>
                             add_rejected (callID, tag) (status, reason) cm
                         | _ => cm
                         end) l cm.

(** The manager's map holds the call while it runs; [delete] removes whatever call
    is registered under the tag. *)
Definition runCall (e : InviteEnv) : P IResult :=
  fun p =>
    match newInboundCall (pe_start e) p with
    | None => (IPanic, p, [])
    | Some call =>
        let id := si_id (p_cc p) in
        let '(r, call', t) := handleInvite (pe_handle e) (pe_ext e) call in
        let calls := if ic_registered call' then <[id := call']> (cm_byLocalTag (p_cm p))
                     else delete id (cm_byLocalTag (p_cm p)) in
        (r, {| p_cm := rejectedBy t (upd_calls (fun _ => calls) (p_cm p)); p_cc := ic_cc call';
               p_st := Some (ic_state call'); p_mon := ic_mon call' |}, map PCall t)
    end.

(** ** [processInvite] *)

(** A rejection: the metrics, the response, the error. *)
Definition rejectInvite (e : InviteEnv) (t : stats.Termination) (code : Z) (reason : string)
    (err : error) : P (PResult * Finalize) :=
  do* onMonP (InviteErrorShort t) in
  do* (let* p := mget in
       onCCP (RespondAndDrop (bool_decide (is_Some (rejectedInvites (p_cm p)))) (pe_now e) (pe_sent e)
                code reason)) in
  mreturn (PRet (Some err), FinReject t).

Definition startCall (e : InviteEnv) : P (PResult * Finalize) :=
  let* r := runCall e in
  mreturn (match r with
           | IPanic => (PPanic, FinCall)
           | IRunning => (PRunning, FinCall)
           | IRet err => (PRet err, FinCall)
           end).

Definition countCall (req : Request) : P unit :=
  let* p := mget in
  let id := si_id (p_cc p) in
  let ci := getCallInfo id (p_cm p) in
  onCM (set_callInfo id {| ci_counters := (countInvite (ci_counters ci) req).1;
                           ci_timers := ci_timers ci; ci_fire := ci_fire ci |}).

(** A response that is not sent through the dialog, as for a challenge. *)
Definition respondAuth (e : InviteEnv) (status : SResult) (chal : option Challenge) : P unit :=
  do* memit (PRespond (newResponse (res_Code status) (res_Status status) "") chal (pe_sent e)) in
  mwhen (pe_sent e)
    (do* onCCP (setLastStatus (res_Code status) (res_Status status)) in
     mwhen (negb (res_Code status =? 407))
       (onCCP (emitRejected (pe_now e) (res_Code status) (res_Status status)))).

Definition authPassword (s : AESGCM) (e : InviteEnv) (req : Request) (auth : InboundAuthParams)
    : P (PResult * Finalize) :=
  do* mwhen (pe_hide e)
        (let* ok := onCCP (Processing (pe_now e) (pe_sent e)) in
         let* p := mget in
         mwhen ok (onStateP (EmitSignalingEvent (inviteResponseEvent EventTryingSent
                               (sipTryingAt (p_cc p)) 100 (inviteCSeq (p_cc p)))))) in
  do* (let* p := mget in
       let id := si_id (p_cc p) in
       let ci := getCallInfo id (p_cm p) in
       onCM (set_callInfo id {| ci_counters := ci_counters ci;
                                ci_timers := stopChallengeTimer (ci_timers ci);
                                ci_fire := ci_fire ci |})) in
  do* countCall req in
  let '(status, chal) := handleInviteAuth s (pe_rand e) req auth (pe_authCheckAt e) (pe_nonceAt e) in
  if res_Code status =? 200 then startCall e
  else
    do* respondAuth e status chal in
    do* (let* p := mget in
         onCM (add_provisional (si_sipCallID (p_cc p), si_tag (p_cc p)) (si_id (p_cc p)))) in
    do* onMonP (InviteErrorShort (stats.ClientError "unauthorized")) in
    let err := NewErrorf PermissionDenied "invalid credentials were provided" in
    if res_Code status =? 407 then
      do* (let* p := mget in
           let id := si_id (p_cc p) in
           let ci := getCallInfo id (p_cm p) in
           match p_st p with
           | None => mreturn tt
           | Some st =>
               let ts := startChallengeTimer (ci_timers ci) in
               onCM (set_callInfo id
                 {| ci_counters := ci_counters ci; ci_timers := ts;
                    ci_fire := match challengeTimer ts with
                               | Some n => <[n := {| pd_state := st; pd_at := pe_now e;
                                                     pd_status := status |}]> (ci_fire ci)
                               | None => ci_fire ci
                               end |})
           end) in
      mreturn (PRet (Some err), FinNone)
    else mreturn (PRet (Some err), FinReject (stats.ClientError "unauthorized")).

(** The switch on the result of the lookup. *)
Definition onAuthResult (s : AESGCM) (e : InviteEnv) (req : Request) (r : AuthInfo)
    : P (PResult * Finalize) :=
  match ai_Result r with
  | AuthDrop =>
      do* onMonP (InviteErrorShort (stats.ClientError "flood")) in
      do* onCCP drop in
      mreturn (PRet (Some (NewErrorf PermissionDenied "call was not authorized by trunk configuration")),
               FinReject (stats.ClientError "flood"))
  | AuthNotFound =>
      rejectInvite e (stats.ClientError "no-rule") 404 "Does not match any SIP Trunks"
        (NewErrorf NotFound "no trunk configuration for call")
  | AuthQuotaExceeded =>
      rejectInvite e (stats.ClientError "quota-exceeded") 503 "Service temporarily unavailable"
        (NewErrorf ResourceExhausted "quota limit exceeded")
  | AuthNoTrunkFound =>
      rejectInvite e (stats.ClientError "no-trunk") 404 "No trunk found"
        (NewErrorf NotFound "no trunk found for call")
  | AuthRouteNotAllowed =>
      rejectInvite e (stats.ClientError "route-not-allowed") 503 "Service temporarily unavailable"
        (NewErrorf PermissionDenied "route not allowed")
  | AuthFailureOther =>
      rejectInvite e (stats.ClientError "auth-other") 403 "Auth failure"
        (NewErrorf PermissionDenied "auth failure")
  | AuthRejectedAsError =>
      rejectInvite e (stats.ClientError "auth-rejected-as-error") 403 "Auth failure"
        (NewErrorf PermissionDenied "call was rejected by the auth service")
  | AuthPassword => authPassword s e req (ai_Auth r)
  | AuthAccept => do* countCall req in startCall e
  | AuthOther _ => startCall e
  end.

(** After the request was found to be a new call. *)
Definition newInvite (s : AESGCM) (e : InviteEnv) (req : Request) : P (PResult * Finalize) :=
  do* onMonP InviteReq in
  do* mwhen (negb (pe_hide e))
        (let* _ok := onCCP (Processing (pe_start e) (pe_sent e)) in mreturn tt) in
  do* memit PAuthLookup in
  match pe_auth e with
  | inl err =>
      do* onMonP (InviteErrorShort (stats.ServerError "auth-error")) in
      do* newState (pe_start e) (pe_errEvents e) "" in
      do* onStateP (EmitSignalingEvent (lookupEvent EventInviteAuthorized (Some (pe_authAt e))
                                          (pe_authDur e) "error")) in
      do* (let* p := mget in
           onCCP (RespondAndDrop (bool_decide (is_Some (rejectedInvites (p_cm p)))) (pe_now e)
                    (pe_sent e) 503 "Try again later")) in
      let* p := mget in
      do* onStateP (EmitSignalingEvent (callEndedEvent (Some (pe_now e)) (stats.ServerError "auth-error")
                                          (lastStatusCode (p_cc p)))) in
      mreturn (PRet (Some (NewError PermissionDenied
                             (EWrap "rejecting inbound, auth check failed: " err ""))), FinNone)
  | inr r =>
      do* onMonP (SetProvider (providerLabel (ai_ProviderType r) (ai_ProviderName r))) in
      do* newState (pe_start e) (ai_events r) (ai_TrunkID r) in
      do* onStateP Flush in
      do* onStateP (EmitSignalingEvent (lookupEvent EventInviteAuthorized (Some (pe_authAt e))
                                          (pe_authDur e) (authResultName (ai_Result r)))) in
      onAuthResult s e req r
  end.

(** A re-INVITE of a call of ours. *)
Definition reinviteInbound (e : InviteEnv) (c : inboundCall) : P (PResult * Finalize) :=
  if ic_lateAnswerPending c then
    do* onCCP (RejectAsKeepAlive (pe_now e) (pe_sent e) 491 "Request Pending") in
    mreturn (PRet None, FinNone)
  else
    do* (let* p := mget in memit (PUpdateSDP (si_id (p_cc p)))) in
    match pe_sdpUpdate e with
    | Some err =>
        do* onCCP (RejectReinvite (pe_now e) (pe_sent e) err) in mreturn (PRet None, FinNone)
    | None =>
        do* onCCP (AcceptAsKeepAlive (pe_now e) (pe_sent e) (lastSDP (ic_cc c))) in
        mreturn (PRet None, FinNone)
    end.

Definition reinviteOutbound (e : InviteEnv) (oc : outboundCall) : P (PResult * Finalize) :=
  let localSDP := match pe_localSDP e with inl _ => "" | inr sdp => sdp end in
  if String.eqb localSDP "" then
    do* onCCP (RejectAsKeepAlive (pe_now e) (pe_sent e) 491 "Request Pending") in
    mreturn (PRet None, FinNone)
  else
    do* (let* p := mget in memit (PUpdateSDP (si_id (p_cc p)))) in
    match pe_sdpUpdate e with
    | Some err =>
        do* onCCP (RejectReinvite (pe_now e) (pe_sent e) err) in mreturn (PRet None, FinNone)
    | None =>
        let* p := mget in
        do* onCM (onActive (si_id (p_cc p))
                    (onSip (pe_now e) None (RecordInvite (inviteCSeq (p_cc p))))) in
        do* onCCP (AcceptAsKeepAlive (pe_now e) (pe_sent e) localSDP) in
        mreturn (PRet None, FinNone)
    end.

Definition dispatchInvite (s : AESGCM) (e : InviteEnv) (req : Request) : P (PResult * Finalize) :=
  let* p := mget in
  let cm := p_cm p in
  let cc := p_cc p in
  match rejectedInvites cm ≫= fun m => m !! (si_sipCallID cc, si_tag cc) with
  | Some (status, reason) =>
      do* onCCP (RespondAndDrop true (pe_now e) (pe_sent e) status reason) in
      mreturn (PRet None, FinNone)
  | None =>
      match newerThan (inviteCSeq cc) (fun c => inviteCSeq (ic_cc c)) (cm_byLocalTag cm !! si_id cc) with
      | Some c => reinviteInbound e c
      | None =>
          match newerThan (inviteCSeq cc) (fun oc => latestInviteCSeq (oc_cc oc))
                  (cm_activeCalls cm !! si_id cc) with
          | Some oc => reinviteOutbound e oc
          | None => newInvite s e req
          end
      end
  end.

(** The deferred report. *)
Definition finalInfo (now : Z) (err : option error) (last : option SIPStatus) (i : SIPCallInfo)
    : SIPCallInfo :=
  let i := match err with
           | Some err =>
               if String.eqb (info_Error i) "" then set_Error (set_CallStatus i SCS_ERROR) (Error err)
               else set_CallStatus i SCS_DISCONNECTED
           | None => set_CallStatus i SCS_DISCONNECTED
           end in
  let i := match last with
           | Some st => set_CallStatusCode i (Some {| Code := Code st; Status := Status st |})
           | None => i
           end in
  set_EndedAt i now.

Definition finalize (e : InviteEnv) (f : Finalize) (err : option error) : P unit :=
  let* p := mget in
  match f with
  | FinNone => mreturn tt
  | FinReject t =>
      do* onStateP (EmitSignalingEvent (callEndedEvent (Some (pe_endAt e)) t (lastStatusCode (p_cc p)))) in
      onStateP (Update (finalInfo (pe_endAt e) err (lastCallStatus (p_cc p))))
  | FinCall => onStateP (Update (finalInfo (pe_endAt e) err (lastCallStatus (p_cc p))))
  end.

Definition processInvite (s : AESGCM) (e : InviteEnv) (req : Request) (cm : callManager)
    : PResult * callManager * list PEffect :=
  if negb (pe_srcOK e) then
    (PRet (Some (NewError MalformedRequest (EText "cannot parse source IP"))), cm,
     [PInviteReqRaw; PTerminate])
  else
    match newInbound (fun callID tag => provisionalInvites cm !! (callID, tag)) (pe_freshID e) req with
    | inl msg =>
        (PRet (Some (NewError InvalidArgument (EWrap "invite validation failed: " (EText msg) ""))), cm,
         PInviteReqRaw :: (if pe_hide e then [] else [PRespond (newResponse 400 "" "") None (pe_sent e)])
           ++ [PTerminate])
    | inr cc =>
        let '(r, p, t) :=
          (let* rf := dispatchInvite s e req in
           match rf with
           | (PRet err, f) => do* finalize e f err in mreturn (PRet err)
           | (r, _) => mreturn r
           end)
            {| p_cm := cm; p_cc := cc; p_st := None;
               p_mon := NewCall Inbound (match req_To req with
                                         | Some to => su_Host (Address to) | None => "" end) |} in
        (r, p_cm p, PInviteReqRaw :: t)
    end.

(** ** The challenge timer

    The function of a timer that expired. *)
Definition challengeFire (tag : string) (id : nat) (cm : callManager)
    : callManager * list HandlerCall :=
  let ci := getCallInfo tag cm in
  let '(current, ts) := timerFunc id (ci_timers ci) in
  let cm' := set_callInfo tag {| ci_counters := ci_counters ci; ci_timers := ts;
                                 ci_fire := ci_fire ci |} cm in
  match current, ci_fire ci !! id with
  | true, Some pd =>
      let st := pd_status pd in
      (cm', trace_of
         ((do* Update (fun i =>
             set_CallStatusCode
               (set_EndedAt (set_Error (set_CallStatus i SCS_ERROR)
                               "auth challenge issued, no authenticated retry received") (pd_at pd))
               (Some {| Code := i32 (res_Code st); Status := res_Status st |})) in
           EmitSignalingEvent (callEndedEvent (Some (pd_at pd)) (stats.ClientError "unauthorized")
                                 (res_Code st))) (pd_state pd)))
  | _, _ => (cm', [])
  end.

(** ** The other requests *)
Definition HandleOptions (sent : bool) : list PEffect := [PRespond (newResponse 200 "" "") None sent].
Definition HandleNoRoute (sent : bool) : list PEffect := [PRespond (newResponse 405 "" "") None sent].

Definition onInbound {A} (tag : string) (c : inboundCall) (m : M inboundCall IEffect A) (cm : callManager)
    : A * callManager * list PEffect :=
  let '(a, c', t) := m c in
  (a, rejectedBy t (upd_calls (fun l => if ic_registered c' then <[tag := c']> l else delete tag l) cm),
   map PCall t).

Definition HandleAck (now : Z) (req : Request) (cm : callManager) : callManager * list PEffect :=
  match GetLocalTagUAS req with
  | inr _ => (cm, [])
  | inl tag =>
      match cm_byLocalTag cm !! tag with
      | None => (cm, [])
      | Some c =>
          let '(_, cm', t) := onInbound tag c (onCC (AcceptAck now (req_CSeq req))) cm in (cm', t)
      end
  end.

(** The [Reason] header of a request; the zero reason when there is none or it does
    not parse. *)
Definition requestReason (req : Request) : ReasonHeader :=
  match req_GetHeader req "Reason" with
  | Some h => match ParseReasonHeader h with inr r => r | inl _ => zeroReason end
  | None => zeroReason
  end.

(** [closeEnv] is what closing an outbound call meets. *)
Definition HandleBye (now : Z) (closeEnv : CloseEnv) (req : Request) (sent : bool) (cm : callManager)
    : callManager * list PEffect :=
  match GetLocalTagUAS req with
  | inr _ => (cm, [PRespond (newResponse 400 "" "") None sent])
  | inl tag =>
      match cm_byLocalTag cm !! tag with
      | Some c =>
          let '(_, cm', t) := onInbound tag c (byeInbound (requestReason req) (req_CSeq req) now) cm in
          (cm', t)
      | None =>
          match cm_activeCalls cm !! tag with
          | Some oc =>
              let '(_, oc', t) := onOutboundBye closeEnv now (requestCSeq req)
                                    (messageCause (req_GetHeader req "Reason")) oc in
              (upd_active (fun l => if oc_active oc' then <[tag := oc']> l else delete tag l) cm,
               map POut t)
          | None => (cm, [PRespond (newResponse 481 "" "") None sent])
          end
      end
  end.

(** The result of [handleNotify] as the error it returns. *)
Definition notifyError (r : error + option (option error)) : option error :=
  match r with inl err => Some err | inr _ => None end.

Definition answerNotify (err : option error) (sent : bool) : list PEffect :=
  let '(code, msg) := sipCodeAndMessageFromError err in [PRespond (newResponse code msg "") None sent].

(** [None]: the call is not one of the client's. *)
Definition onOutboundNotify (sipErrorCode : SIPStatus -> ErrorCode) (req : Request) (sent : bool)
    (cm : callManager) : option (list PEffect) :=
  let tag := match GetLocalTagUAS req with inl tag => tag | inr _ => "" end in
  match cm_activeCalls cm !! tag with
  | None => None
  | Some oc => Some (answerNotify (notifyError (result_of (handleNotifyO sipErrorCode req (oc_cc oc)))) sent)
  end.

Definition HandleNotify (sipErrorCode : SIPStatus -> ErrorCode) (req : Request) (sent : bool)
    (cm : callManager) : list PEffect :=
  match GetLocalTagUAS req with
  | inr _ => [PRespond (newResponse 400 "" "") None sent]
  | inl tag =>
      match cm_byLocalTag cm !! tag with
      | Some c => answerNotify (notifyError (result_of (handleNotify_inbound sipErrorCode req (ic_cc c)))) sent
      | None => default [PRespond (newResponse 481 "" "") None sent] (onOutboundNotify sipErrorCode req sent cm)
      end
  end.

(** ** [Stop] and [ActiveCalls] *)
Definition Stop (e : ICloseEnv) (oe : CloseEnv) (cm : callManager) : callManager * list PEffect :=
  ({| cm_byLocalTag := ∅; cm_activeCalls := ∅; provisionalInvites := provisionalInvites cm;
      rejectedInvites := rejectedInvites cm; cm_infos := cm_infos cm |},
   concat (map (fun oc => map POut (trace_of (OutboundCall.Close oe oc)))
             (map snd (map_to_list (cm_activeCalls cm)))) ++
   concat (map (fun c => map PCall (trace_of (Shutdown e c)))
             (map snd (map_to_list (cm_byLocalTag cm))))).
End manager.

(** ** Lemmas *)
Definition isEndedP (e : PEffect) : bool :=
  match e with
  | PState (HandleSignalingEvent ev) => bool_decide (ev_Type ev = EventCallEnded)
  | PCall e => isEndedI e
  | _ => false
  end.

(** What the report of an INVITE depends on. *)
Definition recordOf (p : pstate) : option (bool * SIPCallInfo) :=
  (fun st => (acceptsEvents st, callInfo st)) <$> p_st p.

(** A step that neither ends the call nor changes its record, and keeps the challenge
    timers and the tag. *)
Definition quietP (p : pstate) (t : list PEffect) (p' : pstate) : Prop :=
  countb isEndedP t = 0%nat /\ recordOf p' = recordOf p /\
  cm_infos (p_cm p') = cm_infos (p_cm p) /\ si_id (p_cc p') = si_id (p_cc p).

#[global] Instance quietP_rel : TraceRel quietP.
Proof.
  split; [done|]. intros p1 t1 p2 t2 p3 (E1 & R1 & I1 & T1) (E2 & R2 & I2 & T2). unfold quietP.
  rewrite countb_app. split_and!; congruence || lia.
Qed.

Definition sameTag (s : sipInbound) (_ : list DEffect) (s' : sipInbound) : Prop := si_id s' = si_id s.

#[global] Instance sameTag_rel : TraceRel sameTag.
Proof. split; [done|]. intros ? ? ? ? ?. unfold sameTag. congruence. Qed.

Section quiet.
Context `{ErrorText} `{AEAD} `{DigestLib} `{DigestClient}.

Lemma EmitP_quiet ev : ev_Type ev <> EventCallEnded -> mrel quietP (onStateP (EmitSignalingEvent ev)).
Proof.
  intros Ht p. unfold mspec, onStateP, EmitSignalingEvent, quietP, recordOf.
  destruct (p_st p) as [st|] eqn:E; [|by rewrite E].
  destruct (ev_Time ev); [|done]. unfold mbind', mget, memit. simpl.
  destruct (acceptsEvents st) eqn:Ea; simpl; rewrite Ea; split_and!; try done.
  rewrite countb_cons. cbn. by rewrite bool_decide_eq_false_2.
Qed.

Lemma FlushP_quiet : mrel quietP (onStateP Flush).
Proof.
  intros p. unfold mspec, onStateP, Flush, flushLocked, quietP, recordOf.
  destruct (p_st p) as [st|] eqn:E; [|by rewrite E].
  unfold mbind', mget, memit, mput, mreturn. by destruct (dirty st).
Qed.

Lemma onMonP_quiet {A} (m : M CallMonitor MEffect A) : mrel quietP (onMonP m).
Proof.
  intros p. unfold mspec, onMonP. destruct (m (p_mon p)) as [[a mon] t]. unfold quietP. simpl.
  split_and!; try done. induction t as [|x t IH]; [done|]. cbn [map]. by rewrite countb_cons.
Qed.

Lemma dialogEffectsP_quiet l : Forall okEventI l -> mrel quietP (dialogEffectsP l).
Proof.
  induction 1 as [|x l Hx Hl IH]; cbn [dialogEffectsP]; [rel_step|].
  destruct x; unfold onCM; repeat lazymatch goal with
    | |- mrel _ (dialogEffectsP _) => exact IH
    | |- mrel _ (onStateP _) => by apply EmitP_quiet
    | |- mrel _ _ => rel_step
    | |- _ => done
    end.
Qed.

Lemma onCCP_quiet {A} (m : M sipInbound DEffect A) :
  mtrace okEventI m -> mrel sameTag m -> mrel quietP (onCCP m).
Proof.
  intros Hm Ht p. unfold mspec, onCCP. specialize (Hm (p_cc p)). specialize (Ht (p_cc p)).
  unfold mspec in Hm, Ht. destruct (m (p_cc p)) as [[a cc] t].
  pose proof (dialogEffectsP_quiet t Hm
                {| p_cm := p_cm p; p_cc := cc; p_st := p_st p; p_mon := p_mon p |}) as Hq.
  unfold mspec in Hq. destruct (dialogEffectsP t _) as [[u p'] t'].
  destruct Hq as (E & R & I & T). unfold quietP. split_and!; try done. by rewrite T.
Qed.

Ltac tag_step := repeat (rel_step || apply tr_refl || done).

Lemma respond_tag now sent status reason : mrel sameTag (respond now sent status reason).
Proof.
  unfold respond, respondWithData, setLastStatus, emitRejected, emit. tag_step.
  unfold sameTag. by case_match.
Qed.
Lemma RespondAndDrop_tag cache now sent status reason :
  mrel sameTag (RespondAndDrop cache now sent status reason).
Proof.
  unfold RespondAndDrop, drop, stopRinging.
  repeat (lazymatch goal with
          | |- mrel _ (respond _ _ _ _) => apply respond_tag
          | |- mrel _ _ => rel_step | |- _ => done end).
Qed.

Lemma RespondAndDropP_quiet e code reason :
  mrel quietP (let* p := mget in
    onCCP (RespondAndDrop (bool_decide (is_Some (rejectedInvites (p_cm p)))) (pe_now e) (pe_sent e)
             code reason))%go.
Proof.
  rel_step; [rel_step|]. apply onCCP_quiet; [|apply RespondAndDrop_tag].
  unfold RespondAndDrop, stopRinging.
  repeat (trace_step || apply drop_ok || apply respond_ok || (cbn; done)).
Qed.

Lemma dropP_quiet : mrel quietP (onCCP drop).
Proof. apply onCCP_quiet; [apply drop_ok|]. unfold drop, stopRinging. tag_step. Qed.

Lemma ProcessingP_quiet now sent : mrel quietP (onCCP (Processing now sent)).
Proof.
  apply onCCP_quiet; unfold Processing.
  - repeat (trace_step || apply respond_ok).
  - repeat (lazymatch goal with
          | |- mrel _ (respond _ _ _ _) => apply respond_tag
          | |- mrel _ _ => rel_step | |- _ => done end).
Qed.

Lemma respondAuth_quiet e status chal : mrel quietP (respondAuth e status chal).
Proof.
  unfold respondAuth. rel_step; [by rel_step|]. rel_step. rel_step.
  - apply onCCP_quiet; [apply setLastStatus_ok|]. unfold setLastStatus. tag_step.
    unfold sameTag. by case_match.
  - rel_step. apply onCCP_quiet.
    + unfold emitRejected. repeat (trace_step || apply emit_ok || done).
    + unfold emitRejected, emit. tag_step.
Qed.
End quiet.

(** ** The report of an INVITE *)
Definition waitsForRetry (id : string) (i : SIPCallInfo) (cm : callManager) : Prop :=
  exists n pd, let ci := getCallInfo id cm in
    challengeTimer (ci_timers ci) = Some n /\ n ∈ armed (ci_timers ci) /\
    ci_fire ci !! n = Some pd /\ callInfo (pd_state pd) = i.

Section report.
Context `{ErrorText} `{AEAD} `{DigestLib} `{DigestClient}.

Definition isChallenged (s : AESGCM) (e : InviteEnv) (req : Request) (r : AuthInfo) : bool :=
  bool_decide (ai_Result r = AuthPassword) &&
  (res_Code (handleInviteAuth s (pe_rand e) req (ai_Auth r) (pe_authCheckAt e) (pe_nonceAt e)).1 =? 407).

(** The state before the deferred report. *)
Definition reported (chal : bool) (acc : bool) (i : SIPCallInfo) (id : string)
    (rf : PResult * Finalize) (p' : pstate) (t : list PEffect) : Prop :=
  match rf with
  | (PRet err, FinNone) => chal = true /\ countb isEndedP t = 0%nat /\ waitsForRetry id i (p_cm p')
  | (PRet err, FinReject _) =>
      chal = false /\ countb isEndedP t = 0%nat /\ recordOf p' = Some (acc, i) /\ is_Some err
  | (PRet err, FinCall) =>
      chal = false /\ countb isEndedP t = (if acc then 1 else 0)%nat /\ is_Some (recordOf p')
  | _ => True
  end.

Lemma reported_after chal acc i id rf p' t1 t :
  countb isEndedP t1 = 0%nat -> reported chal acc i id rf p' t -> reported chal acc i id rf p' (t1 ++ t).
Proof.
  intros E Hr. unfold reported in *. destruct rf as [[| |err] []]; try done;
    rewrite countb_app, E; cbn; tauto.
Qed.

(** A step before the decision. *)
Lemma reported_bind {A} (m : M pstate PEffect A) (f : A -> M pstate PEffect (PResult * Finalize)) chal acc i id p :
  mrel quietP m -> recordOf p = Some (acc, i) -> si_id (p_cc p) = id ->
  (forall a p1, recordOf p1 = Some (acc, i) -> si_id (p_cc p1) = id -> mspec (f a) p1 (reported chal acc i id)) ->
  mspec (mbind' m f) p (reported chal acc i id).
Proof.
  intros Hm Hr Hi Hf. mstep. eapply mspec_mono; [apply Hm|]. cbv beta. intros a p1 t1 Hq.
  pose proof Hq as (_ & R1 & _ & T1). eapply mspec_mono; [apply Hf; congruence|].
  cbv beta. intros. by apply reported_after; [apply Hq|].
Qed.

Lemma startCall_reported e acc i id p :
  recordOf p = Some (acc, i) -> mspec (startCall e) p (reported false acc i id).
Proof.
  unfold recordOf. intros Hr. destruct (p_st p) as [st|] eqn:Est; [|done]. injection Hr as Ha Hi.
  unfold startCall. mstep. unfold mspec at 1, runCall, newInboundCall. rewrite Est.
  match goal with |- context [handleInvite _ _ ?call] => set (c := call) end.
  pose proof (handleInvite_rel (pe_handle e) (pe_ext e) c) as Hl.
  pose proof (handleInvite_done (pe_handle e) (pe_ext e) c) as Hf. unfold mspec in Hl, Hf.
  destruct (handleInvite _ _ c) as [[r c'] t]. mstep. destruct r as [| |err]; [done..|].
  destruct Hf as [Df _]. destruct Hl as (_ & _ & _ & E & _). split; [done|].
  unfold stopsI in E. rewrite Df in E. cbn in E. rewrite Ha in E. cbv zeta. rewrite app_nil_r.
  split; [|by eexists].
  rewrite <- E. clear. induction t as [|x t IH]; [done|]. cbn [map]. rewrite !countb_cons, IH. done.
Qed.

Lemma rejectInvite_reported e t code reason err acc i id p :
  recordOf p = Some (acc, i) -> si_id (p_cc p) = id ->
  mspec (rejectInvite e t code reason err) p (reported false acc i id).
Proof.
  intros Hr Hi. unfold rejectInvite. eapply reported_bind; [apply onMonP_quiet|done..|].
  intros _ p1 R1 T1. eapply reported_bind; [apply RespondAndDropP_quiet|done..|].
  intros _ p2 R2 T2. mstep. done.
Qed.

(** Changes of the manager that are not the timers' keep the report. *)
Lemma reported_onCM g (f : unit -> M pstate PEffect (PResult * Finalize)) chal acc i id p :
  recordOf p = Some (acc, i) -> si_id (p_cc p) = id ->
  (forall p1, recordOf p1 = Some (acc, i) -> si_id (p_cc p1) = id -> mspec (f tt) p1 (reported chal acc i id)) ->
  mspec (mbind' (let* p := mget in onCM (g p))%go f) p (reported chal acc i id).
Proof.
  intros Hr Hi Hf. mstep. mstep. mstep. unfold onCM. mstep. cbn [app].
  eapply mspec_mono; [by apply Hf|]. done.
Qed.

Lemma authPassword_reported s e req auth acc i id p :
  recordOf p = Some (acc, i) -> si_id (p_cc p) = id ->
  mspec (authPassword s e req auth) p
    (reported (res_Code (handleInviteAuth s (pe_rand e) req auth (pe_authCheckAt e) (pe_nonceAt e)).1 =? 407)
       acc i id).
Proof.
  intros Hr Hi. unfold authPassword, countCall.
  eapply reported_bind; [|done..|].
  { rel_step. rel_step; [apply ProcessingP_quiet|]. rel_step; [rel_step|]. rel_step. by apply EmitP_quiet. }
  intros _ p1 R1 T1. apply reported_onCM; [done..|]. clear p1 R1 T1. intros p1 R1 T1.
  apply reported_onCM; [done..|]. clear p1 R1 T1. intros p1 R1 T1.
  destruct (handleInviteAuth _ _ _ _ _ _) as [status chal]. cbn [fst].
  destruct (Z.eqb_spec (res_Code status) 200) as [E2|E2].
  { rewrite E2. by apply startCall_reported. }
  eapply reported_bind; [apply respondAuth_quiet|done..|]. intros _ p2 R2 T2.
  apply reported_onCM; [done..|]. clear p2 R2 T2. intros p2 R2 T2.
  eapply reported_bind; [apply onMonP_quiet|done..|]. intros _ p3 R3 T3. cbv zeta.
  destruct (Z.eqb_spec (res_Code status) 407) as [E4|E4]; [|by mstep].
  mstep. mstep. mstep. unfold recordOf in R3. destruct (p_st p3) as [st|]; [|done].
  injection R3 as Ha Hi3. unfold onCM. mstep. mstep. cbn [app].
  split; [done|]. split; [done|]. unfold waitsForRetry, getCallInfo. rewrite T3. cbn.
  rewrite lookup_insert_eq. cbn. eexists _, _. split_and!; [done|set_solver|by rewrite lookup_insert_eq|done].
Qed.

Lemma onAuthResult_reported s e req r acc i id p :
  recordOf p = Some (acc, i) -> si_id (p_cc p) = id ->
  mspec (onAuthResult s e req r) p (reported (isChallenged s e req r) acc i id).
Proof.
  intros Hr Hi. unfold onAuthResult, isChallenged.
  destruct (ai_Result r) eqn:Er; cbn [bool_decide andb];
    try (rewrite bool_decide_eq_false_2 by done; cbn [andb]; by apply rejectInvite_reported).
  - rewrite bool_decide_eq_false_2 by done. cbn [andb].
    eapply reported_bind; [apply onMonP_quiet|done..|]. intros _ p1 R1 T1.
    eapply reported_bind; [apply dropP_quiet|done..|]. intros _ p2 R2 T2. by mstep.
  - rewrite bool_decide_eq_true_2 by done. cbn [andb]. by apply authPassword_reported.
  - rewrite bool_decide_eq_false_2 by done. cbn [andb]. unfold countCall.
    apply reported_onCM; [done..|]. intros p1 R1 T1. by apply startCall_reported.
  - rewrite bool_decide_eq_false_2 by done. cbn [andb]. by apply startCall_reported.
Qed.
End report.

(** The INVITE starts something new: it is no retry of a rejected one, and no
    re-INVITE of a call. *)
Definition startsNew (cc : sipInbound) (cm : callManager) : Prop :=
  (rejectedInvites cm ≫= fun m => m !! (si_sipCallID cc, si_tag cc)) = None /\
  newerThan (inviteCSeq cc) (fun c => inviteCSeq (ic_cc c)) (cm_byLocalTag cm !! si_id cc) = None /\
  newerThan (inviteCSeq cc) (fun oc => latestInviteCSeq (oc_cc oc)) (cm_activeCalls cm !! si_id cc) = None.

Section final.
Context `{ErrorText} `{AEAD} `{DigestLib} `{DigestClient}.

(** What the last report of an INVITE says. *)
Definition closingReport (now : Z) (err : option error) (i : SIPCallInfo) : Prop :=
  EndedAtNs i = now /\
  match err with
  | None => info_CallStatus i = SCS_DISCONNECTED
  | Some err => info_CallStatus i = SCS_ERROR /\ info_Error i = Error err \/
                info_CallStatus i = SCS_DISCONNECTED /\ info_Error i <> ""
  end.

Lemma finalInfo_closing now err last i : closingReport now err (finalInfo now err last i).
Proof.
  unfold closingReport, finalInfo. split; [by destruct last|].
  destruct err as [err|]; [|by destruct last].
  destruct (String.eqb_spec (info_Error i) ""); destruct last; cbn; auto.
Qed.

(** What an INVITE that starts something new leaves when it is done with. *)
Definition outcome (chal acc : bool) (e : InviteEnv) (id : string) (r : PResult) (p' : pstate)
    (t : list PEffect) : Prop :=
  match r with
  | PRet err =>
      if chal then
        countb isEndedP t = 0%nat /\
        exists i, waitsForRetry id i (p_cm p') /\ CallId i = id /\
                  info_CallStatus i = SCS_CALL_INCOMING /\ EndedAtNs i = 0
      else
        countb isEndedP t = (if acc then 1 else 0)%nat /\
        exists t0 i, t = t0 ++ [PState (HandleUpdate i)] /\ closingReport (pe_endAt e) err i
  | _ => True
  end.

Lemma UpdateP_run f p st :
  p_st p = Some st -> mspec (onStateP (Update f)) p (fun _ p' t =>
    p_cm p' = p_cm p /\ t = [PState (HandleUpdate (f (callInfo st)))]).
Proof. intros Hs. unfold mspec, onStateP. by rewrite Hs. Qed.

Lemma endedP_run now term code p acc i :
  recordOf p = Some (acc, i) ->
  mspec (onStateP (EmitSignalingEvent (callEndedEvent (Some now) term code))) p (fun _ p' t =>
    p_cm p' = p_cm p /\ recordOf p' = recordOf p /\ countb isEndedP t = (if acc then 1 else 0)%nat).
Proof.
  unfold recordOf. intros Hr. destruct (p_st p) as [st|] eqn:E; [|done]. injection Hr as Ha Hi.
  unfold mspec, onStateP. rewrite E. cbn. unfold mbind', mget, memit. simpl.
  subst acc. destruct (acceptsEvents st) eqn:Ea; cbn; by rewrite ?Ea.
Qed.

Lemma finalize_outcome chal acc i id e err f p t :
  CallId i = id -> info_CallStatus i = SCS_CALL_INCOMING -> EndedAtNs i = 0 ->
  reported chal acc i id (PRet err, f) p t ->
  mspec (finalize e f err) p (fun _ p' t' => outcome chal acc e id (PRet err) p' (t ++ t')).
Proof.
  intros Hid Hst Hend Hr. unfold finalize. mstep. mstep. destruct f as [|term|]; cbn [reported] in Hr.
  - destruct Hr as (-> & E & W). mstep. rewrite app_nil_r. cbn. eauto 6.
  - destruct Hr as (-> & E & R & _). mstep. eapply mspec_mono; [by eapply endedP_run|]. cbv beta.
    intros _ p1 t1 (C1 & R1 & E1). rewrite R in R1. unfold recordOf in R1.
    destruct (p_st p1) as [st|] eqn:Est; [|done].
    eapply mspec_mono; [by apply UpdateP_run|]. cbv beta. intros _ p2 t2 [C2 ->].
    cbn [outcome]. rewrite !countb_app, E, E1. cbn. split; [destruct acc; done|].
    eexists (t ++ t1), _. split; [by rewrite app_assoc|apply finalInfo_closing].
  - destruct Hr as (-> & E & R). unfold recordOf in R. destruct (p_st p) as [st|] eqn:Est; [|by destruct R].
    eapply mspec_mono; [by apply UpdateP_run|]. cbv beta. intros _ p2 t2 [C2 ->].
    cbn [outcome]. rewrite countb_app, E. cbn. split; [destruct acc; done|].
    eexists t, _. split; [done|apply finalInfo_closing].
Qed.

Lemma newState_run start acc trunk p :
  mspec (newState start acc trunk) p (fun _ p' t =>
    countb isEndedP t = 0%nat /\ recordOf p' = Some (acc, initialInfo (p_cc p) trunk) /\
    si_id (p_cc p') = si_id (p_cc p)).
Proof.
  unfold newState. mstep. mstep. mstep. mstep. cbn [app]. mstep.
  eapply mspec_mono; [by apply EmitP_quiet|]. cbv beta. intros _ p1 t1 (E1 & R1 & _ & T1).
  enough (mspec (match sipTryingAt (p_cc p) with
                 | Some t => onStateP (EmitSignalingEvent (inviteResponseEvent EventTryingSent (Some t) 100
                                                             (inviteCSeq (p_cc p))))
                 | None => mreturn tt
                 end) p1 (fun _ p' t => quietP p1 t p')) as Hq.
  { eapply mspec_mono; [apply Hq|]. cbv beta. intros _ p2 t2 (E2 & R2 & _ & T2).
    rewrite countb_app, E1, E2, R2, T2, R1, T1. done. }
  destruct (sipTryingAt (p_cc p)); [by apply EmitP_quiet|]. mstep. apply tr_refl.
Qed.

Lemma newInvite_reported s e req r p :
  pe_auth e = inr r ->
  mspec (newInvite s e req) p (fun rf p' t =>
    exists i, CallId i = si_id (p_cc p) /\ info_CallStatus i = SCS_CALL_INCOMING /\ EndedAtNs i = 0 /\
      reported (isChallenged s e req r) (ai_events r) i (si_id (p_cc p)) rf p' t).
Proof.
  intros Ha. unfold newInvite. rewrite Ha.
  mstep. eapply mspec_mono; [apply onMonP_quiet|]. cbv beta. intros _ p1 t1 (E1 & _ & _ & T1).
  mstep. eapply mspec_mono with (Q := fun _ p' t => quietP p1 t p').
  { apply mrel_when; [apply _|]. rel_step; [apply ProcessingP_quiet|rel_step]. }
  cbv beta. intros _ p2 t2 (E2 & _ & _ & T2). mstep. mstep.
  mstep. eapply mspec_mono; [apply onMonP_quiet|]. cbv beta. intros _ p3 t3 (E3 & _ & _ & T3).
  mstep. eapply mspec_mono; [apply newState_run|]. cbv beta. intros _ p4 t4 (E4 & R4 & T4).
  mstep. eapply mspec_mono; [apply FlushP_quiet|]. cbv beta. intros _ p5 t5 (E5 & R5 & _ & T5).
  mstep. eapply mspec_mono; [by apply EmitP_quiet|]. cbv beta. intros _ p6 t6 (E6 & R6 & _ & T6).
  eapply mspec_mono; [apply (onAuthResult_reported s e req r (ai_events r)); [by rewrite R6, R5, R4|reflexivity]|].
  cbv beta. intros rf p7 t7 H7. eexists. rewrite <- T1, <- T2, <- T3.
  assert (si_id (p_cc p6) = si_id (p_cc p3)) as T63 by congruence. rewrite T63 in H7.
  split_and!; [..|].
  4: { repeat (apply reported_after; [done|]). done. }
  all: cbn; congruence.
Qed.
End final.

(** C4: Every INVITE is accounted for.  An INVITE that starts something new and whose project is
    known is reported to its end exactly once: if it is challenged, it is left as
    incoming, with its record in the hands of the current challenge timer and no end
    reported; otherwise, rejected or handled as a call to its end, one ended event
    is sent (if events are accepted), and the last report of all gives the time of
    the end and says disconnected, or error with the reason. *)
Theorem processInvite_reports `{ErrorText, AEAD, DigestLib, DigestClient} s e req cm cc r :
  pe_srcOK e = true ->
  newInbound (fun callID tag => provisionalInvites cm !! (callID, tag)) (pe_freshID e) req = inr cc ->
  startsNew cc cm -> pe_auth e = inr r ->
  let '(res, cm', t) := processInvite s e req cm in
  match res with
  | PRet err =>
      if isChallenged s e req r then
        countb isEndedP t = 0%nat /\
        exists i, waitsForRetry (si_id cc) i cm' /\ CallId i = si_id cc /\
                  info_CallStatus i = SCS_CALL_INCOMING /\ EndedAtNs i = 0
      else
        countb isEndedP t = (if ai_events r then 1 else 0)%nat /\
        exists t0 i, t = t0 ++ [PState (HandleUpdate i)] /\ closingReport (pe_endAt e) err i
  | _ => True
  end.
Proof.
  intros Hs Hn (N1 & N2 & N3) Ha. unfold processInvite. rewrite Hs, Hn. cbn [negb].
  match goal with |- context [mbind' _ _ ?p] => set (p0 := p) end.
  assert (mspec (dispatchInvite s e req) p0 (fun rf p' t => exists i,
            CallId i = si_id cc /\ info_CallStatus i = SCS_CALL_INCOMING /\ EndedAtNs i = 0 /\
            reported (isChallenged s e req r) (ai_events r) i (si_id cc) rf p' t)) as Hd.
  { unfold dispatchInvite. mstep. mstep. cbn [p_cm p_cc p0]. rewrite N1, N2, N3.
    by apply (newInvite_reported s e req r p0). }
  enough (mspec (let* rf := dispatchInvite s e req in
                 match rf with
                 | (PRet err, f) => do* finalize e f err in mreturn (PRet err)
                 | (r, _) => mreturn r
                 end)%go p0 (outcome (isChallenged s e req r) (ai_events r) e (si_id cc))) as Ho.
  { unfold mspec in Ho. destruct (mbind' _ _ p0) as [[res p'] t]. destruct res as [| |err]; [done..|].
    cbn [outcome] in Ho. destruct (isChallenged s e req r); [exact Ho|].
    destruct Ho as (E & t0 & i & -> & C). split; [exact E|]. by exists (PInviteReqRaw :: t0), i. }
  mstep. eapply mspec_mono; [exact Hd|]. cbv beta. intros rf p1 t1 (i & I1 & I2 & I3 & Hr).
  destruct rf as [[| |err] f]; [by mstep..|]. mstep.
  eapply mspec_mono; [by eapply finalize_outcome|]. cbv beta. intros _ p2 t2 Ho. mstep.
  by rewrite app_nil_r.
Qed.

(** ** Retries of a rejected INVITE *)
Definition isLookup (e : PEffect) : bool := match e with PAuthLookup => true | _ => false end.

(** The responses sent in the INVITE's transaction, but for the 100. *)
Definition finalsP : list PEffect -> list (Z * string) :=
  omap (fun e => match e with
                 | PSip (DRespond code reason _ true) => if code <? 200 then None else Some (code, reason)
                 | _ => None
                 end).

Section replay.
Context `{ErrorText, AEAD, DigestLib, DigestClient}.

(** The answers of the lookup that [RespondAndDrop] answers. *)
Definition rejection (r : error + AuthInfo) : option (Z * string) :=
  match r with
  | inl _ => Some (503, "Try again later")
  | inr a =>
      match ai_Result a with
      | AuthNotFound => Some (404, "Does not match any SIP Trunks")
      | AuthQuotaExceeded | AuthRouteNotAllowed => Some (503, "Service temporarily unavailable")
      | AuthNoTrunkFound => Some (404, "No trunk found")
      | AuthFailureOther | AuthRejectedAsError => Some (403, "Auth failure")
      | _ => None
      end
  end.

Definition keyOf (cc : sipInbound) : string * string := (si_sipCallID cc, si_tag cc).

(** A step with no final response. *)
Definition silentP (p : pstate) (t : list PEffect) (p' : pstate) : Prop :=
  finalsP t = [] /\ countb isLookup t = 0%nat /\
  rejectedInvites (p_cm p') = rejectedInvites (p_cm p) /\
  keyOf (p_cc p') = keyOf (p_cc p) /\ inviteTx (p_cc p') = inviteTx (p_cc p).

#[global] Instance silentP_rel : TraceRel silentP.
Proof.
  split; [done|]. intros p1 t1 p2 t2 p3 (F1 & L1 & R1 & K1 & X1) (F2 & L2 & R2 & K2 & X2). unfold silentP, finalsP in *.
  rewrite omap_app, countb_app, F1, F2. split_and!; done || congruence || lia.
Qed.

Lemma onMonP_silent {A} (m : M CallMonitor MEffect A) : mrel silentP (onMonP m).
Proof.
  intros p. unfold mspec, onMonP. destruct (m (p_mon p)) as [[a mon] t]. unfold silentP. cbn.
  split_and!; try done; (induction t as [|x t IH]; [done|]); cbn [map]; by rewrite ?countb_cons.
Qed.

Lemma onStateP_silent m : mrel silentP (onStateP m).
Proof.
  intros p. unfold mspec, onStateP. destruct (p_st p) as [st|]; [|apply tr_refl].
  destruct (m st) as [[a st'] t]. unfold silentP. cbn.
  split_and!; try done; (induction t as [|x t IH]; [done|]); cbn [map]; by rewrite ?countb_cons.
Qed.

Lemma newState_silent start acc trunk : mrel silentP (newState start acc trunk).
Proof.
  unfold newState. repeat lazymatch goal with
    | |- mrel _ (onStateP _) => apply onStateP_silent
    | |- mrel _ _ => rel_step
    | |- _ => done
    end.
Qed.

Lemma Processing_silent now sent : mrel silentP (onCCP (Processing now sent)).
Proof.
  intros p. unfold mspec, onCCP, Processing, respond, respondWithData, mbind', mget, memit, mreturn.
  destruct (sipTryingAt (p_cc p)); [done|].
  destruct (inviteTx (p_cc p)) eqn:Ex; [|done]. by destruct sent.
Qed.

(** Final responses and cache entries, in the dialog. *)
Definition finalD (e : DEffect) : option (Z * string) :=
  match e with
  | DRespond code reason _ true => if code <? 200 then None else Some (code, reason)
  | _ => None
  end.
Definition cacheD (e : DEffect) : option (string * string * (Z * string)) :=
  match e with DCacheRejected callID tag status reason => Some (callID, tag, (status, reason)) | _ => None end.

Definition insertAll (l : list (string * string * (Z * string))) (m : gmap (string * string) (Z * string)) :=
  fold_left (fun m kv => <[kv.1 := kv.2]> m) l m.

Lemma dialogEffectsP_finals l p :
  mspec (dialogEffectsP l) p (fun _ p' t =>
    finalsP t = omap finalD l /\ countb isLookup t = 0%nat /\
    rejectedInvites (p_cm p') = insertAll (omap cacheD l) <$> rejectedInvites (p_cm p)).
Proof.
  revert p. induction l as [|x l IH]; intros p; cbn [dialogEffectsP].
  { mstep. split_and!; try done. cbn. by destruct (rejectedInvites (p_cm p)). }
  destruct x; mstep;
    try (mstep; eapply mspec_mono; [apply IH|]; cbv beta; intros _ p' t (F & L & R);
         cbn; rewrite <- F; by (split_and!; [repeat case_match|..])).
  - eapply mspec_mono; [apply onStateP_silent|]. cbv beta. intros _ p1 t1 (F1 & L1 & R1 & _).
    eapply mspec_mono; [apply IH|]. cbv beta. intros _ p' t (F & L & R). unfold finalsP in *.
    rewrite omap_app, countb_app, F1, L1, F, L, R, R1. done.
  - unfold onCM. mstep. mstep. mstep. eapply mspec_mono; [apply IH|]. cbv beta. intros _ p' t (F & L & R).
    cbn in *. rewrite F, R. split_and!; try done. by destruct (rejectedInvites (p_cm p)).
Qed.

Definition silentD (s : sipInbound) (t : list DEffect) (s' : sipInbound) : Prop :=
  omap finalD t = [] /\ omap cacheD t = [] /\ keyOf s' = keyOf s.

#[global] Instance silentD_rel : TraceRel silentD.
Proof.
  split; [done|]. intros s1 t1 s2 t2 s3 (F1 & C1 & K1) (F2 & C2 & K2). unfold silentD.
  rewrite !omap_app, F1, F2, C1, C2. split_and!; done || congruence.
Qed.

Ltac silent := unfold setLastStatus, emitRejected, emit, drop, stopRinging;
  repeat lazymatch goal with
  | |- mrel _ _ => rel_step
  | |- silentD _ _ (if ?b then _ else _) => destruct b
  | |- _ => done
  end.

Lemma RespondAndDrop_run s now status reason :
  inviteTx s = true -> 300 <= status -> reason <> "" -> si_sipCallID s <> "" ->
  mspec (RespondAndDrop true now true status reason) s (fun _ _ t =>
    omap finalD t = [(status, reason)] /\ omap cacheD t = [(keyOf s, (status, reason))]).
Proof.
  intros Hx Hs Hr Hc. unfold RespondAndDrop. mstep.
  assert (mspec stopRinging s (fun _ s1 t => silentD s t s1 /\ inviteTx s1 = true)) as Hring.
  { unfold stopRinging. mstep. mstep. destruct (ringing s); repeat mstep; done. }
  eapply mspec_mono; [exact Hring|]. cbv beta. clear Hring. intros _ s1 t1 [(F1 & C1 & K1) X1].
  mstep. unfold respond, respondWithData. mstep. mstep. rewrite X1. cbn [negb]. mstep. mstep. cbn [negb].
  rewrite (proj2 (String.eqb_neq reason "") Hr). cbn [newResponse or_Code or_Reason or_Body].
  rewrite (proj2 (String.eqb_neq reason "") Hr). mstep.
  eapply mspec_mono with (Q := fun _ s' t => silentD s1 t s').
  { enough (mrel silentD (setLastStatus status reason)) as Hq by apply Hq. silent. }
  cbv beta. intros _ s2 t2 (F2 & C2 & K2). mstep.
  eapply mspec_mono with (Q := fun _ s' t => silentD s2 t s').
  { enough (mrel silentD (emitRejected now status reason)) as Hq by apply Hq. silent. }
  cbv beta. intros _ s3 t3 (F3 & C3 & K3). mstep. mstep.
  eapply mspec_mono with (Q := fun _ s' t => silentD s3 t s').
  { enough (mrel silentD drop) as Hq by apply Hq. silent. }
  cbv beta. intros _ s4 t4 (F4 & C4 & K4). mstep. mstep.
  assert (keyOf s4 = keyOf s) as K by congruence. assert (si_sipCallID s4 = si_sipCallID s) as Kc by (unfold keyOf in K; congruence).
  rewrite Kc, (proj2 (String.eqb_neq _ _) Hc), (proj2 (Z.leb_le 300 status) Hs). cbn [andb negb mwhen].
  mstep. repeat rewrite omap_app || rewrite app_nil_r || cbn [omap list_omap app].
  rewrite F1, C1, F2, C2, F3, C3, F4, C4. cbn.
  rewrite (proj2 (Z.ltb_ge status 200)) by lia. split; [done|]. by rewrite <- K, <- Kc.
Qed.

(** [RespondAndDrop] of a pending INVITE. *)
Lemma RespondAndDrop_replies p m now status reason :
  inviteTx (p_cc p) = true -> rejectedInvites (p_cm p) = Some m -> 300 <= status -> reason <> "" ->
  si_sipCallID (p_cc p) <> "" ->
  mspec (onCCP (RespondAndDrop true now true status reason)) p (fun _ p' t =>
    finalsP t = [(status, reason)] /\ countb isLookup t = 0%nat /\
    rejectedInvites (p_cm p') = Some (<[keyOf (p_cc p) := (status, reason)]> m)).
Proof.
  intros Hx Hm Hs Hr Hc. unfold mspec, onCCP.
  pose proof (RespondAndDrop_run (p_cc p) now status reason Hx Hs Hr Hc) as Hd. unfold mspec in Hd.
  destruct (RespondAndDrop _ _ _ _ _ (p_cc p)) as [[u cc] t]. destruct Hd as [F C].
  match goal with |- context [dialogEffectsP t ?q] =>
    pose proof (dialogEffectsP_finals t q) as He; unfold mspec in He; destruct (dialogEffectsP t q) as [[v p'] t'] end.
  destruct He as (F' & L' & R'). rewrite F', R', F, C. cbn. by rewrite Hm.
Qed.

Lemma newInbound_pending cached fresh req cc :
  newInbound cached fresh req = inr cc -> inviteTx cc = true /\ si_sipCallID cc <> "".
Proof.
  unfold newInbound. destruct (String.eqb_spec (default "" (req_CallID req)) ""); [done|].
  destruct (req_From req); [|done]. case_match; [done|]. destruct (req_To req); [|done].
  by intros [= <-].
Qed.

(** The replies of a run, and what it leaves in the cache. *)
Definition replies (key : string * string) (m : gmap (string * string) (Z * string))
    (code : Z) (reason : string) (p' : pstate) (t : list PEffect) : Prop :=
  finalsP t = [(code, reason)] /\ rejectedInvites (p_cm p') = Some (<[key := (code, reason)]> m).

Definition pending (key : string * string) (m : gmap (string * string) (Z * string)) (p : pstate) : Prop :=
  inviteTx (p_cc p) = true /\ rejectedInvites (p_cm p) = Some m /\ keyOf (p_cc p) = key /\ key.1 <> "".

Lemma pending_silent key m p t p' : silentP p t p' -> pending key m p -> pending key m p'.
Proof. intros (_ & _ & R & K & X) (X0 & R0 & K0 & N). unfold pending. split_and!; congruence. Qed.

Lemma replies_bind {A} (m1 : M pstate PEffect A) (f : A -> M pstate PEffect (PResult * Finalize)) key m code reason p :
  mrel silentP m1 -> pending key m p ->
  (forall a p1, pending key m p1 -> mspec (f a) p1 (fun _ => replies key m code reason)) ->
  mspec (mbind' m1 f) p (fun _ => replies key m code reason).
Proof.
  intros H1' Hp Hf. mstep. eapply mspec_mono; [apply H1'|]. cbv beta. intros a p1 t1 Hq.
  eapply mspec_mono; [apply Hf; by eapply pending_silent|]. cbv beta. intros b p2 t2 [F R].
  destruct Hq as (F1 & _). unfold replies, finalsP in *. by rewrite omap_app, F1, F.
Qed.

(** The rejection, followed by steps without a reply. *)
Lemma replies_reject {B} (f : unit -> M pstate PEffect B) e key m code reason p :
  pending key m p -> pe_sent e = true -> 300 <= code -> reason <> "" -> (forall a, mrel silentP (f a)) ->
  mspec (mbind' (let* p := mget in
           onCCP (RespondAndDrop (bool_decide (is_Some (rejectedInvites (p_cm p)))) (pe_now e) (pe_sent e)
                    code reason))%go f) p (fun _ => replies key m code reason).
Proof.
  intros (X & R & K & N) Hs Hc Hr Hf. mstep. mstep. mstep. rewrite R, Hs.
  rewrite bool_decide_eq_true_2 by by eexists.
  eapply mspec_mono; [apply RespondAndDrop_replies; try done; by subst key|]. cbv beta.
  intros u p1 t1 (F1 & _ & R1). eapply mspec_mono; [apply Hf|]. cbv beta. intros b p2 t2 (F2 & _ & R2 & _).
  unfold replies, finalsP in *. rewrite !omap_app, F1, F2, R2, R1, K. done.
Qed.

Lemma newInvite_replies s e req key m code reason p :
  pending key m p -> pe_sent e = true -> rejection (pe_auth e) = Some (code, reason) ->
  mspec (newInvite s e req) p (fun _ => replies key m code reason).
Proof.
  intros Hp Hs Hj. unfold newInvite.
  apply replies_bind; [apply onMonP_silent|done|]. clear p Hp. intros _ p Hp.
  apply replies_bind; [|done|].
  { rel_step. rel_step; [apply Processing_silent|]. rel_step. }
  clear p Hp. intros _ p Hp. mstep. mstep.
  apply (mspec_mono _ _ (fun _ => replies key m code reason)); [|done].
  destruct (pe_auth e) as [err|r]; cbn [rejection] in Hj.
  - injection Hj as <- <-.
    apply replies_bind; [apply onMonP_silent|done|]. clear p Hp. intros _ p Hp.
    apply replies_bind; [apply newState_silent|done|]. clear p Hp. intros _ p Hp.
    apply replies_bind; [apply onStateP_silent|done|]. clear p Hp. intros _ p Hp.
    apply replies_reject; [done..|]. intros _. rel_step; [rel_step|]. rel_step; [apply onStateP_silent|rel_step].
  - apply replies_bind; [apply onMonP_silent|done|]. clear p Hp. intros _ p Hp.
    apply replies_bind; [apply newState_silent|done|]. clear p Hp. intros _ p Hp.
    apply replies_bind; [apply onStateP_silent|done|]. clear p Hp. intros _ p Hp.
    apply replies_bind; [apply onStateP_silent|done|]. clear p Hp. intros _ p Hp.
    unfold onAuthResult. destruct (ai_Result r); try discriminate Hj; injection Hj as <- <-;
      (apply replies_bind; [apply onMonP_silent|done|]; clear p Hp; intros _ p Hp;
       apply replies_reject; [done..|]; intros _; rel_step).
Qed.

Lemma finalize_silent e f err : mrel silentP (finalize e f err).
Proof.
  unfold finalize. rel_step; [rel_step|]. destruct f; repeat lazymatch goal with
    | |- mrel _ (onStateP _) => apply onStateP_silent | |- _ => rel_step end.
Qed.

Lemma processInvite_replies s e req cm cc m code reason :
  pe_srcOK e = true -> pe_sent e = true -> rejectedInvites cm = Some m ->
  newInbound (fun callID tag => provisionalInvites cm !! (callID, tag)) (pe_freshID e) req = inr cc ->
  startsNew cc cm -> rejection (pe_auth e) = Some (code, reason) ->
  let '(_, cm', t) := processInvite s e req cm in
  finalsP t = [(code, reason)] /\ rejectedInvites cm' = Some (<[keyOf cc := (code, reason)]> m).
Proof.
  intros S1 T1 Hm Hn (N1 & N2 & N3) Hj. unfold processInvite. rewrite S1, Hn. cbn [negb].
  match goal with |- context [mbind' ?f ?g ?p] => set (p0 := p);
    enough (mspec (mbind' f g) p0 (fun _ => replies (keyOf cc) m code reason)) as Hs;
    [unfold mspec in Hs; by destruct (mbind' f g p0) as [[r p'] t]|] end.
  mstep. unfold dispatchInvite. mstep. mstep. cbn [p_cm p_cc p0]. rewrite N1, N2, N3.
  destruct (newInbound_pending _ _ _ _ Hn) as [X N].
  eapply mspec_mono; [by apply newInvite_replies|]. cbv beta. intros [r f] p1 t1 [F R].
  eapply mspec_mono with (Q := fun _ p' t => silentP p1 t p').
  { destruct r as [| |err]; [by mstep..|].
    enough (mrel silentP (do* finalize e f err in mreturn (PRet err))%go) as Hq by apply Hq.
    rel_step; [apply finalize_silent|rel_step]. }
  cbv beta. intros _ p2 t2 (F2 & _ & R2 & _).
  unfold replies, finalsP in *. cbn [app]. by rewrite omap_app, F, F2, R2, R.
Qed.

(** With no record, the dialog's events go nowhere. *)
Lemma dialogEffectsP_none l p :
  p_st p = None ->
  mspec (dialogEffectsP l) p (fun _ _ t => Forall (fun e => match e with PState _ => False | _ => True end) t).
Proof.
  revert p. induction l as [|x l IH]; intros p Hp; cbn [dialogEffectsP]; [by mstep|].
  destruct x; mstep; unfold onCM;
    try (mstep; eapply mspec_mono; [by apply IH|]; cbv beta; intros; by constructor).
  - unfold mspec at 1, onStateP. rewrite Hp. eapply mspec_mono; [by apply IH|]. done.
  - mstep. mstep. mstep. eapply mspec_mono; [by apply IH|]. cbv beta. intros; by constructor.
Qed.

Lemma processInvite_replayed s e req cm cc m code reason :
  pe_srcOK e = true -> pe_sent e = true -> rejectedInvites cm = Some m ->
  newInbound (fun callID tag => provisionalInvites cm !! (callID, tag)) (pe_freshID e) req = inr cc ->
  m !! keyOf cc = Some (code, reason) -> 300 <= code -> reason <> "" ->
  let '(r, _, t) := processInvite s e req cm in
  finalsP t = [(code, reason)] /\ r = PRet None /\ countb isLookup t = 0%nat /\
  Forall (fun e => match e with PState _ => False | _ => True end) t.
Proof.
  intros S1 T1 Hm Hn Hl Hc Hr. unfold processInvite. rewrite S1, Hn. cbn [negb].
  match goal with |- context [mbind' ?f ?g ?p] => set (p0 := p);
    enough (mspec (mbind' f g) p0 (fun r _ t => finalsP t = [(code, reason)] /\ r = PRet None /\
              countb isLookup t = 0%nat /\
              Forall (fun e => match e with PState _ => False | _ => True end) t)) as Hs;
    [unfold mspec in Hs; destruct (mbind' f g p0) as [[r p'] t];
     destruct Hs as (? & ? & ? & ?); split_and!; try done; by constructor|] end.
  destruct (newInbound_pending _ _ _ _ Hn) as [X N].
  mstep. unfold dispatchInvite. mstep. mstep. cbn [p_cm p_cc p0]. rewrite Hm. cbn [mbind option_bind].
  unfold keyOf in Hl. rewrite Hl, T1. mstep.
  pose proof (RespondAndDrop_replies p0 m (pe_now e) code reason X Hm Hc Hr N) as Hq.
  unfold mspec, onCCP in Hq |- *. destruct (RespondAndDrop _ _ _ _ _ (p_cc p0)) as [[u cc'] t].
  match goal with |- context [dialogEffectsP t ?q] =>
    pose proof (dialogEffectsP_none t q eq_refl) as He; unfold mspec in He;
    destruct (dialogEffectsP t q) as [[v p'] t'] end.
  destruct Hq as (F & L & _). cbn. rewrite !app_nil_r. done.
Qed.

Lemma rejection_code r code reason : rejection r = Some (code, reason) -> 300 <= code /\ reason <> "".
Proof. unfold rejection. intros Hr. repeat case_match; try done; by injection Hr as <- <-. Qed.
End replay.

(** C33: A retry of a rejected INVITE is answered as the first was.  When the manager keeps its
    cache and the auth service rejects an INVITE or cannot be reached, the caller
    gets the one final response of that answer; another INVITE with the same Call-ID
    and From tag, whatever its To tag and CSeq and whatever the service would answer
    now, gets the same response again, without asking the service and without
    anything being reported. *)
Theorem rejection_replayed `{ErrorText, AEAD, DigestLib, DigestClient}
    s e1 e2 req1 req2 cm cc1 cc2 m code reason :
  pe_srcOK e1 = true -> pe_srcOK e2 = true -> pe_sent e1 = true -> pe_sent e2 = true ->
  rejectedInvites cm = Some m ->
  newInbound (fun callID tag => provisionalInvites cm !! (callID, tag)) (pe_freshID e1) req1 = inr cc1 ->
  startsNew cc1 cm -> rejection (pe_auth e1) = Some (code, reason) ->
  let '(r1, cm', t1) := processInvite s e1 req1 cm in
  newInbound (fun callID tag => provisionalInvites cm' !! (callID, tag)) (pe_freshID e2) req2 = inr cc2 ->
  keyOf cc2 = keyOf cc1 ->
  let '(r2, _, t2) := processInvite s e2 req2 cm' in
  finalsP t1 = [(code, reason)] /\ finalsP t2 = [(code, reason)] /\ r2 = PRet None /\
  countb isLookup t2 = 0%nat /\ Forall (fun e => match e with PState _ => False | _ => True end) t2.
Proof.
  intros S1 S2 T1 T2 Hm Hn N Hj. destruct (rejection_code _ _ _ Hj) as [Hc Hr].
  pose proof (processInvite_replies s e1 req1 cm cc1 m code reason S1 T1 Hm Hn N Hj) as H1'.
  destruct (processInvite s e1 req1 cm) as [[r1 cm'] t1]. destruct H1' as [F1 R1]. intros Hn2 Hk.
  pose proof (processInvite_replayed s e2 req2 cm' cc2 _ code reason S2 T2 R1 Hn2
                ltac:(by rewrite Hk, lookup_insert_eq) Hc Hr) as H2'.
  by destruct (processInvite s e2 req2 cm') as [[r2 cm2] t2].
Qed.

(** ** What an INVITE leaves in the manager *)
Definition sameTimers (cm cm' : callManager) : Prop :=
  forall id, ci_timers (getCallInfo id cm') = ci_timers (getCallInfo id cm) /\
             ci_fire (getCallInfo id cm') = ci_fire (getCallInfo id cm).

Definition dialogOK (cc : sipInbound) : Prop := exists tr, dinv cc (counts tr).

(** A step that changes neither the timers nor the registered calls. *)
Definition stepP (p : pstate) (_ : list PEffect) (p' : pstate) : Prop :=
  sameTimers (p_cm p) (p_cm p') /\ cm_byLocalTag (p_cm p') = cm_byLocalTag (p_cm p) /\
  cm_activeCalls (p_cm p') = cm_activeCalls (p_cm p) /\ si_id (p_cc p') = si_id (p_cc p) /\
  (dialogOK (p_cc p) -> dialogOK (p_cc p')) /\ (is_Some (p_st p) -> is_Some (p_st p')).

#[global] Instance stepP_rel : TraceRel stepP.
Proof.
  split; [done|]. intros p1 t1 p2 t2 p3 (T1 & B1 & A1 & I1 & D1 & S1) (T2 & B2 & A2 & I2 & D2 & S2).
  split_and!; try congruence; auto. intros id. destruct (T1 id), (T2 id). split; congruence.
Qed.

Section manager_steps.
Context `{ErrorText, AEAD, DigestLib, DigestClient}.

Lemma onMonP_step {A} (m : M CallMonitor MEffect A) : mrel stepP (onMonP m).
Proof. intros p. unfold mspec, onMonP. by destruct (m (p_mon p)) as [[a mon] t]. Qed.

Lemma onStateP_step m : mrel stepP (onStateP m).
Proof.
  intros p. unfold mspec, onStateP. destruct (p_st p) as [st|] eqn:E; [|apply tr_refl].
  destruct (m st) as [[a st'] t]. split_and!; try done.
Qed.

Lemma dialogEffectsP_step l : mrel stepP (dialogEffectsP l).
Proof.
  induction l as [|x l IH]; cbn [dialogEffectsP]; [rel_step|].
  destruct x; unfold onCM; repeat lazymatch goal with
    | |- mrel _ (dialogEffectsP _) => exact IH
    | |- mrel _ (onStateP _) => apply onStateP_step
    | |- mrel _ _ => rel_step
    | |- _ => done
    end.
Qed.

Lemma onCCP_step {A} (m : M sipInbound DEffect A) : mrel dlgR m -> mrel sameTag m -> mrel stepP (onCCP m).
Proof.
  intros Hm Ht p. unfold mspec, onCCP. specialize (Hm (p_cc p)). specialize (Ht (p_cc p)).
  unfold mspec in Hm, Ht. destruct (m (p_cc p)) as [[a cc] t].
  pose proof (dialogEffectsP_step t {| p_cm := p_cm p; p_cc := cc; p_st := p_st p; p_mon := p_mon p |}) as Hq.
  unfold mspec in Hq. destruct (dialogEffectsP t _) as [[u p'] t'].
  destruct Hq as (T & B & A' & I & D & S). split_and!; try done; cbn in *; [congruence|].
  intros [tr Htr]. apply D. exists (tr ++ t). by apply Hm.
Qed.

Lemma newState_step start acc trunk : mrel stepP (newState start acc trunk).
Proof.
  unfold newState. repeat lazymatch goal with
    | |- mrel _ (onStateP _) => apply onStateP_step
    | |- mrel _ _ => rel_step
    | |- _ => done
    end.
Qed.

Lemma Processing_step now sent : mrel stepP (onCCP (Processing now sent)).
Proof.
  apply onCCP_step; [apply dlgR_bare, (dlgR_op (OProcessing now sent)); done|].
  unfold Processing. repeat (lazymatch goal with
          | |- mrel _ (respond _ _ _ _) => apply respond_tag
          | |- mrel _ _ => rel_step | |- _ => done end).
Qed.

Lemma countCall_step req : mrel stepP (countCall req).
Proof.
  intros p. unfold countCall. mstep. mstep. unfold onCM. mstep. split_and!; try done.
  intros id. unfold getCallInfo. cbn. destruct (decide (id = si_id (p_cc p))) as [->|].
  - by rewrite lookup_insert_eq.
  - by rewrite lookup_insert_ne.
Qed.

Lemma rejectedBy_keeps l cm :
  cm_infos (rejectedBy l cm) = cm_infos cm /\ cm_byLocalTag (rejectedBy l cm) = cm_byLocalTag cm /\
  cm_activeCalls (rejectedBy l cm) = cm_activeCalls cm.
Proof.
  revert cm. induction l as [|x l IH]; intros cm; [done|]. cbn. destruct x as [|[]| | | | | | | | | | | | | | | |];
    try apply IH. exact (IH (add_rejected (callID, tag) (status, reason) cm)).
Qed.

(** A call that ran to its end is registered no more. *)
Lemma startCall_step e p :
  dialogOK (p_cc p) -> mspec (startCall e) p (fun rf p' _ =>
    sameTimers (p_cm p) (p_cm p') /\ cm_activeCalls (p_cm p') = cm_activeCalls (p_cm p) /\
    match rf.1 with
    | PRet _ => cm_byLocalTag (p_cm p') = delete (si_id (p_cc p)) (cm_byLocalTag (p_cm p))
    | _ => True
    end).
Proof.
  intros Hd. unfold startCall. mstep. unfold mspec at 1, runCall, newInboundCall.
  destruct (p_st p) as [st|]; [|by mstep].
  match goal with |- context [handleInvite _ _ ?call] => set (c := call) end.
  pose proof (handleInvite_rel (pe_handle e) (pe_ext e) c) as Hl.
  pose proof (handleInvite_done (pe_handle e) (pe_ext e) c) as Hf. unfold mspec in Hl, Hf.
  destruct (handleInvite _ _ c) as [[r c'] t]. mstep. cbn [p_cm p_cc].
  destruct (rejectedBy_keeps t (upd_calls (fun _ => if ic_registered c'
    then <[si_id (p_cc p) := c']> (cm_byLocalTag (p_cm p))
    else delete (si_id (p_cc p)) (cm_byLocalTag (p_cm p))) (p_cm p))) as (Ri & Rb & Ra).
  split; [intros id; unfold getCallInfo; by rewrite Ri|]. split; [done|].
  destruct r as [| |err]; try done. destruct Hf as [Df _]. destruct Hl as (_ & _ & _ & _ & _ & K).
  destruct K as [_ Kc]; [split; [exact Hd|done]|]. destruct (Kc Df) as [_ Rg]. cbn. by rewrite Rb, Rg.
Qed.

(** What a whole INVITE keeps: the timers, the outbound calls; and the registration
    of its own tag is gone when its call has ended. *)
Definition kept (call : bool) (p : pstate) (rf : PResult * Finalize) (p' : pstate) (_ : list PEffect) : Prop :=
  sameTimers (p_cm p) (p_cm p') /\ cm_activeCalls (p_cm p') = cm_activeCalls (p_cm p) /\
  match rf.1 with
  | PRet _ => call = true -> cm_byLocalTag (p_cm p') = delete (si_id (p_cc p)) (cm_byLocalTag (p_cm p))
  | _ => True
  end.

Lemma kept_bind {A} (m : M pstate PEffect A) (f : A -> M pstate PEffect (PResult * Finalize)) b p :
  mrel stepP m -> dialogOK (p_cc p) ->
  (forall a p1, dialogOK (p_cc p1) -> mspec (f a) p1 (kept b p1)) ->
  mspec (mbind' m f) p (kept b p).
Proof.
  intros Hm Hd Hf. mstep. eapply mspec_mono; [apply Hm|]. cbv beta.
  intros a p1 t1 (T1 & B1 & A1 & I1 & D1 & _). eapply mspec_mono; [by apply Hf, D1|]. cbv beta.
  intros [r fz] p2 t2 (T2 & A2 & F2). unfold kept. rewrite <- I1, <- B1, A2, A1. split_and!; [|done..].
  intros id. destruct (T1 id), (T2 id). split; congruence.
Qed.

Lemma startCall_kept e b p : dialogOK (p_cc p) -> mspec (startCall e) p (kept b p).
Proof.
  intros Hd. eapply mspec_mono; [by apply startCall_step|]. cbv beta. intros [r f] p' t (T & A' & B).
  unfold kept. split_and!; try done. destruct r; try done. cbn in *. by intros _.
Qed.

Lemma rejectInvite_kept e t code reason err p :
  300 <= code -> dialogOK (p_cc p) -> mspec (rejectInvite e t code reason err) p (kept false p).
Proof.
  intros Hc Hd. unfold rejectInvite. apply kept_bind; [apply onMonP_step|done|]. clear p Hd. intros _ p Hd.
  apply kept_bind; [|done|intros; mstep; by split_and!]. rel_step; [rel_step|].
  apply onCCP_step; [by apply RespondAndDrop_op|apply RespondAndDrop_tag].
Qed.

Lemma newInvite_kept s e req r p :
  pe_auth e = inr r -> ai_Result r <> AuthPassword -> dialogOK (p_cc p) ->
  mspec (newInvite s e req) p (kept (bool_decide (ai_Result r = AuthAccept)) p).
Proof.
  intros Ha Hr Hd. unfold newInvite. rewrite Ha.
  apply kept_bind; [apply onMonP_step|done|]. clear p Hd. intros _ p Hd.
  apply kept_bind; [rel_step; rel_step; [apply Processing_step|rel_step]|done|]. clear p Hd. intros _ p Hd.
  apply kept_bind; [by rel_step|done|]. clear p Hd. intros _ p Hd.
  apply kept_bind; [apply onMonP_step|done|]. clear p Hd. intros _ p Hd.
  apply kept_bind; [apply newState_step|done|]. clear p Hd. intros _ p Hd.
  apply kept_bind; [apply onStateP_step|done|]. clear p Hd. intros _ p Hd.
  apply kept_bind; [apply onStateP_step|done|]. clear p Hd. intros _ p Hd.
  unfold onAuthResult. destruct (ai_Result r); try done; try rewrite bool_decide_eq_false_2 by done;
    try (apply rejectInvite_kept; [lia|done]); try by apply startCall_kept.
  - apply kept_bind; [apply onMonP_step|done|]. clear p Hd. intros _ p Hd.
    apply kept_bind; [|done|intros; mstep; by split_and!].
    apply onCCP_step; [apply drop_op|]. unfold drop, stopRinging. repeat (rel_step || done).
  - apply kept_bind; [apply countCall_step|done|]. intros. by apply startCall_kept.
Qed.

Lemma finalize_step e f err : mrel stepP (finalize e f err).
Proof.
  unfold finalize. rel_step; [rel_step|]. destruct f; repeat lazymatch goal with
    | |- mrel _ (onStateP _) => apply onStateP_step | |- _ => rel_step end.
Qed.

Lemma newInbound_dialogOK cached fresh req cc : newInbound cached fresh req = inr cc -> dialogOK cc.
Proof.
  unfold newInbound. case_match; [done|]. destruct (req_From req); [|done]. case_match; [done|].
  destruct (req_To req); [|done]. intros [= <-]. exists []. vm_compute. repeat split; lia || congruence.
Qed.

Lemma processInvite_kept s e req cm cc r :
  pe_srcOK e = true ->
  newInbound (fun callID tag => provisionalInvites cm !! (callID, tag)) (pe_freshID e) req = inr cc ->
  startsNew cc cm -> pe_auth e = inr r -> ai_Result r <> AuthPassword ->
  let '(res, cm', _) := processInvite s e req cm in
  sameTimers cm cm' /\ cm_activeCalls cm' = cm_activeCalls cm /\
  match res, ai_Result r with
  | PRet _, AuthAccept => cm_byLocalTag cm' = delete (si_id cc) (cm_byLocalTag cm)
  | _, _ => True
  end.
Proof.
  intros S1 Hn (N1 & N2 & N3) Ha Hr. unfold processInvite. rewrite S1, Hn. cbn [negb].
  match goal with |- context [mbind' ?f ?g ?p] => set (p0 := p);
    enough (mspec (mbind' f g) p0 (fun res p' t =>
              kept (bool_decide (ai_Result r = AuthAccept)) p0 (res, FinCall) p' t)) as Hs;
    [unfold mspec in Hs; destruct (mbind' f g p0) as [[res p'] t]|] end.
  { destruct Hs as (T & A' & B). split_and!; try done. destruct res; try done.
    destruct (ai_Result r); try done. by apply B, bool_decide_eq_true_2. }
  mstep. unfold dispatchInvite. mstep. mstep. cbn [p_cm p_cc p0]. rewrite N1, N2, N3.
  eapply mspec_mono; [apply (newInvite_kept _ _ _ r); try done; by eapply newInbound_dialogOK|]. cbv beta.
  intros [res f] p1 t1 K. destruct res as [| |err]; [by mstep..|]. mstep.
  eapply mspec_mono; [apply finalize_step|]. cbv beta. intros _ p2 t2 (T2 & B2 & A2 & _). mstep.
  destruct K as (T & A' & B). unfold kept. rewrite A2, B2. split_and!; try done.
  intros id. destruct (T id), (T2 id). split; congruence.
Qed.
End manager_steps.

(** A challenge outlives its retry.  The timer of a challenged INVITE is stopped by the next
    INVITE only if the auth service asks for a password again.  If it accepts,
    rejects or drops the retry, the timer goes on, and when it fires the record of
    the same call, whatever became of it, is set to error as if no retry had come. *)
Theorem challenge_outlives_retry `{ErrorText, AEAD, DigestLib, DigestClient} s e req cm cc r n pd :
  pe_srcOK e = true ->
  newInbound (fun callID tag => provisionalInvites cm !! (callID, tag)) (pe_freshID e) req = inr cc ->
  startsNew cc cm -> pe_auth e = inr r -> ai_Result r <> AuthPassword ->
  challengeTimer (ci_timers (getCallInfo (si_id cc) cm)) = Some n ->
  ci_fire (getCallInfo (si_id cc) cm) !! n = Some pd ->
  let '(_, cm', _) := processInvite s e req cm in
  exists i rest, (challengeFire (si_id cc) n cm').2 = HandleUpdate i :: rest /\
    CallId i = CallId (callInfo (pd_state pd)) /\ info_CallStatus i = SCS_ERROR /\
    info_Error i = "auth challenge issued, no authenticated retry received".
Proof.
  intros S1 Hn N Ha Hr Ht Hp. pose proof (processInvite_kept s e req cm cc r S1 Hn N Ha Hr) as Hk.
  destruct (processInvite s e req cm) as [[res cm'] t]. destruct Hk as (T & _). destruct (T (si_id cc)) as [T1 T2].
  unfold challengeFire, timerFunc. rewrite T1, T2, Hp, Ht, decide_True by done. 
  unfold trace_of, Update, EmitSignalingEvent, flushLocked, mbind', mget, mput, mmodify, memit, mreturn. cbn.
  destruct (acceptsEvents (pd_state pd)); cbn; eexists _, _; split_and!; reflexivity.
Qed.

(** A stale INVITE takes the place of a call.  An INVITE with the tag of a running inbound
    call and a CSeq that is not higher is neither a re-INVITE nor an error: it is
    handled as a call of its own under the same tag.  When that call ends, the
    running one is no longer registered, and its BYE is answered 481. *)
Theorem stale_invite_unregisters `{ErrorText, AEAD, DigestLib, DigestClient} s e req cm cc r c0 now ce bye :
  pe_srcOK e = true ->
  newInbound (fun callID tag => provisionalInvites cm !! (callID, tag)) (pe_freshID e) req = inr cc ->
  (rejectedInvites cm ≫= fun m => m !! keyOf cc) = None ->
  cm_byLocalTag cm !! si_id cc = Some c0 -> inviteCSeq cc <= inviteCSeq (ic_cc c0) ->
  cm_activeCalls cm !! si_id cc = None ->
  pe_auth e = inr r -> ai_Result r = AuthAccept ->
  GetLocalTagUAS bye = inl (si_id cc) ->
  let '(res, cm', _) := processInvite s e req cm in
  match res with
  | PRet _ => cm_byLocalTag cm' !! si_id cc = None /\
              (HandleBye now ce bye true cm').2 = [PRespond (newResponse 481 "" "") None true]
  | _ => True
  end.
Proof.
  intros S1 Hn Hj Hc Hs Ho Ha Hr Hb.
  assert (startsNew cc cm) as N.
  { split_and!; [done| |by rewrite Ho]. rewrite Hc. cbn. by rewrite (proj2 (Z.ltb_ge _ _) Hs). }
  pose proof (processInvite_kept s e req cm cc r S1 Hn N Ha ltac:(by rewrite Hr)) as Hk.
  destruct (processInvite s e req cm) as [[res cm'] t]. destruct Hk as (_ & A' & B). rewrite Hr in B.
  destruct res; try done.
  assert (cm_byLocalTag cm' !! si_id cc = None) as Hl by by rewrite B, lookup_delete_eq.
  split; [done|]. unfold HandleBye. by rewrite Hb, Hl, A', Ho.
Qed.

(** ** Witnesses *)
#[local] Existing Instance exErrorText.
#[local] Existing Instance toyAEAD.
#[local] Existing Instance InboundAuth.exDigest.
#[local] Existing Instance SipOutbound.exDigest.

Definition exManager (calls : gmap string inboundCall) : callManager :=
  {| cm_byLocalTag := calls; cm_activeCalls := ∅; provisionalInvites := ∅; rejectedInvites := Some ∅;
     cm_infos := ∅ |}.

Definition exInviteEnv (r : AuthResult) : InviteEnv :=
  {| pe_start := 1; pe_srcOK := true; pe_freshID := "SCL_1"; pe_hide := false; pe_sent := true;
     pe_now := 4; pe_sdpUpdate := None; pe_localSDP := inr "";
     pe_auth := inr {| ai_Result := r; ai_TrunkID := "ST_1"; ai_ProviderType := PROVIDER_TYPE_UNKNOWN;
                       ai_ProviderName := ""; ai_Auth := exAuth; ai_events := true |};
     pe_authAt := 3; pe_authDur := 1; pe_errEvents := false; pe_rand := inr "abcdefghijkl";
     pe_authCheckAt := second; pe_nonceAt := second; pe_handle := exHandle; pe_ext := fun _ => [];
     pe_endAt := 60 |}.

Definition exSealer : AESGCM := {| aeads := ["new"] |}.

Definition exCC : sipInbound := exDialog.

Lemma exStartsNew : startsNew exCC (exManager ∅).
Proof. vm_compute. auto. Qed.

(** A call with a PIN, from the INVITE to the end, and a challenge. *)
Lemma processInvite_reports_witness :
  let '(r1, _, t1) := processInvite exSealer (exInviteEnv AuthAccept) exInvite (exManager ∅) in
  let '(r2, cm2, t2) := processInvite exSealer (exInviteEnv AuthPassword) exInvite (exManager ∅) in
  r1 = PRet None /\ countb isEndedP t1 = 1%nat /\
  countb isEndedP t2 = 0%nat /\ exists i, waitsForRetry "SCL_1" i cm2.
Proof.
  pose proof (processInvite_reports exSealer (exInviteEnv AuthAccept) exInvite (exManager ∅) exCC _
                eq_refl ltac:(vm_compute; reflexivity) exStartsNew eq_refl) as P1.
  pose proof (processInvite_reports exSealer (exInviteEnv AuthPassword) exInvite (exManager ∅) exCC _
                eq_refl ltac:(vm_compute; reflexivity) exStartsNew eq_refl) as P2.
  assert (R1 : (processInvite exSealer (exInviteEnv AuthAccept) exInvite (exManager ∅)).1.1 = PRet None)
    by (vm_compute; reflexivity).
  assert (R2 : exists err, (processInvite exSealer (exInviteEnv AuthPassword) exInvite (exManager ∅)).1.1 =
               PRet err) by (eexists; vm_compute; reflexivity).
  match type of P1 with context [isChallenged ?s ?e ?q ?r] =>
    replace (isChallenged s e q r) with false in P1 by (vm_compute; reflexivity) end.
  match type of P2 with context [isChallenged ?s ?e ?q ?r] =>
    replace (isChallenged s e q r) with true in P2 by (vm_compute; reflexivity) end.
  destruct (processInvite exSealer (exInviteEnv AuthAccept) exInvite _) as [[r1 cm1] t1].
  destruct (processInvite exSealer (exInviteEnv AuthPassword) exInvite _) as [[r2 cm2] t2].
  cbn in R1, R2. destruct R2 as [err ->]. subst r1. destruct P1 as [P1 _]. destruct P2 as (P2 & i & P3 & _).
  split_and!; [done|exact P1|exact P2|exists i; exact P3].
Defined.

Lemma rejection_replayed_witness :
  let '(_, cm, t1) := processInvite exSealer (exInviteEnv AuthNotFound) exInvite (exManager ∅) in
  let '(_, _, t2) := processInvite exSealer (exInviteEnv AuthAccept) exInvite cm in
  finalsP t1 = [(404, "Does not match any SIP Trunks")] /\ finalsP t2 = finalsP t1.
Proof.
  pose proof (rejection_replayed exSealer (exInviteEnv AuthNotFound) (exInviteEnv AuthAccept) exInvite exInvite
                (exManager ∅) exCC exCC ∅ 404 "Does not match any SIP Trunks" eq_refl eq_refl eq_refl eq_refl
                eq_refl ltac:(vm_compute; reflexivity) exStartsNew eq_refl) as P.
  assert (N : newInbound (fun callID tag => provisionalInvites
                (processInvite exSealer (exInviteEnv AuthNotFound) exInvite (exManager ∅)).1.2 !! (callID, tag))
                "SCL_1" exInvite = inr exCC) by (vm_compute; reflexivity).
  destruct (processInvite exSealer (exInviteEnv AuthNotFound) exInvite (exManager ∅)) as [[r1 cm] t1].
  cbn [fst snd] in N. specialize (P N eq_refl).
  destruct (processInvite exSealer (exInviteEnv AuthAccept) exInvite cm) as [[r2 cm2] t2].
  destruct P as (F1 & F2 & _). split; [exact F1|]. by rewrite F1, F2.
Defined.

Definition exChallenged : callManager :=
  (processInvite exSealer (exInviteEnv AuthPassword) exInvite (exManager ∅)).1.2.

Lemma challenge_outlives_retry_witness :
  let '(r, cm, _) := processInvite exSealer (exInviteEnv AuthAccept) exInvite exChallenged in
  exists i rest, (challengeFire "SCL_1" 0 cm).2 = HandleUpdate i :: rest /\
    CallId i = "SCL_1" /\ info_CallStatus i = SCS_ERROR.
Proof.
  pose (pd := {| pd_state := {| acceptsEvents := true; callInfo := initialInfo exCC "ST_1";
                                transferInfos := ∅; dirty := false |};
                 pd_at := 4; pd_status := {| res_Code := 407; res_Status := "Unauthorized" |} |}).
  pose proof (challenge_outlives_retry exSealer (exInviteEnv AuthAccept) exInvite exChallenged exCC _ 0%nat pd
                eq_refl ltac:(vm_compute; reflexivity) ltac:(vm_compute; auto) eq_refl ltac:(done)
                ltac:(vm_compute; reflexivity) ltac:(vm_compute; reflexivity)) as P.
  destruct (processInvite exSealer (exInviteEnv AuthAccept) exInvite exChallenged) as [[r cm] t].
  destruct P as (i & rest & P1 & P2 & P3 & _). exists i, rest. split; [exact P1|]. split; [exact P2|exact P3].
Defined.

Definition exBye : Request :=
  {| Method := "BYE"; Recipient := Recipient exInvite;
     req_To := Some {| Address := {| su_User := "b"; su_Host := "lk"; su_Port := 0; su_UriParams := ∅ |};
                       hdr_Params := {[ "tag" := "SCL_1" ]} |};
     req_From := req_From exInvite; req_Via := req_Via exInvite; req_CallID := Some "call-1";
     req_CSeq := Some 8; req_GetHeader := fun _ => None; req_Body := ""; req_Source := "10.0.0.1:5060" |}.

Lemma stale_invite_unregisters_witness :
  let cm0 := exManager {[ "SCL_1" := exICall ]} in
  let '(_, cm, _) := processInvite exSealer (exInviteEnv AuthAccept) exInvite cm0 in
  is_Some (cm_byLocalTag cm0 !! "SCL_1") /\
  (HandleBye 70 (exClose 70) exBye true cm).2 = [PRespond (newResponse 481 "" "") None true].
Proof.
  intros cm0.
  pose proof (stale_invite_unregisters exSealer (exInviteEnv AuthAccept) exInvite cm0 exCC _ exICall 70
                (exClose 70) exBye eq_refl ltac:(vm_compute; reflexivity) ltac:(vm_compute; reflexivity)
                ltac:(vm_compute; reflexivity) ltac:(vm_compute; discriminate) ltac:(vm_compute; reflexivity)
                eq_refl eq_refl ltac:(vm_compute; reflexivity)) as P.
  assert (R : (processInvite exSealer (exInviteEnv AuthAccept) exInvite cm0).1.1 = PRet None)
    by (vm_compute; reflexivity).
  destruct (processInvite exSealer (exInviteEnv AuthAccept) exInvite cm0) as [[r cm] t].
  cbn in R. subst r. destruct P as [_ P]. split; [by eexists|exact P].
Defined.
