(* ===== verification/InviteWire.v ===== *)
(** * What an INVITE gets for an answer

    The composition of the call manager ([Manager]), the inbound call ([InboundCall]) and the
    inbound dialog ([SipInbound]) with the specification of a user agent server ([Uas]):
    what the service sends in answer to an INVITE, on every path of [processInvite]. *)

From stdpp Require Import base tactics list gmap strings option.
From Stdlib Require Import ZArith Ascii Lia.
From S2P Require Import Prelude GoStd GoErr Participant Errors Types Protocol CallState CallCommon Monitor Sealer InboundAuth SipInbound Uas SipOutbound OutboundCall InboundCall Manager.

(** ** The dialog *)

(** Only final rejections are cached. *)
Definition okCache (e : DEffect) : Prop := match e with DCacheRejected _ _ status _ => 300 <= status | _ => True end.

(** An operation of the dialog: what the specification allows, and what may be cached. *)
Definition lawful {A} (m : M sipInbound DEffect A) : Prop := mrel simulates m /\ mtrace okCache m.

Ltac cache_step := repeat (trace_step || (cbn; done)).

Lemma setLastStatus_cache code reason : mtrace okCache (setLastStatus code reason).
Proof. unfold setLastStatus. cache_step. Qed.

Lemma respondWithData_cache now sent status reason body : mtrace okCache (respondWithData now sent status reason body).
Proof. unfold respondWithData, setLastStatus, emitRejected, emit. cache_step. Qed.

Lemma drop_cache : mtrace okCache drop.
Proof. unfold drop, stopRinging. cache_step. Qed.

Lemma AcceptAck_cache now cseq : mtrace okCache (AcceptAck now cseq).
Proof. unfold AcceptAck, emit. cache_step. Qed.

Lemma acceptLoop_cache fuel env r w mx try ra waited : mtrace okCache (acceptLoop fuel env r w mx try ra waited).
Proof.
  revert try ra waited. induction fuel as [|fuel IH]; intros; cbn [acceptLoop];
    repeat (trace_step || apply setLastStatus_cache || apply AcceptAck_cache || apply IH || (cbn; done)).
Qed.

Ltac cache_ops :=
  repeat (trace_step || apply drop_cache || apply respondWithData_cache || apply setLastStatus_cache || apply acceptLoop_cache
          || (cbn; done)).

Lemma StartRinging_lawful now sent : lawful (StartRinging now sent).
Proof. split; [apply StartRinging_simulates|]. unfold StartRinging, respond. cache_ops. Qed.

Lemma Processing_lawful now sent : lawful (Processing now sent).
Proof. split; [apply Processing_simulates|]. unfold Processing, respond. cache_ops. Qed.

Lemma ringTick_lawful now sent : lawful (ringTick now sent).
Proof. split; [apply ringTick_simulates|]. unfold ringTick, respond. cache_ops. Qed.

Lemma ringCancel_lawful now : lawful (ringCancel now).
Proof. split; [apply inner_mrel, ringCancel_inner|]. unfold ringCancel, emit. cache_ops. Qed.

Lemma AcceptAck_lawful now cseq : lawful (AcceptAck now cseq).
Proof. split; [apply inner_mrel, AcceptAck_inner | apply AcceptAck_cache]. Qed.

Lemma Accept_lawful env sdp w : lawful (Accept env sdp w).
Proof. split; [apply Accept_simulates|]. unfold Accept, acceptRetries, acceptFinish, stopRinging. cache_ops. Qed.

Lemma AcceptBye_lawful : lawful AcceptBye.
Proof. split; [apply AcceptBye_simulates|]. unfold AcceptBye. cache_ops. Qed.

Lemma drop_lawful : lawful drop.
Proof. split; [apply drop_simulates | apply drop_cache]. Qed.

Lemma SetOwnSDP_lawful sdp : lawful (SetOwnSDP sdp).
Proof. split; [apply inner_mrel|]; unfold SetOwnSDP; [by rel_step | cache_ops]. Qed.

Lemma setLastStatus_lawful code reason : lawful (setLastStatus code reason).
Proof. split; [apply inner_mrel, setLastStatus_inner | apply setLastStatus_cache]. Qed.

Lemma emitRejected_lawful now status reason : lawful (emitRejected now status reason).
Proof. split; [apply inner_mrel, emitRejected_inner|]. unfold emitRejected, emit. cache_ops. Qed.

Lemma RespondAndDrop_lawful cache now sent status reason : 300 <= status -> lawful (RespondAndDrop cache now sent status reason).
Proof. intros Hs. split; [by apply RespondAndDrop_simulates|]. unfold RespondAndDrop, respond, stopRinging. cache_ops. Qed.

Lemma CloseWithStatus_lawful now sent p e result : 300 <= res_Code result -> lawful (CloseWithStatus now sent p e result).
Proof.
  intros Hr. split; [apply CloseWithStatus_simulates; by right|].
  unfold CloseWithStatus, sendBye_inbound, sendStatus, takeCSeq, emitRejected, emit. cache_ops.
Qed.

#[export] Hint Resolve StartRinging_lawful Processing_lawful ringTick_lawful ringCancel_lawful AcceptAck_lawful Accept_lawful
  AcceptBye_lawful drop_lawful SetOwnSDP_lawful setLastStatus_lawful emitRejected_lawful : go.

(** The specification sees of a trace only the messages. *)
Lemma simulates_wires s t t' s' : wires t = wires t' -> simulates s t s' -> simulates s t' s'.
Proof. unfold simulates. by intros ->. Qed.

(** ** The call *)
Definition callR (c : inboundCall) (t : list IEffect) (c' : inboundCall) : Prop :=
  simulates (ic_cc c) (sipTrace t) (ic_cc c') /\ Forall okCache (sipTrace t).

#[export] Instance callR_rel : TraceRel callR.
Proof.
  split; unfold callR.
  - intros c. split; [apply (tr_refl (R := simulates)) | constructor].
  - intros c1 t1 c2 t2 c3 [S1 K1] [S2 K2]. rewrite sipTrace_app. split; [by eapply tr_trans | by apply Forall_app].
Qed.

(** Steps that leave the dialog alone. *)
Lemma callR_quiet c t c' : ic_cc c' = ic_cc c -> sipTrace t = [] -> callR c t c'.
Proof. intros Hc Ht. unfold callR. rewrite Hc, Ht. apply (tr_refl (R := callR) c). Qed.

Lemma onStateI_call {A} (m : M CallState HandlerCall A) : mrel callR (onStateI m).
Proof.
  intros c. unfold mspec, onStateI. destruct (m (ic_state c)) as [[a st] t]. apply callR_quiet; [done|]. by apply sipTrace_none.
Qed.

Lemma onMonI_call {A} (m : M CallMonitor MEffect A) : mrel callR (onMonI m).
Proof.
  intros c. unfold mspec, onMonI. destruct (m (ic_mon c)) as [[a mon] t]. apply callR_quiet; [done|]. by apply sipTrace_none.
Qed.

Lemma dialogEffectsI_wire l c : mspec (dialogEffectsI l) c (fun _ c' t =>
  ic_cc c' = ic_cc c /\ wires (sipTrace t) = wires l /\ (Forall okCache l -> Forall okCache (sipTrace t))).
Proof.
  revert c. induction l as [|e l IH]; intros c; cbn [dialogEffectsI]; [by mstep|].
  destruct e; try (do 2 mstep; (eapply mspec_mono; [apply IH|]); cbv beta; intros _ c' t (C & W & K); unfold sipTrace, wires in *;
    cbn [omap list_omap app wireOf]; rewrite ?W; split_and!; [done..|]; rewrite !list.Forall_cons; naive_solver).
  mstep. unfold mspec at 1, onStateI. destruct (EmitSignalingEvent ev (ic_state c)) as [[a st] t1].
  eapply mspec_mono; [apply IH|]. cbv beta. intros _ c' t (C & W & K). rewrite sipTrace_app, (sipTrace_none IState) by done.
  split_and!; [done..|]. rewrite list.Forall_cons. naive_solver.
Qed.

Lemma onCC_call {A} (m : M sipInbound DEffect A) : lawful m -> mrel callR (onCC m).
Proof.
  intros [Hm Hk] c. specialize (Hm (ic_cc c)). specialize (Hk (ic_cc c)). unfold mspec, onCC in *.
  destruct (m (ic_cc c)) as [[a cc] t]. pose proof (dialogEffectsI_wire t (updI (ic_state c) cc (ic_mon c) (ic_sigTs c) c)) as Hs.
  unfold mspec in Hs. destruct (dialogEffectsI t _) as [[u c'] t']. destruct Hs as (C & W & K). cbn [ic_cc updI] in C.
  unfold callR. rewrite C. split; [by apply (simulates_wires _ t) | auto].
Qed.

(** The lemmas of the functions of a call, found by their names. *)
Create HintDb callwire discriminated.
#[export] Hint Constants Opaque : callwire.
#[export] Hint Resolve onStateI_call onMonI_call : callwire.

Ltac call_step :=
  first
    [ solve [auto 1 with callwire nocore]
    | lazymatch goal with
      | |- mrel _ (onCC (RespondAndDrop _ _ _ _ _)) => apply onCC_call, RespondAndDrop_lawful; done
      | |- mrel _ (onCC (CloseWithStatus _ _ _ _ _)) => apply onCC_call, CloseWithStatus_lawful, closeResult_final
      | |- mrel _ (onCC _) => apply onCC_call; eauto with go
      | |- callR _ _ _ => by apply callR_quiet
      | |- _ => rel_step
      end ].

Section call.
Context `{ErrorText}.

Lemma setStatusI_call view v : mrel callR (setStatusI view v).
Proof. unfold setStatusI. repeat call_step. Qed.
#[local] Hint Resolve setStatusI_call : callwire.

Lemma closeI_call e end_ : mrel callR (closeI e end_).
Proof. unfold closeI, closeBody. repeat call_step. Qed.
#[local] Hint Resolve closeI_call : callwire.

Lemma closeWith_call e st t r : mrel callR (closeWith e st t r).
Proof. unfold closeWith. repeat call_step. Qed.
#[local] Hint Resolve closeWith_call : callwire.

Lemma mediaTimeout_call e : mrel callR (mediaTimeout e).
Proof. unfold mediaTimeout, closeWithNoACK, closeWithTimeoutI. repeat call_step. Qed.
#[local] Hint Resolve mediaTimeout_call : callwire.

Lemma runExts_call l : mrel callR (runExts l).
Proof.
  induction l as [|x l IH]; cbn [runExts]; [rel_step|]. rel_step; [|done].
  destruct x; cbn [runExt]; unfold byeInbound, Shutdown, closeWithTerm; repeat call_step.
Qed.
#[local] Hint Resolve runExts_call : callwire.

Lemma waitMedia_call e o : mrel callR (waitMedia e o).
Proof. unfold waitMedia, closeWithCancelled, closeWithHangup. repeat call_step. Qed.
#[local] Hint Resolve waitMedia_call : callwire.

Lemma waitSubscribe_call e n o : mrel callR (waitSubscribe e n o).
Proof. unfold waitSubscribe, closeWithCancelled, closeWithHangup. repeat call_step. Qed.
#[local] Hint Resolve waitSubscribe_call : callwire.

Lemma acceptCall_call e a sdp w : mrel callR (acceptCall e a sdp w).
Proof. unfold acceptCall, closeWithNoACK. repeat call_step. Qed.
#[local] Hint Resolve acceptCall_call : callwire.

Lemma updateCallStateAudio_call o : mrel callR (updateCallStateAudio o).
Proof. unfold updateCallStateAudio. repeat call_step. Qed.
#[local] Hint Resolve updateCallStateAudio_call : callwire.

Lemma acceptCallAndWaitForMedia_call e a sdp w late : mrel callR (acceptCallAndWaitForMedia e a sdp w late).
Proof.
  unfold acceptCallAndWaitForMedia, negotiateMediaForLateAnswer, waitForMedia.
  repeat call_step.
Qed.
#[local] Hint Resolve acceptCallAndWaitForMedia_call : callwire.

Lemma emitDispatch_call at_ dur b d : mrel callR (emitDispatch at_ dur b d).
Proof. unfold emitDispatch. repeat call_step. Qed.
#[local] Hint Resolve emitDispatch_call : callwire.

Lemma pinLoop_call e evs pin : mrel callR (pinLoop e evs pin).
Proof.
  revert pin. induction evs as [|ev evs IH]; intros pin; cbn [pinLoop]; [rel_step|].
  destruct ev; unfold pinDispatch, closeWithTerm, closeWithCancelled, closeWithHangup;
    repeat call_step.
Qed.
#[local] Hint Resolve pinLoop_call : callwire.

Lemma waitForCallEnd_call e a b evs : mrel callR (waitForCallEnd e a b evs).
Proof.
  revert a b. induction evs as [|ev evs IH]; intros a b; cbn [waitForCallEnd]; [rel_step|].
  destruct ev; unfold closeWithTerm, closeWithCancelled, closeWithHangup; repeat call_step.
Qed.
#[local] Hint Resolve waitForCallEnd_call : callwire.

Lemma rejectMedia_call cache sent e err : mrel callR (rejectMedia cache sent e err).
Proof.
  unfold rejectMedia, rejectMediaVerdict.
  destruct (errors.Is err sdp_ErrNoCommonMedia); [repeat call_step|].
  destruct (errors.Is err sdp_ErrNoCommonCrypto); [repeat call_step|].
  destruct (errors.AsSDPError err); repeat call_step.
Qed.
#[local] Hint Resolve rejectMedia_call : callwire.

Lemma inRoom_call e ext d p sdp late at_ : mrel callR (inRoom e ext d p sdp late at_).
Proof.
  unfold inRoom, joinRoom, closeWithTerm, closeWithCancelled, closeWithHangup.
  repeat call_step.
Qed.
#[local] Hint Resolve inRoom_call : callwire.

Lemma dispatched_call e ext p : mrel callR (dispatched e ext p).
Proof.
  unfold dispatched, prepareMedia, pinPrompt.
  repeat call_step.
Qed.
#[local] Hint Resolve dispatched_call : callwire.

Lemma handleInvite_call e ext : mrel callR (handleInvite e ext).
Proof.
  unfold handleInvite, handleDispatch, rejectCall, closeWithTerm.
  repeat call_step.
Qed.
#[local] Hint Resolve handleInvite_call : callwire.
End call.

(** ** The manager *)

(** What the handling of an INVITE puts on the wire: the responses of the dialog, also
    while the call runs, and those given to the transaction directly. *)
Definition pwire (e : PEffect) : option wire :=
  match e with
  | PSip d | PCall (ISip d) => wireOf d
  | PRespond r _ sent => Some (if sent then Resp (or_Code r) else Unsent (or_Code r))
  | _ => None
  end.

Definition pwires (t : list PEffect) : list wire := omap pwire t.

Lemma pwires_app t1 t2 : pwires (t1 ++ t2) = pwires t1 ++ pwires t2.
Proof. apply omap_app. Qed.

(** The cache of rejections holds rejections. *)
Definition cacheOK (cm : callManager) : Prop :=
  match rejectedInvites cm with Some m => map_Forall (fun _ v => 300 <= v.1) m | None => True end.

Lemma add_rejected_ok k v cm : 300 <= v.1 -> cacheOK cm -> cacheOK (add_rejected k v cm).
Proof. unfold cacheOK. cbn. destruct (rejectedInvites cm); cbn; [|done]. intros ? ?. by apply map_Forall_insert_2. Qed.

Definition procR (p : pstate) (t : list PEffect) (p' : pstate) : Prop :=
  (wfDialog (p_cc p) -> wfDialog (p_cc p') /\ runs (abs (p_cc p)) (pwires t) (abs (p_cc p'))) /\
  (cacheOK (p_cm p) -> cacheOK (p_cm p')).

#[export] Instance procR_rel : TraceRel procR.
Proof.
  split; unfold procR.
  - intros p. split; [|done]. intros Hw. split; [done | apply runs_nil].
  - intros p1 t1 p2 t2 p3 [S1 K1] [S2 K2]. split; [|auto]. intros Hw. destruct (S1 Hw) as [Hw2 R1]. destruct (S2 Hw2) as [Hw3 R2].
    split; [done|]. rewrite pwires_app. by eapply runs_app.
Qed.

(** Steps that send nothing. *)
Definition quietR (p : pstate) (t : list PEffect) (p' : pstate) : Prop :=
  pwires t = [] /\ dialogState (p_cc p') = dialogState (p_cc p) /\ (cacheOK (p_cm p) -> cacheOK (p_cm p')).

#[export] Instance quietR_rel : TraceRel quietR.
Proof.
  split; unfold quietR; [done|]. intros p1 t1 p2 t2 p3 (W1 & D1 & K1) (W2 & D2 & K2). rewrite pwires_app, W1, W2.
  split_and!; [done | congruence | auto].
Qed.

Lemma pwires_none {A} (f : A -> PEffect) l : (forall a, pwire (f a) = None) -> pwires (map f l) = [].
Proof. intros Hf. induction l as [|a l IH]; [done|]. unfold pwires in *. cbn. by rewrite Hf, IH. Qed.

Section proc.
Context `{ErrorText, AEAD, DigestLib, DigestClient}.

Lemma onMonP_nowire {A} (m : M CallMonitor MEffect A) : mrel quietR (onMonP m).
Proof. intros p. unfold mspec, onMonP. destruct (m (p_mon p)) as [[a mon] t]. split_and!; [by apply pwires_none | done..]. Qed.

Lemma onStateP_nowire m : mrel quietR (onStateP m).
Proof.
  intros p. unfold mspec, onStateP. destruct (p_st p) as [st|]; [|apply tr_refl].
  destruct (m st) as [[a st'] t]. split_and!; [by apply pwires_none | done..].
Qed.

Lemma onCM_quiet f : (forall cm, cacheOK cm -> cacheOK (f cm)) -> mrel quietR (onCM f).
Proof. intros Hf. apply mrel_modify. intros p. split_and!; [done.. | apply Hf]. Qed.

Lemma dialogEffectsP_wire l p : Forall okCache l -> mspec (dialogEffectsP l) p (fun _ p' t =>
  p_cc p' = p_cc p /\ pwires t = wires l /\ (cacheOK (p_cm p) -> cacheOK (p_cm p'))).
Proof.
  intros Hl. revert p. induction Hl as [|e l He _ IH]; intros p; cbn [dialogEffectsP]; [by mstep|].
  destruct e; try (do 2 mstep; (eapply mspec_mono; [apply IH|]); cbv beta; intros _ p' t (C & W & K); rewrite pwires_app, W; done).
  - mstep. pose proof (onStateP_nowire (EmitSignalingEvent ev) p) as Hq. unfold onStateP, mspec in *.
    destruct (p_st p) as [st|]; [destruct (EmitSignalingEvent ev st) as [[a st'] t1]|]; destruct Hq as (W1 & _ & _);
      (eapply mspec_mono; [apply IH|]); cbv beta; intros _ p' t (C & W & K); rewrite ?pwires_app, ?W1, W; done.
  - mstep. unfold onCM. mstep. mstep. mstep. eapply mspec_mono; [apply IH|]. cbv beta. intros _ p' t (C & W & K).
    rewrite !pwires_app, W. split_and!; [done..|]. intros Hc. apply K. by apply add_rejected_ok.
Qed.

Lemma onCCP_run {A} (m : M sipInbound DEffect A) p (Q : A -> sipInbound -> list DEffect -> Prop) :
  mtrace okCache m -> mspec m (p_cc p) Q -> mspec (onCCP m) p (fun a p' t => exists l,
    Q a (p_cc p') l /\ pwires t = wires l /\ (cacheOK (p_cm p) -> cacheOK (p_cm p'))).
Proof.
  intros Hk Hm. specialize (Hk (p_cc p)). unfold mspec, onCCP in *. destruct (m (p_cc p)) as [[a cc] t].
  pose proof (dialogEffectsP_wire t {| p_cm := p_cm p; p_cc := cc; p_st := p_st p; p_mon := p_mon p |} Hk) as Hs.
  unfold mspec in Hs. destruct (dialogEffectsP t _) as [[u p'] t']. destruct Hs as (C & W & K). cbn in C, K.
  exists t. by rewrite C.
Qed.

Lemma onCCP_proc {A} (m : M sipInbound DEffect A) : lawful m -> mrel procR (onCCP m).
Proof.
  intros [Hm Hk] p. eapply mspec_mono; [apply (onCCP_run m p _ Hk (Hm (p_cc p)))|]. cbv beta. intros a p' t (l & Hs & W & K).
  split; [|done]. rewrite W. exact Hs.
Qed.

Lemma quiet_proc {A} (m : M pstate PEffect A) : mrel quietR m -> mrel procR m.
Proof.
  intros Hm p. eapply mspec_mono; [apply Hm|]. cbv beta. intros a p' t (W & D & K). split; [|done]. rewrite W.
  unfold dialogState in D. injection D as D1 D2 D3 D4. unfold wfDialog, abs. rewrite D1, D2, D3, D4.
  intros Hw. split; [done | apply runs_nil].
Qed.
End proc.

(** Steps before the answer: the transaction stays open. *)
Definition preR (p : pstate) (t : list PEffect) (p' : pstate) : Prop :=
  procR p t p' /\ inviteTx (p_cc p') = inviteTx (p_cc p).

#[export] Instance preR_rel : TraceRel preR.
Proof.
  split; unfold preR; [intros p; split; [apply tr_refl | done]|]. intros p1 t1 p2 t2 p3 [R1 E1] [R2 E2].
  split; [by eapply tr_trans | congruence].
Qed.

(** The rest of the handling answers the INVITE, in a way the specification allows. *)
Definition answered {A} (m : M pstate PEffect A) : Prop :=
  forall p, inviteTx (p_cc p) = true -> wfDialog (p_cc p) -> cacheOK (p_cm p) ->
  mspec m p (fun _ p' t => (exists u, runs (abs (p_cc p)) (pwires t) u) /\ cacheOK (p_cm p')).

Definition sameDialog (s : sipInbound) (_ : list DEffect) (s' : sipInbound) : Prop := dialogState s' = dialogState s.

#[export] Instance sameDialog_rel : TraceRel sameDialog.
Proof. split; unfold sameDialog; [done | congruence]. Qed.

Lemma Processing_keeps now sent : mrel sameDialog (Processing now sent).
Proof.
  unfold Processing. repeat lazymatch goal with
  | |- mrel _ (respond _ _ _ _) => intros s; eapply mspec_mono; [apply respond_writes|]; cbv beta; by intros ? ? ? [? _]
  | |- mrel _ _ => rel_step
  | |- _ => done
  end.
Qed.

Section handling.
Context `{ErrorText, AEAD, DigestLib, DigestClient}.

Lemma quiet_pre {A} (m : M pstate PEffect A) : mrel quietR m -> mrel preR m.
Proof.
  intros Hm p. pose proof (quiet_proc m Hm p) as Hp. specialize (Hm p). unfold mspec in *. destruct (m p) as [[a p'] t].
  destruct Hm as (_ & D & _). unfold dialogState in D. by injection D.
Qed.

Lemma Processing_pre now sent : mrel preR (onCCP (Processing now sent)).
Proof.
  intros p. pose proof (onCCP_proc _ (Processing_lawful now sent) p) as Hp.
  pose proof (onCCP_run _ p _ (proj2 (Processing_lawful now sent)) (Processing_keeps now sent (p_cc p))) as Hs.
  unfold mspec in *. destruct (onCCP (Processing now sent) p) as [[a p'] t]. destruct Hs as (l & D & _). split; [done|].
  unfold sameDialog, dialogState in D. by injection D.
Qed.

Lemma answered_bind {A B} (m : M pstate PEffect A) (k : A -> M pstate PEffect B) :
  mrel preR m -> (forall a, answered (k a)) -> answered (mbind' m k).
Proof.
  intros Hm Hk p Ht Hw Hc. mstep. eapply mspec_mono; [apply Hm|]. cbv beta. intros a p1 t1 [[S1 K1] E1]. destruct (S1 Hw) as [Hw1 R1].
  eapply mspec_mono; [apply Hk; [congruence|done|auto]|]. cbv beta. intros b p2 t2 [[u R2] K2]. split; [|done].
  exists u. rewrite pwires_app. by eapply runs_app.
Qed.

Lemma answered_last {A} (m : M pstate PEffect A) : mrel procR m -> answered m.
Proof.
  intros Hm p Ht Hw Hc. eapply mspec_mono; [apply Hm|]. cbv beta. intros a p1 t1 [S1 K1]. destruct (S1 Hw) as [_ R1]. eauto.
Qed.

Lemma answered_then {A B} (m : M pstate PEffect A) (k : A -> M pstate PEffect B) :
  answered m -> (forall a, mrel quietR (k a)) -> answered (mbind' m k).
Proof.
  intros Hm Hk p Ht Hw Hc. mstep. eapply mspec_mono; [by apply Hm|]. cbv beta. intros a p1 t1 [[u R1] K1].
  eapply mspec_mono; [apply Hk|]. cbv beta. intros b p2 t2 (W2 & _ & K2). rewrite pwires_app, W2, app_nil_r. split; [eauto | auto].
Qed.

(** A response to a pending INVITE that the dialog does not remember: a rejection, or the
    200 OK of a re-INVITE. *)
Lemma runs_response p code (sent : bool) : inviteTx (p_cc p) = true -> code = 200 \/ 300 <= code ->
  exists u, runs (abs (p_cc p)) [if sent then Resp code else Unsent code] u.
Proof.
  intros Ht Hc. unfold abs. rewrite Ht. destruct sent; [|eauto with go]. destruct Hc as [->|Hc]; eauto with go.
Qed.

Lemma response_answered {A} (m : M sipInbound DEffect A) code sent :
  mrel (writes code sent) m -> mtrace okCache m -> code = 200 \/ 300 <= code -> answered (onCCP m).
Proof.
  intros Hm Hk Hcode p Ht Hw Hc. eapply mspec_mono; [apply (onCCP_run m p _ Hk (Hm (p_cc p)))|]. cbv beta.
  intros a p' t (l & [_ W] & Wt & K). rewrite Wt, W. unfold written. rewrite Ht. split; [by apply runs_response | auto].
Qed.

Lemma AcceptAsKeepAlive_answered now sent sdp : answered (onCCP (AcceptAsKeepAlive now sent sdp)).
Proof. apply (response_answered _ 200 sent); [apply respondWithData_writes | apply respondWithData_cache | by left]. Qed.

Lemma RejectAsKeepAlive_answered now sent status reason : 300 <= status -> answered (onCCP (RejectAsKeepAlive now sent status reason)).
Proof.
  intros Hs. apply (response_answered _ status sent); [apply respond_writes | apply respondWithData_cache | by right].
Qed.

Lemma RejectReinvite_answered now sent err : answered (onCCP (RejectReinvite now sent err)).
Proof. unfold RejectReinvite. destruct (errors.AsSDPError err); by apply RejectAsKeepAlive_answered. Qed.

(** The call of an INVITE. *)
Lemma pwires_call t : pwires (map PCall t) = wires (sipTrace t).
Proof.
  unfold pwires, wires, sipTrace. induction t as [|e t IH]; [done|]. cbn. destruct e; cbn; rewrite ?IH; try done.
Qed.

Lemma rejectedBy_ok t cm : Forall okCache (sipTrace t) -> cacheOK cm -> cacheOK (rejectedBy t cm).
Proof.
  unfold rejectedBy. revert cm. induction t as [|e t IH]; intros cm Hf Hc; [done|]. cbn [fold_left].
  destruct e; try (apply IH; done). unfold sipTrace in *. cbn in Hf. apply list.Forall_cons in Hf as [He Hf].
  destruct e; try (by apply IH). apply IH; [done|]. by apply add_rejected_ok.
Qed.

Lemma runCall_proc e : mrel procR (runCall e).
Proof.
  intros p. unfold mspec, runCall. destruct (newInboundCall (pe_start e) p) as [call|] eqn:Ec; [|apply tr_refl].
  pose proof (handleInvite_call (pe_handle e) (pe_ext e) call) as Hc. unfold mspec in Hc.
  destruct (handleInvite (pe_handle e) (pe_ext e) call) as [[r call'] t]. destruct Hc as [Hs Hk].
  assert (ic_cc call = p_cc p) as Ecc by (unfold newInboundCall in Ec; case_match; by simplify_eq).
  split; cbn [p_cc p_cm].
  - rewrite pwires_call, <- Ecc. exact Hs.
  - intros Ho. apply rejectedBy_ok; [done|]. exact Ho.
Qed.

Lemma startCall_answered e : answered (startCall e).
Proof. apply answered_last. unfold startCall. rel_step; [apply runCall_proc | rel_step]. Qed.

Lemma rejectInvite_answered e t code reason err : 300 <= code -> answered (rejectInvite e t code reason err).
Proof.
  intros Hc. apply answered_last. unfold rejectInvite. rel_step; [apply quiet_proc, onMonP_nowire|].
  rel_step; [|rel_step]. rel_step; [rel_step|]. by apply onCCP_proc, RespondAndDrop_lawful.
Qed.

Lemma countCall_quiet req : mrel quietR (countCall req).
Proof. unfold countCall. rel_step; [rel_step|]. by apply onCM_quiet. Qed.

(** The refusals of the digest check are final. *)
Lemma authorization_codes s req auth now :
  res_Code (validateAuthorization s req auth now).1 = 200 \/ 300 <= res_Code (validateAuthorization s req auth now).1.
Proof. unfold validateAuthorization. repeat case_match; cbn; lia. Qed.

Lemma handleInviteAuth_codes s rand req auth now now' :
  res_Code (handleInviteAuth s rand req auth now now').1 = 200 \/ 300 <= res_Code (handleInviteAuth s rand req auth now now').1.
Proof.
  unfold handleInviteAuth. cbv zeta. destruct (_ || _); [by left|].
  pose proof (authorization_codes s req
    {| Realm := if String.eqb (Realm auth) "" then UserAgent else Realm auth; Username := Username auth; Password := Password auth |} now) as Hv.
  destruct (validateAuthorization _ _ _ _) as [result stale]. cbn [fst] in Hv. destruct (negb _); [done|].
  destruct (issueDigestNonce _ _ _ _); cbn; lia.
Qed.

Lemma respondAuth_answered e status chal : 300 <= res_Code status -> answered (respondAuth e status chal).
Proof.
  intros Hs. unfold respondAuth. apply answered_then.
  - intros p Ht Hw Hc. mstep. split; [|done]. by apply runs_response; [|right].
  - intros _. apply mrel_when; [apply _|]. rel_step; [|apply mrel_when; [apply _|]].
    + intros p. eapply mspec_mono; [apply (onCCP_run _ p _ (setLastStatus_cache _ _) (setLastStatus_inner _ _ (p_cc p)))|].
      cbv beta. intros ? p' t (l & [D W] & Wt & K). split_and!; [congruence | done..].
    + intros p. eapply mspec_mono; [apply (onCCP_run _ p _ (proj2 (emitRejected_lawful _ _ _)) (emitRejected_inner _ _ _ (p_cc p)))|].
      cbv beta. intros ? p' t (l & [D W] & Wt & K). split_and!; [congruence | done..].
Qed.

(** One step of a part that sends nothing. *)
Ltac quiet_step :=
  lazymatch goal with
  | |- mrel _ (onMonP _) => apply onMonP_nowire
  | |- mrel _ (onStateP _) => apply onStateP_nowire
  | |- mrel _ (onCM _) => apply onCM_quiet; done
  | |- mrel _ (countCall _) => apply countCall_quiet
  | |- quietR _ _ _ => done
  | |- _ => rel_step
  end.

Lemma newState_quiet start acc trunk : mrel quietR (newState start acc trunk).
Proof. unfold newState. repeat quiet_step. Qed.

Lemma authPassword_answered s e req auth : answered (authPassword s e req auth).
Proof.
  unfold authPassword. apply answered_bind.
  { apply mrel_when; [apply _|]. rel_step; [apply Processing_pre|]. apply quiet_pre. repeat quiet_step. }
  intros _. apply answered_bind; [apply quiet_pre; repeat quiet_step|]. intros _.
  apply answered_bind; [apply quiet_pre, countCall_quiet|]. intros _.
  pose proof (handleInviteAuth_codes s (pe_rand e) req auth (pe_authCheckAt e) (pe_nonceAt e)) as Hc.
  destruct (handleInviteAuth s (pe_rand e) req auth (pe_authCheckAt e) (pe_nonceAt e)) as [status chal]. cbn [fst] in Hc.
  destruct (Z.eqb_spec (res_Code status) 200) as [E|E]; [apply startCall_answered|].
  apply answered_then; [apply respondAuth_answered; lia|]. intros _. repeat quiet_step.
Qed.

Lemma onAuthResult_answered s e req r : answered (onAuthResult s e req r).
Proof.
  unfold onAuthResult. destruct (ai_Result r); try (by apply rejectInvite_answered); try apply startCall_answered.
  - apply answered_last. rel_step; [apply quiet_proc, onMonP_nowire|]. rel_step; [apply onCCP_proc, drop_lawful | rel_step].
  - apply authPassword_answered.
  - apply answered_bind; [apply quiet_pre, countCall_quiet|]. intros _. apply startCall_answered.
Qed.

Lemma newInvite_answered s e req : answered (newInvite s e req).
Proof.
  unfold newInvite. apply answered_bind; [apply quiet_pre, onMonP_nowire|]. intros _. apply answered_bind.
  { apply mrel_when; [apply _|]. rel_step; [apply Processing_pre | rel_step]. }
  intros _. apply answered_bind; [apply quiet_pre; repeat quiet_step|]. intros _. destruct (pe_auth e) as [err|r].
  - apply answered_bind; [apply quiet_pre, onMonP_nowire|]. intros _. apply answered_bind; [apply quiet_pre, newState_quiet|]. intros _.
    apply answered_bind; [apply quiet_pre, onStateP_nowire|]. intros _. apply answered_then; [|intros _; repeat quiet_step].
    apply answered_last. rel_step; [rel_step|]. by apply onCCP_proc, RespondAndDrop_lawful.
  - apply answered_bind; [apply quiet_pre, onMonP_nowire|]. intros _. apply answered_bind; [apply quiet_pre, newState_quiet|]. intros _.
    do 2 (apply answered_bind; [apply quiet_pre, onStateP_nowire|]; intros _). apply onAuthResult_answered.
Qed.

Lemma reinviteInbound_answered e c : answered (reinviteInbound e c).
Proof.
  unfold reinviteInbound. destruct (ic_lateAnswerPending c).
  { apply answered_then; [by apply RejectAsKeepAlive_answered | intros _; repeat quiet_step]. }
  apply answered_bind; [apply quiet_pre; repeat quiet_step|]. intros _.
  destruct (pe_sdpUpdate e); (apply answered_then; [|intros _; repeat quiet_step]);
    [apply RejectReinvite_answered | apply AcceptAsKeepAlive_answered].
Qed.

Lemma reinviteOutbound_answered e oc : answered (reinviteOutbound e oc).
Proof.
  unfold reinviteOutbound. cbv zeta. destruct (String.eqb _ _).
  { apply answered_then; [by apply RejectAsKeepAlive_answered | intros _; repeat quiet_step]. }
  apply answered_bind; [apply quiet_pre; repeat quiet_step|]. intros _.
  destruct (pe_sdpUpdate e); [apply answered_then; [apply RejectReinvite_answered | intros _; repeat quiet_step]|].
  apply answered_bind; [apply mrel_mget, _|]. intros p. apply answered_bind; [apply quiet_pre; repeat quiet_step|]. intros _.
  apply answered_then; [apply AcceptAsKeepAlive_answered | intros _; repeat quiet_step].
Qed.

Lemma dispatchInvite_answered s e req : answered (dispatchInvite s e req).
Proof.
  intros p Ht Hw Hc. unfold dispatchInvite. mstep. mstep. cbn [app].
  destruct (rejectedInvites (p_cm p) ≫= _) as [[status reason]|] eqn:Er.
  - assert (300 <= status) as Hs.
    { unfold cacheOK in Hc. destruct (rejectedInvites (p_cm p)) as [m|]; [|done]. by apply (Hc _ _ Er). }
    revert p Ht Hw Hc Er. enough (answered (mbind' (onCCP (RespondAndDrop true (pe_now e) (pe_sent e) status reason))
      (fun _ => mreturn (PRet None, FinNone)))) as Ha by (intros; by apply Ha).
    apply answered_last. rel_step; [by apply onCCP_proc, RespondAndDrop_lawful | rel_step].
  - clear Er. destruct (newerThan _ _ _); [by apply reinviteInbound_answered|].
    destruct (newerThan _ _ _); [by apply reinviteOutbound_answered | by apply newInvite_answered].
Qed.

Lemma finalize_quiet e f err : mrel quietR (finalize e f err).
Proof. unfold finalize. repeat quiet_step. Qed.
End handling.

(** ** Theorem *)

(** The first sequence number the service may use in the dialog. *)
Definition firstCSeq (req : Request) : Z := match req_CSeq req with Some n => u32 (n + 1) | None => 0 end.

(** C2: Every INVITE is answered the way a user agent server may, on every path: an INVITE that
    is malformed, replayed from the cache of rejections, a re-INVITE, one that is refused,
    challenged for credentials or rejected by the dispatch, and one that becomes a call, to
    the end of that call.  Unless the write of a 200 OK fails, the caller sees provisional
    responses and then nothing more, or exactly one rejection and nothing after it, or 200
    OKs followed only by numbered REFERs and BYEs.  The cache, from which later INVITEs are
    answered, holds only rejections, before and after. *)
Theorem processInvite_lawful `{ErrorText, AEAD, DigestLib, DigestClient} s e req cm :
  cacheOK cm ->
  let '(_, cm', t) := processInvite s e req cm in
  cacheOK cm' /\ (exists u, runs (Proceeding (firstCSeq req)) (pwires t) u) /\
  (Unsent 200 ∉ pwires t -> callLife (firstCSeq req) (pwires t)).
Proof.
  intros Hc.
  assert (forall cm' t, cacheOK cm' -> (exists u, runs (Proceeding (firstCSeq req)) (pwires t) u) ->
    cacheOK cm' /\ (exists u, runs (Proceeding (firstCSeq req)) (pwires t) u) /\
    (Unsent 200 ∉ pwires t -> callLife (firstCSeq req) (pwires t))) as Hgoal.
  { intros cm' t Hc' [u Hu]. split; [done|]. split; [by exists u|]. by apply (runs_life _ _ _ Hu). }
  unfold processInvite. destruct (pe_srcOK e); cbn [negb]; [|apply Hgoal; [done|]; eexists; apply runs_nil].
  destruct (newInbound _ _ _) as [msg|cc] eqn:En.
  { apply Hgoal; [done|]. destruct (pe_hide e); [eexists; apply runs_nil|]. unfold pwires. cbn.
    destruct (pe_sent e); eexists; eapply runs_one; [by apply u_reject | apply u_unsent]. }
  destruct (newInbound_wf _ _ _ _ En) as [Hw Ha].
  assert (nextRequestCSeq cc = firstCSeq req /\ inviteTx cc = true) as [Hn Ht].
  { unfold newInbound in En. unfold firstCSeq. destruct (req_CSeq req); repeat case_match; by simplify_eq. }
  set (p0 := {| p_cm := cm; p_cc := cc; p_st := None; p_mon := _ |}).
  assert (answered (mbind' (dispatchInvite s e req) (fun rf => match rf with
    | (PRet err, f) => mbind' (finalize e f err) (fun _ => mreturn (PRet err))
    | (r, _) => mreturn r end))) as Hans.
  { apply answered_then; [apply dispatchInvite_answered|]. intros [[| |err] f]; [apply mrel_ret, _..|].
    rel_step; [apply finalize_quiet | rel_step]. }
  specialize (Hans p0 Ht Hw Hc). unfold mspec in Hans. destruct (mbind' _ _ p0) as [[r p'] t].
  destruct Hans as [[u Hu] Hc']. cbn [p_cc p0] in Hu. rewrite Ha, Hn in Hu. by apply Hgoal; [|exists u].
Qed.

#[local] Existing Instance toyAEAD.
#[local] Existing Instance exErrorText.
#[local] Existing Instance InboundAuth.exDigest.
#[local] Existing Instance SipOutbound.exDigest.

Lemma processInvite_lawful_witness :
  let '(_, _, t1) := processInvite exSealer (exInviteEnv AuthAccept) exInvite (exManager ∅) in
  let '(_, _, t2) := processInvite exSealer (exInviteEnv AuthPassword) exInvite (exManager ∅) in
  pwires t2 = [Resp 100; Resp 407] /\ (exists u, runs (Proceeding 8) (pwires t2) u) /\
  callLife 8 (pwires t2) /\ exists u, runs (Proceeding 8) (pwires t1) u.
Proof.
  assert (cacheOK (exManager ∅)) as Hc by (unfold cacheOK; cbn; apply map_Forall_empty).
  pose proof (processInvite_lawful exSealer (exInviteEnv AuthAccept) exInvite (exManager ∅) Hc) as P1.
  pose proof (processInvite_lawful exSealer (exInviteEnv AuthPassword) exInvite (exManager ∅) Hc) as P2.
  assert (pwires (processInvite exSealer (exInviteEnv AuthPassword) exInvite (exManager ∅)).2 = [Resp 100; Resp 407]) as E
    by (vm_compute; reflexivity).
  destruct (processInvite exSealer (exInviteEnv AuthAccept) exInvite _) as [[r1 cm1] t1].
  destruct (processInvite exSealer (exInviteEnv AuthPassword) exInvite _) as [[r2 cm2] t2].
  cbn [snd] in E. destruct P1 as (_ & U1 & _). destruct P2 as (_ & U2 & L2). split; [exact E|]. split; [exact U2|].
  split; [|exact U1]. apply L2. rewrite E. intros Hin.
  repeat (apply elem_of_cons in Hin as [Hin|Hin]; [discriminate|]). by apply elem_of_nil in Hin.
Defined.
