(* ===== verification/Registry.v ===== *)
(** * The calls a node knows

    The maps [byLocalTag] and [activeCalls] of [callManager] (pkg/sip/manager.go) under
    concurrency.  The goroutines of the calls, of the requests that look calls up and of the
    service that stops meet at these maps; each access under the lock [cmu] is one step.
    What a call does between its accesses is in [InboundCall] and [OutboundCall].  Nothing is
    assumed of the tags: an INVITE with the To tag of a running call makes a second call with
    that tag. *)

From stdpp Require Import base tactics list gmap strings option.
From Stdlib Require Import Lia.
From S2P Require Import Prelude.

(** ** State *)
Inductive Side := Inbound | Outbound.

#[global] Instance Side_eq : EqDecision Side.
Proof. solve_decision. Defined.

Record CallRec := {
  k_side : Side;
  k_tag : string;
  k_registered : bool;               (* it was put into its map *)
  k_late : bool;                     (* ... after [Stop] had emptied the maps *)
  k_stale : bool;                    (* ... after its close had deleted its tag *)
  k_closing : bool;                  (* its close has begun *)
  k_deleted : bool;                  (* its close has deleted its tag from the map *)
}.

(** [Stop]: the calls it took from the maps and has still to close. *)
Inductive Stopping := Running | Draining (l : list nat) | StopReturned.

Record registry := {
  g_calls : gmap nat CallRec;        (* all calls there ever were *)
  g_map : Side -> gmap string nat;   (* byLocalTag and activeCalls *)
  g_stop : Stopping;
}.

Definition newRegistry : registry := {| g_calls := ∅; g_map := fun _ => ∅; g_stop := Running |}.

Definition newRec (side : Side) (tag : string) : CallRec :=
  {| k_side := side; k_tag := tag; k_registered := false; k_late := false; k_stale := false; k_closing := false;
     k_deleted := false |}.

Definition register (late : bool) (k : CallRec) : CallRec :=
  {| k_side := k_side k; k_tag := k_tag k; k_registered := true; k_late := late; k_stale := k_deleted k;
     k_closing := k_closing k; k_deleted := k_deleted k |}.
Definition begin_close (k : CallRec) : CallRec :=
  {| k_side := k_side k; k_tag := k_tag k; k_registered := k_registered k; k_late := k_late k; k_stale := k_stale k; k_closing := true;
     k_deleted := k_deleted k |}.
Definition mark_deleted (k : CallRec) : CallRec :=
  {| k_side := k_side k; k_tag := k_tag k; k_registered := k_registered k; k_late := k_late k; k_stale := k_stale k; k_closing := k_closing k;
     k_deleted := true |}.

Definition set_call (c : nat) (k : CallRec) (s : registry) : registry :=
  {| g_calls := <[c := k]> (g_calls s); g_map := g_map s; g_stop := g_stop s |}.
Definition set_map (side : Side) (f : gmap string nat -> gmap string nat) (s : registry) : registry :=
  {| g_calls := g_calls s; g_map := fun x => if decide (x = side) then f (g_map s x) else g_map s x; g_stop := g_stop s |}.
Definition set_stop (st : Stopping) (s : registry) : registry :=
  {| g_calls := g_calls s; g_map := g_map s; g_stop := st |}.

(** The maps have been emptied. *)
Definition swept (s : registry) : bool := match g_stop s with Running => false | _ => true end.

(** The values of both maps. *)
Definition everyone (s : registry) : list nat :=
  (map_to_list (g_map s Outbound)).*2 ++ (map_to_list (g_map s Inbound)).*2.

(** The accesses: a call enters its map, a call leaves it, and [Stop] takes all calls. *)
Definition registerCall (c : nat) (k : CallRec) (s : registry) : registry :=
  set_call c (register (swept s) k) (set_map (k_side k) (<[k_tag k := c]>) s).

Definition deleteCall (c : nat) (k : CallRec) (s : registry) : registry :=
  set_call c (mark_deleted k) (set_map (k_side k) (delete (k_tag k)) s).

Definition sweepCalls (s : registry) : registry :=
  set_stop (Draining (everyone s)) (set_map Inbound (fun _ => ∅) (set_map Outbound (fun _ => ∅) s)).

(** ** Steps

    An inbound call registers itself when it is made, before anything can close it; an
    outbound call only after it has joined its room, and a request over RPC may close it
    before that. *)
Inductive gstep : registry -> registry -> Prop :=
| g_new s c side tag : g_calls s !! c = None -> gstep s (set_call c (newRec side tag) s)
| g_register s c k : g_calls s !! c = Some k -> k_registered k = false ->
    gstep s (registerCall c k s)
| g_close s c k : g_calls s !! c = Some k -> k_closing k = false -> (k_side k = Inbound -> k_registered k = true) ->
    gstep s (set_call c (begin_close k) s)
| g_delete s c k : g_calls s !! c = Some k -> k_closing k = true -> k_deleted k = false ->
    gstep s (deleteCall c k s)
| g_sweep s : g_stop s = Running ->
    gstep s (sweepCalls s)
(** the next call of the list: closed now, or found to be closing *)
| g_drain s c l k : g_stop s = Draining (c :: l) -> g_calls s !! c = Some k ->
    gstep s (set_stop (Draining l) (set_call c (begin_close k) s))
| g_stopped s : g_stop s = Draining [] -> gstep s (set_stop StopReturned s).

Inductive greach : registry -> Prop :=
| greach_init : greach newRegistry
| greach_step s s' : greach s -> gstep s s' -> greach s'.

(** A request for a tag, as [HandleBye] and the others look it up. *)
Definition lookupCall (side : Side) (tag : string) (s : registry) : option nat := g_map s side !! tag.

(** No other call of its side has the tag of the call. *)
Definition sole (s : registry) (c : nat) (k : CallRec) : Prop :=
  forall c' k', g_calls s !! c' = Some k' -> k_side k' = k_side k -> k_tag k' = k_tag k -> c' = c.

(** ** Invariant *)

(** The calls the maps are to hold: registered, since the sweep if there was one, and not deleted
    since. *)
Definition present (s : registry) (k : CallRec) : Prop :=
  k_registered k = true /\ (swept s = true -> k_late k = true) /\ (k_deleted k = true -> k_stale k = true).

Record ginv (s : registry) : Prop := {
  gi_order c k : g_calls s !! c = Some k -> k_side k = Inbound -> k_closing k = true -> k_registered k = true;
  gi_deleted c k : g_calls s !! c = Some k -> k_deleted k = true -> k_closing k = true;
  gi_late c k : g_calls s !! c = Some k -> k_late k = true -> k_registered k = true /\ swept s = true;
  gi_stale c k : g_calls s !! c = Some k -> k_stale k = true -> k_side k = Outbound /\ k_registered k = true /\ k_deleted k = true;
  gi_sound side t c : g_map s side !! t = Some c ->
    exists k, g_calls s !! c = Some k /\ k_side k = side /\ k_tag k = t /\ present s k;
  gi_complete c k : g_calls s !! c = Some k -> sole s c k -> present s k -> g_map s (k_side k) !! k_tag k = Some c;
  gi_drain c k : g_calls s !! c = Some k -> sole s c k -> swept s = true -> k_registered k = true -> k_late k = false ->
    k_closing k = true \/ exists l, g_stop s = Draining l /\ c ∈ l;
  gi_listed l c : g_stop s = Draining l -> c ∈ l -> exists k, g_calls s !! c = Some k /\ k_registered k = true;
}.

(** Calls are kept, with their side and tag. *)
Lemma gstep_calls s s' c k : gstep s s' -> g_calls s !! c = Some k ->
  exists k', g_calls s' !! c = Some k' /\ k_side k' = k_side k /\ k_tag k' = k_tag k.
Proof.
  destruct 1; cbn; intros Hc; try (by eexists);
    (destruct (decide (c0 = c)) as [->|Hne]; [rewrite lookup_insert_eq; simplify_eq; by eexists|
     rewrite lookup_insert_ne by done; by eexists]).
Qed.

Lemma sole_back s s' c k k' : gstep s s' -> k_side k' = k_side k -> k_tag k' = k_tag k -> sole s' c k' -> sole s c k.
Proof.
  intros Hs Es Et Hu c1 k1 H1 Hside Htag. destruct (gstep_calls _ _ _ _ Hs H1) as (k1' & G1 & S1 & T1).
  apply (Hu c1 k1' G1); congruence.
Qed.

(** The lookup of a call after one of them was written. *)
Ltac call_cases c :=
  repeat match goal with
  | H : <[?d := _]> _ !! c = Some _ |- _ =>
      apply lookup_insert_Some in H as [[<- <-]|[? H]]
  end.

Lemma ginv_init : ginv newRegistry.
Proof. split; cbn; intros *; try (by rewrite lookup_empty). Qed.

Lemma ginv_new s c side tag : g_calls s !! c = None -> ginv s -> ginv (set_call c (newRec side tag) s).
Proof.
  intros Hn [I1 I2 I3 I4 I5 I6 I7 I8]. pose proof (g_new s c side tag Hn) as Hg. split; cbn; intros *.
  - intros H. call_cases c0; [done | eauto].
  - intros H. call_cases c0; [done | eauto].
  - intros H. call_cases c0; [done | eauto].
  - intros H. call_cases c0; [done | eauto].
  - intros H. destruct (I5 _ _ _ H) as (k & Hk & ?). exists k. rewrite lookup_insert_ne; [done|congruence].
  - intros H Hs. call_cases c0; [by intros [? _] | eauto using sole_back].
  - intros H Hs. call_cases c0; [done | eauto using sole_back].
  - intros H Hin. destruct (I8 _ _ H Hin) as (k & Hk & ?). exists k. rewrite lookup_insert_ne; [done|congruence].
Qed.

(** A call that is registered stays so when another record, or its own, is written. *)
Lemma kept_registered (m : gmap nat CallRec) c c' k k' : m !! c' = Some k' -> k_registered k' = true ->
  (m !! c = Some k' -> k_registered k = true) -> exists k0, <[c := k]> m !! c' = Some k0 /\ k_registered k0 = true.
Proof.
  intros Hm Hr Hk. destruct (decide (c = c')) as [->|Hne]; [exists k; rewrite lookup_insert_eq; auto|].
  exists k'. by rewrite lookup_insert_ne.
Qed.

(** The record of a call whose close begins. *)
Lemma sole_close s c k c0 k0 : g_calls s !! c = Some k -> sole (set_call c (begin_close k) s) c0 k0 -> sole s c0 k0.
Proof.
  intros Hc Hs c1 k1 H1 Es Et. destruct (decide (c1 = c)) as [->|Hne].
  - simplify_eq. apply (Hs c (begin_close k)); [cbn; by rewrite lookup_insert_eq|done..].
  - apply (Hs c1 k1); [cbn; by rewrite lookup_insert_ne|done..].
Qed.

Lemma ginv_close s c k : g_calls s !! c = Some k -> (k_side k = Inbound -> k_registered k = true) ->
  ginv s -> ginv (set_call c (begin_close k) s).
Proof.
  intros Hc Hr [I1 I2 I3 I4 I5 I6 I7 I8]. pose proof (sole_close s c k) as Hso. split; cbn; intros *.
  - intros H. call_cases c0; [cbn; auto | eauto].
  - intros H. call_cases c0; [done | eauto].
  - intros H. call_cases c0; [apply (I3 c k Hc) | eauto].
  - intros H. call_cases c0; [apply (I4 c k Hc) | eauto].
  - intros H. destruct (I5 _ _ _ H) as (k0 & Hk & ?). destruct (decide (c = c0)) as [<-|Hne].
    + simplify_eq. exists (begin_close k). by rewrite lookup_insert_eq.
    + exists k0. by rewrite lookup_insert_ne.
  - intros H Hs. apply Hso in Hs; [|done]. call_cases c0; [apply (I6 c k Hc Hs) | eauto].
  - intros H Hs. apply Hso in Hs; [|done]. call_cases c0; [by left | eauto].
  - intros H Hin. destruct (I8 _ _ H Hin) as (k0 & Hk & ?). eapply kept_registered; [done..|]. cbn. by intros; simplify_eq.
Qed.

Lemma set_map_lookup side f s x t : g_map (set_map side f s) x !! t = if decide (x = side) then f (g_map s x) !! t else g_map s x !! t.
Proof. cbn. by case_decide. Qed.

Lemma ginv_register s c k : g_calls s !! c = Some k -> k_registered k = false -> ginv s -> ginv (registerCall c k s).
Proof.
  intros Hc Hr [I1 I2 I3 I4 I5 I6 I7 I8]. pose proof (g_register s c k Hc Hr) as Hg. unfold registerCall in *. split; intros *.
  - intros H. cbn in H. call_cases c0; [done | eauto].
  - intros H. cbn in H. call_cases c0; [apply (I2 c k Hc) | eauto].
  - intros H. cbn in H. call_cases c0; [done | apply (I3 _ _ H)].
  - intros H. cbn in H. call_cases c0; [|eauto]. cbn. intros Hd. split_and!; try done.
    destruct (k_side k) eqn:Es; [|done]. exfalso. pose proof (I1 c k Hc Es (I2 c k Hc Hd)). congruence.
  - cbn [set_call g_map g_calls]. rewrite set_map_lookup. intros H.
    assert ((side = k_side k /\ t = k_tag k /\ c0 = c) \/ g_map s side !! t = Some c0) as [(-> & -> & ->)|Hm].
    { case_decide; [|by right]. apply lookup_insert_Some in H as [[? ?]|[? H]]; [left; by subst | by right]. }
    + exists (register (swept s) k). cbn. rewrite lookup_insert_eq. by split_and!.
    + destruct (I5 _ _ _ Hm) as (k0 & Hk & Hs & Ht & Hreg & ?). exists k0. cbn. rewrite lookup_insert_ne; [done|]. intros ->. congruence.
  - intros H Hso. cbn in H. intros Hp. cbn [set_call g_map]. rewrite set_map_lookup. call_cases c0.
    + cbn [register k_side k_tag]. by rewrite decide_True, lookup_insert_eq.
    + pose proof (I6 _ _ H (sole_back _ _ _ _ _ Hg eq_refl eq_refl Hso) Hp) as Hm. case_decide as Hs; [|done].
      rewrite lookup_insert_ne; [done|]. intros Ht.
      pose proof (Hso c (register (swept s) k) ltac:(cbn; by rewrite lookup_insert_eq) (eq_sym Hs) Ht). done.
  - intros H Hso. cbn in H. call_cases c0; [|apply (I7 _ _ H (sole_back _ _ _ _ _ Hg eq_refl eq_refl Hso))].
    intros E _ E'. change (swept s = true) in E. change (swept s = false) in E'. congruence.
  - intros H Hin. destruct (I8 _ _ H Hin) as (k0 & Hk & ?). eapply kept_registered; [done..|]. cbn. by intros; simplify_eq.
Qed.

Lemma ginv_delete s c k : g_calls s !! c = Some k -> k_closing k = true -> k_deleted k = false -> ginv s -> ginv (deleteCall c k s).
Proof.
  intros Hc Hcl Hnd [I1 I2 I3 I4 I5 I6 I7 I8]. pose proof (g_delete s c k Hc Hcl Hnd) as Hg.
  assert (k_stale k = false) as Hns.
  { destruct (k_stale k) eqn:E; [|done]. destruct (I4 _ _ Hc E) as (_ & _ & ?). congruence. }
  unfold deleteCall in *. split; intros *.
  - intros H. cbn in H. call_cases c0; [apply (I1 c k Hc) | eauto].
  - intros H. cbn in H. call_cases c0; [done | eauto].
  - intros H. cbn in H. call_cases c0; [apply (I3 c k Hc) | apply (I3 _ _ H)].
  - intros H. cbn in H. call_cases c0; [cbn; congruence | eauto].
  - cbn [set_call g_map g_calls]. rewrite set_map_lookup. intros H.
    assert (g_map s side !! t = Some c0 /\ (side = k_side k -> t <> k_tag k)) as [Hm Hne].
    { case_decide; [|done]. apply lookup_delete_Some in H as [? H]. done. }
    destruct (I5 _ _ _ Hm) as (k0 & Hk & Hs & Ht & ?). exists k0. cbn. rewrite lookup_insert_ne; [done|].
    intros ->. simplify_eq. by apply Hne.
  - intros H Hso. cbn in H. intros Hp. cbn [set_call g_map]. rewrite set_map_lookup. call_cases c0.
    + destruct Hp as (_ & _ & Hp). specialize (Hp eq_refl). cbn in Hp. congruence.
    + pose proof (I6 _ _ H (sole_back _ _ _ _ _ Hg eq_refl eq_refl Hso) Hp) as Hm. case_decide as Hs; [|done].
      rewrite lookup_delete_ne; [done|]. intros Ht.
      pose proof (Hso c (mark_deleted k) ltac:(cbn; by rewrite lookup_insert_eq) (eq_sym Hs) Ht). done.
  - intros H Hso. cbn in H. call_cases c0; [by left | apply (I7 _ _ H (sole_back _ _ _ _ _ Hg eq_refl eq_refl Hso))].
  - intros H Hin. destruct (I8 _ _ H Hin) as (k0 & Hk & ?). eapply kept_registered; [done..|]. cbn. by intros; simplify_eq.
Qed.

Lemma everyone_in s side t c : g_map s side !! t = Some c -> c ∈ everyone s.
Proof.
  intros H%elem_of_map_to_list. unfold everyone. apply elem_of_app. destruct side; [right | left]; by apply (list_elem_of_fmap_2 snd) in H.
Qed.

Lemma everyone_registered s c : ginv s -> c ∈ everyone s -> exists k, g_calls s !! c = Some k /\ k_registered k = true.
Proof.
  intros Hi Hc. assert (exists side t, g_map s side !! t = Some c) as (side & t & Hm).
  { unfold everyone in Hc. apply elem_of_app in Hc as [Hc|Hc]; apply list_elem_of_fmap in Hc as ([t c'] & -> & Hc);
      apply elem_of_map_to_list in Hc; eauto. }
  destruct (gi_sound s Hi _ _ _ Hm) as (k & ? & _ & _ & ? & _). eauto.
Qed.

Lemma ginv_sweep s : g_stop s = Running -> ginv s -> ginv (sweepCalls s).
Proof.
  intros Hr Hi. pose proof Hi as [I1 I2 I3 I4 I5 I6 I7 I8]. pose proof (g_sweep s Hr) as Hg. unfold sweepCalls in *.
  assert (swept s = false) as Hs by (unfold swept; by rewrite Hr).
  split; cbn [set_stop set_map g_calls g_stop]; intros *.
  - eauto.
  - eauto.
  - intros H Hl. by destruct (I3 _ _ H Hl) as [? _].
  - eauto.
  - cbn [g_map]. destruct side; repeat case_decide; by try rewrite lookup_empty.
  - intros H _ (Hp & Hl & _). destruct (I3 _ _ H (Hl eq_refl)) as [_ ?]. congruence.
  - intros H Hso _ Hreg Hl. destruct (k_deleted k) eqn:Ed; [left; by apply (I2 _ _ H)|right]. eexists. split; [done|].
    eapply everyone_in, (I6 _ _ H (sole_back _ _ _ _ _ Hg eq_refl eq_refl Hso)). split_and!; [done | congruence | congruence].
  - intros [= <-] Hin. by apply everyone_registered.
Qed.

Lemma ginv_drain s c l k : g_stop s = Draining (c :: l) -> g_calls s !! c = Some k -> ginv s ->
  ginv (set_stop (Draining l) (set_call c (begin_close k) s)).
Proof.
  intros Hst Hc Hi. assert (ginv (set_call c (begin_close k) s)) as [I1 I2 I3 I4 I5 I6 I7 I8].
  { apply ginv_close; [done| |done]. intros _. destruct (gi_listed s Hi _ c Hst) as (k' & ? & ?); [left|]. congruence. }
  assert (swept (set_call c (begin_close k) s) = true) as Hs by (unfold swept; cbn; by rewrite Hst).
  split; cbn [set_stop g_calls g_stop g_map]; intros *; eauto.
  - intros H Hl. by destruct (I3 _ _ H Hl).
  - intros H. destruct (I5 _ _ _ H) as (k0 & ? & ? & ? & ? & ? & ?). exists k0. split_and!; auto; split_and!; auto.
  - intros H Hso (? & Hl & ?). apply (I6 _ _ H Hso). split_and!; auto.
  - intros H Hso _ Hreg Hl. destruct (I7 _ _ H Hso Hs Hreg Hl) as [?|(l' & E & Hin)]; [by left|]. cbn in E. rewrite Hst in E. injection E as <-.
    apply elem_of_cons in Hin as [->|Hin]; [left|right; eauto]. cbn in H. rewrite lookup_insert_eq in H. by simplify_eq.
  - intros [= ->] Hin. apply (I8 (c :: l0)); [done | by right].
Qed.

Lemma ginv_stopped s : g_stop s = Draining [] -> ginv s -> ginv (set_stop StopReturned s).
Proof.
  intros Hst [I1 I2 I3 I4 I5 I6 I7 I8]. assert (swept s = true) as Hs by (unfold swept; by rewrite Hst).
  split; cbn [set_stop g_calls g_stop g_map]; intros *; eauto.
  - intros H Hl. by destruct (I3 _ _ H Hl).
  - intros H. destruct (I5 _ _ _ H) as (k0 & ? & ? & ? & ? & ? & ?). exists k0. split_and!; auto; split_and!; auto.
  - intros H Hso (? & Hl & ?). apply (I6 _ _ H Hso). split_and!; auto.
  - intros H Hso _ Hreg Hl. destruct (I7 _ _ H Hso Hs Hreg Hl) as [?|(l' & E & Hin)]; [by left|]. rewrite Hst in E. injection E as <-.
    by apply elem_of_nil in Hin.
  - done.
Qed.

Lemma ginv_reach s : greach s -> ginv s.
Proof.
  induction 1 as [|s s' _ IH Hs]; [apply ginv_init|].
  destruct Hs; eauto using ginv_new, ginv_register, ginv_close, ginv_delete, ginv_sweep, ginv_drain, ginv_stopped.
Qed.

(** ** Theorems *)

(** C14: The maps hold the calls that are up, under every interleaving of calls that start and
    end, requests, and the stop of the service.  A lookup of a tag finds only a call of that side
    with that tag that was registered (after the stop, if there was one) and has not deleted
    itself since; an inbound call that deleted itself is never found, an outbound one only if
    it was registered after that, which happens to a call that is closed while it is set up.
    Conversely, a call that is registered and not deleted since is found under its tag, unless
    another call of its side has the same tag.  When [Stop] has returned, the close of every
    call registered before the maps were emptied has begun, again unless another call has its
    tag. *)
Theorem registry_exact s : greach s ->
  (forall side t c, lookupCall side t s = Some c ->
     exists k, g_calls s !! c = Some k /\ k_side k = side /\ k_tag k = t /\ present s k /\
       (side = Inbound -> k_deleted k = false)) /\
  (forall c k, g_calls s !! c = Some k -> sole s c k ->
     lookupCall (k_side k) (k_tag k) s = Some c <-> present s k) /\
  (g_stop s = StopReturned -> forall c k, g_calls s !! c = Some k -> sole s c k -> k_registered k = true -> k_late k = false ->
     k_closing k = true).
Proof.
  intros Hr. destruct (ginv_reach s Hr) as [I1 I2 I3 I4 I5 I6 I7 I8].
  assert (forall side t c, lookupCall side t s = Some c ->
     exists k, g_calls s !! c = Some k /\ k_side k = side /\ k_tag k = t /\ present s k) as Hsound by (intros *; apply I5).
  split_and!.
  - intros side t c H. destruct (Hsound _ _ _ H) as (k & Hk & Hs & Ht & Hp). exists k. split_and!; [done..|]. intros ->.
    destruct (k_deleted k) eqn:Ed; [|done]. destruct (I4 _ _ Hk) as [? _]; [by apply Hp|congruence].
  - intros c k Hk Hso. split; [|by apply I6]. intros H. destruct (Hsound _ _ _ H) as (k' & Hk' & _ & _ & Hp). congruence.
  - intros Hst c k Hk Hso Hreg Hl. destruct (I7 c k Hk Hso) as [?|(l & E & _)]; [unfold swept; by rewrite Hst|done..|congruence].
Qed.

(** *** Runs *)
Definition exRec (side : Side) (tag : string) (late closing deleted : bool) : CallRec :=
  {| k_side := side; k_tag := tag; k_registered := true; k_late := late; k_stale := false; k_closing := closing;
     k_deleted := deleted |}.

(** Call 1 is up and call 2 is being set up; the service stops; call 2 registers then. *)
Definition exCalls : registry :=
  set_call 2 (newRec Inbound "b") (registerCall 1 (newRec Inbound "a") (set_call 1 (newRec Inbound "a") newRegistry)).
Definition exSwept : registry := sweepCalls exCalls.
Definition exDrained : registry := set_stop (Draining []) (set_call 1 (begin_close (exRec Inbound "a" false false false)) exSwept).
Definition exStopped : registry := registerCall 2 (newRec Inbound "b") (set_stop StopReturned exDrained).

Lemma exStopped_reach : greach exStopped.
Proof.
  assert (greach exCalls) as H1.
  { eapply greach_step; [|by apply g_new]. eapply greach_step; [|by apply g_register]. eapply greach_step; [|by apply g_new].
    apply greach_init. }
  assert (greach exSwept) as H2 by (eapply greach_step; [exact H1 | by apply g_sweep]).
  assert (greach exDrained) as H3 by (eapply greach_step; [exact H2 | by apply g_drain]).
  eapply greach_step; [|by apply g_register]. eapply greach_step; [exact H3 | by apply g_stopped].
Qed.

Lemma exStopped_sole c k : g_calls exStopped !! c = Some k -> sole exStopped c k.
Proof.
  intros H1 c2 k2 H2 _ Ht. cbn in H1, H2.
  repeat (apply lookup_insert_Some in H1 as [[<- <-]|[? H1]]); repeat (apply lookup_insert_Some in H2 as [[<- <-]|[? H2]]);
    by rewrite ?lookup_empty in *.
Qed.

(** Nothing keeps a call that is being set up from registering once [Stop] has emptied the
    maps: [Stop] returns, and the call is up and is not closed. *)
Theorem stop_misses_late_call :
  exists s c k, greach s /\ g_stop s = StopReturned /\ g_calls s !! c = Some k /\
    lookupCall Inbound (k_tag k) s = Some c /\ k_closing k = false.
Proof.
  exists exStopped, 2%nat, (exRec Inbound "b" true false false).
  split_and!; [apply exStopped_reach | reflexivity..].
Qed.

(** Two calls with one tag: when the second ends, the first, which is up, is no longer found. *)
Definition exTwo : registry :=
  registerCall 2 (newRec Inbound "a") (set_call 2 (newRec Inbound "a")
    (registerCall 1 (newRec Inbound "a") (set_call 1 (newRec Inbound "a") newRegistry))).

Lemma shared_tag_hides_call :
  exists s k, greach s /\ g_calls s !! 1%nat = Some k /\ present s k /\ k_closing k = false /\
    lookupCall Inbound (k_tag k) s = None.
Proof.
  assert (greach exTwo) as H1.
  { eapply greach_step; [|by apply g_register]. eapply greach_step; [|by apply g_new].
    eapply greach_step; [|by apply g_register]. eapply greach_step; [|by apply g_new]. apply greach_init. }
  set (k2 := exRec Inbound "a" false false false).
  assert (greach (deleteCall 2 (begin_close k2) (set_call 2 (begin_close k2) exTwo))) as H2.
  { eapply greach_step; [|by apply g_delete]. eapply greach_step; [exact H1 | by apply g_close]. }
  eexists _, (exRec Inbound "a" false false false). split; [exact H2|]. split_and!; done.
Qed.

Lemma registry_exact_witness :
  greach exStopped /\ lookupCall Inbound "a" exStopped = None /\
  lookupCall Inbound "b" exStopped = Some 2%nat /\ k_closing (exRec Inbound "a" false true false) = true.
Proof.
  split; [exact exStopped_reach|]. split; [reflexivity|].
  destruct (registry_exact exStopped exStopped_reach) as (_ & H2 & H4). split.
  - apply (H2 2%nat (exRec Inbound "b" true false false)); [reflexivity|by apply exStopped_sole|].
    split_and!; done.
  - apply (H4 eq_refl 1%nat); [reflexivity|by apply exStopped_sole|reflexivity..].
Defined.
