(* ===== verification/Transfers.v ===== *)
(** * Transfer requests

    The transfer part of [pkg/sip/service.go]: what a request is refused for, what its
    outcome is reported as, how it is counted, and how concurrent requests for the
    same call share one transfer.

    The sharing is a transition system: a request creates or joins the pending
    transfer of its call under [cm.mu], a goroutine of the first one runs the
    transfer and publishes its outcome in four steps, every request waits for it.

    Parsing a name-addr, the list of emergency numbers and the names and gRPC codes
    of SIP statuses are those of the protocol library: parameters. *)

From stdpp Require Import base tactics list gmap strings option.
From Stdlib Require Import ZArith Ascii Lia.
From S2P Require Import Prelude GoStd GoErr Participant Errors Types Protocol CallState CallCommon Monitor SipInbound SipOutbound OutboundCall InboundCall.
Import strings.

(** ** Outcomes *)
Record transferOutcome := { TransferID : string; Err : option error }.

Definition zeroOutcome : transferOutcome := {| TransferID := ""; Err := None |}.

Inductive SIPTransferReason :=
| STR_UNSPECIFIED | STR_COMPLETED | STR_CALL_ENDED | STR_SUBSCRIPTION_TERMINATED | STR_REJECTED
| STR_RINGING_TIMEOUT.

Definition transferReason (err : option error) : SIPTransferReason * option SIPStatus :=
  match err with
  | None => (STR_COMPLETED, None)
  | Some err =>
      if errors.Is err errTransferCallEnded then (STR_CALL_ENDED, None)
      else if errors.Is err errReferSubscriptionTerminated then (STR_SUBSCRIPTION_TERMINATED, None)
      else match errors.AsSIPStatus err with
           | Some st => (STR_REJECTED, Some st)
           | None => if errors.Is err context_DeadlineExceeded then (STR_RINGING_TIMEOUT, None)
                     else (STR_UNSPECIFIED, None)
           end
  end.

Section reasons.
(** [sipErrorCode]: the psrpc code of a SIP status through its gRPC status;
    [shortName]: the name of a status code without its prefix. *)
Variable sipErrorCode : SIPStatus -> ErrorCode.
Variable shortName : Z -> string.

Definition ApplySIPStatus (err : error) : error :=
  match errors.AsSIPStatus err with
  | None => err
  | Some st => EPsrpc (sipErrorCode st) err [st]
  end.

(** The error of a failed transfer: its code and cause, the [SIPTransferError]
    detail, and the plain status repeated after it. *)
Record TransferError := {
  te_code : ErrorCode;
  te_cause : error;
  te_TransferId : string;
  te_Reason : SIPTransferReason;
  te_SipStatus : option SIPStatus;
  te_extra : option SIPStatus;
}.

Definition transferError (out : transferOutcome) : option TransferError :=
  match Err out with
  | None => None
  | Some err =>
      let '(reason, status) := transferReason (Some err) in
      Some {| te_code := default Unknown (errors.AsPsrpc (ApplySIPStatus err)); te_cause := err;
              te_TransferId := TransferID out; te_Reason := reason; te_SipStatus := status;
              te_extra := status |}
  end.

(** What the RPC returns for the outcome of its transfer. *)
Record TransferResponse := {
  trs_TransferId : string;
  trs_Status : SIPTransferStatus;
  trs_Reason : SIPTransferReason;
}.

Definition TransferSIPParticipant (out : transferOutcome) : TransferError + TransferResponse :=
  match transferError out with
  | Some err => inl err
  | None => inr {| trs_TransferId := TransferID out; trs_Status := STS_TRANSFER_SUCCESSFUL; trs_Reason := STR_COMPLETED |}
  end.

Definition extractTransferErrorReason (err : option error) : string :=
  match err with
  | None => "unknown"
  | Some err =>
      match errors.AsSIPStatus err with
      | Some st => ToLower (shortName (Code st))
      | None =>
          if errors.Is err errTransferCallEnded then "call_ended"
          else if errors.Is err errReferSubscriptionTerminated then "refer_terminated"
          else match errors.AsPsrpc err with
               | Some NotFound => "not_found"
               | Some Canceled => "canceled"
               | Some DeadlineExceeded => "timeout"
               | Some InvalidArgument => "invalid_argument"
               | Some PermissionDenied => "permission_denied"
               | Some Internal => "internal_error"
               | Some _ => "psrpc_error"
               | None =>
                   if errors.Is err context_Canceled then "canceled"
                   else if errors.Is err context_DeadlineExceeded then "timeout"
                   else "other"
               end
      end
  end.

(** ** Refusals *)
Record ProviderInfo := { pi_Type : ProviderType; PreventTransfer : bool }.

Variable ParseSIPNameAddr : string -> error + string.
Variable IsEmergencyNumber : string -> bool.
Context `{ErrorText}.

Definition validateCallProvider (provider : option ProviderInfo) (transferTo : string) : option error :=
  match provider with
  | None => None
  | Some p =>
      match pi_Type p with
      | PROVIDER_TYPE_INTERNAL =>
          if PreventTransfer p then
            Some (NewErrorf PermissionDenied "transfers are not supported for this phone number type")
          else
            let target := if ContainsRune transferTo "<"%char then transferTo else "<" +:+ transferTo +:+ ">" in
            match ParseSIPNameAddr target with
            | inl err => Some (NewErrorf InvalidArgument ("invalid transfer target: " +:+ Error err))
            | inr user =>
                let user := (Cut "?"%char user).1 in
                if IsEmergencyNumber user then
                  Some (NewErrorf InvalidArgument
                    "transfers to an emergency number are not supported from LiveKit phone numbers")
                else None
            end
      | _ => None
      end
  end.

(** What the manager's maps hold for a call: an outbound call, an inbound call, or
    none. *)
Inductive Found := FoundOut (p : option ProviderInfo) | FoundIn (p : option ProviderInfo) | FoundNone.

Definition rejectTransfer (dir : CallDir) (err : option error) : option error * list TEffect :=
  match err with
  | Some _ => (err, TransferStarted dir ++ TransferFailed dir (extractTransferErrorReason err) true)
  | None => (None, [])
  end.

Definition checkInternalProviderRequest (f : Found) (transferTo : string) : option error * list TEffect :=
  match f with
  | FoundOut p => rejectTransfer Outbound (validateCallProvider p transferTo)
  | FoundIn p => rejectTransfer Inbound (validateCallProvider p transferTo)
  | FoundNone => (Some (NewErrorf NotFound "unknown call"), [])
  end.

(** [result]: the transfer identifier and the error of [transferCall]. *)
Definition processParticipantTransfer (f : Found) (result : string * option error)
    : transferOutcome * list TEffect :=
  let run dir :=
    match result with
    | (id, Some err) =>
        ({| TransferID := id; Err := Some err |},
         TransferStarted dir ++ TransferFailed dir (extractTransferErrorReason (Some err)) true)
    | (id, None) => ({| TransferID := id; Err := None |}, TransferStarted dir ++ TransferSucceeded dir)
    end in
  match f with
  | FoundOut _ => run Outbound
  | FoundIn _ => run Inbound
  | FoundNone => ({| TransferID := ""; Err := Some (NewErrorf NotFound "unknown call") |},
                  TransferFailed Inbound "unknown_call" false)
  end.

(** A request alone: the check, then the transfer, for which the maps are looked up
    again. *)
Definition transferAlone (f1 f2 : Found) (transferTo : string) (result : string * option error)
    : transferOutcome * list TEffect :=
  match checkInternalProviderRequest f1 transferTo with
  | (Some err, t) => ({| TransferID := ""; Err := Some err |}, t)
  | (None, t1) => let '(out, t2) := processParticipantTransfer f2 result in (out, t1 ++ t2)
  end.

End reasons.

(** ** Counting *)
Definition sameDir (d d' : CallDir) : bool :=
  match d, d' with Inbound, Inbound | Outbound, Outbound => true | _, _ => false end.

Definition activeDelta (dir : CallDir) (t : list TEffect) : Z :=
  fold_right (fun e n => match e with TActive d k => if sameDir d dir then k + n else n | _ => n end) 0 t.

Definition attempts (t : list TEffect) : nat :=
  countb (fun e => match e with TTotal _ => true | _ => false end) t.
Definition failures (t : list TEffect) : nat :=
  countb (fun e => match e with TFailed _ _ => true | _ => false end) t.
Definition successes (t : list TEffect) : nat :=
  countb (fun e => match e with TSucceeded _ => true | _ => false end) t.

(** The call passed the check and was gone when the transfer started. *)
Definition goneMeanwhile (check : option error) (f2 : Found) : bool :=
  match check, f2 with None, FoundNone => true | _, _ => false end.

Lemma rejectTransfer_counted shortName d err dir :
  let '(r, t) := rejectTransfer shortName d err in
  r = err /\ activeDelta dir t = 0 /\ successes t = 0%nat /\ attempts t = failures t /\ (err = None -> t = []).
Proof. destruct err as [err|]; cbn; [|done]. by destruct d, dir. Qed.

Lemma check_counted `{ErrorText} shortName parse emergency f transferTo dir :
  let '(r, t) := checkInternalProviderRequest shortName parse emergency f transferTo in
  activeDelta dir t = 0 /\ successes t = 0%nat /\ attempts t = failures t /\
  (r = None -> t = [] /\ f <> FoundNone) /\ (f = FoundNone -> t = []).
Proof.
  unfold checkInternalProviderRequest. destruct f as [p|p|]; [| |done].
  all: match goal with |- context [rejectTransfer _ ?d ?v] =>
    pose proof (rejectTransfer_counted shortName d v dir) as Hr; destruct (rejectTransfer shortName d v) as [r t] end.
  all: destruct Hr as (-> & A & S & F & N); split_and!; try done; intros Hv; split; [by apply N|done].
Qed.

(** A transfer request is counted once.  After a request the gauge of active transfers is
    where it was, in both directions.  An attempt is counted with exactly one
    outcome, a success exactly when the request succeeds; a request for a call
    unknown from the start is not counted.  The exception is a call that ends
    between the check and the transfer: a failure is counted with no attempt, so
    the failures can outnumber the attempts. *)
Theorem transfer_counted `{ErrorText} shortName parse emergency f1 f2 transferTo result dir :
  let check := (checkInternalProviderRequest shortName parse emergency f1 transferTo).1 in
  let '(out, t) := transferAlone shortName parse emergency f1 f2 transferTo result in
  activeDelta dir t = 0 /\
  successes t = match Err out with Some _ => 0 | None => 1 end%nat /\
  (attempts t + (if goneMeanwhile check f2 then 1 else 0) = successes t + failures t)%nat /\
  (f1 = FoundNone -> attempts t = 0%nat /\ failures t = 0%nat).
Proof.
  cbv zeta. unfold transferAlone.
  pose proof (check_counted shortName parse emergency f1 transferTo dir) as Hc.
  destruct (checkInternalProviderRequest shortName parse emergency f1 transferTo) as [r t1].
  destruct Hc as (A1 & S1 & F1 & N1 & U1). destruct r as [err|]; cbn.
  - split_and!; try done; [lia|]. intros H1. by rewrite (U1 H1).
  - destruct (N1 eq_refl) as [-> Hf]. destruct result as [id [err|]], f2, dir; cbn; split_and!; done.
Qed.

(** ** Pending transfers *)

(** Where the goroutine of a pending transfer is: running the transfer, or after each
    of its last steps, with the outcome it holds. *)
Inductive worker :=
| WRunning
| WSent (out : transferOutcome)
| WStored (out : transferOutcome)
| WClosed (out : transferOutcome)
| WDeleted (out : transferOutcome).

Record PendingTransfer := {
  pt_CallID : string;
  pt_TransferTo : string;
  pt_buffer : option transferOutcome;     (* the channel Done, of capacity one *)
  pt_closed : bool;                       (* Done is closed *)
  pt_Outcome : option transferOutcome;
  pt_worker : worker;
}.

(** A request: waiting on a pending transfer, after the receive, or returned with an
    outcome, from the pending transfer or of its own. *)
Inductive request :=
| QWaiting (p : nat)
| QReceived (p : nat) (out : transferOutcome)
| QReturned (from : option nat) (out : transferOutcome).

Record tstate := {
  pendingTransfers : gmap string nat;
  objects : gmap nat PendingTransfer;
  requests : gmap nat request;
}.

Definition tinit : tstate := {| pendingTransfers := ∅; objects := ∅; requests := ∅ |}.

Definition set_request (q : nat) (r : request) (s : tstate) : tstate :=
  {| pendingTransfers := pendingTransfers s; objects := objects s; requests := <[q := r]> (requests s) |}.
Definition set_object (p : nat) (o : PendingTransfer) (s : tstate) : tstate :=
  {| pendingTransfers := pendingTransfers s; objects := <[p := o]> (objects s); requests := requests s |}.

Definition newPending (callID to : string) : PendingTransfer :=
  {| pt_CallID := callID; pt_TransferTo := to; pt_buffer := None; pt_closed := false;
     pt_Outcome := None; pt_worker := WRunning |}.

Definition upd_pending (b : option transferOutcome) (c : bool) (o : option transferOutcome) (w : worker)
    (pt : PendingTransfer) : PendingTransfer :=
  {| pt_CallID := pt_CallID pt; pt_TransferTo := pt_TransferTo pt; pt_buffer := b; pt_closed := c;
     pt_Outcome := o; pt_worker := w |}.

Definition elsewhere : transferOutcome :=
  {| TransferID := ""; Err := Some (NewErrorf InvalidArgument "call already being transferred elsewhere") |}.

(** What a request returns after it received [out]. *)
Definition replyOf (out : transferOutcome) (pt : PendingTransfer) : transferOutcome :=
  match Err out with
  | Some _ => out
  | None => default out (pt_Outcome pt)
  end.

Inductive pstep : tstate -> tstate -> Prop :=
| P_refused s q err :                              (* the provider check failed *)
    requests s !! q = None ->
    pstep s (set_request q (QReturned None {| TransferID := ""; Err := Some err |}) s)
| P_create s q p callID to :
    requests s !! q = None -> pendingTransfers s !! callID = None -> objects s !! p = None ->
    pstep s {| pendingTransfers := <[callID := p]> (pendingTransfers s);
               objects := <[p := newPending callID to]> (objects s);
               requests := <[q := QWaiting p]> (requests s) |}
| P_join s q p pt callID to :
    requests s !! q = None -> pendingTransfers s !! callID = Some p -> objects s !! p = Some pt ->
    pt_TransferTo pt = to ->
    pstep s (set_request q (QWaiting p) s)
| P_elsewhere s q p pt callID to :
    requests s !! q = None -> pendingTransfers s !! callID = Some p -> objects s !! p = Some pt ->
    pt_TransferTo pt <> to ->
    pstep s (set_request q (QReturned None elsewhere) s)
| P_send s p pt out :                              (* the transfer ended; pending.Done <- out *)
    objects s !! p = Some pt -> pt_worker pt = WRunning ->
    pstep s (set_object p (upd_pending (orElse (pt_buffer pt) (Some out)) (pt_closed pt) (pt_Outcome pt)
                             (WSent out) pt) s)
| P_store s p pt out :
    objects s !! p = Some pt -> pt_worker pt = WSent out ->
    pstep s (set_object p (upd_pending (pt_buffer pt) (pt_closed pt) (Some out) (WStored out) pt) s)
| P_close s p pt out :
    objects s !! p = Some pt -> pt_worker pt = WStored out ->
    pstep s (set_object p (upd_pending (pt_buffer pt) true (pt_Outcome pt) (WClosed out) pt) s)
| P_delete s p pt out :
    objects s !! p = Some pt -> pt_worker pt = WClosed out ->
    pstep s {| pendingTransfers := delete (pt_CallID pt) (pendingTransfers s);
               objects := <[p := upd_pending (pt_buffer pt) (pt_closed pt) (pt_Outcome pt)
                                   (WDeleted out) pt]> (objects s);
               requests := requests s |}
| P_receive s q p pt out :
    requests s !! q = Some (QWaiting p) -> objects s !! p = Some pt -> pt_buffer pt = Some out ->
    pstep s (set_request q (QReceived p out)
               (set_object p (upd_pending None (pt_closed pt) (pt_Outcome pt) (pt_worker pt) pt) s))
| P_receiveClosed s q p pt :                       (* the zero value of a closed, empty channel *)
    requests s !! q = Some (QWaiting p) -> objects s !! p = Some pt -> pt_buffer pt = None ->
    pt_closed pt = true ->
    pstep s (set_request q (QReceived p zeroOutcome) s)
| P_return s q p pt out :                          (* pending.Outcome.Load() *)
    requests s !! q = Some (QReceived p out) -> objects s !! p = Some pt ->
    pstep s (set_request q (QReturned (Some p) (replyOf out pt)) s)
| P_cancel s q p err :                             (* the context of the request ended *)
    requests s !! q = Some (QWaiting p) ->
    pstep s (set_request q (QReturned None {| TransferID := ""; Err := Some (NewError Canceled err) |}) s).

Inductive preach : tstate -> Prop :=
| preach_init : preach tinit
| preach_step s s' : preach s -> pstep s s' -> preach s'.

(** *** Invariant *)
Definition outcomeOf (pt : PendingTransfer) : option transferOutcome :=
  match pt_worker pt with
  | WRunning => None
  | WSent out | WStored out | WClosed out | WDeleted out => Some out
  end.

(** The channel and the stored outcome follow the goroutine. *)
Definition pendingOK (pt : PendingTransfer) : Prop :=
  (forall b, pt_buffer pt = Some b -> outcomeOf pt = Some b) /\
  (forall o, pt_Outcome pt = Some o -> outcomeOf pt = Some o) /\
  match pt_worker pt with
  | WRunning | WSent _ => pt_closed pt = false
  | WStored _ => pt_closed pt = false /\ is_Some (pt_Outcome pt)
  | WClosed _ | WDeleted _ => pt_closed pt = true /\ is_Some (pt_Outcome pt)
  end.

Definition requestOK (os : gmap nat PendingTransfer) (r : request) : Prop :=
  match r with
  | QWaiting p => is_Some (os !! p)
  | QReceived p out =>
      exists pt o, os !! p = Some pt /\ outcomeOf pt = Some o /\
        (out = o \/ out = zeroOutcome /\ pt_Outcome pt = Some o)
  | QReturned None _ => True
  | QReturned (Some p) out => exists pt, os !! p = Some pt /\ outcomeOf pt = Some out
  end.

(** The table holds the transfers whose goroutine has not removed them. *)
Definition listed (s : tstate) (callID : string) (p : nat) : Prop :=
  exists pt, objects s !! p = Some pt /\ pt_CallID pt = callID /\
    match pt_worker pt with WDeleted _ => False | _ => True end.

Record pinv (s : tstate) : Prop := {
  pi_objects : forall p pt, objects s !! p = Some pt -> pendingOK pt;
  pi_requests : forall q r, requests s !! q = Some r -> requestOK (objects s) r;
  pi_table : forall callID p, pendingTransfers s !! callID = Some p <-> listed s callID p;
}.

(** A pending transfer that goes on keeps what it has published. *)
Definition extends (pt pt' : PendingTransfer) : Prop :=
  (forall o, outcomeOf pt = Some o -> outcomeOf pt' = Some o) /\
  (forall o, pt_Outcome pt = Some o -> pt_Outcome pt' = Some o).

Lemma requestOK_extends os p pt pt' r :
  os !! p = Some pt -> extends pt pt' -> requestOK os r -> requestOK (<[p := pt']> os) r.
Proof.
  intros Hp [E1 E2] Hr.
  assert (forall p0 pt0, os !! p0 = Some pt0 -> exists pt1, <[p := pt']> os !! p0 = Some pt1 /\ extends pt0 pt1) as Hx.
  { intros p0 pt0 H0. destruct (decide (p0 = p)) as [->|].
    - rewrite lookup_insert_eq. exists pt'. by simplify_eq.
    - rewrite lookup_insert_ne by done. exists pt0. by split. }
  destruct r as [p0|p0 out|[p0|] out]; cbn in *.
  - destruct Hr as [pt0 H0]. destruct (Hx _ _ H0) as (pt1 & -> & _). by eexists.
  - destruct Hr as (pt0 & o & H0 & O & C). destruct (Hx _ _ H0) as (pt1 & H1 & X1 & X2).
    exists pt1, o. split_and!; [done|by apply X1|]. destruct C as [?|[? ?]]; [by left|right; auto].
  - destruct Hr as (pt0 & H0 & O). destruct (Hx _ _ H0) as (pt1 & H1 & X1 & _). exists pt1. auto.
  - done.
Qed.

Lemma requestOK_fresh os p pt' r : os !! p = None -> requestOK os r -> requestOK (<[p := pt']> os) r.
Proof.
  intros Hp Hr.
  assert (forall p0 pt0, os !! p0 = Some pt0 -> <[p := pt']> os !! p0 = Some pt0) as Hx.
  { intros p0 pt0 H0. rewrite lookup_insert_ne; [done|]. intros ->. congruence. }
  destruct r as [p0|p0 out|[p0|] out]; cbn in *; try done.
  - destruct Hr as [pt0 H0]. rewrite (Hx _ _ H0). by eexists.
  - destruct Hr as (pt0 & o & H0 & O). rewrite (Hx _ _ H0). by exists pt0, o.
  - destruct Hr as (pt0 & H0 & O). rewrite (Hx _ _ H0). by exists pt0.
Qed.

Lemma pinv_request s q r : pinv s -> requestOK (objects s) r -> pinv (set_request q r s).
Proof.
  intros [O R T] Hr. split; [done| |done]. intros q0 r0. cbn.
  destruct (decide (q0 = q)) as [->|]; [rewrite lookup_insert_eq|rewrite lookup_insert_ne by done; apply R].
  by intros [= <-].
Qed.

(** A step of a goroutine that is still listed. *)
Lemma pinv_object s p pt pt' :
  pinv s -> objects s !! p = Some pt -> pt_CallID pt' = pt_CallID pt ->
  (match pt_worker pt with WDeleted _ => False | _ => True end <->
   match pt_worker pt' with WDeleted _ => False | _ => True end) ->
  extends pt pt' -> pendingOK pt' -> pinv (set_object p pt' s).
Proof.
  intros [O R T] Hp Hc Hw He Hk. split; cbn.
  - intros p0 pt0. destruct (decide (p0 = p)) as [->|].
    + rewrite lookup_insert_eq. by intros [= <-].
    + rewrite lookup_insert_ne by done. apply O.
  - intros q r Hq. eapply requestOK_extends; eauto.
  - intros callID p0. rewrite T. unfold listed. cbn. destruct (decide (p0 = p)) as [->|].
    + rewrite lookup_insert_eq. split; intros (x & Hx & Hy & Hz); simplify_eq.
      * exists pt'. split_and!; [done..|]. by apply Hw.
      * exists pt. split_and!; [done..|]. by apply Hw.
    + by rewrite lookup_insert_ne by done.
Qed.

Lemma pinv_create s q p callID to :
  pinv s -> pendingTransfers s !! callID = None -> objects s !! p = None ->
  pinv {| pendingTransfers := <[callID := p]> (pendingTransfers s);
          objects := <[p := newPending callID to]> (objects s);
          requests := <[q := QWaiting p]> (requests s) |}.
Proof.
  intros [O R T] Hn Hp. split; cbn.
  - intros p0 pt0. destruct (decide (p0 = p)) as [->|].
    + rewrite lookup_insert_eq. by intros [= <-].
    + rewrite lookup_insert_ne by done. apply O.
  - intros q0 r0. destruct (decide (q0 = q)) as [->|].
    + rewrite lookup_insert_eq. intros [= <-]. cbn. rewrite lookup_insert_eq. by eexists.
    + rewrite lookup_insert_ne by done. intros Hq. apply requestOK_fresh; [done|]. by eapply R.
  - intros c p0. unfold listed. cbn. destruct (decide (p0 = p)) as [->|].
    + rewrite lookup_insert_eq. destruct (decide (c = callID)) as [->|].
      * rewrite lookup_insert_eq. split; [|done]. intros _. by eexists.
      * rewrite lookup_insert_ne by done. rewrite T. unfold listed. rewrite Hp. split.
        -- by intros (? & ? & _).
        -- intros (x & [= <-] & Hy & _). cbn in Hy. congruence.
    + rewrite (lookup_insert_ne _ p p0) by done. destruct (decide (c = callID)) as [->|].
      * rewrite lookup_insert_eq. split; [intros [= ->]; done|]. intros Hl.
        assert (pendingTransfers s !! callID = Some p0) by by apply T. congruence.
      * rewrite lookup_insert_ne by done. apply T.
Qed.

Lemma pinv_delete s p pt out :
  pinv s -> objects s !! p = Some pt -> pt_worker pt = WClosed out ->
  pinv {| pendingTransfers := delete (pt_CallID pt) (pendingTransfers s);
          objects := <[p := upd_pending (pt_buffer pt) (pt_closed pt) (pt_Outcome pt) (WDeleted out) pt]> (objects s);
          requests := requests s |}.
Proof.
  intros [O R T] Hp Hw. pose proof (O _ _ Hp) as (B1 & B2 & B3).
  assert (outcomeOf pt = Some out) as Ho by (unfold outcomeOf; by rewrite Hw).
  split; cbn.
  - intros p0 pt0. destruct (decide (p0 = p)) as [->|].
    + rewrite lookup_insert_eq. intros [= <-]. rewrite Ho in B1, B2. rewrite Hw in B3. by split_and!.
    + rewrite lookup_insert_ne by done. apply O.
  - intros q r Hq. eapply requestOK_extends; eauto. split; [|done]. intros o Hx. cbn. congruence.
  - assert (pendingTransfers s !! pt_CallID pt = Some p) as Hl.
    { apply T. exists pt. by rewrite Hw. }
    intros c p0. unfold listed. cbn. destruct (decide (c = pt_CallID pt)) as [->|].
    + rewrite lookup_delete_eq. split; [done|]. intros (x & Hx & Hy & Hz).
      destruct (decide (p0 = p)) as [->|]; [rewrite lookup_insert_eq in Hx; by simplify_eq|].
      rewrite lookup_insert_ne in Hx by done.
      assert (pendingTransfers s !! pt_CallID pt = Some p0) by (apply T; by exists x). congruence.
    + rewrite lookup_delete_ne by done. rewrite T. unfold listed. destruct (decide (p0 = p)) as [->|].
      * rewrite lookup_insert_eq. split; intros (x & Hx & Hy & Hz); simplify_eq.
      * by rewrite lookup_insert_ne by done.
Qed.

(** The first steps of the goroutine, and a receive. *)
Lemma pinv_worker s p pt b c o w :
  pinv s -> objects s !! p = Some pt ->
  (match pt_worker pt with WDeleted _ => False | _ => True end <->
   match w with WDeleted _ => False | _ => True end) ->
  extends pt (upd_pending b c o w pt) -> pendingOK (upd_pending b c o w pt) ->
  pinv (set_object p (upd_pending b c o w pt) s).
Proof. intros. by eapply pinv_object. Qed.

Lemma pinv_step s s' : pinv s -> pstep s s' -> pinv s'.
Proof.
  intros I Hs. pose proof I as [O R T].
  destruct Hs as [s q err Hq|s q p callID to Hq Ht Hp|s q p pt callID to Hq Ht Hp Hto
    |s q p pt callID to Hq Ht Hp Hto|s p pt out Hp Hw|s p pt out Hp Hw|s p pt out Hp Hw|s p pt out Hp Hw
    |s q p pt out Hq Hp Hb|s q p pt Hq Hp Hb Hc|s q p pt out Hq Hp|s q p err Hq].
  - by apply pinv_request.
  - by apply pinv_create.
  - apply pinv_request; [done|]. by eexists.
  - by apply pinv_request.
  - destruct (O _ _ Hp) as (B1 & B2 & B3). unfold outcomeOf in B1, B2. rewrite Hw in B1, B2, B3.
    destruct (pt_buffer pt) as [b|] eqn:Eb; [by specialize (B1 b eq_refl)|].
    destruct (pt_Outcome pt) as [o|] eqn:Eo; [by specialize (B2 o eq_refl)|].
    apply pinv_worker; [done..|by rewrite Hw| |by split_and!].
    split; [unfold outcomeOf; by rewrite Hw|by rewrite Eo].
  - destruct (O _ _ Hp) as (B1 & B2 & B3). unfold outcomeOf in B1, B2. rewrite Hw in B1, B2, B3.
    apply pinv_worker; [done..|by rewrite Hw| |by split_and!].
    split; [unfold outcomeOf; by rewrite Hw|]. intros o Ho. by rewrite <- (B2 o Ho).
  - destruct (O _ _ Hp) as (B1 & B2 & B3). unfold outcomeOf in B1, B2. rewrite Hw in B1, B2, B3.
    apply pinv_worker; [done..|by rewrite Hw| |split_and!; try done; cbn; split; [done|apply B3]].
    split; [unfold outcomeOf; by rewrite Hw|done].
  - by apply pinv_delete.
  - destruct (O _ _ Hp) as (B1 & B2 & B3). apply pinv_request.
    + apply pinv_worker; [done..|by split_and!].
    + cbn. rewrite lookup_insert_eq. eexists _, out. split_and!; [done|by apply B1|by left].
  - apply pinv_request; [done|]. destruct (O _ _ Hp) as (B1 & B2 & B3).
    assert (is_Some (pt_Outcome pt)) as [o Ho].
    { destruct (pt_worker pt); try tauto; try congruence. }
    exists pt, o. split_and!; [done|by apply B2|by right].
  - apply pinv_request; [done|]. destruct (R _ _ Hq) as (pt0 & o & Hp0 & Ho & Hc). simplify_eq.
    exists pt. split; [done|]. destruct (O _ _ Hp) as (B1 & B2 & B3). unfold replyOf.
    destruct Hc as [->|[-> E]]; [|cbn; by rewrite E].
    destruct (Err o) as [e|] eqn:Ee; [done|]. destruct (pt_Outcome pt) as [o'|] eqn:Eo; [|done].
    cbn. by apply B2.
  - by apply pinv_request.
Qed.

Lemma pinv_reach s : preach s -> pinv s.
Proof.
  induction 1 as [|s s' _ IH Hs]; [|by eapply pinv_step].
  split; cbn; try done. intros c p. unfold listed. cbn. rewrite !lookup_empty. split; [done|].
  by intros (? & ? & _).
Qed.

(** C7: Concurrent transfer requests agree.  However requests, the goroutine of the transfer, the
    provider checks and cancellations interleave, every request that returns with
    the result of a pending transfer returns exactly the outcome with which that
    transfer ended (never the empty value of the closed channel), so two requests
    that shared one get the same identifier and error. *)
Theorem transfer_consensus s q1 q2 p out1 out2 :
  preach s -> requests s !! q1 = Some (QReturned (Some p) out1) ->
  requests s !! q2 = Some (QReturned (Some p) out2) ->
  out1 = out2 /\ exists pt, objects s !! p = Some pt /\ outcomeOf pt = Some out1.
Proof.
  intros Hr H1 H2. destruct (pinv_reach s Hr) as [_ R _].
  destruct (R _ _ H1) as (pt1 & P1 & O1). destruct (R _ _ H2) as (pt2 & P2 & O2).
  simplify_eq. split; [congruence|]. by eexists.
Qed.

(** One transfer at a time.  At no time do two goroutines run a transfer of the same call,
    and the table always lists the one that does. *)
Theorem transfer_exclusive s p1 p2 pt1 pt2 :
  preach s -> objects s !! p1 = Some pt1 -> objects s !! p2 = Some pt2 ->
  pt_worker pt1 = WRunning -> pt_worker pt2 = WRunning -> pt_CallID pt1 = pt_CallID pt2 ->
  p1 = p2 /\ pendingTransfers s !! pt_CallID pt1 = Some p1.
Proof.
  intros Hr H1 H2 W1 W2 Hc. destruct (pinv_reach s Hr) as [_ _ T].
  assert (pendingTransfers s !! pt_CallID pt1 = Some p1) as L1 by (apply T; exists pt1; by rewrite W1).
  assert (pendingTransfers s !! pt_CallID pt1 = Some p2) as L2 by (apply T; exists pt2; by rewrite W2, Hc).
  split; congruence.
Qed.

(** C34: No request is left waiting.  Once the goroutine of a transfer has closed the channel,
    every request that still waits for it can go on, by itself, to return the
    outcome, however many wait and whoever took the value from the channel. *)
Theorem transfer_wakes s q p pt :
  preach s -> requests s !! q = Some (QWaiting p) -> objects s !! p = Some pt ->
  pt_closed pt = true ->
  exists out s1 s2, pstep s s1 /\ pstep s1 s2 /\
    requests s2 !! q = Some (QReturned (Some p) out) /\ outcomeOf pt = Some out.
Proof.
  intros Hr Hq Hp Hc. assert (preach s) as Hr' by done.
  destruct (pt_buffer pt) as [b|] eqn:Eb.
  - set (pt' := upd_pending None (pt_closed pt) (pt_Outcome pt) (pt_worker pt) pt).
    set (s1 := set_request q (QReceived p b) (set_object p pt' s)).
    assert (pstep s s1) as S1 by by eapply P_receive.
    assert (pstep s1 (set_request q (QReturned (Some p) (replyOf b pt')) s1)) as S2.
    { eapply P_return; cbn; by rewrite lookup_insert_eq. }
    eexists _, s1, _. split_and!; [done..| |]; [cbn; by rewrite lookup_insert_eq|].
    destruct (pinv_reach _ (preach_step _ _ (preach_step _ _ Hr S1) S2)) as [_ R _].
    destruct (R q (QReturned (Some p) (replyOf b pt'))) as (x & Hx & Ho); [cbn; by rewrite lookup_insert_eq|].
    cbn in Hx. rewrite lookup_insert_eq in Hx. by simplify_eq.
  - set (s1 := set_request q (QReceived p zeroOutcome) s).
    assert (pstep s s1) as S1 by by eapply P_receiveClosed.
    assert (pstep s1 (set_request q (QReturned (Some p) (replyOf zeroOutcome pt)) s1)) as S2.
    { eapply P_return; [cbn; by rewrite lookup_insert_eq|done]. }
    eexists _, s1, _. split_and!; [done..| |]; [cbn; by rewrite lookup_insert_eq|].
    destruct (pinv_reach _ (preach_step _ _ (preach_step _ _ Hr S1) S2)) as [_ R _].
    destruct (R q (QReturned (Some p) (replyOf zeroOutcome pt))) as (x & Hx & Ho); [cbn; by rewrite lookup_insert_eq|].
    cbn in Hx. by simplify_eq.
Qed.

(** *** A run: two requests share a transfer that succeeds *)
Definition exOut : transferOutcome := {| TransferID := "STR_1"; Err := None |}.

Definition exPending (b : option transferOutcome) (c : bool) (o : option transferOutcome) (w : worker) : PendingTransfer :=
  upd_pending b c o w (newPending "SCL_1" "tel:+15550100").

Definition exS1 : tstate :=
  {| pendingTransfers := <["SCL_1" := 0%nat]> ∅; objects := <[0%nat := newPending "SCL_1" "tel:+15550100"]> ∅;
     requests := <[0%nat := QWaiting 0]> ∅ |}.
Definition exS2 : tstate := set_request 1 (QWaiting 0) exS1.
Definition exS3 : tstate := set_object 0 (exPending (Some exOut) false None (WSent exOut)) exS2.
Definition exS4 : tstate := set_object 0 (exPending (Some exOut) false (Some exOut) (WStored exOut)) exS3.
Definition exS5 : tstate := set_object 0 (exPending (Some exOut) true (Some exOut) (WClosed exOut)) exS4.
Definition exS6 : tstate :=
  set_request 0 (QReceived 0 exOut) (set_object 0 (exPending None true (Some exOut) (WClosed exOut)) exS5).
Definition exS7 : tstate := set_request 0 (QReturned (Some 0%nat) exOut) exS6.
Definition exS8 : tstate := set_request 1 (QReceived 0 zeroOutcome) exS7.
Definition exS9 : tstate := set_request 1 (QReturned (Some 0%nat) exOut) exS8.

Lemma exS2_reach : preach exS2.
Proof.
  eapply preach_step with (s := exS1).
  - eapply preach_step; [apply preach_init|]. by apply (P_create tinit 0 0 "SCL_1" "tel:+15550100").
  - by apply (P_join exS1 1 0 (newPending "SCL_1" "tel:+15550100") "SCL_1" "tel:+15550100").
Qed.

Lemma exS7_reach : preach exS7.
Proof.
  apply preach_step with (s := exS6); [apply preach_step with (s := exS5);
    [apply preach_step with (s := exS4); [apply preach_step with (s := exS3);
      [apply preach_step with (s := exS2); [apply exS2_reach|]|]|]|]|].
  - by apply (P_send exS2 0 (newPending "SCL_1" "tel:+15550100") exOut).
  - by apply (P_store exS3 0 (exPending (Some exOut) false None (WSent exOut)) exOut).
  - by apply (P_close exS4 0 (exPending (Some exOut) false (Some exOut) (WStored exOut)) exOut).
  - by apply (P_receive exS5 0 0 (exPending (Some exOut) true (Some exOut) (WClosed exOut)) exOut).
  - by apply (P_return exS6 0 0 (exPending None true (Some exOut) (WClosed exOut)) exOut).
Qed.

Lemma exS9_reach : preach exS9.
Proof.
  apply preach_step with (s := exS8); [apply preach_step with (s := exS7); [apply exS7_reach|]|].
  - by apply (P_receiveClosed exS7 1 0 (exPending None true (Some exOut) (WClosed exOut))).
  - by apply (P_return exS8 1 0 (exPending None true (Some exOut) (WClosed exOut)) zeroOutcome).
Qed.

Lemma transfer_consensus_witness :
  requests exS9 !! 0%nat = Some (QReturned (Some 0%nat) exOut) /\
  exists pt, objects exS9 !! 0%nat = Some pt /\ outcomeOf pt = Some exOut.
Proof.
  split; [reflexivity|].
  apply (transfer_consensus exS9 0 1 0 exOut exOut); [apply exS9_reach|reflexivity|reflexivity].
Defined.

Lemma transfer_exclusive_witness : pendingTransfers exS2 !! "SCL_1" = Some 0%nat.
Proof.
  apply (transfer_exclusive exS2 0 0 (newPending "SCL_1" "tel:+15550100") (newPending "SCL_1" "tel:+15550100"));
    [apply exS2_reach|reflexivity..].
Defined.

Lemma transfer_wakes_witness :
  exists out s1 s2, pstep exS7 s1 /\ pstep s1 s2 /\ requests s2 !! 1%nat = Some (QReturned (Some 0%nat) out) /\
    Some out = Some exOut.
Proof.
  destruct (transfer_wakes exS7 1 0 (exPending None true (Some exOut) (WClosed exOut)) exS7_reach
              eq_refl eq_refl eq_refl) as (out & s1 & s2 & S1 & S2 & Q & O).
  exists out, s1, s2. split; [exact S1|]. split; [exact S2|]. split; [exact Q|]. by rewrite <- O.
Defined.
