(* ===== verification/Client.v ===== *)
(** * Addressing of outbound calls

    The construction of the request URI and of the From and To headers in
    [pkg/sip/client.go], with the checks of [createSIPParticipant] before a call is
    made, and the media configuration of [pkg/sip/media_codecs.go].

    Parsing a raw URI ([ParseUri]) and the names of transports are those of the SIP
    and protocol libraries: parameters.  A codec set of the media SDK is kept as the
    map from names to enabled it is built from. *)

From stdpp Require Import base tactics list gmap strings option.
From Stdlib Require Import ZArith Ascii Lia.
From S2P Require Import Prelude GoStd GoErr Participant Types Monitor.
Import strings strconv unquote.

(** ** Media configuration *)
Abbreviation CodecSet := (gmap string bool).

(** Names of the SDK's codecs. *)
Record CodecNames := { nm_dtmf : string; nm_alaw : string; nm_ulaw : string; nm_g722 : string; nm_amrwb : string }.

Definition defaultCodecs (n : CodecNames) : CodecSet :=
  <[nm_dtmf n := true]> (<[nm_alaw n := true]> (<[nm_ulaw n := true]> (<[nm_g722 n := true]>
    (<[nm_amrwb n := false]> ∅)))).

Record SIPMediaConfig := {
  OnlyListedCodecs : bool;
  mc_Codecs : list string;               (* by name *)
  mc_Encryption : option SIPMediaEncryption;
  mc_MediaTimeout : option Z;
  DropAudioDuringDtmf : bool;
}.

Record sipMediaConfig := {
  sm_Encryption : Encryption;
  sm_Codecs : CodecSet;
  sm_MediaTimeout : Z;
  sm_DropAudioDuringDTMF : bool;
}.

Fixpoint enableAll (l : list string) (s : CodecSet) : error + CodecSet :=
  match l with
  | [] => inr s
  | name :: l' =>
      if String.eqb name "" then inl (EText "no codec name specified")
      else enableAll l' (<[name := true]> s)
  end.

Definition codecSet (n : CodecNames) (m : SIPMediaConfig) : error + CodecSet :=
  let start :=
    if OnlyListedCodecs m then
      if Nat.eqb (length (mc_Codecs m)) 0 then inl (EText "no codecs specified") else inr ∅
    else inr (defaultCodecs n) in
  match start with
  | inl err => inl err
  | inr s =>
      match enableAll (mc_Codecs m) s with
      | inl err => inl err
      | inr s => inr (<[nm_dtmf n := true]> (<[nm_amrwb n := false]> s))
      end
  end.

Definition newMediaConfig (n : CodecNames) (m : SIPMediaConfig) (defaultTimeout : Z)
    : error + sipMediaConfig :=
  match sdpEncryption (mc_Encryption m) with
  | (_, Some msg) => inl (EText msg)
  | (enc, None) =>
      match codecSet n m with
      | inl err => inl err
      | inr s =>
          inr {| sm_Encryption := enc; sm_Codecs := s;
                 sm_MediaTimeout := match mc_MediaTimeout m with
                                    | Some t => if 0 <? t then t else defaultTimeout
                                    | None => defaultTimeout
                                    end;
                 sm_DropAudioDuringDTMF := DropAudioDuringDtmf m |}
      end
  end.

Definition featureFlagEnabled (flags : gmap string string) (flag : string) : bool :=
  ParseBool (default "" (flags !! flag)).

(** ** Request URIs *)
Inductive Dest :=
| DestRaw (raw : string)
| DestValues (u : SIPUri)
| DestOther.

Record NamedDest := { nd_Uri : Dest; nd_DisplayName : string }.

Record OutHeader := { oh_Address : SipUri; oh_DisplayName : string }.

Section uris.
Variable transportName : SIPTransport -> string.          (* SIPTransport.Name *)
Variable ParseUri : string -> option SipUri.

Definition isAuto (tr : SIPTransport) : bool := match tr with SIP_TRANSPORT_AUTO => true | _ => false end.

Definition setUriTransport (u : SipUri) (tr : SIPTransport) : SipUri :=
  if isAuto tr then u
  else {| su_User := su_User u; su_Host := su_Host u; su_Port := su_Port u;
          su_UriParams := <["transport" := transportName tr]> (su_UriParams u) |}.

Definition emptyUri : SipUri := {| su_User := ""; su_Host := ""; su_Port := 0; su_UriParams := ∅ |}.

Definition withAddr (user host : string) (port : Z) (u : SipUri) : SipUri :=
  {| su_User := user; su_Host := host; su_Port := port; su_UriParams := su_UriParams u |}.

Definition buildLegacyURI (user addr : string) (tr : SIPTransport) : error + SipUri :=
  if String.eqb user "" then inl (EText "number must be set")
  else if Contains user "@" then
    inl (EText "should be a phone number or SIP user, not a full SIP URI")
  else if String.eqb addr "" then inl (EText "address must be set")
  else if HasPrefix addr "sip:" || HasPrefix addr "sips:" then
    inl (EText "address must be a hostname without 'sip:' prefix")
  else if Contains addr "transport=" then
    inl (EText "legacy address must not contain parameters; use transport field")
  else if ContainsAny addr ";=" then inl (EText "legacy address must not contain parameters")
  else
    let p := setUriTransport emptyUri tr in
    match net.SplitHostPort addr with
    | inl (host, sport) =>
        if String.eqb sport "" then inr (withAddr user addr 0 p)
        else match Atoi sport with
             | (port, None) => inr (withAddr user host port p)
             | (_, Some _) => inl (EText ("invalid port in hostname: " +:+ fmt_q sport))
             end
    | inr _ => inr (withAddr user addr 0 p)
    end.

(** The outer angle brackets of a raw URI. *)
Definition unbracket (raw : string) : string :=
  match raw with
  | String "<" rest =>
      match List.rev (String.list_ascii_of_string rest) with
      | ">"%char :: l => String.string_of_list_ascii (List.rev l)
      | _ => raw
      end
  | _ => raw
  end.

Definition buildRawURI (raw : string) (tr : SIPTransport) : error + SipUri :=
  match ParseUri (unbracket raw) with
  | None => inl (EText "invalid request URI")
  | Some p => inr (setUriTransport p tr)
  end.

#[global] Instance SIPTransport_eq_dec : EqDecision SIPTransport.
Proof. solve_decision. Defined.

Definition buildValuesURI (u : SIPUri) (tr : SIPTransport) : error + SipUri :=
  let chosen :=
    if decide (tr = pu_Transport u) then Some tr
    else if isAuto (pu_Transport u) then Some tr
    else if isAuto tr then Some (pu_Transport u)
    else None in
  match chosen with
  | None => inl (EText "different transports specified")
  | Some tr =>
      if String.eqb (pu_User u) "" then inl (EText "username or number must be set")
      else if String.eqb (pu_Host u) "" && String.eqb (pu_Ip u) "" then
        inl (EText "host or ip must be set")
      else
        let host := if String.eqb (pu_Host u) "" then pu_Ip u else pu_Host u in
        let hasPort := match net.SplitHostPort host with
                       | inl (_, sport) => negb (String.eqb sport "")
                       | inr _ => false
                       end in
        if hasPort then inl (EText "host or ip must not contain port")
        else inr (withAddr (pu_User u) host (pu_Port u) (setUriTransport emptyUri tr))
  end.

(** [buildRequestURI] and [buildFromToURI]; they differ in the text of an error. *)
Definition buildURI (kind : string) (u : option Dest) (legacyUser legacyAddr : string) (tr : SIPTransport)
    : error + SipUri :=
  match u with
  | None => buildLegacyURI legacyUser legacyAddr tr
  | Some (DestRaw raw) => buildRawURI raw tr
  | Some (DestValues v) => buildValuesURI v tr
  | Some DestOther => inl (EText kind)
  end.

Definition buildRequestURI : option Dest -> string -> string -> SIPTransport -> error + SipUri :=
  buildURI "invalid request URI type".

Definition buildFromToURI (u : option NamedDest) : string -> string -> SIPTransport -> error + SipUri :=
  buildURI "invalid URI type" (nd_Uri <$> u).

(** ** Headers *)
Definition buildFromHeader (u : option NamedDest) (legacyName : option string)
    (legacyUser legacyAddr : string) (tr : SIPTransport) : error + OutHeader :=
  match buildFromToURI u legacyUser legacyAddr tr with
  | inl err => inl err
  | inr su =>
      inr {| oh_Address := su;
             oh_DisplayName := match u, legacyName with
                               | Some u, _ => nd_DisplayName u
                               | None, Some n => n
                               | None, None => su_User su
                               end |}
  end.

Definition sipUserChar (c : ascii) : bool :=
  let n := code c in
  ((48 <=? n) && (n <=? 57)) || ((97 <=? n) && (n <=? 122)) || ((65 <=? n) && (n <=? 90)) ||
  ContainsRune "-.!%*_+`'~" c.

Definition isSIPUserToken (s : string) : bool := allc sipUserChar s.

Definition buildToHeader (u : option NamedDest) (userOverride legacyUser legacyAddr : string)
    (tr : SIPTransport) : error + OutHeader :=
  if match u with Some _ => negb (String.eqb legacyUser "") | None => false end then
    inl (EText "cannot use both CallTo and SipToHeader")
  else
    match buildFromToURI u legacyUser legacyAddr tr with
    | inl err => inl err
    | inr su =>
        let name := match u with Some u => nd_DisplayName u | None => "" end in
        if negb (String.eqb userOverride "") then
          if negb (isSIPUserToken userOverride) then
            inl (EText "to user override should be a phone number or SIP user, not a full SIP URI")
          else inr {| oh_Address := withAddr userOverride (su_Host su) (su_Port su) su; oh_DisplayName := name |}
        else inr {| oh_Address := su; oh_DisplayName := name |}
    end.

Record CreateRequest := {
  cr_SipRequestUri : option Dest;
  cr_SipToHeader : option NamedDest;
  cr_SipFromHeader : option NamedDest;
  CallTo : string;
  cr_Address : string;
  cr_Hostname : string;
  cr_Number : string;
  cr_DisplayName : option string;
  ToUserOverride : string;
  cr_Transport : SIPTransport;
  cr_RoomName : string;
  cr_Media : SIPMediaConfig;
}.

Definition invalid (what : string) (err : error) : error :=
  NewError InvalidArgument (EWrap ("invalid " +:+ what +:+ ": ") err "").

Definition buildOutboundHeaders (req : CreateRequest) (defaultHost : string)
    : error + (SipUri * OutHeader * OutHeader) :=
  match buildRequestURI (cr_SipRequestUri req) (CallTo req) (cr_Address req) (cr_Transport req) with
  | inl err => inl (invalid "request URI" err)
  | inr uri =>
      match buildToHeader (cr_SipToHeader req) (ToUserOverride req) (CallTo req) (cr_Address req)
              (cr_Transport req) with
      | inl err => inl (invalid "To header" err)
      | inr to =>
          let fromHost := if String.eqb (cr_Hostname req) "" then defaultHost else cr_Hostname req in
          match buildFromHeader (cr_SipFromHeader req) (cr_DisplayName req) (cr_Number req) fromHost
                  (cr_Transport req) with
          | inl err => inl (invalid "From header" err)
          | inr from => inr (uri, from, to)
          end
      end
  end.

(** [createSIPParticipant] up to the call record.  [contact] is the host of the
    contact URI for a transport. *)
Definition prepareCall (n : CodecNames) (health : HealthStatus) (contact : Transport -> string)
    (mediaTimeout : Z) (req : CreateRequest) : error + (sipMediaConfig * (SipUri * OutHeader * OutHeader)) :=
  match health with
  | HealthOK =>
      if String.eqb (cr_RoomName req) "" then inl (NewErrorf InvalidArgument "room name must be set")
      else
        match newMediaConfig n (cr_Media req) mediaTimeout with
        | inl err => inl err
        | inr mconf =>
            match buildOutboundHeaders req (contact (TransportFrom (cr_Transport req))) with
            | inl err => inl err
            | inr h => inr (mconf, h)
            end
        end
  | _ => inl (NewErrorf Unavailable "cpu exhausted")
  end.
End uris.

(** ** Theorems *)
Lemma enableAll_lookup l s s' name :
  enableAll l s = inr s' -> s' !! name = Some true <-> name ∈ l \/ s !! name = Some true.
Proof.
  revert s. induction l as [|x l IH]; intros s; cbn [enableAll]; [intros [= ->]; set_solver|].
  case_match; [done|]. intros Hl. rewrite (IH _ Hl). destruct (decide (name = x)) as [->|].
  - rewrite lookup_insert_eq. set_solver.
  - rewrite lookup_insert_ne by done. set_solver.
Qed.

(** The codecs of a call.  A codec is offered exactly if it is DTMF, or it is not AMR-WB and
    either it is listed in the request or the defaults are kept and it is one of
    them. *)
Theorem codecSet_offered n m s name :
  nm_dtmf n <> nm_amrwb n -> codecSet n m = inr s ->
  s !! name = Some true <->
  name = nm_dtmf n \/
  name <> nm_amrwb n /\
  (name ∈ mc_Codecs m \/
   OnlyListedCodecs m = false /\ (name = nm_alaw n \/ name = nm_ulaw n \/ name = nm_g722 n)).
Proof.
  intros Hd. unfold codecSet.
  destruct (OnlyListedCodecs m).
  - destruct (Nat.eqb _ _); [done|]. destruct (enableAll (mc_Codecs m) ∅) as [e|s1] eqn:E; [done|].
    intros [= <-]. pose proof (enableAll_lookup _ _ _ name E) as Hl. rewrite lookup_empty in Hl.
    destruct (decide (name = nm_dtmf n)) as [->|]; [rewrite lookup_insert_eq; tauto|].
    rewrite lookup_insert_ne by done. destruct (decide (name = nm_amrwb n)) as [->|].
    + rewrite lookup_insert_eq. split; [done|]. intros [?|[? _]]; done.
    + rewrite lookup_insert_ne by done. rewrite Hl. naive_solver.
  - destruct (enableAll (mc_Codecs m) (defaultCodecs n)) as [e|s1] eqn:E; [done|].
    intros [= <-]. pose proof (enableAll_lookup _ _ _ name E) as Hl.
    destruct (decide (name = nm_dtmf n)) as [->|]; [rewrite lookup_insert_eq; tauto|].
    rewrite lookup_insert_ne by done. destruct (decide (name = nm_amrwb n)) as [->|].
    + rewrite lookup_insert_eq. split; [done|]. intros [?|[? _]]; done.
    + rewrite lookup_insert_ne by done. rewrite Hl. unfold defaultCodecs.
      rewrite lookup_insert_ne by done.
      destruct (decide (name = nm_alaw n)) as [->|]; [rewrite lookup_insert_eq; naive_solver|].
      rewrite lookup_insert_ne by done.
      destruct (decide (name = nm_ulaw n)) as [->|]; [rewrite lookup_insert_eq; naive_solver|].
      rewrite lookup_insert_ne by done.
      destruct (decide (name = nm_g722 n)) as [->|]; [rewrite lookup_insert_eq; naive_solver|].
      rewrite lookup_insert_ne by done. rewrite lookup_insert_ne by done. rewrite lookup_empty. naive_solver.
Qed.

Definition exNames : CodecNames :=
  {| nm_dtmf := "telephone-event"; nm_alaw := "PCMA"; nm_ulaw := "PCMU"; nm_g722 := "G722"; nm_amrwb := "AMR-WB" |}.

Definition exMedia (only : bool) (l : list string) : SIPMediaConfig :=
  {| OnlyListedCodecs := only; mc_Codecs := l; mc_Encryption := None; mc_MediaTimeout := None;
     DropAudioDuringDtmf := false |}.

Lemma codecSet_offered_witness :
  exists s, codecSet exNames (exMedia true ["PCMA"; "AMR-WB"]) = inr s /\
    s !! "PCMA" = Some true /\ s !! "AMR-WB" <> Some true.
Proof.
  refine (ex_intro _ _ (conj eq_refl _)).
  match goal with |- ?s !! _ = _ /\ _ => pose proof (fun x => codecSet_offered exNames (exMedia true ["PCMA"; "AMR-WB"])
    s x ltac:(done) eq_refl) as Hc end.
  split.
  - apply (Hc "PCMA"). right. split; [done|]. left. set_solver.
  - intros Hs. apply (Hc "AMR-WB") in Hs. destruct Hs as [Hs|[Hs _]]; done.
Defined.

Section uri_lemmas.
Context (transportName : SIPTransport -> string) (ParseUri : string -> option SipUri).

Definition carries (tr : SIPTransport) (u : SipUri) : Prop :=
  isAuto tr = false -> su_UriParams u !! "transport" = Some (transportName tr).

Lemma setUriTransport_carries u tr : carries tr (setUriTransport transportName u tr).
Proof. unfold carries, setUriTransport. intros ->. cbn. by rewrite lookup_insert_eq. Qed.

Lemma buildURI_carries kind u user addr tr su :
  buildURI transportName ParseUri kind u user addr tr = inr su -> carries tr su.
Proof.
  destruct u as [[raw|v|]|]; cbn [buildURI]; [| |done|].
  - unfold buildRawURI. destruct (ParseUri _); [|done]. intros [= <-]. apply setUriTransport_carries.
  - unfold buildValuesURI. intros Hb Ha. repeat case_match; try done; simplify_eq;
      cbn [withAddr su_UriParams] in *; try (by apply setUriTransport_carries); congruence.
  - unfold buildLegacyURI. intros Hb. repeat case_match; try done; injection Hb as <-;
      apply setUriTransport_carries.
Qed.
End uri_lemmas.

(** The transport of a request is in every address.  When a transport is chosen for an
    outbound call and its headers can be built, the request URI and the addresses
    of From and To all carry it, however each of them was given. *)
Theorem buildOutboundHeaders_transport transportName ParseUri req host uri from to :
  isAuto (cr_Transport req) = false ->
  buildOutboundHeaders transportName ParseUri req host = inr (uri, from, to) ->
  Forall (fun u => su_UriParams u !! "transport" = Some (transportName (cr_Transport req)))
    [uri; oh_Address from; oh_Address to].
Proof.
  intros Ha. unfold buildOutboundHeaders, buildRequestURI, buildToHeader, buildFromHeader, buildFromToURI.
  destruct (buildURI _ _ _ (cr_SipRequestUri req) _ _ _) as [e|u1] eqn:E1; [done|].
  destruct (match cr_SipToHeader req with Some _ => _ | None => _ end); [done|].
  destruct (buildURI _ _ _ (nd_Uri <$> cr_SipToHeader req) _ _ _) as [e|u2] eqn:E2; [done|].
  apply buildURI_carries in E1, E2. specialize (E1 Ha). specialize (E2 Ha).
  destruct (buildURI _ _ _ (nd_Uri <$> cr_SipFromHeader req) _ _ _) as [e|u3] eqn:E3.
  { by repeat case_match. }
  apply buildURI_carries in E3. specialize (E3 Ha).
  repeat case_match; try done; intros Hb; simplify_eq; by repeat constructor.
Qed.

(** The characters that end the user part of a URI, or a header. *)
Definition delimiters : list ascii :=
  ["@"; ":"; ";"; "?"; "/"; "<"; ">"; "("; ")"; ","; " "; dquote; bslash; "="; "&"; creturn; newline]%char.

Lemma token_free s c : isSIPUserToken s = true -> c ∈ delimiters -> freec c s = true.
Proof.
  intros Hs Hc. unfold isSIPUserToken, freec in *. induction s as [|x s IH]; [done|]. cbn [allc] in *.
  apply andb_prop in Hs as [Hx Hs]. rewrite (IH Hs), andb_true_r. apply negb_true_iff, Ascii.eqb_neq.
  intros ->. unfold delimiters in Hc. repeat (apply elem_of_cons in Hc as [->|Hc]; [by vm_compute in Hx|]).
  by apply elem_of_nil in Hc.
Qed.

(** The user a caller chooses for the To header stays one.  If a request with an override of
    the To user is accepted, the user of the To address is that text and contains
    no character that could end the user part, the address or the header; an
    override with such a character is refused. *)
Theorem to_override_safe transportName ParseUri u override user addr tr :
  override <> "" ->
  match buildToHeader transportName ParseUri u override user addr tr with
  | inr h => su_User (oh_Address h) = override /\ forall c, c ∈ delimiters -> freec c override = true
  | inl _ => True
  end /\
  (forall c, c ∈ delimiters -> freec c override = false ->
   exists err, buildToHeader transportName ParseUri u override user addr tr = inl err).
Proof.
  intros Hn. apply String.eqb_neq in Hn. unfold buildToHeader. split.
  - destruct (match u with Some _ => _ | None => _ end); [done|]. destruct (buildFromToURI _ _ u user addr tr) as [e|su]; [done|]. rewrite Hn. cbn [negb].
    destruct (isSIPUserToken override) eqn:Et; [|done]. split; [done|]. intros c Hc. by apply token_free.
  - intros c Hc Hf. destruct (match u with Some _ => _ | None => _ end); [by eexists|].
    destruct (buildFromToURI _ _ u user addr tr) as [e|su]; [by eexists|]. rewrite Hn. cbn [negb].
    destruct (isSIPUserToken override) eqn:Et; [|by eexists]. rewrite (token_free _ _ Et Hc) in Hf. done.
Qed.

Lemma to_override_safe_witness :
  exists err, buildToHeader (fun _ => "udp") (fun _ => None) None "1@evil.com" "123" "sip.example.com"
    SIP_TRANSPORT_AUTO = inl err.
Proof.
  destruct (to_override_safe (fun _ => "udp") (fun _ => None) None "1@evil.com" "123" "sip.example.com"
              SIP_TRANSPORT_AUTO ltac:(done)) as [_ Hr].
  apply (Hr "@"%char); [set_solver|reflexivity].
Defined.

Definition exCreate : CreateRequest :=
  {| cr_SipRequestUri := Some (DestRaw "<sip:bob@example.com>");
     cr_SipToHeader := Some {| nd_Uri := DestValues {| pu_User := "bob"; pu_Host := "example.com"; pu_Ip := "";
                                 pu_Port := 0; pu_Transport := SIP_TRANSPORT_AUTO |}; nd_DisplayName := "Bob" |};
     cr_SipFromHeader := None; CallTo := ""; cr_Address := ""; cr_Hostname := ""; cr_Number := "+15550100";
     cr_DisplayName := None; ToUserOverride := ""; cr_Transport := SIP_TRANSPORT_TCP; cr_RoomName := "room";
     cr_Media := exMedia false [] |}.

Lemma buildOutboundHeaders_transport_witness :
  exists uri from to,
    buildOutboundHeaders (fun _ => "tcp") (fun _ => Some emptyUri) exCreate "10.0.0.1" = inr (uri, from, to) /\
    Forall (fun u => su_UriParams u !! "transport" = Some "tcp") [uri; oh_Address from; oh_Address to].
Proof.
  eexists _, _, _. split; [vm_compute; reflexivity|].
  apply (buildOutboundHeaders_transport (fun _ => "tcp") (fun _ => Some emptyUri) exCreate "10.0.0.1").
  - reflexivity.
  - vm_compute. reflexivity.
Defined.

(** The address of a call to a number.  A host and a port are taken apart as they were given,
    for every port a Go int can hold: there is no upper bound, and in the call's
    record a port of 65536 or more becomes another one.  A host alone is called at
    no port. *)
Theorem legacy_address transportName user host port tr :
  user <> "" -> Contains user "@" = false ->
  let addr := host +:+ String ":" (utoa port) in
  HasPrefix addr "sip:" = false -> HasPrefix addr "sips:" = false -> Contains addr "transport=" = false ->
  ContainsAny addr ";=" = false ->
  freec ":" host = true -> freec "[" host = true -> freec "]" host = true -> 0 <= port <= maxInt64 ->
  exists u, buildLegacyURI transportName user addr tr = inr u /\
    su_User u = user /\ su_Host u = host /\ su_Port u = port /\
    (host <> "" -> netip.port (uri_Addr (ConvertURI u)) = port mod 65536).
Proof.
  intros Hu Ha addr H1 H2 H3 H4 Hc Hl Hr Hp. unfold buildLegacyURI.
  rewrite (proj2 (String.eqb_neq _ _) Hu), Ha, H1, H2, H3, H4. cbn [orb].
  assert (addr <> "") as Hn. { subst addr. by destruct host. }
  rewrite (proj2 (String.eqb_neq _ _) Hn). subst addr.
  rewrite SplitHostPort_join by first [done | apply utoa_free; [lia | done]].
  assert (utoa port <> "") as Hne by apply utoa_nonempty.
  rewrite (proj2 (String.eqb_neq _ _) Hne), Atoi_utoa by lia.
  eexists. split; [done|]. split_and!; try done. intros Hh.
  unfold ConvertURI, Normalize. cbn [Host su_Host withAddr].
  assert (net.SplitHostPort host = inr net.MissingPort) as ->.
  { unfold net.SplitHostPort. assert (net.rcutc ":" host = None) as ->; [|done].
    clear - Hc. revert Hc. unfold freec. induction host as [|x h IH]; [done|]. cbn.
    intros [Hx Ht]%andb_prop. rewrite (IH Ht). by apply negb_true_iff in Hx as ->. }
  done.
Qed.

Lemma legacy_address_witness :
  exists u, buildLegacyURI (fun _ => "udp") "+15550100" ("sip.example.com" +:+ String ":" (utoa 70000))
    SIP_TRANSPORT_AUTO = inr u /\ su_Port u = 70000 /\ netip.port (uri_Addr (ConvertURI u)) = 4464.
Proof.
  destruct (legacy_address (fun _ => "udp") "+15550100" "sip.example.com" 70000 SIP_TRANSPORT_AUTO)
    as (u & Hu & _ & _ & Hp & Hw);
    [discriminate|vm_compute; reflexivity..|split; vm_compute; discriminate|].
  exists u. split; [exact Hu|]. split; [exact Hp|]. rewrite Hw; [reflexivity|discriminate].
Defined.
