(* ===== verification/Requests.v ===== *)
(** * Requests of a dialog

    The headers of the requests the service sends: [attemptInvite] and
    [applyInviteResponse] of [pkg/sip/outbound.go], [NewReferRequest] and [setCSeq] of
    [pkg/sip/protocol.go], [swapSrcDst], [generateViaHeader], [addExtraHeaders] and
    [newReferReq] of [pkg/sip/inbound.go].  The header lists of messages are kept by the SIP
    library, whose operations are the class [HeaderLib] with the laws the code relies on.
    A nil dereference or a failed type assertion is [None]. *)

From stdpp Require Import base tactics list gmap strings option.
From Stdlib Require Import ZArith Lia.
From S2P Require Import Prelude GoStd GoErr Types SipInbound SipOutbound.
Import strings.

(** ** Messages *)
Record Via := { vh_Protocol : string; vh_Transport : string; vh_Host : string; vh_Port : Z; vh_Branch : option string }.

(** A header: of a type the library knows, or one made of a name and a value. *)
Inductive Hdr :=
| HVia (v : Via)
| HRoute (u : SipUri)
| HRecordRoute (u : SipUri)
| HFrom (a : AddrHeader)
| HTo (a : AddrHeader)
| HCallID (id : string)
| HCSeq (seq : Z) (method : string)
| HContact (u : SipUri)
| HMaxForwards (n : Z)
| HGeneric (name value : string).

(** Names are compared without their case. *)
Definition hname (h : Hdr) : string :=
  match h with
  | HVia _ => "via" | HRoute _ => "route" | HRecordRoute _ => "record-route" | HFrom _ => "from" | HTo _ => "to"
  | HCallID _ => "call-id" | HCSeq _ _ => "cseq" | HContact _ => "contact" | HMaxForwards _ => "max-forwards"
  | HGeneric n _ => ToLower n
  end.

Record Msg := {
  m_Method : string;
  m_Recipient : SipUri;
  m_Version : string;
  m_Transport : string;
  m_Source : string;
  m_Dest : string;
  m_hdrs : list Hdr;
  m_Body : string;
}.

Definition set_hdrs (l : list Hdr) (m : Msg) : Msg :=
  {| m_Method := m_Method m; m_Recipient := m_Recipient m; m_Version := m_Version m; m_Transport := m_Transport m;
     m_Source := m_Source m; m_Dest := m_Dest m; m_hdrs := l; m_Body := m_Body m |}.
Definition set_line (u : SipUri) (src dest : string) (m : Msg) : Msg :=
  {| m_Method := m_Method m; m_Recipient := u; m_Version := m_Version m; m_Transport := m_Transport m;
     m_Source := src; m_Dest := dest; m_hdrs := m_hdrs m; m_Body := m_Body m |}.

(** The headers of a name, in their order. *)
Definition named (n : string) (l : list Hdr) : list Hdr := List.filter (fun h => String.eqb (hname h) n) l.
Arguments named : simpl never.

(** The library's operations on the headers of a message; names in lower case. *)
Class HeaderLib := {
  newHeaders : list Hdr;                                      (* of NewRequest *)
  AppendHeader : Hdr -> list Hdr -> list Hdr;
  PrependHeader : Hdr -> list Hdr -> list Hdr;
  RemoveHeader : string -> list Hdr -> option (list Hdr);     (* [None]: there was none *)
  GetHeaders : string -> list Hdr -> list Hdr;
  CopyHeaders : string -> list Hdr -> list Hdr -> list Hdr;   (* name, from, to *)
}.

Class HeaderLaws `{HeaderLib} : Prop := {
  newHeaders_law : newHeaders = [];
  AppendHeader_law : forall h l, AppendHeader h l = l ++ [h];
  PrependHeader_law : forall h l, PrependHeader h l = h :: l;
  RemoveHeader_none : forall n l, RemoveHeader n l = None -> named n l = [];
  RemoveHeader_some : forall n l l', RemoveHeader n l = Some l' ->
    exists l1 h l2, l = l1 ++ h :: l2 /\ hname h = n /\ l' = l1 ++ l2;
  GetHeaders_law : forall n l, GetHeaders n l = named n l;
  CopyHeaders_law : forall n from to, CopyHeaders n from to = to ++ named n from;
}.

Section requests.
Context `{HeaderLib}.

Definition remove1 (n : string) (l : list Hdr) : list Hdr := default l (RemoveHeader n l).

(** [for req.RemoveHeader(n) {}]: each turn removes a header, so the number of headers is
    enough fuel. *)
Fixpoint removeLoop (fuel : nat) (n : string) (l : list Hdr) : list Hdr :=
  match fuel with
  | O => l
  | S fuel => match RemoveHeader n l with Some l' => removeLoop fuel n l' | None => l end
  end.
Definition removeAll (n : string) (l : list Hdr) : list Hdr := removeLoop (S (length l)) n l.

(** [req.Via()], [req.CSeq()] and so on: the first header of the type; and an update of it
    in place. *)
Fixpoint first {A} (f : Hdr -> option A) (l : list Hdr) : option A :=
  match l with [] => None | h :: l' => match f h with Some a => Some a | None => first f l' end end.
Fixpoint updFirst (f : Hdr -> option Hdr) (l : list Hdr) : list Hdr :=
  match l with [] => [] | h :: l' => match f h with Some h' => h' :: l' | None => h :: updFirst f l' end end.

Definition asVia (h : Hdr) : option Via := match h with HVia v => Some v | _ => None end.
Definition asCSeq (h : Hdr) : option (Z * string) := match h with HCSeq n m => Some (n, m) | _ => None end.
Definition asContact (h : Hdr) : option SipUri := match h with HContact u => Some u | _ => None end.
Definition asRecordRoute (h : Hdr) : option SipUri := match h with HRecordRoute u => Some u | _ => None end.
Definition isFrom (h : Hdr) : option AddrHeader := match h with HFrom a => Some a | _ => None end.
Definition isTo (h : Hdr) : option AddrHeader := match h with HTo a => Some a | _ => None end.
Definition isCallID (h : Hdr) : option string := match h with HCallID s => Some s | _ => None end.

Definition withBranch (b : string) (v : Via) : Via :=
  {| vh_Protocol := vh_Protocol v; vh_Transport := vh_Transport v; vh_Host := vh_Host v; vh_Port := vh_Port v;
     vh_Branch := Some b |}.

Definition allowed : string := "INVITE, ACK, CANCEL, BYE, NOTIFY, REFER, MESSAGE, OPTIONS, INFO, SUBSCRIBE".

(** The headers of a map, in the order in which it is read. *)
Definition appendMap (headers : list (string * string)) (l : list Hdr) : list Hdr :=
  foldl (fun l '(k, v) => AppendHeader (HGeneric k v) l) l headers.

Definition copyIf {A} (f : Hdr -> option A) (n : string) (from to : list Hdr) : list Hdr :=
  match first f from with Some _ => CopyHeaders n from to | None => to end.

(** *** REFER *)
Definition referRoutes (inviteRequest inviteResponse : Msg) (l : list Hdr) : list Hdr :=
  match GetHeaders "route" (m_hdrs inviteRequest) with
  | _ :: _ => CopyHeaders "route" (m_hdrs inviteRequest) l
  | [] =>
      foldl (fun l h => match asRecordRoute h with Some _ => AppendHeader h l | None => l end) l
        (rev (GetHeaders "record-route" (m_hdrs inviteResponse)))
  end.

Definition NewReferRequest (branch : string) (inviteRequest inviteResponse : Msg) (contact : SipUri)
    (referToUrl : string) (headers : list (string * string)) : option Msg :=
  let l := CopyHeaders "via" (m_hdrs inviteRequest) newHeaders in
  match first asVia l with
  | None => None
  | Some _ =>
      let l := updFirst (fun h => (fun v => HVia (withBranch branch v)) <$> asVia h) l in
      let l := referRoutes inviteRequest inviteResponse l in
      let l := AppendHeader (HMaxForwards 70) l in
      let l := copyIf isFrom "from" (m_hdrs inviteRequest) l in
      let l := copyIf isTo "to" (m_hdrs inviteResponse) l in
      let l := copyIf isCallID "call-id" (m_hdrs inviteRequest) l in
      let l := copyIf asCSeq "cseq" (m_hdrs inviteRequest) l in
      let l := AppendHeader (HContact contact) l in
      match first asCSeq l with
      | None => None
      | Some _ =>
          let l := updFirst (fun h => (fun '(n, _) => HCSeq (u32 (n + 1)) "REFER") <$> asCSeq h) l in
          let l := AppendHeader (HGeneric "Refer-To" referToUrl) l in
          let l := AppendHeader (HGeneric "Allow" allowed) l in
          Some {| m_Method := "REFER"; m_Recipient := m_Recipient inviteRequest; m_Version := m_Version inviteRequest;
                  m_Transport := m_Transport inviteRequest; m_Source := m_Source inviteRequest;
                  m_Dest := m_Dest inviteRequest; m_hdrs := appendMap headers l; m_Body := "" |}
      end
  end.

Definition setCSeq (cseq : Z) (req : Msg) : Msg :=
  set_hdrs (AppendHeader (HCSeq cseq (m_Method req)) (remove1 "cseq" (m_hdrs req))) req.

(** *** The side of the callee *)
Record inboundDialog := {
  d_invite : Msg;
  d_inviteOk : Msg;
  d_contact : SipUri;
  d_to : AddrHeader;
  d_from : AddrHeader;
  d_legTr : Transport;
}.

Definition generateViaHeader (signalingIP : string) (sipPort : Z) (branch : string) (req : Msg) : Via :=
  {| vh_Protocol := "SIP/2.0"; vh_Transport := m_Transport req; vh_Host := signalingIP; vh_Port := sipPort;
     vh_Branch := Some branch |}.

(** What the destination depends on, for [SipInbound.swapSrcDst]. *)
Definition peerOf (d : inboundDialog) (open : bool) : PeerInfo :=
  {| okDest := m_Dest (d_inviteOk d); peerContact := first asContact (m_hdrs (d_invite d)); connOpen := open;
     recordRoute := first asRecordRoute (m_hdrs (d_invite d)) |}.

(** The type assertion on a Record-Route header fails for one that is not of the type. *)
Fixpoint prependRoutes (rr l : list Hdr) : option (list Hdr) :=
  match rr with
  | [] => Some l
  | h :: rr' => match asRecordRoute h with Some u => prependRoutes rr' (PrependHeader (HRoute u) l) | None => None end
  end.

Definition swapHeaders (signalingIP : string) (sipPort : Z) (branch : string) (d : inboundDialog) (open : bool)
    (req : Msg) : option (Msg * string) :=
  let '(dest, fallback) := swapSrcDst (d_legTr d) (peerOf d open) in
  let recipient := match first asContact (m_hdrs (d_invite d)) with Some u => u | None => Address (d_from d) end in
  let req := set_line recipient (m_Source (d_inviteOk d)) dest req in
  let l := AppendHeader (HFrom (d_to d)) (remove1 "from" (m_hdrs req)) in
  let l := AppendHeader (HTo (d_from d)) (remove1 "to" l) in
  let l := PrependHeader (HVia (generateViaHeader signalingIP sipPort branch req)) (removeAll "via" l) in
  match prependRoutes (GetHeaders "record-route" l) l with
  | None => None
  | Some l => Some (set_hdrs (removeAll "record-route" l) req, fallback)
  end.

(** The REFER of [newReferReq], from its sequence number. *)
Definition referInbound (signalingIP : string) (sipPort : Z) (branch1 branch2 : string) (d : inboundDialog)
    (open : bool) (cseq : Z) (transferTo : string) (headers : list (string * string)) : option (Msg * string) :=
  match NewReferRequest branch1 (d_invite d) (d_inviteOk d) (d_contact d) transferTo headers with
  | None => None
  | Some req => swapHeaders signalingIP sipPort branch2 d open (setCSeq cseq req)
  end.

Definition addLr (u : SipUri) : SipUri :=
  {| su_User := su_User u; su_Host := su_Host u; su_Port := su_Port u; su_UriParams := <["lr" := ""]> (su_UriParams u) |}.

Definition addExtraHeaders (addRecordRoute : bool) (contact : SipUri) (r : Msg) : Msg :=
  if addRecordRoute then set_hdrs (PrependHeader (HRecordRoute (addLr contact)) (m_hdrs r)) r else r.

(** *** The side of the caller *)
(** The INVITE of [attemptInvite]; [auth]: the header with the credentials. *)
Definition inviteRequest (uri : SipUri) (transport version dest : string) (cseq : Z) (callID : string) (offer : string)
    (to from : AddrHeader) (contact : SipUri) (auth : option (string * string)) (headers : list (string * string))
    (routeHeaders : list string) : Msg :=
  let req := setCSeq cseq {| m_Method := "INVITE"; m_Recipient := uri; m_Version := version; m_Transport := transport;
                             m_Source := ""; m_Dest := dest; m_hdrs := newHeaders; m_Body := offer |} in
  let l := AppendHeader (HCallID callID) (remove1 "call-id" (m_hdrs req)) in
  let l := AppendHeader (HContact contact) (AppendHeader (HFrom from) (AppendHeader (HTo to) l)) in
  let l := AppendHeader (HGeneric "Content-Type" "application/sdp") l in
  let l := AppendHeader (HGeneric "Allow" allowed) l in
  let l := match auth with
           | Some (n, v) => if String.eqb v "" then l else AppendHeader (HGeneric n v) l
           | None => l
           end in
  let l := appendMap headers l in
  set_hdrs (foldl (fun l r => PrependHeader (HGeneric "Route" r) l) l routeHeaders) req.

(** [applyInviteResponse] on the messages. *)
Definition applyResponse (resp req : Msg) : option Msg :=
  let '(recipient, _, flush) :=
    applyInviteResponse (m_Recipient req) [] (first asContact (m_hdrs resp)) [] in
  let hadRoute := match RemoveHeader "route" (m_hdrs req) with Some _ => true | None => false end in
  let rrs := GetHeaders "record-route" (m_hdrs resp) in
  let flush := flush || hadRoute || match rrs with [] => false | _ => true end in
  match prependRoutes rrs (removeAll "route" (m_hdrs req)) with
  | None => None
  | Some l => Some (set_hdrs l (set_line recipient (m_Source req) (if flush then "" else m_Dest req) req))
  end.

(** The REFER of [sipOutbound.transferCall]. *)
Definition referOutbound (branch : string) (invite inviteOk : Msg) (contact : SipUri) (cseq : Z) (transferTo : string)
    (headers : list (string * string)) : option Msg :=
  setCSeq cseq <$> NewReferRequest branch invite inviteOk contact transferTo headers.
End requests.

(** ** An instance: lists *)
Fixpoint removeFirst (n : string) (l : list Hdr) : option (list Hdr) :=
  match l with
  | [] => None
  | h :: l' => if String.eqb (hname h) n then Some l' else cons h <$> removeFirst n l'
  end.

#[global] Instance listHeaders : HeaderLib := {
  newHeaders := [];
  AppendHeader h l := l ++ [h];
  PrependHeader h l := h :: l;
  RemoveHeader := removeFirst;
  GetHeaders := named;
  CopyHeaders n from to := to ++ named n from;
}.

#[global] Instance listHeaders_laws : HeaderLaws.
Proof.
  split; try done.
  - intros n l. unfold named. cbn. induction l as [|h l IH]; [done|]. cbn. destruct (String.eqb _ _); [done|].
    destruct (removeFirst n l); [done|]. auto.
  - intros n l. cbn. induction l as [|h l IH]; intros l'; [done|]. cbn. destruct (String.eqb_spec (hname h) n) as [E|E].
    + intros [= <-]. by exists [], h, l.
    + destruct (removeFirst n l) as [l0|]; [|done]. intros [= <-].
      destruct (IH l0 eq_refl) as (l1 & h' & l2 & -> & Hn & ->). by exists (h :: l1), h', l2.
Qed.

(** ** Theorems *)
Section facts.
Context `{HeaderLaws}.

Lemma named_app n l1 l2 : named n (l1 ++ l2) = named n l1 ++ named n l2.
Proof. apply List.filter_app. Qed.

Lemma named_append n h l : named n (AppendHeader h l) = named n l ++ named n [h].
Proof. by rewrite AppendHeader_law, named_app. Qed.

Lemma named_prepend n h l : named n (PrependHeader h l) = named n [h] ++ named n l.
Proof. rewrite PrependHeader_law. apply (named_app n [h] l). Qed.

Lemma named_named n m l : named n (named m l) = if String.eqb n m then named n l else [].
Proof.
  unfold named. induction l as [|h l IH]; [by destruct (String.eqb n m)|]. cbn.
  destruct (String.eqb_spec (hname h) m) as [E1|E1]; cbn; destruct (String.eqb_spec (hname h) n) as [E2|E2];
    destruct (String.eqb_spec n m) as [E3|E3]; rewrite ?IH; congruence.
Qed.

Lemma named_copy n m from to :
  named n (CopyHeaders m from to) = named n to ++ if String.eqb n m then named n from else [].
Proof. by rewrite CopyHeaders_law, named_app, named_named. Qed.

Lemma named_mid n l1 h l2 : named n (l1 ++ h :: l2) = named n l1 ++ named n [h] ++ named n l2.
Proof. rewrite named_app. f_equal. apply (named_app n [h] l2). Qed.

Lemma named_remove1_ne n m l : n <> m -> named n (remove1 m l) = named n l.
Proof.
  intros Hne. unfold remove1. destruct (RemoveHeader m l) as [l'|] eqn:E; [|done].
  change (default l (Some l')) with l'.
  destruct (RemoveHeader_some _ _ _ E) as (l1 & h & l2 & -> & Hn & ->). rewrite named_mid, named_app. f_equal. unfold named. cbn.
  by rewrite Hn, (proj2 (String.eqb_neq m n)).
Qed.

Lemma named_remove1_eq n l : (length (named n l) <= 1)%nat -> named n (remove1 n l) = [].
Proof.
  intros Hl. unfold remove1. destruct (RemoveHeader n l) as [l'|] eqn:E; [|by apply RemoveHeader_none].
  destruct (RemoveHeader_some _ _ _ E) as (l1 & h & l2 & -> & Hn & ->).
  change (default _ (Some (l1 ++ l2))) with (l1 ++ l2). rewrite named_app. rewrite named_mid, !length_app in Hl.
  unfold named in Hl at 2. cbn [List.filter] in Hl. rewrite Hn, String.eqb_refl in Hl. cbn [length] in Hl.
  destruct (named n l1); [|cbn in Hl; lia]. destruct (named n l2); [done|cbn in Hl; lia].
Qed.

Lemma removeLoop_named n m l : forall fuel, (length l < fuel)%nat ->
  named n (removeLoop fuel m l) = if String.eqb n m then [] else named n l.
Proof.
  intros fuel. revert l. induction fuel as [|fuel IH]; intros l Hf; [lia|]. cbn.
  destruct (RemoveHeader m l) as [l'|] eqn:E.
  - destruct (RemoveHeader_some _ _ _ E) as (l1 & h & l2 & -> & Hn & ->).
    rewrite IH by (rewrite length_app in *; cbn in Hf; lia). destruct (String.eqb_spec n m) as [|Hne]; [done|].
    rewrite named_mid, named_app. f_equal. unfold named. cbn. by rewrite Hn, (proj2 (String.eqb_neq m n)).
  - destruct (String.eqb_spec n m) as [->|]; [|done]. by apply RemoveHeader_none.
Qed.

Lemma named_removeAll n m l : named n (removeAll m l) = if String.eqb n m then [] else named n l.
Proof. apply removeLoop_named. lia. Qed.

Lemma named_appendMap n hs l : named n (appendMap hs l) = named n l ++ named n ((fun '(k, v) => HGeneric k v) <$> hs).
Proof.
  unfold appendMap. revert l. induction hs as [|[k v] hs IH]; intros l; [by rewrite app_nil_r|]. cbn [foldl fmap list_fmap].
  rewrite IH, named_append, <- app_assoc. f_equal. symmetry. apply (named_app n [_]).
Qed.

Lemma named_copyIf {A} (f : Hdr -> option A) n m from to :
  named n (copyIf f m from to) =
    named n to ++ if String.eqb n m then match first f from with Some _ => named n from | None => [] end else [].
Proof.
  unfold copyIf. destruct (first f from); [by rewrite named_copy|]. destruct (String.eqb n m); by rewrite app_nil_r.
Qed.

(** An update in place changes the headers of its name only. *)
Lemma named_updFirst n (f : Hdr -> option Hdr) l :
  (forall h h', f h = Some h' -> hname h' = hname h) ->
  (forall h h', f h = Some h' -> hname h <> n) -> named n (updFirst f l) = named n l.
Proof.
  intros Hn Hne. induction l as [|h l IH]; [done|]. cbn. destruct (f h) as [h'|] eqn:E.
  - unfold named. cbn. rewrite (Hn _ _ E), (proj2 (String.eqb_neq _ _) (Hne _ _ E)). done.
  - unfold named in *. cbn. by rewrite IH.
Qed.

Lemma named_updFirst_eq n (f : Hdr -> option Hdr) l h :
  (forall h h', f h = Some h' -> hname h' = hname h /\ hname h = n) -> named n l = [h] ->
  named n (updFirst f l) = [default h (f h)].
Proof.
  intros Hf. induction l as [|x l IH]; [done|]. unfold named in *. cbn. intros Hl. destruct (f x) as [x'|] eqn:E.
  - destruct (Hf _ _ E) as [E1 E2]. cbn. rewrite E1. rewrite E2, String.eqb_refl in *. injection Hl as -> Hl.
    by rewrite Hl, E.
  - cbn. destruct (String.eqb_spec (hname x) n) as [Ex|Ex]; [|by apply IH]. injection Hl as -> Hl. rewrite E. cbn. f_equal.
    clear IH. induction l as [|y l IH]; [done|]. cbn in *. destruct (String.eqb_spec (hname y) n) as [Ey|Ey]; [done|].
    destruct (f y) as [y'|] eqn:Ey'; [by destruct (Hf _ _ Ey') as [_ ?]|]. cbn.
    rewrite (proj2 (String.eqb_neq _ _) Ey). auto.
Qed.

Lemma first_named {A} (f : Hdr -> option A) n l :
  (forall h a, f h = Some a -> hname h = n) -> first f l = first f (named n l).
Proof.
  intros Hf. induction l as [|h l IH]; [done|]. unfold named in *. cbn. destruct (f h) as [a|] eqn:E.
  - rewrite (Hf _ _ E), String.eqb_refl. cbn. by rewrite E.
  - destruct (String.eqb _ _); cbn; rewrite ?E; done.
Qed.

(** *** The headers a dialog needs *)

(** The names that a REFER sets itself. *)
Definition reserved : list string :=
  ["via"; "route"; "record-route"; "from"; "to"; "call-id"; "cseq"; "contact"; "max-forwards"; "refer-to"].

Definition notReserved (headers : list (string * string)) : Prop :=
  Forall (fun '(k, _) => ToLower k ∉ reserved) headers.

Lemma named_user n hs : notReserved hs -> n ∈ reserved -> named n ((fun '(k, v) => HGeneric k v) <$> hs) = [].
Proof.
  intros Hr Hn. induction Hr as [|[k v] hs Hk Hr IH]; [done|]. unfold named in *. cbn.
  destruct (String.eqb_spec (ToLower k) n) as [<-|]; [done|]. exact IH.
Qed.

(** An INVITE and its answer as the parser and the service make them: one header of each
    name that identifies the dialog. *)
Record dialogOK (invite inviteOk : Msg) (v : Via) (f t : AddrHeader) (id : string) (n : Z) (m : string) : Prop := {
  dk_via : exists vs, named "via" (m_hdrs invite) = HVia v :: vs;
  dk_from : named "from" (m_hdrs invite) = [HFrom f];
  dk_to : named "to" (m_hdrs inviteOk) = [HTo t];
  dk_callID : named "call-id" (m_hdrs invite) = [HCallID id];
  dk_cseq : named "cseq" (m_hdrs invite) = [HCSeq n m];
}.

(** A REFER of a dialog (RFC 3261, 12.2.1.1): one of each header that identifies it, the
    given routes, and no Record-Route. *)
Record isRefer (r : Msg) (from to : AddrHeader) (id : string) (cseq : Z) (contact : SipUri) (url : string)
    (routes : list Hdr) : Prop := {
  ir_method : m_Method r = "REFER";
  ir_from : named "from" (m_hdrs r) = [HFrom from];
  ir_to : named "to" (m_hdrs r) = [HTo to];
  ir_callID : named "call-id" (m_hdrs r) = [HCallID id];
  ir_cseq : named "cseq" (m_hdrs r) = [HCSeq cseq "REFER"];
  ir_contact : named "contact" (m_hdrs r) = [HContact contact];
  ir_referTo : named "refer-to" (m_hdrs r) = [HGeneric "Refer-To" url];
  ir_route : named "route" (m_hdrs r) = routes;
  ir_recordRoute : named "record-route" (m_hdrs r) = [];
}.

(** The routes of a REFER before they are turned round. *)
Lemma named_referRoutes n invite inviteOk l :
  named n (referRoutes invite inviteOk l) =
    named n l ++
    match named "route" (m_hdrs invite) with
    | _ :: _ => if String.eqb n "route" then named "route" (m_hdrs invite) else []
    | [] => if String.eqb n "record-route"
            then rev (List.filter (fun h => match asRecordRoute h with Some _ => true | None => false end)
                        (named "record-route" (m_hdrs inviteOk)))
            else []
    end.
Proof.
  unfold referRoutes. rewrite !GetHeaders_law. destruct (named "route" (m_hdrs invite)) as [|r rs] eqn:Er.
  - rewrite <- List.filter_rev. generalize (rev (named "record-route" (m_hdrs inviteOk))). intros rr. revert l.
    induction rr as [|h rr IH]; intros l; cbn [foldl List.filter].
    { destruct (String.eqb n _); by rewrite app_nil_r. }
    rewrite IH. destruct (asRecordRoute h) as [u|] eqn:Eh; [|done]. rewrite named_append, <- app_assoc. f_equal.
    destruct h; try discriminate. unfold named. cbn [List.filter hname].
    rewrite String.eqb_sym. by destruct (String.eqb n "record-route").
  - rewrite named_copy. f_equal. destruct (String.eqb_spec n "route") as [->|]; [by rewrite Er|done].
Qed.

Lemma named_nil n : named n [] = [].
Proof. done. Qed.

Lemma named_one n h : named n [h] = if String.eqb (hname h) n then [h] else [].
Proof. done. Qed.

Lemma updVia_named n b l : n <> "via" -> named n (updFirst (fun h => (fun v => HVia (withBranch b v)) <$> asVia h) l) = named n l.
Proof. intros Hn. apply named_updFirst; intros [] h'; try discriminate; intros [= <-]; congruence || done. Qed.

Definition referCSeq (h : Hdr) : option Hdr := (fun '(n, _) => HCSeq (u32 (n + 1)) "REFER") <$> asCSeq h.

Lemma updCSeq_named n l : n <> "cseq" -> named n (updFirst referCSeq l) = named n l.
Proof. intros Hn. apply named_updFirst; intros [] h'; try discriminate; intros [= <-]; congruence || done. Qed.

Lemma updCSeq_one l q m : named "cseq" l = [HCSeq q m] -> named "cseq" (updFirst referCSeq l) = [HCSeq (u32 (q + 1)) "REFER"].
Proof. intros Hl. rewrite (named_updFirst_eq "cseq" referCSeq l (HCSeq q m)); [done| |exact Hl]. intros [] h'; try discriminate. by intros [= <-]. Qed.
End facts.

(** The headers of a name, computed from the operations that built the list. *)
Ltac hdr_simp :=
  repeat first
    [ rewrite named_append | rewrite named_prepend | rewrite named_copyIf | rewrite named_copy
    | rewrite named_removeAll | rewrite named_appendMap | rewrite named_referRoutes
    | rewrite named_user by (done || (unfold reserved; set_solver))
    | rewrite updVia_named by done | rewrite updCSeq_named by done
    | rewrite named_remove1_ne by done | rewrite newHeaders_law | rewrite named_nil ];
  rewrite ?named_one; cbn [hname]; cbn [String.eqb Ascii.eqb Bool.eqb]; rewrite ?app_nil_r; cbn [app].

Section refer.
Context `{HeaderLaws}.

(** What a REFER has before it is given its number and its direction. *)
Lemma NewReferRequest_headers branch invite inviteOk contact url hs v f t id q m :
  dialogOK invite inviteOk v f t id q m -> notReserved hs ->
  exists r, NewReferRequest branch invite inviteOk contact url hs = Some r /\
    m_Method r = "REFER" /\ m_Recipient r = m_Recipient invite /\ m_Transport r = m_Transport invite /\
    named "from" (m_hdrs r) = [HFrom f] /\ named "to" (m_hdrs r) = [HTo t] /\
    named "call-id" (m_hdrs r) = [HCallID id] /\ named "cseq" (m_hdrs r) = [HCSeq (u32 (q + 1)) "REFER"] /\
    named "contact" (m_hdrs r) = [HContact contact] /\ named "refer-to" (m_hdrs r) = [HGeneric "Refer-To" url] /\
    named "route" (m_hdrs r) = named "route" (m_hdrs invite) /\
    named "record-route" (m_hdrs r) =
      (match named "route" (m_hdrs invite) with
       | _ :: _ => []
       | [] => rev (List.filter (fun h => match asRecordRoute h with Some _ => true | None => false end)
                      (named "record-route" (m_hdrs inviteOk)))
       end).
Proof.
  intros [[vs Kv] Kf Kt Ki Kc] Hr. unfold NewReferRequest.
  assert (first isFrom (m_hdrs invite) = Some f) as Ff by (rewrite (first_named isFrom "from"), Kf by (by intros []); done).
  assert (first isTo (m_hdrs inviteOk) = Some t) as Ft by (rewrite (first_named isTo "to"), Kt by (by intros []); done).
  assert (first isCallID (m_hdrs invite) = Some id) as Fi by (rewrite (first_named isCallID "call-id"), Ki by (by intros []); done).
  assert (first asCSeq (m_hdrs invite) = Some (q, m)) as Fc by (rewrite (first_named asCSeq "cseq"), Kc by (by intros []); done).
  set (l0 := CopyHeaders "via" (m_hdrs invite) newHeaders).
  assert (first asVia l0 = Some v) as ->.
  { unfold l0. rewrite (first_named asVia "via"), named_copy, newHeaders_law by (by intros []). cbn. by rewrite Kv. }
  set (l1 := AppendHeader (HContact contact) _).
  assert (named "cseq" l1 = [HCSeq q m]) as E1.
  { unfold l1, l0. hdr_simp. rewrite Fc, Kc. by destruct (named "route" _). }
  assert (first asCSeq l1 = Some (q, m)) as ->.
  { rewrite (first_named asCSeq "cseq"), E1 by (by intros []). done. }
  eexists. split; [done|]. cbn [m_Method m_Recipient m_Transport m_hdrs]. fold referCSeq.
  change (fun h => (fun '(n, _) => HCSeq (u32 (n + 1)) "REFER") <$> asCSeq h) with referCSeq.
  split_and!; try done; hdr_simp; try (rewrite (updCSeq_one _ _ _ E1)); unfold l1, l0; hdr_simp;
    rewrite ?Ff, ?Ft, ?Fi, ?Fc, ?Kf, ?Kt, ?Ki; try done; by destruct (named "route" _).
Qed.

Lemma typed_map rrs :
  List.filter (fun h => match asRecordRoute h with Some _ => true | None => false end) (map HRecordRoute rrs) =
  map HRecordRoute rrs.
Proof. induction rrs as [|u rrs IH]; [done|]. cbn. by rewrite IH. Qed.

Lemma named_map {A} n (f : A -> Hdr) l : (forall a, hname (f a) = n) -> named n (map f l) = map f l.
Proof.
  intros Hf. induction l as [|a l IH]; [done|]. unfold named in *. cbn. by rewrite Hf, String.eqb_refl, IH.
Qed.

Lemma named_map_ne {A} n m (f : A -> Hdr) l : (forall a, hname (f a) = n) -> m <> n -> named m (map f l) = [].
Proof.
  intros Hf Hne. induction l as [|a l IH]; [done|]. unfold named in *. cbn.
  by rewrite Hf, (proj2 (String.eqb_neq n m)).
Qed.

(** Prepending one by one turns the order round. *)
Lemma prependRoutes_map rrs : forall l, prependRoutes (map HRecordRoute rrs) l = Some (map HRoute (rev rrs) ++ l).
Proof.
  induction rrs as [|u rrs IH]; intros l; [done|]. cbn [map prependRoutes asRecordRoute rev]. rewrite IH, PrependHeader_law.
  by rewrite List.map_app, <- app_assoc.
Qed.

Lemma setCSeq_named n cseq req :
  n <> "cseq" -> named n (m_hdrs (setCSeq cseq req)) = named n (m_hdrs req).
Proof.
  intros Hn. cbn. rewrite named_append, named_remove1_ne, named_one by done. cbn [hname].
  by rewrite (proj2 (String.eqb_neq "cseq" n)), app_nil_r by done.
Qed.

Lemma setCSeq_cseq cseq req q m :
  named "cseq" (m_hdrs req) = [HCSeq q m] -> named "cseq" (m_hdrs (setCSeq cseq req)) = [HCSeq cseq (m_Method req)].
Proof. intros Hq. cbn. rewrite named_append, named_remove1_eq by (by rewrite Hq). done. Qed.

(** The routes of the callee's REFER: those of the INVITE if it has any, else the proxies of
    the answer in their order. *)
Definition calleeRoutes (invite : Msg) (rrs : list SipUri) : list Hdr :=
  match named "route" (m_hdrs invite) with [] => map HRoute rrs | rs => rs end.

(** The callee's REFER. *)
Lemma referInbound_isRefer ip port b1 b2 d open cseq url hs v f t id q m rrs :
  dialogOK (d_invite d) (d_inviteOk d) v f t id q m -> notReserved hs ->
  named "record-route" (m_hdrs (d_inviteOk d)) = map HRecordRoute rrs ->
  exists r fallback, referInbound ip port b1 b2 d open cseq url hs = Some (r, fallback) /\
    (m_Dest r, fallback) = swapSrcDst (d_legTr d) (peerOf d open) /\
    named "via" (m_hdrs r) = [HVia {| vh_Protocol := "SIP/2.0"; vh_Transport := m_Transport (d_invite d);
                                      vh_Host := ip; vh_Port := port; vh_Branch := Some b2 |}] /\
    isRefer r (d_to d) (d_from d) id cseq (d_contact d) url (calleeRoutes (d_invite d) rrs).
Proof.
  intros Hd Hr Hrr. unfold referInbound.
  destruct (NewReferRequest_headers b1 _ _ (d_contact d) url hs _ _ _ _ _ _ Hd Hr)
    as (r0 & -> & Hm & _ & Htr & Kf & Kt & Ki & Kc & Kco & Krt & Kr & Krr).
  rewrite Hrr, typed_map, <- List.map_rev in Krr.
  set (rr := match named "route" (m_hdrs (d_invite d)) with [] => rrs | _ => [] end).
  assert (named "record-route" (m_hdrs r0) = map HRecordRoute (rev rr)) as Krr'.
  { rewrite Krr. unfold rr. by case (named "route" (m_hdrs (d_invite d))). }
  clear Krr. assert (map HRoute rr ++ named "route" (m_hdrs (d_invite d)) = calleeRoutes (d_invite d) rrs) as Hroutes.
  { unfold rr, calleeRoutes. case (named "route" (m_hdrs (d_invite d))); [by rewrite app_nil_r|done]. }
  set (r1 := setCSeq cseq r0). pose proof (setCSeq_cseq cseq r0 _ _ Kc) as Kc1. fold r1 in Kc1. rewrite Hm in Kc1.
  assert (forall n, n <> "cseq" -> named n (m_hdrs r1) = named n (m_hdrs r0)) as K1 by (intros; by apply setCSeq_named).
  unfold swapHeaders. destruct (swapSrcDst _ _) as [dest fallback]. cbn [m_hdrs set_line].
  set (l0 := AppendHeader (HFrom (d_to d)) (remove1 "from" (m_hdrs r1))).
  assert (named "from" l0 = [HFrom (d_to d)]) as E0.
  { unfold l0. rewrite named_append, named_remove1_eq by (by rewrite K1, Kf). done. }
  set (l1 := AppendHeader (HTo (d_from d)) (remove1 "to" l0)).
  assert (named "to" l1 = [HTo (d_from d)]) as E1.
  { unfold l1. rewrite named_append, named_remove1_eq; [done|]. unfold l0. hdr_simp. by rewrite K1, Kt. }
  set (l2 := PrependHeader _ _).
  assert (GetHeaders "record-route" l2 = map HRecordRoute (rev rr)) as ->.
  { rewrite GetHeaders_law. unfold l2, l1, l0. hdr_simp. by rewrite K1, Krr'. }
  rewrite prependRoutes_map, rev_involutive.
  eexists _, fallback. split; [done|]. cbn [m_Method m_Dest m_hdrs set_hdrs set_line]. unfold r1. cbn [m_Method setCSeq set_hdrs].
  split_and!; [done| |split; try done]; cbn [m_hdrs set_hdrs]; rewrite named_removeAll; cbn [String.eqb Ascii.eqb Bool.eqb];
    rewrite ?named_app; try done;
    rewrite ?(named_map_ne "route") by done; rewrite ?(named_map "route") by done; cbn [app];
    unfold l2; hdr_simp; rewrite ?E1; unfold l1; hdr_simp; rewrite ?E0; unfold l0; hdr_simp;
    rewrite ?K1, ?Kc1, ?Kr, ?Ki, ?Kco, ?Krt, ?app_nil_r by done; try done.
  unfold generateViaHeader. cbn. by rewrite Htr.
Qed.

(** The caller's side: after the answer the INVITE has its routes. *)
Lemma applyResponse_named resp req rrs :
  named "record-route" (m_hdrs resp) = map HRecordRoute rrs ->
  exists req', applyResponse resp req = Some req' /\ m_Transport req' = m_Transport req /\
    named "route" (m_hdrs req') = map HRoute (rev rrs) /\
    forall n, n <> "route" -> named n (m_hdrs req') = named n (m_hdrs req).
Proof.
  intros Hrr. unfold applyResponse. destruct (applyInviteResponse _ _ _ _) as [[rec rt] fl].
  rewrite GetHeaders_law, Hrr, prependRoutes_map. eexists. split; [done|]. cbn [m_Transport m_hdrs set_hdrs set_line].
  split_and!; [done| |].
  - rewrite named_app, named_removeAll, (named_map "route") by done. by rewrite app_nil_r.
  - intros n Hn. rewrite named_app, named_removeAll, (named_map_ne "route") by done.
    by rewrite (proj2 (String.eqb_neq n "route")).
Qed.

(** The caller's REFER. *)
Lemma referOutbound_isRefer branch invite inviteOk contact cseq url hs v f t id q m rrs :
  dialogOK invite inviteOk v f t id q m -> notReserved hs ->
  named "record-route" (m_hdrs inviteOk) = map HRecordRoute rrs ->
  exists invite' r, applyResponse inviteOk invite = Some invite' /\
    referOutbound branch invite' inviteOk contact cseq url hs = Some r /\
    isRefer r f t id cseq contact url (map HRoute (rev rrs)).
Proof.
  intros [[vs Kv] Kf Kt Ki Kc] Hr Hrr. destruct (applyResponse_named inviteOk invite rrs Hrr) as (inv & -> & _ & Hrt & Hn).
  exists inv. assert (dialogOK inv inviteOk v f t id q m) as Hd by (split; rewrite ?Hn by done; eauto).
  destruct (NewReferRequest_headers branch _ _ contact url hs _ _ _ _ _ _ Hd Hr)
    as (r0 & Er & Hm & _ & _ & K1 & K2 & K3 & K4 & K5 & K6 & K7 & K8).
  unfold referOutbound. rewrite Er. eexists. split_and!; [done|done|].
  split; rewrite ?setCSeq_named by done; try done.
  - by rewrite (setCSeq_cseq _ _ _ _ K4), Hm.
  - by rewrite K7.
  - rewrite K8, Hrt, Hrr. destruct rrs as [|u rrs]; [done|]. cbn [rev]. rewrite List.map_app.
    by destruct (map HRoute (rev rrs)).
Qed.

(** C21: A transfer is a request of its dialog.  For every INVITE and answer with the headers of a
    dialog, the answer's Record-Routes being typed ones, and user headers that do not replace
    them, on both sides the REFER is built and has exactly one From, To, Call-ID, CSeq, Contact
    and Refer-To, with the tags of the side that sends it and the sequence number given to it,
    and no Record-Route.  When the service was called it also has one Via and the peer's
    destination, and its Routes are those of the INVITE if it has any, else the proxies of the
    answer's Record-Route in their order.  When the service called, its Routes are the proxies
    of the answer in reverse order, whatever Routes the INVITE had. *)
Theorem refer_in_dialog cseq url hs v f t id q m rrs :
  notReserved hs ->
  (forall ip port b1 b2 d open,
     dialogOK (d_invite d) (d_inviteOk d) v f t id q m ->
     named "record-route" (m_hdrs (d_inviteOk d)) = map HRecordRoute rrs ->
     exists r fallback, referInbound ip port b1 b2 d open cseq url hs = Some (r, fallback) /\
       (m_Dest r, fallback) = swapSrcDst (d_legTr d) (peerOf d open) /\
       named "via" (m_hdrs r) = [HVia {| vh_Protocol := "SIP/2.0"; vh_Transport := m_Transport (d_invite d);
                                         vh_Host := ip; vh_Port := port; vh_Branch := Some b2 |}] /\
       isRefer r (d_to d) (d_from d) id cseq (d_contact d) url
         (match named "route" (m_hdrs (d_invite d)) with [] => map HRoute rrs | rs => rs end)) /\
  (forall branch invite inviteOk contact,
     dialogOK invite inviteOk v f t id q m -> named "record-route" (m_hdrs inviteOk) = map HRecordRoute rrs ->
     exists invite' r, applyResponse inviteOk invite = Some invite' /\
       referOutbound branch invite' inviteOk contact cseq url hs = Some r /\
       isRefer r f t id cseq contact url (map HRoute (rev rrs))).
Proof.
  intros Hr. split; intros; [by eapply referInbound_isRefer|by eapply referOutbound_isRefer].
Qed.

(** With [AddRecordRoute] the callee's own address is in the answer's Record-Route, and so it
    is the topmost Route of the requests the callee sends. *)
Theorem refer_routes_to_itself ip port b1 b2 d d' open cseq url hs v f t id q m rrs :
  dialogOK (d_invite d) (d_inviteOk d) v f t id q m -> notReserved hs ->
  named "route" (m_hdrs (d_invite d)) = [] -> named "record-route" (m_hdrs (d_inviteOk d)) = map HRecordRoute rrs ->
  d' = {| d_invite := d_invite d; d_inviteOk := addExtraHeaders true (d_contact d) (d_inviteOk d);
          d_contact := d_contact d; d_to := d_to d; d_from := d_from d; d_legTr := d_legTr d |} ->
  exists r fallback, referInbound ip port b1 b2 d' open cseq url hs = Some (r, fallback) /\
    named "route" (m_hdrs r) = HRoute (addLr (d_contact d)) :: map HRoute rrs.
Proof.
  intros [Kv Kf Kt Ki Kc] Hr Ho Hrr ->.
  destruct (referInbound_isRefer ip port b1 b2
    {| d_invite := d_invite d; d_inviteOk := addExtraHeaders true (d_contact d) (d_inviteOk d);
       d_contact := d_contact d; d_to := d_to d; d_from := d_from d; d_legTr := d_legTr d |}
    open cseq url hs v f t id q m (addLr (d_contact d) :: rrs)) as (r & fb & -> & _ & _ & Hi); try done.
  - split; try done. cbn. by hdr_simp.
  - cbn. hdr_simp. by rewrite Hrr.
  - exists r, fb. split; [done|]. rewrite (ir_route _ _ _ _ _ _ _ _ Hi). unfold calleeRoutes. cbn [d_invite]. by rewrite Ho.
Qed.

(** *** Headers of the user *)
Lemma named_in n h l : h ∈ l -> hname h = n -> h ∈ named n l.
Proof. intros Hl Hn. apply list_elem_of_In, List.filter_In. split; [by apply list_elem_of_In|]. by apply String.eqb_eq. Qed.

Lemma prependRoutes_untyped h rr : forall l, h ∈ rr -> asRecordRoute h = None -> prependRoutes rr l = None.
Proof.
  induction rr as [|x rr IH]; intros l Hin Hh; [set_solver|]. cbn. apply elem_of_cons in Hin as [<-|Hin]; [by rewrite Hh|].
  destruct (asRecordRoute x); [by apply IH|done].
Qed.

(** A header of the transfer request with the name Record-Route is made with the library's
    generic type; building the callee's REFER then fails in the type assertion, and the
    process panics, whatever the dialog. *)
Theorem refer_user_record_route ip port b1 b2 d open cseq url hs k v :
  (k, v) ∈ hs -> ToLower k = "record-route" -> referInbound ip port b1 b2 d open cseq url hs = None.
Proof.
  intros Hin Hk. unfold referInbound. destruct (NewReferRequest _ _ _ _ _ _) as [r|] eqn:E; [|done].
  assert (HGeneric k v ∈ named "record-route" (m_hdrs r)) as Hr.
  { unfold NewReferRequest in E. destruct (first asVia _); [|discriminate]. destruct (first asCSeq _); [|discriminate].
    injection E as <-. cbn [m_hdrs]. rewrite named_appendMap. apply elem_of_app. right. apply named_in; [|done].
    apply list_elem_of_fmap. by exists (k, v). }
  unfold swapHeaders. destruct (swapSrcDst _ _) as [dest fb]. rewrite GetHeaders_law.
  rewrite (prependRoutes_untyped (HGeneric k v)); [done| |done].
  cbn [m_hdrs set_line]. hdr_simp. by rewrite setCSeq_named.
Qed.

(** *** The INVITE *)
Lemma named_routes n rs : forall l,
  named n (foldl (fun l r => PrependHeader (HGeneric "Route" r) l) l rs) =
  named n (map (HGeneric "Route") (rev rs)) ++ named n l.
Proof.
  induction rs as [|r rs IH]; intros l; [done|]. cbn [foldl rev]. rewrite IH, named_prepend, List.map_app, named_app, <- app_assoc.
  done.
Qed.

Definition inviteNames : list string := ["from"; "to"; "call-id"; "cseq"; "contact"; "route"].

(** An INVITE has exactly one From, To, Call-ID, CSeq and Contact, those of the call, with or
    without credentials; the configured Routes come before all other headers, the last one
    of the configuration first. *)
Theorem invite_headers uri tr ver dest cseq id offer to from contact auth hs routes :
  Forall (fun '(k, _) => ToLower k ∉ inviteNames) hs ->
  (forall n v, auth = Some (n, v) -> ToLower n ∉ inviteNames) ->
  let r := inviteRequest uri tr ver dest cseq id offer to from contact auth hs routes in
  named "from" (m_hdrs r) = [HFrom from] /\ named "to" (m_hdrs r) = [HTo to] /\
  named "call-id" (m_hdrs r) = [HCallID id] /\ named "cseq" (m_hdrs r) = [HCSeq cseq "INVITE"] /\
  named "contact" (m_hdrs r) = [HContact contact] /\ named "route" (m_hdrs r) = map (HGeneric "Route") (rev routes) /\
  exists l, m_hdrs r = map (HGeneric "Route") (rev routes) ++ l.
Proof.
  intros Hh Ha. cbv zeta.
  assert (forall n, n ∈ inviteNames -> named n ((fun '(k, v) => HGeneric k v) <$> hs) = []) as Hu.
  { intros n Hn. induction Hh as [|[k v] l Hk Hl IH]; [done|]. unfold named in *. cbn.
    destruct (String.eqb_spec (ToLower k) n) as [<-|]; [done|exact IH]. }
  assert (forall n l, n ∈ inviteNames -> named n (match auth with
    | Some (k, v) => if String.eqb v "" then l else AppendHeader (HGeneric k v) l | None => l end) = named n l) as Hauth.
  { intros n l Hn. destruct auth as [[k v]|]; [|done]. destruct (String.eqb v ""); [done|]. specialize (Ha k v eq_refl).
    rewrite named_append, named_one. cbn [hname]. destruct (String.eqb_spec (ToLower k) n) as [<-|]; [done|by rewrite app_nil_r]. }
  unfold inviteRequest. cbn [m_hdrs set_hdrs setCSeq m_Method].
  assert (remove1 "cseq" newHeaders = []) as Hc.
  { rewrite newHeaders_law. unfold remove1. destruct (RemoveHeader "cseq" []) as [l'|] eqn:E; [|done].
    destruct (RemoveHeader_some _ _ _ E) as (l1 & h & l2 & Hl & _). by destruct l1. }
  set (l0 := AppendHeader (HCSeq cseq "INVITE") _).
  assert (l0 = [HCSeq cseq "INVITE"]) as -> by (unfold l0; by rewrite AppendHeader_law, Hc).
  assert (named "call-id" (remove1 "call-id" [HCSeq cseq "INVITE"]) = []) as Hci by (apply named_remove1_eq; rewrite named_one; cbn; lia).
  split_and!.
  1-6: rewrite named_routes, named_appendMap, Hu by (unfold inviteNames; set_solver);
    rewrite app_nil_r, Hauth by (unfold inviteNames; set_solver);
    rewrite ?(named_map "route") by done; rewrite ?(named_map_ne "route") by done; cbn [app];
    hdr_simp; rewrite ?Hci; try done.
  generalize (appendMap hs). intros g.
  match goal with |- exists l, foldl _ ?x _ = _ => exists x; generalize x end.
  induction routes as [|r rs IH]; intros x; [done|]. cbn [foldl rev]. rewrite IH, PrependHeader_law, List.map_app, <- app_assoc.
  done.
Qed.
End refer.

(** ** Witnesses *)
Definition exUri (u h : string) : SipUri := {| su_User := u; su_Host := h; su_Port := 5060; su_UriParams := ∅ |}.
Definition exAddrH (u h tag : string) : AddrHeader :=
  {| Address := exUri u h; hdr_Params := {[ "tag" := tag ]} |}.
Definition exVia : Via :=
  {| vh_Protocol := "SIP/2.0"; vh_Transport := "UDP"; vh_Host := "10.0.0.1"; vh_Port := 5060; vh_Branch := Some "z9hG4bK1" |}.
Definition exMsg (m : string) (l : list Hdr) : Msg :=
  {| m_Method := m; m_Recipient := exUri "bob" "sip.example"; m_Version := "SIP/2.0"; m_Transport := "UDP";
     m_Source := "10.0.0.1:5060"; m_Dest := "10.0.0.2:5060"; m_hdrs := l; m_Body := "" |}.
Definition exInviteH : Msg :=
  exMsg "INVITE" [HVia exVia; HFrom (exAddrH "alice" "a.example" "ta"); HTo (exAddrH "bob" "sip.example" "");
                  HCallID "id1"; HCSeq 7 "INVITE"; HContact (exUri "alice" "10.0.0.1")].
Definition exOkH : Msg :=
  exMsg "" [HVia exVia; HRecordRoute (exUri "p1" "proxy1"); HRecordRoute (exUri "p2" "proxy2");
            HFrom (exAddrH "alice" "a.example" "ta"); HTo (exAddrH "bob" "sip.example" "tb"); HCallID "id1"; HCSeq 7 "INVITE"].
Definition exDialog : inboundDialog :=
  {| d_invite := exInviteH; d_inviteOk := exOkH; d_contact := exUri "bob" "10.0.0.2"; d_to := exAddrH "bob" "sip.example" "tb";
     d_from := exAddrH "alice" "a.example" "ta"; d_legTr := TransportUDP |}.

Lemma exDialog_ok :
  dialogOK exInviteH exOkH exVia (exAddrH "alice" "a.example" "ta") (exAddrH "bob" "sip.example" "tb") "id1" 7 "INVITE".
Proof. split; [eexists|..]; reflexivity. Qed.

Lemma exUser_ok : notReserved [("X-Reason", "busy")].
Proof. apply List.Forall_cons; [|apply List.Forall_nil]. vm_compute. intros Hx. by repeat (apply elem_of_cons in Hx as [?|Hx]; [discriminate|]); apply elem_of_nil in Hx. Qed.

Lemma refer_in_dialog_witness :
  exists r fallback,
    referInbound "10.0.0.2" 5060 "b1" "b2" exDialog false 1 "tel:+15550100" [("X-Reason", "busy")] = Some (r, fallback) /\
    named "route" (m_hdrs r) = [HRoute (exUri "p1" "proxy1"); HRoute (exUri "p2" "proxy2")].
Proof.
  destruct (refer_in_dialog 1 "tel:+15550100" [("X-Reason", "busy")] exVia (exAddrH "alice" "a.example" "ta")
    (exAddrH "bob" "sip.example" "tb") "id1" 7 "INVITE" [exUri "p1" "proxy1"; exUri "p2" "proxy2"] exUser_ok) as [Hin _].
  destruct (Hin "10.0.0.2" 5060 "b1" "b2" exDialog false exDialog_ok eq_refl) as (r & fb & E & _ & _ & Hr).
  exists r, fb. split; [exact E|]. exact (ir_route _ _ _ _ _ _ _ _ Hr).
Defined.

Lemma refer_routes_to_itself_witness :
  exists r fallback,
    referInbound "10.0.0.2" 5060 "b1" "b2"
      {| d_invite := exInviteH; d_inviteOk := addExtraHeaders true (exUri "bob" "10.0.0.2") exOkH;
         d_contact := exUri "bob" "10.0.0.2"; d_to := exAddrH "bob" "sip.example" "tb";
         d_from := exAddrH "alice" "a.example" "ta"; d_legTr := TransportUDP |}
      false 1 "tel:+15550100" [("X-Reason", "busy")] = Some (r, fallback) /\
    named "route" (m_hdrs r) = HRoute (addLr (exUri "bob" "10.0.0.2")) ::
      [HRoute (exUri "p1" "proxy1"); HRoute (exUri "p2" "proxy2")].
Proof.
  exact (refer_routes_to_itself "10.0.0.2" 5060 "b1" "b2" exDialog _ false 1 "tel:+15550100" [("X-Reason", "busy")] exVia
    (exAddrH "alice" "a.example" "ta") (exAddrH "bob" "sip.example" "tb") "id1" 7 "INVITE"
    [exUri "p1" "proxy1"; exUri "p2" "proxy2"] exDialog_ok exUser_ok eq_refl eq_refl eq_refl).
Defined.

Lemma refer_user_record_route_witness :
  referInbound "10.0.0.2" 5060 "b1" "b2" exDialog false 1 "tel:+15550100" [("Record-Route", "<sip:x>")] = None.
Proof. apply (refer_user_record_route _ _ _ _ _ _ _ _ _ "Record-Route" "<sip:x>"); [by left|reflexivity]. Defined.

(** The same REFER of the caller's side, with the routes turned round. *)
Lemma exOutbound_route :
  (named "route" ∘ m_hdrs) <$>
    (applyResponse exOkH exInviteH ≫= fun inv => referOutbound "b" inv exOkH (exUri "bob" "10.0.0.2") 8 "tel:+1" []) =
  Some [HRoute (exUri "p2" "proxy2"); HRoute (exUri "p1" "proxy1")].
Proof. vm_compute. reflexivity. Qed.
