(* ===== verification/NetIP.v ===== *)
(** * Network addresses

    What the code uses of Go's [net/netip] and [net]: addresses without a zone, their
    classes, prefixes, and the addresses of the machine's interfaces. *)

From stdpp Require Import base tactics list option.
From Stdlib Require Import ZArith Lia.
From S2P Require Import Prelude.

(** ** [netip.Addr] and [netip.AddrPort] *)
Inductive Addr := NoAddr | Addr4 (v : Z) | Addr6 (v : Z).

#[global] Instance Addr_eq_dec : EqDecision Addr.
Proof. solve_decision. Defined.

Record AddrPort := { ap_Addr : Addr; ap_Port : Z }.

#[global] Instance AddrPort_eq_dec : EqDecision AddrPort.
Proof. solve_decision. Defined.

Definition ap_IsValid (a : AddrPort) : bool := match ap_Addr a with NoAddr => false | _ => true end.

Definition IsUnspecified (a : Addr) : bool := match a with NoAddr => false | Addr4 v | Addr6 v => v =? 0 end.

Definition Is4 (a : Addr) : bool := match a with Addr4 _ => true | _ => false end.

(** RFC 1918 and RFC 4193; an IPv4 address in IPv6 reads as IPv4. *)
Definition private4 (v : Z) : bool :=
  (Z.shiftr v 24 =? 10) || (Z.shiftr v 20 =? 2753) || (Z.shiftr v 16 =? 49320).

Definition IsPrivate (a : Addr) : bool :=
  match a with
  | NoAddr => false
  | Addr4 v => private4 v
  | Addr6 v => if Z.shiftr v 32 =? 65535 then private4 (Z.land v (2 ^ 32 - 1)) else Z.shiftr v 121 =? 126
  end.

Definition IsLoopback (a : Addr) : bool :=
  match a with
  | NoAddr => false
  | Addr4 v => Z.shiftr v 24 =? 127
  | Addr6 v => if Z.shiftr v 32 =? 65535 then Z.shiftr (Z.land v (2 ^ 32 - 1)) 24 =? 127 else v =? 1
  end.

(** ** [netip.Prefix]: an IPv4 or IPv6 address and a number of bits *)
Record Prefix := { pf_addr : Addr; pf_bits : Z }.

(** An address of the other family is never inside. *)
Definition Prefix_Contains (p : Prefix) (a : Addr) : bool :=
  match pf_addr p, a with
  | Addr4 n, Addr4 v => Z.shiftr (Z.lxor n v) (32 - pf_bits p) =? 0
  | Addr6 n, Addr6 v => Z.shiftr (Z.lxor n v) (128 - pf_bits p) =? 0
  | _, _ => false
  end.

(** ** [net.IP]: 4 or 16 bytes *)
Inductive IP := IP4 (v : Z) | IP16 (v : Z) | IPBad.

(** [IP.To4] through [netip.AddrFromSlice]: an IPv4 address, or one in IPv6 form. *)
Definition To4 (ip : IP) : option Addr :=
  match ip with
  | IP4 v => Some (Addr4 v)
  | IP16 v => if Z.shiftr v 32 =? 65535 then Some (Addr4 (Z.land v (2 ^ 32 - 1))) else None
  | IPBad => None
  end.

(** ** Interfaces *)
Inductive IfaceAddr := IPAddr (ip : IP) | IPNet (ip : IP) | OtherAddr.

Record Iface := {
  if_up : bool; if_running : bool; if_p2p : bool; if_loopback : bool;   (* Flags *)
  if_addrs : option (list IfaceAddr);                                   (* Addrs, if it succeeds *)
}.
