(* ===== verification/RtpConn.v ===== *)
(** * The RTP connection of the test tools

    [pkg/media/rtpconn/conn.go], deprecated in the service: opening, the loop that reads and
    learns where to send, writing, the timeout and closing.  The socket is an argument: what it
    reads and what its methods return. *)

From stdpp Require Import base tactics list strings option.
From Stdlib Require Import ZArith Ascii Lia.
From S2P Require Import Prelude GoStd GoErr NetIP.

(** ** The connection *)

(** [cn_open]: there is a socket ([c.conn] is not nil); [cn_start]: the timeout is enabled. *)
Record Conn := {
  cn_open : bool;
  cn_closed : bool;
  cn_packets : Z;
  cn_dest : option AddrPort;
  cn_handler : bool;
  cn_start : option Z;
}.

Definition upd_conn (open closed : bool) (n : Z) (d : option AddrPort) (h : bool) (st : option Z) : Conn :=
  {| cn_open := open; cn_closed := closed; cn_packets := n; cn_dest := d; cn_handler := h; cn_start := st |}.

(** [cr_size]: of the packet read; [cr_valid]: it is an RTP packet. *)
Record ConnRead := { cr_size : Z; cr_src : AddrPort; cr_valid : bool }.

Inductive ConnEffect :=
| CReceived                              (* the channel is closed *)
| CHandle
| CListen | CServe | CTimeoutLoop
| CWrite (to : AddrPort) (data : list Z)
| CCloseSocket.

Section conn.
Open Scope go_scope.
Abbreviation RC := (M Conn ConnEffect).
Variable MTU : Z.

Definition OnRTP (h : bool) : RC unit :=
  mmodify (fun c => upd_conn (cn_open c) (cn_closed c) (cn_packets c) (cn_dest c) h (cn_start c)).

Definition SetDestAddr (a : option AddrPort) : RC unit :=
  mmodify (fun c => upd_conn (cn_open c) (cn_closed c) (cn_packets c) a (cn_handler c) (cn_start c)).

(** [None]: disabled. *)
Definition EnableTimeout (now : option Z) : RC unit :=
  mmodify (fun c => upd_conn (cn_open c) (cn_closed c) (cn_packets c) (cn_dest c) (cn_handler c) now).

(** [conn]: a socket is given; [callback]: there is a callback for the timeout. *)
Definition NewConnWith (conn callback : bool) (now : Z) : Conn * list ConnEffect :=
  let c := upd_conn conn false 0 None false None in
  if callback then let '(_, c, t) := EnableTimeout (Some now) c in (c, t ++ [CTimeoutLoop]) else (c, []).

Definition NewConn : bool -> Z -> Conn * list ConnEffect := NewConnWith false.

(** [None]: a method call on a nil socket. *)
Definition conn_Close : RC (option unit) :=
  do* OnRTP false in
  let* c := mget in
  if cn_closed c then mreturn (Some tt)
  else
    do* mput (upd_conn (cn_open c) true (cn_packets c) (cn_dest c) (cn_handler c) (cn_start c)) in
    if cn_open c then do* memit CCloseSocket in mreturn (Some tt) else mreturn None.

(** [parse]: of the address, if one is given; [listen]: of [ListenUDPPortRange].  A failed listen
    leaves a typed nil in [c.conn], which is not nil as an interface. *)
Definition Listen (parse listen : option error) : RC (option error) :=
  let* c := mget in
  if cn_open c then mreturn None
  else
    match parse with
    | Some err => mreturn (Some err)
    | None =>
        do* memit CListen in
        do* mput (upd_conn true (cn_closed c) (cn_packets c) (cn_dest c) (cn_handler c) (cn_start c)) in
        mreturn listen
    end.

Definition ListenAndServe (parse listen : option error) : RC (option error) :=
  let* err := Listen parse listen in
  match err with
  | Some err => mreturn (Some err)
  | None => do* memit CServe in mreturn None
  end.

(** [marshal], [write]: of the packet and of the socket. *)
Definition WriteRTP (marshal : error + list Z) (write : error + Z) : RC (option (Z * option error)) :=
  let* c := mget in
  match cn_dest c with
  | None => mreturn (Some (0, None))
  | Some addr =>
      match marshal with
      | inl err => mreturn (Some (0, Some err))
      | inr data =>
          if cn_open c then
            do* memit (CWrite addr data) in
            mreturn (Some (match write with inl err => (0, Some err) | inr n => (n, None) end))
          else mreturn None
      end
  end.

(** One packet read by the caller; [unmarshal]: of the bytes. *)
Definition ReadRTP {P} (read : error + (AddrPort * (error + P))) : option P * option AddrPort * option error :=
  match read with
  | inl err => (None, None, Some err)
  | inr (addr, inl err) => (None, Some addr, Some err)
  | inr (addr, inr p) => (Some p, Some addr, None)
  end.

(** The reads of the loop, until one fails. *)
Fixpoint readLoop (l : list ConnRead) (c : Conn) : Conn * list ConnEffect :=
  match l with
  | [] => (c, [])
  | r :: l' =>
      let c1 := upd_conn (cn_open c) (cn_closed c) (cn_packets c) (Some (cr_src r)) (cn_handler c) (cn_start c) in
      if MTU <? cr_size r then readLoop l' c1
      else if negb (cr_valid r) then readLoop l' c1
      else
        let n := u64 (cn_packets c + 1) in
        let c2 := upd_conn (cn_open c) (cn_closed c) n (Some (cr_src r)) (cn_handler c) (cn_start c) in
        let '(c', t) := readLoop l' c2 in
        (c', (if n =? 1 then [CReceived] else []) ++ (if cn_handler c then [CHandle] else []) ++ t)
  end.
End conn.

(** A tick of the timeout loop: the packets so far, the start if the timeout is enabled,
    the time, and whether the connection is closed. *)
Record Tick := { tk_packets : Z; tk_start : option Z; tk_now : Z; tk_closed : bool }.

(** Whether the callback is called, and at which tick. *)
Fixpoint onTimeout (timeoutInitial : Z) (l : list Tick) (lastPackets : Z) : option Tick :=
  match l with
  | [] => None
  | t :: l' =>
      if tk_closed t then None
      else if negb (tk_packets t =? lastPackets) then onTimeout timeoutInitial l' (tk_packets t)
      else match tk_start t with
           | None => onTimeout timeoutInitial l' lastPackets
           | Some start =>
               if (lastPackets =? 0) && (tk_now t - start <? timeoutInitial) then onTimeout timeoutInitial l' lastPackets
               else Some t
           end
  end.

Record ConnConfig := { cc_MediaTimeoutInitial : Z; cc_MediaTimeout : Z }.

Definition connDefaults (c : ConnConfig) : ConnConfig :=
  {| cc_MediaTimeoutInitial := if cc_MediaTimeoutInitial c <=? 0 then 30 * 1000 * 1000 * 1000 else cc_MediaTimeoutInitial c;
     cc_MediaTimeout := if cc_MediaTimeout c <=? 0 then 15 * 1000 * 1000 * 1000 else cc_MediaTimeout c |}.

(** ** Theorems *)

Lemma last_cons (a d : Z) l : List.last (a :: l) d = List.last l a.
Proof. revert a d. induction l as [|b l IH]; intros a d; [done|]. change (List.last (a :: b :: l) d) with (List.last (b :: l) d). rewrite IH. by rewrite IH. Qed.

(** The callback is called only on a tick without packets since the tick before, with the
    timeout enabled and, before the first packet, after the initial time. *)
Lemma onTimeout_silent ini l last t :
  onTimeout ini l last = Some t ->
  exists before after, l = before ++ t :: after /\ tk_closed t = false /\
    tk_packets t = List.last (map tk_packets before) last /\
    exists start, tk_start t = Some start /\ (tk_packets t = 0 -> ini <= tk_now t - start).
Proof.
  revert last. induction l as [|x l IH]; intros last; cbn [onTimeout]; [done|].
  destruct (tk_closed x) eqn:Ec; [done|]. destruct (Z.eqb_spec (tk_packets x) last) as [E|E]; cbn [negb].
  2:{ intros Ht. destruct (IH _ Ht) as (b & a & -> & H1 & H2 & H3). exists (x :: b), a. split_and!; try done.
      by rewrite H2, map_cons, last_cons. }
  assert (onTimeout ini l last = Some t -> exists before after, x :: l = before ++ t :: after /\ tk_closed t = false /\
    tk_packets t = List.last (map tk_packets before) last /\
    exists start, tk_start t = Some start /\ (tk_packets t = 0 -> ini <= tk_now t - start)) as Hrec.
  { intros Ht. destruct (IH _ Ht) as (b & a & -> & H1 & H2 & H3). exists (x :: b), a. split_and!; try done.
    by rewrite H2, map_cons, last_cons, E. }
  destruct (tk_start x) as [start|] eqn:Es; [|exact Hrec].
  destruct ((last =? 0) && (tk_now x - start <? ini)) eqn:Ei; [exact Hrec|].
  intros [= ->]. exists [], l. split_and!; try done. exists start. split; [done|]. intros Ez. rewrite <- E, Ez in Ei. cbn in Ei.
  apply Z.ltb_ge in Ei. lia.
Qed.

(** What the loop does with what it reads.  The handler gets every packet that is RTP and fits,
    the channel of the first packet is closed once, and media is sent to where the last datagram
    came from, whatever it was: the address is stored before the datagram is looked at. *)
Theorem readLoop_spec MTU l : forall c,
  0 <= cn_packets c -> cn_packets c + Z.of_nat (length l) < 2 ^ 64 ->
  let '(c', t) := readLoop MTU l c in
  let good := countb (fun r => negb (MTU <? cr_size r) && cr_valid r) l in
  cn_packets c' = cn_packets c + Z.of_nat good /\
  countb (fun e => match e with CHandle => true | _ => false end) t = (if cn_handler c then good else 0)%nat /\
  countb (fun e => match e with CReceived => true | _ => false end) t =
    (if ((cn_packets c =? 0) && (0 <? Z.of_nat good))%Z then 1 else 0)%nat /\
  cn_dest c' = match list.last l with Some r => Some (cr_src r) | None => cn_dest c end.
Proof.
  induction l as [|r l IH]; intros c H0 Hb; cbn [readLoop].
  { cbn. rewrite andb_false_r. split_and!; try done; try lia; by destruct (cn_handler c). }
  assert (list.last (r :: l) = match list.last l with Some x => Some x | None => Some r end) as Hl by apply list.last_cons.
  rewrite Hl, countb_cons. destruct (MTU <? cr_size r) eqn:Em; [|destruct (cr_valid r) eqn:Ev]; cbn [negb andb].
  - specialize (IH (upd_conn (cn_open c) (cn_closed c) (cn_packets c) (Some (cr_src r)) (cn_handler c) (cn_start c)) H0).
    destruct (readLoop MTU l _) as [c' t]. cbn [upd_conn cn_packets cn_dest cn_handler length] in *.
    destruct IH as (I1 & I2 & I3 & I4); [lia|]. rewrite I1, I2, I3, I4. split_and!; try done. by destruct (list.last l).
  - rewrite wrapU_id by (cbn [length] in Hb; lia).
    specialize (IH (upd_conn (cn_open c) (cn_closed c) (cn_packets c + 1) (Some (cr_src r)) (cn_handler c) (cn_start c))).
    destruct (readLoop MTU l _) as [c' t]. cbn [upd_conn cn_packets cn_dest cn_handler length] in *.
    destruct IH as (I1 & I2 & I3 & I4); [lia|lia|]. rewrite I1, I4, !countb_app, I2, I3.
    rewrite (proj2 (Z.eqb_neq (cn_packets c + 1) 0)) by lia. cbn [andb].
    split; [lia|]. split; [|split; [|by destruct (list.last l)]].
    + destruct (cn_handler c), (cn_packets c + 1 =? 1); cbn; lia.
    + assert ((cn_packets c + 1 =? 1) = (cn_packets c =? 0)) as -> by lia.
      destruct (Z.eqb_spec (cn_packets c) 0), (cn_handler c); cbn [app countb List.filter length andb];
        rewrite ?(proj2 (Z.ltb_lt 0 _)) by lia; cbn; lia.
  - specialize (IH (upd_conn (cn_open c) (cn_closed c) (cn_packets c) (Some (cr_src r)) (cn_handler c) (cn_start c)) H0).
    destruct (readLoop MTU l _) as [c' t]. cbn [upd_conn cn_packets cn_dest cn_handler length] in *.
    destruct IH as (I1 & I2 & I3 & I4); [lia|]. rewrite I1, I2, I3, I4. split_and!; try done. by destruct (list.last l).
Qed.

(** Closing a connection that was never opened is a method call on a nil socket; the second time
    it returns. *)
Theorem Close_unopened callback now :
  let c := (NewConn callback now).1 in
  result_of (conn_Close c) = None /\ result_of (conn_Close (state_of (conn_Close c))) = Some tt.
Proof. by destruct callback. Qed.

(** ** The life of a socket *)
Inductive ConnOp :=
| ROListen (parse listen : option error) | ROServe (parse listen : option error)
| ROOnRTP (h : bool) | RODest (a : option AddrPort) | ROTimeout (now : option Z)
| ROWrite (marshal : error + list Z) (write : error + Z) | ROClose.

Definition runConnOp (op : ConnOp) : M Conn ConnEffect unit :=
  match op with
  | ROListen p l => let* _ := Listen p l in mreturn tt
  | ROServe p l => let* _ := ListenAndServe p l in mreturn tt
  | ROOnRTP h => OnRTP h
  | RODest a => SetDestAddr a
  | ROTimeout n => EnableTimeout n
  | ROWrite m w => let* _ := WriteRTP m w in mreturn tt
  | ROClose => let* _ := conn_Close in mreturn tt
  end%go.

Fixpoint runConnOps (l : list ConnOp) : M Conn ConnEffect unit :=
  match l with [] => mreturn tt | op :: l' => do* runConnOp op in runConnOps l' end%go.

Definition isListen (e : ConnEffect) : bool := match e with CListen => true | _ => false end.
Definition isCloseSocket (e : ConnEffect) : bool := match e with CCloseSocket => true | _ => false end.
Definition openN (c : Conn) : nat := if cn_open c then 1 else 0.

(** One socket at most is opened, and it is closed once at most. *)
Definition socketRel (c : Conn) (t : list ConnEffect) (c' : Conn) : Prop :=
  (countb isListen t + openN c = openN c')%nat /\
  (countb isCloseSocket t <= (if cn_closed c then 0 else if cn_closed c' then 1 else 0))%nat /\
  (cn_closed c = true -> cn_closed c' = true).

#[global] Instance socketRel_rel : TraceRel socketRel.
Proof.
  split; unfold socketRel.
  - intros c. cbn. split; [lia|]. split; [lia|done].
  - intros c1 t1 c2 t2 c3 (A1 & A2 & A3) (B1 & B2 & B3). rewrite !countb_app.
    split; [lia|]. split; [|auto]. destruct (cn_closed c1), (cn_closed c2), (cn_closed c3); try lia;
      try specialize (A3 eq_refl); try specialize (B3 eq_refl); try discriminate; lia.
Qed.

(** An operation that neither opens nor closes. *)
Lemma socket_same c t c' : cn_open c' = cn_open c -> cn_closed c' = cn_closed c ->
  countb isListen t = 0%nat -> countb isCloseSocket t = 0%nat -> socketRel c t c'.
Proof. intros Ho Hc Hl Hs. unfold socketRel, openN. rewrite Ho, Hc, Hl, Hs. split; [lia|]. split; [lia|done]. Qed.

Lemma Listen_rel p l : mrel socketRel (Listen p l).
Proof.
  intros c. unfold Listen. do 2 mstep. destruct (cn_open c) eqn:E; [mstep; apply tr_refl|].
  destruct p; repeat mstep; [apply tr_refl|]. unfold socketRel, openN. rewrite E. cbn. split; [done|]. split; [lia|done].
Qed.

Lemma conn_Close_rel : mrel socketRel conn_Close.
Proof.
  unfold conn_Close. apply mrel_bind; [apply _ | unfold OnRTP; rel_step; by apply socket_same |]. intros _ c. do 2 mstep.
  destruct (cn_closed c) eqn:E; [mstep; apply tr_refl|].
  destruct (cn_open c) eqn:Eo; repeat mstep; unfold socketRel, openN; rewrite E; cbn; rewrite Eo; (split; [lia|]; split; [lia|done]).
Qed.

Lemma runConnOp_rel op : mrel socketRel (runConnOp op).
Proof.
  destruct op; cbn [runConnOp]; unfold ListenAndServe, OnRTP, SetDestAddr, EnableTimeout, WriteRTP;
    repeat (apply Listen_rel || apply conn_Close_rel || rel_step); by apply socket_same.
Qed.

(** A connection opens at most one socket and closes it at most once, in any order of the
    operations. *)
Theorem conn_socket_once l callback now :
  let '(_, c, t) := runConnOps l (NewConn callback now).1 in
  (countb isListen t = openN c)%nat /\ (countb isCloseSocket t <= 1)%nat.
Proof.
  assert (mrel socketRel (runConnOps l)) as Hr.
  { induction l as [|op l IH]; cbn [runConnOps]; [apply mrel_ret, _|].
    apply mrel_bind; [apply _ | apply runConnOp_rel | done]. }
  specialize (Hr (NewConn callback now).1). unfold mspec in Hr.
  destruct (runConnOps l (NewConn callback now).1) as [[u c] t]. destruct Hr as (A & B & _).
  split; [by destruct callback; cbn in A; lia|]. destruct callback, (cn_closed c); cbn in B; lia.
Qed.
