(* ===== verification/SipTest.v ===== *)
(** * The SIP test client

    [pkg/siptest/client.go]: a peer of the service, used by its tests and tools.  It dials
    with digest credentials, answers BYE, ACK and REFER, reports the progress of a
    transfer with NOTIFY, sends and recognises audio signals, and hangs up when it is
    closed.  Its messages are those of [Requests], so that what it sends can be given to
    the service's own handlers.  The SIP stack, the codecs and the signal analysis are
    arguments.  A panic is a result of its own. *)

From stdpp Require Import base tactics list gmap strings option.
From Stdlib Require Import ZArith Ascii Lia.
From S2P Require Import Prelude GoStd GoErr Errors Types Protocol SipInbound SipOutbound Requests RtpConn.
Import strings strconv unquote.

(** ** State *)

(** A response: what is read of it, and its headers. *)
Record TestResp := { tr_Resp : Response; tr_hdrs : list Hdr }.

Record testClient := {
  c_id : string;
  c_IP : string;
  c_Port : Z;
  c_AuthUser : string;
  c_AuthPass : string;
  c_media : bool;                    (* mediaConn is not nil *)
  c_dest : option string;            (* where media is sent *)
  c_timeout : bool;                  (* the media timeout is enabled *)
  c_sip : bool;                      (* sipClient, sipServer and sipLis are not nil *)
  c_invite : option (Msg * TestResp);  (* inviteReq and inviteResp *)
  c_lastCSeq : Z;
  c_closed : bool;
}.

Inductive TCEffect :=
| TInvite (m : Msg)
| TAck (m : Msg)
| TBye (cseq : Z)
| TAckBye (cseq : Z)
| TNotify (m : Msg)
| TTerminate                        (* of a transaction *)
| TEnableTimeout (b : bool)
| TCloseMedia | TCloseSIP
| TRespond (method : string) (code : Z)
| TOnBye | TOnRefer.

Definition set_call (i : option (Msg * TestResp)) (cseq : Z) (dest : option string) (c : testClient) : testClient :=
  {| c_id := c_id c; c_IP := c_IP c; c_Port := c_Port c; c_AuthUser := c_AuthUser c; c_AuthPass := c_AuthPass c;
     c_media := c_media c; c_dest := dest; c_timeout := c_timeout c; c_sip := c_sip c; c_invite := i;
     c_lastCSeq := cseq; c_closed := c_closed c |}.
Definition set_tcTimeout (b : bool) (c : testClient) : testClient :=
  {| c_id := c_id c; c_IP := c_IP c; c_Port := c_Port c; c_AuthUser := c_AuthUser c; c_AuthPass := c_AuthPass c;
     c_media := c_media c; c_dest := c_dest c; c_timeout := b; c_sip := c_sip c; c_invite := c_invite c;
     c_lastCSeq := c_lastCSeq c; c_closed := c_closed c |}.
Definition set_tcClosed (c : testClient) : testClient :=
  {| c_id := c_id c; c_IP := c_IP c; c_Port := c_Port c; c_AuthUser := c_AuthUser c; c_AuthPass := c_AuthPass c;
     c_media := c_media c; c_dest := c_dest c; c_timeout := c_timeout c; c_sip := c_sip c; c_invite := c_invite c;
     c_lastCSeq := c_lastCSeq c; c_closed := true |}.

(** How a call of the client ends: it returns, with an error or not, or panics. *)
Inductive Outcome (A : Type) := Returns (a : A) | Fails (e : error) | Panics.
Arguments Returns {A}. Arguments Fails {A}. Arguments Panics {A}.

(** ** Transactions *)
Inductive TxEv := TxDone | TxResponse (r : TestResp).

(** [None]: neither has happened yet. *)
Fixpoint getResponse (script : list TxEv) (cnt : Z) : option (error + TestResp) :=
  match script with
  | [] => None
  | TxDone :: _ =>
      Some (inl (EText ("transaction failed to complete (" +:+ fmt_d cnt +:+ " intermediate responses)")))
  | TxResponse r :: script' =>
      let code := StatusCode (tr_Resp r) in
      if (code =? 100) || (code =? 180) || (code =? 183) then getResponse script' (cnt + 1) else Some (inr r)
  end.

Section client.
Open Scope go_scope.
Context `{HeaderLib} `{DigestClient}.
(** The digest library's error for a challenge it cannot read. *)
Variable challengeErr : string -> error.
Abbreviation TC := (M testClient TCEffect).

(** ** Dialing *)
Definition testInvite (ip host number offer authHeader : string) (headers : list (string * string)) (callID : string)
    (c : testClient) : Msg :=
  let l := if String.eqb callID "" then newHeaders else AppendHeader (HGeneric "Call-ID" callID) newHeaders in
  let l := AppendHeader (HGeneric "Content-Type" "application/sdp") l in
  let l := AppendHeader (HGeneric "Contact" ("<sip:livekit@" +:+ c_IP c +:+ ":" +:+ fmt_d (c_Port c) +:+ ">")) l in
  let l := AppendHeader (HGeneric "Allow" allowed) l in
  let l := if String.eqb (c_id c) "" then l else AppendHeader (HGeneric "X-Lk-Test-Id" (c_id c)) l in
  let l := if String.eqb authHeader "" then l else AppendHeader (HGeneric "Proxy-Authorization" authHeader) l in
  {| m_Method := "INVITE";
     m_Recipient := {| su_User := number; su_Host := host; su_Port := 0; su_UriParams := {[ "transport" := "tcp" ]} |};
     m_Version := "SIP/2.0"; m_Transport := "tcp"; m_Source := ""; m_Dest := ip; m_hdrs := appendMap headers l;
     m_Body := offer |}.

(** What the stack does with an INVITE: an error, or what it adds to the headers (Via,
    From, To, Call-ID, CSeq) and the responses. *)
Record Attempt := {
  at_err : option error;
  at_added : list Hdr;
  at_script : list TxEv;
}.

Definition attemptInvite (e : Attempt) (ip host number offer authHeader : string) (headers : list (string * string))
    (callID : string) : TC (option (Outcome (Msg * TestResp))) :=
  let* c := mget in
  let m := testInvite ip host number offer authHeader headers callID c in
  match at_err e with
  | Some _ => mreturn (Some Panics)
  | None =>
      let m := set_hdrs (m_hdrs m ++ at_added e) m in
      do* memit (TInvite m) in
      match getResponse (at_script e) 0 with
      | None => mreturn None
      | Some r =>
          do* memit TTerminate in
          mreturn (Some (match r with inl err => Fails err | inr resp => Returns (m, resp) end))
      end
  end.

Definition callIDValue (h : Hdr) : option string :=
  match h with HCallID id => Some id | HGeneric n v => if String.eqb (ToLower n) "call-id" then Some v else None | _ => None end.

(** The answer to a challenge; [Panics] if there is no challenge, or no digest of it. *)
Definition answer407 (resp : Response) (c : testClient) : Outcome string :=
  if String.eqb (c_AuthUser c) "" || String.eqb (c_AuthPass c) "" then
    Fails (EText "server responded with 407, but no username or password was provided")
  else
    match GetHeader resp "Proxy-Authenticate" with
    | None => Panics
    | Some v =>
        match ParseChallenge v with
        | None => Fails (challengeErr v)
        | Some ch =>
            match resp_To resp with
            | None => Fails (EText "no To header on Request")
            | Some (addr, _) =>
                match ClientDigest ch "INVITE" addr (c_AuthUser c) (c_AuthPass c) with
                | inl _ => Panics                  (* the error is not looked at *)
                | inr cred => Returns cred
                end
            end
        end
    end.

(** The loop, with what the stack does in each turn; [None]: it is still dialing. *)
Fixpoint dialLoop (l : list Attempt) (ip host number offer auth : string) (headers : list (string * string))
    (callID : string) : TC (option (Outcome (Msg * TestResp))) :=
  match l with
  | [] => mreturn None
  | e :: l' =>
      let* r := attemptInvite e ip host number offer auth headers callID in
      match r with
      | Some (Returns (req, resp)) =>
          let callID := if String.eqb callID "" then default "" (first callIDValue (m_hdrs req)) else callID in
          if StatusCode (tr_Resp resp) =? 407 then
            let* c := mget in
            match answer407 (tr_Resp resp) c with
            | Returns auth => dialLoop l' ip host number offer auth headers callID
            | Fails err => mreturn (Some (Fails err))
            | Panics => mreturn (Some Panics)
            end
          else if negb (StatusCode (tr_Resp resp) =? 200) then
            mreturn (Some (Fails (EText ("unexpected status from INVITE response " +:+ fmt_d (StatusCode (tr_Resp resp))))))
          else mreturn (Some (Returns (req, resp)))
      | Some (Fails err) => mreturn (Some (Fails err))
      | Some Panics => mreturn (Some Panics)
      | None => mreturn None
      end
  end.

(** A session description: its connection address and the ports of its media. *)
Record SDPDesc := { sd_Conn : option string; sd_Ports : list Z }.

(** The description that [createOffer] marshals; [sdpName], [clockRate]: of the codec. *)
Record OfferDesc := {
  od_SessionID : Z;
  od_Address : string;                       (* of the origin and of the connection *)
  od_Port : Z;
  od_Formats : list string;
  od_Attributes : list (string * string);
}.

Definition createOffer (sessionId : Z) (ip : string) (port audioType : Z) (sdpName dtmfName : string) (clockRate : Z)
    : OfferDesc :=
  {| od_SessionID := sessionId; od_Address := ip; od_Port := port;
     od_Formats := [Itoa audioType +:+ " 101"];
     od_Attributes := [("rtpmap", Itoa audioType +:+ " " +:+ sdpName);
                       ("rtpmap", "101 " +:+ dtmfName +:+ "/" +:+ Itoa clockRate)] |}.

(** What a reader of it finds. *)
Definition descOf (o : OfferDesc) : SDPDesc := {| sd_Conn := Some (od_Address o); sd_Ports := [od_Port o] |}.

Definition parseSDPAnswer (r : error + SDPDesc) : Outcome (string * Z) :=
  match r with
  | inl err => Fails err
  | inr d => match sd_Conn d, sd_Ports d with Some a, p :: _ => Returns (a, p) | _, _ => Panics end
  end.

(** The request after the answer, from which the ACK is made. *)
Definition applyAnswer (resp : TestResp) (req : Msg) : option Msg :=
  let req := match first asContact (tr_hdrs resp) with
             | Some u => set_line (defaultPort u) (m_Source req) (m_Dest req) req
             | None => req
             end in
  (fun l => set_hdrs l req) <$> prependRoutes (GetHeaders "record-route" (tr_hdrs resp)) (m_hdrs req).

(** What the rest of [Dial] gets: the write of the ACK, the description, the address. *)
Record AnswerEnv := { ae_ack : option error; ae_sdp : error + SDPDesc; ae_resolve : option error }.

Definition connectCall (e : AnswerEnv) (req : Msg) (resp : TestResp) : TC (Outcome unit) :=
  match applyAnswer resp req with
  | None => mreturn Panics
  | Some req =>
      do* mmodify (set_tcTimeout true) in
      do* memit (TEnableTimeout true) in
      do* memit (TAck req) in
      match ae_ack e with
      | Some err => mreturn (Fails err)
      | None =>
          match parseSDPAnswer (ae_sdp e) with
          | Panics => mreturn Panics
          | Fails err => mreturn (Fails err)
          | Returns (ip, port) =>
              match ae_resolve e with
              | Some err => mreturn (Fails err)
              | None =>
                  do* mmodify (fun c =>
                    set_call (Some (req, resp))
                      (match first asCSeq (m_hdrs req) with Some (n, _) => n | None => c_lastCSeq c end)
                      (Some (ip +:+ ":" +:+ fmt_d port)) c) in
                  mreturn (Returns tt)
              end
          end
      end
  end.

Definition Dial (offer : error + string) (l : list Attempt) (e : AnswerEnv) (ip host number : string)
    (headers : list (string * string)) : TC (option (Outcome unit)) :=
  match offer with
  | inl err => mreturn (Some (Fails err))
  | inr offer =>
      let* r := dialLoop l ip host number offer "" headers "" in
      match r with
      | None => mreturn None
      | Some (Fails err) => mreturn (Some (Fails err))
      | Some Panics => mreturn (Some Panics)
      | Some (Returns (req, resp)) => let* o := connectCall e req resp in mreturn (Some o)
      end
  end.

(** ** Hanging up *)
(** The next sequence number, an atomic [uint32]. *)
Definition takeTestCSeq : TC Z :=
  let* c := mget in
  let n := u32 (c_lastCSeq c + 1) in
  do* mmodify (set_call (c_invite c) n (c_dest c)) in
  mreturn n.

Inductive ByeEv := ByeAck | ByeDone | ByeResponse (code : Z).

(** [tx]: an error of the stack, or what the select sees first. *)
Definition test_sendBye (tx : error + ByeEv) : TC unit :=
  let* n := takeTestCSeq in
  match tx with
  | inl _ => mreturn tt
  | inr ev =>
      do* memit (TBye n) in
      do* (match ev with ByeResponse code => mwhen (code =? 200) (memit (TAckBye n)) | _ => mreturn tt end) in
      memit TTerminate
  end.

Definition test_Close (tx : error + ByeEv) : TC unit :=
  let* c := mget in
  if c_closed c then mreturn tt
  else
    do* mmodify set_tcClosed in
    do* mwhen (c_media c) (memit TCloseMedia) in
    do* (match c_invite c with
         | Some _ =>
             do* test_sendBye tx in
             mmodify (fun c => set_call None (c_lastCSeq c) (c_dest c) c)
         | None => mreturn tt
         end) in
    mwhen (c_sip c) (memit TCloseSIP).

(** ** Transfers *)
(** The routes of a NOTIFY; without a Route in the REFER they are taken from the answer to
    the INVITE, which has to be there. *)
Definition notifyRoutes (c : testClient) (eventReq : Msg) (l : list Hdr) : option (list Hdr) :=
  match GetHeaders "route" (m_hdrs eventReq) with
  | _ :: _ => Some (CopyHeaders "route" (m_hdrs eventReq) l)
  | [] =>
      match c_invite c with
      | None => None
      | Some (_, resp) =>
          Some (foldl (fun l h => match asRecordRoute h with Some _ => AppendHeader h l | None => l end) l
                  (rev (GetHeaders "record-route" (tr_hdrs resp))))
      end
  end.

(** [tx]: of the stack. *)
Definition SendNotify (eventReq : Msg) (notifyStatus : string) (tx : error + list TxEv)
    : TC (option (Outcome unit)) :=
  let* c := mget in
  match orElse (first asContact (m_hdrs eventReq)) (Address <$> first isFrom (m_hdrs eventReq)) with
  | None => mreturn (Some (Fails (EText "missing destination address")))
  | Some recipient =>
      let l := CopyHeaders "via" (m_hdrs eventReq) newHeaders in
      match notifyRoutes c eventReq l with
      | None => mreturn (Some Panics)
      | Some l =>
          let l := AppendHeader (HMaxForwards 70) l in
          match first isTo (m_hdrs eventReq) with
          | None => mreturn (Some (Fails (EText "missing To header in REFER request")))
          | Some to =>
              let l := AppendHeader (HFrom to) l in
              match first isFrom (m_hdrs eventReq) with
              | None => mreturn (Some (Fails (EText "missing From header in REFER request")))
              | Some from =>
                  let l := AppendHeader (HTo from) l in
                  let l := match first isCallID (m_hdrs eventReq) with Some id => AppendHeader (HCallID id) l | None => l end in
                  let l := AppendHeader (HGeneric "Content-Type" "message/sipfrag") l in
                  let* cseq := takeTestCSeq in
                  let l := AppendHeader (HCSeq cseq "NOTIFY") l in
                  match first asCSeq (m_hdrs eventReq) with
                  | None => mreturn (Some (Fails (EText "missing CSeq header in REFER request")))
                  | Some (n, _) =>
                      let l := AppendHeader (HGeneric "Event" ("refer;id=" +:+ fmt_d n)) l in
                      let req := {| m_Method := "NOTIFY"; m_Recipient := recipient; m_Version := m_Version eventReq;
                                    m_Transport := m_Transport eventReq; m_Source := m_Dest eventReq;
                                    m_Dest := m_Source eventReq; m_hdrs := l; m_Body := notifyStatus |} in
                      match tx with
                      | inl err => mreturn (Some (Fails err))
                      | inr script =>
                          do* memit (TNotify req) in
                          match getResponse script 0 with
                          | None => mreturn None
                          | Some r =>
                              do* memit TTerminate in
                              mreturn (Some (match r with
                                             | inl err => Fails err
                                             | inr resp =>
                                                 if StatusCode (tr_Resp resp) =? 200 then Returns tt
                                                 else Fails (EText ("NOTIFY failed with status " +:+
                                                               fmt_d (StatusCode (tr_Resp resp))))
                                             end))
                          end
                      end
                  end
              end
          end
      end
  end.

(** ** What the peer sends.  The callbacks are those of the configuration, if they are set. *)
Definition handleBye (onBye : bool) : TC unit :=
  do* memit (TRespond "BYE" 200) in
  do* memit TTerminate in
  mwhen onBye (memit TOnBye).

Definition handleRefer (onRefer : bool) : TC unit :=
  do* mwhen onRefer (memit TOnRefer) in
  do* memit (TRespond "REFER" 202) in
  memit TTerminate.
End client.

(** ** Creating the client *)
Inductive NewStep := NSLocalIP | NSCodec | NSMixer | NSListen | NSUserAgent | NSClient | NSServer | NSTCP.

Inductive NewEffect := NELocalIP | NEOpenMedia | NEDisableTimeout | NEReceiver | NEServe | NEClose.

(** A failed step closes the client, and with it the media connection. *)
Definition newFailed {A} (conn : Conn) (err : error) : Outcome A :=
  match result_of (conn_Close conn) with Some _ => Fails err | None => Panics end.

(** What each step fails with, if it does.  [hasIP]: the address is configured; [static],
    [defType]: of the codec; [now]: the clock.  The RTP type of the audio and what was done. *)
Definition test_NewClient (fails : NewStep -> option error) (hasIP static : bool) (defType now : Z)
    : Outcome Z * list NewEffect :=
  let ip := if hasIP then None else fails NSLocalIP in
  let pre := if hasIP then [] else [NELocalIP] in
  match ip with
  | Some err => (Fails err, pre)
  | None =>
      match fails NSCodec with
      | Some err => (Fails err, pre)
      | None =>
          let conn := state_of (EnableTimeout None (NewConn true now).1) in
          let pre := pre ++ [NEOpenMedia; NEDisableTimeout] in
          match fails NSMixer with
          | Some err => (newFailed conn err, pre ++ [NEClose])
          | None =>
              let pre := pre ++ [NEReceiver] in
              let conn := state_of (OnRTP true conn) in
              let '(listened, conn, _) := ListenAndServe None (fails NSListen) conn in
              match orElse listened (orElse (fails NSUserAgent) (orElse (fails NSClient)
                      (orElse (fails NSServer) (fails NSTCP)))) with
              | Some err => (newFailed conn err, pre ++ [NEClose])
              | None => (Returns (if static then defType else 102), pre ++ [NEServe])
              end
          end
      end
  end.

(** A client that cannot be created gives the error of the step that failed, except for the
    mixer: then the connection that is closed has no socket yet, and closing it is a nil
    dereference. *)
Theorem test_NewClient_fails fails hasIP static defType now :
  match (test_NewClient fails hasIP static defType now).1 with
  | Panics => exists err, fails NSMixer = Some err
  | Fails err => exists step, fails step = Some err /\ step <> NSMixer
  | Returns _ => forall step, fails step = None \/ (step = NSLocalIP /\ hasIP = true)
  end.
Proof.
  unfold test_NewClient. destruct hasIP; [|destruct (fails NSLocalIP) eqn:E1; [by exists NSLocalIP|]];
  (destruct (fails NSCodec) eqn:E2; [by exists NSCodec|]);
  (destruct (fails NSMixer) eqn:E3; [cbn; eauto|]);
  (destruct (fails NSListen) eqn:E4; [by exists NSListen|]);
  (destruct (fails NSUserAgent) eqn:E5; [by exists NSUserAgent|]);
  (destruct (fails NSClient) eqn:E6; [by exists NSClient|]);
  (destruct (fails NSServer) eqn:E7; [by exists NSServer|]);
  (destruct (fails NSTCP) eqn:E8; [by exists NSTCP|]);
  cbn; intros []; auto.
Qed.

(** ** Media *)
Definition dtmfType : Z := 101.

(** The handler of telephone events: whether one reaches the callback.  [ts]: the time stamp of
    the last packet of another type, 0 before the first. *)
Definition dtmfInSync (clockRate ts timestamp : Z) : bool :=
  let diff := if 0 <? ts then timestamp - ts else 0 in
  negb ((clockRate <? diff) || (diff <? - clockRate)).

Record RTPPacket := { rp_Type : Z; rp_Timestamp : Z; rp_Event : option ascii }.

(** The receiver: the digits that are reported. *)
Fixpoint receiveDTMF (clockRate : Z) (onDTMF : bool) (lastTs : Z) (l : list RTPPacket) : list ascii :=
  match l with
  | [] => []
  | p :: l' =>
      if rp_Type p =? dtmfType then
        (if negb (dtmfInSync clockRate lastTs (rp_Timestamp p)) || negb onDTMF then []
         else match rp_Event p with Some d => [d] | None => [] end) ++ receiveDTMF clockRate onDTMF lastTs l'
      else receiveDTMF clockRate onDTMF (rp_Timestamp p) l'
  end.

(** A frame of a file: 16-bit samples, low byte first.  [None]: a byte is missing, and the
    access panics. *)
Fixpoint decodeFrame (frame : list Z) : option (list Z) :=
  match frame with
  | [] => Some []
  | [_] => None
  | lo :: hi :: frame' => (fun s => i16 (lo + 256 * hi) :: s) <$> decodeFrame frame'
  end.

(** *** [SendAudio] *)
Fixpoint decodeFrames (l : list (list Z)) : option (list (list Z)) :=
  match l with
  | [] => Some []
  | f :: l' =>
      match decodeFrame f, decodeFrames l' with Some d, Some ds => Some (d :: ds) | _, _ => None end
  end.

(** A frame on every tick, until one cannot be written. *)
Fixpoint playFrames (write : nat -> option error) (i : nat) (l : list (list Z)) : option error * list (list Z) :=
  match l with
  | [] => (None, [])
  | f :: l' =>
      match write i with
      | Some err => (Some err, [f])
      | None => let '(r, t) := playFrames write (S i) l' in (r, f :: t)
      end
  end.

(** [open], [unmarshal]: of the file; the frames of its blocks in order. *)
Definition SendAudio (open : option error) (unmarshal : error + list (list Z)) (write : nat -> option error)
    : Outcome unit * list (list Z) :=
  match open, unmarshal with
  | Some _, _ => (Panics, [])
  | None, inl err => (Fails err, [])
  | None, inr frames =>
      match decodeFrames frames with
      | None => (Panics, [])
      | Some l => let '(r, t) := playFrames write 0 l in (match r with Some err => Fails err | None => Returns tt end, t)
      end
  end.

(** The loops that write frames, one per tick.  [ticks]: for each turn, whether the context
    ends it and what the write returns. *)
Record Turn := { tn_ctx : option error; tn_write : option error }.

(** The number of frames written, and how it ends; [None]: it goes on. *)
Fixpoint sendLoop (n i : Z) (l : list Turn) : Z * option (option error) :=
  if negb ((n <=? 0) || (i <? n)) then (i, Some None)
  else
    match l with
    | [] => (i, None)
    | t :: l' =>
        match tn_ctx t with
        | Some err => (i, Some (if n <=? 0 then None else Some err))
        | None => match tn_write t with Some err => (i, Some (Some err)) | None => sendLoop n (i + 1) l' end
        end
    end.

Definition SendSignal (n : Z) (l : list Turn) : Z * option (option error) := sendLoop n 0 l.

Fixpoint SendSilence (i : Z) (l : list Turn) : Z * option (option error) :=
  match l with
  | [] => (i, None)
  | t :: l' =>
      match tn_ctx t with
      | Some _ => (i, Some None)
      | None => match tn_write t with Some err => (i, Some (Some err)) | None => SendSilence (i + 1) l' end
      end
  end.

(** Signals: the components of a frame, the strongest first. *)
Record Wave := { Ind : Z; Amp : Z }.

Definition signalAmp : Z := Z.quot (2 ^ 15 - 1) 4.
Definition signalAmpMin : Z := signalAmp - Z.quot signalAmp 4.
Definition signalAmpMax : Z := signalAmp + Z.quot signalAmp 10.

Fixpoint insertWave (w : Wave) (l : list Wave) : list Wave :=
  match l with [] => [w] | x :: l' => if Ind w <=? Ind x then w :: l else x :: insertWave w l' end.
Definition sortWaves (l : list Wave) : list Wave := foldr insertWave [] l.

Fixpoint matchWaves (vals : list Z) (out : list Wave) : bool :=
  match vals, out with
  | [], _ => true
  | v :: vals', w :: out' =>
      (Ind w =? v) && (signalAmpMin <=? Amp w) && (Amp w <=? signalAmpMax) && matchWaves vals' out'
  | _ :: _, [] => false
  end.

(** Whether a frame holds the signals. *)
Definition signalsFound (vals : list Z) (out : list Wave) : bool :=
  (length vals <=? length out)%nat && matchWaves vals (sortWaves (take (length vals) out)).

(** ** The handler of received audio

    [recordHandler] is one slot, which [Record] and [WaitSignals] both fill; [WaitSignals]
    leaves its handler there when it returns. *)
Module recorder.
#[local] Open Scope go_scope.

Inductive Sink := ToFile (f : nat) | ToWait (w : nat).

#[global] Instance Sink_eq : EqDecision Sink.
Proof. solve_decision. Defined.

Record receiver := { recordHandler : option Sink; lastTs : Z }.

Definition newReceiver : receiver := {| recordHandler := None; lastTs := 0 |}.

Definition store (h : Sink) : M receiver (Sink * Z) unit :=
  mmodify (fun r => {| recordHandler := Some h; lastTs := lastTs r |}).

Definition Record_ (f : nat) : M receiver (Sink * Z) unit := store (ToFile f).

Definition startWait (w : nat) : M receiver (Sink * Z) unit := store (ToWait w).

(** An audio packet, by its timestamp. *)
Definition receive (ts : Z) : M receiver (Sink * Z) unit :=
  do* mmodify (fun r => {| recordHandler := recordHandler r; lastTs := ts |}) in
  let* r := mget in
  match recordHandler r with
  | Some h => memit (h, ts)
  | None => mreturn tt
  end.

Inductive ROp := RRecord (f : nat) | RWait (w : nat) | RPacket (ts : Z).

Definition runROp (o : ROp) : M receiver (Sink * Z) unit :=
  match o with RRecord f => Record_ f | RWait w => startWait w | RPacket ts => receive ts end.

Fixpoint runROps (l : list ROp) : M receiver (Sink * Z) unit :=
  match l with [] => mreturn tt | o :: l' => do* runROp o in runROps l' end%go.
End recorder.

(** [SendDTMF]: the tones go to an input of the mixer, which is closed also when a tone
    cannot be written. *)
Inductive ToneEffect := ToneOpen | ToneWrite (digits : string) | ToneClose.

Definition SendDTMF (digits : string) (write : option error) : option error * list ToneEffect :=
  (write, [ToneOpen; ToneWrite digits; ToneClose]).

(** The headers of the answer, while the call is up. *)
Definition test_RemoteHeaders (c : testClient) : list Hdr :=
  match c_invite c with Some (_, resp) => tr_hdrs resp | None => [] end.

(** ** Waiting for signals

    [WaitSignals] installs a handler that runs on the goroutine that reads media, and reads
    packets from it through a channel of one place. *)
Module wait.

(** A packet and what the decoder, the recording and the analysis make of it. *)
Record Packet := {
  p_Type : Z;
  p_decode : option error;
  p_write : option error;
  p_silent : bool;
  p_waves : list Wave;
}.

(** [None]: the loop goes on; [Some None]: the signals are found. *)
Definition judge (audioType : Z) (vals : list Z) (p : Packet) : option (option error) :=
  if negb (p_Type p =? audioType) then None
  else
    match orElse (p_decode p) (p_write p) with
    | Some err => Some (Some err)
    | None => if p_silent p then None else if signalsFound vals (p_waves p) then Some None else None
    end.

Inductive Main := Waiting | Returned (err : option error) | Panicked.

Record wstate := {
  w_ctx : bool;                (* the context is done *)
  w_buf : option Packet;       (* pkts *)
  w_closed : bool;             (* pkts and done are closed *)
  w_main : Main;
  w_seen : list Packet;        (* the packets the loop has read *)
}.

Definition winit : wstate := {| w_ctx := false; w_buf := None; w_closed := false; w_main := Waiting; w_seen := [] |}.

Section steps.
Variable audioType : Z.
Variable vals : list Z.
Variable ctxErr : error.

(** The handler's call for a packet. *)
Inductive handle (p : Packet) : wstate -> wstate -> Prop :=
| H_done s : w_closed s = true -> handle p s s
| H_close s : w_closed s = false -> w_ctx s = true ->
    handle p s {| w_ctx := true; w_buf := w_buf s; w_closed := true; w_main := w_main s; w_seen := w_seen s |}
| H_send s : w_closed s = false -> w_buf s = None ->
    handle p s {| w_ctx := w_ctx s; w_buf := Some p; w_closed := false; w_main := w_main s; w_seen := w_seen s |}.

Inductive step : wstate -> wstate -> Prop :=
| W_cancel s :
    step s {| w_ctx := true; w_buf := w_buf s; w_closed := w_closed s; w_main := w_main s; w_seen := w_seen s |}
| W_packet p s s' : handle p s s' -> step s s'
| W_ctx s : w_main s = Waiting -> w_ctx s = true ->
    step s {| w_ctx := true; w_buf := w_buf s; w_closed := w_closed s; w_main := Returned (Some ctxErr); w_seen := w_seen s |}
| W_recv p s : w_main s = Waiting -> w_buf s = Some p ->
    step s {| w_ctx := w_ctx s; w_buf := None; w_closed := w_closed s;
              w_main := match judge audioType vals p with Some r => Returned r | None => Waiting end;
              w_seen := w_seen s ++ [p] |}
(* receiving from the closed channel gives nil, whose fields are then read *)
| W_nil s : w_main s = Waiting -> w_buf s = None -> w_closed s = true ->
    step s {| w_ctx := w_ctx s; w_buf := None; w_closed := true; w_main := Panicked; w_seen := w_seen s |}.

Inductive reach : wstate -> Prop :=
| reach_init : reach winit
| reach_step s s' : reach s -> step s s' -> reach s'.

(** A result comes from the last packet read, those before it decided nothing; the context's
    error and the panic come only with a context that is done. *)
Definition winv (s : wstate) : Prop :=
  (w_closed s = true -> w_ctx s = true) /\
  match w_main s with
  | Waiting => Forall (fun p => judge audioType vals p = None) (w_seen s)
  | Panicked => w_ctx s = true
  | Returned r =>
      (w_ctx s = true /\ r = Some ctxErr) \/
      exists l p, w_seen s = l ++ [p] /\ judge audioType vals p = Some r /\
                  Forall (fun p => judge audioType vals p = None) l
  end.

Lemma winv_step s s' : step s s' -> winv s -> winv s'.
Proof.
  intros Hs [Hc Hm]. destruct Hs as [s|p s s' Hh|s Hw Hx|p s Hw Hb|s Hw Hb Hcl]; cbn.
  - split; [done|]. cbn. destruct (w_main s); auto. destruct Hm as [[_ ?]|?]; auto.
  - destruct Hh as [s Hcl|s Hcl Hx|s Hcl Hb]; [by split| |]; split; cbn; auto; try done.
    destruct (w_main s); auto. destruct Hm as [[_ ?]|?]; auto.
  - split; [done|]. cbn. by left.
  - rewrite Hw in Hm. split; [done|]. cbn. destruct (judge audioType vals p) as [r|] eqn:Ej.
    + right. by exists (w_seen s), p.
    + apply Forall_app. split; [done|]. by constructor.
  - split; cbn; auto.
Qed.

Lemma winv_reach s : reach s -> winv s.
Proof. induction 1 as [|s s' Hr IH Hs]; [split; [done|constructor]|by eapply winv_step]. Qed.
End steps.
End wait.
Import wait.

(** Waiting for signals is sound.  Whatever the interleaving of packets, cancellation and the
    loop, [WaitSignals] reports success only when it has read an audio packet whose strongest
    components are the signals, in order and with their amplitude, and no packet before that
    one had them; without a cancelled context it does not fail unless the decoder or the
    recording does. *)
Theorem WaitSignals_sound audioType vals ctxErr s r :
  reach audioType vals ctxErr s -> w_main s = Returned r ->
  (w_ctx s = true /\ r = Some ctxErr) \/
  exists l p, w_seen s = l ++ [p] /\ p_Type p = audioType /\ Forall (fun p => judge audioType vals p = None) l /\
    match r with
    | None => p_silent p = false /\ signalsFound vals (p_waves p) = true
    | Some err => orElse (p_decode p) (p_write p) = Some err
    end.
Proof.
  intros Hr Hm. destruct (winv_reach _ _ _ _ Hr) as [_ Hi]. rewrite Hm in Hi.
  destruct Hi as [Hi|(l & p & Hs & Hj & Hl)]; [by left|right]. exists l, p. unfold judge in Hj.
  destruct (Z.eqb_spec (p_Type p) audioType) as [Ht|]; [|done]. cbn [negb] in Hj.
  split_and!; try done. destruct (orElse (p_decode p) (p_write p)) as [err|] eqn:Eo; [by injection Hj as <-|].
  destruct (p_silent p); [done|]. destruct (signalsFound vals (p_waves p)) eqn:Es; [|done]. by injection Hj as <-.
Qed.

(** The wait can panic.  When the context is done, the handler closes the channel that the
    loop also selects on: if the loop takes that case before it looks at the context, it
    reads the type of a packet that is nil. *)
Theorem WaitSignals_panics audioType vals ctxErr :
  exists s, reach audioType vals ctxErr s /\ w_main s = Panicked.
Proof.
  eexists. split; [|shelve].
  eapply reach_step; [eapply reach_step; [eapply reach_step; [apply reach_init|apply W_cancel]|]|].
  - apply (W_packet _ _ _ {| p_Type := audioType; p_decode := None; p_write := None; p_silent := true; p_waves := [] |}).
    by apply H_close.
  - by apply W_nil.
  Unshelve. done.
Qed.

(** The handler stays installed after the signals are found: the next packet takes the place
    in the channel, and the call for the one after that waits until the context is done,
    and with it the goroutine that reads all media of the client. *)
Theorem WaitSignals_blocks_reader p s :
  w_main s = Returned None -> w_ctx s = false -> w_closed s = false ->
  (exists q, w_buf s = Some q) -> ~ exists s', handle p s s'.
Proof. intros _ Hx Hc [q Hb] [s' Hh]. destruct Hh; congruence. Qed.

(** The recognition of signals does not depend on the order of equal components: what is
    matched are the strongest components, sorted. *)
Lemma insertWave_perm w l : Permutation (insertWave w l) (w :: l).
Proof.
  induction l as [|x l IH]; cbn; [done|]. destruct (_ <=? _); [done|]. rewrite IH. apply perm_swap.
Qed.

Lemma sortWaves_perm l : Permutation (sortWaves l) l.
Proof. induction l as [|w l IH]; cbn; [done|]. by rewrite insertWave_perm, IH. Qed.

Lemma matchWaves_inds vals out :
  length vals = length out -> matchWaves vals out = true ->
  map Ind out = vals /\ Forall (fun w => signalAmpMin <= Amp w <= signalAmpMax) out.
Proof.
  revert out. induction vals as [|v vals IH]; intros [|w out] Hl; try done. cbn. rewrite !andb_true_iff.
  intros [[[H1 H2] H3] H4]. apply Z.eqb_eq in H1. destruct (IH out) as [<- Hf]; [cbn in Hl; lia|done|].
  split; [by rewrite H1|]. constructor; [lia|done].
Qed.

(** The signals of a frame: it has them only if its strongest components have the indices
    asked for and amplitudes within the bounds. *)
Theorem signalsFound_spec vals out :
  signalsFound vals out = true ->
  Permutation (map Ind (take (length vals) out)) vals /\
  Forall (fun w => signalAmpMin <= Amp w <= signalAmpMax) (take (length vals) out).
Proof.
  unfold signalsFound. rewrite andb_true_iff. intros [Hl%Nat.leb_le Hm].
  destruct (matchWaves_inds vals (sortWaves (take (length vals) out))) as [Hi Hf]; [|done|].
  { rewrite sortWaves_perm, length_take. lia. }
  pose proof (sortWaves_perm (take (length vals) out)) as Hp. split.
  - rewrite <- Hi at 2. by rewrite Hp.
  - by rewrite <- Hp.
Qed.

(** ** The test client and the service

    A message as the service's handlers read it; [hvalue]: the text of a typed header. *)
Definition headerValue (hvalue : Hdr -> string) (n : string) (l : list Hdr) : option string :=
  first (fun h => if String.eqb (hname h) (ToLower n)
                  then Some (match h with HGeneric _ v => v | _ => hvalue h end) else None) l.

Definition received (hvalue : Hdr -> string) (m : Msg) : Request :=
  {| Method := m_Method m; Recipient := m_Recipient m; req_To := first isTo (m_hdrs m); req_From := first isFrom (m_hdrs m);
     req_Via := (fun v => {| via_Transport := vh_Transport v; via_Branch := vh_Branch v |}) <$> first asVia (m_hdrs m);
     req_CallID := first isCallID (m_hdrs m); req_CSeq := fst <$> first asCSeq (m_hdrs m);
     req_GetHeader := fun n => headerValue hvalue n (m_hdrs m); req_Body := m_Body m; req_Source := m_Source m |}.

Lemma headerValue_named hvalue n l :
  headerValue hvalue n l = match named (ToLower n) l with
                           | [] => None
                           | h :: _ => Some (match h with HGeneric _ v => v | _ => hvalue h end)
                           end.
Proof.
  unfold headerValue. rewrite (first_named _ (ToLower n)).
  - destruct (named (ToLower n) l) as [|h l'] eqn:E; [done|]. cbn.
    assert (h ∈ named (ToLower n) l) as Hin by (rewrite E; left).
    apply list_elem_of_In, List.filter_In in Hin as [_ Hn]. by rewrite Hn.
  - intros h a. destruct (String.eqb_spec (hname h) (ToLower n)); [done|discriminate].
Qed.

Section notify.
Context `{HeaderLaws} `{DigestClient}.

(** The headers of a NOTIFY, whatever its routes are. *)
Lemma notifyRoutes_named c eventReq l l' n :
  notifyRoutes c eventReq l = Some l' -> n <> "route" -> n <> "record-route" -> named n l' = named n l.
Proof.
  intros E Hn1 Hn2. unfold notifyRoutes in E. rewrite GetHeaders_law in E.
  destruct (named "route" (m_hdrs eventReq)) as [|x xs] eqn:Er.
  - destruct (c_invite c) as [[req resp]|]; [|done]. injection E as <-. generalize (rev (GetHeaders "record-route" (tr_hdrs resp))).
    intros rr. revert l. induction rr as [|h rr IH]; intros l; [done|]. cbn [foldl]. rewrite IH.
    destruct (asRecordRoute h) as [u|] eqn:Eh; [|done]. destruct h; try discriminate.
    rewrite named_append, named_one. cbn [hname]. by rewrite (proj2 (String.eqb_neq "record-route" n)), app_nil_r.
  - injection E as <-. rewrite named_copy, (proj2 (String.eqb_neq n "route")) by done. by rewrite app_nil_r.
Qed.

Lemma eventID_refer n : 0 <= n < 2 ^ 32 ->
  splitEventParams ("refer;id=" +:+ fmt_d n) = ["refer"; "id=" +:+ utoa n] /\
  eventID 0 ["id=" +:+ utoa n] = inr n.
Proof.
  intros Hn. assert (fmt_d n = utoa n) as Hd by (unfold fmt_d, Itoa; by rewrite (proj2 (Z.ltb_ge n 0)) by lia). rewrite Hd. split.
  - change ("refer;id=" +:+ utoa n) with (Join ";" ["refer"; "id=" +:+ utoa n]). apply splitLoop_Join_scan; [done|].
    constructor; [done|]. constructor; [|constructor].
    pose proof (utoa_digits n ltac:(lia)) as Hdig. revert Hdig. generalize (utoa n). intros s Hs0.
    enough (scan false s = Some false) as Hs1 by exact Hs1. revert Hs0.
    induction s as [|c s IH]; [done|]. cbn. intros [Hc Hs]%andb_true_iff. rewrite IH by done.
    destruct (Ascii.eqb_spec c bslash) as [->|]; [done|]. destruct (Ascii.eqb_spec c dquote) as [->|]; [done|].
    destruct (Ascii.eqb_spec c ";") as [->|]; done.
  - cbn [eventID]. change (Cut "=" ("id=" +:+ utoa n)) with ("id", utoa n). cbn [negb].
    change (EqualFold (TrimSpace "id") "id") with true. cbn [negb].
    rewrite TrimSpace_nospace by (apply allc_digits_nospace; lia). rewrite ParseUint10_utoa by lia.
    by rewrite wrapU_id.
Qed.

(** The NOTIFY for a REFER of the service, as the service reads it. *)
Lemma SendNotify_read hvalue r from to id n contact url routes c status script resp :
  isRefer r from to id n contact url routes -> 0 <= n < 2 ^ 32 -> c_invite c <> None ->
  getResponse script 0 = Some (inr resp) -> StatusCode (tr_Resp resp) = 200 ->
  mspec (SendNotify r status (inr script)) c (fun o c' t =>
    o = Some (Returns tt) /\ c_lastCSeq c' = u32 (c_lastCSeq c + 1) /\
    exists m, t = [TNotify m; TTerminate] /\ m_Dest m = m_Source r /\ m_Recipient m = contact /\
      named "from" (m_hdrs m) = [HFrom to] /\ named "to" (m_hdrs m) = [HTo from] /\
      named "call-id" (m_hdrs m) = [HCallID id] /\
      named "cseq" (m_hdrs m) = [HCSeq (u32 (c_lastCSeq c + 1)) "NOTIFY"] /\
      m_Body m = status /\
      req_GetHeader (received hvalue m) "Event" = Some ("refer;id=" +:+ fmt_d n) /\
      req_GetHeader (received hvalue m) "Subscription-State" = None).
Proof.
  intros [Hm Kf Kt Ki Kc Kco Krt Kr Krr] Hn Hi Hresp Hcode. unfold SendNotify. mstep. mstep.
  rewrite (first_named asContact "contact"), Kco by (by intros []). cbn [first asContact orElse].
  destruct (notifyRoutes c r _) as [l0|] eqn:E0.
  2:{ exfalso. unfold notifyRoutes in E0. destruct (GetHeaders "route" (m_hdrs r)); [|done].
      by destruct (c_invite c) as [[]|]. }
  assert (forall x, x <> "route" -> x <> "record-route" -> x <> "via" -> named x l0 = []) as K0.
  { intros x H1' H2' H3'. rewrite (notifyRoutes_named c r _ l0 x E0 H1' H2'), named_copy, newHeaders_law.
    by rewrite (proj2 (String.eqb_neq x "via")). }
  rewrite (first_named isTo "to"), Kt by (by intros []). rewrite (first_named isFrom "from"), Kf by (by intros []).
  rewrite (first_named isCallID "call-id"), Ki by (by intros []). cbn [first isTo isFrom isCallID].
  mstep. unfold takeTestCSeq. repeat mstep. rewrite (first_named asCSeq "cseq"), Kc by (by intros []). cbn [first asCSeq].
  mstep. mstep. rewrite Hresp. repeat mstep. rewrite Hcode. split; [done|]. split; [done|].
  eexists. split; [done|]. cbn [m_Dest m_Recipient m_hdrs m_Body received req_GetHeader].
  rewrite !headerValue_named. change (ToLower "Event") with "event". change (ToLower "Subscription-State") with "subscription-state".
  split_and!; try done; hdr_simp; rewrite K0 by done; done.
Qed.

(** C22: A transfer from end to end.  The service, called through any proxies, sends its REFER; the
    peer reports a final or provisional status of the new call in a NOTIFY.  The service's
    handler reads from it the sequence number of that REFER and that status, so the
    transfer succeeds exactly on 200, goes on after a provisional status and fails on every
    other one; the NOTIFY is sent to where the REFER came from, in its dialog. *)
Theorem transfer_notified hvalue sec ip port b1 b2 d open cseq url hs v f t id q m rrs c code reason script resp :
  dialogOK (d_invite d) (d_inviteOk d) v f t id q m -> notReserved hs ->
  named "record-route" (m_hdrs (d_inviteOk d)) = map HRecordRoute rrs ->
  0 < cseq < 2 ^ 32 -> c_invite c <> None -> 100 <= code <= 699 -> freec newline reason = true ->
  let status := "SIP/2.0 " +:+ utoa code +:+ String " " reason in
  TrimSpace status = status -> getResponse script 0 = Some (inr resp) -> StatusCode (tr_Resp resp) = 200 ->
  exists r fallback notify info,
    referInbound ip port b1 b2 d open cseq url hs = Some (r, fallback) /\
    mspec (SendNotify r status (inr script)) c (fun o _ tr => o = Some (Returns tt) /\ tr = [TNotify notify; TTerminate]) /\
    m_Dest notify = m_Source r /\ named "from" (m_hdrs notify) = [HFrom (d_from d)] /\
    named "to" (m_hdrs notify) = [HTo (d_to d)] /\ named "call-id" (m_hdrs notify) = [HCallID id] /\
    handleNotify (received hvalue notify) = inr info /\ ni_CSeq info = cseq /\ ni_Status info = code /\
    (handleReferNotify sec info cseq = Some None <-> code = 200) /\
    (handleReferNotify sec info cseq = None <-> code < 200).
Proof.
  intros Hd Hr Hrr Hq Hc Hcode Hreason status Htrim Hresp H200.
  destruct (referInbound_isRefer ip port b1 b2 d open cseq url hs v f t id q m rrs Hd Hr Hrr) as (r & fb & Er & _ & _ & Hir).
  pose proof (SendNotify_read hvalue r _ _ _ _ _ _ _ c status script resp Hir ltac:(lia) Hc Hresp H200) as Hs.
  unfold mspec in Hs. destruct (SendNotify r status (inr script) c) as [[o c'] tr] eqn:Es.
  destruct Hs as (-> & _ & notify & -> & Hdst & _ & Kf & Kt & Ki & _ & Hb & Hev & Hsub).
  destruct (eventID_refer cseq ltac:(lia)) as [Hsplit Hid].
  set (info := {| ni_Method := "REFER"; ni_CSeq := cseq; ni_Status := code; ni_Reason := reason; ni_Sub := zeroSub |}).
  exists r, fb, notify, info. split_and!; try done.
  - unfold mspec. by rewrite Es.
  - unfold handleNotify. rewrite Hev. cbn [orElse]. rewrite Hsplit. change (EqualFold (TrimSpace "refer") "refer") with true.
    cbn [negb]. rewrite Hid, Hsub. change (req_Body (received hvalue notify)) with (m_Body notify). rewrite Hb, Htrim.
    change (String.eqb status "") with false. cbv iota.
    destruct (parseNotifyBody_roundtrip code reason "" Hcode Hreason) as [Hpb _]. fold status in Hpb. by rewrite Hpb.
  - unfold handleReferNotify, info. cbn [ni_CSeq ni_Status ni_Sub]. rewrite Z.eqb_refl, andb_false_r.
    destruct (Z.eqb_spec code 200) as [->|Hne]; [done|].
    split; [|done]. destruct (_ || _); [|discriminate]. done.
  - unfold handleReferNotify, info. cbn [ni_CSeq ni_Status ni_Sub]. rewrite Z.eqb_refl, andb_false_r.
    destruct (Z.eqb_spec code 200) as [->|Hne]; [split; [done|lia]|].
    rewrite (proj2 (Z.eqb_neq code 0)) by lia. rewrite (proj2 (Z.leb_le 100 code)) by lia. cbn [orb andb].
    destruct (Z.ltb_spec code 200); [done|]. split; [discriminate|lia].
Qed.
End notify.

(** ** Dialing *)
Definition isTInvite (e : TCEffect) : bool := match e with TInvite _ => true | _ => false end.
Definition isTBye (e : TCEffect) : bool := match e with TBye _ => true | _ => false end.

Section dialing.
Context `{HeaderLib} `{DigestClient} (challengeErr : string -> error).

(** A turn that is challenged and answers. *)
Definition challenged (c : testClient) (e : Attempt) : Prop :=
  at_err e = None /\ exists resp cred, getResponse (at_script e) 0 = Some (inr resp) /\
    StatusCode (tr_Resp resp) = 407 /\ answer407 challengeErr (tr_Resp resp) c = Returns cred.

(** The loop has no bound.  As long as the server answers each INVITE with a challenge, however
    often the credentials were refused, [Dial] sends the next INVITE: after any number of
    turns it is still dialing. *)
Theorem Dial_unbounded c l : forall ip host number offer auth headers callID,
  Forall (challenged c) l ->
  mspec (dialLoop challengeErr l ip host number offer auth headers callID) c (fun o c' t =>
    o = None /\ c' = c /\ countb isTInvite t = length l).
Proof.
  induction l as [|e l IH]; intros ip host number offer auth headers callID Hl; cbn [dialLoop]; [by mstep|].
  inversion Hl as [|? ? (He & resp & cred & Hg & Hs & Ha) Hl']; subst. unfold attemptInvite.
  do 2 mstep. mstep. rewrite He. mstep. mstep. rewrite Hg. mstep. mstep. mstep. rewrite Hs, Z.eqb_refl. mstep. mstep. rewrite Ha.
  eapply mspec_mono; [by apply IH|]. cbv beta. intros o c' t (-> & -> & Ht). split_and!; [done|done|].
  cbn [app length]. rewrite !countb_cons. cbn [isTInvite]. lia.
Qed.

(** *** What a call of [Dial] leaves *)
Lemma dialLoop_state l : forall ip host number offer auth headers callID c,
  mspec (dialLoop challengeErr l ip host number offer auth headers callID) c (fun o c' t =>
    c' = c /\ countb isTBye t = 0%nat /\
    match o with Some (Returns (_, resp)) => StatusCode (tr_Resp resp) = 200 | _ => True end).
Proof.
  induction l as [|e l IH]; intros ip host number offer auth headers callID c; cbn [dialLoop]; [by mstep|].
  unfold attemptInvite. do 2 mstep. mstep. destruct (at_err e); [by mstep; mstep|]. mstep. mstep.
  destruct (getResponse (at_script e) 0) as [[err|resp]|]; [by repeat mstep| |by repeat mstep].
  do 3 mstep. destruct (Z.eqb_spec (StatusCode (tr_Resp resp)) 407) as [E|E].
  - mstep. mstep. destruct (answer407 _ _ _); [|by mstep|by mstep].
    eapply mspec_mono; [apply IH|]. cbv beta. intros o c' t (-> & Ht & Ho). split_and!; [done| |done].
    cbn [app]. by rewrite !countb_cons, Ht.
  - destruct (Z.eqb_spec (StatusCode (tr_Resp resp)) 200) as [E2|E2]; cbn [negb]; by mstep.
Qed.

(** Dialing records the call exactly when it succeeds; no BYE is sent by it. *)
Lemma Dial_state offer l e ip host number headers c :
  mspec (Dial challengeErr offer l e ip host number headers) c (fun o c' t =>
    c_closed c' = c_closed c /\ countb isTBye t = 0%nat /\
    match o with
    | Some (Returns tt) => exists req resp, c_invite c' = Some (req, resp) /\ StatusCode (tr_Resp resp) = 200
    | _ => c_invite c' = c_invite c
    end).
Proof.
  unfold Dial. destruct offer as [err|offer]; [by mstep|]. mstep. eapply mspec_mono; [apply dialLoop_state|].
  cbv beta. intros o c1 t (-> & Ht & Ho). destruct o as [[[req resp]|err|]|]; [|mstep; by rewrite app_nil_r..].
  mstep. unfold connectCall. destruct (applyAnswer resp req) as [req'|]; [|do 2 mstep; by rewrite app_nil_r].
  do 6 mstep.
  assert (forall t', countb isTBye t' = 0%nat -> countb isTBye (t ++ t') = 0%nat) as Happ by (intros; rewrite countb_app; lia).
  destruct (ae_ack e); [do 2 mstep; split_and!; [done|by apply Happ|done]|].
  destruct (parseSDPAnswer (ae_sdp e)) as [[a p]|err|]; [|do 2 mstep; split_and!; [done|by apply Happ|done]..].
  destruct (ae_resolve e); [do 2 mstep; split_and!; [done|by apply Happ|done]|]. do 4 mstep.
  split_and!; [done|by apply Happ|]. by exists req', resp.
Qed.
End dialing.

(** An answered call that is lost.  If the answer's description cannot be used, the ACK has been
    sent and the call is up, but it is not recorded: [Close] then sends no BYE. *)
Theorem answered_not_hung_up `{HeaderLib} `{DigestClient} e req resp req' err tx c :
  c_invite c = None -> c_closed c = false -> applyAnswer resp req = Some req' -> ae_ack e = None -> ae_sdp e = inl err ->
  mspec (mbind' (connectCall e req resp) (fun _ => test_Close tx)) c (fun _ c' t =>
    TAck req' ∈ t /\ countb isTBye t = 0%nat /\ c_closed c' = true).
Proof.
  intros Hi Hc Ha He Hs. mstep. unfold connectCall. rewrite Ha, He, Hs. cbn [parseSDPAnswer]. repeat mstep.
  unfold test_Close. mstep. mstep. cbn [c_closed c_invite c_media c_sip set_tcTimeout]. rewrite Hc, Hi.
  mstep. mstep. mstep. mstep; [mstep|]; mstep; mstep; mstep; try mstep; cbn [app]; split_and!; (done || set_solver).
Qed.

(** *** Any use of the client *)
Inductive TCOp :=
| TODial (offer : error + string) (l : list Attempt) (e : AnswerEnv) (ip host number : string) (headers : list (string * string))
| TONotify (eventReq : Msg) (status : string) (tx : error + list TxEv)
| TOBye (onBye : bool)
| TORefer (onRefer : bool)
| TOClose (tx : error + ByeEv).

Section ops.
Context `{HeaderLib} `{DigestClient} (challengeErr : string -> error).

Definition runTCOp (o : TCOp) : M testClient TCEffect unit :=
  match o with
  | TODial offer l e ip host number headers => do* Dial challengeErr offer l e ip host number headers in mreturn tt
  | TONotify r s tx => do* SendNotify r s tx in mreturn tt
  | TOBye b => handleBye b
  | TORefer b => handleRefer b
  | TOClose tx => test_Close tx
  end%go.

Fixpoint runTCOps (l : list TCOp) : M testClient TCEffect unit :=
  match l with [] => mreturn tt | o :: l' => do* runTCOp o in runTCOps l' end%go.

Definition closedN (c : testClient) : nat := if c_closed c then 1 else 0.

(** A BYE is sent only by the operation that closes the client. *)
Definition byeRel (c : testClient) (t : list TCEffect) (c' : testClient) : Prop :=
  (countb isTBye t + closedN c <= closedN c')%nat.

#[global] Instance byeRel_trace : TraceRel byeRel.
Proof.
  split; unfold byeRel; [intros c; cbn; lia|]. intros c1 t1 c2 t2 c3 H1' H2'. rewrite countb_app. lia.
Qed.

Lemma byeRel_keep c t c' : c_closed c' = c_closed c -> countb isTBye t = 0%nat -> byeRel c t c'.
Proof. unfold byeRel, closedN. intros -> ->. lia. Qed.

Lemma takeTestCSeq_rel : mrel byeRel takeTestCSeq.
Proof. unfold takeTestCSeq. repeat rel_step; by apply byeRel_keep. Qed.

Lemma test_Close_rel tx : mrel byeRel (test_Close tx).
Proof.
  unfold test_Close. apply mrel_get; [apply _|]. intros c. destruct (c_closed c) eqn:Ec; [mstep; apply tr_refl|].
  assert (forall c' t, c_closed c' = true -> (countb isTBye t <= 1)%nat -> byeRel c t c') as Hk.
  { unfold byeRel, closedN. intros c' t -> Ht. rewrite Ec. lia. }
  unfold test_sendBye, takeTestCSeq. repeat mstep; (destruct (c_invite c) as [p|];
    [do 6 mstep; destruct tx as [err|[| |code]]; repeat mstep|]; repeat mstep; apply Hk; cbn; try done; lia).
Qed.

Lemma runTCOp_rel o : mrel byeRel (runTCOp o).
Proof.
  destruct o; cbn [runTCOp].
  - apply mrel_bind; [apply _| |intros; apply mrel_ret, _]. intros c. eapply mspec_mono; [apply Dial_state|].
    cbv beta. intros r c' t (Hc & Ht & _). by apply byeRel_keep.
  - apply mrel_bind; [apply _| |intros; apply mrel_ret, _]. unfold SendNotify.
    repeat lazymatch goal with
    | |- mrel _ takeTestCSeq => apply takeTestCSeq_rel
    | |- byeRel _ _ _ => by apply byeRel_keep
    | |- _ => rel_step
    end.
  - unfold handleBye. repeat rel_step; by apply byeRel_keep.
  - unfold handleRefer. repeat rel_step; by apply byeRel_keep.
  - apply test_Close_rel.
Qed.

(** However the client is used, it hangs up at most once. *)
Theorem test_client_hangs_up_once l c :
  c_closed c = false -> mspec (runTCOps l) c (fun _ c' t =>
    (countb isTBye t <= 1)%nat /\ (countb isTBye t = 1%nat -> c_closed c' = true)).
Proof.
  intros Hc. assert (mrel byeRel (runTCOps l)) as Hr.
  { induction l as [|o l IH]; cbn [runTCOps]; [apply mrel_ret, _|]. apply mrel_bind; [apply _|apply runTCOp_rel|done]. }
  eapply mspec_mono; [apply Hr|]. cbv beta. unfold byeRel, closedN. intros _ c' t Hb. rewrite Hc in Hb.
  destruct (c_closed c'); split; try lia; done.
Qed.
End ops.

(** ** Media *)

(** A frame of 16-bit samples is read back as it was written; a frame with an odd number of
    bytes makes the client panic. *)
Definition encodeFrame (l : list Z) : list Z := concat (map (fun v => [u8 v; u8 (Z.shiftr (u16 v) 8)]) l).

Theorem decodeFrame_roundtrip l :
  Forall (fun v => - 2 ^ 15 <= v < 2 ^ 15) l -> decodeFrame (encodeFrame l) = Some l.
Proof.
  induction 1 as [|v l Hv Hl IH]; [done|]. unfold encodeFrame in *. cbn [map concat app decodeFrame]. rewrite IH. cbn.
  do 2 f_equal. unfold wrapU, wrapS. rewrite Z.shiftr_div_pow2 by lia. change (2 ^ 8) with 256. change (2 ^ 16) with 65536.
  change (2 ^ (16 - 1)) with 32768. change (2 ^ 15) with 32768 in Hv.
  Z.to_euclidean_division_equations. lia.
Qed.

(** A file of frames of samples is played as it is, one frame after the other, up to the first
    one that cannot be written. *)
Theorem SendAudio_plays fs write :
  Forall (Forall (fun v => - 2 ^ 15 <= v < 2 ^ 15)) fs ->
  let '(r, t) := SendAudio None (inr (encodeFrame <$> fs)) write in
  t `prefix_of` fs /\ (r = Returns tt -> t = fs) /\
  (forall err, r = Fails err -> exists i, write i = Some err /\ S i = length t).
Proof.
  intros Hf. unfold SendAudio.
  assert (decodeFrames (encodeFrame <$> fs) = Some fs) as ->.
  { induction Hf as [|f fs Hf1 _ IH]; [done|]. rewrite fmap_cons. cbn [decodeFrames]. by rewrite IH, decodeFrame_roundtrip. }
  assert (forall l i, let '(r, t) := playFrames write i l in
    t `prefix_of` l /\ (r = None -> t = l) /\
    (forall err, r = Some err -> exists j, write (i + j)%nat = Some err /\ S j = length t)) as Hp.
  { induction l as [|f l IH]; intros i; cbn [playFrames]; [done|]. destruct (write i) as [err|] eqn:Ew.
    - split; [by apply prefix_cons, prefix_nil|]. split; [done|]. intros ? [= <-]. exists 0%nat. by rewrite Nat.add_0_r.
    - specialize (IH (S i)). destruct (playFrames write (S i) l) as [r t]. destruct IH as (I1 & I2 & I3).
      split; [by apply prefix_cons|]. split; [by intros ->%I2|]. intros err He. destruct (I3 err He) as (j & Hj & Hl).
      exists (S j). rewrite Nat.add_succ_r. cbn. split; [done|]. by rewrite Hl. }
  specialize (Hp fs 0%nat). destruct (playFrames write 0 fs) as [[err|] t]; destruct Hp as (P1 & P2 & P3).
  - split; [done|]. split; [done|]. intros ? [= <-]. by apply P3.
  - split; [done|]. split; [by intros _; apply P2|done].
Qed.

(** The address and port that a peer reads in the offer are the client's. *)
Lemma createOffer_parsed sid ip port at_ name dtmf rate :
  parseSDPAnswer (inr (descOf (createOffer sid ip port at_ name dtmf rate))) = Returns (ip, port).
Proof. done. Qed.

Lemma decodeFrame_odd l : Nat.odd (length l) = true -> decodeFrame l = None.
Proof.
  remember (length l) as n eqn:Hn. revert l Hn. induction n as [n IH] using (well_founded_induction Wf_nat.lt_wf).
  intros [|a [|b l]] Hn Ho; subst; try done. cbn [decodeFrame]. rewrite (IH (length l)); [done|cbn; lia|done|].
  cbn [length] in Ho. by rewrite Nat.odd_succ, Nat.even_succ in Ho.
Qed.

(** Telephone events that are out of step with the audio are not reported.  The time stamps are
    compared without their wrap-around: with an audio clock that has just wrapped, every
    event is taken to be out of step until the next audio packet. *)
Theorem receiveDTMF_wrap clockRate d audio dtmf :
  0 < clockRate < 2 ^ 30 -> 2 ^ 32 - clockRate <= audio < 2 ^ 32 -> 0 <= dtmf < clockRate ->
  receiveDTMF clockRate true 0 [{| rp_Type := 0; rp_Timestamp := audio; rp_Event := None |};
                                {| rp_Type := dtmfType; rp_Timestamp := dtmf; rp_Event := Some d |}] = [].
Proof.
  intros Hc Ha Hd. cbn. unfold dtmfInSync. rewrite (proj2 (Z.ltb_lt 0 audio)) by lia.
  rewrite (proj2 (Z.ltb_lt (dtmf - audio) (- clockRate))) by lia. by rewrite orb_true_r.
Qed.

(** In step, all of them are. *)
Lemma receiveDTMF_all clockRate ts l :
  Forall (fun p => rp_Type p = dtmfType /\ Z.abs (rp_Timestamp p - ts) <= clockRate) l -> 0 < ts ->
  receiveDTMF clockRate true ts l = omap rp_Event l.
Proof.
  intros Hl Ht. induction Hl as [|p l [Hp Hd] Hl IH]; [done|]. cbn [receiveDTMF omap list_omap]. rewrite Hp, Z.eqb_refl.
  unfold dtmfInSync. rewrite (proj2 (Z.ltb_lt 0 ts)), (proj2 (Z.ltb_ge clockRate (rp_Timestamp p - ts))),
    (proj2 (Z.ltb_ge (rp_Timestamp p - ts) (- clockRate))) by lia.
  cbn [negb orb]. unfold omap in IH. rewrite IH. by destruct (rp_Event p).
Qed.

(** Sending signals: with a number, exactly so many frames are written unless the context or the
    writer ends it, and an ended context is an error; without, it goes on until then, and
    the end of the context is none. *)
Lemma sendLoop_spec n l : forall i,
  0 <= i -> (0 < n -> i <= n) ->
  let '(k, r) := sendLoop n i l in
  i <= k <= i + Z.of_nat (length l) /\ (0 < n -> k <= n) /\
  match r with
  | None => k = i + Z.of_nat (length l)
  | Some None => (0 < n /\ k = n) \/ (n <= 0 /\ Exists (fun t => is_Some (tn_ctx t)) l)
  | Some (Some err) => Exists (fun t => (0 < n /\ tn_ctx t = Some err) \/ tn_write t = Some err) l
  end.
Proof.
  induction l as [|t l IH]; intros i Hi Hn; cbn [sendLoop].
  - destruct (Z.leb_spec n 0), (Z.ltb_spec i n); cbn; split_and!; lia.
  - destruct (negb _) eqn:E.
    { rewrite negb_true_iff, orb_false_iff, Z.leb_gt, Z.ltb_ge in E. split_and!; cbn; lia. }
    rewrite negb_false_iff, orb_true_iff, Z.leb_le, Z.ltb_lt in E.
    destruct (tn_ctx t) as [err|] eqn:Ec.
    { destruct (Z.leb_spec n 0); split_and!; cbn; try lia; [right; split; [done|]|]; apply Exists_cons; left; eauto. }
    destruct (tn_write t) as [err|] eqn:Ew; [split_and!; cbn; try lia; apply Exists_cons; left; eauto|].
    specialize (IH (i + 1) ltac:(lia) ltac:(lia)). destruct (sendLoop n (i + 1) l) as [k r]. destruct IH as (H1 & H2 & H3).
    cbn [length]. split_and!; try lia. destruct r as [[err|]|]; [|destruct H3 as [?|[? ?]]; [by left|right]|lia].
    + apply Exists_cons. by right.
    + split; [done|]. apply Exists_cons. by right.
Qed.

(** *** Recording *)

(** What is recorded: each packet goes to the handler stored last before it. *)
Fixpoint delivered (h : option recorder.Sink) (l : list recorder.ROp) : list (recorder.Sink * Z) :=
  match l with
  | [] => []
  | recorder.RRecord f :: l' => delivered (Some (recorder.ToFile f)) l'
  | recorder.RWait w :: l' => delivered (Some (recorder.ToWait w)) l'
  | recorder.RPacket ts :: l' => match h with Some s => (s, ts) :: delivered h l' | None => delivered h l' end
  end.

Lemma runROps_delivered l : forall r, mspec (recorder.runROps l) r (fun _ _ t => t = delivered (recorder.recordHandler r) l).
Proof.
  induction l as [|[f|w|ts] l IH]; intros r; cbn [recorder.runROps delivered]; [by mstep|..].
  - mstep. unfold recorder.runROp, recorder.Record_, recorder.store. mstep. eapply mspec_mono; [apply IH|]. by intros _ _ t ->.
  - mstep. unfold recorder.runROp, recorder.startWait, recorder.store. mstep. eapply mspec_mono; [apply IH|]. by intros _ _ t ->.
  - mstep. unfold recorder.runROp, recorder.receive. mstep. mstep. mstep. mstep. cbn [recorder.recordHandler].
    destruct (recorder.recordHandler r) eqn:E; mstep; (eapply mspec_mono; [apply IH|]); cbn; rewrite ?E; by intros _ _ t ->.
Qed.

(** A wait for signals ends a recording: once [WaitSignals] was called nothing more is
    written to the file, also after it has returned, until [Record] is called again. *)
Theorem wait_ends_recording f w before after :
  Forall (fun o => match o with recorder.RRecord _ => False | _ => True end) after ->
  let t := trace_of (recorder.runROps (before ++ recorder.RWait w :: after) recorder.newReceiver) in
  let t0 := trace_of (recorder.runROps before recorder.newReceiver) in
  filter (fun e => e.1 = recorder.ToFile f) t = filter (fun e => e.1 = recorder.ToFile f) t0.
Proof.
  intros Ha. pose proof (runROps_delivered (before ++ recorder.RWait w :: after) recorder.newReceiver) as H1.
  pose proof (runROps_delivered before recorder.newReceiver) as H0. unfold mspec, trace_of in *.
  destruct (recorder.runROps _ _) as [[? ?] t]. destruct (recorder.runROps before _) as [[? ?] t0]. cbn in *. subst.
  assert (forall w', filter (fun e => e.1 = recorder.ToFile f) (delivered (Some (recorder.ToWait w')) after) = []) as Hn.
  { induction Ha as [|[f'|w'|ts] l Ho _ IH]; intros v; [done|done|apply IH|]. cbn [delivered]. by rewrite filter_cons_False. }
  generalize (@None recorder.Sink). induction before as [|[f'|w'|ts] l IH]; intros h; cbn [app delivered]; [apply Hn|apply IH|apply IH|].
  destruct h as [s|]; [|apply IH]. rewrite !filter_cons. case_decide; by rewrite IH.
Qed.

Lemma wait_ends_recording_witness :
  let l := [recorder.RRecord 1; recorder.RPacket 160] ++ recorder.RWait 1 :: [recorder.RPacket 320; recorder.RPacket 480] in
  filter (fun e => e.1 = recorder.ToFile 1) (trace_of (recorder.runROps l recorder.newReceiver)) = [(recorder.ToFile 1, 160)].
Proof.
  cbv zeta. rewrite (wait_ends_recording 1 1 [recorder.RRecord 1; recorder.RPacket 160]).
  - vm_compute. reflexivity.
  - repeat (constructor; [exact I|]). constructor.
Defined.

(** ** Witnesses *)
Definition exClient : testClient :=
  {| c_id := ""; c_IP := "10.0.0.9"; c_Port := 5060; c_AuthUser := "u"; c_AuthPass := "p"; c_media := true; c_dest := None;
     c_timeout := false; c_sip := true; c_invite := None; c_lastCSeq := 0; c_closed := false |}.
Definition exTestResp (code : Z) (hs : list (string * string)) : TestResp :=
  {| tr_Resp := {| StatusCode := code; resp_Reason := ""; GetHeader := fun n => snd <$> List.find (fun p => String.eqb p.1 n) hs;
                   resp_To := Some ("sip:b@x", None); resp_Body := "" |};
     tr_hdrs := [] |}.
Definition exConnected : testClient := set_call (Some (exInviteH, exTestResp 200 [])) 7 None exClient.

#[local] Instance exTestDigest : DigestClient :=
  {| DigestChallenge := string; ParseChallenge := fun s => Some s; ClientDigest := fun ch m uri u p => inr "Digest x" |}.

Lemma transfer_notified_witness :
  exists r fallback notify info,
    referInbound "10.0.0.2" 5060 "b1" "b2" exDialog false 1 "tel:+15550100" [("X-Reason", "busy")] = Some (r, fallback) /\
    mspec (SendNotify r "SIP/2.0 200 OK" (inr [TxResponse (exTestResp 200 [])])) exConnected
      (fun o _ tr => o = Some (Returns tt) /\ tr = [TNotify notify; TTerminate]) /\
    handleNotify (received (fun _ => "") notify) = inr info /\ handleReferNotify (fun _ => Internal) info 1 = Some None.
Proof.
  destruct (transfer_notified (fun _ => "") (fun _ => Internal) "10.0.0.2" 5060 "b1" "b2" exDialog false 1 "tel:+15550100"
    [("X-Reason", "busy")] exVia (exAddrH "alice" "a.example" "ta") (exAddrH "bob" "sip.example" "tb") "id1" 7 "INVITE"
    [exUri "p1" "proxy1"; exUri "p2" "proxy2"] exConnected 200 "OK" [TxResponse (exTestResp 200 [])] (exTestResp 200 [])
    exDialog_ok exUser_ok eq_refl ltac:(lia) ltac:(discriminate) ltac:(lia) eq_refl eq_refl eq_refl eq_refl)
    as (r & fb & notify & info & E1 & E2 & _ & _ & _ & _ & E3 & _ & _ & E4 & _).
  exists r, fb, notify, info. split; [exact E1|]. split; [exact E2|]. split; [exact E3|]. by apply E4.
Defined.

Lemma Dial_unbounded_witness :
  let e := {| at_err := None; at_added := []; at_script := [TxResponse (exTestResp 407 [("Proxy-Authenticate", "Digest")])] |} in
  mspec (dialLoop EText [e; e; e] "ip" "h" "n" "v=0" "" [] "") exClient (fun o c' t =>
    o = None /\ c' = exClient /\ countb isTInvite t = 3%nat).
Proof.
  apply (Dial_unbounded EText exClient). repeat (apply List.Forall_cons; [split; [reflexivity|]; do 2 eexists; split_and!; reflexivity|]).
  apply List.Forall_nil.
Defined.
