(* ===== verification/Dispatch.v ===== *)
(** * Answers of the control plane

    [pkg/service/psrpc.go]: how the answers of the auth and dispatch services become
    the [AuthInfo] and [CallDispatch] the call manager acts on; and
    [pkg/sip/rpc.go]: the headers shown to a participant.

    The services are remote: their answers are arguments. *)

From stdpp Require Import base tactics list gmap strings option.
From Stdlib Require Import ZArith Lia.
From S2P Require Import Prelude GoStd GoErr Participant Errors Types Protocol CallState CallCommon Monitor Sealer InboundAuth SipInbound SipOutbound OutboundCall InboundCall Manager Client.
Import strings.

(** ** Authentication *)
Inductive TrunkAuthError :=
| AUTH_ERROR_NONE | AUTH_ERROR_QUOTA_EXCEEDED | AUTH_ERROR_NO_TRUNK_FOUND
| AUTH_ERROR_ROUTE_NOT_ALLOWED | AUTH_ERROR_OTHER (n : Z).

Record TrunkAuthResponse := {
  ta_ErrorCode : TrunkAuthError;
  ta_Drop : bool;
  ta_Username : string;
  ta_Password : string;
  ta_Realm : string;
  ta_SipTrunkId : string;
  ta_ProviderType : ProviderType;
  ta_ProviderName : string;
}.

Definition isAuthRejectionCode (c : ErrorCode) : bool :=
  match c with
  | InvalidArgument | FailedPrecondition | PermissionDenied | Unauthenticated | NotFound => true
  | _ => false
  end.

Definition noAuth : InboundAuthParams := {| Realm := ""; Username := ""; Password := "" |}.

(** [events]: the handler of the project accepts signaling events. *)
Definition GetAuthCredentials (events : bool) (resp : error + TrunkAuthResponse) : error + AuthInfo :=
  match resp with
  | inl err =>
      if match errors.AsPsrpc err with Some c => isAuthRejectionCode c | None => false end then
        inr {| ai_Result := AuthRejectedAsError; ai_TrunkID := ""; ai_ProviderType := PROVIDER_TYPE_UNKNOWN;
               ai_ProviderName := ""; ai_Auth := noAuth; ai_events := events |}
      else inl err
  | inr r =>
      let info res trunk auth :=
        inr {| ai_Result := res; ai_TrunkID := trunk; ai_ProviderType := ta_ProviderType r;
               ai_ProviderName := ta_ProviderName r; ai_Auth := auth; ai_events := events |} in
      match ta_ErrorCode r with
      | AUTH_ERROR_QUOTA_EXCEEDED => info AuthQuotaExceeded "" noAuth
      | AUTH_ERROR_NO_TRUNK_FOUND => info AuthNoTrunkFound "" noAuth
      | AUTH_ERROR_ROUTE_NOT_ALLOWED => info AuthRouteNotAllowed "" noAuth
      | AUTH_ERROR_OTHER _ => info AuthFailureOther "" noAuth
      | AUTH_ERROR_NONE =>
          if ta_Drop r then info AuthDrop "" noAuth
          else if negb (String.eqb (ta_Username r) "") && negb (String.eqb (ta_Password r) "") then
            info AuthPassword (ta_SipTrunkId r)
              {| Realm := ta_Realm r; Username := ta_Username r; Password := ta_Password r |}
          else info AuthAccept (ta_SipTrunkId r) noAuth
      end
  end.

(** ** Dispatch

    Of the answer and of [CallDispatch], the fields the call models use: the room's
    URL and token, the headers and the media settings are passed through. *)
Inductive SIPDispatchResult := LEGACY_ACCEPT_OR_PIN | ACCEPT | REQUEST_PIN | REJECT | DROP | RESULT_OTHER (n : Z).

Record DispatchRules := {
  dr_Result : SIPDispatchResult;
  dr_RequestPin : bool;
  dr_RoomName : string;
  dr_Identity : string;
  dr_Attributes : gmap string string;
  dr_SipTrunkId : string;
  dr_SipDispatchRuleId : string;
  dr_FeatureFlags : gmap string string;
  dr_RingingTimeoutStatus : Z;
}.

Definition lateOfferFeatureFlag : string := "sip.late_offer".

Definition dispatchOf (res : DispatchResult) (room identity : string) (attrs : gmap string string)
    (trunk rule : string) (flags : gmap string string) (status : Z) : CallDispatch :=
  {| disp_Result := res; disp_RoomName := room; disp_Identity := identity; disp_Attributes := attrs;
     disp_TrunkID := trunk; disp_DispatchRuleID := rule;
     disp_lateOffer := featureFlagEnabled flags lateOfferFeatureFlag;
     disp_RingingTimeoutStatus := status |}.

Definition DispatchCall (resp : error + DispatchRules) : CallDispatch :=
  match resp with
  | inl _ => dispatchOf DispatchServiceUnavailable "" "" ∅ "" "" ∅ 0
  | inr r =>
      match dr_Result r with
      | RESULT_OTHER _ => dispatchOf DispatchNoRuleReject "" "" ∅ (dr_SipTrunkId r) "" ∅ 0
      | LEGACY_ACCEPT_OR_PIN =>
          if dr_RequestPin r then
            dispatchOf DispatchRequestPin "" "" ∅ (dr_SipTrunkId r) (dr_SipDispatchRuleId r) ∅ 0
          else
            dispatchOf DispatchAccept (dr_RoomName r) (dr_Identity r) (dr_Attributes r) (dr_SipTrunkId r)
              (dr_SipDispatchRuleId r) ∅ (dr_RingingTimeoutStatus r)
      | ACCEPT =>
          dispatchOf DispatchAccept (dr_RoomName r) (dr_Identity r) (dr_Attributes r) (dr_SipTrunkId r)
            (dr_SipDispatchRuleId r) (dr_FeatureFlags r) (dr_RingingTimeoutStatus r)
      | REQUEST_PIN => dispatchOf DispatchRequestPin "" "" ∅ (dr_SipTrunkId r) "" ∅ 0
      | REJECT => dispatchOf DispatchNoRuleReject "" "" ∅ (dr_SipTrunkId r) "" ∅ 0
      | DROP => dispatchOf DispatchNoRuleDrop "" "" ∅ (dr_SipTrunkId r) "" ∅ 0
      end
  end.

(** ** Headers for the participant *)
Definition getHeadersIgnore : list string :=
  ["route"; "record-route"; "via"; "supported"; "accept"; "allow"; "allow-events"; "content-type";
   "content-length"; "content-encoding"; "content-disposition"; "cseq"; "event"; "expires";
   "session-expires"; "min-se"; "max-forwards"].

Definition shown (include exclude : list string) (name : string) : bool :=
  let n := ToLower name in
  negb (bool_decide (n ∈ getHeadersIgnore)) && negb (bool_decide (n ∈ map ToLower exclude)) &&
  (Nat.eqb (length include) 0 || bool_decide (n ∈ map ToLower include)).

Fixpoint headersLoop (include exclude : list string) (headers : list (string * string))
    (out : gmap string string) : gmap string string :=
  match headers with
  | [] => out
  | (name, value) :: rest =>
      headersLoop include exclude rest (if shown include exclude name then <[name := value]> out else out)
  end.

Definition rpcGetHeaders (include exclude : list string) (headers : list (string * string)) : gmap string string :=
  headersLoop include exclude headers ∅.

(** ** Theorems *)
Lemma assoc_app {A} k (l1 l2 : list (string * A)) : assoc k (l1 ++ l2) = orElse (assoc k l1) (assoc k l2).
Proof. induction l1 as [|[k' v] l1 IH]; [done|]. cbn. by destruct (String.eqb k k'). Qed.

Lemma headersLoop_lookup include exclude headers out name :
  headersLoop include exclude headers out !! name =
  orElse (if shown include exclude name then assoc name (List.rev headers) else None) (out !! name).
Proof.
  revert out. induction headers as [|[k v] l IH]; intros out; cbn [headersLoop].
  { cbn. by destruct (shown _ _ _). }
  rewrite IH. cbn [List.rev]. rewrite assoc_app. cbn [assoc].
  destruct (String.eqb_spec name k) as [->|Hn].
  - destruct (shown include exclude k); [|done]. rewrite lookup_insert_eq. by destruct (assoc k (List.rev l)).
  - rewrite orElse_none_r. destruct (shown include exclude k); [|done]. by rewrite lookup_insert_ne.
Qed.

(** The headers a participant can ask for.  A header is returned exactly if the caller sent
    it and it is not one of the transport's own, not excluded, and included if a
    list was given, names compared without regard to case; with its last value
    when it was sent several times. *)
Theorem rpcGetHeaders_exact include exclude headers name :
  rpcGetHeaders include exclude headers !! name =
  if shown include exclude name then assoc name (List.rev headers) else None.
Proof. unfold rpcGetHeaders. rewrite headersLoop_lookup, lookup_empty. apply orElse_none_r. Qed.

(** *** Authentication *)
Definition notCall (e : PEffect) : Prop := match e with PCall _ => False | _ => True end.

Section auth.
Context `{ErrorText, AEAD, DigestLib, DigestClient}.

Lemma handleInviteAuth_ok s rand req auth now now' :
  Username auth <> "" -> Password auth <> "" ->
  res_Code (handleInviteAuth s rand req auth now now').1 = 200 ->
  validCredentials s req (if String.eqb (Realm auth) "" then UserAgent else Realm auth) auth now.
Proof.
  intros Hu Hp. unfold handleInviteAuth. cbn [Username Password Realm].
  rewrite (proj2 (String.eqb_neq _ _) Hu), (proj2 (String.eqb_neq _ _) Hp). cbn [orb].
  set (auth' := {| Realm := _; Username := _; Password := _ |}).
  pose proof (validateAuthorization_200 s req auth' now) as H200.
  destruct (validateAuthorization s req auth' now) as [result stale]. cbn [fst] in H200.
  destruct (Z.eqb_spec (res_Code result) 407) as [E|E]; cbn [negb fst].
  - by destruct (issueDigestNonce s rand (callIDOf req) now').
  - intros Hc. by apply H200.
Qed.

Lemma onMonP_notCall {A} (m : M CallMonitor MEffect A) : mtrace notCall (onMonP m).
Proof.
  intros p. unfold mspec, onMonP. destruct (m (p_mon p)) as [[a mon] t].
  apply List.Forall_map, list.Forall_true. by intros ?.
Qed.

Lemma onStateP_notCall m : mtrace notCall (onStateP m).
Proof.
  intros p. unfold mspec, onStateP. destruct (p_st p); [|done]. destruct (m c) as [[a st] t].
  apply List.Forall_map, list.Forall_true. by intros ?.
Qed.

Lemma dialogEffectsP_notCall l : mtrace notCall (dialogEffectsP l).
Proof.
  induction l as [|x l IH]; cbn [dialogEffectsP]; [trace_step|].
  destruct x; unfold onCM; repeat lazymatch goal with
    | |- mtrace _ (dialogEffectsP _) => exact IH
    | |- mtrace _ (onStateP _) => apply onStateP_notCall
    | |- mtrace _ _ => trace_step
    | |- _ => done
    end.
Qed.

Lemma onCCP_notCall {A} (m : M sipInbound DEffect A) : mtrace notCall (onCCP m).
Proof.
  intros p. unfold mspec, onCCP. destruct (m (p_cc p)) as [[a cc] t].
  match goal with |- context [dialogEffectsP t ?q] => pose proof (dialogEffectsP_notCall t q) as Hd end.
  unfold mspec in Hd. by destruct (dialogEffectsP t _) as [[u p'] t'].
Qed.

Ltac notcall := repeat lazymatch goal with
  | |- mtrace _ (onMonP _) => apply onMonP_notCall
  | |- mtrace _ (onStateP _) => apply onStateP_notCall
  | |- mtrace _ (onCCP _) => apply onCCP_notCall
  | |- mtrace _ (onCM _) => unfold onCM
  | |- mtrace _ _ => trace_step
  | |- _ => done
  end.

Lemma authPassword_notCall s e req auth :
  res_Code (handleInviteAuth s (pe_rand e) req auth (pe_authCheckAt e) (pe_nonceAt e)).1 <> 200 ->
  mtrace notCall (authPassword s e req auth).
Proof.
  intros Hc. unfold authPassword, countCall, respondAuth.
  destruct (handleInviteAuth _ _ _ _ _ _) as [status chal]. cbn [fst] in Hc.
  rewrite (proj2 (Z.eqb_neq _ _) Hc). notcall.
Qed.

Lemma newInvite_notCall s e req r :
  pe_auth e = inr r ->
  match ai_Result r with
  | AuthPassword =>
      res_Code (handleInviteAuth s (pe_rand e) req (ai_Auth r) (pe_authCheckAt e) (pe_nonceAt e)).1 <> 200
  | AuthAccept | AuthOther _ => False
  | _ => True
  end ->
  mtrace notCall (newInvite s e req).
Proof.
  intros Ha Hc. unfold newInvite, newState. rewrite Ha.
  assert (mtrace notCall (onAuthResult s e req r)) as Hr.
  { unfold onAuthResult. destruct (ai_Result r); try done; try by apply authPassword_notCall.
    all: unfold rejectInvite; notcall. }
  repeat lazymatch goal with
  | |- mtrace _ (onAuthResult _ _ _ _) => exact Hr
  | |- mtrace _ (onMonP _) => apply onMonP_notCall
  | |- mtrace _ (onStateP _) => apply onStateP_notCall
  | |- mtrace _ (onCCP _) => apply onCCP_notCall
  | |- mtrace _ _ => trace_step
  | |- _ => done
  end.
Qed.

Lemma finalize_notCall e f err : mtrace notCall (finalize e f err).
Proof. unfold finalize. notcall. Qed.

Lemma processInvite_notCall s e req cm cc :
  pe_srcOK e = true ->
  newInbound (fun callID tag => provisionalInvites cm !! (callID, tag)) (pe_freshID e) req = inr cc ->
  startsNew cc cm -> mtrace notCall (newInvite s e req) ->
  Forall notCall (processInvite s e req cm).2.
Proof.
  intros S1 Hn (N1 & N2 & N3) Hm. unfold processInvite. rewrite S1, Hn. cbn [negb].
  match goal with |- context [mbind' ?f ?g ?p] => set (p0 := p);
    enough (mspec (mbind' f g) p0 (fun _ _ t => Forall notCall t)) as Hs;
    [unfold mspec in Hs; destruct (mbind' f g p0) as [[r p'] t]; cbn; by constructor|] end.
  mstep. unfold dispatchInvite. mstep. mstep. cbn [p_cm p_cc p0]. rewrite N1, N2, N3.
  eapply mspec_mono; [apply Hm|]. cbv beta. intros [r f] p1 t1 H1'. cbn [app].
  eapply mspec_mono with (Q := fun _ _ t => Forall notCall t).
  { destruct r as [| |err]; [by mstep..|].
    enough (mtrace notCall (do* finalize e f err in mreturn (PRet err))%go) as Hq by apply Hq.
    trace_step; [apply finalize_notCall|trace_step]. }
  cbv beta. intros _ p2 t2 H2'. by apply list.Forall_app.
Qed.
End auth.

(** C6: Only authenticated callers are connected.  If the auth service names a user and a
    password for an INVITE, then, whatever else it, the caller and the network do, a
    call is started (its handling, up to the dispatch and the room, begins) only if
    the INVITE itself carries credentials for that user, with a nonce this server
    accepts for its Call-ID at that time, and the digest of the password. *)
Theorem authenticated_calls_only `{ErrorText, AEAD, DigestLib, DigestClient} s e req cm cc events r :
  pe_auth e = GetAuthCredentials events (inr r) ->
  ta_Username r <> "" -> ta_Password r <> "" ->
  pe_srcOK e = true ->
  newInbound (fun callID tag => provisionalInvites cm !! (callID, tag)) (pe_freshID e) req = inr cc ->
  startsNew cc cm ->
  let '(_, _, t) := processInvite s e req cm in
  Exists (fun x => ~ notCall x) t ->
  validCredentials s req (if String.eqb (ta_Realm r) "" then UserAgent else ta_Realm r)
    {| Realm := ta_Realm r; Username := ta_Username r; Password := ta_Password r |} (pe_authCheckAt e).
Proof.
  intros Ha Hu Hp S1 Hn Hx.
  assert (forall a, pe_auth e = inr a -> match ai_Result a with
    | AuthPassword => res_Code (handleInviteAuth s (pe_rand e) req (ai_Auth a) (pe_authCheckAt e)
                                  (pe_nonceAt e)).1 <> 200
    | AuthAccept | AuthOther _ => False | _ => True end -> Forall notCall (processInvite s e req cm).2) as Hq.
  { intros a Hi Hc. eapply processInvite_notCall; [done..|]. by eapply newInvite_notCall. }
  destruct (processInvite s e req cm) as [[res cm'] t]. cbn [snd] in Hq.
  intros [x [Ht Hc]]%list.Exists_exists.
  assert (Forall notCall t -> False) as Hf by (intros Hf; by apply Hc, (proj1 (list.Forall_forall _ _) Hf)).
  cbn [GetAuthCredentials] in Ha.
  destruct (ta_ErrorCode r), (ta_Drop r); try (exfalso; by apply Hf, (Hq _ Ha)).
  rewrite (proj2 (String.eqb_neq _ _) Hu), (proj2 (String.eqb_neq _ _) Hp) in Ha. cbn [negb andb] in Ha.
  set (auth := {| Realm := ta_Realm r; Username := ta_Username r; Password := ta_Password r |}) in *.
  destruct (decide (res_Code (handleInviteAuth s (pe_rand e) req auth (pe_authCheckAt e) (pe_nonceAt e)).1 = 200))
    as [E|E]; [by apply (handleInviteAuth_ok s (pe_rand e) req auth _ (pe_nonceAt e))|].
  exfalso. by apply Hf, (Hq _ Ha).
Qed.

(** *** Dispatch *)
Lemma DispatchCall_pin_flags r :
  disp_Result (DispatchCall (inr r)) = DispatchRequestPin ->
  disp_lateOffer (DispatchCall (inr r)) = false.
Proof. unfold DispatchCall. by destruct (dr_Result r), (dr_RequestPin r). Qed.

(** No late offer with a PIN.  Whatever features the dispatch service enables in its answer, a
    call it wants a PIN for is refused with 488 when its INVITE has no offer: the
    answer's feature flags are dropped before the call sees them. *)
Theorem pin_call_no_late_offer `{ErrorText} e ext c r :
  he_dispatch e = DispatchCall (inr r) ->
  disp_Result (he_dispatch e) = DispatchRequestPin ->
  he_createMedia e = None -> he_hasOffer e = false ->
  let err := ESDP (EText "received INVITE without offer, late offer disabled") in
  dispatched e ext true c =
    (do* mmodify set_media in
     do* onCC (RespondAndDrop (he_cache e) (ie_now (he_close e)) (ie_sent (he_close e)) 488 "Invalid SDP") in
     do* closeI (he_close e) (endOf callMediaFailed (stats.ClientError "sdp-error")) in
     mreturn (IRet (Some err)))%go c.
Proof.
  intros Hd Hr Hm Ho. unfold dispatched, prepareMedia. rewrite Hm, Ho. cbn [negb].
  assert (disp_lateOffer (he_dispatch e) = false) as ->
    by (rewrite Hd in Hr |- *; by apply DispatchCall_pin_flags).
  cbn [negb]. unfold rejectMedia, mbind', mreturn. cbn.
  destruct (onCC _ _) as [[a c1] t1]. repeat case_match; simplify_eq; by rewrite ?app_nil_r.
Qed.

(** ** The examples *)
#[local] Existing Instance exErrorText.
#[local] Existing Instance toyAEAD.
#[local] Existing Instance InboundAuth.exDigest.
#[local] Existing Instance SipOutbound.exDigest.

(** [exInvite] with the answer to a challenge. *)
Definition exAnswered : Request :=
  {| Method := Method exInvite; Recipient := Recipient exInvite; req_To := req_To exInvite;
     req_From := req_From exInvite; req_Via := req_Via exInvite; req_CallID := req_CallID exInvite;
     req_CSeq := req_CSeq exInvite;
     req_GetHeader := fun n => if String.eqb n "Proxy-Authorization" then Some exNonce else None;
     req_Body := ""; req_Source := req_Source exInvite |}.

Definition exPinAnswer (flags : gmap string string) : DispatchRules :=
  {| dr_Result := REQUEST_PIN; dr_RequestPin := true; dr_RoomName := ""; dr_Identity := "";
     dr_Attributes := ∅; dr_SipTrunkId := "ST_1"; dr_SipDispatchRuleId := "SDR_1"; dr_FeatureFlags := flags;
     dr_RingingTimeoutStatus := 0 |}.

(** [exHandle] for an INVITE without an offer. *)
Definition exOfferless (flags : gmap string string) : HandleEnv :=
  {| he_close := he_close exHandle; he_cache := false; he_ringAt := 2; he_ringSent := true;
     he_dispatch := DispatchCall (inr (exPinAnswer flags)); he_dispatchAt := 3; he_dispatchDur := 1;
     he_mediaConfig := None; he_sipCallId := "abc"; he_createMedia := None; he_hasOffer := false;
     he_generate := inr "v=0"; he_negotiate := inr ("v=0", Some "PCMU"); he_inboundWaitACK := false;
     he_answer := he_answer exHandle; he_pin := []; he_join := None; he_joinAt := 10;
     he_participant := "PA_1"; he_joinView := None; he_publish := None; he_subscribe := WoReady;
     he_startAt := 11; he_startView := None; he_end := [] |}.

Definition exTrunkAuth : TrunkAuthResponse :=
  {| ta_ErrorCode := AUTH_ERROR_NONE; ta_Drop := false; ta_Username := "alice"; ta_Password := "secret";
     ta_Realm := ""; ta_SipTrunkId := "ST_1"; ta_ProviderType := PROVIDER_TYPE_UNKNOWN;
     ta_ProviderName := "" |}.

Lemma pin_call_no_late_offer_witness :
  (dispatched (exOfferless {[ "sip.late_offer" := "true" ]}) (fun _ => []) true exICall).1.1 =
  IRet (Some (ESDP (EText "received INVITE without offer, late offer disabled"))).
Proof.
  rewrite (pin_call_no_late_offer (exOfferless {[ "sip.late_offer" := "true" ]}) (fun _ => []) exICall
             (exPinAnswer {[ "sip.late_offer" := "true" ]}) eq_refl eq_refl eq_refl eq_refl).
  vm_compute. reflexivity.
Defined.

Lemma authenticated_calls_only_witness : validCredentials exSealer exAnswered UserAgent exAuth second.
Proof.
  pose proof (authenticated_calls_only exSealer (exInviteEnv AuthPassword) exAnswered (exManager ∅) exCC true
                exTrunkAuth eq_refl ltac:(done) ltac:(done) eq_refl ltac:(vm_compute; reflexivity)
                exStartsNew) as P.
  assert (T : Exists (fun x => ~ notCall x)
                (processInvite exSealer (exInviteEnv AuthPassword) exAnswered (exManager ∅)).2).
  { clear P. apply list.Exists_exists.
    assert (C : existsb (fun x => match x with PCall _ => true | _ => false end)
                  (processInvite exSealer (exInviteEnv AuthPassword) exAnswered (exManager ∅)).2 = true)
      by (vm_compute; reflexivity).
    apply existsb_exists in C as (x & Hx & Hc). exists x. rewrite list_elem_of_In.
    split; [exact Hx|]. clear Hx. destruct x; try discriminate Hc. intros []. }
  destruct (processInvite exSealer (exInviteEnv AuthPassword) exAnswered (exManager ∅)) as [[res cm'] t].
  exact (P T).
Defined.
