(* ===== verification/Signaling.v ===== *)
(** * The interface of a dialog

    [Signaling] of [pkg/sip/protocol.go] is what the rest of the program sees of a dialog:
    who the peer is, the headers it sent, and how to forget it.  It is a class here, with
    the laws its users rely on; [sipInbound] and [sipOutbound] are instances.  The users
    (the log values and attributes of [pkg/sip/types.go], the RPC of [pkg/sip/rpc.go]) are
    written and proved against the class. *)

From stdpp Require Import base tactics list gmap strings option.
From Stdlib Require Import ZArith Ascii Lia.
From S2P Require Import Prelude GoStd GoErr Participant Types Protocol CallState SipInbound SipOutbound Dispatch Uas Uac.

(** ** Interface *)

(** [WriteRequest] and [Transaction] hand a request to the SIP stack and are left out. *)
Class Signaling (C : Type) := {
  sig_Address : C -> SipUri;
  sig_From : C -> SipUri;
  sig_To : C -> SipUri;
  sig_ID : C -> string;
  sig_Tag : C -> string;
  sig_SIPCallID : C -> string;
  sig_RemoteHeaders : C -> HeaderList;
  sig_Drop : C -> C;
}.

(** The zero URI. *)
Definition noUri : SipUri := {| su_User := ""; su_Host := ""; su_Port := 0; su_UriParams := ∅ |}.

(** Who a dialog is with. *)
Definition identity {C} `{Signaling C} (c : C) : SipUri * SipUri * string * string * string :=
  (sig_From c, sig_To c, sig_ID c, sig_Tag c, sig_SIPCallID c).

(** A dropped dialog keeps its identity and forgets the messages. *)
Class SignalingLaws (C : Type) `{Signaling C} := {
  drop_identity c : identity (sig_Drop c) = identity c;
  drop_headers c : sig_RemoteHeaders (sig_Drop c) = [];
  drop_address c : sig_Address (sig_Drop c) = noUri;
}.

(** ** Users *)
Section users.
Context {C : Type} `{SignalingLaws C}.

Definition viewOf (c : C) : SignalingView :=
  {| RemoteHeaders := sig_RemoteHeaders c; Tag := sig_Tag c; SIPCallID := sig_SIPCallID c |}.

(** The values added to the log; [headerToLog] in the order the [range] visits it. *)
Definition LoggerWithHeaders (headerToLog : list (string * string)) (c : C) : list (string * string) :=
  omap (fun '(hdr, name) => pair name <$> Headers_GetHeader (sig_RemoteHeaders c) hdr) headerToLog.

(** The headers a participant of the room is shown. *)
Definition shownHeaders (include exclude : list string) (c : C) : gmap string string :=
  rpcGetHeaders include exclude (sig_RemoteHeaders c).

(** The attributes it gets. *)
Definition callAttrs (attrs : gmap string string) (hdrToAttr : list (string * string)) (opts : SIPHeaderOptions) (c : C)
    : gmap string string :=
  HeadersToAttrs headerToAttr attrs hdrToAttr opts (Some (viewOf c)) [].
End users.

(** ** The inbound dialog *)

(** What is read of a message. *)
Record Message := { msg_Recipient : SipUri; msg_Headers : HeaderList; msg_Body : string }.

(** The dialog with its INVITE, which is set while [hasInvite] holds. *)
Record inboundLeg := { in_cc : sipInbound; in_invite : Message; in_from : option SipUri; in_to : option SipUri }.

Definition inbound_Address (c : inboundLeg) : SipUri :=
  if hasInvite (in_cc c) then msg_Recipient (in_invite c) else noUri.

Definition inbound_From (c : inboundLeg) : SipUri := default noUri (in_from c).

Definition inbound_To (c : inboundLeg) : SipUri := default noUri (in_to c).

Definition inbound_RemoteHeaders (c : inboundLeg) : HeaderList :=
  if hasInvite (in_cc c) then msg_Headers (in_invite c) else [].

Definition inbound_Drop (c : inboundLeg) : inboundLeg :=
  {| in_cc := state_of (drop (in_cc c)); in_invite := in_invite c; in_from := in_from c; in_to := in_to c |}.

#[export] Instance inbound_Signaling : Signaling inboundLeg :=
  {| sig_Address := inbound_Address; sig_From := inbound_From; sig_To := inbound_To;
     sig_ID := fun c => si_id (in_cc c); sig_Tag := fun c => si_tag (in_cc c);
     sig_SIPCallID := fun c => si_sipCallID (in_cc c); sig_RemoteHeaders := inbound_RemoteHeaders;
     sig_Drop := inbound_Drop |}.

(** ** The outbound dialog *)

(** The INVITE that was answered and the headers of the answer, which are set while
    [so_invite] and [so_inviteOk] are. *)
Record outboundLeg := {
  out_cc : sipOutbound; out_id : string; out_from : SipUri; out_to : option SipUri;
  out_invite : Message; out_answer : HeaderList;
}.

Definition outbound_Address (c : outboundLeg) : SipUri :=
  match so_invite (out_cc c) with Some _ => msg_Recipient (out_invite c) | None => noUri end.

Definition outbound_To (c : outboundLeg) : SipUri := default noUri (out_to c).

Definition outbound_RemoteHeaders (c : outboundLeg) : HeaderList :=
  if so_inviteOk (out_cc c) then out_answer c else [].

Definition outbound_Drop (c : outboundLeg) : outboundLeg :=
  {| out_cc := state_of (dropO (out_cc c)); out_id := out_id c; out_from := out_from c; out_to := out_to c;
     out_invite := out_invite c; out_answer := out_answer c |}.

#[export] Instance outbound_Signaling : Signaling outboundLeg :=
  {| sig_Address := outbound_Address; sig_From := out_from; sig_To := outbound_To; sig_ID := out_id;
     sig_Tag := fun c => so_tag (out_cc c); sig_SIPCallID := fun c => callID (out_cc c);
     sig_RemoteHeaders := outbound_RemoteHeaders; sig_Drop := outbound_Drop |}.

(** The offer of the answered INVITE. *)
Definition OwnSDP (c : outboundLeg) : option string :=
  match so_invite (out_cc c) with
  | None => None
  | Some _ => if String.eqb (msg_Body (out_invite c)) "" then None else Some (msg_Body (out_invite c))
  end.

(** ** Laws *)
Lemma drop_fields s :
  let s' := state_of (drop s) in
  hasInvite s' = false /\ si_id s' = si_id s /\ si_tag s' = si_tag s /\ si_sipCallID s' = si_sipCallID s.
Proof.
  unfold drop, stopRinging, mwhen, mbind', mget, mput, mmodify, memit, mreturn, state_of. cbn.
  destruct (ringing s); cbn; destruct (inviteTx s); done.
Qed.

#[export] Instance inbound_Laws : SignalingLaws inboundLeg.
Proof.
  split; intros [s m f t]; destruct (drop_fields s) as (E & I1 & I2 & I3); unfold identity; cbn;
    unfold inbound_RemoteHeaders, inbound_Address; cbn; by rewrite ?E, ?I1, ?I2, ?I3.
Qed.

#[export] Instance outbound_Laws : SignalingLaws outboundLeg.
Proof. by split. Qed.

(** ** Theorems *)
Lemma tableValue_nil table k : tableValue table [] k = None.
Proof. induction table as [|[h n] l IH]; [done|]. cbn. rewrite IH. by destruct (String.eqb n k). Qed.

(** What the users see of a dialog that was dropped, whichever of the two it is: no
    headers, no log values, and of the attributes only the tag and the Call-ID of the
    dialog, which a dropped dialog still has. *)
Theorem dropped_shows_nothing {C} `{SignalingLaws C} (c : C) include exclude table attrs hdrToAttr opts k :
  shownHeaders include exclude (sig_Drop c) = ∅ /\
  LoggerWithHeaders table (sig_Drop c) = [] /\
  callAttrs attrs hdrToAttr opts (sig_Drop c) !! k = orElse (metaValue (Some (viewOf c)) k) (attrs !! k).
Proof.
  unfold shownHeaders, LoggerWithHeaders, callAttrs. rewrite drop_headers. split_and!; [done| |].
  - induction table as [|[h n] l IH]; [done|]. exact IH.
  - rewrite HeadersToAttrs_precedence. unfold viewOf. cbn [RemoteHeaders]. rewrite drop_headers, !tableValue_nil.
    pose proof (drop_identity c) as Hd. unfold identity in Hd. injection Hd as _ _ _ Ht Hc. unfold metaValue.
    cbn [Tag SIPCallID]. by rewrite Ht, Hc.
Qed.

(** The users see the headers of the peer exactly while the call lives.  For an inbound
    call these are those of the INVITE, from its arrival until the dialog is over; for an
    outbound call those of the answer, while the dialog is up; whatever methods were
    called on it (for an outbound call, after its INVITE). *)
Theorem headers_live_with_call `{DigestClient} :
  (forall cached freshID invite s l m from to, newInbound cached freshID invite = inr s -> Forall opOK l ->
     let s' := state_of (runDOps l s) in
     sig_RemoteHeaders {| in_cc := s'; in_invite := m; in_from := from; in_to := to |} =
     match abs s' with Over => [] | _ => msg_Headers m end) /\
  (forall cid env now user pass l id from to m hs, Forall later l ->
     let s' := state_of (runOOps (OpInvite env now user pass :: l) (newOutbound cid)) in
     sig_RemoteHeaders {| out_cc := s'; out_id := id; out_from := from; out_to := to; out_invite := m; out_answer := hs |} =
     match absO s' with Up _ _ => hs | _ => [] end).
Proof.
  split.
  - intros cached freshID invite s l m from to Hs Hl s'. destruct (newInbound_wf _ _ _ _ Hs) as [Hw _].
    pose proof (runDOps_made l Hl s) as Hr. unfold mspec in Hr. subst s'. unfold state_of.
    destruct (runDOps l s) as [[[] s'] t]. destruct (proj1 Hr Hw) as [(H1 & H2 & H3) _].
    unfold abs. cbn. unfold inbound_RemoteHeaders. cbn. destruct (inviteTx s') eqn:Et; [by rewrite (proj2 (H1 eq_refl))|].
    destruct (inviteOk s') eqn:Eo; [by rewrite H2 by by eexists|].
    destruct (hasInvite s'); [|done]. by destruct (H3 eq_refl) as [?|[? ?]].
  - intros cid env now user pass l id from to m hs Hl s'.
    assert (okO s') as Hk.
    { pose proof (Invite_runs env now user pass (newOutbound cid) eq_refl eq_refl) as Hi. subst s'.
      cbn [runOOps runOOp]. unfold mspec, mbind', mreturn, state_of in *.
      destruct (Invite env now user pass (newOutbound cid)) as [[a s1] t1]. destruct Hi as [Hp _].
      pose proof (runOOps_sim l Hl s1) as R2. unfold mspec in R2. destruct (runOOps l s1) as [[[] s2] t2].
      by destruct (R2 Hp). }
    cbn. unfold outbound_RemoteHeaders. cbn.
    by destruct (okO_cases s' Hk) as [(c & _ & -> & _ & ->)|[(_ & -> & _ & ->)|(c & _ & -> & _ & ->)]].
Qed.
