(* ===== verification/CallApi.v ===== *)
(** * What a call offers to its room and to the control plane

    Of [pkg/sip/inbound.go], [outbound.go], [client.go] and [rpc.go]: the headers and
    attributes of a call, [EndCall] of both directions (the one-slot channel of an inbound
    call, the lock of an outbound one, as transition systems), and [createSIPParticipant]
    as a whole. *)

From stdpp Require Import base tactics list gmap strings option.
From Stdlib Require Import ZArith Ascii Lia.
From S2P Require Import Prelude GoStd GoErr Participant Errors Types Protocol CallState CallCommon Monitor Sealer SipInbound SipOutbound OutboundCall InboundCall Manager Client Dispatch.
Import strings strconv.

(** ** Headers and attributes of a call *)
Section headers.
Variable validate : string -> string -> bool.       (* livekit.ValidateHeaderValue *)

(** What [sipInbound] sees of its call: [attrsToHdr], and the attributes of the local
    participant if the call is in a room. *)
Record HeaderView := { hv_attrsToHdr : list (string * string); hv_room : option attrmap }.

Definition fillHeaders (call : option HeaderView) (headers : attrmap) : attrmap :=
  match call with
  | None => headers
  | Some {| hv_attrsToHdr := [] |} => headers
  | Some {| hv_room := None |} => headers
  | Some {| hv_attrsToHdr := m; hv_room := Some attrs |} => AttrsToHeaders validate attrs m headers
  end.

(** [lkRoom] is an interface, [None] if it is nil; the result [None] is the nil dereference
    of a method call on it. *)
Definition setAttrsToHeaders (attrsToHeaders : list (string * string)) (lkRoom : option (option attrmap))
    (headers : attrmap) : option attrmap :=
  match attrsToHeaders, lkRoom with
  | [], _ => Some headers
  | _, None => None
  | _, Some None => Some headers
  | m, Some (Some attrs) => Some (AttrsToHeaders validate attrs m headers)
  end.

(** The headers of the answer, and the mapping that stays in force; [room] as above. *)
Definition acceptHeaders (headers : attrmap) (attrsToHdr : list (string * string)) (room : option attrmap)
    : attrmap * HeaderView :=
  (match room with
   | Some attrs => AttrsToHeaders validate attrs attrsToHdr headers
   | None => headers
   end,
   {| hv_attrsToHdr := attrsToHdr; hv_room := room |}).

(** The headers a BYE or a final response gets on top of the library's: both loops append. *)
Definition closingHeaders (call : option HeaderView) (headers : attrmap) : list (string * string) :=
  map_to_list (fillHeaders call ∅) ++ map_to_list headers.
End headers.

(** The attributes [setExtraAttrs] sets on the participant, if it sets any. *)
Definition setExtraAttrs (global hdrToAttr : list (string * string)) (opts : SIPHeaderOptions)
    (cc : option SignalingView) (hdrs : HeaderList) (lkRoom : option bool) : option attrmap :=
  let extra := HeadersToAttrs global ∅ hdrToAttr opts cc hdrs in
  match lkRoom with
  | Some true => if bool_decide (extra = ∅) then None else Some extra
  | _ => None
  end.

(** [inviteTime] and [pinEnteredTime] stand for the functions of the protocol library. *)
Definition dispatchAttributes (inviteTime pinEnteredTime : Z -> attrmap) (invite pinEnteredAt : option Z) : attrmap :=
  let attrs := match invite with Some t => inviteTime t ∪ ∅ | None => ∅ end in
  match pinEnteredAt with Some t => pinEnteredTime t ∪ attrs | None => attrs end.

Definition contentTypeSDP : string := "application/sdp".

Definition sdpBodyFromRequest (contentType : option string) (body : string) : option string :=
  match contentType with
  | Some ct => if negb (String.eqb ct contentTypeSDP) then None else Some body
  | None => Some body
  end.

Definition hexDigit (z : Z) : ascii := ascii_of_nat (Z.to_nat (if z <? 10 then 48 + z else 87 + z)).
Fixpoint EncodeToString (l : list Z) : string :=
  match l with
  | [] => ""
  | b :: l' => String (hexDigit (Z.shiftr b 4)) (String (hexDigit (Z.land b 15)) (EncodeToString l'))
  end.

Definition hashPassword (sha256 : string -> list Z) (password : string) : string :=
  if String.eqb password "" then "<empty>" else EncodeToString (take 8 (sha256 password)).

(** ** The mappings of a dispatch *)

(** The fields of the control plane's answer that [DispatchCall] passes through. *)
Record HeaderMaps := {
  hm_Headers : attrmap;
  hm_HeadersToAttributes : list (string * string);
  hm_AttributesToHeaders : list (string * string);
}.

Definition noMaps : HeaderMaps :=
  {| hm_Headers := ∅; hm_HeadersToAttributes := []; hm_AttributesToHeaders := [] |}.

(** The maps of the [CallDispatch] made of an answer. *)
Definition dispatchMaps (resp : error + (DispatchRules * HeaderMaps)) : HeaderMaps :=
  match resp with
  | inl _ => noMaps
  | inr (r, m) =>
      match dr_Result r with
      | LEGACY_ACCEPT_OR_PIN => if dr_RequestPin r then noMaps else m
      | ACCEPT => m
      | _ => noMaps
      end
  end.

Definition rulesOf (resp : error + (DispatchRules * HeaderMaps)) : error + DispatchRules :=
  match resp with inl err => inl err | inr (r, _) => inr r end.

(** [handleInvite], by its maps: those the call is answered with ([acceptCall]) and those the
    participant is created with.  A call with a PIN is answered before the prompt, and joins
    with the dispatch that [pin] is answered with. *)
Definition handleMaps (first pin : error + (DispatchRules * HeaderMaps)) : option (HeaderMaps * HeaderMaps) :=
  let disp := dispatchMaps first in
  match disp_Result (DispatchCall (rulesOf first)) with
  | DispatchRequestPin =>
      match disp_Result (DispatchCall (rulesOf pin)) with
      | DispatchAccept => Some (disp, dispatchMaps pin)
      | _ => None
      end
  | DispatchAccept => Some (disp, disp)
  | _ => None
  end.

(** *** Theorems *)

(** Not every entry of a mapping is used: the last one for a header that has a value. *)
Lemma attrsLoop_lookup validate attrs m hs hdr v :
  NoDup m.*2 ->
  attrsLoop validate attrs m hs !! hdr = Some v <->
  (exists attr, (attr, hdr) ∈ m /\ attrs !! attr = Some v /\ validate hdr v = true) \/
  ((forall attr w, (attr, hdr) ∈ m -> attrs !! attr = Some w -> validate hdr w = false) /\ hs !! hdr = Some v).
Proof.
  revert hs. induction m as [|[a h] m IH]; intros hs; cbn [attrsLoop fmap list_fmap].
  { intros _. split; [intros Hv; right; split; [intros ? ? Hin; set_solver | done] |].
    intros [(? & Hin & _) | [_ Hv]]; [set_solver | done]. }
  intros [Hni Hnd]%list.NoDup_cons. rewrite IH by done. clear IH. split.
  - intros [(at_ & Hin & Ha & Hv) | [Hno Hl]].
    { left. exists at_. split; [by right | done]. }
    destruct (attrs !! a) as [w|] eqn:Ea; [destruct (validate h w) eqn:Ew|].
    + destruct (decide (h = hdr)) as [->|Hne].
      * rewrite lookup_insert_eq in Hl. simplify_eq. left. exists a. split; [by left | done].
      * rewrite lookup_insert_ne in Hl by done. right. split; [|done].
        intros at_ w' [[= -> ->]|Hin]%elem_of_cons Hw; [done | by eapply Hno].
    + right. split; [|done]. intros at_ w' [[= -> ->]|Hin]%elem_of_cons Hw; [congruence | by eapply Hno].
    + right. split; [|done]. intros at_ w' [[= -> ->]|Hin]%elem_of_cons Hw; [congruence | by eapply Hno].
  - intros [(at_ & [[= -> ->]|Hin]%elem_of_cons & Ha & Hv) | [Hno Hl]].
    + right. rewrite Ha, Hv, lookup_insert_eq. split; [|done]. intros at' w Hin. exfalso. apply Hni.
      apply list_elem_of_fmap. by exists (at', h).
    + left. eauto.
    + right. split; [intros at_ w Hin; eapply Hno; by right|].
      destruct (attrs !! a) as [w|] eqn:Ea; [|done]. destruct (validate h w) eqn:Ew; [|done].
      destruct (decide (h = hdr)) as [->|Hne]; [|by rewrite lookup_insert_ne].
      rewrite (Hno a w) in Ew; [done | by left | done].
Qed.

Lemma fillHeaders_lookup validate m attrs hdr v :
  NoDup m.*2 ->
  fillHeaders validate (Some {| hv_attrsToHdr := m; hv_room := Some attrs |}) ∅ !! hdr = Some v <->
  exists attr, (attr, hdr) ∈ m /\ attrs !! attr = Some v /\ validate hdr v = true.
Proof.
  intros Hnd. destruct m as [|p m]; cbn [fillHeaders].
  { rewrite lookup_empty. split; [done|]. intros (? & Hin & _). set_solver. }
  cbn [AttrsToHeaders]. rewrite attrsLoop_lookup by done. rewrite lookup_empty. naive_solver.
Qed.

(** The headers a call is closed with.  For a mapping without two entries for one header, and
    a call that is answered while in its room, they are the headers of the request that ends
    it and exactly the mapped attributes that have a value the header may hold. *)
Theorem closingHeaders_exact validate m attrs headers hs hdr v :
  NoDup m.*2 ->
  (hdr, v) ∈ closingHeaders validate (Some (acceptHeaders validate hs m (Some attrs)).2) headers <->
  (exists attr, (attr, hdr) ∈ m /\ attrs !! attr = Some v /\ validate hdr v = true) \/
  headers !! hdr = Some v.
Proof.
  intros Hnd. unfold closingHeaders, acceptHeaders. cbn [snd].
  rewrite elem_of_app, !elem_of_map_to_list. by rewrite fillHeaders_lookup.
Qed.

(** A call with a PIN is closed without the mapped headers: whatever the dispatch that accepts
    the PIN maps, the BYE has the headers of the request that ends the call and no others,
    because the mapping in force is the one of the dispatch that asked for the PIN, which
    [DispatchCall] makes without one.  The participant does get the attributes of the headers. *)
Theorem pin_call_unmapped validate first pin answer join room hs headers :
  disp_Result (DispatchCall (rulesOf first)) = DispatchRequestPin ->
  handleMaps first pin = Some (answer, join) ->
  join = dispatchMaps pin /\
  closingHeaders validate
    (Some (acceptHeaders validate hs (hm_AttributesToHeaders answer) room).2) headers =
  map_to_list headers.
Proof.
  unfold handleMaps. intros Hr. rewrite Hr. case_match; [|done..]. intros [= <- <-]. split; [done|].
  assert (dispatchMaps first = noMaps) as ->.
  { revert Hr. destruct first as [err|[r m]]; cbn; [done|]. by destruct (dr_Result r), (dr_RequestPin r). }
  unfold closingHeaders. cbn. by rewrite map_to_list_empty.
Qed.

Definition exPinRules (res : SIPDispatchResult) : DispatchRules :=
  {| dr_Result := res; dr_RequestPin := false; dr_RoomName := "room"; dr_Identity := ""; dr_Attributes := ∅;
     dr_SipTrunkId := ""; dr_SipDispatchRuleId := ""; dr_FeatureFlags := ∅; dr_RingingTimeoutStatus := 0 |}.

Definition exMaps : HeaderMaps :=
  {| hm_Headers := ∅; hm_HeadersToAttributes := []; hm_AttributesToHeaders := [("account", "X-Account")] |}.

Lemma pin_call_unmapped_witness :
  exists answer join,
    handleMaps (inr (exPinRules REQUEST_PIN, exMaps)) (inr (exPinRules ACCEPT, exMaps)) = Some (answer, join) /\
    hm_AttributesToHeaders join = [("account", "X-Account")] /\
    closingHeaders (fun _ _ => true)
      (Some (acceptHeaders (fun _ _ => true) ∅ (hm_AttributesToHeaders answer) (Some {["account" := "7"]})).2) ∅ = [] /\
    closingHeaders (fun _ _ => true)
      (Some (acceptHeaders (fun _ _ => true) ∅ (hm_AttributesToHeaders join) (Some {["account" := "7"]})).2) ∅ =
    [("X-Account", "7")].
Proof.
  exists noMaps, exMaps. split; [reflexivity|]. split; [reflexivity|]. split; [|vm_compute; reflexivity].
  destruct (pin_call_unmapped (fun _ _ => true) (inr (exPinRules REQUEST_PIN, exMaps)) (inr (exPinRules ACCEPT, exMaps))
              noMaps exMaps (Some {["account" := "7"]}) ∅ ∅ eq_refl eq_refl) as [_ ->].
  apply map_to_list_empty.
Defined.

(** A header that is mapped and also given by the request appears twice in a BYE; in a REFER
    the mapped value replaces the one of the request. *)
Theorem closing_header_twice validate attr hdr attrs headers v w :
  attrs !! attr = Some v -> validate hdr v = true -> headers !! hdr = Some w ->
  let view := {| hv_attrsToHdr := [(attr, hdr)]; hv_room := Some attrs |} in
  closingHeaders validate (Some view) headers = (hdr, v) :: map_to_list headers /\
  (hdr, w) ∈ map_to_list headers /\
  fillHeaders validate (Some view) headers = <[hdr := v]> headers.
Proof.
  intros Ha Hv Hw. cbn zeta. unfold closingHeaders. cbn [fillHeaders AttrsToHeaders attrsLoop].
  rewrite Ha, Hv. rewrite insert_empty, map_to_list_singleton. by rewrite elem_of_map_to_list.
Qed.

Lemma EncodeToString_head l c s : EncodeToString l = String c s -> exists z, c = hexDigit z.
Proof. destruct l; cbn; [done|]. intros [= <- _]. eauto. Qed.

(** The hash that is logged says that a password is empty exactly if it is. *)
Theorem hashPassword_empty sha256 password :
  Forall (fun b => 0 <= b < 256) (sha256 password) ->
  hashPassword sha256 password = "<empty>" <-> password = "".
Proof.
  intros Hb. unfold hashPassword. destruct (String.eqb_spec password "") as [->|Hne]; [done|].
  split; [|done]. destruct (sha256 password) as [|b l]; [done|]. apply list.Forall_cons in Hb as [Hb _].
  cbn [take EncodeToString]. intros [= Hc _]. exfalso. revert Hc. unfold hexDigit.
  rewrite Z.shiftr_div_pow2 by lia.
  pose proof (Z.div_pos b (2 ^ 4) ltac:(lia) ltac:(lia)).
  pose proof (Z.div_lt_upper_bound b (2 ^ 4) 16 ltac:(lia) ltac:(lia)).
  generalize dependent (b / 2 ^ 4). intros z Hz0 Hz1 Hc. apply (f_equal nat_of_ascii) in Hc.
  rewrite nat_ascii_embedding in Hc by (destruct (z <? 10); lia).
  change (nat_of_ascii "<"%char) with 60%nat in Hc. destruct (Z.ltb_spec z 10); lia.
Qed.

(** ** [EndCall] of an inbound call

    The participants of the room call [lk.sip.EndCall]; [EndCall] puts the end of the call into a
    channel with one slot, which the call reads in three of its selects. *)
Definition rpcEnd (headers : list (string * string)) : EndCall :=
  {| Report := None; ec_Status := CallHangup; Term := stats.Success "rpc"; Reason := UNKNOWN_REASON;
     Headers := headers; ec_Code := 0 |}.

Module mailbox.

(** An RPC: in the select of [EndCall], or answered. *)
Inductive Caller :=
| Sending (headers : list (string * string))
| Answered (headers : list (string * string)) (err : option error).

Inductive Select := WaitSubscribe | WaitMedia | WaitForCallEnd.

(** Where the goroutine of the call is; [Ended]: with the message that ended it, if it was one. *)
Inductive Phase := Between | Waiting (w : Select) | Ended (by_ : option EndCall).

Record mstate := { b_slot : option EndCall; b_phase : Phase; b_callers : list Caller }.

Definition minit : mstate := {| b_slot := None; b_phase := Between; b_callers := [] |}.

Section steps.
Variable ctxErr : error.                        (* of the context of an RPC *)

Inductive bstep (s : mstate) : mstate -> Prop :=
| s_rpc h : bstep s {| b_slot := b_slot s; b_phase := b_phase s; b_callers := b_callers s ++ [Sending h] |}
| s_send i h : b_callers s !! i = Some (Sending h) -> b_slot s = None ->
    bstep s {| b_slot := Some (rpcEnd h); b_phase := b_phase s;
              b_callers := <[i := Answered h None]> (b_callers s) |}
| s_ctx i h : b_callers s !! i = Some (Sending h) ->
    bstep s {| b_slot := b_slot s; b_phase := b_phase s;
              b_callers := <[i := Answered h (Some ctxErr)]> (b_callers s) |}
| s_wait w : b_phase s = Between ->
    bstep s {| b_slot := b_slot s; b_phase := Waiting w; b_callers := b_callers s |}
| s_go w : b_phase s = Waiting w -> w <> WaitForCallEnd ->
    bstep s {| b_slot := b_slot s; b_phase := Between; b_callers := b_callers s |}
| s_take w e : b_phase s = Waiting w -> b_slot s = Some e ->
    bstep s {| b_slot := None; b_phase := Ended (Some e); b_callers := b_callers s |}
| s_end : (forall by_, b_phase s <> Ended by_) ->
    bstep s {| b_slot := b_slot s; b_phase := Ended None; b_callers := b_callers s |}.

Inductive reach (s0 : mstate) : mstate -> Prop :=
| r_refl : reach s0 s0
| r_step s s' : reach s0 s -> bstep s s' -> reach s0 s'.

Definition accepted (c : Caller) : bool := match c with Answered _ None => true | _ => false end.
Definition inSlot (s : mstate) : nat := match b_slot s with Some _ => 1 | None => 0 end.
Definition taken (s : mstate) : nat := match b_phase s with Ended (Some _) => 1 | _ => 0 end.

Definition fromCaller (s : mstate) (e : EndCall) : Prop :=
  exists h, e = rpcEnd h /\ Answered h None ∈ b_callers s.

Definition minv (s : mstate) : Prop :=
  countb accepted (b_callers s) = (inSlot s + taken s)%nat /\
  (forall e, b_slot s = Some e -> fromCaller s e) /\
  (forall e, b_phase s = Ended (Some e) -> fromCaller s e).

(** A caller that was waiting is replaced by its answer. *)
Lemma countb_insert_caller l i h c : l !! i = Some (Sending h) ->
  countb accepted (<[i := c]> l) = (countb accepted l + (if accepted c then 1 else 0))%nat.
Proof.
  intros Hi. rewrite <- (list.take_drop_middle l i _ Hi) at 2.
  rewrite insert_take_drop by (by eapply lookup_lt_Some).
  rewrite !countb_app, !countb_cons. cbn. destruct (accepted c); lia.
Qed.

Lemma fromCaller_insert s i h h' err e : b_callers s !! i = Some (Sending h') ->
  e = rpcEnd h -> Answered h None ∈ b_callers s -> Answered h None ∈ <[i := Answered h' err]> (b_callers s).
Proof.
  intros Hi _ [j Hj]%list_elem_of_lookup. apply list_elem_of_lookup. exists j.
  rewrite list_lookup_insert_ne; [done|]. intros ->. congruence.
Qed.

Lemma minv_step s s' : bstep s s' -> minv s -> minv s'.
Proof.
  intros Hs (Hc & Hslot & Hph).
  assert (forall l : list Caller, (forall h, Answered h None ∈ b_callers s -> Answered h None ∈ l) ->
            (forall e, b_slot s = Some e -> exists h, e = rpcEnd h /\ Answered h None ∈ l) /\
            (forall e, b_phase s = Ended (Some e) -> exists h, e = rpcEnd h /\ Answered h None ∈ l)) as Hl.
  { intros l Hl. split; intros e He; [destruct (Hslot e He) as (h & ? & ?) | destruct (Hph e He) as (h & ? & ?)]; eauto. }
  destruct Hs as [h|i h Hi Hn|i h Hi|w Hp|w Hp|w e Hp He|Hp];
    unfold minv, inSlot, taken, fromCaller in *; cbn [b_slot b_phase b_callers].
  - rewrite countb_app, countb_cons, countb_nil. cbn. split; [lia|]. apply Hl. set_solver.
  - rewrite (countb_insert_caller _ _ _ _ Hi), Hn in *. cbn [accepted]. split; [lia|].
    destruct (Hl (<[i := Answered h None]> (b_callers s))) as [_ H2].
    { intros h' Hin. by eapply (fromCaller_insert s i h' h None (rpcEnd h')). }
    split; [|done]. intros e [= <-]. exists h. split; [done|].
    apply list_elem_of_lookup. exists i. apply list_lookup_insert_eq. by eapply lookup_lt_Some.
  - rewrite (countb_insert_caller _ _ _ _ Hi). cbn [accepted]. split; [lia|]. apply Hl.
    intros h' Hin. by eapply (fromCaller_insert s i h' h _ (rpcEnd h')).
  - rewrite Hp in Hc. split; [done|]. split; [|done]. by apply Hl.
  - rewrite Hp in Hc. split; [done|]. split; [|done]. by apply Hl.
  - rewrite Hp, He in Hc. split; [lia|]. split; [done|]. intros e' [= <-]. auto.
  - destruct (b_phase s) as [|w|by_]; [| |by destruct (Hp by_)]; (split; [done|]; split; [|done]; by apply Hl).
Qed.

Lemma minv_reach s : reach minit s -> minv s.
Proof.
  induction 1 as [|s s' _ IH Hs]; [|by eapply minv_step]. repeat split; intros e; cbn; [done..].
Qed.

(** A call that is over, and a slot that is full then, stay so. *)
Lemma ended_stays s s' by_ : reach s s' -> b_phase s = Ended by_ ->
  b_phase s' = Ended by_ /\ (forall e, b_slot s = Some e ->
    b_slot s' = Some e /\ countb accepted (b_callers s') = countb accepted (b_callers s)).
Proof.
  intros Hr He. induction Hr as [|s1 s2 _ [IHp IHs] Hs]; [done|].
  destruct Hs as [h|i h Hi Hn|i h Hi|w Hp|w Hp|w e Hp _|Hp]; try congruence; try (by destruct (Hp by_));
    cbn [b_phase b_slot b_callers]; (split; [done|]); intros e Hse; destruct (IHs e Hse) as [Hs1 Hc1].
  - split; [done|]. rewrite countb_app, countb_cons, countb_nil. cbn. lia.
  - congruence.
  - split; [done|]. rewrite (countb_insert_caller _ _ _ _ Hi). cbn. lia.
Qed.
End steps.
End mailbox.

(** [lk.sip.EndCall] of an inbound call.  At most two calls of the method are answered without
    an error in the life of a call; one of them ends it, with a hangup that carries the headers
    of that request, and at most one more is left in the channel. *)
Theorem inbound_EndCall ctxErr s : mailbox.reach ctxErr mailbox.minit s ->
  (countb mailbox.accepted (mailbox.b_callers s) <= 2)%nat /\
  (forall e, mailbox.b_phase s = mailbox.Ended (Some e) ->
     exists h, e = rpcEnd h /\ mailbox.Answered h None ∈ mailbox.b_callers s) /\
  (forall w e, mailbox.b_phase s = mailbox.Waiting w -> mailbox.b_slot s = Some e ->
     exists s', mailbox.bstep ctxErr s s' /\ mailbox.b_phase s' = mailbox.Ended (Some e)).
Proof.
  intros Hr. destruct (mailbox.minv_reach _ _ Hr) as (Hc & _ & Hph). split; [|split; [done|]].
  - rewrite Hc. unfold mailbox.inSlot, mailbox.taken. repeat case_match; lia.
  - intros w e Hp He. eexists. split; [by eapply mailbox.s_take | done].
Qed.

(** After the end of a call [EndCall] is still answered without an error, once: the message
    goes into the slot, from where nobody takes it, and every later call of the method waits
    until its context ends.  (The outbound call answers that the call already ended.) *)
Theorem inbound_EndCall_late ctxErr s h :
  mailbox.b_phase s = mailbox.Ended None -> mailbox.b_slot s = None ->
  exists s1, mailbox.reach ctxErr s s1 /\ mailbox.b_phase s1 = mailbox.Ended None /\
    mailbox.Answered h None ∈ mailbox.b_callers s1 /\
    (forall s2, mailbox.reach ctxErr s1 s2 ->
       mailbox.b_phase s2 = mailbox.Ended None /\ mailbox.b_slot s2 = Some (rpcEnd h) /\
       countb mailbox.accepted (mailbox.b_callers s2) = countb mailbox.accepted (mailbox.b_callers s1)).
Proof.
  intros Hp Hn. eexists. split; [|split; [|split]].
  - eapply mailbox.r_step; [eapply mailbox.r_step; [apply mailbox.r_refl | apply (mailbox.s_rpc _ _ h)]|].
    eapply (mailbox.s_send _ _ (length (mailbox.b_callers s)) h); [|done].
    cbn [mailbox.b_callers]. by rewrite list_lookup_middle.
  - done.
  - cbn [mailbox.b_callers]. rewrite insert_app_r_alt by lia. rewrite Nat.sub_diag. set_solver.
  - intros s2 Hr. destruct (mailbox.ended_stays _ _ _ None Hr Hp) as [? Hs]. split; [done|]. by apply Hs.
Qed.

(** ** [EndCall] of an outbound call

    [Dial] holds the lock of the call from the INVITE to the end of dialling ([connectSIP]);
    [CloseWith], and so [EndCall], takes the same lock. *)
Module diallock.

Inductive Owner := Dialer | Closer (i : nat).
Inductive DialPhase := NotDialed | Dialing | Dialed (ok : bool).
Inductive Rpc := Locking | Holding | Returned (err : option error).

Record lstate := {
  l_owner : option Owner;              (* of [c.mu] *)
  l_dial : DialPhase;
  l_stopped : bool;                    (* [c.stopped] *)
  l_cancelled : bool;                  (* the context of [sipSignal] *)
  l_roomClosed : bool;
  l_before : bool;                     (* [c.stopped] when the dial took the lock *)
  l_rpcs : list Rpc;
}.

Definition linit : lstate :=
  {| l_owner := None; l_dial := NotDialed; l_stopped := false; l_cancelled := false; l_roomClosed := false;
     l_before := false; l_rpcs := [] |}.

Definition with_dial (o : option Owner) (d : DialPhase) (stopped before : bool) (s : lstate) : lstate :=
  {| l_owner := o; l_dial := d; l_stopped := stopped; l_cancelled := l_cancelled s; l_roomClosed := l_roomClosed s;
     l_before := before; l_rpcs := l_rpcs s |}.
Definition with_rpcs (o : option Owner) (stopped : bool) (l : list Rpc) (s : lstate) : lstate :=
  {| l_owner := o; l_dial := l_dial s; l_stopped := stopped; l_cancelled := l_cancelled s; l_roomClosed := l_roomClosed s;
     l_before := l_before s; l_rpcs := l |}.
Definition cancel (s : lstate) : lstate :=
  {| l_owner := l_owner s; l_dial := l_dial s; l_stopped := l_stopped s; l_cancelled := true;
     l_roomClosed := l_roomClosed s; l_before := l_before s; l_rpcs := l_rpcs s |}.
Definition closeRoom (s : lstate) : lstate :=
  {| l_owner := l_owner s; l_dial := l_dial s; l_stopped := l_stopped s; l_cancelled := l_cancelled s;
     l_roomClosed := true; l_before := l_before s; l_rpcs := l_rpcs s |}.

Definition rpcError (stopped : bool) : option error :=
  if stopped then Some (EText "call already ended") else None.

Inductive dstep (s : lstate) : lstate -> Prop :=
| d_lock : l_owner s = None -> l_dial s = NotDialed ->
    dstep s (with_dial (Some Dialer) Dialing (l_stopped s) (l_stopped s) s)
(** the goroutine of [sipSignal], and the ringing timeout *)
| d_room : l_dial s = Dialing -> l_roomClosed s = true -> dstep s (cancel s)
| d_closed : l_dial s = Dialing -> l_stopped s = true -> dstep s (cancel s)
| d_timeout : l_dial s = Dialing -> dstep s (cancel s)
| d_answer : l_dial s = Dialing -> l_cancelled s = false ->
    dstep s (with_dial None (Dialed true) (l_stopped s) (l_before s) s)
| d_fail : l_dial s = Dialing -> dstep s (with_dial None (Dialed false) true (l_before s) s)
| r_call : dstep s (with_rpcs (l_owner s) (l_stopped s) (l_rpcs s ++ [Locking]) s)
| r_lock i : l_owner s = None -> l_rpcs s !! i = Some Locking ->
    dstep s (with_rpcs (Some (Closer i)) (l_stopped s) (<[i := Holding]> (l_rpcs s)) s)
| r_close i : l_owner s = Some (Closer i) ->
    dstep s (with_rpcs None true (<[i := Returned (rpcError (l_stopped s))]> (l_rpcs s)) s)
| w_room : dstep s (closeRoom s).

Inductive reach (s0 : lstate) : lstate -> Prop :=
| r_refl : reach s0 s0
| r_step s s' : reach s0 s -> dstep s s' -> reach s0 s'.

Definition ended (r : Rpc) : bool := match r with Returned None => true | _ => false end.

Definition linv (s : lstate) : Prop :=
  (l_dial s = Dialing <-> l_owner s = Some Dialer) /\
  (l_dial s = Dialing -> l_before s = l_stopped s) /\
  (forall i, l_owner s = Some (Closer i) -> l_rpcs s !! i = Some Holding) /\
  (countb ended (l_rpcs s) <= if l_stopped s then 1 else 0)%nat.

Lemma countb_insert_rpc l i x r : l !! i = Some x -> ended x = false ->
  countb ended (<[i := r]> l) = (countb ended l + (if ended r then 1 else 0))%nat.
Proof.
  intros Hi Hx. rewrite <- (list.take_drop_middle l i _ Hi) at 2.
  rewrite insert_take_drop by (by eapply lookup_lt_Some).
  rewrite !countb_app, !countb_cons, Hx. destruct (ended r); lia.
Qed.

Lemma dinv_step s s' : dstep s s' -> linv s -> linv s'.
Proof.
  intros Hs ([D1 D2] & B & O & C).
  destruct Hs as [Ho Hd|Hd _|Hd _|Hd|Hd _|Hd| |i Ho Hi|i Ho|]; unfold linv; cbn -[countb];
    try (rewrite (D1 Hd) in * ); try (rewrite Ho in * );
    try (split; [naive_solver|]; split; [naive_solver|]; split; [naive_solver|]); try done.
  - destruct (l_stopped s); [done | lia].
  - rewrite countb_app, countb_cons, countb_nil. split; [done|]. split; [done|]. split; [|cbn; lia].
    intros i Hi. rewrite lookup_app_l; [by apply O | by eapply lookup_lt_Some, O].
  - rewrite (countb_insert_rpc _ _ _ _ Hi) by done. cbn. split; [naive_solver|]. split; [naive_solver|].
    split; [|lia]. intros j [= <-]. apply list_lookup_insert_eq. by eapply lookup_lt_Some.
  - specialize (O i eq_refl). rewrite (countb_insert_rpc _ _ _ _ O) by done.
    unfold rpcError. destruct (l_stopped s); cbn; lia.
Qed.

Lemma linv_reach s : reach linit s -> linv s.
Proof. induction 1 as [|s s' _ IH Hs]; [|by eapply dinv_step]. unfold linv. cbn. naive_solver lia. Qed.

(** Nobody gets the lock while the call is dialled. *)
Definition quiet (s s' : lstate) : Prop :=
  l_stopped s' = l_stopped s /\
  (forall i r, l_rpcs s !! i = Some r -> l_rpcs s' !! i = Some r) /\
  (forall i r, l_rpcs s' !! i = Some r -> l_rpcs s !! i = None -> r = Locking).

Lemma quiet_step s s' : dstep s s' -> l_owner s = Some Dialer -> l_dial s' = Dialing -> quiet s s'.
Proof.
  intros Hs Ho Hd'. unfold quiet. destruct Hs; cbn in *; try congruence; try (split_and!; [done | done | congruence]).
  split; [done|]. split.
  - intros i r Hi. rewrite lookup_app_l; [done | by eapply lookup_lt_Some].
  - intros i r Hi Hn. apply lookup_ge_None in Hn. rewrite lookup_app_r in Hi by done.
    apply list_lookup_singleton_Some in Hi as [_ ?]. congruence.
Qed.

Lemma dquiet_trans s1 s2 s3 : quiet s1 s2 -> quiet s2 s3 -> quiet s1 s3.
Proof.
  intros (S1 & K1 & N1) (S2 & K2 & N2). split; [congruence|]. split; [auto|]. intros i r Hi Hn.
  destruct (l_rpcs s2 !! i) as [r2|] eqn:E2; [|by eapply N2]. rewrite (K2 _ _ E2) in Hi. simplify_eq. eauto.
Qed.

(** Dialling happens once. *)
Lemma dialed_stays s s' : dstep s s' -> l_dial s' = Dialing -> l_dial s = Dialing \/ l_dial s = NotDialed.
Proof. intros Hs Hd. destruct Hs; cbn in *; auto; congruence. Qed.

Lemma started_stays s s' : reach s s' -> l_dial s <> NotDialed -> l_dial s' <> NotDialed.
Proof. intros Hr Hd. induction Hr as [|s1 s2 _ IH Hs]; [done|]. destruct Hs; cbn in *; congruence. Qed.

Lemma dialing_quiet s s' : reach linit s -> l_dial s = Dialing -> reach s s' -> l_dial s' = Dialing -> quiet s s'.
Proof.
  intros H0 Hd Hr. assert (forall s1, reach s s1 -> reach linit s1) as Hall.
  { induction 1; [done|]. by eapply r_step. }
  induction Hr as [|s1 s2 Hr IH Hs]; intros Hd2; [by repeat split; intros; congruence|].
  destruct (dialed_stays _ _ Hs Hd2) as [Hd1|Hd1]; [|by destruct (started_stays _ _ Hr ltac:(congruence))].
  eapply dquiet_trans; [by apply IH|]. apply quiet_step; [done| |done].
  by apply (linv_reach s1 (Hall s1 Hr)).
Qed.
End diallock.

(** C10: [lk.sip.EndCall] of an outbound call that is ringing.  At most one call of the method is
    answered without an error, and only of a call that then is stopped.  While the call is
    dialled, that is from the INVITE until it is answered, refused or timed out, no call of the
    method returns, and the call does not become stopped: the branch of [sipSignal] that cancels
    the INVITE of a call that was closed can only see a close that came before the dial. *)
Theorem outbound_EndCall_waits s s' :
  diallock.reach diallock.linit s -> diallock.l_dial s = diallock.Dialing ->
  diallock.reach s s' -> diallock.l_dial s' = diallock.Dialing ->
  (countb diallock.ended (diallock.l_rpcs s) <= if diallock.l_stopped s then 1 else 0)%nat /\
  diallock.l_stopped s' = diallock.l_before s /\
  (forall i, diallock.l_rpcs s !! i = Some diallock.Locking -> diallock.l_rpcs s' !! i = Some diallock.Locking) /\
  (forall i r, diallock.l_rpcs s' !! i = Some r -> diallock.l_rpcs s !! i = None -> r = diallock.Locking).
Proof.
  intros H0 Hd Hr Hd'. destruct (diallock.linv_reach _ H0) as (_ & B & _ & C).
  destruct (diallock.dialing_quiet _ _ H0 Hd Hr Hd') as (S & K & N).
  split; [done|]. split; [by rewrite S, B|]. split; [intros i; apply K | done].
Qed.

(** The step of an RPC that has the lock is the one of the code. *)
Lemma EndCall_rpc_step `{ErrorText} `{DigestClient} e h c :
  mspec (EndCall_rpc e h) c (fun err c' _ => err = diallock.rpcError (oc_stopped c) /\ oc_stopped c' = true).
Proof.
  unfold EndCall_rpc. apply mspec_bind. eapply mspec_mono; [apply close_spec|]. cbv beta.
  intros r c' t [_ Hp]. apply mspec_ret. unfold diallock.rpcError.
  destruct (oc_stopped c) eqn:E; [destruct Hp as (-> & -> & _) | destruct Hp as (-> & ? & _)]; [|done].
  split; [done|]. by cbn.
Qed.

(** A call with one request for its end before the dial takes the lock, and one after. *)
Definition exDialing (l : list diallock.Rpc) : diallock.lstate :=
  {| diallock.l_owner := Some diallock.Dialer; diallock.l_dial := diallock.Dialing; diallock.l_stopped := false;
     diallock.l_cancelled := false; diallock.l_roomClosed := false; diallock.l_before := false; diallock.l_rpcs := l |}.

Lemma outbound_EndCall_waits_witness :
  diallock.reach diallock.linit (exDialing [diallock.Locking]) /\
  diallock.reach (exDialing [diallock.Locking]) (exDialing [diallock.Locking; diallock.Locking]) /\
  diallock.l_stopped (exDialing [diallock.Locking; diallock.Locking]) = false.
Proof.
  assert (diallock.reach diallock.linit (exDialing [diallock.Locking])) as H1.
  { eapply diallock.r_step; [eapply diallock.r_step; [apply diallock.r_refl | apply diallock.r_call]|].
    by apply diallock.d_lock. }
  assert (diallock.reach (exDialing [diallock.Locking]) (exDialing [diallock.Locking; diallock.Locking])) as H2.
  { eapply diallock.r_step; [apply diallock.r_refl | apply diallock.r_call]. }
  split; [done|]. split; [done|].
  by destruct (outbound_EndCall_waits _ _ H1 eq_refl H2 eq_refl) as (_ & -> & _).
Defined.

(** ** [createSIPParticipant] *)

(** The fields of the request that are not addresses. *)
Record CreateMeta := {
  mt_SipCallId : string;
  mt_SipTrunkId : string;
  mt_ParticipantIdentity : string;
  mt_ParticipantAttributes : attrmap;
  mt_WaitUntilAnswered : bool;
}.

Record CreateResponse := { rp_ParticipantId : string; rp_ParticipantIdentity : string; rp_SipCallId : string }.

(** The call's record, and its two URIs. *)
Record NewCallInfo := { ni_info : SIPCallInfo; ni_ToUri : SIPUri; ni_FromUri : SIPUri }.

Definition createSIPCallInfo (signalingIP : netip.Addr) (sipPort : Z) (from to : OutHeader) (roomName : string)
    (mt : CreateMeta) : NewCallInfo :=
  let toUri := ConvertURI (oh_Address to) in
  let fromUri := ConvertURI (oh_Address from) in
  let fromUri := {| User := User fromUri; Host := Host fromUri;
                    uri_Addr := netip.AddrPortFrom signalingIP (u16 sipPort);
                    uri_Transport := uri_Transport fromUri |} in
  {| ni_info :=
       {| CallId := mt_SipCallId mt; SipCallId := ""; CallDirection := SCD_OUTBOUND; TrunkId := mt_SipTrunkId mt;
          RoomId := ""; RoomName := roomName; DispatchRuleId := ""; info_CallStatus := SCS_CALL_INCOMING;
          info_DisconnectReason := UNKNOWN_REASON; info_Error := ""; CallStatusCode := None; StartedAtNs := 0;
          EndedAtNs := 0; ParticipantIdentity := mt_ParticipantIdentity mt;
          ParticipantAttributes := mt_ParticipantAttributes mt; AudioCodec := "" |};
     ni_ToUri := URI_ToSIPUri toUri; ni_FromUri := URI_ToSIPUri fromUri |}.

Section create.
Open Scope go_scope.
Context `{ErrorText} `{DigestClient}.
Variable aa : option Z -> list (string * string).

(** Without [WaitUntilAnswered]: [DialAsync] starts the dial and returns.  [early]: the dial, if
    it runs before the deferred update; it may also run after it, or in between its own steps. *)
Definition createAsync (n : NewCallEnv) (early : option DialEnv) : M outboundCall CEffect (option (option error)) :=
  let* r := newCall n in
  match r with
  | Some err => do* createDefer (Some err) in mreturn (Some (Some err))
  | None =>
      do* registerActive in
      do* match early with Some d => let* _r := Dial aa d in mreturn tt | None => mreturn tt end in
      do* createDefer None in
      mreturn (Some None)
  end.

(** The whole of it: the checks, the record, the call.  [p]: the participant's ID and identity
    in the room; [events], [cid], [now]: the handler of the record, the SIP Call-ID and the clock
    of the call. *)
Definition createSIPParticipant (transportName : SIPTransport -> string) (ParseUri : string -> option SipUri)
    (names : CodecNames) (health : HealthStatus) (contact : Transport -> string) (mediaTimeout : Z)
    (signalingIP : netip.Addr) (sipPort : Z) (events : bool) (cid : string) (now : Z)
    (req : CreateRequest) (mt : CreateMeta) (n : NewCallEnv) (p : string * string)
    (d : DialEnv) (early : option DialEnv)
    : option (error + CreateResponse) * option outboundCall * list CEffect :=
  match prepareCall transportName ParseUri names health contact mediaTimeout req with
  | inl err => (Some (inl err), None, [])
  | inr (_, (_, from, to)) =>
      let info := ni_info (createSIPCallInfo signalingIP sipPort from to (cr_RoomName req) mt) in
      let c := initCall (NewCallState events info) cid now (su_Host (oh_Address to)) in
      let '(r, c, t) := (if mt_WaitUntilAnswered mt then createAndWait aa n d else createAsync n early) c in
      (match r with
       | None => None
       | Some (Some err) => Some (inl err)
       | Some None => Some (inr {| rp_ParticipantId := p.1; rp_ParticipantIdentity := p.2;
                                   rp_SipCallId := mt_SipCallId mt |})
       end, Some c, t)
  end.

Lemma close_stopped e end_ c : mspec (close e end_) c (fun _ c' _ => oc_stopped c' = true).
Proof.
  eapply mspec_mono; [apply close_spec|]. cbv beta. intros r c' t [_ Hp].
  destruct (oc_stopped c) eqn:E; [by destruct Hp as (_ & -> & _) | by destruct Hp as (_ & ? & _)].
Qed.

(** Closing is the last step that matters of a call that failed. *)
Lemma closed_ret {A} e end_ (a : A) c (P : A -> Prop) :
  mspec (do* close e end_ in mreturn a) c (fun r c' _ => P r \/ oc_stopped c' = true).
Proof. apply mspec_bind. eapply mspec_mono; [apply close_stopped|]. cbv beta. intros. mstep. auto. Qed.

Lemma newCall_failed n c : mspec (newCall n) c (fun r c' _ => r = None \/ oc_stopped c' = true).
Proof.
  unfold newCall. do 4 (apply mspec_bind, mspec_any; intros ? ? ?).
  destruct (nc_mediaPort n); [apply (closed_ret _ _ _ _ (fun r => r = None))|].
  do 2 (apply mspec_bind, mspec_any; intros ? ? ?). case_match; [|by mstep; left].
  apply (closed_ret _ _ _ _ (fun r => r = None)).
Qed.

Lemma connectSIP_failed d c :
  mspec (connectSIP aa d) c (fun r c' _ => (r = None \/ r = Some None) \/ oc_stopped c' = true).
Proof.
  unfold connectSIP. apply mspec_bind, mspec_any. intros [[err|]|] ? ?; [| |by mstep; auto].
  - apply mspec_bind, mspec_any. intros. apply (closed_ret _ _ _ _ (fun r => r = None \/ r = Some None)).
  - do 3 (apply mspec_bind, mspec_any; intros ? ? ?). mstep. auto.
Qed.

Lemma Dial_failed d c :
  mspec (Dial aa d) c (fun r c' _ => (r = None \/ r = Some None) \/ oc_stopped c' = true).
Proof.
  unfold Dial. apply mspec_bind, mspec_any. intros [] c1 t1. apply mspec_bind.
  eapply mspec_mono; [apply connectSIP_failed|]. cbv beta. intros r c2 t2 Hr.
  destruct r as [[err|]|]; [|apply mspec_bind, mspec_any; intros; mstep; auto|mstep; auto].
  destruct Hr as [[|]|Hs]; [done..|]. apply mspec_bind. eapply mspec_mono; [apply ensureClosed_still|].
  cbv beta. intros _ c3 t3 (S3 & _). mstep. right. by rewrite S3.
Qed.

(** The deferred update changes the record to its outcome, and reports it. *)
Definition deferred (retErr : option error) (c : outboundCall) (t : list CEffect) : Prop :=
  let i := callInfo (oc_state c) in
  list.last t = Some (CState (HandleUpdate i)) /\
  match retErr with
  | None => info_CallStatus i = SCS_PARTICIPANT_JOINED
  | Some err => info_CallStatus i = SCS_ERROR /\ info_DisconnectReason i = UNKNOWN_REASON /\
                info_Error i = Error err
  end.

Lemma createDefer_spec retErr c :
  mspec (createDefer retErr) c (fun _ c' t => oc_stopped c' = oc_stopped c /\ deferred retErr c' t).
Proof. by destruct retErr. Qed.

(** What is left of a request to create a participant. *)
Definition created (wait : bool) (r : option (option error)) (c : outboundCall) (t : list CEffect) : Prop :=
  match r with
  | None => wait = true
  | Some retErr => deferred retErr c t /\ (retErr <> None -> oc_stopped c = true)
  end.

Lemma created_app wait r c t0 t : created wait r c t -> created wait r c (t0 ++ t).
Proof.
  destruct r as [retErr|]; cbn; [|done]. unfold deferred. rewrite list.last_app.
  intros [[-> Hm] Hs]. done.
Qed.

Lemma createDefer_created wait retErr c : (retErr = None \/ oc_stopped c = true) ->
  mspec (do* createDefer retErr in mreturn (Some retErr)) c (fun r c' t => created wait r c' t).
Proof.
  intros Hs. apply mspec_bind. eapply mspec_mono; [apply createDefer_spec|]. cbv beta. intros _ c' t [S3 St].
  mstep. rewrite app_nil_r. split; [done|]. rewrite S3. by destruct Hs.
Qed.

(** Only the end of a program counts for [created]. *)
Lemma created_last wait (m : M outboundCall CEffect (option (option error))) t0 c :
  mspec m c (fun r c' t => created wait r c' t) ->
  mspec m c (fun r c' t => created wait r c' (t0 ++ t)).
Proof. intros Hm. eapply mspec_mono; [exact Hm|]. cbv beta. intros. by apply created_app. Qed.

Lemma createAndWait_created n d c : mspec (createAndWait aa n d) c (fun r c' t => created true r c' t).
Proof.
  unfold createAndWait. apply mspec_bind. eapply mspec_mono; [apply newCall_failed|]. cbv beta.
  intros [err|] c1 t1 Hs; apply created_last; [apply createDefer_created; by destruct Hs; auto|].
  apply mspec_bind, mspec_any. intros _ c2 t2. apply created_last, mspec_bind.
  eapply mspec_mono; [apply Dial_failed|]. cbv beta.
  intros [r|] c3 t3 Hr; [|by mstep]. apply created_last, createDefer_created.
  destruct Hr as [[|]|]; [done|simplify_eq; auto|auto].
Qed.

Lemma createAsync_created n early c : mspec (createAsync n early) c (fun r c' t => created false r c' t).
Proof.
  unfold createAsync. apply mspec_bind. eapply mspec_mono; [apply newCall_failed|]. cbv beta.
  intros [err|] c1 t1 Hs; apply created_last; [apply createDefer_created; by destruct Hs; auto|].
  do 2 (apply mspec_bind, mspec_any; intros ? ? ?; apply created_last). apply createDefer_created; auto.
Qed.
End create.

(** C11: The outcome of a request to create a participant.  A request that the checks refuse leaves
    no call and reports nothing.  Otherwise there is a call, and what the request is answered with
    is in its record, which is also the last thing reported: a request that is answered with an
    error has closed the call, and the record has the status ERROR with the text of that very
    error; one that is answered otherwise has the call's ID in the answer and is recorded as joined,
    whatever the dial has recorded.  One without an answer waits for the callee, as it asked to. *)
Theorem createSIPParticipant_outcome `{ErrorText} `{DigestClient} aa tn pu names health contact mt0 ip port events
    cid now req mt n p d early :
  let '(r, oc, t) := createSIPParticipant aa tn pu names health contact mt0 ip port events cid now req mt n p d early in
  match prepareCall tn pu names health contact mt0 req with
  | inl err => r = Some (inl err) /\ oc = None /\ t = []
  | inr _ => exists c, oc = Some c /\
      let i := callInfo (oc_state c) in
      match r with
      | None => mt_WaitUntilAnswered mt = true
      | Some (inl err) => oc_stopped c = true /\ info_CallStatus i = SCS_ERROR /\
                          info_DisconnectReason i = UNKNOWN_REASON /\ info_Error i = Error err /\
                          list.last t = Some (CState (HandleUpdate i))
      | Some (inr resp) => rp_SipCallId resp = mt_SipCallId mt /\ info_CallStatus i = SCS_PARTICIPANT_JOINED /\
                           list.last t = Some (CState (HandleUpdate i))
      end
  end.
Proof.
  unfold createSIPParticipant. destruct (prepareCall _ _ _ _ _ _ _) as [err|[mc [[uri from] to]]]; [done|].
  set (c0 := initCall _ _ _ _). cbv zeta.
  assert (mspec (if mt_WaitUntilAnswered mt then createAndWait aa n d else createAsync aa n early) c0
            (fun r c' t => created (mt_WaitUntilAnswered mt) r c' t)) as Hm.
  { destruct (mt_WaitUntilAnswered mt); [apply createAndWait_created | apply createAsync_created]. }
  unfold mspec in Hm.
  destruct ((if mt_WaitUntilAnswered mt then createAndWait aa n d else createAsync aa n early) c0) as [[r c] t].
  exists c. split; [done|]. destruct r as [[err|]|]; [| |done]; destruct Hm as [[Hl Hi] Hs].
  - destruct Hi as (? & ? & ?). split; [by apply Hs|done].
  - done.
Qed.

(** The record of a call that is not waited for, whose dial failed before the deferred update:
    it ended with an error, and is then reported as joined. *)
Lemma createAsync_example :
  statuses (trace_of (createAsync (H := exErrorText) (H0 := exDigest) (fun _ => []) exNew
                        (Some (exDial [486] None)) exCall)) =
  [SCS_DISCONNECTED; SCS_DISCONNECTED; SCS_PARTICIPANT_JOINED].
Proof. vm_compute. reflexivity. Qed.

(** ** The RPC *)
Definition rpcEndCall {S E} (EndCall : list (string * string) -> M S E (option error))
    (headers : list (string * string)) : M S E (error + unit) :=
  (let* err := EndCall headers in
   mreturn (match err with Some err => inl err | None => inr tt end))%go.

(** Of an outbound call, the RPC is answered without an error exactly if it is what ended the
    call, and the call is over after it in any case. *)
Theorem rpcEndCall_outbound `{ErrorText} `{DigestClient} e h c :
  let '(r, c', _) := rpcEndCall (EndCall_rpc e) h c in
  (r = inr tt <-> oc_stopped c = false) /\ oc_stopped c' = true.
Proof.
  enough (mspec (rpcEndCall (EndCall_rpc e) h) c (fun r c' _ =>
            (r = inr tt <-> oc_stopped c = false) /\ oc_stopped c' = true)) as Hm
    by (unfold mspec in Hm; by destruct (rpcEndCall _ _ _) as [[r c'] t]).
  unfold rpcEndCall. apply mspec_bind. eapply mspec_mono; [apply EndCall_rpc_step|]. cbv beta.
  intros err c' t [-> Hs]. mstep. split; [|done]. by destruct (oc_stopped c).
Qed.
