(* ===== verification/MediaStats.v ===== *)
(** * Media measurements and the silence filler

    [pkg/sip/silence_filler.go] (silence for the gaps of a stream with silence
    suppression), [pkg/sip/media.go] (the counters of a stream, the totals of the
    jitter buffers, the names of payload types), [pkg/sip/media_latency.go] (the
    lock-free latency accumulator) and [pkg/sip/signal_logger.go] (voice and silence
    with hysteresis).  RTP sequence numbers are 16 bits wide, timestamps 32, the
    counters 64; all wrap around. *)

From stdpp Require Import base tactics list gmap strings option.
From Stdlib Require Import ZArith Lia.
From S2P Require Import Prelude GoStd GoErr.
Import strings strconv.

(** ** The media SDK

    Frames per second and the size of the largest packet are constants of the SDK. *)
Class MediaSDK := {
  DefFramesPerSec : Z;
  MTUSize : Z;
  DefFramesPerSec_pos : 0 < DefFramesPerSec;
  MTUSize_pos : 0 < MTUSize;
}.

Record Header := {
  hdr_PayloadType : Z;       (* uint8 *)
  SequenceNumber : Z;        (* uint16 *)
  Timestamp : Z;             (* uint32 *)
}.

Definition headerOK (h : Header) : Prop :=
  0 <= hdr_PayloadType h < 2 ^ 8 /\ 0 <= SequenceNumber h < 2 ^ 16 /\ 0 <= Timestamp h < 2 ^ 32.

(** ** The silence filler *)
Module silence.

Record silenceFiller := {
  maxGapSize : Z;
  rtpSamplesPerFrame : Z;
  pcmSamplesPerFrame : Z;
  lastTS : Z;
  lastSeq : Z;
  packets : Z;
  gapCount : Z;
  gapSizeSum : Z;
}.

(** [option (Z)]: the option [WithMaxGapSize], if given. *)
Definition newSilenceFiller `{MediaSDK} (rtpClockRate pcmSampleRate : Z) (withMaxGap : option Z) : silenceFiller :=
  {| maxGapSize := match withMaxGap with Some n => if 0 <? n then n else 25 | None => 25 end;
     rtpSamplesPerFrame := Z.quot rtpClockRate DefFramesPerSec;
     pcmSamplesPerFrame := Z.quot pcmSampleRate DefFramesPerSec;
     lastTS := 0; lastSeq := 0; packets := 0; gapCount := 0; gapSizeSum := 0 |}.

Definition seen (h : Header) (s : silenceFiller) : silenceFiller :=
  {| maxGapSize := maxGapSize s; rtpSamplesPerFrame := rtpSamplesPerFrame s;
     pcmSamplesPerFrame := pcmSamplesPerFrame s; lastTS := Timestamp h; lastSeq := SequenceNumber h;
     packets := u64 (packets s + 1); gapCount := gapCount s; gapSizeSum := gapSizeSum s |}.

Definition counted (n : Z) (s : silenceFiller) : silenceFiller :=
  {| maxGapSize := maxGapSize s; rtpSamplesPerFrame := rtpSamplesPerFrame s;
     pcmSamplesPerFrame := pcmSamplesPerFrame s; lastTS := lastTS s; lastSeq := lastSeq s;
     packets := packets s; gapCount := u64 (gapCount s + 1); gapSizeSum := u64 (gapSizeSum s + n) |}.

(** [None]: the division by [rtpSamplesPerFrame] panics. *)
Definition isSilenceSuppression (h : Header) (s : silenceFiller) : option (bool * Z) * silenceFiller :=
  let s' := seen h s in
  if packets s' =? 1 then (Some (false, 0), s')
  else
    let expectedSeq := u16 (lastSeq s + 1) in
    let expectedTS := u32 (lastTS s + u32 (rtpSamplesPerFrame s)) in
    let seqDiff := u16 (SequenceNumber h - expectedSeq) in
    let tsDiff := u32 (Timestamp h - expectedTS) in
    if negb (seqDiff =? 0) then (Some (false, 0), s')
    else if rtpSamplesPerFrame s =? 0 then (None, s')
    else
      let missedFrames := Z.quot tsDiff (rtpSamplesPerFrame s) in
      if missedFrames =? 0 then (Some (false, 0), s') else (Some (true, missedFrames), s').

(** What reaches the sinks: frames of silence of the given size, and the packet. *)
Inductive SEffect := Silence (samples : Z) | Packet (h : Header).

(** [write k]: the outcome of the k-th write of silence of this packet. *)
Fixpoint fillLoop (write : nat -> option error) (samples : Z) (k n : nat) : option error * list SEffect :=
  match n with
  | O => (None, [])
  | S n' =>
      match write k with
      | Some err => (Some err, [Silence samples])
      | None => let '(r, t) := fillLoop write samples (S k) n' in (r, Silence samples :: t)
      end
  end.

Definition fillWithSilence (write : nat -> option error) (s : silenceFiller) (framesToFill : Z)
    : option error * list SEffect :=
  fillLoop write (pcmSamplesPerFrame s) 0 (Z.to_nat framesToFill).

Inductive HResult := HErr (e : option error) | HPanic.

(** [out]: what the decoder's [HandleRTP] returns. *)
Definition silenceFiller_HandleRTP (write : nat -> option error) (out : option error) (h : Header) (s : silenceFiller)
    : HResult * silenceFiller * list SEffect :=
  match isSilenceSuppression h s with
  | (None, s') => (HPanic, s', [])
  | (Some (isSilence, missing), s') =>
      if isSilence && (missing <=? maxGapSize s' * 100) then
        let s' := counted missing s' in
        if missing <=? maxGapSize s' then
          match fillWithSilence write s' missing with
          | (Some err, t) => (HErr (Some err), s', t)
          | (None, t) => (HErr out, s', t ++ [Packet h])
          end
        else (HErr out, s', [Packet h])
      else (HErr out, s', [Packet h])
  end.

(** A stream of packets, all writes succeeding. *)
Fixpoint handleAll (l : list Header) (s : silenceFiller) : silenceFiller * list SEffect :=
  match l with
  | [] => (s, [])
  | h :: l' =>
      let '(_, s1, t1) := silenceFiller_HandleRTP (fun _ => None) None h s in
      let '(s2, t2) := handleAll l' s1 in (s2, t1 ++ t2)
  end.
End silence.

(** ** Totals of the jitter buffers *)
Module jitter.

(** The counters of a buffer, by the name of their field: [jitter.BufferStats] and
    [jitterStatsTargets]. *)
Inductive Counter := Lost | Dropped | SSRCSwitches | Reordered | SequenceRestarts | Stray | Duplicate.

#[global] Instance Counter_eq_dec : EqDecision Counter.
Proof. solve_decision. Defined.

Definition Counters := Counter -> Z.
Definition zeroCounters : Counters := fun _ => 0.
Definition setc (f : Counter) (v : Z) (c : Counters) : Counters := fun g => if decide (g = f) then v else c g.

(** The call's totals, and what each buffer reported last. *)
Record totals := { targets : Counters; prevs : gmap nat Counters }.

Definition prevOf (b : nat) (t : totals) : Counters := default zeroCounters (prevs t !! b).

Definition add (b : nat) (f : Counter) (cur : Z) (t : totals) : totals :=
  let prev := prevOf b t f in
  if cur <=? prev then t
  else {| targets := setc f (u64 (targets t f + u64 (cur - prev))) (targets t);
          prevs := <[b := setc f cur (prevOf b t)]> (prevs t) |}.

Definition onPacketLoss (b : nat) (packetsLost packetsDropped : Z) (t : totals) : totals :=
  add b Dropped packetsDropped (add b Lost packetsLost t).

Definition onStats (b : nat) (st : Counters) (t : totals) : totals :=
  add b Duplicate (st Duplicate) (add b Stray (st Stray) (add b SequenceRestarts (st SequenceRestarts)
    (add b Reordered (st Reordered) (add b SSRCSwitches (st SSRCSwitches) t)))).

(** The callbacks of the buffers, in the order in which they happen. *)
Inductive Report := RLoss (b : nat) (lost dropped : Z) | RStats (b : nat) (st : Counters).

Definition onReport (r : Report) : totals -> totals :=
  match r with RLoss b l d => onPacketLoss b l d | RStats b st => onStats b st end.

Definition runReports (l : list Report) (t : totals) : totals := fold_left (fun t r => onReport r t) l t.

(** What a report says of a counter. *)
Definition says (r : Report) (f : Counter) : option (nat * Z) :=
  match r, f with
  | RLoss b l _, Lost => Some (b, l)
  | RLoss b _ d, Dropped => Some (b, d)
  | RLoss _ _ _, _ => None
  | RStats _ _, (Lost | Dropped) => None
  | RStats b st, f => Some (b, st f)
  end.

(** The reference: the highest value buffer [b] ever reported for [f], at least 0. *)
Definition highest (b : nat) (f : Counter) (l : list Report) : Z :=
  fold_left (fun m r => match says r f with Some (b', v) => if decide (b' = b) then Z.max m v else m | None => m end)
    l 0.

Definition sumZ (l : list Z) : Z := foldr Z.add 0 l.
End jitter.

(** ** Statistics of a stream *)
Module stream.
Section stream.
Context `{MediaSDK}.

Definition maxPositiveSeqDiff : Z := i16 (30 * DefFramesPerSec).
Definition maxNegativeSeqDiff : Z := i16 (-5 * DefFramesPerSec).
(** Half and one and a half times the duration of a frame in milliseconds; the
    conversion from float64 drops the fraction. *)
Definition rapidPacketThreshold : Z := Z.quot (Z.quot 1000 DefFramesPerSec) 2.
Definition delayedPacketThreshold : Z := Z.quot (3 * Z.quot 1000 DefFramesPerSec) 2.

Definition Diff16 (cur prev : Z) : Z := i16 (u16 (cur - prev)).

Record rtpCountingStats := {
  packets : Z; bytes : Z; resets : Z; gaps : Z; gapsSum : Z; late : Z; lateSum : Z;
  delayedPackets : Z; delayedSum : Z; rapidPackets : Z;
}.

Definition zeroStats : rtpCountingStats :=
  {| packets := 0; bytes := 0; resets := 0; gaps := 0; gapsSum := 0; late := 0; lateSum := 0;
     delayedPackets := 0; delayedSum := 0; rapidPackets := 0 |}.

Record rtpStreamStats := { st_packets : Z; st_lastSeq : Z; st_lastPacket : Z; st_stats : rtpCountingStats }.

Definition newRTPStreamStats (s : rtpCountingStats) : rtpStreamStats :=
  {| st_packets := 0; st_lastSeq := 0; st_lastPacket := 0; st_stats := s |}.

Definition countPacket (size : Z) (s : rtpCountingStats) : rtpCountingStats :=
  {| packets := u64 (packets s + 1); bytes := u64 (bytes s + u64 size); resets := resets s; gaps := gaps s;
     gapsSum := gapsSum s; late := late s; lateSum := lateSum s; delayedPackets := delayedPackets s;
     delayedSum := delayedSum s; rapidPackets := rapidPackets s |}.

(** The order of the packets. *)
Definition countSeq (diff : Z) (s : rtpCountingStats) : rtpCountingStats :=
  let upd r g gs l ls :=
  {| packets := packets s; bytes := bytes s; resets := u64 (resets s + r); gaps := u64 (gaps s + g);
       gapsSum := u64 (gapsSum s + gs); late := u64 (late s + l); lateSum := u64 (lateSum s + ls);
       delayedPackets := delayedPackets s; delayedSum := delayedSum s; rapidPackets := rapidPackets s |} in
  if (maxPositiveSeqDiff <? diff) || (diff <? maxNegativeSeqDiff) then upd 1 0 0 0 0
  else if diff <? 0 then upd 0 0 0 1 (u64 (i16 (- diff)))
  else if 1 <? diff then upd 0 1 (u64 diff) 0 0
  else s.

(** Their timing. *)
Definition countTime (sinceLastPacket : Z) (s : rtpCountingStats) : rtpCountingStats :=
  let upd d ds r :=
  {| packets := packets s; bytes := bytes s; resets := resets s; gaps := gaps s; gapsSum := gapsSum s;
       late := late s; lateSum := lateSum s; delayedPackets := u64 (delayedPackets s + d);
       delayedSum := u64 (delayedSum s + ds); rapidPackets := u64 (rapidPackets s + r) |} in
  if sinceLastPacket <? rapidPacketThreshold then upd 0 0 1
  else if delayedPacketThreshold <? sinceLastPacket then upd 1 (u64 sinceLastPacket) 0
  else s.

(** [now]: the time of the packet in milliseconds.  The packet is then handed on. *)
Definition rtpStreamStats_HandleRTP (now size : Z) (h : Header) (s : rtpStreamStats) : rtpStreamStats :=
  let count := u64 (st_packets s + 1) in
  let stats := countPacket size (st_stats s) in
  let stats :=
  if 1 <? count then
      countTime (i64 (now - st_lastPacket s)) (countSeq (Diff16 (SequenceNumber h) (st_lastSeq s)) stats)
  else stats in
  {| st_packets := count; st_lastSeq := SequenceNumber h; st_lastPacket := now; st_stats := stats |}.
End stream.
End stream.

(** ** Names of payload types *)
Definition staticPayloadTypes : list (Z * string) :=
  [(0, "Auto_PCMU/8000"); (3, "Auto_GSM/8000"); (4, "Auto_G723/8000"); (5, "Auto_DVI4/8000");
   (6, "Auto_DVI4/16000"); (7, "Auto_LPC/8000"); (8, "Auto_PCMA/8000"); (9, "Auto_G722/8000");
   (10, "Auto_L16/44100/2"); (11, "Auto_L16/44100"); (12, "Auto_QCELP/8000"); (13, "Auto_CN/8000");
   (14, "Auto_MPA/90000"); (15, "Auto_G728/16000"); (16, "Auto_DVI4/11025"); (17, "Auto_DVI4/22050");
   (18, "Auto_G729/8000"); (25, "Auto_CELLB/90000"); (26, "Auto_JPEG/90000"); (28, "Auto_NV/90000");
   (31, "Auto_H261/90000"); (32, "Auto_MPV/90000"); (33, "Auto_MP2T/90000"); (34, "Auto_H263/90000")].

Fixpoint zassoc {V} (k : Z) (l : list (Z * V)) : option V :=
  match l with
  | [] => None
  | (k', v) :: l' => if k =? k' then Some v else zassoc k l'
  end.

Definition orStatic (typ : string) (payloadType : Z) : string :=
  let typ := if String.eqb typ "" && (payloadType <? 96) then default "" (zassoc payloadType staticPayloadTypes)
             else typ in
  if String.eqb typ "" then Itoa payloadType else typ.

(** The label of [rtpStatsHandler.HandleRTP] and of [rtpStatsWriter.WriteRTP]. *)
Definition recvType (typ : string) (h : Header) : string := orStatic typ (hdr_PayloadType h).

Definition sendType (audioPayloadType dtmfPayloadType : Z) (audioType dtmfType : string) (h : Header) : string :=
  orStatic (if hdr_PayloadType h =? audioPayloadType then audioType
            else if hdr_PayloadType h =? dtmfPayloadType then dtmfType else "") (hdr_PayloadType h).

(** ** Latency *)
Module latency.
Record LatencyStats := { Count : Z; SumNs : Z; MaxNs : Z }.

(** [Record], by its atomic steps: a measurement adds to the count and the sum, then
    tries to raise the maximum until it is no longer below the value. *)
Inductive thread :=
| TStart (ns : Z)
| TCounted (ns : Z)
| TSummed (ns : Z)
| TLoaded (ns old : Z)
| TDone (ns : Z).

Record lstate := { lstats : LatencyStats; threads : gmap nat thread }.

Definition set_thread (i : nat) (th : thread) (st : LatencyStats) (s : lstate) : lstate :=
  {| lstats := st; threads := <[i := th]> (threads s) |}.

Inductive lstep : lstate -> lstate -> Prop :=
| L_start s i d :                                    (* ns := uint64(d.Nanoseconds()) *)
    threads s !! i = None -> lstep s (set_thread i (TStart (u64 d)) (lstats s) s)
| L_count s i ns :
    threads s !! i = Some (TStart ns) ->
    lstep s (set_thread i (TCounted ns)
               {| Count := u64 (Count (lstats s) + 1); SumNs := SumNs (lstats s); MaxNs := MaxNs (lstats s) |} s)
| L_sum s i ns :
    threads s !! i = Some (TCounted ns) ->
    lstep s (set_thread i (TSummed ns)
               {| Count := Count (lstats s); SumNs := u64 (SumNs (lstats s) + ns); MaxNs := MaxNs (lstats s) |} s)
| L_load s i ns :
    threads s !! i = Some (TSummed ns) ->
    lstep s (set_thread i (TLoaded ns (MaxNs (lstats s))) (lstats s) s)
| L_break s i ns old :
    threads s !! i = Some (TLoaded ns old) -> ns <= old -> lstep s (set_thread i (TDone ns) (lstats s) s)
| L_swap s i ns old :                                (* the compare-and-swap succeeds *)
    threads s !! i = Some (TLoaded ns old) -> old < ns -> MaxNs (lstats s) = old ->
    lstep s (set_thread i (TDone ns) {| Count := Count (lstats s); SumNs := SumNs (lstats s); MaxNs := ns |} s)
| L_retry s i ns old :                               (* another measurement was faster *)
    threads s !! i = Some (TLoaded ns old) -> old < ns -> MaxNs (lstats s) <> old ->
    lstep s (set_thread i (TSummed ns) (lstats s) s).

Definition linit : lstate := {| lstats := {| Count := 0; SumNs := 0; MaxNs := 0 |}; threads := ∅ |}.

Inductive lreach : lstate -> Prop :=
| lreach_init : lreach linit
| lreach_step s s' : lreach s -> lstep s s' -> lreach s'.

Record LatencyStatsSnapshot := { sn_Count : Z; AvgNs : Z; sn_MaxNs : Z }.

Definition LatencyStats_Load (s : LatencyStats) : LatencyStatsSnapshot :=
  {| sn_Count := Count s; AvgNs := if 0 <? Count s then SumNs s / Count s else 0; sn_MaxNs := MaxNs s |}.
End latency.

(** ** Voice and silence *)
Module signal.
(** A frame is described by how its level compares with the two thresholds; the level
    is a logarithm in floating point. *)
Record Frame := { aboveEnter : bool; belowExit : bool; at_ : Z }.

Record SignalLogger := {
  hangoverDuration : Z;
  lastSignalTime : option Z;
  lastIsSignal : bool;
  framesProcessed : Z;
  stateChanges : Z;
}.

Definition DefaultHangoverDuration : Z := 1000000000.

(** The option that sets the hangover, if given. *)
Definition NewSignalLogger (hangover : option Z) : option SignalLogger :=
  match hangover with
  | Some d => if d <=? 0 then None else
                Some {| hangoverDuration := d; lastSignalTime := None; lastIsSignal := false;
                        framesProcessed := 0; stateChanges := 0 |}
  | None => Some {| hangoverDuration := DefaultHangoverDuration; lastSignalTime := None;
                    lastIsSignal := false; framesProcessed := 0; stateChanges := 0 |}
  end.

Definition upd (t : option Z) (sig : bool) (n c : Z) (s : SignalLogger) : SignalLogger :=
  {| hangoverDuration := hangoverDuration s; lastSignalTime := t; lastIsSignal := sig; framesProcessed := n;
     stateChanges := c |}.

(** [now.Sub(t)]; the zero time is so long ago that the difference saturates. *)
Definition sinceSignal (now : Z) (t : option Z) : Z :=
  match t with Some t => satDuration (now - t) | None => maxInt64 end.

(** The state and what is logged; the sample is then handed on. *)
Definition SignalLogger_WriteSample (f : Frame) (s : SignalLogger) : SignalLogger * list bool :=
  let t := if aboveEnter f then Some (at_ f) else lastSignalTime s in
  let n := u64 (framesProcessed s + 1) in
  if n <=? 10 then (upd t (aboveEnter f) n (stateChanges s) s, [])
  else if aboveEnter f && negb (lastIsSignal s) then (upd t true n (u64 (stateChanges s + 1)) s, [true])
  else if belowExit f && lastIsSignal s && (hangoverDuration s <=? sinceSignal (at_ f) t) then
    (upd t false n (u64 (stateChanges s + 1)) s, [false])
  else (upd t (lastIsSignal s) n (stateChanges s) s, []).

Fixpoint writeAll (l : list Frame) (s : SignalLogger) : SignalLogger * list bool :=
  match l with
  | [] => (s, [])
  | f :: l' => let '(s1, t1) := SignalLogger_WriteSample f s in let '(s2, t2) := writeAll l' s1 in (s2, t1 ++ t2)
  end.
End signal.

(** ** Theorems *)

(** *** Wrap-around *)
Lemma wrapU_add_l w a b : wrapU w (wrapU w a + b) = wrapU w (a + b).
Proof. unfold wrapU. apply Zplus_mod_idemp_l. Qed.

Lemma wrapU_add_r w a b : wrapU w (a + wrapU w b) = wrapU w (a + b).
Proof. unfold wrapU. apply Zplus_mod_idemp_r. Qed.

Lemma wrapU_sub_l w a b : wrapU w (wrapU w a - b) = wrapU w (a - b).
Proof. unfold wrapU. apply Zminus_mod_idemp_l. Qed.

Lemma wrapU_sub_r w a b : wrapU w (a - wrapU w b) = wrapU w (a - b).
Proof. unfold wrapU. apply Zminus_mod_idemp_r. Qed.

(** *** Silence *)
Module silence_facts.
Import silence.

(** A stream without loss: the packets have consecutive sequence numbers, from [q], and
    carry the frames with the given indices, of [spf] samples each. *)
Fixpoint streamOf (pt q t0 spf : Z) (ns : list Z) : list Header :=
  match ns with
  | [] => []
  | n :: ns' => {| hdr_PayloadType := pt; SequenceNumber := u16 q; Timestamp := u32 (t0 + n * spf) |}
                :: streamOf pt (q + 1) t0 spf ns'
  end.

(** Every frame comes after the one before, with at most [gap] frames between them. *)
Fixpoint increasing (gap prev : Z) (ns : list Z) : Prop :=
  match ns with
  | [] => True
  | n :: ns' => prev < n <= prev + gap + 1 /\ increasing gap n ns'
  end.

Lemma fillLoop_ok samples k n :
  fillLoop (fun _ => None) samples k n = (None, repeat (Silence samples) n).
Proof. revert k. induction n as [|n IH]; intros k; [done|]. cbn. by rewrite IH. Qed.

Lemma isSilenceSuppression_next s pt q T k :
  let spf := rtpSamplesPerFrame s in
  let h := {| hdr_PayloadType := pt; SequenceNumber := u16 (q + 1); Timestamp := u32 (T + k * spf) |} in
  0 < spf -> 1 <= packets s < 2 ^ 64 - 1 -> lastSeq s = u16 q -> lastTS s = u32 T ->
  1 <= k -> k * spf < 2 ^ 32 ->
  isSilenceSuppression h s = (Some (if k =? 1 then (false, 0) else (true, k - 1)), seen h s).
Proof.
  intros spf h Hs Hp Hq HT Hk Hb. unfold isSilenceSuppression. cbn [packets seen].
  rewrite (wrapU_id 64) by lia. rewrite (proj2 (Z.eqb_neq _ _)) by lia. cbn [h SequenceNumber Timestamp].
  fold spf. rewrite Hq, HT, !wrapU_add_l, wrapU_add_r, !wrapU_sub_l, !wrapU_sub_r.
  rewrite (wrapU_id 16) by lia. replace (q + 1 - (q + 1)) with 0 by lia. cbn [Z.eqb negb].
  rewrite (proj2 (Z.eqb_neq spf 0)) by lia.
  replace (T + k * spf - (T + spf)) with ((k - 1) * spf) by lia.
  rewrite (wrapU_id 32) by nia. rewrite Z.quot_mul by lia.
  destruct (Z.eqb_spec k 1) as [->|Hk1]; [done|]. by rewrite (proj2 (Z.eqb_neq _ _)) by lia.
Qed.

(** The state the next packet finds. *)
Definition after (q T n : Z) (s s' : silenceFiller) : Prop :=
  lastSeq s' = u16 q /\ lastTS s' = u32 T /\ packets s' = n /\ maxGapSize s' = maxGapSize s /\
  rtpSamplesPerFrame s' = rtpSamplesPerFrame s /\ pcmSamplesPerFrame s' = pcmSamplesPerFrame s.

Lemma HandleRTP_next s pt q T k :
  let spf := rtpSamplesPerFrame s in
  let h := {| hdr_PayloadType := pt; SequenceNumber := u16 (q + 1); Timestamp := u32 (T + k * spf) |} in
  0 < spf -> (maxGapSize s + 1) * spf < 2 ^ 32 -> 1 <= packets s < 2 ^ 64 - 1 ->
  lastSeq s = u16 q -> lastTS s = u32 T -> 1 <= k <= maxGapSize s + 1 ->
  exists s', silenceFiller_HandleRTP (fun _ => None) None h s =
    (HErr None, s', repeat (Silence (pcmSamplesPerFrame s)) (Z.to_nat (k - 1)) ++ [Packet h]) /\
    after (q + 1) (T + k * spf) (packets s + 1) s s'.
Proof.
  intros spf h Hs Hg Hp Hq HT Hk.
  assert (k * spf <= (maxGapSize s + 1) * spf) by (apply Z.mul_le_mono_nonneg_r; lia).
  unfold silenceFiller_HandleRTP, h, spf in *.
  rewrite (isSilenceSuppression_next s pt q T k) by (done || lia).
  destruct (Z.eqb_spec k 1) as [->|Hk1]; cbn [andb].
  - eexists. split; [done|]. unfold after. cbn. rewrite (wrapU_id 64) by lia. done.
  - rewrite (proj2 (Z.leb_le _ _)) by (cbn; lia). cbn [maxGapSize counted seen].
    rewrite (proj2 (Z.leb_le _ _)) by lia. unfold fillWithSilence. cbn [pcmSamplesPerFrame counted seen].
    rewrite fillLoop_ok. eexists. split; [done|]. unfold after. cbn. rewrite (wrapU_id 64) by lia. done.
Qed.

Lemma HandleRTP_first s h :
  packets s = 0 -> silenceFiller_HandleRTP (fun _ => None) None h s = (HErr None, seen h s, [Packet h]).
Proof.
  intros Hp. unfold silenceFiller_HandleRTP, isSilenceSuppression.
  assert (packets (seen h s) = 1) as -> by (cbn; by rewrite Hp). done.
Qed.

(** The packet of frame [m], the [i]-th of the stream. *)
Definition packetOf (pt q t0 spf : Z) (i : nat) (m : Z) : Header :=
  {| hdr_PayloadType := pt; SequenceNumber := u16 (q + Z.of_nat i); Timestamp := u32 (t0 + m * spf) |}.

(** [t] has one entry per frame after [n] up to the last one: the packet for the frames of the
    stream, silence for the others. *)
Record onTime (samples pt q t0 spf n : Z) (ns : list Z) (t : list SEffect) : Prop := {
  ot_length : Z.of_nat (length t) = List.last ns n - n;
  ot_packet i m : ns !! i = Some m -> t !! Z.to_nat (m - n - 1) = Some (Packet (packetOf pt q t0 spf i m));
  ot_silence k : n < k <= List.last ns n -> k ∉ ns -> t !! Z.to_nat (k - n - 1) = Some (Silence samples);
}.

Lemma last_index_cons (n' n : Z) ns : List.last (n' :: ns) n = List.last ns n'.
Proof.
  destruct ns as [|x ns']; [done|]. change (List.last (n' :: x :: ns') n) with (List.last (x :: ns') n). revert x.
  induction ns' as [|y l IH]; intros x; [done|]. cbn [List.last] in *. apply IH.
Qed.

Lemma increasing_above gap n ns i m : increasing gap n ns -> ns !! i = Some m -> n < m.
Proof.
  revert n i. induction ns as [|n' ns IH]; intros n i; [done|]. intros [Hn Hi]. destruct i as [|i]; cbn.
  - intros [= <-]. lia.
  - intros Hm. specialize (IH _ _ Hi Hm). lia.
Qed.

Lemma repeat_at {A} (x : A) n k : (k < n)%nat -> repeat x n !! k = Some x.
Proof. revert k. induction n as [|n IH]; intros [|k] Hk; [lia|lia|done|]. apply (IH k). lia. Qed.

(** One more packet, with the frames before it filled. *)
Lemma onTime_cons samples pt q t0 spf gap n n' ns t :
  n < n' -> increasing gap n' ns -> onTime samples pt (q + 1) t0 spf n' ns t ->
  onTime samples pt q t0 spf n (n' :: ns)
    ((repeat (Silence samples) (Z.to_nat (n' - n - 1)) ++ [Packet (packetOf pt q t0 spf 0 n')]) ++ t).
Proof.
  intros Hn Hi [L P S]. assert (n' <= List.last ns n') as Hge by lia. rewrite <- app_assoc.
  set (fill := repeat (Silence samples) (Z.to_nat (n' - n - 1))).
  assert (length fill = Z.to_nat (n' - n - 1)) as Hf by apply repeat_length.
  split; rewrite ?last_index_cons.
  - rewrite !length_app, Hf. cbn [length]. lia.
  - intros [|i] m.
    + cbn. intros [= <-]. rewrite lookup_app_r by lia. by rewrite Hf, Nat.sub_diag.
    + cbn [lookup list_lookup]. intros Hm. pose proof (increasing_above _ _ _ _ _ Hi Hm).
      rewrite lookup_app_r by lia. rewrite Hf. replace (Z.to_nat (m - n - 1) - Z.to_nat (n' - n - 1))%nat
        with (1 + Z.to_nat (m - n' - 1))%nat by lia. cbn [app Nat.add]. etransitivity; [exact (P _ _ Hm)|].
      unfold packetOf. do 4 f_equal. lia.
  - intros k Hk Hno. destruct (Z_lt_le_dec k n') as [Hlt|Hle].
    + rewrite lookup_app_l by lia. apply repeat_at. lia.
    + assert (k <> n') by (intros ->; apply Hno; left). rewrite lookup_app_r by lia. rewrite Hf.
      replace (Z.to_nat (k - n - 1) - Z.to_nat (n' - n - 1))%nat with (1 + Z.to_nat (k - n' - 1))%nat by lia.
      cbn [app Nat.add]. apply S; [lia|]. intros Hin. apply Hno. by right.
Qed.

Lemma handleAll_next ns s pt q t0 n :
  let spf := rtpSamplesPerFrame s in
  0 < spf -> (maxGapSize s + 1) * spf < 2 ^ 32 ->
  1 <= packets s -> packets s + Z.of_nat (length ns) < 2 ^ 64 ->
  lastSeq s = u16 q -> lastTS s = u32 (t0 + n * spf) -> increasing (maxGapSize s) n ns ->
  onTime (pcmSamplesPerFrame s) pt (q + 1) t0 spf n ns (handleAll (streamOf pt (q + 1) t0 spf ns) s).2.
Proof.
  revert s q n. induction ns as [|n' ns IH]; intros s q n spf Hs Hg Hp Hl Hq HT Hi; [by split; cbn; [lia|..|lia]|].
  destruct Hi as [Hn Hi]. cbn [length] in Hl.
  destruct (HandleRTP_next s pt q (t0 + n * spf) (n' - n)) as (s' & Hh & Hseq & Hts & Hpk & Hm & Hr & Hpc);
    [done|done|lia|done|done|lia|].
  fold spf in Hh, Hts. replace (t0 + n * spf + (n' - n) * spf) with (t0 + n' * spf) in Hh, Hts by lia.
  cbn [streamOf handleAll]. rewrite Hh.
  specialize (IH s' (q + 1) n'). cbv zeta in IH. rewrite Hr, Hm, Hpk, Hpc in IH. fold spf in IH.
  specialize (IH Hs Hg ltac:(lia) ltac:(lia) Hseq Hts Hi).
  destruct (handleAll (streamOf pt (q + 1 + 1) t0 spf ns) s') as [s2 t2]. cbn [snd] in *.
  pose proof (onTime_cons _ _ _ _ _ _ n n' ns t2 ltac:(lia) Hi IH) as H. unfold packetOf in H.
  by rewrite Z.add_0_r in H.
Qed.

End silence_facts.
Import silence silence_facts.

(** C29: The silence filler keeps the timeline of a call.  For a stream without loss
    whose sender leaves out silent frames (at most the configured gap at a time), and writes
    that succeed, the room gets exactly one entry per frame of media time, from the first frame
    to the last, in order: the packet of a frame in its place, and a frame of silence of the
    room's size in place of each frame that was left out; also when the sequence numbers or the
    timestamps wrap around. *)
Theorem silence_timeline s pt q t0 n ns :
  let spf := rtpSamplesPerFrame s in
  0 < spf -> (maxGapSize s + 1) * spf < 2 ^ 32 ->
  packets s = 0 -> 1 + Z.of_nat (length ns) < 2 ^ 64 -> increasing (maxGapSize s) n ns ->
  let t := (handleAll (streamOf pt q t0 spf (n :: ns)) s).2 in
  Z.of_nat (length t) = List.last ns n - n + 1 /\
  (forall i m, (n :: ns) !! i = Some m ->
     t !! Z.to_nat (m - n) =
       Some (Packet {| hdr_PayloadType := pt; SequenceNumber := u16 (q + Z.of_nat i); Timestamp := u32 (t0 + m * spf) |})) /\
  (forall k, n <= k <= List.last ns n -> k ∉ n :: ns ->
     t !! Z.to_nat (k - n) = Some (Silence (pcmSamplesPerFrame s))).
Proof.
  intros spf Hs Hg Hp Hl Hi. cbn [streamOf handleAll]. rewrite HandleRTP_first by done.
  set (h := {| hdr_PayloadType := pt; SequenceNumber := u16 q; Timestamp := u32 (t0 + n * spf) |}).
  pose proof (handleAll_next ns (seen h s) pt q t0 n) as H. cbv zeta in H.
  change (rtpSamplesPerFrame (seen h s)) with spf in H.
  assert (packets (seen h s) = 1) as H1 by (cbn; by rewrite Hp). rewrite H1 in H.
  specialize (H Hs Hg ltac:(lia) ltac:(lia) eq_refl eq_refl Hi).
  destruct (handleAll _ _) as [s2 t2]. cbn [snd app] in *.
  pose proof (onTime_cons _ _ _ _ _ _ (n - 1) n ns t2 ltac:(lia) Hi H) as [L P S].
  replace (Z.to_nat (n - (n - 1) - 1)) with 0%nat in L, P, S by lia. unfold packetOf in L, P, S.
  rewrite Z.add_0_r in L, P, S. fold h in L, P, S. rewrite last_index_cons in L, S. cbn [repeat app] in L, P, S. split_and!.
  - lia.
  - intros i m Hm. rewrite <- (P i m Hm). f_equal. lia.
  - intros k Hk Hno. etransitivity; [|exact (S k ltac:(lia) Hno)]. f_equal. lia.
Qed.

#[global] Instance exSDK : MediaSDK := {| DefFramesPerSec := 50; MTUSize := 1500; DefFramesPerSec_pos := eq_refl;
                                          MTUSize_pos := eq_refl |}.

(** 8 kHz: frames 5, 6 and 9 of a stream whose counters wrap around. *)
Lemma silence_timeline_witness :
  let t := (handleAll (streamOf 0 65535 (2 ^ 32 - 1000) 160 [5; 6; 9]) (newSilenceFiller 8000 48000 None)).2 in
  Z.of_nat (length t) = 5 /\ t !! 3%nat = Some (Silence 960) /\
  t !! 4%nat = Some (Packet {| hdr_PayloadType := 0; SequenceNumber := 1; Timestamp := 440 |}).
Proof.
  destruct (silence_timeline (newSilenceFiller 8000 48000 None) 0 65535 (2 ^ 32 - 1000) 5 [6; 9]) as (H1 & H2 & H3); [done..|].
  split; [exact H1|]. split; [apply (H3 8); [cbn; lia|set_solver]|exact (H2 2%nat 9 eq_refl)].
Defined.

(** *** Jitter buffers *)
Module jitter_facts.
Import jitter.

Lemma sumZ_cons x l : sumZ (x :: l) = x + sumZ l.
Proof. done. Qed.

Lemma sumZ_ext {A} (f g : A -> Z) l : (forall x, x ∈ l -> f x = g x) -> sumZ (map f l) = sumZ (map g l).
Proof.
  induction l as [|x l IH]; intros Hx; [done|]. cbn [map]. rewrite !sumZ_cons, (Hx x) by (by left). f_equal. apply IH.
  intros y Hy. apply Hx. by right.
Qed.

(** Changing one summand. *)
Lemma sumZ_update (f g : nat -> Z) b l :
  NoDup l -> b ∈ l -> (forall x, x <> b -> f x = g x) ->
  sumZ (map f l) = sumZ (map g l) + (f b - g b).
Proof.
  induction l as [|x l IH]; intros Hn Hb Hx; [by apply elem_of_nil in Hb|].
  apply list.NoDup_cons in Hn as [Hxl Hn]. cbn [map]. rewrite !sumZ_cons. destruct (decide (x = b)) as [->|Hne].
  - rewrite (sumZ_ext f g) by (intros y Hy; apply Hx; by intros ->). lia.
  - apply elem_of_cons in Hb as [->|Hb]; [done|]. rewrite (IH Hn Hb Hx), (Hx x) by done. lia.
Qed.

(** The total of a counter agrees with what the buffers reported last. *)
Definition agrees (bs : list nat) (f : Counter) (t : totals) : Prop :=
  targets t f = u64 (sumZ (map (fun b => prevOf b t f) bs)).

Lemma add_prev b f cur t b' g :
  prevOf b' (add b f cur t) g = if decide (b' = b /\ g = f) then Z.max (prevOf b t f) cur else prevOf b' t g.
Proof.
  unfold add. destruct (Z.leb_spec cur (prevOf b t f)) as [Hc|Hc].
  - destruct (decide _) as [[-> ->]|]; [lia|done].
  - unfold prevOf at 1. cbn. destruct (decide (b' = b)) as [->|Hb].
    + rewrite lookup_insert_eq. cbn. unfold setc. destruct (decide (g = f)) as [->|Hg].
      * rewrite decide_True by done. lia.
      * rewrite decide_False by tauto. done.
    + rewrite lookup_insert_ne by done. rewrite decide_False by tauto. done.
Qed.

Lemma add_agrees bs b f cur t g :
  NoDup bs -> (g = f -> b ∈ bs) -> agrees bs g t -> agrees bs g (add b f cur t).
Proof.
  unfold agrees. intros Hn Hb Ha. destruct (decide (g = f)) as [->|Hg].
  - rewrite (sumZ_update (fun x => prevOf x (add b f cur t) f) (fun x => prevOf x t f) b) by
      (auto; intros x Hx; rewrite add_prev, decide_False by tauto; done).
    rewrite add_prev, decide_True by done. unfold add. destruct (Z.leb_spec cur (prevOf b t f)).
    + rewrite Ha. f_equal. lia.
    + cbn [targets]. unfold setc. rewrite decide_True, Ha, wrapU_add_l, wrapU_add_r by done. f_equal. lia.
  - rewrite (sumZ_ext _ (fun x => prevOf x t g)) by (intros x _; rewrite add_prev, decide_False by tauto; done).
    rewrite <- Ha. unfold add. destruct (cur <=? _); [done|]. cbn [targets]. unfold setc.
    by rewrite decide_False by done.
Qed.

(** A report raises the values of its buffer and keeps the agreement. *)
Lemma onReport_prev r t b f :
  prevOf b (onReport r t) f =
  match says r f with
  | Some (b', v) => if decide (b' = b) then Z.max (prevOf b t f) v else prevOf b t f
  | None => prevOf b t f
  end.
Proof.
  destruct r as [b' lo d|b' st]; cbn [onReport]; unfold onPacketLoss, onStats; rewrite !add_prev;
    destruct f; cbn; destruct (decide (b' = b)) as [->|Hb]; repeat case_decide;
    try (exfalso; intuition congruence); intuition (congruence || done).
Qed.

Lemma onReport_agrees bs r t f :
  NoDup bs -> (forall b v, says r f = Some (b, v) -> b ∈ bs) -> agrees bs f t -> agrees bs f (onReport r t).
Proof.
  intros Hn Hb Ha. destruct r as [b' lo d|b' st]; cbn [onReport]; unfold onPacketLoss, onStats;
    repeat (apply add_agrees; [done|intros ->; by eapply Hb|]); done.
Qed.
End jitter_facts.
Import jitter jitter_facts.

Definition noReports : totals := {| targets := zeroCounters; prevs := ∅ |}.

(** C30: The totals of the jitter buffers.  However the reports of the buffers of a call
    interleave, and whatever they report, each total is the sum over the buffers of
    the highest value the buffer reported, modulo 2^64: no buffer overwrites another
    and no report is counted twice. *)
Theorem jitter_totals l bs f :
  NoDup bs -> (forall r b v, r ∈ l -> says r f = Some (b, v) -> b ∈ bs) ->
  targets (runReports l noReports) f = u64 (sumZ (map (fun b => highest b f l) bs)).
Proof.
  intros Hn Hb.
  enough (agrees bs f (runReports l noReports) /\ forall b, prevOf b (runReports l noReports) f = highest b f l)
    as [Ha Hp] by (rewrite Ha; f_equal; apply sumZ_ext; auto).
  induction l as [|r l IH] using rev_ind.
  - split; [|done]. unfold agrees. cbn. clear. induction bs as [|b bs IH]; [done|].
    cbn [map]. rewrite sumZ_cons. exact IH.
  - destruct IH as [Ha Hp]; [intros r' b v Hr; apply (Hb r' b v), elem_of_app; by left|].
    unfold runReports, highest in *. rewrite !fold_left_app. cbn [fold_left]. split.
    + apply onReport_agrees; [done| |done]. intros b v Hs. apply (Hb r b v); [|done].
      apply elem_of_app. right. by left.
    + intros b. rewrite onReport_prev, fold_left_app, Hp. cbn [fold_left].
      destruct (says r f) as [[b' v]|]; [|done]. by destruct (decide (b' = b)).
Qed.

(** Two buffers; the second starts again from zero. *)
Lemma jitter_totals_witness :
  targets (runReports [RLoss 0 5 1; RLoss 1 2 0; RLoss 0 7 1; RLoss 1 2 3] noReports) Lost = 9.
Proof.
  rewrite (jitter_totals _ [0; 1]%nat Lost); [reflexivity| |].
  - by apply (bool_decide_unpack _).
  - intros r b v Hr Hs. repeat (apply elem_of_cons in Hr as [->|Hr]; [cbn in Hs; simplify_eq; set_solver|]).
    by apply elem_of_nil in Hr.
Defined.

(** *** Latency *)
Module latency_facts.
Import latency.

Definition threadOK (max : Z) (th : thread) : Prop :=
  match th with TLoaded ns old => old <= max | TDone ns => ns <= max | _ => True end.

(** The maximum bounds what was loaded and what is done, and is itself a measurement
    that is done. *)
Record linv (s : lstate) : Prop := {
  linv_threads : forall i th, threads s !! i = Some th -> threadOK (MaxNs (lstats s)) th;
  linv_max : MaxNs (lstats s) = 0 \/ exists i, threads s !! i = Some (TDone (MaxNs (lstats s)));
}.

(** A step of one thread that does not lower the maximum. *)
Lemma linv_update s i th st :
  linv s -> (forall ns, threads s !! i = Some (TDone ns) -> False) ->
  MaxNs (lstats s) <= MaxNs st -> threadOK (MaxNs st) th ->
  (MaxNs st = MaxNs (lstats s) \/ th = TDone (MaxNs st)) -> linv (set_thread i th st s).
Proof.
  intros [Ht Hm] Hi Hle Hok Hmax. split; cbn.
  - intros j th'. destruct (decide (j = i)) as [->|Hj].
    + rewrite lookup_insert_eq. by intros [= <-].
    + rewrite lookup_insert_ne by done. intros Hl%Ht. destruct th'; cbn in *; lia || done.
  - destruct Hmax as [->| ->]; [|right; exists i; apply lookup_insert_eq].
    destruct Hm as [?|[j Hj]]; [by left|]. right. exists j. rewrite lookup_insert_ne; [done|].
    intros ->. by eapply Hi.
Qed.

Lemma linv_step s s' : linv s -> lstep s s' -> linv s'.
Proof.
  intros Hi Hs. destruct Hs; apply linv_update; cbn; try done; try (intros ?; congruence); try lia; try (by left);
    try (by right).
  pose proof (linv_threads s Hi _ _ H) as Ho. cbn in Ho. lia.
Qed.

Lemma lreach_inv s : lreach s -> linv s.
Proof.
  induction 1 as [|s s' _ IH Hs]; [|by eapply linv_step]. split; [|by left].
  intros i th Hl. cbn in Hl. by rewrite lookup_empty in Hl.
Qed.
End latency_facts.
Import latency latency_facts.

(** The lock-free maximum.  Whatever the interleaving of concurrent measurements,
    the reported maximum is at least every measurement that has returned and is zero
    or one of them, so no update is lost; and a measurement tries again only if the
    maximum rose since it looked. *)
Theorem latency_max s :
  lreach s ->
  (forall i ns, threads s !! i = Some (TDone ns) -> ns <= MaxNs (lstats s)) /\
  (MaxNs (lstats s) = 0 \/ exists i, threads s !! i = Some (TDone (MaxNs (lstats s)))) /\
  (forall i ns old, threads s !! i = Some (TLoaded ns old) -> MaxNs (lstats s) <> old -> old < MaxNs (lstats s)).
Proof.
  intros [Ht Hm]%lreach_inv. split_and!; [|done|].
  - intros i ns Hl. exact (Ht _ _ Hl).
  - intros i ns old Hl Hn. pose proof (Ht _ _ Hl) as Ho. cbn in Ho. lia.
Qed.

(** One measurement of 7 ns. *)
Definition exMeasured : lstate :=
  {| lstats := {| Count := 1; SumNs := 7; MaxNs := 7 |}; threads := {[ 0%nat := TDone 7 ]} |}.

Lemma lreach_run s s1 s2 : lreach s -> lstep s s1 -> s1 = s2 -> lreach s2.
Proof. intros Hr Hs <-. by eapply lreach_step. Qed.

Lemma exMeasured_reach : lreach exMeasured.
Proof.
  pose (st c m th := {| lstats := {| Count := c; SumNs := m; MaxNs := 0 |}; threads := {[ 0%nat := th ]} |}).
  assert (lreach (st 0 0 (TStart 7))) as Ha by (eapply lreach_run; [apply lreach_init|by apply (L_start linit 0 7)|done]).
  assert (lreach (st 1 0 (TCounted 7))) as Hc by (eapply lreach_run; [exact Ha|by apply (L_count _ 0 7)|done]).
  assert (lreach (st 1 7 (TSummed 7))) as Hs by (eapply lreach_run; [exact Hc|by apply (L_sum _ 0 7)|done]).
  assert (lreach (st 1 7 (TLoaded 7 0))) as Hl by (eapply lreach_run; [exact Hs|by apply (L_load _ 0 7)|done]).
  eapply lreach_run; [exact Hl|by apply (L_swap _ 0 7 0)|done].
Qed.

Lemma latency_max_witness : 7 <= MaxNs (lstats exMeasured).
Proof. apply (proj1 (latency_max exMeasured exMeasured_reach) 0%nat 7). reflexivity. Defined.

(** *** Gaps of a stream *)
Module stream_facts.
Import stream.
Section facts.
Context `{MediaSDK}.

(** For numbers less than half the range apart, the 16-bit difference is the true one. *)
Lemma Diff16_true a b : -2 ^ 15 <= b - a < 2 ^ 15 -> Diff16 (u16 b) (u16 a) = b - a.
Proof.
  intros Hd. unfold Diff16. rewrite wrapU_sub_l, wrapU_sub_r, wrapS_wrapU by lia. by apply wrapS_id; cbn in *; lia.
Qed.

(** Packets with true sequence numbers, all at the pace of the codec. *)
Fixpoint ordered (bound prev : Z) (ns : list Z) : Prop :=
  match ns with [] => True | n :: ns' => prev < n <= prev + bound /\ ordered bound n ns' end.

Definition missing (prev n : Z) : Z := n - prev - 1.

(** The gaps of the stream, and how many packets are missing in them. *)
Fixpoint gapsOf (prev : Z) (ns : list Z) : list Z :=
  match ns with
  | [] => []
  | n :: ns' => (if 1 <? n - prev then [missing prev n] else []) ++ gapsOf n ns'
  end.

Definition handleSeqs (at_ size : Z) (ns : list Z) (s : rtpStreamStats) : rtpStreamStats :=
  fold_left (fun s n => rtpStreamStats_HandleRTP at_ size
               {| hdr_PayloadType := 0; SequenceNumber := u16 n; Timestamp := 0 |} s) ns s.
End facts.
End stream_facts.
Import stream stream_facts.

Lemma countSeq_order `{MediaSDK} diff s :
  30 * DefFramesPerSec < 2 ^ 15 -> 0 < diff <= 30 * DefFramesPerSec -> 0 <= gaps s < 2 ^ 64 -> 0 <= gapsSum s < 2 ^ 64 ->
  0 <= late s < 2 ^ 64 -> 0 <= resets s < 2 ^ 64 ->
  let s' := countSeq diff s in
  gaps s' = u64 (gaps s + if 1 <? diff then 1 else 0) /\
  gapsSum s' = u64 (gapsSum s + if 1 <? diff then diff else 0) /\ late s' = late s /\ resets s' = resets s.
Proof.
  intros Hb Hd Hg Hgs Hl Hr. unfold countSeq, maxPositiveSeqDiff, maxNegativeSeqDiff.
  pose proof DefFramesPerSec_pos. rewrite !wrapS_id by (cbn in *; lia).
  rewrite (proj2 (Z.ltb_ge _ _)), (proj2 (Z.ltb_ge _ _)), (proj2 (Z.ltb_ge diff 0)) by lia. cbn [orb].
  destruct (Z.ltb_spec 1 diff); cbn; [|rewrite !Z.add_0_r, !wrapU_id by lia; done].
  rewrite (wrapU_id 64 diff) by (cbn in *; lia). rewrite !Z.add_0_r, !(wrapU_id 64 (late s)), !(wrapU_id 64 (resets s)) by lia.
  done.
Qed.

(** The counters of order stay as they are under the other two updates. *)
Lemma HandleRTP_order `{MediaSDK} at_ size prev n s :
  30 * DefFramesPerSec < 2 ^ 15 -> 1 <= st_packets s < 2 ^ 64 - 1 -> st_lastSeq s = u16 prev ->
  0 < n - prev <= 30 * DefFramesPerSec ->
  0 <= gaps (st_stats s) < 2 ^ 64 -> 0 <= gapsSum (st_stats s) < 2 ^ 64 ->
  0 <= late (st_stats s) < 2 ^ 64 -> 0 <= resets (st_stats s) < 2 ^ 64 ->
  let s' := rtpStreamStats_HandleRTP at_ size {| hdr_PayloadType := 0; SequenceNumber := u16 n; Timestamp := 0 |} s in
  st_packets s' = st_packets s + 1 /\ st_lastSeq s' = u16 n /\
  gaps (st_stats s') = u64 (gaps (st_stats s) + if 1 <? n - prev then 1 else 0) /\
  gapsSum (st_stats s') = u64 (gapsSum (st_stats s) + if 1 <? n - prev then n - prev else 0) /\
  late (st_stats s') = late (st_stats s) /\ resets (st_stats s') = resets (st_stats s).
Proof.
  intros Hb Hp Hq Hd Hg Hgs Hl Hr. unfold rtpStreamStats_HandleRTP. cbn [st_packets st_lastSeq st_stats].
  rewrite (wrapU_id 64) by lia. rewrite (proj2 (Z.ltb_lt 1 _)) by lia. cbn [SequenceNumber].
  rewrite Hq, Diff16_true by (cbn in *; lia).
  pose proof (countSeq_order (n - prev) (countPacket size (st_stats s)) Hb Hd Hg Hgs Hl Hr) as (E1 & E2 & E3 & E4).
  unfold countTime. destruct (_ <? rapidPacketThreshold); [|destruct (delayedPacketThreshold <? _)];
    cbn [gaps gapsSum late resets]; split_and!; done.
Qed.

Lemma handleSeqs_order `{MediaSDK} at_ size ns prev s :
  30 * DefFramesPerSec < 2 ^ 15 -> 1 <= st_packets s -> st_packets s + Z.of_nat (length ns) < 2 ^ 64 ->
  st_lastSeq s = u16 prev -> ordered (30 * DefFramesPerSec) prev ns ->
  0 <= gaps (st_stats s) < 2 ^ 64 -> 0 <= gapsSum (st_stats s) < 2 ^ 64 ->
  0 <= late (st_stats s) < 2 ^ 64 -> 0 <= resets (st_stats s) < 2 ^ 64 ->
  let st := st_stats (handleSeqs at_ size ns s) in
  gaps st = u64 (gaps (st_stats s) + Z.of_nat (length (gapsOf prev ns))) /\
  gapsSum st = u64 (gapsSum (st_stats s) + sumZ (gapsOf prev ns) + Z.of_nat (length (gapsOf prev ns))) /\
  late st = late (st_stats s) /\ resets st = resets (st_stats s).
Proof.
  intros Hb. revert prev s. induction ns as [|n ns IH]; intros prev s Hp Hl Hq Ho Hg Hgs Hla Hr.
  { cbn. rewrite !Z.add_0_r, !wrapU_id by lia. done. }
  destruct Ho as [Hn Ho]. cbn [length] in Hl. unfold handleSeqs. cbn [fold_left gapsOf].
  set (s' := rtpStreamStats_HandleRTP _ _ _ s). fold (handleSeqs at_ size ns s').
  destruct (HandleRTP_order at_ size prev n s) as (P1 & P2 & P3 & P4 & P5 & P6); try done; try lia.
  fold s' in P1, P2, P3, P4, P5, P6.
  destruct (IH n s') as (E1 & E2 & E3 & E4); try done; try lia;
    try (rewrite ?P3, ?P4, ?P5, ?P6; apply wrapU_range || idtac; lia).
  rewrite E1, E2, E3, E4, P3, P4, P5, P6, !length_app. unfold missing.
  replace (sumZ ((if 1 <? n - prev then [n - prev - 1] else []) ++ gapsOf n ns))
    with ((if 1 <? n - prev then n - prev - 1 else 0) + sumZ (gapsOf n ns))
    by (destruct (1 <? n - prev); cbn [app]; rewrite ?sumZ_cons; lia).
  rewrite <- !Z.add_assoc, !wrapU_add_l. split_and!; [| |done..]; f_equal; destruct (1 <? n - prev); cbn [length]; lia.
Qed.

(** Gaps of a stream.  In a stream that arrives in order, without a jump of 30 seconds,
    every gap is counted once, also where the sequence number wraps around, nothing is
    counted as late or as a reset, and the sum of the gaps counts for every gap one
    packet more than are missing. *)
Theorem stream_gaps_counted `{MediaSDK} at_ size n ns :
  30 * DefFramesPerSec < 2 ^ 15 -> 1 + Z.of_nat (length ns) < 2 ^ 64 -> ordered (30 * DefFramesPerSec) n ns ->
  let st := st_stats (handleSeqs at_ size (n :: ns) (newRTPStreamStats zeroStats)) in
  gaps st = u64 (Z.of_nat (length (gapsOf n ns))) /\
  gapsSum st = u64 (sumZ (gapsOf n ns) + Z.of_nat (length (gapsOf n ns))) /\ late st = 0 /\ resets st = 0.
Proof.
  intros Hb Hl Ho. unfold handleSeqs. cbn [fold_left].
  set (s1 := rtpStreamStats_HandleRTP _ _ _ _). fold (handleSeqs at_ size ns s1).
  exact (handleSeqs_order at_ size ns n s1 Hb ltac:(done) Hl eq_refl Ho ltac:(done) ltac:(done) ltac:(done) ltac:(done)).
Qed.

(** *** Voice and silence *)
Import signal.

Fixpoint alternates (cur : bool) (l : list bool) : Prop :=
  match l with [] => True | b :: l' => b = negb cur /\ alternates b l' end.

Lemma WriteSample_one f s :
  10 <= framesProcessed s < 2 ^ 64 - 1 ->
  let '(s', t) := SignalLogger_WriteSample f s in
  framesProcessed s' = framesProcessed s + 1 /\ hangoverDuration s' = hangoverDuration s /\
  match t with
  | [] => lastIsSignal s' = lastIsSignal s
  | [b] => b = negb (lastIsSignal s) /\ lastIsSignal s' = b
  | _ => False
  end.
Proof.
  intros Hf. unfold SignalLogger_WriteSample. rewrite (wrapU_id 64) by lia.
  rewrite (proj2 (Z.leb_gt _ 10)) by lia.
  destruct (aboveEnter f), (belowExit f), (lastIsSignal s) eqn:E; cbn [andb negb]; try done;
    destruct (_ <=? _); done.
Qed.

(** The logged changes alternate between voice and silence. *)
Theorem signal_alternates l s :
  10 <= framesProcessed s -> framesProcessed s + Z.of_nat (length l) < 2 ^ 64 ->
  alternates (lastIsSignal s) (writeAll l s).2.
Proof.
  revert s. induction l as [|f l IH]; intros s H1 H2; [done|]. cbn [writeAll length] in *.
  pose proof (WriteSample_one f s ltac:(lia)) as Hw. destruct (SignalLogger_WriteSample f s) as [s1 t1].
  destruct Hw as (Hf & _ & Ht). specialize (IH s1 ltac:(lia) ltac:(lia)).
  destruct (writeAll l s1) as [s2 t2]. cbn [snd] in *.
  destruct t1 as [|b [|]]; [by rewrite <- Ht|destruct Ht as [-> Hs]|done].
  cbn. split; [done|]. by rewrite <- Hs.
Qed.

(** Silence is reported only after the hangover: no frame above the voice threshold came
    in that time. *)
Theorem signal_hangover f s s' t0 :
  0 < hangoverDuration s -> SignalLogger_WriteSample f s = (s', [false]) -> lastSignalTime s = Some t0 ->
  aboveEnter f = false /\ hangoverDuration s <= satDuration (at_ f - t0).
Proof.
  intros Hh. unfold SignalLogger_WriteSample. intros Hw Ht. destruct (_ <=? 10); [done|].
  destruct (aboveEnter f); cbn [andb] in Hw.
  - destruct (lastIsSignal s); cbn [negb] in Hw; [|done]. destruct (belowExit f); [|done].
    destruct (Z.leb_spec (hangoverDuration s) (sinceSignal (at_ f) (Some (at_ f)))); [|done].
    unfold sinceSignal, satDuration, minInt64, maxInt64 in *. lia.
  - rewrite Ht in Hw. destruct (belowExit f && lastIsSignal s); [|done]. cbn [andb] in Hw.
    destruct (Z.leb_spec (hangoverDuration s) (sinceSignal (at_ f) (Some t0))); done.
Qed.
