(* ===== verification/Stats.v ===== *)
(** * Statistics of a call

    [Stats], [PortStats] and [RoomStats] of [pkg/sip/media.go], [media_port.go] and
    [room.go]: the snapshot, which reads the counters one by one while the call goes on
    counting, and the rates of [Update].  The division of [float64] is an argument. *)

From stdpp Require Import base tactics list gmap option.
From Stdlib Require Import ZArith Lia.
From S2P Require Import Prelude GoStd.

(** ** Counters *)
Inductive PortCounter :=
| Streams | Packets | IgnoredPackets | InputPackets | FailedPackets
| MuxPackets | MuxBytes | MuxResets | MuxGaps | MuxGapsSum | MuxLate | MuxLateSum | MuxRapidPackets
| MuxDelayedPackets | MuxDelayedSum
| AudioPackets | AudioBytes | AudioInFrames | AudioInSamples | AudioOutFrames | AudioOutSamples
| DTMFPackets | DTMFBytes
| JitterBufferPacketsLost | JitterBufferPacketsDropped | JitterBufferSSRCSwitches | JitterBufferPacketsReordered
| JitterBufferSequenceRestarts | JitterBufferPacketsStray | JitterBufferPacketsDuplicate.

Inductive RoomCounter :=
| R_InputPackets | R_InputBytes | R_Resets | R_Gaps | R_GapsSum | R_Late | R_LateSum | R_DelayedPackets | R_DelayedSum
| R_RapidPackets | R_DataPackets
| R_JitterBufferPacketsLost | R_JitterBufferPacketsDropped | R_JitterBufferSSRCSwitches
| R_JitterBufferPacketsReordered | R_JitterBufferSequenceRestarts | R_JitterBufferPacketsStray
| R_JitterBufferPacketsDuplicate
| R_TrackSubscribes | R_Resumes | R_Reconnects
| R_PublishedFrames | R_PublishedSamples.

(** Of the mixer; [Tracks], which also goes down, is left out. *)
Inductive MixerCounter :=
| TracksTotal | Restarts | TimingResets | Mixes | TimedMixes | JumpMixes | ZeroMixes | NegativeMixes
| InputSamples | InputFrames | InputFramesDropped | InputSamplesDropped | MixedSamples | MixedFrames
| OutputSamples | OutputFrames | WriteErrors | BlockedMixes.

Inductive StatsCounter := CPort (c : PortCounter) | CRoom (c : RoomCounter) | CMixer (c : MixerCounter).

#[global] Instance PortCounter_eq_dec : EqDecision PortCounter.
Proof. solve_decision. Defined.
#[global] Instance RoomCounter_eq_dec : EqDecision RoomCounter.
Proof. solve_decision. Defined.
#[global] Instance MixerCounter_eq_dec : EqDecision MixerCounter.
Proof. solve_decision. Defined.
#[global] Instance StatsCounter_eq_dec : EqDecision StatsCounter.
Proof. solve_decision. Defined.

(** The order in which [Load] reads them. *)
Definition PortStats_Load : list PortCounter :=
  [Streams; Packets; IgnoredPackets; InputPackets; FailedPackets;
   MuxPackets; MuxBytes; MuxResets; MuxGaps; MuxGapsSum; MuxLate; MuxLateSum; MuxRapidPackets;
   MuxDelayedPackets; MuxDelayedSum;
   AudioPackets; AudioBytes; AudioInFrames; AudioInSamples; AudioOutFrames; AudioOutSamples;
   DTMFPackets; DTMFBytes;
   JitterBufferPacketsLost; JitterBufferPacketsDropped; JitterBufferSSRCSwitches; JitterBufferPacketsReordered;
   JitterBufferSequenceRestarts; JitterBufferPacketsStray; JitterBufferPacketsDuplicate].

Definition RoomStats_Load : list RoomCounter :=
  [R_InputPackets; R_InputBytes; R_Resets; R_Gaps; R_GapsSum; R_Late; R_LateSum; R_DelayedPackets; R_DelayedSum;
   R_RapidPackets; R_DataPackets;
   R_JitterBufferPacketsLost; R_JitterBufferPacketsDropped; R_JitterBufferSSRCSwitches;
   R_JitterBufferPacketsReordered; R_JitterBufferSequenceRestarts; R_JitterBufferPacketsStray;
   R_JitterBufferPacketsDuplicate;
   R_TrackSubscribes; R_Resumes; R_Reconnects;
   R_PublishedFrames; R_PublishedSamples].

Definition MixerStats_Load : list MixerCounter :=
  [TracksTotal; Restarts; TimingResets; Mixes; TimedMixes; JumpMixes; ZeroMixes; NegativeMixes;
   InputSamples; InputFrames; InputFramesDropped; InputSamplesDropped; MixedSamples; MixedFrames;
   OutputSamples; OutputFrames; WriteErrors; BlockedMixes].

Definition Stats_Load : list StatsCounter :=
  (CPort <$> PortStats_Load) ++ (CRoom <$> RoomStats_Load) ++ (CMixer <$> MixerStats_Load).

(** ** Reading while counting *)
Section snapshot.
Context {C : Type} `{EqDecision C}.

Abbreviation counters := (C -> Z).

(** [Add] of an atomic [uint64]. *)
Definition count (a : C * Z) (s : counters) : counters :=
  fun c => if decide (c = a.1) then u64 (s c + a.2) else s c.
Definition counts (l : list (C * Z)) (s : counters) : counters := foldl (fun s a => count a s) s l.

(** The reads of [Load], each after what was counted since the one before. *)
Fixpoint load (order : list C) (adds : list (list (C * Z))) (s : counters) : list (C * Z) * counters :=
  match order with
  | [] => ([], counts (concat adds) s)
  | c :: order' =>
      let s1 := counts (default [] (head adds)) s in
      let '(snap, s2) := load order' (tail adds) s1 in
      ((c, s1 c) :: snap, s2)
  end.

(** How much is added to a counter. *)
Definition added (c : C) (l : list (C * Z)) : Z :=
  foldr (fun a n => (if decide (c = a.1) then a.2 else 0) + n) 0 l.

Lemma added_app c l1 l2 : added c (l1 ++ l2) = added c l1 + added c l2.
Proof. unfold added in *. induction l1 as [|a l1 IH]; [done|]. cbn. rewrite IH. lia. Qed.

Lemma added_nonneg c l : Forall (fun a => 0 <= a.2) l -> 0 <= added c l.
Proof. unfold added. induction 1 as [|a l Ha Hl IH]; cbn; [lia|]. destruct (decide _); lia. Qed.

(** As long as a counter does not overflow it is its sum. *)
Lemma counts_added l : forall s c,
  Forall (fun a => 0 <= a.2) l -> 0 <= s c -> s c + added c l < 2 ^ 64 -> counts l s c = s c + added c l.
Proof.
  induction l as [|a l IH]; intros s c Hl H0 Hb; [cbn; lia|]. inversion Hl as [|? ? Ha Hl']; subst.
  pose proof (added_nonneg c l Hl') as Hn.
  assert (added c (a :: l) = (if decide (c = a.1) then a.2 else 0) + added c l) as Ea by done. rewrite Ea in *.
  assert (count a s c = s c + if decide (c = a.1) then a.2 else 0) as Ec.
  { unfold count. destruct (decide (c = a.1)); [|lia]. rewrite wrapU_id; lia. }
  change (counts (a :: l) s c) with (counts l (count a s) c).
  rewrite IH; rewrite ?Ec; [lia|done|destruct (decide _); lia|lia].
Qed.

Lemma counts_concat l1 l2 s : counts (l1 ++ l2) s = counts l2 (counts l1 s).
Proof. apply foldl_app. Qed.

Lemma load_end order : forall adds s, (load order adds s).2 = counts (concat adds) s.
Proof.
  induction order as [|c order IH]; intros adds s; [done|]. cbn. specialize (IH (tail adds) (counts (default [] (head adds)) s)).
  destruct (load _ _ _) as [snap s2]. cbn in *. rewrite IH, <- counts_concat. by destruct adds.
Qed.

Lemma load_names order : forall adds s, (load order adds s).1.*1 = order.
Proof.
  induction order as [|c order IH]; intros adds s; [done|]. cbn. specialize (IH (tail adds) (counts (default [] (head adds)) s)).
  destruct (load _ _ _) as [snap s2]. cbn in *. by rewrite IH.
Qed.

Lemma load_between order : forall adds s c v,
  Forall (fun a => 0 <= a.2) (concat adds) -> 0 <= s c -> s c + added c (concat adds) < 2 ^ 64 ->
  (c, v) ∈ (load order adds s).1 -> s c <= v <= s c + added c (concat adds).
Proof.
  induction order as [|x order IH]; intros adds s c v Hl H0 Hb; cbn; [set_solver|].
  set (l := default [] (head adds)). set (s1 := counts l s).
  assert (concat adds = l ++ concat (tail adds)) as Hc by (unfold l; by destruct adds).
  rewrite Hc, added_app in *. apply Forall_app in Hl as [Hl1 Hl2].
  pose proof (added_nonneg c l Hl1). pose proof (added_nonneg c _ Hl2).
  assert (s1 c = s c + added c l) as E1 by (apply counts_added; [done|done|lia]).
  specialize (IH (tail adds) s1 c v Hl2). destruct (load order (tail adds) s1) as [snap s2].
  cbn in *. intros [[= -> ->]|Hin]%elem_of_cons; [lia|]. specialize (IH ltac:(lia) ltac:(lia) Hin). lia.
Qed.
End snapshot.

(** A snapshot of a running call.  Each counter is read once; its value lies between the
    values when [Load] starts and when it ends, and the next snapshot does not show less,
    whatever is counted in between; the counters are not read at one time, though. *)
Theorem snapshot_sound adds1 adds2 s :
  Forall (fun a => 0 <= a.2) (concat adds1 ++ concat adds2) ->
  (forall c, 0 <= s c /\ s c + added c (concat adds1 ++ concat adds2) < 2 ^ 64) ->
  let '(snap1, s1) := load Stats_Load adds1 s in
  let '(snap2, s2) := load Stats_Load adds2 s1 in
  snap1.*1 = Stats_Load /\ NoDup Stats_Load /\ (forall c, c ∈ Stats_Load) /\
  forall c v1 v2, (c, v1) ∈ snap1 -> (c, v2) ∈ snap2 -> s c <= v1 <= s1 c /\ v1 <= v2 <= s2 c.
Proof.
  intros [Ha1 Ha2]%Forall_app Hs.
  pose proof (load_names Stats_Load adds1 s) as Hn1. pose proof (load_end Stats_Load adds1 s) as He1.
  pose proof (load_between Stats_Load adds1 s) as Hb1.
  destruct (load Stats_Load adds1 s) as [snap1 s1].
  pose proof (load_end Stats_Load adds2 s1) as He2. pose proof (load_between Stats_Load adds2 s1) as Hb2.
  destruct (load Stats_Load adds2 s1) as [snap2 s2]. cbn [fst snd] in *. split_and!; [done| | |].
  - apply (bool_decide_unpack _). vm_compute. exact I.
  - intros [[]|[]|[]]; apply (bool_decide_unpack _); vm_compute; exact I.
  - intros c v1 v2 H1 H2. destruct (Hs c) as [H0 Hb]. rewrite added_app in Hb.
    pose proof (added_nonneg c _ Ha1). pose proof (added_nonneg c _ Ha2).
    specialize (Hb1 c v1 Ha1 H0 ltac:(lia) H1).
    assert (s1 c = s c + added c (concat adds1)) as E1 by (rewrite He1; apply counts_added; [done|done|lia]).
    specialize (Hb2 c v2 Ha2 ltac:(lia) ltac:(lia) H2).
    assert (s2 c = s1 c + added c (concat adds2)) as E2 by (rewrite He2; apply counts_added; [done|lia|lia]). lia.
Qed.

(** The counters are not a consistent cut: a packet that is counted while [Load] runs can be
    shown as handled and not as received. *)
Lemma snapshot_not_a_cut :
  let adds := [[]; []; [(CPort Packets, 1); (CPort InputPackets, 1)]] in
  let snap := (load Stats_Load adds (fun _ => 0)).1 in
  (CPort Packets, 0) ∈ snap /\ (CPort InputPackets, 1) ∈ snap.
Proof. split; apply (bool_decide_unpack _); vm_compute; exact I. Qed.

Lemma snapshot_sound_witness :
  let adds1 := [[(CPort Packets, 2)]; []; [(CPort Packets, 1)]] in
  let adds2 := [[(CPort Packets, 4)]] in
  let '(snap1, s1) := load Stats_Load adds1 (fun _ => 0) in
  let '(snap2, s2) := load Stats_Load adds2 s1 in
  snap1.*1 = Stats_Load /\ NoDup Stats_Load /\ (forall c, c ∈ Stats_Load) /\
  forall c v1 v2, (c, v1) ∈ snap1 -> (c, v2) ∈ snap2 -> 0 <= v1 <= s1 c /\ v1 <= v2 <= s2 c.
Proof.
  exact (snapshot_sound [[(CPort Packets, 2)]; []; [(CPort Packets, 1)]] [[(CPort Packets, 4)]] (fun _ => 0)
    ltac:(repeat (apply List.Forall_cons; [cbn; lia|]); apply List.Forall_nil)
    ltac:(intros c; cbn -[Z.pow]; repeat destruct (decide _); lia)).
Defined.

(** ** Rates *)
Section rates.
Context {F : Type}.
(** [float64(samples) / dt.Seconds()], with [dt] in nanoseconds. *)
Variable div : Z -> Z -> F.

Record Rate := {
  r_value : F;                 (* of the last period *)
  r_time : option Z;           (* last.Time; [None] is the zero time *)
  r_last : Z;                  (* the counter at that time *)
}.

Definition newRate (zero : F) : Rate := {| r_value := zero; r_time := None; r_last := 0 |}.

(** [dt]: since the last update. *)
Definition updateWith (dt t cur : Z) (r : Rate) : Rate :=
  {| r_value := if 0 <? dt then div (u64 (cur - r_last r)) dt else r_value r; r_time := Some t; r_last := cur |}.

(** One counter of [PortStats.Update]: the first call only remembers the time. *)
Definition PortStats_Update (t cur : Z) (r : Rate) : Rate :=
  updateWith (satDuration (t - default t (r_time r))) t cur r.

(** [RoomStats.Update] subtracts the zero time in the first call, which is more than the
    longest duration before any time of a clock that is set. *)
Definition RoomStats_Update (t cur : Z) (r : Rate) : Rate :=
  updateWith (match r_time r with Some t0 => satDuration (t - t0) | None => maxInt64 end) t cur r.

(** The samples counted at each update, without overflow, and their times. *)
Fixpoint runRate (update : Z -> Z -> Rate -> Rate) (l : list (Z * Z)) (r : Rate) : list F :=
  match l with
  | [] => []
  | (t, n) :: l' => let r' := update t (u64 n) r in r_value r' :: runRate update l' r'
  end.

(** The reference: the samples of each period by its length. *)
Fixpoint periods (prev : Z * Z) (l : list (Z * Z)) : list F :=
  match l with [] => [] | (t, n) :: l' => div (n - prev.2) (t - prev.1) :: periods (t, n) l' end.

(** Time goes on, and in a period fewer than [2^64] samples are counted. *)
Fixpoint periodsOK (prev : Z * Z) (l : list (Z * Z)) : Prop :=
  match l with
  | [] => True
  | (t, n) :: l' => 0 < t - prev.1 <= maxInt64 /\ 0 <= n - prev.2 < 2 ^ 64 /\ periodsOK (t, n) l'
  end.

Lemma wrap_diff a b : 0 <= a - b < 2 ^ 64 -> u64 (u64 a - u64 b) = a - b.
Proof. intros Hd. unfold wrapU. rewrite <- Zminus_mod. by apply Z.mod_small. Qed.

Lemma runRate_periods l : forall t0 n0 r,
  r_time r = Some t0 -> r_last r = u64 n0 -> periodsOK (t0, n0) l ->
  runRate PortStats_Update l r = periods (t0, n0) l /\ runRate RoomStats_Update l r = periods (t0, n0) l.
Proof.
  induction l as [|[t n] l IH]; intros t0 n0 r Ht Hl Ho; [done|]. destruct Ho as (Hd & Hn & Ho). cbn [fst snd] in *.
  assert (PortStats_Update t (u64 n) r = {| r_value := div (n - n0) (t - t0); r_time := Some t; r_last := u64 n |}) as E1.
  { unfold PortStats_Update, updateWith. rewrite Ht, Hl. change (default t (Some t0)) with t0. rewrite satDuration_id by (unfold minInt64; lia).
    by rewrite (proj2 (Z.ltb_lt 0 (t - t0))), wrap_diff by lia. }
  assert (RoomStats_Update t (u64 n) r = {| r_value := div (n - n0) (t - t0); r_time := Some t; r_last := u64 n |}) as E2.
  { unfold RoomStats_Update, updateWith. rewrite Ht, Hl. rewrite satDuration_id by (unfold minInt64; lia).
    by rewrite (proj2 (Z.ltb_lt 0 (t - t0))), wrap_diff by lia. }
  cbn [runRate periods fst snd]. rewrite E1, E2. cbn [r_value].
  destruct (IH t n {| r_value := div (n - n0) (t - t0); r_time := Some t; r_last := u64 n |} eq_refl eq_refl Ho) as [-> ->]. done.
Qed.

(** The rates.  After the first update every rate is that of its period: the samples counted
    since the update before by the time since then, also when the 64-bit counter wraps
    around.  The first update of the port reports nothing; the first one of the room
    reports the samples so far by 292 years. *)
Theorem rates_exact zero t0 n0 l :
  0 <= n0 < 2 ^ 64 -> periodsOK (t0, n0) l ->
  runRate PortStats_Update ((t0, n0) :: l) (newRate zero) = zero :: periods (t0, n0) l /\
  runRate RoomStats_Update ((t0, n0) :: l) (newRate zero) = div n0 maxInt64 :: periods (t0, n0) l.
Proof.
  intros Hn Ho. cbn [runRate].
  destruct (runRate_periods l t0 n0 (PortStats_Update t0 (u64 n0) (newRate zero)) eq_refl eq_refl Ho) as [-> _].
  destruct (runRate_periods l t0 n0 (RoomStats_Update t0 (u64 n0) (newRate zero)) eq_refl eq_refl Ho) as [_ ->].
  unfold PortStats_Update, RoomStats_Update, updateWith. cbn [newRate r_time r_value r_last default].
  rewrite Z.sub_diag. change (0 <? satDuration 0) with false. change (0 <? maxInt64) with true. cbv iota.
  rewrite Z.sub_0_r, !(wrapU_id 64 n0) by done. done.
Qed.
End rates.

Lemma rates_exact_witness :
  runRate (RoomStats_Update (fun a b => (a, b))) [(1000, 5); (1100, 2 ^ 64 + 3)] (newRate (0, 0)) =
    [(5, maxInt64); (2 ^ 64 - 2, 100)].
Proof. apply (rates_exact (fun a b => (a, b)) (0, 0) 1000 5 [(1100, 2 ^ 64 + 3)]); [lia|]. unfold periodsOK, maxInt64; cbn [fst snd]; lia. Defined.
