(* ===== verification/MediaPipeline.v ===== *)
(** * The socket and the pipeline of a media port

    [udpConn] of [pkg/sip/media_port.go] (where media is sent, symmetric RTP, hold) and
    [pkg/sip/media_pipeline.go]: the chains of handlers and writers between the socket and
    the room, how they are built and closed, the loop that reads packets, and DTMF in both
    directions.  The SDK's sessions, codecs and mixers are outside; what their
    constructors return is an argument, and closing any stage of a chain is taken to close
    the next one unless it is the SDK's [NopCloser]. *)

From stdpp Require Import base tactics list gmap strings option.
From Stdlib Require Import ZArith Ascii Lia.
From S2P Require Import Prelude GoStd GoErr NetIP MediaStats.
Import strings strconv unquote.

(** ** The socket *)
Definition changePrintInterval : Z := 10 * 1000 * 1000 * 1000.

Record udpConn := {
  closed : bool;
  discardStop : bool;
  discarding : bool;                 (* the goroutine of startDiscarding runs *)
  symmetric : bool;
  src : option AddrPort;
  dst : option AddrPort;
  srcChangeCount : Z;
  dstChangeCount : Z;
  lastSrcPrint : Z;
  lastDstPrint : Z;
}.

Definition newUDPConn (sym : bool) : udpConn :=
  {| closed := false; discardStop := false; discarding := false; symmetric := sym; src := None; dst := None;
     srcChangeCount := 0; dstChangeCount := 0; lastSrcPrint := 0; lastDstPrint := 0 |}.

Definition set_flags (c d g s : bool) (u : udpConn) : udpConn :=
  {| closed := c; discardStop := d; discarding := g; symmetric := s; src := src u; dst := dst u;
     srcChangeCount := srcChangeCount u; dstChangeCount := dstChangeCount u; lastSrcPrint := lastSrcPrint u;
     lastDstPrint := lastDstPrint u |}.

Definition set_dst (a : AddrPort) (n p : Z) (u : udpConn) : udpConn :=
  {| closed := closed u; discardStop := discardStop u; discarding := discarding u; symmetric := symmetric u;
     src := src u; dst := Some a; srcChangeCount := srcChangeCount u; dstChangeCount := n;
     lastSrcPrint := lastSrcPrint u; lastDstPrint := p |}.

Definition set_src (a : AddrPort) (n p : Z) (u : udpConn) : udpConn :=
  {| closed := closed u; discardStop := discardStop u; discarding := discarding u; symmetric := symmetric u;
     src := Some a; dst := dst u; srcChangeCount := n; dstChangeCount := dstChangeCount u; lastSrcPrint := p;
     lastDstPrint := lastDstPrint u |}.

Definition SetSymmetric (b : bool) (u : udpConn) : udpConn := set_flags (closed u) (discardStop u) (discarding u) b u.

Definition GetSrc (u : udpConn) : AddrPort * bool :=
  match src u with None => ({| ap_Addr := NoAddr; ap_Port := 0 |}, false) | Some a => (a, ap_IsValid a) end.

(** An address that was there and valid before. *)
Definition validPrev (o : option AddrPort) : option AddrPort :=
  match o with Some a => if ap_IsValid a then Some a else None | None => None end.

Definition SetDst (now : Z) (a : AddrPort) (u : udpConn) : udpConn :=
  if ap_IsValid a then
    match validPrev (dst u) with
    | None => set_dst a (dstChangeCount u) (lastDstPrint u) u
    | Some prev =>
        if decide (prev = a) then set_dst a (dstChangeCount u) (lastDstPrint u) u
        else
          set_dst a (u64 (dstChangeCount u + 1))
            (if changePrintInterval <? i64 (now - lastDstPrint u) then now else lastDstPrint u) u
    end
  else u.

(** What a read of the socket gives. *)
Record UdpRead := { ur_n : Z; ur_addr : AddrPort; ur_err : option error }.

(** [closedAfter]: the connection is closed when the read returns. *)
Definition Read (now : Z) (r : UdpRead) (closedAfter : bool) (u : udpConn) : (Z * option error) * udpConn :=
  if closed u then ((0, Some (ESentinel io_EOF)), u)
  else
    let u := set_flags closedAfter (discardStop u) (discarding u) (symmetric u) u in
    if closedAfter && errors.IsO (ur_err r) os_ErrDeadlineExceeded then ((ur_n r, Some (ESentinel io_EOF)), u)
    else
      let addr := ur_addr r in
      let u :=
        match validPrev (src u) with
        | None => set_src addr (srcChangeCount u) (lastSrcPrint u) u
        | Some prev =>
            if decide (prev = addr) then set_src addr (srcChangeCount u) (lastSrcPrint u) u
            else
              let n := u64 (srcChangeCount u + 1) in
              if changePrintInterval <? i64 (now - lastSrcPrint u) then set_src addr (u64 (n + 1)) now u
              else set_src addr n (lastSrcPrint u) u
        end in
      let u :=
        if symmetric u then
          match dst u with
          | Some d =>
              if IsUnspecified (ap_Addr d) then u
              else if negb (ap_IsValid d) || negb (bool_decide (d = addr)) then SetDst now addr u else u
          | None => SetDst now addr u
          end
        else u in
      ((ur_n r, ur_err r), u).

(** Where a packet goes: [None] is dropped without an error. *)
Definition Write (u : udpConn) : option AddrPort :=
  match dst u with
  | None => None
  | Some d => if IsUnspecified (ap_Addr d) then None else Some d
  end.

Definition startDiscarding (u : udpConn) : udpConn := set_flags (closed u) (discardStop u) true (symmetric u) u.
(** Waits until the goroutine has ended. *)
Definition stopDiscarding (u : udpConn) : udpConn := set_flags (closed u) true false (symmetric u) u.
Definition Reopen (u : udpConn) : udpConn := set_flags false (discardStop u) (discarding u) (symmetric u) u.
Definition udp_Close (u : udpConn) : udpConn :=
  let u := stopDiscarding u in set_flags true (discardStop u) (discarding u) (symmetric u) u.

(** The loop that discards packets until it is told to stop, by the outcome of each
    turn: the number of packets it dropped, [None] while it still reads. *)
Inductive DiscardEvent := DPacket | DReadErr (e : error) | DDeadlineErr (e : error).

Fixpoint discardLoop (stop : nat -> bool) (i : nat) (l : list DiscardEvent) (n : Z) : option Z :=
  if stop i then Some n
  else
    match l with
    | [] => None
    | DPacket :: l' => discardLoop stop (S i) l' (u64 (n + 1))
    | DReadErr e :: l' => if errors.Is e os_ErrDeadlineExceeded then discardLoop stop (S i) l' n else Some n
    | DDeadlineErr _ :: _ => Some n
    end.

(** ** Media configuration: [sdp.MediaConfig] *)
Record CodecInfo := {
  ci_Type : Z;                       (* RTP payload type *)
  ci_Name : string;                  (* Info.SDPFullName() *)
  ci_RTPClockRate : Z;
  ci_SampleRate : Z;
}.

Record CryptoConfig := {
  Profile : string;
  LocalMasterKey : string; LocalMasterSalt : string; RemoteMasterKey : string; RemoteMasterSalt : string;
}.

Inductive Direction := DirSendRecv | DirSendOnly | DirRecvOnly | DirInactive.

#[global] Instance Direction_eq_dec : EqDecision Direction.
Proof. solve_decision. Defined.

Record MediaConfig := {
  Local : AddrPort;
  Remote : AddrPort;
  hasCodec : bool;                   (* Audio.Codec is not nil *)
  Audio : CodecInfo;
  DTMF : option CodecInfo;
  Crypto : option CryptoConfig;
  PeerDirection : Direction;
}.

Record MediaOptions := {
  SymmetricRTP : bool;
  IgnoreLocalAddrInSDP : bool;
  EnableJitterBuffer : bool;
  LogSignalChanges : bool;
  DTMFAudio : bool;
  DropAudioDuringDTMF : bool;
}.

(** ** Chains

    The writers and handlers the code stacks.  The ends are the room's two writers, the
    session's write stream and handlers that are plain functions. *)
Inductive chain :=
| RoomAudio | RoomDTMF | NetStream | FuncHandler
| Nop (w : chain)                            (* msdk.NopCloser, rtp.NewNopCloser *)
| LatencyExit (w : chain) | LatencyEntry (w : chain)
| Resample (rate : Z) (w : chain)
| CountSamples (w : chain)                   (* newMediaWriterCount *)
| Signal (name : string) (w : chain)
| Decode (typ : Z) (w : chain) | Encode (w : chain)
| SilenceFill (h : chain)                    (* its second reference, the sink, is never closed *)
| Serialized (h : chain)
| StatsHandler (name : string) (h : chain) | CountPackets (h : chain)
| Mux (routes : list (Z * string))           (* by payload type; closes nothing *)
| Jitter (h : chain) | StreamStats (h : chain)
| StatsWriter (w : chain) | SeqStream (typ : Z) (w : chain)
| AudioSwitch (w : chain)                    (* set while no DTMF is sent *)
| MixerInput (w : chain).

(** The ends closed by closing a chain. *)
Fixpoint ends (w : chain) : list chain :=
  match w with
  | RoomAudio | RoomDTMF | NetStream | FuncHandler => [w]
  | Nop _ | Mux _ => []
  | LatencyExit w | LatencyEntry w | Resample _ w | CountSamples w | Signal _ w | Decode _ w | Encode w
  | SilenceFill w | Serialized w | StatsHandler _ w | CountPackets w | Jitter w | StreamStats w
  | StatsWriter w | SeqStream _ w | AudioSwitch w | MixerInput w => ends w
  end.

(** ** The pipeline *)
Record pipeline := {
  canceled : bool;
  sess : bool;                       (* the session was created *)
  looping : bool;                    (* rtpLoop was started *)
  muxToRoom : option chain;
  dtmfMixer : bool;
  audioToRoom : option chain;
  dtmfToRoom : option chain;
  hasDTMFHandler : bool;
  audioToPort : option chain;
  mixerToPort : option chain;
  dtmfToPort : option (option chain * bool);   (* the audio of DTMF, and whether audio is switched off *)
}.

Definition newPipeline : pipeline :=
  {| canceled := false; sess := false; looping := false; muxToRoom := None; dtmfMixer := false;
     audioToRoom := None; dtmfToRoom := None; hasDTMFHandler := false; audioToPort := None;
     mixerToPort := None; dtmfToPort := None |}.

Definition set_sess (p : pipeline) : pipeline :=
  {| canceled := canceled p; sess := true; looping := looping p; muxToRoom := muxToRoom p;
     dtmfMixer := dtmfMixer p; audioToRoom := audioToRoom p; dtmfToRoom := dtmfToRoom p;
     hasDTMFHandler := hasDTMFHandler p; audioToPort := audioToPort p; mixerToPort := mixerToPort p;
     dtmfToPort := dtmfToPort p |}.

Definition set_input (a : chain) (d : option chain) (m : chain) (p : pipeline) : pipeline :=
  {| canceled := canceled p; sess := sess p; looping := looping p; muxToRoom := Some m;
     dtmfMixer := dtmfMixer p; audioToRoom := Some a; dtmfToRoom := d;
     hasDTMFHandler := match d with Some _ => true | None => hasDTMFHandler p end;
     audioToPort := audioToPort p; mixerToPort := mixerToPort p; dtmfToPort := dtmfToPort p |}.

Definition set_output (loop mix : bool) (a m : option chain) (d : option (option chain * bool)) (p : pipeline)
    : pipeline :=
  {| canceled := canceled p; sess := sess p; looping := loop; muxToRoom := muxToRoom p; dtmfMixer := mix;
     audioToRoom := audioToRoom p; dtmfToRoom := dtmfToRoom p; hasDTMFHandler := hasDTMFHandler p;
     audioToPort := a; mixerToPort := m; dtmfToPort := d |}.

Inductive VEffect :=
| VSession                                   (* rtp.NewSession / srtp.NewSession *)
| VSessionClose
| VCancel | VLoopWait
| VClose (w : chain)                         (* Close of a chain *)
| VMixerStop.

(** What the SDK's constructors return: an error, if any. *)
Record BuildEnv := {
  be_session : option error;                 (* srtp.NewSession *)
  be_signal : option error;                  (* NewSignalLogger; it has no options here *)
  be_decode : option error;
  be_openWrite : option error;
  be_encode : option error;
  be_mixer : option error;
}.

Section pipeline.
Open Scope go_scope.
Context (o : MediaOptions) (e : BuildEnv).
Abbreviation V := (M pipeline VEffect).

Definition inputSink (mc : MediaConfig) : chain :=
  CountSamples (Resample (ci_SampleRate (Audio mc)) (LatencyExit (Nop RoomAudio))).

Definition setupInput (mc : MediaConfig) : V (option error) :=
  let sink := inputSink mc in
  match (if LogSignalChanges o then be_signal e else None) with
  | Some err => do* memit (VClose sink) in mreturn (Some err)
  | None =>
      let sink := if LogSignalChanges o then Signal "input" sink else sink in
      match be_decode e with
      | Some err => do* memit (VClose sink) in mreturn (Some err)
      | None =>
          let name := ci_Name (Audio mc) in
          let audioType :=
            CountPackets (StatsHandler name (Serialized (SilenceFill (Decode (ci_Type (Audio mc)) sink)))) in
          let dtmf := match DTMF mc with Some d => if ci_Type d =? 0 then None else Some d | None => None end in
          let dtmfType := (fun d => CountPackets (StatsHandler (ci_Name d) FuncHandler)) <$> dtmf in
          let routes := (ci_Type (Audio mc), name) ::
                        match dtmf with Some d => [(ci_Type d, ci_Name d)] | None => [] end in
          let hnd := Nop (Mux routes) in
          let hnd := if EnableJitterBuffer o then Jitter hnd else hnd in
          let hnd := LatencyEntry (StreamStats hnd) in
          do* mmodify (set_input audioType dtmfType hnd) in
          mreturn None
      end
  end.

(** Whether audio is switched off while DTMF is sent. *)
Definition dropDuringDTMF (mc : MediaConfig) (d : CodecInfo) : bool :=
  DropAudioDuringDTMF o || negb (ci_RTPClockRate d =? ci_RTPClockRate (Audio mc)).

Definition setupOutput (mc : MediaConfig) (incomingSampleRate : Z) : V (option error) :=
  do* mmodify (fun p => set_output true (dtmfMixer p) (audioToPort p) (mixerToPort p) (dtmfToPort p) p) in
  match be_openWrite e with
  | Some err => mreturn (Some (EWrap "failed to open write stream: " err ""))
  | None =>
      let w := SeqStream (ci_Type (Audio mc)) (StatsWriter (LatencyExit NetStream)) in
      match be_encode e with
      | Some err => mreturn (Some err)
      | None =>
          let audioOut := CountSamples (Encode w) in
          match (if LogSignalChanges o then be_signal e else None) with
          | Some err => do* memit (VClose audioOut) in mreturn (Some err)
          | None =>
              let audioOut := if LogSignalChanges o then Signal "mixed" audioOut else audioOut in
              let audioOut := LatencyEntry (Resample incomingSampleRate audioOut) in
              do* mmodify (fun p => set_output (looping p) (dtmfMixer p) (Some audioOut) (Some audioOut)
                                      (dtmfToPort p) p) in
              match DTMF mc with
              | None => mreturn None
              | Some d =>
                  if ci_Type d =? 0 then mreturn None
                  else
                    let drop := dropDuringDTMF mc d in
                    let m := if drop then AudioSwitch audioOut else audioOut in
                    do* mmodify (fun p => set_output (looping p) (dtmfMixer p) (audioToPort p) (Some m)
                                            (dtmfToPort p) p) in
                    if DTMFAudio o && negb drop then
                      match be_mixer e with
                      | Some err => mreturn (Some err)
                      | None =>
                          do* mmodify (fun p => set_output (looping p) true (audioToPort p) (Some (MixerInput m))
                                                  (Some (Some (MixerInput m), drop)) p) in
                          mreturn None
                      end
                    else
                      do* mmodify (fun p => set_output (looping p) (dtmfMixer p) (audioToPort p) (mixerToPort p)
                                              (Some (None, drop)) p) in
                      mreturn None
              end
          end
      end
  end.

(** The socket's side of [init]: where to send. *)
Definition initPort (now : Z) (mc : MediaConfig) (u : udpConn) : udpConn :=
  let u := SetDst now (Remote mc) u in
  if IgnoreLocalAddrInSDP o && IsPrivate (ap_Addr (Remote mc)) then SetSymmetric true u else u.

Definition init (mc : MediaConfig) (incomingSampleRate : Z) : V (option error) :=
  match (match Crypto mc with Some _ => be_session e | None => None end) with
  | Some err => mreturn (Some (EWrap "failed to setup pipeline session: " err ""))
  | None =>
      do* memit VSession in
      do* mmodify set_sess in
      let* r := setupInput mc in
      match r with
      | Some err => mreturn (Some (EWrap "failed to setup pipeline input: " err ""))
      | None =>
          let* r := setupOutput mc incomingSampleRate in
          match r with
          | Some err => mreturn (Some (EWrap "failed to setup pipeline output: " err ""))
          | None => mreturn None
          end
      end
  end.

Definition closeOpt (w : option chain) : V unit :=
  match w with Some w => memit (VClose w) | None => mreturn tt end.

(** [pl_Close]: [Close] of the pipeline. *)
Definition pl_Close : V unit :=
  do* memit VCancel in
  do* mmodify (fun p => {| canceled := true; sess := sess p; looping := looping p; muxToRoom := muxToRoom p;
                           dtmfMixer := dtmfMixer p; audioToRoom := audioToRoom p; dtmfToRoom := dtmfToRoom p;
                           hasDTMFHandler := hasDTMFHandler p; audioToPort := audioToPort p;
                           mixerToPort := mixerToPort p; dtmfToPort := dtmfToPort p |}) in
  let* p := mget in
  do* mwhen (sess p) (do* memit VSessionClose in memit VLoopWait) in
  do* mmodify (fun p => {| canceled := canceled p; sess := sess p; looping := false; muxToRoom := None;
                           dtmfMixer := dtmfMixer p; audioToRoom := audioToRoom p; dtmfToRoom := dtmfToRoom p;
                           hasDTMFHandler := hasDTMFHandler p; audioToPort := audioToPort p;
                           mixerToPort := mixerToPort p; dtmfToPort := dtmfToPort p |}) in
  do* closeOpt (muxToRoom p) in
  do* closeOpt (audioToRoom p) in
  do* closeOpt (dtmfToRoom p) in
  do* mwhen (dtmfMixer p) (memit VMixerStop) in
  do* closeOpt (audioToPort p) in
  closeOpt (match dtmfToPort p with Some (Some w, _) => Some w | _ => None end).

(** The pipeline, or the error after everything was closed again. *)
Definition NewMediaPortPipeline (mc : MediaConfig) (incomingSampleRate : Z)
    : (error + pipeline) * list VEffect :=
  let '(r, p, t) := init mc incomingSampleRate newPipeline in
  match r with
  | None => (inr p, t)
  | Some err => let '(_, _, t') := pl_Close p in (inl err, t ++ t')
  end.

(** The writers the port hands out. *)
Definition GetConnectors (p : pipeline) : option chain * option chain :=
  match audioToPort p with
  | None => (None, None)
  | Some _ =>
      match dtmfToPort p with
      | None => (Nop <$> mixerToPort p, None)
      | Some (w, _) => (Nop <$> mixerToPort p, Some (Nop (default FuncHandler w)))
      end
  end.
End pipeline.

(** ** Reading packets *)
Inductive ReadEvent :=
| REof
| RErr (err : error)
| RPacket (n : Z) (hasMux : bool) (handled : option error).
  (* the size, whether there is a handler, and what the handler returns *)

Record readStats := { Packets : Z; IgnoredPackets : Z; InputPackets : Z; FailedPackets : Z }.

Definition addStats (p i n f : Z) (s : readStats) : readStats :=
  {| Packets := u64 (Packets s + p); IgnoredPackets := u64 (IgnoredPackets s + i);
     InputPackets := u64 (InputPackets s + n); FailedPackets := u64 (FailedPackets s + f) |}.

Definition maxErrors : Z := 50.

(** One turn of [rtpReadLoop]: the number of failures in a row, or the end of the loop. *)
Definition readTurn `{MediaSDK} (ev : ReadEvent) (errorCnt : Z) (s : readStats) : option Z * readStats :=
  match ev with
  | REof | RErr _ => (None, s)
  | RPacket n hasMux handled =>
      if MTUSize <? n then (Some errorCnt, addStats 1 1 0 0 s)
      else if negb hasMux then (Some errorCnt, addStats 1 1 0 0 s)
      else
        match handled with
        | Some _ =>
            let errorCnt := errorCnt + 1 in
            (if maxErrors <=? errorCnt then None else Some errorCnt, addStats 1 0 0 1 s)
        | None => (Some 0, addStats 1 0 1 0 s)
        end
  end.

(** The loop over the events: whether it has ended, and the events it did not read. *)
Fixpoint rtpReadLoop `{MediaSDK} (l : list ReadEvent) (errorCnt : Z) (s : readStats)
    : bool * list ReadEvent * readStats :=
  match l with
  | [] => (false, [], s)
  | ev :: l' =>
      match readTurn ev errorCnt s with
      | (None, s') => (true, l', s')
      | (Some cnt, s') => rtpReadLoop l' cnt s'
      end
  end.

(** ** DTMF from the caller *)
(** A telephone event: its code and its digit. *)
Record Event := { ev_Code : Z; ev_Digit : ascii }.

Definition eventID (ts code : Z) : Z := Z.lor (u64 (Z.shiftl ts 8)) code.

Definition noEvent : Z := 2 ^ 64 - 1.

(** [ev]: what [dtmf.Decode] makes of the payload.  The digit to write, if any. *)
Definition handleEventRTP (h : Header) (ev : option Event) (lastDTMFEvent : Z) : option ascii * Z :=
  match ev with
  | None => (None, lastDTMFEvent)
  | Some ev =>
      let id := eventID (Timestamp h) (ev_Code ev) in
      if id =? lastDTMFEvent then (None, lastDTMFEvent) else (Some (ev_Digit ev), id)
  end.

Fixpoint handleEvents (l : list (Header * option Event)) (last : Z) : list ascii :=
  match l with
  | [] => []
  | (h, ev) :: l' =>
      let '(d, last') := handleEventRTP h ev last in
      match d with Some d => [d] | None => [] end ++ handleEvents l' last'
  end.

(** ** DTMF to the caller *)
(** [dtmf.Write], and the writer the audio of the call goes to meanwhile, if there is a
    switch. *)
Inductive WEffect := WSend (audio : option (option chain)) | WPanic.

(** The audio switch, if there is one, with the writer it holds. *)
Record dtmfOutWriter := { audioSwitch : option (option chain) }.

(** [tone]: [dtmf.Tone] knows the byte; [runes]: the code points of the string with their
    positions, as a range over it gives them. *)
Definition invalidRunes (tone : Z -> bool) (runes : list (Z * Z)) : list (Z * Z) :=
  List.filter (fun '(_, r) => negb (r =? 119) && negb (tone (u8 r))) runes.

Definition sendDigits (send : option error) : M dtmfOutWriter WEffect (option error) :=
  (let* w := mget in
   match audioSwitch w with
   | None => do* memit (WSend None) in mreturn send
   | Some prevWriter =>
       do* mput {| audioSwitch := Some None |} in
       do* memit (WSend (Some None)) in
       let* w' := mget in
       do* mput {| audioSwitch := Some prevWriter |} in
       do* match audioSwitch w' with Some (Some _) => memit WPanic | _ => mreturn tt end in
       mreturn send
   end)%go.

Definition dtmf_WriteSample (tone : Z -> bool) (runes : list (Z * Z)) (send : option error)
    : M dtmfOutWriter WEffect (option error) :=
  match runes with
  | [] => mreturn (Some (EText "empty DTMF sample"))
  | _ =>
      match invalidRunes tone runes with
      | [] => sendDigits send
      | bad =>
          mreturn (Some (EText (Join newline
            (map (fun '(i, r) => "invalid DTMF sample " +:+ Itoa r +:+ " at position " +:+ Itoa i) bad))))
      end
  end.

(** ** Theorems *)

(** *** The socket *)
Lemma SetDst_write now a u :
  ap_IsValid a = true -> IsUnspecified (ap_Addr a) = false -> Write (SetDst now a u) = Some a.
Proof.
  intros Hv Hu. unfold SetDst, Write. rewrite Hv.
  destruct (validPrev (dst u)) as [prev|]; [destruct (decide (prev = a))|]; cbn; by rewrite Hu.
Qed.

(** Where media goes.  After a packet from an address, an open symmetric connection sends
    to that address, unless the peer is on hold; on hold nothing is sent whatever
    arrives; and without symmetric RTP the destination never follows the packets. *)
Theorem symmetric_rtp now r closedAfter u :
  closed u = false -> ur_err r = None -> ap_IsValid (ur_addr r) = true ->
  IsUnspecified (ap_Addr (ur_addr r)) = false ->
  let onHold := match dst u with Some d => IsUnspecified (ap_Addr d) | None => false end in
  Write (Read now r closedAfter u).2 =
  if symmetric u then if onHold then None else Some (ur_addr r) else Write u.
Proof.
  intros Hc He Hv Hu. cbv zeta. unfold Read. rewrite Hc, He, andb_false_r. cbn [snd].
  match goal with |- context [symmetric ?x] => set (u1 := x) end.
  assert (symmetric u1 = symmetric u /\ dst u1 = dst u) as [-> Hd].
  { unfold u1. cbn [src set_flags]. destruct (validPrev (src u)) as [prev|]; [destruct (decide (prev = ur_addr r))|];
      [done| |done]. by destruct (changePrintInterval <? _). }
  clearbody u1. destruct (symmetric u).
  - rewrite Hd. destruct (dst u) as [d|] eqn:Ed.
    + destruct (IsUnspecified (ap_Addr d)) eqn:Eu.
      { unfold Write. by rewrite Hd, Eu. }
      destruct (negb (ap_IsValid d) || negb (bool_decide (d = ur_addr r))) eqn:Eb.
      * by apply SetDst_write.
      * apply orb_false_iff in Eb as [_ Eb%negb_false_iff%bool_decide_eq_true]. subst d.
        unfold Write. by rewrite Hd, Eu.
    + by apply SetDst_write.
  - unfold Write. by rewrite Hd.
Qed.

Definition exAddr (n : Z) : AddrPort := {| ap_Addr := Addr4 n; ap_Port := 4000 |}.

Lemma symmetric_rtp_witness :
  Write (Read 0 {| ur_n := 100; ur_addr := exAddr 7; ur_err := None |} false
           (SetDst 0 (exAddr 5) (newUDPConn true))).2 = Some (exAddr 7).
Proof.
  exact (symmetric_rtp 0 {| ur_n := 100; ur_addr := exAddr 7; ur_err := None |} false
           (SetDst 0 (exAddr 5) (newUDPConn true)) eq_refl eq_refl eq_refl eq_refl).
Defined.

(** A change of the source that is logged is counted twice. *)
Theorem source_change_double now n a b :
  a <> b -> ap_IsValid a = true -> changePrintInterval < i64 now ->
  let u := set_src a 0 0 (newUDPConn false) in
  srcChangeCount (Read now {| ur_n := n; ur_addr := b; ur_err := None |} false u).2 = 2.
Proof.
  intros Hab Hv Hn. unfold Read. cbn. rewrite Hv, decide_False by done. cbn. rewrite Z.sub_0_r.
  by rewrite (proj2 (Z.ltb_lt _ _)) by done.
Qed.

(** *** Building and closing *)
Definition isSession (ef : VEffect) : bool := match ef with VSession => true | _ => false end.
Definition isSessionClose (ef : VEffect) : bool := match ef with VSessionClose => true | _ => false end.

Section insulation.
Context (o : MediaOptions) (e : BuildEnv).

(** No room's end is among those that closing the chain closes. *)
Definition insulated (w : chain) : Prop := (RoomAudio ∉ ends w) /\ (RoomDTMF ∉ ends w).

Definition closesOK (ef : VEffect) : Prop := match ef with VClose w => insulated w | _ => True end.

(** The chains of a pipeline, as far as they are built. *)
Record chainsOK (p : pipeline) : Prop := {
  ok_mux : forall w, muxToRoom p = Some w -> insulated w;
  ok_audioIn : forall w, audioToRoom p = Some w -> insulated w;
  ok_dtmfIn : forall w, dtmfToRoom p = Some w -> insulated w;
  ok_audioOut : forall w, audioToPort p = Some w -> insulated w;
  ok_dtmfOut : forall w b, dtmfToPort p = Some (Some w, b) -> insulated w;
}.

Ltac insul := unfold insulated; cbn; set_solver.

Lemma newPipeline_ok : chainsOK newPipeline.
Proof. by split. Qed.

Lemma setupInput_ok mc p :
  chainsOK p -> mspec (setupInput o e mc) p (fun _ p' t => Forall closesOK t /\ chainsOK p' /\ sess p' = sess p).
Proof.
  intros Hp. unfold setupInput, inputSink.
  destruct (if LogSignalChanges o then be_signal e else None).
  { repeat mstep. split; [|done]. repeat constructor. all: cbn; insul. }
  destruct (be_decode e).
  { repeat mstep. split; [|done]. repeat constructor; destruct (LogSignalChanges o); cbn; insul. }
  repeat mstep. cbn [app]. split; [done|]. split; [|done].
  split; cbn; try (apply Hp).
  - intros w [= <-]. destruct (EnableJitterBuffer o); insul.
  - intros w [= <-]. destruct (LogSignalChanges o); insul.
  - intros w Hw. destruct (DTMF mc) as [d|]; [|done]. destruct (ci_Type d =? 0); [done|]. cbn in Hw. simplify_eq.
    insul.
Qed.

Lemma set_output_ok loop mix a m d p :
  chainsOK p -> (forall w, a = Some w -> insulated w) -> (forall w b, d = Some (Some w, b) -> insulated w) ->
  chainsOK (set_output loop mix a m d p) /\ sess (set_output loop mix a m d p) = sess p.
Proof. intros [? ? ? ? ?] Ha Hd. split; [|done]. split; auto. Qed.

Lemma setupOutput_ok mc rate p :
  chainsOK p -> dtmfToPort p = None ->
  mspec (setupOutput o e mc rate) p (fun _ p' t => Forall closesOK t /\ chainsOK p' /\ sess p' = sess p).
Proof.
  intros Hp Hd. unfold setupOutput. mstep. mstep. cbn [app].
  set (p1 := set_output _ _ _ _ _ p).
  assert (chainsOK p1 /\ sess p1 = sess p) as [H1 S1].
  { apply set_output_ok; [done|apply Hp|]. rewrite Hd. done. }
  assert (dtmfToPort p1 = None) as D1 by exact Hd. clearbody p1. rewrite <- S1. clear p Hp Hd S1.
  destruct (be_openWrite e); [by mstep|]. destruct (be_encode e); [by mstep|].
  destruct (if LogSignalChanges o then be_signal e else None).
  { repeat mstep. split; [|done]. repeat constructor; cbn; insul. }
  set (out := LatencyEntry (Resample rate _)).
  assert (insulated out) as Hout by (unfold out; destruct (LogSignalChanges o); insul). clearbody out.
  mstep. mstep. cbn [app]. set (p2 := set_output _ _ _ _ _ p1).
  assert (chainsOK p2 /\ sess p2 = sess p1) as [H2 S2].
  { apply set_output_ok; [done|by intros ? [= <-]|]. rewrite D1. done. }
  assert (audioToPort p2 = Some out /\ dtmfToPort p2 = None) as [A2 D2] by done. clearbody p2.
  rewrite <- S2. clear p1 H1 D1 S2.
  destruct (DTMF mc) as [d|]; [|by mstep]. destruct (ci_Type d =? 0); [by mstep|].
  set (m := if dropDuringDTMF o mc d then AudioSwitch out else out).
  assert (insulated m) as Hm by (unfold m; by destruct (dropDuringDTMF o mc d)). clearbody m.
  mstep. mstep. cbn [app]. set (p3 := set_output _ _ _ _ _ p2).
  assert (chainsOK p3 /\ sess p3 = sess p2) as [H3 S3].
  { apply set_output_ok; [done|by rewrite A2; intros ? [= <-]|]. rewrite D2. done. }
  assert (audioToPort p3 = Some out) as A3 by done. clearbody p3. rewrite <- S3. clear p2 H2 A2 D2 S3.
  destruct (DTMFAudio o && negb (dropDuringDTMF o mc d)); [destruct (be_mixer e); [by mstep|]|];
    repeat mstep; cbn [app]; (split; [done|]); apply set_output_ok; try done; try (rewrite A3; by intros ? [= <-]);
    intros w b [= <- _]; done.
Qed.

Lemma pl_Close_ok p :
  chainsOK p -> mspec pl_Close p (fun _ _ t => Forall closesOK t /\
    countb isSessionClose t = (if sess p then 1 else 0)%nat /\ countb isSession t = 0%nat).
Proof.
  intros [H1 H2 H3 H4 H5]. unfold mspec, pl_Close, closeOpt, mwhen, mbind', mget, mmodify, memit, mreturn.
  cbn. destruct (sess p), (muxToRoom p), (audioToRoom p), (dtmfToRoom p), (dtmfMixer p), (audioToPort p),
    (dtmfToPort p) as [[[w|] b]|]; cbn; (split; [|done]);
    repeat (apply List.Forall_cons; [first [exact I|by apply H1|by apply H2|by apply H3|by apply H4|by eapply H5]|]);
    apply List.Forall_nil.
Qed.
End insulation.

(** Effects other than opening and closing a session. *)
Definition noSession (ef : VEffect) : Prop := isSession ef = false /\ isSessionClose ef = false.

Lemma noSession_counts {A} (m : M pipeline VEffect A) p :
  mtrace noSession m -> mspec m p (fun _ _ t => countb isSession t = 0%nat /\ countb isSessionClose t = 0%nat).
Proof.
  intros Hm. eapply mspec_mono; [apply Hm|]. cbv beta. intros _ _ t Ht.
  split; apply countb_Forall; apply (list.Forall_impl _ _ _ Ht); by intros ? [? ?].
Qed.

Lemma init_ok o e mc rate :
  mspec (init o e mc rate) newPipeline (fun r p t =>
    Forall closesOK t /\ chainsOK p /\ countb isSession t = (if sess p then 1 else 0)%nat /\
    countb isSessionClose t = 0%nat /\ (r = None -> sess p = true)).
Proof.
  unfold init. destruct (match Crypto mc with Some _ => be_session e | None => None end).
  { mstep. split_and!; try done; apply newPipeline_ok. }
  mstep. mstep. mstep. mstep. mstep. cbn [app].
  assert (mtrace noSession (setupInput o e mc)) as Ti by (unfold setupInput; repeat (trace_step || done)).
  assert (mtrace noSession (setupOutput o e mc rate)) as To by (unfold setupOutput; repeat (trace_step || done)).
  eapply mspec_mono; [apply mspec_and; [apply mspec_and; [apply setupInput_ok|apply (noSession_counts _ _ Ti)]|]|].
  { by split. }
  { unfold setupInput. instantiate (1 := fun _ p' _ => dtmfToPort p' = None).
    repeat first [mstep | case_match | done]. }
  cbv beta. intros r p t [[(F1 & C1 & S1) [N1 N2]] D1]. destruct r as [err|].
  { mstep. rewrite app_nil_r, S1. cbn [sess set_sess]. rewrite countb_cons, (countb_cons isSessionClose), N1, N2.
    split_and!; try done. by constructor. }
  mstep. eapply mspec_mono; [apply mspec_and; [apply setupOutput_ok; [exact C1|exact D1]|apply (noSession_counts _ _ To)]|].
  cbv beta. intros r' p' t' [(F2 & C2 & S2) [N3 N4]].
  assert (forall q : option error, Forall closesOK (VSession :: t ++ t' ++ []) /\ chainsOK p' /\
     countb isSession (VSession :: t ++ t' ++ []) = (if sess p' then 1 else 0)%nat /\
     countb isSessionClose (VSession :: t ++ t' ++ []) = 0%nat /\ (q = None -> sess p' = true)) as Hq.
  { intros q. rewrite S2, S1. cbn [sess set_sess]. rewrite !countb_cons, !countb_app, N1, N2, N3, N4.
    split_and!; try done. constructor; [done|]. rewrite !Forall_app. done. }
  destruct r' as [err|]; mstep; apply Hq.
Qed.

(** A pipeline owns its session and nothing of the room.  Whatever the SDK's
    constructors return: a pipeline that fails to build has closed the session it
    opened; a pipeline that is built has one open session, and closing it closes that
    session; neither ever closes the room's writers; and closing the writers it hands
    out closes nothing of the pipeline. *)
Theorem pipeline_owns_session o e mc rate :
  let '(r, t) := NewMediaPortPipeline o e mc rate in
  Forall closesOK t /\
  match r with
  | inl _ => countb isSession t = countb isSessionClose t
  | inr p =>
      countb isSession t = 1%nat /\ countb isSessionClose t = 0%nat /\
      mspec pl_Close p (fun _ _ t' => Forall closesOK t' /\ countb isSessionClose t' = 1%nat) /\
      forall w, (GetConnectors p).1 = Some w \/ (GetConnectors p).2 = Some w -> ends w = []
  end.
Proof.
  unfold NewMediaPortPipeline. pose proof (init_ok o e mc rate) as Hi. unfold mspec in Hi.
  destruct (init o e mc rate newPipeline) as [[r p] t]. destruct Hi as (F & C & N1 & N2 & Hs).
  pose proof (pl_Close_ok p C) as Hc. destruct r as [err|].
  - unfold mspec in Hc. destruct (pl_Close p) as [[u p'] t']. destruct Hc as (F' & N' & N3).
    split; [by apply Forall_app|]. rewrite !countb_app, N1, N2, N', N3. lia.
  - rewrite (Hs eq_refl) in *. split_and!; [done..| |].
    + eapply mspec_mono; [exact Hc|]. cbv beta. tauto.
    + intros w [Hw|Hw]; unfold GetConnectors in Hw; destruct (audioToPort p); cbn in Hw; try done;
        destruct (dtmfToPort p) as [[x b]|]; cbn in Hw; try done.
      all: try (destruct (mixerToPort p); cbn in Hw; [|done]). all: by simplify_eq.
Qed.

(** *** Reading *)

(** Every packet the loop counts was ignored, failed or passed on. *)
Definition countsOK (s : readStats) : Prop :=
  Packets s = u64 (IgnoredPackets s + InputPackets s + FailedPackets s).

Lemma wrapU_add3 w a b c : wrapU w (wrapU w a + wrapU w b + wrapU w c) = wrapU w (a + b + c).
Proof.
  rewrite wrapU_add_r, <- wrapU_add_l, wrapU_add_l. rewrite <- Z.add_assoc, wrapU_add_l, Z.add_assoc.
  rewrite (Z.add_comm a), <- Z.add_assoc, wrapU_add_l. f_equal. lia.
Qed.

Lemma addStats_ok p i n f s : p = i + n + f -> countsOK s -> countsOK (addStats p i n f s).
Proof.
  unfold countsOK, addStats. cbn. intros -> ->. rewrite wrapU_add_l, wrapU_add3. f_equal. lia.
Qed.

(** The packets of a stream are accounted for.  At the end of the loop, and at any point
    of it, the packets read are those ignored, those that failed and those passed on,
    modulo 2^64. *)
Theorem rtpReadLoop_accounts `{MediaSDK} l errorCnt s :
  countsOK s -> countsOK (rtpReadLoop l errorCnt s).2.
Proof.
  revert errorCnt s. induction l as [|ev l IH]; intros cnt s Hs; [done|]. cbn [rtpReadLoop].
  assert (countsOK (readTurn ev cnt s).2) as Ht.
  { unfold readTurn. destruct ev as [| |n hm h]; [done..|]. destruct (MTUSize <? n); [by apply addStats_ok|].
    destruct (negb hm); [by apply addStats_ok|]. destruct h; by apply addStats_ok. }
  destruct (readTurn ev cnt s) as [[c|] s']; auto.
Qed.

Definition isFailure `{MediaSDK} (ev : ReadEvent) : bool :=
  match ev with RPacket n true (Some _) => n <=? MTUSize | _ => false end.
Definition isPacket (ev : ReadEvent) : bool := match ev with RPacket _ _ _ => true | _ => false end.

(** As long as reads succeed, the loop ends only after [maxErrors] packets that failed. *)
Theorem rtpReadLoop_patient `{MediaSDK} l errorCnt s rest s' :
  0 <= errorCnt -> forallb isPacket l = true -> rtpReadLoop l errorCnt s = (true, rest, s') ->
  maxErrors <= errorCnt + Z.of_nat (countb isFailure l).
Proof.
  revert errorCnt s. induction l as [|ev l IH]; intros cnt s H0 Hp Hl; [done|].
  cbn [forallb] in Hp. apply andb_true_iff in Hp as [Hev Hp]. destruct ev as [| |n hm h]; [done..|].
  rewrite countb_cons. cbn [rtpReadLoop readTurn isFailure] in *.
  destruct (Z.ltb_spec MTUSize n) as [Hn|Hn].
  { apply IH in Hl; [|lia|done]. lia. }
  destruct hm; cbn [negb] in Hl; [|apply IH in Hl; [|lia|done]; lia].
  destruct h as [err|]; [|apply IH in Hl; [|lia|done]; lia].
  rewrite (proj2 (Z.leb_le n _)) by lia. destruct (Z.leb_spec maxErrors (cnt + 1)); [lia|].
  apply IH in Hl; [|lia|done]. lia.
Qed.

(** *** DTMF *)
Lemma eventID_arith ts code :
  0 <= ts < 2 ^ 32 -> 0 <= code < 2 ^ 8 -> eventID ts code = ts * 2 ^ 8 + code.
Proof.
  intros Ht Hc. unfold eventID. rewrite Z.shiftl_mul_pow2, wrapU_id by lia.
  rewrite <- Z.add_lor_land. enough (Z.land (ts * 2 ^ 8) code = 0) by lia.
  apply Z.bits_inj'. intros n Hn. rewrite Z.land_spec, Z.bits_0.
  destruct (Z.lt_ge_cases n 8).
  - by rewrite Z.mul_pow2_bits_low by lia.
  - rewrite (Z.bits_above_log2 code n), andb_false_r; [done|lia|].
    destruct (decide (code = 0)) as [->|]; [cbn; lia|]. apply Z.log2_lt_pow2; [lia|].
    apply Z.lt_le_trans with (2 ^ 8); [lia|]. apply Z.pow_le_mono_r; lia.
Qed.

(** The reference: the events in order, without those that repeat the time stamp and the
    code of the one before. *)
Fixpoint distinctEvents (prev : option (Z * Z)) (l : list (Header * Event)) : list ascii :=
  match l with
  | [] => []
  | (h, ev) :: l' =>
      let cur := (Timestamp h, ev_Code ev) in
      (if decide (prev = Some cur) then [] else [ev_Digit ev]) ++ distinctEvents (Some cur) l'
  end.

Definition decoded (l : list (Header * option Event)) : list (Header * Event) :=
  omap (fun '(h, ev) => (h,.) <$> ev) l.

Definition idOf (prev : option (Z * Z)) : Z :=
  match prev with Some (ts, code) => eventID ts code | None => noEvent end.

Definition eventOK (x : Header * option Event) : Prop :=
  0 <= Timestamp x.1 < 2 ^ 32 /\ forall ev, x.2 = Some ev -> 0 <= ev_Code ev < 2 ^ 8.

Lemma idOf_inj prev ts code :
  (forall t c, prev = Some (t, c) -> 0 <= t < 2 ^ 32 /\ 0 <= c < 2 ^ 8) ->
  0 <= ts < 2 ^ 32 -> 0 <= code < 2 ^ 8 -> (eventID ts code = idOf prev <-> prev = Some (ts, code)).
Proof.
  intros Hp Ht Hc. rewrite eventID_arith by done. destruct prev as [[t c]|]; cbn [idOf].
  - destruct (Hp t c eq_refl). rewrite eventID_arith by done. split; [|by intros [= -> ->]].
    intros E. assert (ts = t) by lia. assert (code = c) by lia. congruence.
  - unfold noEvent. split; [lia|done].
Qed.

Lemma handleEvents_distinct l prev :
  Forall eventOK l -> (forall t c, prev = Some (t, c) -> 0 <= t < 2 ^ 32 /\ 0 <= c < 2 ^ 8) ->
  handleEvents l (idOf prev) = distinctEvents prev (decoded l).
Proof.
  intros Hl. revert prev. induction Hl as [|[h [ev|]] l [Ht Hc] Hl IH]; intros prev Hp; [done| |].
  - cbn in Ht, Hc. specialize (Hc ev eq_refl). cbn [handleEvents handleEventRTP decoded omap list_omap fmap option_fmap
      option_map distinctEvents].
    destruct (Z.eqb_spec (eventID (Timestamp h) (ev_Code ev)) (idOf prev)) as [E|E].
    + pose proof (proj1 (idOf_inj prev _ _ Hp Ht Hc) E) as ->. rewrite decide_True by done. cbn [app]. by apply IH.
    + rewrite decide_False by (intros F; by apply E, idOf_inj). cbn [app]. f_equal.
      apply (IH (Some (Timestamp h, ev_Code ev))). intros t c [= <- <-]. done.
  - cbn [handleEvents handleEventRTP decoded omap list_omap fmap option_fmap option_map app]. by apply IH.
Qed.

(** DTMF digits from the caller.  The digits written to the room are exactly those of the
    telephone events in order, an event that repeats the time stamp and code of the one
    before (a retransmission, or the continuation of the same key) counting once and a
    payload that cannot be decoded not at all. *)
Theorem handleEvents_exact l :
  Forall eventOK l -> handleEvents l noEvent = distinctEvents None (decoded l).
Proof. intros Hl. by apply (handleEvents_distinct l None). Qed.

Definition exEvent (ts code : Z) (d : ascii) : Header * option Event :=
  ({| hdr_PayloadType := 101; SequenceNumber := 0; Timestamp := ts |}, Some {| ev_Code := code; ev_Digit := d |}).

(** The key 5 twice, sent three times each, then 6 with the same time stamp. *)
Lemma handleEvents_exact_witness :
  let l := [exEvent 160 5 "5"; exEvent 160 5 "5"; exEvent 160 5 "5"; exEvent 800 5 "5"; exEvent 800 6 "6"] in
  handleEvents l noEvent = ["5"; "5"; "6"]%char.
Proof.
  cbv zeta. rewrite handleEvents_exact; [reflexivity|].
  repeat (apply List.Forall_cons; [split; [cbn; lia|intros ev [= <-]; cbn; lia]|]). apply List.Forall_nil.
Defined.

(** DTMF to the caller.  Digits are sent only if every code point of the string is a pause
    or a DTMF tone; with an audio switch the call's audio is disconnected while they are
    sent, and connected to the same writer again when the call returns, also after an
    error. *)
Theorem dtmf_WriteSample_audio tone runes send w :
  mspec (dtmf_WriteSample tone runes send) w (fun r w' t =>
    w' = w /\
    (t = [] /\ r <> None \/
     t = [WSend (match audioSwitch w with Some _ => Some None | None => None end)] /\ r = send /\ runes <> [] /\
     Forall (fun x => x.2 = 119 \/ tone (u8 x.2) = true) runes)).
Proof.
  unfold dtmf_WriteSample. destruct runes as [|x runes]; [mstep; auto|].
  destruct (invalidRunes tone (x :: runes)) as [|bad rest] eqn:E; [|by mstep; auto].
  assert (Forall (fun y => y.2 = 119 \/ tone (u8 y.2) = true) (x :: runes)) as Hv.
  { apply list.Forall_forall. intros [i r] Hy. cbn. destruct (Z.eqb_spec r 119) as [|Hn]; [by left|].
    destruct (tone (u8 r)) eqn:Et; [by right|]. exfalso. apply list_elem_of_In in Hy.
    assert (In (i, r) (invalidRunes tone (x :: runes))) as Hf.
    { apply List.filter_In. split; [done|]. by rewrite (proj2 (Z.eqb_neq _ _) Hn), Et. }
    by rewrite E in Hf. }
  unfold sendDigits. mstep. mstep. destruct w as [[prev|]]; cbn [audioSwitch]; repeat mstep; cbn; auto 6.
Qed.

(** The check is on the low byte of a code point: one beyond the ASCII range passes if its
    low byte is a digit, such as U+0131. *)
Theorem dtmf_rune_truncated tone : tone 49 = true -> invalidRunes tone [(0, 305)] = [].
Proof. intros Ht. unfold invalidRunes. cbn. change (u8 305) with 49. by rewrite Ht. Qed.
