(* ===== verification/MediaChain.v ===== *)
(** * What the chains of a pipeline do

    [MediaPipeline] builds the chains of handlers and writers of [pkg/sip/media_pipeline.go]; here
    a chain is run.  The stages are those of [pkg/sip/media.go] (counters, metrics),
    [media_latency.go] (the shared entry time and the measurement at the exit),
    [silence_filler.go] and [signal_logger.go]; codecs, resampling, jitter buffer and mixer are of
    the SDK and arguments.  Also the options of the signal logger and the loop that accepts
    streams. *)

From stdpp Require Import base tactics list gmap strings option.
From Stdlib Require Import ZArith QArith Ascii Lia Lqa.
From S2P Require Import Prelude GoStd GoErr NetIP MediaStats MediaPipeline.
Import strings strconv.
#[local] Open Scope Z_scope.

(** ** Recording a latency, without others at the same time *)
Definition Record_ (d : Z) (s : latency.LatencyStats) : latency.LatencyStats :=
  let ns := u64 d in
  {| latency.Count := u64 (latency.Count s + 1); latency.SumNs := u64 (latency.SumNs s + ns);
     latency.MaxNs := if ns <=? latency.MaxNs s then latency.MaxNs s else ns |}.

(** ** Running a chain *)

(** What goes through a chain: RTP packets, or frames of samples. *)
Inductive Item := IPacket (h : Header) (payload : list Z) | ISample (sample : list Z).

(** The counters, the shared entry time, the state of the stages, and how often the clock was
    read. *)
Record mworld := {
  mw_entry : Z;
  mw_lat : latency.LatencyStats;
  mw_stream : stream.rtpStreamStats;
  mw_audioPackets : Z; mw_audioBytes : Z;
  mw_dtmfPackets : Z; mw_dtmfBytes : Z;
  mw_frames : Z; mw_samples : Z;
  mw_filler : silence.silenceFiller;
  mw_signal : signal.SignalLogger;
  mw_lastDTMF : Z;
  mw_tick : nat;
}.

Inductive MEffect :=
| MRecv (typ : string)                       (* CallMonitor.RTPPacketRecv *)
| MSent (typ : string)
| MRoom (sample : list Z)                    (* to the room *)
| MKey (digit : ascii)
| MNet (h : Header) (payload : list Z)       (* to the peer *)
| MMix (sample : list Z)                     (* to the mixer *)
| MSignal (b : bool).                        (* logged *)

Definition with_lat (entry : Z) (l : latency.LatencyStats) (s : mworld) : mworld :=
  {| mw_entry := entry; mw_lat := l; mw_stream := mw_stream s; mw_audioPackets := mw_audioPackets s;
     mw_audioBytes := mw_audioBytes s; mw_dtmfPackets := mw_dtmfPackets s; mw_dtmfBytes := mw_dtmfBytes s;
     mw_frames := mw_frames s; mw_samples := mw_samples s; mw_filler := mw_filler s; mw_signal := mw_signal s;
     mw_lastDTMF := mw_lastDTMF s; mw_tick := mw_tick s |}.
Definition with_counts (st : stream.rtpStreamStats) (ap ab dp db f n : Z) (s : mworld) : mworld :=
  {| mw_entry := mw_entry s; mw_lat := mw_lat s; mw_stream := st; mw_audioPackets := ap; mw_audioBytes := ab;
     mw_dtmfPackets := dp; mw_dtmfBytes := db; mw_frames := f; mw_samples := n; mw_filler := mw_filler s;
     mw_signal := mw_signal s; mw_lastDTMF := mw_lastDTMF s; mw_tick := mw_tick s |}.
Definition with_stages (fl : silence.silenceFiller) (sg : signal.SignalLogger) (ev : Z) (s : mworld) : mworld :=
  {| mw_entry := mw_entry s; mw_lat := mw_lat s; mw_stream := mw_stream s; mw_audioPackets := mw_audioPackets s;
     mw_audioBytes := mw_audioBytes s; mw_dtmfPackets := mw_dtmfPackets s; mw_dtmfBytes := mw_dtmfBytes s;
     mw_frames := mw_frames s; mw_samples := mw_samples s; mw_filler := fl; mw_signal := sg; mw_lastDTMF := ev;
     mw_tick := mw_tick s |}.
Definition tick (s : mworld) : mworld :=
  {| mw_entry := mw_entry s; mw_lat := mw_lat s; mw_stream := mw_stream s; mw_audioPackets := mw_audioPackets s;
     mw_audioBytes := mw_audioBytes s; mw_dtmfPackets := mw_dtmfPackets s; mw_dtmfBytes := mw_dtmfBytes s;
     mw_frames := mw_frames s; mw_samples := mw_samples s; mw_filler := mw_filler s; mw_signal := mw_signal s;
     mw_lastDTMF := mw_lastDTMF s; mw_tick := S (mw_tick s) |}.

(** The SDK, the ends, and the clock in nanoseconds by the number of the reading. *)
Record Outside := {
  ou_decode : Header -> list Z -> error + list (list Z);
  ou_encode : list Z -> error + list (Header * list Z);
  ou_resample : Z -> list Z -> list (list Z);
  ou_jitter : Header -> list Z -> list (Header * list Z);    (* the packets it lets go *)
  ou_dtmf : list Z -> option Event;
  ou_stamp : Z -> Header -> Header;                          (* the sequence writer *)
  ou_room : list Z -> option error;
  ou_key : ascii -> option error;
  ou_net : option error;
  ou_level : list Z -> bool * bool;                          (* above the one threshold, below the other *)
  ou_clock : nat -> Z;
  ou_mon : bool;                                             (* the monitor is not nil *)
}.

Section chain.
Open Scope go_scope.
Context `{MediaSDK} (o : Outside).
(** Of the two streams of an output: the payload types and names of [rtpStatsWriter]. *)
Context (audioPT dtmfPT : Z) (audioName dtmfName : string).
Abbreviation MM := (M mworld MEffect).
Import silence.

Definition nowM : MM Z :=
  let* s := mget in do* mmodify tick in mreturn (ou_clock o (mw_tick s)).

(** In order, until one fails. *)
Fixpoint each {A} (f : A -> MM HResult) (l : list A) : MM HResult :=
  match l with
  | [] => mreturn (HErr None)
  | x :: l' =>
      let* r := f x in
      match r with HErr None => each f l' | _ => mreturn r end
  end.

(** [latencyRTPExit.WriteRTP] and [latencyPCMExit.WriteSample], after the write. *)
Definition latencyExit : MM unit :=
  let* s := mget in
  if 0 <? mw_entry s then
    let* now := nowM in
    mmodify (fun s => with_lat (mw_entry s) (Record_ (i64 (now - mw_entry s)) (mw_lat s)) s)
  else mreturn tt.

Definition latencyEntry : MM unit :=
  let* now := nowM in mmodify (fun s => with_lat now (mw_lat s) s).

Definition mediaWriterCount_WriteSample (sample : list Z) : MM unit :=
  mmodify (fun s => with_counts (mw_stream s) (mw_audioPackets s) (mw_audioBytes s) (mw_dtmfPackets s) (mw_dtmfBytes s)
                      (u64 (mw_frames s + 1)) (u64 (mw_samples s + Z.of_nat (length sample))) s).

(** [dtmf]: which of the two pairs of counters. *)
Definition rtpHandlerCount_HandleRTP (dtmf : bool) (payload : list Z) : MM unit :=
  let n := Z.of_nat (length payload) in
  mmodify (fun s =>
    if dtmf then with_counts (mw_stream s) (mw_audioPackets s) (mw_audioBytes s) (u64 (mw_dtmfPackets s + 1))
                   (u64 (mw_dtmfBytes s + n)) (mw_frames s) (mw_samples s) s
    else with_counts (mw_stream s) (u64 (mw_audioPackets s + 1)) (u64 (mw_audioBytes s + n)) (mw_dtmfPackets s)
           (mw_dtmfBytes s) (mw_frames s) (mw_samples s) s).

Definition rtpStatsHandler_HandleRTP (typ : string) (h : Header) : MM unit :=
  mwhen (ou_mon o) (memit (MRecv (recvType typ h))).

Definition rtpStatsWriter_WriteRTP (h : Header) : MM unit :=
  mwhen (ou_mon o) (memit (MSent (sendType audioPT dtmfPT audioName dtmfName h))).

Definition signalLogger_Write (sample : list Z) : MM unit :=
  let* now := nowM in
  let* s := mget in
  let '(above, below) := ou_level o sample in
  let '(sg, l) := signal.SignalLogger_WriteSample
                    {| signal.aboveEnter := above; signal.belowExit := below; signal.at_ := now |} (mw_signal s) in
  do* mmodify (fun s => with_stages (mw_filler s) sg (mw_lastDTMF s) s) in
  match l with b :: _ => memit (MSignal b) | [] => mreturn tt end.

(** The stream's statistics; its clock is in milliseconds. *)
Definition streamStats (h : Header) (payload : list Z) : MM unit :=
  let* now := nowM in
  mmodify (fun s => with_counts (stream.rtpStreamStats_HandleRTP (Z.quot now 1000000) (Z.of_nat (length payload)) h (mw_stream s))
                      (mw_audioPackets s) (mw_audioBytes s) (mw_dtmfPackets s) (mw_dtmfBytes s) (mw_frames s) (mw_samples s) s).

(** The silence of [silenceFiller.HandleRTP], written to [sink]; then the packet goes on. *)
Definition fillSilence (sink : list Z -> MM HResult) (h : Header) : MM HResult :=
  let* s := mget in
  match isSilenceSuppression h (mw_filler s) with
  | (None, f) => do* mmodify (fun s => with_stages f (mw_signal s) (mw_lastDTMF s) s) in mreturn HPanic
  | (Some (isSilence, missing), f) =>
      if isSilence && (missing <=? maxGapSize f * 100) then
        let f := counted missing f in
        do* mmodify (fun s => with_stages f (mw_signal s) (mw_lastDTMF s) s) in
        if missing <=? maxGapSize f then
          each sink (replicate (Z.to_nat missing) (replicate (Z.to_nat (pcmSamplesPerFrame f)) 0))
        else mreturn (HErr None)
      else do* mmodify (fun s => with_stages f (mw_signal s) (mw_lastDTMF s) s) in mreturn (HErr None)
  end.

(** [handleEventRTP], and the writer of the keys. *)
Definition eventHandler (h : Header) (payload : list Z) : MM HResult :=
  let* s := mget in
  let '(d, last) := handleEventRTP h (ou_dtmf o payload) (mw_lastDTMF s) in
  do* mmodify (fun s => with_stages (mw_filler s) (mw_signal s) last s) in
  match d with
  | Some d => do* memit (MKey d) in mreturn (HErr (ou_key o d))
  | None => mreturn (HErr None)
  end.

(** A stage and what is behind it.  [mux]: what [Mux] hands a packet to; [dtmf]: the chain is the
    one for DTMF.  A stage that is not for the kind of item does not occur with it. *)
Fixpoint run (mux : Header -> list Z -> MM HResult) (dtmf : bool) (w : chain) (i : Item) : MM HResult :=
  match w, i with
  | RoomAudio, ISample x => do* memit (MRoom x) in mreturn (HErr (ou_room o x))
  | NetStream, IPacket h p => do* memit (MNet h p) in mreturn (HErr (ou_net o))
  | FuncHandler, IPacket h p => eventHandler h p
  | Nop w, _ | Serialized w, _ | AudioSwitch w, _ => run mux dtmf w i
  | LatencyEntry w, _ => do* latencyEntry in run mux dtmf w i
  | LatencyExit w, _ => let* r := run mux dtmf w i in do* latencyExit in mreturn r
  | Resample rate w, ISample x => each (fun x => run mux dtmf w (ISample x)) (ou_resample o rate x)
  | CountSamples w, ISample x => do* mediaWriterCount_WriteSample x in run mux dtmf w i
  | Signal _ w, ISample x => do* signalLogger_Write x in run mux dtmf w i
  | Decode _ w, IPacket h p =>
      match ou_decode o h p with
      | inl err => mreturn (HErr (Some err))
      | inr l => each (fun x => run mux dtmf w (ISample x)) l
      end
  | Encode w, ISample x =>
      match ou_encode o x with
      | inl err => mreturn (HErr (Some err))
      | inr l => each (fun hp => run mux dtmf w (IPacket hp.1 hp.2)) l
      end
  | SilenceFill hnd, IPacket h p =>
      let* r := fillSilence (fun x => match hnd with Decode _ sink => run mux dtmf sink (ISample x) | _ => mreturn (HErr None) end) h in
      match r with HErr None => run mux dtmf hnd i | _ => mreturn r end
  | StatsHandler typ w, IPacket h p => do* rtpStatsHandler_HandleRTP typ h in run mux dtmf w i
  | CountPackets w, IPacket h p => do* rtpHandlerCount_HandleRTP dtmf p in run mux dtmf w i
  | Mux _, IPacket h p => mux h p
  | Jitter w, IPacket h p => each (fun hp => run mux dtmf w (IPacket hp.1 hp.2)) (ou_jitter o h p)
  | StreamStats w, IPacket h p => do* streamStats h p in run mux dtmf w i
  | StatsWriter w, IPacket h p => do* rtpStatsWriter_WriteRTP h in run mux dtmf w i
  | SeqStream typ w, IPacket h p => run mux dtmf w (IPacket (ou_stamp o typ h) p)
  | MixerInput _, ISample x => do* memit (MMix x) in mreturn (HErr None)
  | _, _ => mreturn (HErr None)
  end.

Definition noMux (h : Header) (p : list Z) : MM HResult := mreturn (HErr None).

(** The routes of the mux of a pipeline; other packets are only counted in the metrics. *)
Definition muxOf (p : pipeline) (audioType : Z) (dtmfType : option Z) (h : Header) (payload : list Z) : MM HResult :=
  if bool_decide (dtmfType = Some (hdr_PayloadType h)) then
    match dtmfToRoom p with Some w => run noMux true w (IPacket h payload) | None => mreturn (HErr None) end
  else if hdr_PayloadType h =? audioType then
    match audioToRoom p with Some w => run noMux false w (IPacket h payload) | None => mreturn (HErr None) end
  else do* rtpStatsHandler_HandleRTP "" h in mreturn (HErr None).

(** A packet that [rtpReadLoop] hands to the pipeline. *)
Definition handlePacket (p : pipeline) (mc : MediaConfig) (h : Header) (payload : list Z) : MM HResult :=
  let dtmfType := match DTMF mc with Some d => if ci_Type d =? 0 then None else Some (ci_Type d) | None => None end in
  match muxToRoom p with
  | Some w => run (muxOf p (ci_Type (Audio mc)) dtmfType) false w (IPacket h payload)
  | None => mreturn (HErr None)
  end.

(** A frame that the room writes to the port. *)
Definition writeFrame (p : pipeline) (x : list Z) : MM HResult :=
  match mixerToPort p with Some w => run noMux false w (ISample x) | None => mreturn (HErr None) end.
End chain.

(** ** Lemmas *)
Section lemmas.
Context `{MediaSDK} (o : Outside) (audioPT dtmfPT : Z) (audioName dtmfName : string).
Abbreviation runC := (run o audioPT dtmfPT audioName dtmfName).
Abbreviation handleP := (handlePacket o audioPT dtmfPT audioName dtmfName).
Import silence.

Lemma each_rel {A} R `{!TraceRel R} (f : A -> M mworld MEffect HResult) l :
  (forall x, mrel R (f x)) -> mrel R (each f l).
Proof. intros Hf. induction l as [|x l IH]; cbn [each]; repeat (rel_step || apply Hf || apply IH). Qed.

(** The stages behind the counters of packets. *)
Fixpoint plain (w : chain) : bool :=
  match w with
  | RoomAudio | RoomDTMF | NetStream | FuncHandler => true
  | StatsHandler _ _ | CountPackets _ | Mux _ | StreamStats _ | LatencyEntry _ => false
  | Nop w | LatencyExit w | Resample _ w | CountSamples w | Signal _ w | Decode _ w | Encode w
  | SilenceFill w | Serialized w | Jitter w | StatsWriter w | SeqStream _ w | AudioSwitch w | MixerInput w => plain w
  end.

Definition isRecv (e : MEffect) : bool := match e with MRecv _ => true | _ => false end.
Definition isRoom (e : MEffect) : bool := match e with MRoom _ => true | _ => false end.

(** They leave the counters of packets alone, and measure every frame that reaches the room
    against the entry time they find. *)
Definition keeps (s : mworld) (t : list MEffect) (s' : mworld) : Prop :=
  mw_stream s' = mw_stream s /\ mw_audioPackets s' = mw_audioPackets s /\ mw_audioBytes s' = mw_audioBytes s /\
  mw_dtmfPackets s' = mw_dtmfPackets s /\ mw_dtmfBytes s' = mw_dtmfBytes s /\ countb isRecv t = 0%nat /\
  mw_entry s' = mw_entry s /\ (mw_tick s <= mw_tick s')%nat /\
  (forall bound, 0 <= bound < 2 ^ 63 ->
     (forall k, (mw_tick s <= k < mw_tick s')%nat -> 0 <= ou_clock o k - mw_entry s <= bound) ->
     latency.MaxNs (mw_lat s') <= Z.max (latency.MaxNs (mw_lat s)) bound).

#[export] Instance keeps_rel : TraceRel keeps.
Proof.
  split; unfold keeps.
  - intros s. repeat split; [done..|]. intros; lia.
  - intros s1 t1 s2 t2 s3 (A1 & A2 & A3 & A4 & A5 & A6 & A7 & A8 & A9) (B1 & B2 & B3 & B4 & B5 & B6 & B7 & B8 & B9).
    rewrite countb_app. split_and!; try congruence; try lia. intros b Hb Hk.
    assert (latency.MaxNs (mw_lat s2) <= Z.max (latency.MaxNs (mw_lat s1)) b).
    { apply A9; [done|]. intros k Hk'. apply Hk. lia. }
    assert (latency.MaxNs (mw_lat s3) <= Z.max (latency.MaxNs (mw_lat s2)) b); [|lia].
    apply B9; [done|]. intros k Hk'. rewrite A7. apply Hk. lia.
Qed.

(** A step that touches none of it. *)
Lemma keeps_same s t s' :
  mw_stream s' = mw_stream s -> mw_audioPackets s' = mw_audioPackets s -> mw_audioBytes s' = mw_audioBytes s ->
  mw_dtmfPackets s' = mw_dtmfPackets s -> mw_dtmfBytes s' = mw_dtmfBytes s -> countb isRecv t = 0%nat ->
  mw_entry s' = mw_entry s -> (mw_tick s <= mw_tick s')%nat -> mw_lat s' = mw_lat s -> keeps s t s'.
Proof. intros. unfold keeps. split_and!; try done. intros b Hb _. replace (mw_lat s') with (mw_lat s). lia. Qed.

Lemma nowM_keeps : mrel keeps (nowM o).
Proof. unfold nowM. repeat rel_step. apply keeps_same; cbn; try done. lia. Qed.

Lemma latencyExit_keeps : mrel keeps (latencyExit o).
Proof.
  intros s. unfold latencyExit. do 2 mstep. destruct (Z.ltb_spec 0 (mw_entry s)); [|mstep; apply tr_refl].
  unfold nowM. repeat mstep. unfold keeps. cbn. split_and!; try done; [lia|].
  intros b Hb Hk. specialize (Hk (mw_tick s) ltac:(lia)).
  rewrite wrapS_id by lia. rewrite wrapU_id by lia. case_match; lia.
Qed.

Lemma fillSilence_keeps sink h : (forall x, mrel keeps (sink x)) -> mrel keeps (fillSilence sink h).
Proof.
  intros Hs. unfold fillSilence. repeat (rel_step || (apply each_rel; [apply _ | done]));
    apply keeps_same; cbn; done || lia.
Qed.

Lemma signalLogger_keeps x : mrel keeps (signalLogger_Write o x).
Proof.
  unfold signalLogger_Write. apply mrel_bind; [apply _ | apply nowM_keeps |]. intros now.
  repeat rel_step; apply keeps_same; cbn; done || lia.
Qed.

Lemma plain_keeps mux dtmf w :
  (plain w = true -> forall i, mrel keeps (runC mux dtmf w i)) /\
  match w with Decode _ sink => plain w = true -> forall i, mrel keeps (runC mux dtmf sink i) | _ => True end.
Proof.
  induction w; (split; [|try done; try (intros Hp; apply IHw; exact Hp)]); intros Hp i; cbn [plain] in Hp; try done;
    try (destruct IHw as [IH IH']; specialize (IH Hp)); destruct i as [h p|x]; cbn [run];
    unfold eventHandler, mediaWriterCount_WriteSample, rtpStatsWriter_WriteRTP;
    repeat first [ apply IH | apply latencyExit_keeps | apply signalLogger_keeps
                 | (apply each_rel; [apply _ | intros ?])
                 | rel_step ];
    try (apply keeps_same; cbn; done || lia).
  all: apply fillSilence_keeps. all: intros x0. all: destruct w; try apply IH'; try done; apply mrel_ret, _.
Qed.
End lemmas.

(** ** Packets of the caller *)
Section input.
Context `{MediaSDK} (o : Outside) (audioPT dtmfPT : Z) (audioName dtmfName : string).

(** Where a packet goes. *)
Inductive Route := ToAudio | ToDTMF (d : CodecInfo) | Unrouted.

Definition routeOf (mc : MediaConfig) (h : Header) : Route :=
  match DTMF mc with
  | Some d => if negb (ci_Type d =? 0) && (hdr_PayloadType h =? ci_Type d) then ToDTMF d
              else if hdr_PayloadType h =? ci_Type (Audio mc) then ToAudio else Unrouted
  | None => if hdr_PayloadType h =? ci_Type (Audio mc) then ToAudio else Unrouted
  end.

Definition routeName (mc : MediaConfig) (r : Route) : string :=
  match r with ToAudio => ci_Name (Audio mc) | ToDTMF d => ci_Name d | Unrouted => "" end.

(** What is counted of a packet. *)
Definition packetCounted (mc : MediaConfig) (h : Header) (payload : list Z) (s s' : mworld) (t : list MEffect) : Prop :=
  let r := routeOf mc h in
  let n := Z.of_nat (length payload) in
  mw_stream s' = stream.rtpStreamStats_HandleRTP (Z.quot (ou_clock o (S (mw_tick s))) 1000000) n h (mw_stream s) /\
  (mw_audioPackets s', mw_audioBytes s') =
    match r with ToAudio => (u64 (mw_audioPackets s + 1), u64 (mw_audioBytes s + n))
               | _ => (mw_audioPackets s, mw_audioBytes s) end /\
  (mw_dtmfPackets s', mw_dtmfBytes s') =
    match r with ToDTMF _ => (u64 (mw_dtmfPackets s + 1), u64 (mw_dtmfBytes s + n))
               | _ => (mw_dtmfPackets s, mw_dtmfBytes s) end /\
  exists t', t = (if ou_mon o then [MRecv (recvType (routeName mc r) h)] else []) ++ t' /\ countb isRecv t' = 0%nat.

(** The same with the bound on the latency. *)
Definition packetDone (mc : MediaConfig) (h : Header) (payload : list Z) (s s' : mworld) (t : list MEffect) : Prop :=
  packetCounted mc h payload s s' t /\
  (forall bound, 0 <= bound < 2 ^ 63 ->
     (forall k, (mw_tick s < k < mw_tick s')%nat -> 0 <= ou_clock o k - ou_clock o (mw_tick s) <= bound) ->
     latency.MaxNs (mw_lat s') <= Z.max (latency.MaxNs (mw_lat s)) bound).

(** A pipeline without a jitter buffer, by its input. *)
Definition inputOf (mc : MediaConfig) (sink : chain) (p : pipeline) : Prop :=
  plain sink = true /\
  muxToRoom p = Some (LatencyEntry (StreamStats (Nop (Mux
    ((ci_Type (Audio mc), ci_Name (Audio mc)) ::
     match DTMF mc with Some d => if ci_Type d =? 0 then [] else [(ci_Type d, ci_Name d)] | None => [] end))))) /\
  audioToRoom p = Some (CountPackets (StatsHandler (ci_Name (Audio mc))
                          (Serialized (SilenceFill (Decode (ci_Type (Audio mc)) sink))))) /\
  dtmfToRoom p = match DTMF mc with
                 | Some d => if ci_Type d =? 0 then None else Some (CountPackets (StatsHandler (ci_Name d) FuncHandler))
                 | None => None end.

Lemma setupInput_inputOf opts e mc p t :
  EnableJitterBuffer opts = false -> setupInput opts e mc newPipeline = (None, p, t) ->
  exists sink, inputOf mc sink p.
Proof.
  intros Hj. unfold setupInput, mbind', mreturn, memit, mmodify. rewrite Hj.
  destruct (if LogSignalChanges opts then be_signal e else None); [done|].
  destruct (be_decode e); [done|]. intros [= <- _].
  exists (if LogSignalChanges opts then Signal "input" (inputSink mc) else inputSink mc).
  unfold inputOf, set_input. cbn. destruct (LogSignalChanges opts); (split; [done|]);
    destruct (DTMF mc) as [d|]; [destruct (ci_Type d =? 0)| |destruct (ci_Type d =? 0)|]; done.
Qed.

(** Behind the mux: the counters of the route, the metric, and then a chain that keeps them. *)
Lemma route_done dtmf name w h payload s : plain w = true ->
  mspec (run o audioPT dtmfPT audioName dtmfName (noMux) dtmf (CountPackets (StatsHandler name w)) (IPacket h payload)) s
    (fun _ s' t => exists s2 t', state_of (rtpHandlerCount_HandleRTP dtmf payload s) = s2 /\ keeps o s2 t' s' /\
       t = (if ou_mon o then [MRecv (recvType name h)] else []) ++ t').
Proof.
  intros Hw. cbn [run]. apply mspec_bind. unfold rtpHandlerCount_HandleRTP. apply mspec_modify.
  apply mspec_bind. unfold rtpStatsHandler_HandleRTP.
  set (s2 := state_of _). destruct (ou_mon o); cbn [mwhen];
    [apply mspec_emit | apply mspec_ret];
    (eapply mspec_mono; [apply (proj1 (plain_keeps o audioPT dtmfPT audioName dtmfName noMux dtmf w) Hw)|]);
    cbv beta; intros r s' t' Hk; exists s2, t'; done.
Qed.

Definition dtmfTypeOf (mc : MediaConfig) : option Z :=
  match DTMF mc with Some d => if ci_Type d =? 0 then None else Some (ci_Type d) | None => None end.

Definition routed (mc : MediaConfig) (h : Header) (payload : list Z) (r : Route) (s s' : mworld) (t : list MEffect) : Prop :=
  exists s2 t', keeps o s2 t' s' /\
    s2 = match r with
         | ToAudio => state_of (rtpHandlerCount_HandleRTP false payload s)
         | ToDTMF _ => state_of (rtpHandlerCount_HandleRTP true payload s)
         | Unrouted => s end /\
    t = (if ou_mon o then [MRecv (recvType (routeName mc r) h)] else []) ++ t'.

(** Where the mux hands a packet. *)
Lemma muxOf_route mc sink p h payload s : inputOf mc sink p ->
  mspec (muxOf o audioPT dtmfPT audioName dtmfName p (ci_Type (Audio mc)) (dtmfTypeOf mc) h payload) s
    (fun _ s' t => routed mc h payload (routeOf mc h) s s' t).
Proof.
  intros (Hp & _ & Ha & Hd). unfold muxOf. rewrite Ha, Hd. unfold routeOf, dtmfTypeOf.
  assert (mspec (if hdr_PayloadType h =? ci_Type (Audio mc) then
      run o audioPT dtmfPT audioName dtmfName noMux false
        (CountPackets (StatsHandler (ci_Name (Audio mc)) (Serialized (SilenceFill (Decode (ci_Type (Audio mc)) sink)))))
        (IPacket h payload)
      else do* rtpStatsHandler_HandleRTP o "" h in mreturn (silence.HErr None))%go s
    (fun _ s' t => routed mc h payload (if hdr_PayloadType h =? ci_Type (Audio mc) then ToAudio else Unrouted) s s' t)) as Haudio.
  { destruct (hdr_PayloadType h =? ci_Type (Audio mc)).
    - eapply mspec_mono; [by apply route_done|]. cbv beta. intros r s' t (s2 & t' & E & Hk & Ht). by exists s2, t'.
    - unfold rtpStatsHandler_HandleRTP. apply mspec_bind.
      assert (forall t, routed mc h payload Unrouted s s ((if ou_mon o then [MRecv (recvType "" h)] else []) ++ t) <->
                        keeps o s t s) as Hr.
      { intros t. split; [|intros Hk; by exists s, t]. intros (s2 & t' & Hk & -> & Ht).
        by apply app_inv_head in Ht as ->. }
      destruct (ou_mon o); cbn [mwhen]; [apply mspec_emit | apply mspec_ret]; apply mspec_ret; apply Hr, tr_refl. }
  destruct (DTMF mc) as [d|]; [|rewrite bool_decide_false by done; exact Haudio].
  destruct (Z.eqb_spec (ci_Type d) 0) as [Hz|Hz]; cbn [negb andb]; [rewrite bool_decide_false by done; exact Haudio|].
  destruct (Z.eqb_spec (hdr_PayloadType h) (ci_Type d)) as [Ht|Ht].
  - rewrite bool_decide_true by congruence. eapply mspec_mono; [by apply route_done|]. cbv beta.
    intros r s' t (s2 & t' & E & Hk & Htr). by exists s2, t'.
  - rewrite bool_decide_false by congruence. exact Haudio.
Qed.

Lemma handlePacket_done mc sink p h payload s : inputOf mc sink p ->
  mspec (handlePacket o audioPT dtmfPT audioName dtmfName p mc h payload) s (fun _ s' t => packetDone mc h payload s s' t).
Proof.
  intros Hi. unfold handlePacket. pose proof Hi as (_ & Hm & _). rewrite Hm. cbn [run].
  unfold latencyEntry, streamStats, nowM. repeat mstep. cbn [app].
  eapply mspec_mono; [by eapply (muxOf_route mc sink)|]. cbv beta.
  intros r s' t (s2 & t' & (K1 & K2 & K3 & K4 & K5 & K6 & K7 & K8 & K9) & -> & ->).
  unfold packetDone, packetCounted. cbv zeta.
  destruct (routeOf mc h); cbn in K1, K2, K3, K4, K5, K7, K8, K9;
    (split; [split_and!; [by rewrite K1 | by rewrite K2, K3 | by rewrite K4, K5 | by exists t'] |
             intros b Hb Hk; apply K9; [done|]; intros k Hk'; apply Hk; lia]).
Qed.
End input.

(** C32: Packets of the caller.  In a pipeline without a jitter buffer every packet that is handed to
    the input is seen once by the statistics of the stream, and once by the metrics under the
    name of its route, and adds its bytes to the counters of that route only; whatever the codec,
    the room or the silence filler do with it.  And every latency it records is at most the
    longest time between the entry of this packet and the last look at the clock. *)
Theorem inbound_packet_accounted `{MediaSDK} o apt dpt an dn opts e mc p t0 h payload s :
  EnableJitterBuffer opts = false -> setupInput opts e mc newPipeline = (None, p, t0) ->
  let '(_, s', t) := handlePacket o apt dpt an dn p mc h payload s in
  packetDone o mc h payload s s' t.
Proof.
  intros Hj Hs. destruct (setupInput_inputOf _ _ _ _ _ Hj Hs) as [sink Hi].
  pose proof (handlePacket_done o apt dpt an dn mc sink p h payload s Hi) as Hd. unfold mspec in Hd.
  by destruct (handlePacket o apt dpt an dn p mc h payload s) as [[r s'] t].
Qed.

(** *** An example *)
#[local] Instance exSDK : MediaSDK.
Proof. refine {| DefFramesPerSec := 50; MTUSize := 1500 |}; lia. Defined.

(** A codec that decodes a byte to a sample; a jitter buffer that lets go of the packet with the
    sequence number 1 when the next one comes. *)
Definition exOutside (clock : nat -> Z) : Outside :=
  {| ou_decode := fun _ p => inr [p]; ou_encode := fun x => inr []; ou_resample := fun _ x => [x];
     ou_jitter := fun h p =>
       if SequenceNumber h =? 1 then []
       else [({| hdr_PayloadType := hdr_PayloadType h; SequenceNumber := 1; Timestamp := Timestamp h |}, p); (h, p)];
     ou_dtmf := fun _ => None; ou_stamp := fun _ h => h; ou_room := fun _ => None; ou_key := fun _ => None;
     ou_net := None; ou_level := fun _ => (false, true); ou_clock := clock; ou_mon := true |}.

Definition exWorld : mworld :=
  {| mw_entry := 0; mw_lat := {| latency.Count := 0; latency.SumNs := 0; latency.MaxNs := 0 |};
     mw_stream := stream.newRTPStreamStats stream.zeroStats;
     mw_audioPackets := 0; mw_audioBytes := 0; mw_dtmfPackets := 0; mw_dtmfBytes := 0; mw_frames := 0; mw_samples := 0;
     mw_filler := silence.newSilenceFiller 8000 8000 None;
     mw_signal := {| signal.hangoverDuration := 1; signal.lastSignalTime := None; signal.lastIsSignal := false;
                     signal.framesProcessed := 0; signal.stateChanges := 0 |};
     mw_lastDTMF := noEvent; mw_tick := 0 |}.

Definition exAudioConfig : MediaConfig :=
  {| Local := exAddr 1; Remote := exAddr 2; hasCodec := true;
     Audio := {| ci_Type := 0; ci_Name := "PCMU/8000"; ci_RTPClockRate := 8000; ci_SampleRate := 8000 |};
     DTMF := None; Crypto := None; PeerDirection := DirSendRecv |}.

Definition exOptions (jitter : bool) : MediaOptions :=
  {| SymmetricRTP := false; IgnoreLocalAddrInSDP := false; EnableJitterBuffer := jitter; LogSignalChanges := false;
     DTMFAudio := false; DropAudioDuringDTMF := false |}.

Definition exBuild : BuildEnv :=
  {| be_session := None; be_signal := None; be_decode := None; be_openWrite := None; be_encode := None; be_mixer := None |}.

Definition exInput (jitter : bool) : pipeline :=
  state_of (setupInput (exOptions jitter) exBuild exAudioConfig newPipeline).

Definition exPacket (pt seq : Z) : Header := {| hdr_PayloadType := pt; SequenceNumber := seq; Timestamp := seq * 160 |}.

Definition exClock (k : nat) : Z := 10000000 * Z.of_nat (S k).

Definition exHandle (jitter : bool) (seq : Z) (payload : list Z) (s : mworld) : silence.HResult * mworld * list MEffect :=
  handlePacket (exOutside exClock) 0 0 "" "" (exInput jitter) exAudioConfig (exPacket 0 seq) payload s.

Lemma inbound_packet_accounted_witness :
  packetDone (exOutside exClock) exAudioConfig (exPacket 0 1) [1; 2; 3] exWorld
    (state_of (exHandle false 1 [1; 2; 3] exWorld)) (trace_of (exHandle false 1 [1; 2; 3] exWorld)) /\
  mw_audioPackets (state_of (exHandle false 1 [1; 2; 3] exWorld)) = 1 /\
  trace_of (exHandle false 1 [1; 2; 3] exWorld) = [MRecv "PCMU/8000"; MRoom [1; 2; 3]].
Proof.
  split; [|vm_compute; done].
  pose proof (inbound_packet_accounted (exOutside exClock) 0 0 "" "" (exOptions false) exBuild
    exAudioConfig (exInput false) [] (exPacket 0 1) [1; 2; 3] exWorld eq_refl eq_refl) as Hp.
  unfold exHandle. by destruct (handlePacket _ _ _ _ _ _ _ _ _ exWorld) as [[r s'] t].
Defined.

(** The measurement with a jitter buffer.  A packet that waited in the buffer is measured from
    the entry of the packet that released it: here the frame of the first packet reaches the room
    40ms after the packet came, and the longest latency recorded of the two is 30ms. *)
Theorem latency_misses_jitter :
  let s1 := state_of (exHandle true 1 [1] exWorld) in
  let s2 := state_of (exHandle true 2 [2] s1) in
  mw_entry s1 = exClock 0 /\ countb isRoom (trace_of (exHandle true 2 [2] s1)) = 2%nat /\
  mw_tick s2 = 6%nat /\ exClock 4 - mw_entry s1 = 40000000 /\
  latency.Count (mw_lat s2) = 2 /\ latency.MaxNs (mw_lat s2) = 30000000.
Proof. vm_compute. done. Qed.

(** The entry time is a reading of the wall clock.  If that is set back between the entry and the
    exit of a frame, the recorded maximum is more than 292 years, and stays. *)
Theorem latency_clock_set_back entry now st :
  0 <= now < entry -> entry < 2 ^ 63 -> 2 ^ 63 < latency.MaxNs (Record_ (i64 (now - entry)) st).
Proof.
  intros Hn He. unfold Record_. cbn. rewrite wrapS_id by lia.
  assert (u64 (now - entry) = now - entry + 2 ^ 64) as ->.
  { unfold wrapU. rewrite <- (Z.mod_add (now - entry) 1 (2 ^ 64)) by lia. rewrite Z.mod_small; lia. }
  case_match; lia.
Qed.

(** ** The signal logger and its options *)
Module signals.
Record SignalConfig := { hangover : Z; noiseFloor : Q; enterVoiceOffsetDB : Q; exitVoiceOffsetDB : Q }.

Definition minDBFS : Q := -100.

Definition defaultConfig : SignalConfig :=
  {| hangover := signal.DefaultHangoverDuration; noiseFloor := -50; enterVoiceOffsetDB := 10; exitVoiceOffsetDB := 5 |}.

Inductive SignalLoggerOption :=
| WithNoiseFloor (noiseFloorDB : Q) | WithHangoverDuration (d : Z)
| WithEnterVoiceOffsetDB (db : Q) | WithExitVoiceOffsetDB (db : Q).

Definition Qlt_bool (x y : Q) : bool := negb (Qle_bool y x).

(** The errors carry the value; here only what is wrong. *)
Definition applyOption (op : SignalLoggerOption) (s : SignalConfig) : error + SignalConfig :=
  match op with
  | WithNoiseFloor q =>
      if Qlt_bool q minDBFS then inl (EText "noise floor must be >= -100 dBFS")
      else inr {| hangover := hangover s; noiseFloor := q; enterVoiceOffsetDB := enterVoiceOffsetDB s;
                  exitVoiceOffsetDB := exitVoiceOffsetDB s |}
  | WithHangoverDuration d =>
      if d <=? 0 then inl (EText "hangover duration must be positive")
      else inr {| hangover := d; noiseFloor := noiseFloor s; enterVoiceOffsetDB := enterVoiceOffsetDB s;
                  exitVoiceOffsetDB := exitVoiceOffsetDB s |}
  | WithEnterVoiceOffsetDB q =>
      if Qle_bool q 0 then inl (EText "enterVoiceOffsetDB must be positive")
      else inr {| hangover := hangover s; noiseFloor := noiseFloor s; enterVoiceOffsetDB := q;
                  exitVoiceOffsetDB := exitVoiceOffsetDB s |}
  | WithExitVoiceOffsetDB q =>
      if Qle_bool q 0 then inl (EText "exitVoiceOffsetDB must be positive")
      else inr {| hangover := hangover s; noiseFloor := noiseFloor s; enterVoiceOffsetDB := enterVoiceOffsetDB s;
                  exitVoiceOffsetDB := q |}
  end.

Fixpoint applyAll (l : list SignalLoggerOption) (s : SignalConfig) : error + SignalConfig :=
  match l with
  | [] => inr s
  | op :: l' => match applyOption op s with inl err => inl err | inr s' => applyAll l' s' end
  end.

Definition newSignalConfig (l : list SignalLoggerOption) : error + SignalConfig := applyAll l defaultConfig.

(** [log10]: of the Go library, in exact arithmetic; the sum is an [int64]. *)
Definition sumSq (sample : list Z) : Z := foldl (fun a v => i64 (a + i64 (v * v))) 0 sample.

Definition rmsToDBFS (log10 : Q -> Q) (sample : list Z) : Q :=
  match sample with
  | [] => minDBFS
  | _ =>
      let meanSq := (inject_Z (sumSq sample) / inject_Z (Z.of_nat (length sample)))%Q in
      let refSq := inject_Z (32767 * 32767) in
      if Qle_bool meanSq 0 then minDBFS
      else let db := (10 * log10 (meanSq / refSq))%Q in
           if Qlt_bool db minDBFS then minDBFS else db
  end.

(** The frame as [WriteSample] sees it. *)
Definition frameOf (log10 : Q -> Q) (c : SignalConfig) (now : Z) (sample : list Z) : signal.Frame :=
  let db := rmsToDBFS log10 sample in
  {| signal.aboveEnter := Qlt_bool (noiseFloor c + enterVoiceOffsetDB c) db;
     signal.belowExit := Qlt_bool db (noiseFloor c + exitVoiceOffsetDB c);
     signal.at_ := now |}.

Definition configOK (c : SignalConfig) : Prop :=
  0 < hangover c /\ (minDBFS <= noiseFloor c)%Q /\ (0 < enterVoiceOffsetDB c)%Q /\ (0 < exitVoiceOffsetDB c)%Q.

Lemma Qlt_bool_false x y : Qlt_bool x y = false -> (y <= x)%Q.
Proof. unfold Qlt_bool. intros Hn%negb_false_iff. by apply Qle_bool_iff. Qed.

Lemma Qle_bool_false x y : Qle_bool x y = false -> (y < x)%Q.
Proof. intros Hn. apply Qnot_le_lt. intros Hle. apply Qle_bool_iff in Hle. congruence. Qed.

Lemma applyOption_OK op c c' : applyOption op c = inr c' -> configOK c -> configOK c'.
Proof.
  unfold configOK. destruct op; cbn; case_match eqn:E; intros [= <-] (A & B & C & D); cbn; split_and!; try done.
  - by apply Qlt_bool_false.
  - lia.
  - by apply Qle_bool_false.
  - by apply Qle_bool_false.
Qed.

Lemma applyAll_OK l c c' : applyAll l c = inr c' -> configOK c -> configOK c'.
Proof.
  revert c. induction l as [|op l IH]; intros c; cbn; [by intros [= <-]|].
  case_match eqn:E; [done|]. intros Ha Hc. by eapply IH, applyOption_OK.
Qed.
End signals.

(** The options of the signal logger are not checked against each other: the level to leave voice
    can be above the level to enter it.  Still a frame that is above the level to enter never ends
    the voice, because it restarts the hangover, which is positive. *)
Theorem signal_options_safe log10 l c s now sample :
  signals.newSignalConfig l = inr c -> signal.hangoverDuration s = signals.hangover c ->
  let f := signals.frameOf log10 c now sample in
  signals.configOK c /\
  (signal.aboveEnter f = true -> signal.belowExit f = true ->
     (signals.enterVoiceOffsetDB c < signals.exitVoiceOffsetDB c)%Q) /\
  (signal.aboveEnter f = true -> (signal.SignalLogger_WriteSample f s).2 <> [false] /\
     signal.lastIsSignal (signal.SignalLogger_WriteSample f s).1 = true).
Proof.
  intros Hc Hh. cbv zeta.
  assert (signals.configOK c) as Hok by (eapply signals.applyAll_OK; [exact Hc|]; repeat split; done).
  split; [done|]. split.
  - cbn. intros H1 H2. unfold signals.Qlt_bool in *. apply negb_true_iff in H1, H2.
    apply signals.Qle_bool_false in H1, H2. lra.
  - cbn [signals.frameOf signal.aboveEnter]. intros Ha.
    assert ((signal.hangoverDuration s <=? signal.sinceSignal now (Some now)) = false) as Hs.
    { apply Z.leb_gt. rewrite Hh. cbn. rewrite Z.sub_diag, satDuration_id by (unfold minInt64, maxInt64; lia). apply Hok. }
    unfold signal.SignalLogger_WriteSample. cbn [signals.frameOf signal.aboveEnter signal.belowExit signal.at_].
    rewrite Ha, Hs, andb_false_r.
    destruct (_ <=? 10), (signal.lastIsSignal s) eqn:El; cbn; try rewrite El; done.
Qed.

(** What the level relies on of the logarithm. *)
Class Log10 (log10 : Q -> Q) : Prop := {
  log10_pos : forall x, (1 < x)%Q -> (0 < log10 x)%Q;
  log10_neg : forall x, (0 < x)%Q -> (x <= 1)%Q -> (log10 x <= 0)%Q;
}.

Lemma sumSq_spec b sample : forall a, 0 <= b <= 32768 ->
  0 <= a -> a + Z.of_nat (length sample) * 2 ^ 30 < 2 ^ 63 -> Forall (fun v => - b <= v <= b) sample ->
  let r := foldl (fun a v => i64 (a + i64 (v * v))) a sample in
  a <= r <= a + Z.of_nat (length sample) * (b * b) /\
  (Forall (fun v => v = - b) sample -> r = a + Z.of_nat (length sample) * (b * b)).
Proof.
  induction sample as [|v l IH]; intros a Hb Ha Hl Hv; cbn [foldl length].
  { cbn. split; [lia|]. intros _. lia. }
  cbn [length] in Hl. inversion Hv as [|? ? Hv1 Hv2]; subst. rewrite Nat2Z.inj_succ in *.
  assert (0 <= v * v <= b * b) as Hvv by nia. assert (b * b <= 32768 * 32768) as Hbb by nia.
  rewrite (wrapS_id 64 (v * v)) by lia. rewrite (wrapS_id 64 (a + v * v)) by lia.
  destruct (IH (a + v * v)) as (I1 & I3); [done|lia|lia|done|].
  split; [lia|]. intros Hf. inversion Hf as [|? ? E Hf']; subst. rewrite I3 by done. lia.
Qed.

Lemma inject_pos n : 0 < n -> (0 < inject_Z n)%Q.
Proof. intros Hn. unfold Qlt. cbn. lia. Qed.

(** The mean of the squares against the reference. *)
Lemma mean_ratio sum n : 0 < n ->
  let q := (inject_Z sum / inject_Z n / inject_Z (32767 * 32767))%Q in
  (0 < sum -> (0 < q)%Q) /\ (sum <= n * (32767 * 32767) -> (q <= 1)%Q) /\ (n * (32767 * 32767) < sum -> (1 < q)%Q).
Proof.
  intros Hn. cbv zeta. assert (0 < inject_Z n)%Q as Hq by (by apply inject_pos).
  assert (0 < inject_Z (32767 * 32767))%Q as Hr by done. split_and!; intros Hs.
  - apply Qlt_shift_div_l; [done|]. apply Qlt_shift_div_l; [done|]. rewrite !Qmult_0_l. by apply inject_pos.
  - apply Qle_shift_div_r; [done|]. apply Qle_shift_div_r; [done|]. rewrite Qmult_1_l, <- inject_Z_mult, <- Zle_Qle. lia.
  - apply Qlt_shift_div_l; [done|]. apply Qlt_shift_div_l; [done|]. rewrite Qmult_1_l, <- inject_Z_mult, <- Zlt_Qlt. lia.
Qed.

(** The level of a frame.  It is at least the minimum, and not above zero for samples of at most
    32767 in size; a frame of the smallest sample, -32768, has a level above zero. *)
Theorem rmsToDBFS_range log10 `{!Log10 log10} sample :
  Z.of_nat (length sample) < 2 ^ 32 -> Forall (fun v => -32768 <= v <= 32767) sample ->
  (signals.minDBFS <= signals.rmsToDBFS log10 sample)%Q /\
  (Forall (fun v => -32767 <= v) sample -> (signals.rmsToDBFS log10 sample <= 0)%Q) /\
  (sample <> [] -> Forall (fun v => v = -32768) sample -> (0 < signals.rmsToDBFS log10 sample)%Q).
Proof.
  intros Hlen Hv. destruct (decide (sample = [])) as [->|Hne]; [by split_and!|].
  assert (0 < Z.of_nat (length sample)) as Hn by (destruct sample; [done|]; cbn; lia).
  assert (signals.rmsToDBFS log10 sample =
    let meanSq := (inject_Z (signals.sumSq sample) / inject_Z (Z.of_nat (length sample)))%Q in
    if Qle_bool meanSq 0 then signals.minDBFS
    else let db := (10 * log10 (meanSq / inject_Z (32767 * 32767)))%Q in
         if signals.Qlt_bool db signals.minDBFS then signals.minDBFS else db) as -> by (by destruct sample).
  cbv zeta. set (n := Z.of_nat (length sample)) in *.
  destruct (mean_ratio (signals.sumSq sample) n Hn) as (R1 & R2 & R3). set (q := (_ / _ / _)%Q) in *.
  assert (forall x, Qle_bool x 0 = false -> (0 < x)%Q) as Hpos by (intros x; apply signals.Qle_bool_false).
  pose proof (sumSq_spec 32768 sample 0 ltac:(lia) ltac:(lia) ltac:(fold n; lia)
    ltac:(eapply list.Forall_impl; [exact Hv|]; cbn; lia)) as (S1 & S3). fold (signals.sumSq sample) in S1, S3. fold n in S1, S3.
  split_and!.
  - case_match; [apply Qle_refl|]. case_match eqn:E; [apply Qle_refl|]. by apply signals.Qlt_bool_false.
  - intros Hge. pose proof (sumSq_spec 32767 sample 0 ltac:(lia) ltac:(lia) ltac:(fold n; lia)) as Hs.
    case_match eqn:E; [done|]. case_match; [done|].
    assert (0 < signals.sumSq sample) as Hs0.
    { apply Hpos in E. destruct (Z.lt_total 0 (signals.sumSq sample)) as [|[Hz|Hz]]; [done| |lia].
      exfalso. rewrite <- Hz in E. by vm_compute in E. }
    assert (log10 q <= 0)%Q as Hl.
    { apply log10_neg; [by apply R1|]. apply R2.
      destruct Hs as (S1' & _); [|fold (signals.sumSq sample) in S1'; fold n in S1'; lia].
      apply Forall_forall. intros x Hx. pose proof (proj1 (Forall_forall _ _) Hge x Hx).
      pose proof (proj1 (Forall_forall _ _) Hv x Hx). cbn in *. lia. }
    lra.
  - intros _ Hmin. specialize (S3 Hmin). assert (1 < q)%Q as Hq by (apply R3; rewrite S3; lia).
    pose proof (log10_pos q Hq) as Hl. case_match eqn:E.
    + exfalso. apply Qle_bool_iff in E.
      assert (0 < inject_Z (signals.sumSq sample) / inject_Z n)%Q as Hm; [|by apply Qle_not_lt in E].
      apply Qlt_shift_div_l; [by apply inject_pos|]. rewrite Qmult_0_l.
      apply inject_pos. rewrite S3. lia.
    + case_match eqn:E2; [|lra]. exfalso. unfold signals.Qlt_bool in E2. apply negb_true_iff, signals.Qle_bool_false in E2.
      unfold signals.minDBFS in E2. lra.
Qed.

#[local] Instance exLog10 : Log10 (fun x => x - 1)%Q.
Proof. split; intros; lra. Qed.

Lemma rmsToDBFS_range_witness :
  (0 < signals.rmsToDBFS (fun x => x - 1) [-32768; -32768]%Z)%Q /\
  (signals.rmsToDBFS (fun x => x - 1) [-32767; 5]%Z <= 0)%Q.
Proof.
  split.
  - apply (rmsToDBFS_range (fun x => x - 1)%Q [-32768; -32768]); [done | by repeat constructor | done | by repeat constructor].
  - apply (rmsToDBFS_range (fun x => x - 1)%Q [-32767; 5]); [done | by repeat constructor | by repeat constructor].
Defined.

(** ** The loop that accepts streams *)
Section accept.
Context `{ErrorText}.

Definition containsText (s sub : string) : bool :=
  match String.index 0 sub s with Some _ => true | None => false end.

(** Whether the loop logs the error that ends it. *)
Definition acceptFailure (err : error) : bool :=
  negb (errors.Is err io_EOF) && negb (errors.Is err os_ErrDeadlineExceeded) && negb (containsText (Error err) "closed").

(** What [AcceptStream] returns in turn.  The streams whose reading was started, the counter, and
    how the loop ended: not at all, or with or without a log line. *)
Fixpoint rtpLoop (l : list (error + Z)) (streams : Z) : list Z * Z * option bool :=
  match l with
  | [] => ([], streams, None)
  | inl err :: _ => ([], streams, Some (acceptFailure err))
  | inr ssrc :: l' =>
      let '(started, n, r) := rtpLoop l' (u64 (streams + 1)) in (ssrc :: started, n, r)
  end.

(** Every stream that is accepted is read and counted, up to the first error, which ends the
    loop. *)
Theorem rtpLoop_streams l n : 0 <= n -> n + Z.of_nat (length l) < 2 ^ 64 ->
  let '(started, n', r) := rtpLoop l n in
  n' = n + Z.of_nat (length started) /\
  exists rest, l = (inr <$> started) ++ rest /\
    match r with None => rest = [] | Some _ => exists err rest', rest = inl err :: rest' end.
Proof.
  revert n. induction l as [|[err|x] l IH]; intros n Hn Hl; cbn [rtpLoop].
  - cbn. split; [lia|]. by exists [].
  - cbn. split; [lia|]. eexists. split; [done|]. eauto.
  - rewrite wrapU_id by (cbn in Hl; lia). specialize (IH (n + 1) ltac:(lia) ltac:(cbn in Hl; lia)).
    destruct (rtpLoop l (n + 1)) as [[started n'] r]. destruct IH as (-> & rest & -> & Hr).
    cbn. split; [lia|]. by exists rest.
Qed.
End accept.
