(* ===== verification/MediaPort.v ===== *)
(** * The media port

    [pkg/sip/media_port.go]: negotiation ([GenerateOffer], [GenerateAnswer], [ProcessAnswer],
    [configure]), the change set, closing, and the loop that detects missing media; and
    [pkg/sip/draining_port.go].  The SDP library is outside: what it returns is an
    argument. *)

From stdpp Require Import base tactics list gmap strings option.
From Stdlib Require Import ZArith Lia.
From S2P Require Import Prelude GoStd GoErr Participant NetIP MediaStats MediaPipeline.
Import strings strconv.

(** ** Options *)
Definition defaultMediaTimeout : Z := 15 * second.
Definition defaultMediaTimeoutInitial : Z := 30 * second.

(** The timeouts and the port range of [MediaOptions]. *)
Record PortOptions := {
  po_MediaTimeoutInitial : Z;
  po_MediaTimeout : Z;
  po_Start : Z;
  po_End : Z;
}.

Definition DefaultRTPPortRange : Z * Z := (10000, 20000).

Definition ApplyDefaults (o : PortOptions) : PortOptions :=
  {| po_MediaTimeoutInitial :=
       if po_MediaTimeoutInitial o <=? 0 then defaultMediaTimeoutInitial else po_MediaTimeoutInitial o;
     po_MediaTimeout := if po_MediaTimeout o <=? 0 then defaultMediaTimeout else po_MediaTimeout o;
     po_Start := if po_Start o =? 0 then DefaultRTPPortRange.1 else po_Start o;
     po_End := if po_End o =? 0 then DefaultRTPPortRange.2 else po_End o |}.

(** ** The media timeout *)
Module timeout.

Definition disabledPark : Z := 3600 * second.

(** The loop's timer and channel, and the values it reads.  [lastPacket] is 0 before the
    first packet. *)
Record tstate := {
  now : Z;
  timerAt : Z;
  kick : bool;                      (* timeoutKick holds a value *)
  start : option Z;                 (* timeoutStart *)
  initial : Z;
  general : Z;
  lastPacket : Z;
  fired : bool;                     (* mediaTimeout is broken *)
  running : bool;                   (* the loop has not returned *)
  portClosed : bool;
}.

Definition tinit (t0 : Z) (o : PortOptions) : tstate :=
  {| now := t0; timerAt := t0 + disabledPark; kick := false; start := None;
     initial := po_MediaTimeoutInitial o; general := po_MediaTimeout o; lastPacket := 0; fired := false;
     running := true; portClosed := false |}.

Definition set_clock (n t : Z) (k : bool) (s : tstate) : tstate :=
  {| now := n; timerAt := t; kick := k; start := start s; initial := initial s; general := general s;
     lastPacket := lastPacket s; fired := fired s; running := running s; portClosed := portClosed s |}.

Definition stop (f : bool) (s : tstate) : tstate :=
  {| now := now s; timerAt := timerAt s; kick := kick s; start := start s; initial := initial s;
     general := general s; lastPacket := lastPacket s; fired := f; running := false; portClosed := portClosed s |}.

(** [SetTimeout], whose values are stored before the loop is woken. *)
Definition SetTimeout (o : PortOptions) (ini gen : Z) (s : tstate) : tstate :=
  {| now := now s; timerAt := timerAt s; kick := true; start := Some (now s);
     initial := if ini <=? 0 then po_MediaTimeoutInitial o else ini;
     general := if gen <=? 0 then po_MediaTimeout o else gen; lastPacket := lastPacket s; fired := fired s;
     running := running s; portClosed := portClosed s |}.

Definition onNewMediaPacket (s : tstate) : tstate :=
  {| now := now s; timerAt := timerAt s; kick := kick s; start := start s; initial := initial s;
     general := general s; lastPacket := now s; fired := fired s; running := running s;
     portClosed := portClosed s |}.

Definition closePort (s : tstate) : tstate :=
  {| now := now s; timerAt := timerAt s; kick := kick s; start := start s; initial := initial s;
     general := general s; lastPacket := lastPacket s; fired := fired s; running := running s;
     portClosed := true |}.

(** When media is missing: the initial time after the start, or the general one after the
    last packet once there was one. *)
Definition deadline (st : Z) (s : tstate) : Z :=
  if lastPacket s <=? 0 then st + initial s else lastPacket s + general s.

(** One turn of the loop after the select. *)
Definition turn (s : tstate) : tstate :=
  match start s with
  | None => set_clock (now s) (now s + disabledPark) (kick s) s
  | Some st =>
      let remaining := deadline st s - now s in
      if remaining <=? 0 then stop true s
      else set_clock (now s) (now s + Z.min remaining (general s)) (kick s) s
  end.

(** A case of the select is ready. *)
Definition ready (s : tstate) : bool := portClosed s || kick s || (timerAt s <=? now s).

(** The port and its loop.  Time passes only while the loop has nothing to do, and not
    beyond its timer. *)
Inductive tstep (o : PortOptions) : tstate -> tstate -> Prop :=
| T_tick s d :
    0 < d -> (running s = true -> ready s = false /\ now s + d <= timerAt s) ->
    tstep o s (set_clock (now s + d) (timerAt s) (kick s) s)
| T_packet s : tstep o s (onNewMediaPacket s)
| T_set s ini gen : tstep o s (SetTimeout o ini gen s)
| T_close s : tstep o s (closePort s)
| T_stop s : running s = true -> portClosed s = true -> tstep o s (stop (fired s) s)
| T_kick s :
    running s = true -> kick s = true -> tstep o s (turn (set_clock (now s) (timerAt s) false s))
| T_timer s : running s = true -> timerAt s <= now s -> tstep o s (turn s).

Inductive treach (o : PortOptions) (t0 : Z) : tstate -> Prop :=
| treach_init : treach o t0 (tinit t0 o)
| treach_step s s' : treach o t0 s -> tstep o s s' -> treach o t0 s'.

(** ** The specification

    What the port promises: a watchdog without timers.  While it is armed it fires exactly
    when the deadline is reached, or at once if it has already passed when it is armed. *)
Record astate := {
  a_now : Z;
  a_start : option Z;
  a_initial : Z;
  a_general : Z;
  a_lastPacket : Z;
  a_fired : bool;
  a_closed : bool;
}.

Definition due (st : Z) (a : astate) : Z :=
  Z.max st (if a_lastPacket a <=? 0 then st + a_initial a else a_lastPacket a + a_general a).

Inductive astep (o : PortOptions) : astate -> astate -> Prop :=
| A_tick a d :
    0 < d ->
    (a_fired a = false -> a_closed a = false -> forall st, a_start a = Some st -> a_now a + d <= due st a) ->
    astep o a {| a_now := a_now a + d; a_start := a_start a; a_initial := a_initial a; a_general := a_general a;
                 a_lastPacket := a_lastPacket a; a_fired := a_fired a; a_closed := a_closed a |}
| A_packet a :
    astep o a {| a_now := a_now a; a_start := a_start a; a_initial := a_initial a; a_general := a_general a;
                 a_lastPacket := a_now a; a_fired := a_fired a; a_closed := a_closed a |}
| A_set a ini gen :
    astep o a {| a_now := a_now a; a_start := Some (a_now a);
                 a_initial := if ini <=? 0 then po_MediaTimeoutInitial o else ini;
                 a_general := if gen <=? 0 then po_MediaTimeout o else gen; a_lastPacket := a_lastPacket a;
                 a_fired := a_fired a; a_closed := a_closed a |}
| A_close a :
    astep o a {| a_now := a_now a; a_start := a_start a; a_initial := a_initial a; a_general := a_general a;
                 a_lastPacket := a_lastPacket a; a_fired := a_fired a; a_closed := true |}
| A_fire a st :
    a_fired a = false -> a_start a = Some st -> a_now a = due st a ->
    astep o a {| a_now := a_now a; a_start := a_start a; a_initial := a_initial a; a_general := a_general a;
                 a_lastPacket := a_lastPacket a; a_fired := true; a_closed := a_closed a |}.

Inductive areach (o : PortOptions) : astate -> astate -> Prop :=
| areach_refl a : areach o a a
| areach_step a b c : areach o a b -> astep o b c -> areach o a c.

(** A state as its observers see it. *)
Definition view (s : tstate) : astate :=
  {| a_now := now s; a_start := start s; a_initial := initial s; a_general := general s;
     a_lastPacket := lastPacket s; a_fired := fired s; a_closed := portClosed s |}.
End timeout.

Module timeout_facts.
Import timeout.
Section facts.
Context (o : PortOptions) (t0 : Z).
Hypothesis Hini : 0 < po_MediaTimeoutInitial o.
Hypothesis Hgen : 0 < po_MediaTimeout o.
Hypothesis Ht0 : 0 < t0.

(** What holds at any time, *)
Record winv (s : tstate) : Prop := {
  inv_pos : 0 < initial s /\ 0 < general s /\ 0 < now s;
  inv_timer : running s = true -> now s <= timerAt s /\ fired s = false;
  inv_stopped : running s = false -> fired s = true \/ portClosed s = true;
  inv_armed : running s = true -> forall st, start s = Some st -> st <= now s <= due st (view s);
}.

(** and what holds unless the loop is about to be woken. *)
Record tinv (s : tstate) : Prop := {
  inv_weak : winv s;
  inv_cap : running s = true -> kick s = false -> forall st, start s = Some st ->
              timerAt s <= deadline st s /\ timerAt s <= now s + general s;
}.

Lemma due_deadline st s : due st (view s) = Z.max st (deadline st s).
Proof. done. Qed.

Lemma tinv_init : tinv (tinit t0 o).
Proof. split; [split|]; cbn; try done; auto with lia. intros _. unfold disabledPark, second. lia. Qed.

(** The step of the loop: it goes back to sleep with the view unchanged, or fires when
    the specification does. *)
Lemma turn_step s :
  winv s -> running s = true ->
  (view (turn s) = view s \/
  exists st, start s = Some st /\ now s = due st (view s) /\ view (turn s) = view (stop true s)) /\
  (running (turn s) = true -> now (turn s) <= timerAt (turn s) /\ fired (turn s) = false /\
     forall st, start s = Some st ->
       timerAt (turn s) <= deadline st s /\ timerAt (turn s) <= now s + general s) /\
  (running (turn s) = false -> fired (turn s) = true) /\
  start (turn s) = start s /\ now (turn s) = now s /\ initial (turn s) = initial s /\
  general (turn s) = general s /\ lastPacket (turn s) = lastPacket s /\ kick (turn s) = kick s.
Proof.
  intros [(P1 & P2 & P3) Ht _ Ha] Hr. destruct (Ht Hr) as [Hn Hf]. unfold turn.
  destruct (start s) as [st|] eqn:Es.
  - specialize (Ha Hr st eq_refl). rewrite due_deadline in Ha.
  destruct (Z.leb_spec (deadline st s - now s) 0) as [Hd|Hd]; cbn; rewrite ?Es, ?Hr, ?Hf; split_and!; try done.
  + right. exists st. rewrite due_deadline. split_and!; [done|lia|done].
  + by left.
  + intros _. split_and!; [lia|done|]. intros ? [= <-]. lia.
  - cbn. rewrite Es, Hr, Hf. split_and!; try done; [by left|]. intros _. unfold disabledPark, second.
  split_and!; [lia|done|done].
Qed.

Lemma tinv_turn s : winv s -> running s = true -> tinv (turn s).
Proof.
  intros Hi Hr. destruct (turn_step s Hi Hr) as (Hv & Hrun & Hstop & E1 & E2 & E3 & E4 & E5 & E6).
  pose proof Hi as [P Ht Hs Ha]. split; [split|].
  - by rewrite E2, E3, E4.
  - intros H. destruct (Hrun H) as (? & ? & _). done.
  - intros H. left. by apply Hstop.
  - intros H st. rewrite E1, E2. intros Es. specialize (Ha Hr st Es). rewrite due_deadline in *.
  unfold deadline in *. by rewrite E3, E4, E5.
  - intros H Hk st. rewrite E1, E2. intros Es. destruct (Hrun H) as (_ & _ & Hcap).
  destruct (Hcap st Es). unfold deadline in *. by rewrite E3, E4, E5.
Qed.

(** The channel does not matter for the weak part. *)
Lemma winv_kick k s : winv s -> winv (set_clock (now s) (timerAt s) k s).
Proof. intros [P Ht Hs Ha]. split; auto. Qed.

Lemma tinv_step s s' : tstep o s s' -> tinv s -> tinv s'.
Proof.
  intros Hs Hi. pose proof Hi as [[(P1 & P2 & P3) Ht Hst Ha] Hc]. destruct Hs as [s d Hd Hr|s|s ini gen|s|s Hr Hp|s Hr Hk|s Hr Hx].
  - split; [split|]; cbn; auto.
  + split_and!; lia.
  + intros R. destruct (Hr R), (Ht R). split; [lia|done].
  + intros R st Es. destruct (Hr R) as [Hrd Hle]. specialize (Ha R st Es).
      unfold ready in Hrd. apply orb_false_iff in Hrd as [[_ Hk]%orb_false_iff _].
      destruct (Hc R Hk st Es). rewrite due_deadline in *. change (deadline st (set_clock _ _ _ s)) with (deadline st s).
      cbn in *. lia.
  + intros R Hk st Es. destruct (Hc R Hk st Es). change (deadline st (set_clock _ _ _ s)) with (deadline st s). lia.
  - split; [split|]; cbn; auto.
  + intros R st Es. specialize (Ha R st Es). rewrite due_deadline. unfold deadline. cbn.
      rewrite (proj2 (Z.leb_gt (now s) 0)) by lia. lia.
  + intros R Hk st Es. destruct (Hc R Hk st Es) as [H1 H2]. unfold deadline. cbn.
      rewrite (proj2 (Z.leb_gt (now s) 0)) by lia. lia.
  - split; [split|]; cbn; auto; try done.
  + destruct (ini <=? 0) eqn:E1, (gen <=? 0) eqn:E2; split_and!; lia.
  + intros R st [= <-]. rewrite due_deadline. lia.
  - split; [split|]; cbn; auto.
  - split; [split|]; cbn; auto; done.
  - apply tinv_turn; [by apply winv_kick, Hi|done].
  - apply tinv_turn; [apply Hi|done].
Qed.

Lemma treach_inv s : treach o t0 s -> tinv s.
Proof. induction 1; eauto using tinv_init, tinv_step. Qed.

Lemma tstep_simulated s s' : tinv s -> tstep o s s' -> view s' = view s \/ astep o (view s) (view s').
Proof.
  intros Hi Hs. pose proof Hi as [[(P1 & P2 & P3) Ht Hst Ha] Hc].
  assert (forall k, running s = true -> view (turn (set_clock (now s) (timerAt s) k s)) = view s \/
            astep o (view s) (view (turn (set_clock (now s) (timerAt s) k s)))) as Hturn.
  { intros k R. destruct (Ht R) as [Hn Hf]. unfold turn. cbn [start set_clock].
  destruct (start s) as [st|] eqn:Es; [|by left].
  change (deadline st (set_clock _ _ _ s)) with (deadline st s). cbn [now set_clock].
  destruct (Z.leb_spec (deadline st s - now s) 0) as [Hd|Hd]; [|by left].
  right. specialize (Ha R st eq_refl). apply (A_fire o (view s) st); [done|done|].
  rewrite due_deadline in *. cbn. lia. }
  destruct Hs as [s d Hd Hr|s|s ini gen|s|s Hr Hp|s Hr Hk|s Hr Hx].
  - right. apply (A_tick o (view s)); [done|]. cbn. intros Hf Hcl st Es.
  destruct (running s) eqn:R; [|destruct (Hst eq_refl); congruence].
  destruct (Hr eq_refl) as [Hrd Hle]. unfold ready in Hrd. apply orb_false_iff in Hrd as [[_ Hk]%orb_false_iff _].
  destruct (Hc eq_refl Hk st Es). change (due st _) with (Z.max st (deadline st s)). lia.
  - right. apply (A_packet o (view s)).
  - right. apply (A_set o (view s)).
  - right. apply (A_close o (view s)).
  - by left.
  - apply Hturn, Hr.
  - pose proof (Hturn (kick s) Hr) as H. by destruct s.
Qed.
End facts.
End timeout_facts.
Import timeout timeout_facts.

(** C5: The media timeout is exact.  Every run of the port's timeout loop, with its timer, its
    wake-up channel and its capped sleeps, is a run of a watchdog that fires exactly when
    no packet came for the general timeout (before the first packet: when the initial
    timeout has passed since it was armed), or at once if that is already so when it is
    armed; it never fires early and never late. *)
Theorem mediaTimeoutLoop_refines o t0 s :
  0 < po_MediaTimeoutInitial o -> 0 < po_MediaTimeout o -> 0 < t0 ->
  treach o t0 s -> areach o (view (tinit t0 o)) (view s).
Proof.
  intros H1 H2 H3 Hr. induction Hr as [|s s' Hr IH Hs]; [apply areach_refl|].
  destruct (tstep_simulated o s s' (treach_inv o t0 H1 H2 H3 s Hr) Hs) as [->|Ha]; [done|].
  by eapply areach_step.
Qed.

(** Arming does not restart the window: a port whose last packet is older than the general
    timeout times out as soon as it is armed, however long the timeouts are that it is
    armed with before the first packet. *)
Theorem SetTimeout_stale_fires o ini gen s :
  0 < lastPacket s -> 0 < gen -> lastPacket s + gen <= now s ->
  fired (turn (set_clock (now s) (timerAt s) false (SetTimeout o ini gen s))) = true.
Proof.
  intros Hp Hg Hn. unfold turn, deadline. cbn. rewrite (proj2 (Z.leb_gt (lastPacket s) 0)) by lia.
  rewrite (proj2 (Z.leb_gt gen 0)) by lia. rewrite (proj2 (Z.leb_le _ 0)) by lia. done.
Qed.

(** A port that is armed and waits. *)
Lemma mediaTimeoutLoop_refines_witness :
  let o := {| po_MediaTimeoutInitial := 30; po_MediaTimeout := 15; po_Start := 0; po_End := 0 |} in
  let s := turn (set_clock 1 (timerAt (tinit 1 o)) false (SetTimeout o 0 0 (tinit 1 o))) in
  areach o (view (tinit 1 o)) (view s) /\ timerAt s = 16.
Proof.
  cbv zeta. set (o := {| po_MediaTimeoutInitial := 30; po_MediaTimeout := 15; po_Start := 0; po_End := 0 |}).
  split; [|reflexivity]. apply (mediaTimeoutLoop_refines o 1); [reflexivity|reflexivity|reflexivity|].
  eapply treach_step; [eapply treach_step; [apply treach_init|apply (T_set o _ 0 0)]|].
  apply (T_kick o (SetTimeout o 0 0 (tinit 1 o))); reflexivity.
Defined.

(** ** Changes of a negotiation *)
Definition changeSetNew : Z := Z.shiftl 1 0.
Definition changeSetAudioCodec : Z := Z.shiftl 1 1.
Definition changeSetDTMF : Z := Z.shiftl 1 2.
Definition changeSetCrypto : Z := Z.shiftl 1 3.
Definition changeSetLocalAddr : Z := Z.shiftl 1 4.
Definition changeSetRemoteAddr : Z := Z.shiftl 1 5.
Definition changeSetPeerDirection : Z := Z.shiftl 1 6.

(** [Equals] of the SDK's codec descriptions, on pointers. *)
Class CodecEquals := codecEquals : option CodecInfo -> option CodecInfo -> bool.

Definition sameCrypto (a b : option CryptoConfig) : bool :=
  match a, b with
  | None, None => true
  | Some a, Some b =>
      String.eqb (Profile a) (Profile b) && String.eqb (LocalMasterKey a) (LocalMasterKey b) &&
      String.eqb (LocalMasterSalt a) (LocalMasterSalt b) && String.eqb (RemoteMasterKey a) (RemoteMasterKey b) &&
      String.eqb (RemoteMasterSalt a) (RemoteMasterSalt b)
  | _, _ => false
  end.

Definition orIf (b : bool) (f c : Z) : Z := if b then Z.lor c f else c.

Definition NewChangeSetSummary `{CodecEquals} (current : option MediaConfig) (new : MediaConfig) : Z :=
  match current with
  | None => changeSetNew
  | Some cur =>
      orIf (negb (bool_decide (PeerDirection cur = PeerDirection new))) changeSetPeerDirection
     (orIf (negb (bool_decide (Remote cur = Remote new))) changeSetRemoteAddr
     (orIf (negb (bool_decide (Local cur = Local new))) changeSetLocalAddr
     (orIf (negb (sameCrypto (Crypto cur) (Crypto new))) changeSetCrypto
     (orIf (negb (codecEquals (DTMF cur) (DTMF new))) changeSetDTMF
     (orIf (negb (codecEquals (Some (Audio cur)) (Some (Audio new)))) changeSetAudioCodec 0)))))
  end.

Definition includes (c feature : Z) : bool := negb (Z.land c feature =? 0).

Definition shouldReconfigure (c : Z) : bool :=
  includes c (Z.lor (Z.lor (Z.lor changeSetNew changeSetAudioCodec) changeSetDTMF) changeSetCrypto).

(** ** The port *)
(** A pipeline with the number of its generation. *)
Record mediaPort := {
  p_closed : bool;
  p_port : udpConn;
  p_pipeline : option (nat * pipeline);
  p_built : nat;                      (* pipelines built so far *)
  p_localSDP : string;
  p_offer : option (error + string);  (* the offer, by what [Marshal] gives for it *)
  p_negotiated : option MediaConfig;
  p_audioOut : option chain;          (* what the switches hold *)
  p_dtmfOut : option chain;
}.

Definition newMediaPort (symmetric : bool) : mediaPort :=
  {| p_closed := false; p_port := startDiscarding (newUDPConn symmetric); p_pipeline := None; p_built := 0;
     p_localSDP := ""; p_offer := None; p_negotiated := None; p_audioOut := None; p_dtmfOut := None |}.

Definition upd_port (f : udpConn -> udpConn) (p : mediaPort) : mediaPort :=
  {| p_closed := p_closed p; p_port := f (p_port p); p_pipeline := p_pipeline p; p_built := p_built p;
     p_localSDP := p_localSDP p; p_offer := p_offer p; p_negotiated := p_negotiated p;
     p_audioOut := p_audioOut p; p_dtmfOut := p_dtmfOut p |}.
Definition set_offer (o : option (error + string)) (p : mediaPort) : mediaPort :=
  {| p_closed := p_closed p; p_port := p_port p; p_pipeline := p_pipeline p; p_built := p_built p;
     p_localSDP := p_localSDP p; p_offer := o; p_negotiated := p_negotiated p;
     p_audioOut := p_audioOut p; p_dtmfOut := p_dtmfOut p |}.
Definition set_outs (a d : option chain) (p : mediaPort) : mediaPort :=
  {| p_closed := p_closed p; p_port := p_port p; p_pipeline := p_pipeline p; p_built := p_built p;
     p_localSDP := p_localSDP p; p_offer := p_offer p; p_negotiated := p_negotiated p;
     p_audioOut := a; p_dtmfOut := d |}.
Definition set_negotiated (c : option MediaConfig) (p : mediaPort) : mediaPort :=
  {| p_closed := p_closed p; p_port := p_port p; p_pipeline := p_pipeline p; p_built := p_built p;
     p_localSDP := p_localSDP p; p_offer := p_offer p; p_negotiated := c;
     p_audioOut := p_audioOut p; p_dtmfOut := p_dtmfOut p |}.
Definition set_pipeline (q : option (nat * pipeline)) (n : nat) (sdp : string) (p : mediaPort) : mediaPort :=
  {| p_closed := p_closed p; p_port := p_port p; p_pipeline := q; p_built := n; p_localSDP := sdp;
     p_offer := p_offer p; p_negotiated := p_negotiated p; p_audioOut := p_audioOut p; p_dtmfOut := p_dtmfOut p |}.
Definition set_closed (p : mediaPort) : mediaPort :=
  {| p_closed := true; p_port := p_port p; p_pipeline := p_pipeline p; p_built := p_built p;
     p_localSDP := p_localSDP p; p_offer := p_offer p; p_negotiated := p_negotiated p;
     p_audioOut := p_audioOut p; p_dtmfOut := p_dtmfOut p |}.

Definition with_remote (r : AddrPort) (c : MediaConfig) : MediaConfig :=
  {| Local := Local c; Remote := r; hasCodec := hasCodec c; Audio := Audio c; DTMF := DTMF c; Crypto := Crypto c;
     PeerDirection := PeerDirection c |}.

Inductive PortEffect :=
| PePipeline (gen : nat) (e : VEffect)        (* of building or closing a pipeline *)
| PeCloseSwitch (w : chain)                   (* what a switch held is closed *)
| PeDrain | PeConnClose                       (* the socket is drained, or closed *)
| PeCloseRoom                                 (* audioIn and dtmfIn are closed, on to the room *)
| PePeerCodecs (reinvite : bool)
| PeParseError | PeParsePanic
| PeArm.                                      (* SetTimeout with the configured values *)

(** A panic of a parser is recovered. *)
Inductive Parsed (A : Type) := ParsedOk (a : A) | ParsedErr (e : error) | ParsedPanic.
Arguments ParsedOk {A}. Arguments ParsedErr {A}. Arguments ParsedPanic {A}.

Section port.
Open Scope go_scope.
Context `{CodecEquals} (o : MediaOptions).
Abbreviation MP := (M mediaPort PortEffect).

Definition parseSDPWithRecovery {A} (mon : bool) (r : Parsed A) : MP (error + A) :=
  match r with
  | ParsedOk a => mreturn (inr a)
  | ParsedErr err => do* mwhen mon (memit PeParseError) in mreturn (inl err)
  | ParsedPanic => do* mwhen mon (memit PeParsePanic) in mreturn (inl (EText "invalid SDP"))
  end.

Definition closeSwitch (w : option chain) : MP unit :=
  match w with Some w => memit (PeCloseSwitch w) | None => mreturn tt end.

(** The effects of a run of the pipeline's code. *)
Fixpoint emits (n : nat) (l : list VEffect) : MP unit :=
  match l with [] => mreturn tt | e :: l' => do* memit (PePipeline n e) in emits n l' end.

Definition closePipelineLocked : MP unit :=
  let* p := mget in
  do* closeSwitch (p_audioOut p) in
  do* closeSwitch (p_dtmfOut p) in
  do* mmodify (set_outs None None) in
  match p_pipeline p with
  | Some (n, q) =>
      let '(_, _, t) := pl_Close q in
      do* emits n t in
      mmodify (fun p => set_pipeline None (p_built p) (p_localSDP p) p)
  | None => mreturn tt
  end.

(** [udp]: the connection is a UDP socket of the system. *)
Definition Close (udp : bool) : MP unit :=
  let* p := mget in
  if p_closed p then mreturn tt
  else
    do* mmodify set_closed in
    do* closePipelineLocked in
    do* mmodify (upd_port (fun u => udp_Close (udp_Close u))) in      (* Close, then unwrap *)
    do* memit (if udp then PeDrain else PeConnClose) in
    memit PeCloseRoom.

(** [offer]: what [NewOfferWith] returns, an offer being given by what its [Marshal] returns. *)
Definition GenerateOffer (offer : error + (error + string)) : MP (error + string) :=
  let* p := mget in
  match p_offer p with
  | Some sdp => mreturn sdp
  | None =>
      match offer with
      | inl err => mreturn (inl err)
      | inr sdp => do* mmodify (set_offer (Some sdp)) in mreturn sdp
      end
  end.

Definition GetLocalSDP : MP (error + string) :=
  let* p := mget in
  match p_pipeline p with
  | None => mreturn (inl (EText "no SDP provided, no local SDP available"))
  | Some _ =>
      if String.eqb (p_localSDP p) "" then mreturn (inl (EText "no SDP provided, no local SDP available"))
      else mreturn (inr (p_localSDP p))
  end.

(** [holdEnabled] is false, so a request for hold is only noticed. *)
Definition holdEnabled : bool := false.

Definition configure (now : Z) (e : BuildEnv) (sampleRate : Z) (c : MediaConfig) (localSDP : string)
    : MP (option error) :=
  if negb (hasCodec c) then mreturn (Some (ESDP (EText "no audio codec selected")))
  else
    do* mmodify (set_offer None) in
    let* p := mget in
    if p_closed p then mreturn (Some (EText "media is already closed"))
    else
      let summary := NewChangeSetSummary (p_negotiated p) c in
      if includes summary changeSetLocalAddr then mreturn (Some (EText "unexpected local address change"))
      else
        let remoteChanged := includes summary changeSetRemoteAddr in
        do* mwhen (remoteChanged && negb (IsUnspecified (ap_Addr (Remote c))))
              (mmodify (fun p => set_negotiated (with_remote (Remote c) <$> p_negotiated p)
                                   (upd_port (SetDst now (Remote c)) p))) in
        let hold :=
          if includes summary changeSetPeerDirection then bool_decide (PeerDirection c = DirSendOnly)
          else remoteChanged && IsUnspecified (ap_Addr (Remote c)) in
        do* mwhen (holdEnabled && hold)
              (mmodify (fun p =>
                 set_outs None None
                   (upd_port (SetDst now {| ap_Addr := if Is4 (ap_Addr (Remote c)) then Addr4 0 else Addr6 0;
                                            ap_Port := ap_Port (Remote c) |}) p))) in
        if shouldReconfigure summary then
          if negb (summary =? changeSetNew) then mreturn None
          else
            (* what the switches held was taken out of them before; it is not closed *)
            do* mmodify (set_outs None None) in
            do* closePipelineLocked in
            do* mmodify (upd_port (fun u => Reopen (stopDiscarding u))) in
            do* mmodify (upd_port (initPort o now c)) in
            let* p := mget in
            let '(r, t) := NewMediaPortPipeline o e c sampleRate in
            do* emits (p_built p) t in
            match r with
            | inl err => mreturn (Some err)
            | inr q =>
                do* mmodify (fun p => set_pipeline (Some (p_built p, q)) (S (p_built p)) localSDP p) in
                do* mmodify (set_outs (GetConnectors q).1 (GetConnectors q).2) in
                do* mmodify (set_negotiated (Some c)) in
                mreturn None
            end
        else
          do* mmodify (set_negotiated (Some c)) in
          mreturn None.

(** What the SDP library makes of an offer: parsed, answered, printed. *)
Record AnswerEnvS := {
  an_parsed : Parsed unit;
  an_answer : error + MediaConfig;
  an_text : error + string;
}.

Definition GenerateAnswer (now : Z) (mon : bool) (e : BuildEnv) (rate : Z) (a : AnswerEnvS) (offer : string)
    : MP (error + string) :=
  if String.eqb offer "" then GetLocalSDP
  else
    let* parsed := parseSDPWithRecovery mon (an_parsed a) in
    match parsed with
    | inl err => mreturn (inl (ESDP err))
    | inr _ =>
        let* p := mget in
        do* mwhen mon (memit (PePeerCodecs (match p_negotiated p with Some _ => true | None => false end))) in
        match an_answer a with
        | inl err => mreturn (inl (ESDP err))
        | inr mc =>
            match an_text a with
            | inl err => mreturn (inl err)
            | inr data =>
                let* r := configure now e rate mc data in
                mreturn (match r with Some err => inl err | None => inr data end)
            end
        end
    end.

Definition ProcessAnswer (now : Z) (mon : bool) (e : BuildEnv) (rate : Z) (a : AnswerEnvS) (answer : string)
    : MP (option error) :=
  if String.eqb answer "" then mreturn (Some (EText "no answer provided"))
  else
    let* p := mget in
    match p_offer p with
    | None => mreturn (Some (EText "no offer generated"))
    | Some _ =>
        let* parsed := parseSDPWithRecovery mon (an_parsed a) in
        match parsed with
        | inl err => mreturn (Some (ESDP err))
        | inr _ =>
            match an_answer a with
            | inl err => mreturn (Some (ESDP err))
            | inr mc =>
                match an_text a with
                | inl err => mreturn (Some err)
                | inr data =>
                    let* r := configure now e rate mc data in
                    match r with
                    | Some err => mreturn (Some err)
                    | None => do* memit PeArm in mreturn None
                    end
                end
            end
        end
    end.

Definition NegotiatedAudio (p : mediaPort) : option CodecInfo := Audio <$> p_negotiated p.
End port.

(** ** Theorems on negotiation *)
Lemma orIf_testbit b k c n : 0 <= k -> 0 <= n -> Z.testbit (orIf b (Z.shiftl 1 k) c) n = (b && (n =? k)) || Z.testbit c n.
Proof.
  intros Hk Hn. unfold orIf. destruct b; [|done]. rewrite Z.lor_spec, orb_comm. f_equal.
  rewrite Z.shiftl_1_l, Z.pow2_bits_eqb by lia. apply Z.eqb_sym.
Qed.

Lemma includes_testbit c k : 0 <= k -> includes c (Z.shiftl 1 k) = Z.testbit c k.
Proof.
  intros Hk. unfold includes. rewrite Z.shiftl_1_l.
  assert (Z.land c (2 ^ k) = if Z.testbit c k then 2 ^ k else 0) as ->.
  { apply Z.bits_inj'. intros n Hn. rewrite Z.land_spec, Z.pow2_bits_eqb by lia.
    destruct (Z.eqb_spec k n) as [->|Hne].
    - destruct (Z.testbit c n) eqn:E; [|by rewrite Z.bits_0]. by rewrite Z.pow2_bits_true by lia.
    - rewrite andb_false_r. destruct (Z.testbit c k); [|by rewrite Z.bits_0].
      by rewrite Z.pow2_bits_false by done. }
  destruct (Z.testbit c k); [|done]. by rewrite (proj2 (Z.eqb_neq _ _)) by (pose proof (Z.pow_pos_nonneg 2 k); lia).
Qed.

Section changes.
Context `{CodecEquals}.

(** The six bits of a summary, and whether the pipeline has to be rebuilt. *)
Lemma summary_bits cur new :
  let c := NewChangeSetSummary (Some cur) new in
  includes c changeSetNew = false /\
  includes c changeSetAudioCodec = negb (codecEquals (Some (Audio cur)) (Some (Audio new))) /\
  includes c changeSetDTMF = negb (codecEquals (DTMF cur) (DTMF new)) /\
  includes c changeSetCrypto = negb (sameCrypto (Crypto cur) (Crypto new)) /\
  includes c changeSetLocalAddr = negb (bool_decide (Local cur = Local new)) /\
  includes c changeSetRemoteAddr = negb (bool_decide (Remote cur = Remote new)) /\
  includes c changeSetPeerDirection = negb (bool_decide (PeerDirection cur = PeerDirection new)) /\
  shouldReconfigure c = negb (codecEquals (Some (Audio cur)) (Some (Audio new)) &&
                              codecEquals (DTMF cur) (DTMF new) && sameCrypto (Crypto cur) (Crypto new)).
Proof.
  cbv zeta. unfold NewChangeSetSummary.
  generalize (codecEquals (Some (Audio cur)) (Some (Audio new))), (codecEquals (DTMF cur) (DTMF new)),
    (sameCrypto (Crypto cur) (Crypto new)), (bool_decide (Local cur = Local new)),
    (bool_decide (Remote cur = Remote new)), (bool_decide (PeerDirection cur = PeerDirection new)).
  intros [] [] [] [] [] []; vm_compute; auto 10.
Qed.
End changes.

(** The operations of a port, with what the SDK and the SDP library return. *)
Inductive PortOp :=
| OpOffer (r : error + (error + string))
| OpAnswer (now : Z) (mon : bool) (e : BuildEnv) (rate : Z) (a : AnswerEnvS) (offer : string)
| OpProcess (now : Z) (mon : bool) (e : BuildEnv) (rate : Z) (a : AnswerEnvS) (answer : string)
| OpClose (udp : bool).

Definition runPortOp `{CodecEquals} (o : MediaOptions) (op : PortOp) : M mediaPort PortEffect unit :=
  match op with
  | OpOffer r => do* GenerateOffer r in mreturn tt
  | OpAnswer now mon e rate a offer => do* GenerateAnswer o now mon e rate a offer in mreturn tt
  | OpProcess now mon e rate a answer => do* ProcessAnswer o now mon e rate a answer in mreturn tt
  | OpClose udp => Close udp
  end%go.

Fixpoint runPortOps `{CodecEquals} (o : MediaOptions) (l : list PortOp) : M mediaPort PortEffect unit :=
  match l with [] => mreturn tt | op :: l' => do* runPortOp o op in runPortOps o l' end%go.

Definition opened (t : list PortEffect) : nat :=
  countb (fun e => match e with PePipeline _ VSession => true | _ => false end) t.
Definition closings (t : list PortEffect) : nat :=
  countb (fun e => match e with PePipeline _ VSessionClose => true | _ => false end) t.
Definition roomCloses (t : list PortEffect) : nat :=
  countb (fun e => match e with PeCloseRoom => true | _ => false end) t.
Definition live (p : mediaPort) : nat := match p_pipeline p with Some _ => 1 | None => 0 end.

(** The invariant of a port. *)
Record portInv (p : mediaPort) : Prop := {
  pi_pipeline : forall n q, p_pipeline p = Some (n, q) ->
    is_Some (p_negotiated p) /\ p_closed p = false /\ sess q = true /\ chainsOK q /\
    p_audioOut p = (GetConnectors q).1 /\ p_dtmfOut p = (GetConnectors q).2 /\
    closed (p_port p) = false /\ discarding (p_port p) = false;
  pi_none : p_pipeline p = None -> p_audioOut p = None /\ p_dtmfOut p = None /\
    (p_closed p = false -> p_negotiated p = None /\ p_built p = 0%nat);
  pi_built : (p_built p <= 1)%nat;
  pi_closed : p_closed p = true -> closed (p_port p) = true;
}.

(** An operation keeps the invariant; it opens and closes sessions with the pipelines; and
    the room is told at most once, by the close. *)
Definition portRel (p : mediaPort) (t : list PortEffect) (p' : mediaPort) : Prop :=
  portInv p -> portInv p' /\ (opened t + live p = closings t + live p')%nat /\
    roomCloses t = (if p_closed p' then if p_closed p then 0 else 1 else 0)%nat /\
    (p_closed p = true -> p_closed p' = true).

#[global] Instance portRel_trace : TraceRel portRel.
Proof.
  split.
  - intros p Hp. split_and!; [done|done| |done]. by destruct (p_closed p).
  - intros p1 t1 p2 t2 p3 H1 H2 Hp. destruct (H1 Hp) as (I2 & C1 & R1 & M1). destruct (H2 I2) as (I3 & C2 & R2 & M2).
    unfold opened, closings, roomCloses in *. rewrite !countb_app. split_and!; [done|lia| |auto].
    rewrite R1, R2. destruct (p_closed p1) eqn:E1, (p_closed p2) eqn:E2, (p_closed p3) eqn:E3; try done;
      exfalso; (discriminate (M1 eq_refl) || discriminate (M2 eq_refl)).
Qed.

Lemma emits_run n l p : emits n l p = (tt, p, map (PePipeline n) l).
Proof. induction l as [|e l IH]; [done|]. cbn. unfold mbind', memit. by rewrite IH. Qed.

Lemma emits_counts n l :
  opened (map (PePipeline n) l) = countb isSession l /\ closings (map (PePipeline n) l) = countb isSessionClose l /\
  roomCloses (map (PePipeline n) l) = 0%nat.
Proof.
  unfold opened, closings, roomCloses. induction l as [|e l (I1 & I2 & I3)]; [done|]. cbn [map].
  rewrite !countb_cons, I1, I2, I3. by destruct e.
Qed.

Lemma SetDst_flags now a u :
  closed (SetDst now a u) = closed u /\ discarding (SetDst now a u) = discarding u.
Proof.
  unfold SetDst. destruct (ap_IsValid a); [|done].
  destruct (validPrev (dst u)) as [prev|]; [|done]. by destruct (decide (prev = a)).
Qed.

Lemma initPort_flags o now c u :
  closed (initPort o now c u) = closed u /\ discarding (initPort o now c u) = discarding u.
Proof.
  unfold initPort. pose proof (SetDst_flags now (Remote c) u). by destruct (IgnoreLocalAddrInSDP o && _).
Qed.

(** Closing the pipeline, if there is one. *)
Lemma closePipelineLocked_spec p :
  (forall n q, p_pipeline p = Some (n, q) -> sess q = true /\ chainsOK q) ->
  mspec closePipelineLocked p (fun _ p' t =>
    p' = set_outs None None (set_pipeline None (p_built p) (p_localSDP p) p) /\
    opened t = 0%nat /\ closings t = live p /\ roomCloses t = 0%nat).
Proof.
  intros Hp. unfold closePipelineLocked, live.
  assert (forall w p, mspec (closeSwitch w) p (fun _ p' t => p' = p /\ opened t = 0%nat /\ closings t = 0%nat /\
            roomCloses t = 0%nat)) as Hc by (intros [w|] q; unfold closeSwitch; by mstep).
  mstep. mstep. mstep. eapply mspec_mono; [apply Hc|]. cbv beta. intros _ p1 t1 (-> & O1 & C1 & R1).
  mstep. eapply mspec_mono; [apply Hc|]. cbv beta. intros _ p2 t2 (-> & O2 & C2 & R2).
  mstep. mstep. destruct (p_pipeline p) as [[n q]|] eqn:Ep.
  - destruct (Hp n q eq_refl) as (Hs & Hq).
    pose proof (pl_Close_ok q Hq) as Hcl. unfold mspec in Hcl.
    destruct (pl_Close q) as [[u q'] t] eqn:Eq. destruct Hcl as (_ & N1 & N2).
    mstep. unfold mspec at 1. rewrite emits_run. mstep. destruct (emits_counts n t) as (E1 & E2 & E3).
    unfold opened, closings, roomCloses in *. rewrite !countb_app, O1, O2, C1, C2, R1, R2, E1, E2, E3, N1, N2, Hs.
    cbn. split_and!; done.
  - mstep. unfold opened, closings, roomCloses in *. rewrite !countb_app, O1, O2, C1, C2, R1, R2. cbn.
    split_and!; try done. destruct p. cbn in *. by subst.
Qed.

(** A premise of the outcome can be used for the run. *)
Lemma mspec_imp {S E A} (P : Prop) (m : M S E A) s (Q : A -> S -> list E -> Prop) :
  (P -> mspec m s Q) -> mspec m s (fun a s' t => P -> Q a s' t).
Proof. unfold mspec. destruct (m s) as [[a s'] t]. auto. Qed.

Section portrel.
Context `{CodecEquals} (o : MediaOptions).

Lemma Close_rel udp : mrel portRel (Close udp).
Proof.
  apply mrel_get; [apply _|]. intros p. destruct (p_closed p) eqn:Ec.
  { mstep. apply tr_refl. }
  apply mspec_imp. intros Hp. mstep. mstep. mstep.
  eapply mspec_mono; [apply closePipelineLocked_spec|].
  { intros n q Eq. cbn in Eq. by destruct (pi_pipeline p Hp n q Eq) as (_ & _ & ? & ? & _). }
  cbv beta. intros _ p' t (-> & O & C & R). change (live (set_closed p)) with (live p) in C.
  mstep. mstep. mstep. mstep. mstep. cbn [app]. rewrite Ec. cbn [p_closed set_outs set_pipeline set_closed upd_port].
  unfold opened, closings, roomCloses in *. rewrite !countb_app, O, C, R.
  split; [split; cbn; try done; apply Hp|].
  change (live (upd_port _ _)) with 0%nat. destruct udp; cbn [countb List.filter length]; split_and!; try done; lia.
Qed.

Lemma GenerateOffer_rel r : mrel portRel (GenerateOffer r).
Proof.
  apply mrel_get; [apply _|]. intros p. destruct (p_offer p); [mstep; apply tr_refl|].
  destruct r; [mstep; apply tr_refl|]. repeat mstep. cbn [app]. intros Hp. cbn [p_closed set_offer].
  split; [by destruct Hp; split|]. split_and!; try done. by destruct (p_closed p).
Qed.

Lemma GetLocalSDP_rel : mrel portRel GetLocalSDP.
Proof.
  apply mrel_get; [apply _|]. intros p. destruct (p_pipeline p); [|mstep; apply tr_refl].
  destruct (String.eqb _ _); mstep; apply tr_refl.
Qed.

Lemma parse_rel {A} mon (r : Parsed A) : mrel portRel (parseSDPWithRecovery mon r).
Proof.
  assert (forall e, (e = PeParseError \/ e = PeParsePanic) -> mrel portRel (memit e)) as He.
  { intros e Hx p. mstep. intros Hp. split_and!; try done; destruct Hx as [-> | ->]; cbn; by destruct (p_closed p). }
  destruct r; unfold parseSDPWithRecovery; repeat rel_step; apply He; auto.
Qed.
(** Changes of the port's socket, offer and description that keep what the invariant
    says of the pipeline. *)
Lemma keep_rel p p' :
  p_pipeline p' = p_pipeline p -> p_built p' = p_built p -> p_audioOut p' = p_audioOut p ->
  p_dtmfOut p' = p_dtmfOut p -> p_closed p' = p_closed p ->
  (closed (p_port p') = closed (p_port p) /\ discarding (p_port p') = discarding (p_port p)) ->
  (is_Some (p_negotiated p') <-> is_Some (p_negotiated p)) -> portRel p [] p'.
Proof.
  intros E1 E2 E3 E4 E5 [E6 E7] E8 Hp. unfold live. rewrite E1, E5.
  split; [|split_and!; try done; by destruct (p_closed p)].
  destruct Hp as [H1 H2 H3 H4]. split; rewrite ?E1, ?E2, ?E3, ?E4, ?E5, ?E6, ?E7; auto.
  - intros n q Eq. destruct (H1 n q Eq) as (? & ?). split; [by apply E8|done].
  - intros Eq. destruct (H2 Eq) as (? & ? & Hn). split_and!; [done..|]. intros Hc. destruct (Hn Hc) as [Hno ?].
    split; [|done]. destruct (p_negotiated p'); [|done]. exfalso.
    destruct (proj1 E8 ltac:(done)) as [x Hx]. congruence.
Qed.

(** The first negotiation. *)
Definition buildFirst (now : Z) (e : BuildEnv) (rate : Z) (c : MediaConfig) (sdp : string)
    : M mediaPort PortEffect (option error) :=
  (do* mmodify (set_outs None None) in
   do* closePipelineLocked in
   do* mmodify (upd_port (fun u => Reopen (stopDiscarding u))) in
   do* mmodify (upd_port (initPort o now c)) in
   let* p := mget in
   let '(r, t) := NewMediaPortPipeline o e c rate in
   do* emits (p_built p) t in
   match r with
   | inl err => mreturn (Some err)
   | inr q =>
       do* mmodify (fun p => set_pipeline (Some (p_built p, q)) (S (p_built p)) sdp p) in
       do* mmodify (set_outs (GetConnectors q).1 (GetConnectors q).2) in
       do* mmodify (set_negotiated (Some c)) in
       mreturn None
   end)%go.

Lemma NewMediaPortPipeline_live e c rate q t :
  NewMediaPortPipeline o e c rate = (inr q, t) -> sess q = true /\ chainsOK q.
Proof.
  unfold NewMediaPortPipeline. pose proof (init_ok o e c rate) as Hi. unfold mspec in Hi.
  destruct (init o e c rate newPipeline) as [[r p] t']. destruct Hi as (_ & C & _ & _ & Hs).
  destruct r; [by destruct (pl_Close p) as [[? ?] ?]|]. intros [= <- _]. auto.
Qed.

Lemma NewMediaPortPipeline_counts e c rate :
  let '(r, t) := NewMediaPortPipeline o e c rate in
  countb isSession t = (countb isSessionClose t + match r with inr _ => 1 | inl _ => 0 end)%nat.
Proof.
  unfold NewMediaPortPipeline. pose proof (init_ok o e c rate) as Hi. unfold mspec in Hi.
  destruct (init o e c rate newPipeline) as [[r p] t]. destruct Hi as (_ & C & N1 & N2 & Hs).
  destruct r as [err|]; [|rewrite N1, N2, (Hs eq_refl); done].
  pose proof (pl_Close_ok p C) as Hc. unfold mspec in Hc. destruct (pl_Close p) as [[u p'] t'].
  destruct Hc as (_ & N3 & N4). rewrite !countb_app, N1, N2, N3, N4. destruct (sess p); done.
Qed.

Lemma buildFirst_rel now e rate c sdp p :
  p_closed p = false -> p_pipeline p = None -> p_negotiated p = None -> p_built p = 0%nat ->
  mspec (buildFirst now e rate c sdp) p (fun _ p' t => portRel p t p').
Proof.
  intros Hc Hn Hg Hb. unfold buildFirst. mstep. mstep. mstep.
  eapply mspec_mono; [apply closePipelineLocked_spec; cbn; by rewrite Hn|].
  cbv beta. intros _ p' t0 (-> & O0 & C0 & R0). mstep. mstep. mstep. mstep. mstep. mstep.
  cbn [p_built upd_port set_outs set_pipeline]. rewrite Hb.
  pose proof (NewMediaPortPipeline_counts e c rate) as Hcnt.
  destruct (NewMediaPortPipeline o e c rate) as [r t] eqn:En.
  mstep. unfold mspec at 1. rewrite emits_run. destruct (emits_counts 0 t) as (E1 & E2 & E3).
  assert (live p = 0%nat) as Hl by (unfold live; by rewrite Hn).
  change (live (set_outs None None p)) with (live p) in C0.
  destruct (initPort_flags o now c (Reopen (stopDiscarding (p_port p)))) as [F1 F2].
  destruct r as [err|q].
  - mstep. cbn [app]. intros Hp. unfold opened, closings, roomCloses in *. rewrite !countb_app, O0, C0, R0, E1, E2, E3, ?countb_nil.
    rewrite Hl. change (live (upd_port _ _)) with 0%nat. change (p_closed (upd_port _ _)) with (p_closed p).
    rewrite Hc. split; [|split_and!; [lia|done|done]].
    split; cbn; try done; try lia; rewrite ?Hg, ?Hc; done.
  - destruct (NewMediaPortPipeline_live _ _ _ _ _ En) as [Hs Hq].
    mstep. mstep. mstep. mstep. mstep. mstep. mstep. cbn [app]. intros Hp.
    unfold opened, closings, roomCloses in *. rewrite !countb_app, O0, C0, R0, E1, E2, E3, ?countb_nil.
    rewrite Hl. change (live (set_negotiated _ _)) with 1%nat. change (p_closed (set_negotiated _ _)) with (p_closed p).
    rewrite Hc. split; [|split_and!; [lia|done|done]].
    split; cbn; try done; try lia.
    + intros n q' [= <- <-]. rewrite F1, F2. split_and!; done.
    + by rewrite Hc.
Qed.

Lemma configure_rel now e rate c sdp : mrel portRel (configure o now e rate c sdp).
Proof.
  unfold configure. destruct (hasCodec c); cbn [negb]; [|apply mrel_ret, _].
  apply mrel_bind; [apply _| |intros _].
  { intros p. mstep. by apply keep_rel. }
  apply mrel_get; [apply _|]. intros p. destruct (p_closed p) eqn:Hc; [mstep; apply tr_refl|].
  destruct (p_negotiated p) as [cur|] eqn:Hg.
  - destruct (summary_bits cur c) as (Bn & _ & _ & _ & _ & _ & _ & _).
    set (sm := NewChangeSetSummary (Some cur) c) in *.
    destruct (includes sm changeSetLocalAddr); [mstep; apply tr_refl|].
    assert ((sm =? changeSetNew) = false) as Hne.
    { apply Z.eqb_neq. intros E. rewrite E in Bn. discriminate Bn. }
    rewrite Hne. cbn [holdEnabled andb negb mwhen].
    set (p1 := if includes sm changeSetRemoteAddr && negb (IsUnspecified (ap_Addr (Remote c)))
               then set_negotiated (with_remote (Remote c) <$> p_negotiated p) (upd_port (SetDst now (Remote c)) p)
               else p).
    assert (portRel p [] p1 /\ portRel p [] (set_negotiated (Some c) p1)) as [K1 K2].
    { unfold p1. rewrite Hg. pose proof (SetDst_flags now (Remote c) (p_port p)).
      destruct (includes sm _ && _); split; try apply keep_rel; cbn; try done; rewrite ?Hg; by split; intros [? ?]. }
    mstep. mstep; [mstep|]; (mstep; mstep; destruct (shouldReconfigure sm);
      [mstep; cbn [app]|mstep; mstep; mstep; cbn [app]]);
      match goal with E : includes sm _ && _ = _ |- _ => unfold p1 in K1, K2; rewrite E, ?Hg in K1, K2; rewrite ?Hg; done end.
  - change (NewChangeSetSummary None c) with changeSetNew.
    change (includes changeSetNew changeSetLocalAddr) with false.
    change (includes changeSetNew changeSetRemoteAddr) with false.
    change (includes changeSetNew changeSetPeerDirection) with false.
    change (shouldReconfigure changeSetNew) with true. change (changeSetNew =? changeSetNew) with true.
    cbn [andb negb mwhen holdEnabled].
    apply mspec_imp. intros Hp. mstep. mstep. mstep. mstep. cbn [app].
    destruct (p_pipeline p) as [[n q]|] eqn:Ep.
    { destruct (pi_pipeline p Hp n q Ep) as ([x Hx] & _). congruence. }
    destruct (pi_none p Hp Ep) as (_ & _ & Hb). destruct (Hb Hc) as [_ Hbuilt].
    eapply mspec_mono; [apply (buildFirst_rel now e rate c sdp p Hc Ep Hg Hbuilt)|].
    cbv beta. intros r p' t Hr. by apply Hr.
Qed.
End portrel.

Ltac port_rels :=
  repeat lazymatch goal with
  | |- mrel _ GetLocalSDP => apply GetLocalSDP_rel
  | |- mrel _ (parseSDPWithRecovery _ _) => apply parse_rel
  | |- mrel _ (configure _ _ _ _ _ _) => apply configure_rel
  | |- portRel ?p _ ?p => intros Hp; split_and!; try done; by destruct (p_closed p)
  | |- _ => rel_step
  end.

Lemma GenerateAnswer_rel `{CodecEquals} o now mon e rate a offer :
  mrel portRel (GenerateAnswer o now mon e rate a offer).
Proof. unfold GenerateAnswer. port_rels. Qed.

Lemma ProcessAnswer_rel `{CodecEquals} o now mon e rate a answer :
  mrel portRel (ProcessAnswer o now mon e rate a answer).
Proof. unfold ProcessAnswer. port_rels. Qed.

Lemma runPortOp_rel `{CodecEquals} o op : mrel portRel (runPortOp o op).
Proof.
  destruct op; cbn [runPortOp]; repeat rel_step;
    auto using GenerateOffer_rel, GenerateAnswer_rel, ProcessAnswer_rel, Close_rel.
Qed.

Lemma newMediaPort_inv b : portInv (newMediaPort b).
Proof. split; cbn; try done. lia. Qed.

(** C17: The life of a media port.  After any sequence of offers, answers, re-negotiations and
    closes, whatever the SDP library and the SDK return: at most one pipeline was ever
    built; every session opened is closed again except that of the pipeline in use; a
    pipeline in use is connected to the port's writers and reads from an open socket;
    after a close there is none, nothing is connected, and the room was told exactly
    once. *)
Theorem mediaPort_life `{CodecEquals} o sym l :
  let '(_, p, t) := runPortOps o l (newMediaPort sym) in
  portInv p /\ opened t = (closings t + live p)%nat /\
  roomCloses t = (if p_closed p then 1 else 0)%nat /\ (p_closed p = true -> live p = 0%nat).
Proof.
  assert (mrel portRel (runPortOps o l)) as Hr.
  { induction l as [|op l IH]; cbn [runPortOps]; [apply mrel_ret, _|].
    apply mrel_bind; [apply _|apply runPortOp_rel|done]. }
  specialize (Hr (newMediaPort sym)). unfold mspec in Hr.
  destruct (runPortOps o l (newMediaPort sym)) as [[u p] t].
  destruct (Hr (newMediaPort_inv sym)) as (Hp & Hc & Hrc & _). cbn in Hc, Hrc.
  split_and!; [done|lia|done|]. intros Hcl. unfold live. destruct (p_pipeline p) as [[n q]|] eqn:E; [|done].
  destruct (pi_pipeline p Hp n q E) as (_ & ? & _). congruence.
Qed.

(** Re-negotiation keeps the media.  When a re-INVITE changes the codec, the answer that is
    sent is the one for the new codec, but the pipeline, the codec reported for the call
    and the stored local description stay those of the first negotiation. *)
Theorem renegotiation_not_applied `{CodecEquals} o now mon e rate a offer p cur mc data :
  offer <> "" -> an_parsed a = ParsedOk tt -> an_answer a = inr mc -> an_text a = inr data ->
  hasCodec mc = true -> p_closed p = false -> p_negotiated p = Some cur -> Local cur = Local mc ->
  codecEquals (Some (Audio cur)) (Some (Audio mc)) = false ->
  mspec (GenerateAnswer o now mon e rate a offer) p (fun r p' _ =>
    r = inr data /\ p_pipeline p' = p_pipeline p /\ NegotiatedAudio p' = Some (Audio cur) /\
    p_localSDP p' = p_localSDP p).
Proof.
  intros Ho Ha Hm Ht Hh Hc Hg Hl Heq. unfold GenerateAnswer. rewrite (proj2 (String.eqb_neq _ _) Ho), Ha, Hm, Ht.
  cbn [parseSDPWithRecovery]. mstep. mstep. mstep. mstep. mstep.
  enough (mspec (configure o now e rate mc data) p (fun r p' _ =>
    r = None /\ p_pipeline p' = p_pipeline p /\ NegotiatedAudio p' = Some (Audio cur) /\ p_localSDP p' = p_localSDP p)) as Hq.
  { assert (mspec (let* r := configure o now e rate mc data in
                   mreturn (match r with Some err => inl err | None => inr data end))%go p (fun r p' _ =>
      r = inr data /\ p_pipeline p' = p_pipeline p /\ NegotiatedAudio p' = Some (Audio cur) /\
      p_localSDP p' = p_localSDP p)) as Hf.
    { mstep. eapply mspec_mono; [exact Hq|]. cbv beta. intros r p' t (-> & H1). by mstep. }
    rewrite Hg. mstep; [mstep|]; done. }
  unfold configure. rewrite Hh. cbn [negb]. mstep. mstep. mstep. mstep. cbn [p_closed p_negotiated set_offer].
  rewrite Hc, Hg. destruct (summary_bits cur mc) as (Bn & _ & _ & _ & Bl & _ & _ & Br).
  set (sm := NewChangeSetSummary (Some cur) mc) in *. rewrite Bl, bool_decide_true by done. cbn [negb].
  rewrite Br, Heq. cbn [andb negb holdEnabled mwhen].
  assert ((sm =? changeSetNew) = false) as ->.
  { apply Z.eqb_neq. intros E. rewrite E in Bn. discriminate Bn. }
  unfold NegotiatedAudio. mstep. mstep; [mstep|]; repeat mstep; cbn; rewrite Hg; done.
Qed.

(** ** Draining a closed port *)
Record DrainEvent := {
  dv_at : Z;                     (* when the deadline is set and the read starts *)
  dv_err : option error;         (* of the read; [None] is a packet *)
  dv_now : Z;                    (* when it has returned *)
}.

Inductive DrainReason := DrMaxDuration | DrIdleTimeout | DrError.

Definition currentDeadline (idle : Z) (maxDeadline : option Z) (at_ : Z) : Z :=
  match maxDeadline with Some m => Z.min m (at_ + idle) | None => at_ + idle end.

(** Why the port is released and after how many packets; [None] while it is read. *)
Fixpoint drainLoop (idle : Z) (maxDeadline : option Z) (l : list DrainEvent) (packets : Z)
    : option (DrainReason * Z) :=
  match l with
  | [] => None
  | ev :: l' =>
      match dv_err ev with
      | None => drainLoop idle maxDeadline l' (u64 (packets + 1))
      | Some err =>
          if errors.Is err os_ErrDeadlineExceeded then
            if match maxDeadline with Some m => m <? dv_now ev | None => false end then Some (DrMaxDuration, packets)
            else if currentDeadline idle maxDeadline (dv_at ev) <? dv_now ev then Some (DrIdleTimeout, packets)
            else drainLoop idle maxDeadline l' packets
          else Some (DrError, packets)
      end
  end.

(** [inl]: released at once. *)
Definition DrainPort (idleTimeout maxDuration start : Z) (l : list DrainEvent)
    : unit + option (DrainReason * Z) :=
  if (idleTimeout <=? 0) && (maxDuration <=? 0) then inl tt
  else
    let idle := if idleTimeout <=? 0 then maxDuration + second else idleTimeout in
    inr (drainLoop idle (if 0 <? maxDuration then Some (start + maxDuration) else None) l 0).

(** What the operating system promises: a read whose deadline has passed when it starts
    fails with the timeout error, and time does not go back. *)
Definition readOK (idle : Z) (maxDeadline : option Z) (ev : DrainEvent) : Prop :=
  dv_at ev <= dv_now ev /\
  (currentDeadline idle maxDeadline (dv_at ev) < dv_at ev ->
   exists err, dv_err ev = Some err /\ errors.Is err os_ErrDeadlineExceeded = true).

Lemma drainLoop_ends idle m l n :
  Forall (readOK idle (Some m)) l -> Exists (fun ev => m < dv_at ev) l -> is_Some (drainLoop idle (Some m) l n).
Proof.
  intros Hl. revert n. induction Hl as [|ev l [Ht Hr] Hl IH]; intros n He; [by apply Exists_nil in He|].
  cbn [drainLoop]. apply Exists_cons in He as [He|He].
  - destruct Hr as (err & -> & Hi); [cbn; lia|]. rewrite Hi, (proj2 (Z.ltb_lt _ _)) by lia. eauto.
  - destruct (dv_err ev) as [err|]; [|by apply IH]. destruct (errors.Is _ _); [|eauto].
    destruct (m <? dv_now ev); [eauto|]. destruct (currentDeadline _ _ _ <? _); [eauto|by apply IH].
Qed.

(** A closed call's port is released.  With a limit on the duration, the port is released
    by the first read that starts after the limit, however much media the peer keeps
    sending and whether or not an idle timeout is set. *)
Theorem DrainPort_released idleTimeout maxDuration start l :
  let idle := if idleTimeout <=? 0 then maxDuration + second else idleTimeout in
  0 < maxDuration -> Forall (readOK idle (Some (start + maxDuration))) l ->
  Exists (fun ev => start + maxDuration < dv_at ev) l ->
  exists r n, DrainPort idleTimeout maxDuration start l = inr (Some (r, n)).
Proof.
  intros idle Hm Hl He. unfold DrainPort. rewrite (proj2 (Z.leb_gt maxDuration 0)), andb_false_r by lia.
  rewrite (proj2 (Z.ltb_lt 0 maxDuration)) by lia. fold idle.
  destruct (drainLoop_ends idle _ l 0 Hl He) as [[r n] ->]. eauto.
Qed.

Lemma DrainPort_released_witness :
  exists r n, DrainPort 0 100 1000
    [{| dv_at := 1000; dv_err := None; dv_now := 1050 |};
     {| dv_at := 1101; dv_err := Some (ESentinel os_ErrDeadlineExceeded); dv_now := 1101 |}] = inr (Some (r, n)).
Proof.
  apply DrainPort_released; [reflexivity| |].
  - apply List.Forall_cons; [split; cbn; [lia|intros Hx; exfalso; revert Hx; by apply Z.le_ngt]|].
    apply List.Forall_cons; [|apply List.Forall_nil]. split; cbn; [lia|]. intros _. eexists. split; reflexivity.
  - apply List.Exists_cons_tl, List.Exists_cons_hd. cbn. lia.
Defined.

(** ** Examples *)
Definition exCodec (t : Z) : CodecInfo :=
  {| ci_Type := t; ci_Name := "PCMU/8000"; ci_RTPClockRate := 8000; ci_SampleRate := 8000 |}.
Definition exMedia (t : Z) : MediaConfig :=
  {| Local := exAddr 1; Remote := exAddr 2; hasCodec := true; Audio := exCodec t; DTMF := None; Crypto := None;
     PeerDirection := DirSendRecv |}.
Definition exOpts : MediaOptions :=
  {| SymmetricRTP := true; IgnoreLocalAddrInSDP := false; EnableJitterBuffer := true; LogSignalChanges := false;
     DTMFAudio := false; DropAudioDuringDTMF := false |}.
Definition exBuild : BuildEnv :=
  {| be_session := None; be_signal := None; be_decode := None; be_openWrite := None; be_encode := None;
     be_mixer := None |}.
Definition exAnswer (t : Z) (sdp : string) : AnswerEnvS :=
  {| an_parsed := ParsedOk tt; an_answer := inr (exMedia t); an_text := inr sdp |}.
#[global] Instance exCodecEquals : CodecEquals := fun a b =>
  match a, b with Some a, Some b => ci_Type a =? ci_Type b | None, None => true | _, _ => false end.
Definition exNegotiated : mediaPort :=
  (runPortOps exOpts [OpAnswer 1 true exBuild 48000 (exAnswer 0 "v=0 pcmu") "offer"] (newMediaPort true)).1.2.

Lemma renegotiation_not_applied_witness :
  mspec (GenerateAnswer exOpts 2 true exBuild 48000 (exAnswer 8 "v=0 pcma") "offer2") exNegotiated (fun r p' _ =>
    r = inr "v=0 pcma" /\ p_pipeline p' = p_pipeline exNegotiated /\ NegotiatedAudio p' = Some (exCodec 0) /\
    p_localSDP p' = p_localSDP exNegotiated).
Proof.
  exact (renegotiation_not_applied exOpts 2 true exBuild 48000 (exAnswer 8 "v=0 pcma") "offer2" exNegotiated
    (exMedia 0) (exMedia 8) "v=0 pcma" ltac:(discriminate) eq_refl eq_refl eq_refl eq_refl eq_refl eq_refl eq_refl eq_refl).
Defined.
