(* ===== verification/Room.v ===== *)
(** * The LiveKit room of a call

    [pkg/sip/room.go]: joining, subscribing to the other participants, recovering from
    a lost connection, DTMF in both directions, and closing.  The LiveKit SDK is outside:
    what it reports and returns is an argument.  The methods are state passing; closing
    and recovery, which run concurrently, are also a step relation. *)

From stdpp Require Import base tactics list gmap strings option.
From Stdlib Require Import ZArith Ascii Lia.
From S2P Require Import Prelude GoStd GoErr Participant.
Import strings strconv unquote.

(** ** State *)
Record ParticipantInfo := { pa_ID : string; pa_RoomName : string; pa_Identity : string; pa_Name : string }.

Definition noParticipant : ParticipantInfo := {| pa_ID := ""; pa_RoomName := ""; pa_Identity := ""; pa_Name := "" |}.

Record RoomConfig := {
  rc_WsUrl : string; rc_Token : string; rc_RoomName : string;
  rc_Identity : string; rc_Name : string; rc_Attributes : gmap string string   (* Participant *)
}.

Record reconnectState := { startedAt : Z; rs_sid : string }.

Record RoomStats := {
  TrackSubscribes : Z;
  Resumes : Z;
  Reconnects : Z;
  Recovering : bool;
  dataPackets : Z;
  st_Closed : bool;
}.

Record Room := {
  joined : bool;                     (* room is not nil *)
  r_p : option ParticipantInfo;
  reconnect : option reconnectState;
  recoveryClosed : bool;
  recoveries : nat;                  (* goroutines of recoveryWG *)
  ready : bool;
  subscribe : bool;
  subscribed : bool;
  stopped : bool;
  closed : bool;
  r_stats : RoomStats;
}.

Definition NewRoom : Room :=
  {| joined := false; r_p := None; reconnect := None; recoveryClosed := false; recoveries := 0; ready := false;
     subscribe := false; subscribed := false; stopped := false; closed := false;
     r_stats := {| TrackSubscribes := 0; Resumes := 0; Reconnects := 0; Recovering := false; dataPackets := 0;
                   st_Closed := false |} |}.

(** The fields, one update each. *)
Definition upd_room (j : bool) (p : option ParticipantInfo) (rd : bool) (r : Room) : Room :=
  {| joined := j; r_p := p; reconnect := reconnect r; recoveryClosed := recoveryClosed r; recoveries := recoveries r;
     ready := rd; subscribe := subscribe r; subscribed := subscribed r; stopped := stopped r; closed := closed r;
     r_stats := r_stats r |}.
Definition set_reconnect (c : option reconnectState) (st : RoomStats) (r : Room) : Room :=
  {| joined := joined r; r_p := r_p r; reconnect := c; recoveryClosed := recoveryClosed r;
     recoveries := recoveries r; ready := ready r; subscribe := subscribe r; subscribed := subscribed r;
     stopped := stopped r; closed := closed r; r_stats := st |}.
Definition set_recovery (c : bool) (n : nat) (r : Room) : Room :=
  {| joined := joined r; r_p := r_p r; reconnect := reconnect r; recoveryClosed := c; recoveries := n;
     ready := ready r; subscribe := subscribe r; subscribed := subscribed r; stopped := stopped r;
     closed := closed r; r_stats := r_stats r |}.
Definition set_subscribe (b : bool) (r : Room) : Room :=
  {| joined := joined r; r_p := r_p r; reconnect := reconnect r; recoveryClosed := recoveryClosed r;
     recoveries := recoveries r; ready := ready r; subscribe := b; subscribed := subscribed r; stopped := stopped r;
     closed := closed r; r_stats := r_stats r |}.
Definition set_fuses (sub stop cl : bool) (r : Room) : Room :=
  {| joined := joined r; r_p := r_p r; reconnect := reconnect r; recoveryClosed := recoveryClosed r;
     recoveries := recoveries r; ready := ready r; subscribe := subscribe r; subscribed := sub; stopped := stop;
     closed := cl; r_stats := r_stats r |}.
Definition set_stats (st : RoomStats) (r : Room) : Room := set_reconnect (reconnect r) st r.

Definition add_subscribe (s : RoomStats) : RoomStats :=
  {| TrackSubscribes := u64 (TrackSubscribes s + 1); Resumes := Resumes s; Reconnects := Reconnects s;
     Recovering := Recovering s; dataPackets := dataPackets s; st_Closed := st_Closed s |}.
Definition add_recovery (resumed : bool) (s : RoomStats) : RoomStats :=
  {| TrackSubscribes := TrackSubscribes s;
     Resumes := if resumed then u64 (Resumes s + 1) else Resumes s;
     Reconnects := if resumed then Reconnects s else u64 (Reconnects s + 1);
     Recovering := Recovering s; dataPackets := dataPackets s; st_Closed := st_Closed s |}.
Definition set_recovering (b : bool) (s : RoomStats) : RoomStats :=
  {| TrackSubscribes := TrackSubscribes s; Resumes := Resumes s; Reconnects := Reconnects s;
     Recovering := b; dataPackets := dataPackets s; st_Closed := st_Closed s |}.
Definition add_data (s : RoomStats) : RoomStats :=
  {| TrackSubscribes := TrackSubscribes s; Resumes := Resumes s; Reconnects := Reconnects s;
     Recovering := Recovering s; dataPackets := u64 (dataPackets s + 1); st_Closed := st_Closed s |}.
Definition set_stClosed (s : RoomStats) : RoomStats :=
  {| TrackSubscribes := TrackSubscribes s; Resumes := Resumes s; Reconnects := Reconnects s;
     Recovering := Recovering s; dataPackets := dataPackets s; st_Closed := true |}.

(** ** What the SDK shows *)
Inductive ParticipantKind := KindStandard | KindSIP | KindOther.

(** A publication of a remote participant: whether it is audio, and what subscribing
    returns. *)
Record Publication := { pub_sid : string; pub_audio : bool; pub_err : option error }.

Record RemoteParticipant := { rp_kind : ParticipantKind; rp_pubs : list Publication }.

(** The SDK's local participant: its SID and identity. *)
Record LocalParticipant := { lp_SID : string; lp_Identity : string }.

Inductive RoomEffect :=
| RSubscribe (sid : string)                     (* SetSubscribed(true) *)
| RRecover                                      (* a goroutine that subscribes again *)
| RDisconnect (reason : DisconnectReason)
| RCloseAudio | RCloseDTMF | RMixStop
| RWriteDTMF (digit : string)                   (* towards the caller *)
| RPublish (code : Z) (digit : string)          (* a data packet to the room *)
| RJoin (url token : string) (attrs : gmap string string)
| RSetAttributes (attrs : gmap string string).

Section room.
Open Scope go_scope.
Abbreviation RM := (M Room RoomEffect).

Definition participantJoin (rp : RemoteParticipant) : RM unit :=
  match rp_kind rp with
  | KindSIP => mmodify (fun r => set_fuses true (stopped r) (closed r) r)
  | _ => mreturn tt
  end.

Definition subscribeTo (pub : Publication) : RM unit :=
  if negb (pub_audio pub) then mreturn tt
  else
    do* mmodify (fun r => set_stats (add_subscribe (r_stats r)) r) in
    do* memit (RSubscribe (pub_sid pub)) in
    match pub_err pub with
    | Some _ => mreturn tt
    | None => mmodify (fun r => set_fuses true (stopped r) (closed r) r)
    end.

Fixpoint subscribePubs (l : list Publication) : RM unit :=
  match l with [] => mreturn tt | pub :: l' => do* subscribeTo pub in subscribePubs l' end.

Fixpoint subscribeAll (l : list RemoteParticipant) : RM unit :=
  match l with
  | [] => mreturn tt
  | rp :: l' => do* participantJoin rp in do* subscribePubs (rp_pubs rp) in subscribeAll l'
  end.

Definition OnParticipantConnected (rp : RemoteParticipant) : RM unit :=
  let* r := mget in mwhen (subscribe r) (participantJoin rp).

Definition OnTrackPublished (pub : Publication) : RM unit :=
  let* r := mget in mwhen (subscribe r) (subscribeTo pub).

Definition Subscribe (l : list RemoteParticipant) : RM unit :=
  let* r := mget in
  if negb (joined r) then mreturn tt
  else do* mmodify (set_subscribe true) in subscribeAll l.

Definition setParticipantFromRoom (lp : LocalParticipant) : RM unit :=
  mmodify (fun r =>
    if joined r then
      let cur := default noParticipant (r_p r) in
      upd_room true (Some {| pa_ID := lp_SID lp; pa_RoomName := pa_RoomName cur; pa_Identity := lp_Identity lp;
                             pa_Name := pa_Name cur |}) (ready r) r
    else r).

(** [keys]: the five attribute names of the protocol package that go into the token. *)
Definition tokenAttrs (keys : list string) (attrs : gmap string string) : gmap string string :=
  foldl (fun m k => match attrs !! k with Some v => <[k := v]> m | None => m end) ∅ keys.

(** [build]: [BuildSIPToken]; [join]: the SDK's answer. *)
Definition Connect (confUrl : string) (keys : list string) (rconf : RoomConfig)
    (build : gmap string string -> string + error) (join : option error) (lp : LocalParticipant) : RM (option error) :=
  let url := if String.eqb (rc_WsUrl rconf) "" then confUrl else rc_WsUrl rconf in
  do* mmodify (fun r => upd_room (joined r) (Some {| pa_ID := ""; pa_RoomName := rc_RoomName rconf;
                                                      pa_Identity := rc_Identity rconf; pa_Name := rc_Name rconf |}) (ready r) r) in
  match (if String.eqb (rc_Token rconf) "" then build (tokenAttrs keys (rc_Attributes rconf)) else inl (rc_Token rconf)) with
  | inr err => mreturn (Some err)
  | inl token =>
      do* memit (RJoin url token (rc_Attributes rconf)) in
      match join with
      | Some err => mreturn (Some err)
      | None =>
          do* mmodify (fun r => upd_room true (r_p r) (ready r) r) in
          do* setParticipantFromRoom lp in
          do* memit (RSetAttributes (rc_Attributes rconf)) in
          do* mmodify (fun r => upd_room (joined r) (r_p r) true r) in
          do* mmodify (set_subscribe false) in
          mreturn None
      end
  end.

(** ** Recovery *)
Definition onReconnecting (now : Z) (lp : LocalParticipant) : RM unit :=
  mmodify (fun r =>
    let sid := if joined r then lp_SID lp else "" in
    let st := set_recovering true (r_stats r) in
    set_reconnect (match reconnect r with
                   | Some c => Some c
                   | None => Some {| startedAt := now; rs_sid := sid |}
                   end) st r).

Definition onReconnected (lp : LocalParticipant) : RM unit :=
  let* r := mget in
  let prev := reconnect r in
  do* mmodify (fun r => set_reconnect None (set_recovering false (r_stats r)) r) in
  if negb (joined r) then mreturn tt
  else
    let resumed := match prev with Some c => String.eqb (rs_sid c) (lp_SID lp) | None => false end in
    do* mmodify (fun r => set_stats (add_recovery resumed (r_stats r)) r) in
    do* setParticipantFromRoom lp in
    if resumed then mreturn tt
    else
      let* r := mget in
      if negb (subscribe r) then mreturn tt
      else if recoveryClosed r then mreturn tt
      else
        do* mmodify (fun r => set_recovery (recoveryClosed r) (S (recoveries r)) r) in
        memit RRecover.

(** The goroutine, with the participants it finds. *)
Definition resubscribeAfterReconnect (l : list RemoteParticipant) : RM unit :=
  let* r := mget in
  do* mwhen (negb (closed r || stopped r)) (subscribeAll l) in
  mmodify (fun r => set_recovery (recoveryClosed r) (pred (recoveries r)) r).

Definition OnDisconnected : RM unit := mmodify (fun r => set_fuses (subscribed r) true (closed r) r).

(** ** Closing.  The wait for the goroutines is part of the step relation below. *)
Definition CloseWithReason (reason : DisconnectReason) : RM unit :=
  let* r := mget in
  do* mwhen (negb (closed r))
        (do* mmodify (fun r => set_subscribe false (set_fuses (subscribed r) (stopped r) true r)) in
         do* memit RCloseAudio in
         do* memit RCloseDTMF in
         do* mwhen (joined r) (memit (RDisconnect reason)) in
         do* mmodify (fun r => upd_room false (r_p r) (ready r) r) in
         do* memit RMixStop in
         mmodify (fun r => set_stats (set_stClosed (r_stats r)) r)) in
  mmodify (fun r => set_recovery true (recoveries r) r).

Definition ClosedReason (sdk : DisconnectReason) (r : Room) : DisconnectReason :=
  if joined r then sdk else UNKNOWN_REASON.

Definition RoomParticipant (r : Room) : ParticipantInfo := default noParticipant (r_p r).

(** ** DTMF *)
Definition OnDataPacket (digit : string) : RM unit :=
  do* mmodify (fun r => set_stats (add_data (r_stats r)) r) in
  memit (RWriteDTMF digit).

(** [publish]: of the SDK. *)
Definition SendData (code : Z) (digit : string) (publish : option error) : RM (option error) :=
  let* r := mget in
  if negb (ready r) || closed r || negb (joined r) then mreturn None
  else do* memit (RPublish code digit) in mreturn publish.

(** [tone]: the event code of [dtmf.Tone], if the byte is a DTMF key. *)
Definition inbound_WriteSample (tone : ascii -> option Z) (sample : string) (publish : option error)
    : RM (option error) :=
  match sample with
  | String c "" =>
      match tone c with
      | None => mreturn (Some (EText ("invalid DTMF sample " +:+ sample)))
      | Some code => SendData code sample publish
      end
  | _ => mreturn (Some (EText ("invalid DTMF sample length " +:+ Itoa (Z.of_nat (String.length sample)) +:+ ": " +:+ sample)))
  end.

(** ** Tracks *)
Inductive TrackCodec := TrackOpus | TrackPCMU | TrackPCMA.

Definition TrimPrefix (p s : string) : string := if String.prefix p s then sdrop (String.length p) s else s.

(** The codec by which a remote track is decoded, if the room is ready and the mixer has
    a place for it. *)
Definition trackCodec (mimeType : string) : option TrackCodec :=
  let n := ToLower (TrimPrefix "audio/" mimeType) in
  if String.eqb n "opus" then Some TrackOpus
  else if String.eqb n "pcmu" then Some TrackPCMU
  else if String.eqb n "pcma" then Some TrackPCMA else None.

(** The stages of a track's packets, and what the goroutine opens and closes. *)
Inductive TrackStage :=
| TSLatencyEntry | TSStreamStats | TSJitter | TSNopCloser | TSDecode (c : TrackCodec) | TSSignalLogger | TSLatencyExit
| TSMixer.

Inductive TrackEffect :=
| TOpenInput | TCloseInput | TOpenDecoder | TCloseDecoder
| THandle (stages : list TrackStage).     (* HandleLoop, until the track ends *)

(** [mixer]: whether the mixer gives an input; [siglog], [decoder]: of [NewSignalLogger] and
      [opus.Decode]. *)
Definition OnTrackSubscribed (logSignalChanges enableJitterBuffer : bool) (mimeType : string) (mixer : bool)
      (siglog decoder : option error) (r : Room) : list TrackEffect :=
    if negb (ready r) then []
    else if negb mixer then []
    else
      let out := (if logSignalChanges then [TSSignalLogger] else []) ++ [TSLatencyExit; TSMixer] in
      let input := (if enableJitterBuffer then [TSJitter] else []) ++ [TSNopCloser] in
      let handle c := THandle (TSLatencyEntry :: TSStreamStats :: input ++ TSDecode c :: out) in
      TOpenInput ::
      (if logSignalChanges && match siglog with Some _ => true | None => false end then []
       else match trackCodec mimeType with
            | Some TrackOpus =>
                match decoder with
                | Some _ => []
                | None => [TOpenDecoder; handle TrackOpus; TCloseDecoder]
                end
            | Some c => [handle c]
            | None => []
            end) ++ [TCloseInput].

(** [track], [publish], [encode]: of the WebRTC library, the SDK and the Opus encoder. *)
Definition NewParticipantTrack (track publish encode : option error) (r : Room) : option error :=
  orElse track (if negb (joined r) then Some (EText "room is closed") else orElse publish encode).

(** [reg]: of the SDK. *)
Definition RegisterRpcCtxMethod (reg : option error) (r : Room) : option error :=
  if negb (joined r) then Some (EText "room is closed") else reg.
End room.

(** ** A room and its callbacks *)
Inductive RoomOp :=
| ROConnect (confUrl : string) (keys : list string) (rconf : RoomConfig)
    (build : gmap string string -> string + error) (join : option error) (lp : LocalParticipant)
| ROParticipant (rp : RemoteParticipant)
| ROTrack (pub : Publication)
| ROReconnecting (now : Z) (lp : LocalParticipant)
| ROReconnected (lp : LocalParticipant)
| RORecovery (l : list RemoteParticipant)         (* a goroutine of a recovery runs *)
| RODisconnected
| ROData (digit : string)
| ROSend (code : Z) (digit : string) (publish : option error)
| ROSubscribe (l : list RemoteParticipant)
| ROClose (reason : DisconnectReason).

Definition runRoomOp (o : RoomOp) : M Room RoomEffect unit :=
  match o with
  | ROConnect u k rc b j lp => do* Connect u k rc b j lp in mreturn tt
  | ROParticipant rp => OnParticipantConnected rp
  | ROTrack pub => OnTrackPublished pub
  | ROReconnecting now lp => onReconnecting now lp
  | ROReconnected lp => onReconnected lp
  | RORecovery l => let* r := mget in if Nat.eqb (recoveries r) 0 then mreturn tt else resubscribeAfterReconnect l
  | RODisconnected => OnDisconnected
  | ROData d => OnDataPacket d
  | ROSend c d p => do* SendData c d p in mreturn tt
  | ROSubscribe l => Subscribe l
  | ROClose reason => CloseWithReason reason
  end%go.

Fixpoint runRoomOps (l : list RoomOp) : M Room RoomEffect unit :=
  match l with [] => mreturn tt | o :: l' => do* runRoomOp o in runRoomOps l' end%go.

(** ** Theorems *)

(** *** Subscriptions *)
Definition isSubscribe (e : RoomEffect) : bool := match e with RSubscribe _ => true | _ => false end.
Definition subscriptions (t : list RoomEffect) : nat := countb isSubscribe t.

(** The call was answered: [Subscribe] has run, and nothing has taken it back. *)
Record roomInv (r : Room) : Prop := {
  ri_closed : closed r = true -> subscribe r = false /\ joined r = false;
  ri_recovery : subscribe r = false -> closed r = false -> recoveries r = 0%nat;
  ri_joined : subscribe r = true -> joined r = true;
}.

Lemma subscribeAll_state l r :
  mspec (subscribeAll l) r (fun _ r' _ => subscribe r' = subscribe r /\ closed r' = closed r /\ joined r' = joined r /\
    recoveries r' = recoveries r /\ stopped r' = stopped r /\ recoveryClosed r' = recoveryClosed r).
Proof.
  assert (forall p r, mspec (subscribePubs p) r (fun _ r' _ => subscribe r' = subscribe r /\ closed r' = closed r /\
    joined r' = joined r /\ recoveries r' = recoveries r /\ stopped r' = stopped r /\
    recoveryClosed r' = recoveryClosed r)) as Hp.
  { induction p as [|pub p IH]; intros q; cbn [subscribePubs]; [by mstep|]. mstep. unfold subscribeTo.
    destruct (negb (pub_audio pub)); [mstep; apply IH|].
    mstep. mstep. mstep. mstep. destruct (pub_err pub); mstep; (eapply mspec_mono; [apply IH|]); cbv beta; cbn; auto. }
  revert r. induction l as [|rp l IH]; intros r; cbn [subscribeAll]; [by mstep|]. mstep. unfold participantJoin.
  assert (forall r0, mspec (do* subscribePubs (rp_pubs rp) in subscribeAll l)%go r0 (fun _ r' _ =>
    subscribe r' = subscribe r0 /\ closed r' = closed r0 /\ joined r' = joined r0 /\ recoveries r' = recoveries r0 /\
    stopped r' = stopped r0 /\ recoveryClosed r' = recoveryClosed r0)) as Hrest.
  { intros r0. mstep. eapply mspec_mono; [apply Hp|]. cbv beta. intros _ r1 _ (A1 & A2 & A3 & A4 & A5 & A6).
    eapply mspec_mono; [apply IH|]. cbv beta. intros _ r2 _ (-> & -> & -> & -> & -> & ->). done. }
  destruct (rp_kind rp); mstep; (eapply mspec_mono; [apply Hrest|]); cbv beta; cbn; auto.
Qed.

Definition isConnect (o : RoomOp) : bool := match o with ROConnect _ _ _ _ _ _ => true | _ => false end.
Definition isAnswer (o : RoomOp) : bool := match o with ROSubscribe _ => true | _ => false end.

(** One operation: the invariant, and no subscription unless the call is answered. *)
Definition quietPost (o : RoomOp) (r r' : Room) (t : list RoomEffect) : Prop :=
  roomInv r' /\ (closed r = true -> closed r' = true) /\
  (subscribe r = false -> (isAnswer o = true -> closed r = true) -> subscriptions t = 0%nat /\ subscribe r' = false).

Lemma quietPost_refl o r : roomInv r -> quietPost o r r [].
Proof. intros Hr. split_and!; done. Qed.

(** An update that leaves what the invariant talks about. *)
Lemma quietPost_same o r r' t :
  roomInv r -> subscribe r' = subscribe r -> closed r' = closed r -> joined r' = joined r ->
  recoveries r' = recoveries r -> (subscribe r = false -> subscriptions t = 0%nat) -> quietPost o r r' t.
Proof.
  intros [H1 H2 H3] E1 E2 E3 E4 Ht. split_and!.
  - split; rewrite ?E1, ?E2, ?E3, ?E4; auto.
  - by rewrite E2.
  - intros Hs _. rewrite E1. auto.
Qed.

Lemma quiet_reconnected lp r : roomInv r -> mspec (onReconnected lp) r (fun _ r' t => quietPost (ROReconnected lp) r r' t).
Proof.
  intros Hr. unfold onReconnected, setParticipantFromRoom. mstep. mstep. mstep. mstep.
  destruct (joined r) eqn:Ej; cbn [negb]; [|mstep; by apply quietPost_same].
  mstep. mstep. mstep. mstep. cbn [joined set_reconnect set_stats]. rewrite Ej.
  set (resumed := match reconnect r with Some c => String.eqb (rs_sid c) (lp_SID lp) | None => false end).
  destruct resumed; [mstep; by apply quietPost_same|]. mstep. mstep.
  cbn [subscribe upd_room set_stats set_reconnect recoveryClosed].
  destruct (subscribe r) eqn:Es; cbn [negb]; [|mstep; apply quietPost_same; cbn; auto].
  destruct (recoveryClosed r); [mstep; apply quietPost_same; cbn; auto|].
  mstep. mstep. mstep. destruct Hr as [H1 H2 H3]. split_and!.
  - split; cbn; rewrite ?Es; [|done..]. intros Hcl. destruct (H1 Hcl). congruence.
  - done.
  - congruence.
Qed.

Lemma quiet_op o r : roomInv r -> isConnect o = false -> mspec (runRoomOp o) r (fun _ r' t => quietPost o r r' t).
Proof.
  intros Hr Hc. pose proof Hr as [H1 H2 H3].
  destruct o as [| | |now lp|lp|l| | |c d pub|l|reason]; try discriminate Hc; cbn [runRoomOp].
  - unfold OnParticipantConnected, participantJoin. mstep. mstep. mstep; [|by apply quietPost_refl].
    destruct (rp_kind rp); mstep; cbn [app]; by apply quietPost_same.
  - unfold OnTrackPublished, subscribeTo. mstep. mstep. mstep; [|by apply quietPost_refl].
    destruct (negb (pub_audio pub)); [mstep; by apply quietPost_refl|]. mstep. mstep. mstep. mstep.
    destruct (pub_err pub); mstep; apply quietPost_same; cbn; auto; congruence.
  - unfold onReconnecting. mstep. by apply quietPost_same.
  - by apply quiet_reconnected.
  - mstep. mstep. destruct (Nat.eqb_spec (recoveries r) 0) as [E|E]; [mstep; by apply quietPost_refl|].
    unfold resubscribeAfterReconnect. mstep. mstep. mstep. mstep.
    + destruct (closed r) eqn:Ec; [done|].
      destruct (subscribe r) eqn:Es; [|by rewrite H2 in E].
      eapply mspec_mono; [apply subscribeAll_state|]. cbv beta. intros _ r' t (A1 & A2 & A3 & A4 & A5 & A6).
      mstep. rewrite app_nil_r. split_and!; [|congruence|congruence].
      split; cbn; rewrite ?A1, ?A2, ?A3, ?A4, ?Es, ?Ec; auto; done.
    + mstep. cbn [app]. split_and!; [|done|intros Hs _; split; [done|done]].
      split; cbn; auto. intros Hs Hcl. by rewrite H2.
  - unfold OnDisconnected. mstep. by apply quietPost_same.
  - unfold OnDataPacket. mstep. mstep. mstep. by apply quietPost_same.
  - unfold SendData. mstep. mstep. mstep. destruct (negb (ready r) || closed r || negb (joined r));
      repeat mstep; by apply quietPost_same.
  - unfold Subscribe. mstep. mstep. destruct (joined r) eqn:Ej; cbn [negb]; [|mstep; by apply quietPost_refl].
    mstep. mstep. eapply mspec_mono; [apply subscribeAll_state|]. cbv beta.
    intros _ r' t (A1 & A2 & A3 & A4 & A5 & A6). cbn in A1, A2, A3, A4.
    assert (closed r = false) as Ec by (destruct (closed r); [by destruct (H1 eq_refl) as [_ ?]|done]).
    split_and!; [|congruence|intros _ Ha; by rewrite Ha in Ec].
    split; rewrite ?A1, ?A2, ?A3, ?A4, ?Ec; done.
  - unfold CloseWithReason. mstep. mstep. mstep. mstep.
    + repeat mstep; cbn [app]; (split_and!; [split; cbn; auto; done|done|done]).
    + mstep. cbn [app]. destruct (closed r) eqn:Ec; [|done]. by apply quietPost_same.
Qed.

Lemma quiet_ops l r :
  roomInv r -> forallb (fun o => negb (isConnect o)) l = true ->
  mspec (runRoomOps l) r (fun _ r' t => roomInv r' /\ (closed r = true -> closed r' = true) /\
    (subscribe r = false -> (closed r = true \/ forallb (fun o => negb (isAnswer o)) l = true) ->
     subscriptions t = 0%nat /\ subscribe r' = false)).
Proof.
  revert r. induction l as [|o l IH]; intros r Hr Hl; cbn [runRoomOps].
  { mstep. split_and!; done. }
  cbn [forallb] in Hl. apply andb_true_iff in Hl as [Ho Hl].
  mstep. eapply mspec_mono; [apply quiet_op; [done|by destruct (isConnect o)]|].
  cbv beta. intros _ r1 t1 (I1 & C1 & Q1). eapply mspec_mono; [apply (IH r1 I1 Hl)|].
  cbv beta. intros _ r2 t2 (I2 & C2 & Q2). split_and!; [done|auto|].
  intros Hs Hor. cbn [forallb] in Hor.
  destruct Q1 as [Z1 S1]; [done|intros Ha; destruct Hor as [?|Hf]; [done|by rewrite Ha in Hf]|].
  destruct Q2 as [Z2 S2]; [done| |].
  { destruct Hor as [Hcl|Hf]; [left; auto|right]. by apply andb_true_iff in Hf as [_ ?]. }
  unfold subscriptions in *. rewrite countb_app, Z1, Z2. done.
Qed.

Lemma close_shuts reason r :
  roomInv r -> closed (state_of (CloseWithReason reason r)) = true /\
               subscribe (state_of (CloseWithReason reason r)) = false.
Proof.
  intros [K1 _ _]. unfold state_of, CloseWithReason, mbind', mget, mwhen, mmodify, memit, mreturn.
  destruct (closed r) eqn:E; cbn; [rewrite E; split; [done|by apply K1]|]. by destruct (joined r).
Qed.

(** C26: The room's audio is heard only in an answered call.  Whatever participants, tracks,
    reconnections and recoveries the SDK reports, one callback after the other: before the
    call asks for it no track is subscribed to, and after the room is closed none is. *)
Theorem room_subscribes_when_answered u k rc b lp l l' reason :
  forallb (fun o => negb (isConnect o)) l = true -> forallb (fun o => negb (isConnect o)) l' = true ->
  let room := state_of (Connect u k rc b None lp NewRoom) in
  (forallb (fun o => negb (isAnswer o)) l = true -> subscriptions (trace_of (runRoomOps l room)) = 0%nat) /\
  let closedRoom := state_of (CloseWithReason reason (state_of (runRoomOps l room))) in
  subscriptions (trace_of (runRoomOps l' closedRoom)) = 0%nat.
Proof.
  intros Hl Hl'. cbv zeta.
  assert (roomInv (state_of (Connect u k rc b None lp NewRoom))) as Hj.
  { unfold Connect, mbind', mget, mmodify, memit, mreturn, setParticipantFromRoom.
    destruct (if String.eqb (rc_Token rc) "" then _ else _); by split. }
  pose proof (quiet_ops l _ Hj Hl) as H1. unfold mspec, trace_of, state_of in *.
  destruct (runRoomOps l _) as [[v r1] t1]. destruct H1 as (I1 & _ & Q1). cbn [fst snd] in *. split.
  { intros Hn. apply Q1; [|by right]. 
    unfold Connect, mbind', mget, mmodify, memit, mreturn, setParticipantFromRoom.
    by destruct (if String.eqb (rc_Token rc) "" then _ else _). }
  pose proof (quiet_op (ROClose reason) r1 I1 eq_refl) as H2. unfold mspec in H2. cbn [runRoomOp] in H2.
  pose proof (close_shuts reason r1 I1) as [Hc Hs]. unfold state_of in Hc, Hs.
  destruct (CloseWithReason reason r1) as [[u2 r2] t2]. destruct H2 as (I2 & _ & _). cbn [fst snd] in *.
  pose proof (quiet_ops l' r2 I2 Hl') as H3. unfold mspec in H3. destruct (runRoomOps l' r2) as [[u3 r3] t3].
  destruct H3 as (_ & _ & Q3). by apply Q3; [|left].
Qed.

Lemma room_subscribes_when_answered_witness :
  let pub := {| pub_sid := "TR_1"; pub_audio := true; pub_err := None |} in
  let rp := {| rp_kind := KindStandard; rp_pubs := [pub] |} in
  let lp sid := {| lp_SID := sid; lp_Identity := "caller" |} in
  let rc := {| rc_WsUrl := ""; rc_Token := "t"; rc_RoomName := "r"; rc_Identity := "caller"; rc_Name := "Caller";
               rc_Attributes := ∅ |} in
  let room := state_of (Connect "wss://x" [] rc (fun _ => inr (EText "no key")) None (lp "PA_1") NewRoom) in
  let before := [ROParticipant rp; ROTrack pub; ROReconnecting 5 (lp "PA_1"); ROReconnected (lp "PA_2")] in
  let answered := before ++ [ROSubscribe [rp]; ROReconnecting 9 (lp "PA_2"); ROReconnected (lp "PA_3")] in
  (* the tracks of an answered call are subscribed to, here twice; the recovery finds the room closed *)
  subscriptions (trace_of (runRoomOps before room)) = 0%nat /\
  subscriptions (trace_of (runRoomOps (answered ++ [RORecovery [rp]]) room)) = 2%nat /\
  subscriptions (trace_of (runRoomOps [RORecovery [rp]; ROTrack pub]
    (state_of (CloseWithReason UNKNOWN_REASON (state_of (runRoomOps answered room)))))) = 0%nat.
Proof.
  intros pub rp lp rc room before answered. split_and!; [|reflexivity|].
  - apply (room_subscribes_when_answered "wss://x" [] rc (fun _ => inr (EText "no key")) (lp "PA_1") before [] UNKNOWN_REASON); reflexivity.
  - apply (room_subscribes_when_answered "wss://x" [] rc (fun _ => inr (EText "no key")) (lp "PA_1") answered _ UNKNOWN_REASON); reflexivity.
Defined.

(** A track's goroutine gives back the mixer's input and the decoder on every path, and
    feeds packets only to a chain that ends in the mixer. *)
Lemma OnTrackSubscribed_closes sig jit mime mixer siglog decoder r :
  let t := OnTrackSubscribed sig jit mime mixer siglog decoder r in
  countb (fun e => match e with TOpenInput => true | _ => false end) t =
    countb (fun e => match e with TCloseInput => true | _ => false end) t /\
  countb (fun e => match e with TOpenDecoder => true | _ => false end) t =
    countb (fun e => match e with TCloseDecoder => true | _ => false end) t /\
  forall st, THandle st ∈ t -> List.last st TSLatencyEntry = TSMixer.
Proof.
  cbv zeta. unfold OnTrackSubscribed.
  destruct (ready r); cbn [negb]; [|split_and!; try done; by intros st ?%elem_of_nil].
  destruct mixer; cbn [negb]; [|split_and!; try done; by intros st ?%elem_of_nil].
  destruct sig, jit, siglog, (trackCodec mime) as [[]|], decoder; cbn -[elem_of]; split_and!; try done;
    intros st Hst; repeat (apply elem_of_cons in Hst as [Hst|Hst]; [by simplify_eq|]); by apply elem_of_nil in Hst.
Qed.

(** *** Recovery *)
Definition drops (l : list (Z * LocalParticipant)) : list RoomOp := map (fun d => ROReconnecting d.1 d.2) l.

Definition audioPubs (l : list RemoteParticipant) : list string :=
  flat_map (fun rp => map pub_sid (List.filter pub_audio (rp_pubs rp))) l.

Lemma subscribePubs_trace p r : trace_of (subscribePubs p r) = map (fun pub => RSubscribe (pub_sid pub)) (List.filter pub_audio p).
Proof.
  revert r. induction p as [|pub p IH]; intros r; [done|]. cbn [subscribePubs]. rewrite bind_trace, IH.
  unfold subscribeTo. cbn [List.filter]. destruct (pub_audio pub); [|done]. by destruct (pub_err pub).
Qed.

Lemma subscribeAll_trace l r : trace_of (subscribeAll l r) = map RSubscribe (audioPubs l).
Proof.
  revert r. induction l as [|rp l IH]; intros r; [done|]. cbn [subscribeAll].
  rewrite !bind_trace, subscribePubs_trace, IH. unfold audioPubs. cbn [flat_map]. rewrite map_app, map_map.
  unfold participantJoin. by destruct (rp_kind rp).
Qed.

(** While the connection is down the first state is kept. *)
Lemma drops_keep l r :
  runRoomOps (drops l) r =
  (tt, match l with
       | [] => r
       | d :: _ => set_reconnect (Some (default {| startedAt := d.1; rs_sid := if joined r then lp_SID d.2 else "" |} (reconnect r)))
                     (set_recovering true (r_stats r)) r
       end, []).
Proof.
  revert r. induction l as [|d l IH]; intros r; [done|]. cbn [drops map runRoomOps].
  unfold mbind'. cbn [runRoomOp onReconnecting mmodify]. fold (drops l). rewrite IH.
  destruct l, (reconnect r) eqn:E; cbn; unfold set_reconnect, set_recovering; cbn; done.
Qed.

(** A lost connection is recovered once.  However many attempts the SDK reports before
    the room is back, the recovery counts as exactly one resume or one reconnect, a resume
    just when the SID is the one from before the first attempt.  The participant has the
    new SID and nothing is recovering any more; only a reconnect of an answered, open call
    starts a goroutine, and that goroutine asks again for every audio track of the room. *)
Theorem recovery_once now lp0 ds lp r :
  joined r = true -> reconnect r = None ->
  let down := state_of (runRoomOps (drops ((now, lp0) :: ds)) r) in
  let back := onReconnected lp down in
  let r' := state_of back in
  let resumed := String.eqb (lp_SID lp0) (lp_SID lp) in
  Recovering (r_stats down) = true /\ Recovering (r_stats r') = false /\ reconnect r' = None /\
  Resumes (r_stats r') = (if resumed then u64 (Resumes (r_stats r) + 1) else Resumes (r_stats r)) /\
  Reconnects (r_stats r') = (if resumed then Reconnects (r_stats r) else u64 (Reconnects (r_stats r) + 1)) /\
  pa_ID (RoomParticipant r') = lp_SID lp /\
  trace_of back = (if negb resumed && subscribe r && negb (recoveryClosed r) then [RRecover] else []) /\
  forall l, trace_of (resubscribeAfterReconnect l r') =
            if closed r || stopped r then [] else map RSubscribe (audioPubs l).
Proof.
  intros Hj Hn. unfold state_of at 1. rewrite drops_keep. cbn [fst snd default]. rewrite Hn, Hj. cbn [default].
  set (down := set_reconnect _ _ r). cbv zeta.
  assert (forall l r', closed r' = closed r -> stopped r' = stopped r ->
    trace_of (resubscribeAfterReconnect l r') = if closed r || stopped r then [] else map RSubscribe (audioPubs l)) as Hre.
  { intros l r' E1 E2. unfold resubscribeAfterReconnect. rewrite !bind_trace. cbn [mget trace_of result_of state_of fst snd].
    rewrite E1, E2. unfold mwhen. destruct (closed r || stopped r); [done|]. cbn [negb app].
    rewrite subscribeAll_trace. cbn. by rewrite app_nil_r. }
  unfold onReconnected, mbind', mget, mmodify, memit, mreturn, setParticipantFromRoom, state_of.
  cbn -[String.eqb resubscribeAfterReconnect]. rewrite Hj. cbn -[String.eqb resubscribeAfterReconnect].
  destruct (String.eqb (lp_SID lp0) (lp_SID lp)); cbn -[resubscribeAfterReconnect]; rewrite ?Hj; cbn -[resubscribeAfterReconnect].
  { split_and!; try done. intros l. by apply Hre. }
  destruct (subscribe r) eqn:Es; cbn -[resubscribeAfterReconnect];
    [destruct (recoveryClosed r) eqn:Ec|]; cbn -[resubscribeAfterReconnect];
    split_and!; try done; intros l; by apply Hre.
Qed.

Lemma recovery_once_witness :
  let lp sid := {| lp_SID := sid; lp_Identity := "caller" |} in
  let rc := {| rc_WsUrl := ""; rc_Token := "t"; rc_RoomName := "r"; rc_Identity := "caller"; rc_Name := "Caller";
               rc_Attributes := ∅ |} in
  let room := state_of (Subscribe [] (state_of (Connect "wss://x" [] rc (fun _ => inr (EText "no key")) None (lp "PA_1") NewRoom))) in
  trace_of (onReconnected (lp "PA_2") (state_of (runRoomOps (drops [(1, lp "PA_1"); (2, lp "PA_2")]) room))) = [RRecover] /\
  trace_of (onReconnected (lp "PA_1") (state_of (runRoomOps (drops [(1, lp "PA_1"); (2, lp "PA_1")]) room))) = [].
Proof.
  intros lp rc room. split.
  - destruct (recovery_once 1 (lp "PA_1") [(2, lp "PA_2")] (lp "PA_2") room eq_refl eq_refl) as (_ & _ & _ & _ & _ & _ & E & _).
    exact E.
  - destruct (recovery_once 1 (lp "PA_1") [(2, lp "PA_1")] (lp "PA_1") room eq_refl eq_refl) as (_ & _ & _ & _ & _ & _ & E & _).
    exact E.
Defined.

(** *** Closing while a recovery runs *)

(** The goroutines of recoveries and the callers of [CloseWithReason], one synchronized
    access at a time.  A goroutine first looks at the fuses and then writes one
    subscription after the other; the wait group counts the goroutines. *)
Module closing.
Inductive Worker := Fresh | Writing (l : list string).

Record state := {
  s_closed : bool;            (* the fuse *)
  s_recoveryClosed : bool;
  s_workers : list Worker;    (* the wait group's count is its length *)
  s_waiting : nat;            (* callers in recoveryWG.Wait *)
  s_returned : nat;           (* calls of CloseWithReason that have returned *)
}.

Inductive label := Register | Look | Write (sid : string) | Done | Shut | Mark | Return.

Definition set_workers (ws : list Worker) (s : state) : state :=
  {| s_closed := s_closed s; s_recoveryClosed := s_recoveryClosed s; s_workers := ws; s_waiting := s_waiting s;
     s_returned := s_returned s |}.

Inductive step : state -> label -> state -> Prop :=
| S_register s :               (* onReconnected, under recoveryMu *)
    s_recoveryClosed s = false -> step s Register (set_workers (Fresh :: s_workers s) s)
| S_look s ws ws' (stop : bool) (l : list RemoteParticipant) :
    s_workers s = ws ++ Fresh :: ws' ->
    step s Look (set_workers (ws ++ Writing (if s_closed s || stop then [] else audioPubs l) :: ws') s)
| S_write s ws ws' sid l :
    s_workers s = ws ++ Writing (sid :: l) :: ws' -> step s (Write sid) (set_workers (ws ++ Writing l :: ws') s)
| S_done s ws ws' :
    s_workers s = ws ++ Writing [] :: ws' -> step s Done (set_workers (ws ++ ws') s)
| S_shut s :                   (* closed.Once *)
    step s Shut {| s_closed := true; s_recoveryClosed := s_recoveryClosed s; s_workers := s_workers s;
                   s_waiting := s_waiting s; s_returned := s_returned s |}
| S_mark s :                   (* recoveryClosed, after the Once *)
    s_closed s = true ->
    step s Mark {| s_closed := true; s_recoveryClosed := true; s_workers := s_workers s;
                   s_waiting := S (s_waiting s); s_returned := s_returned s |}
| S_return s n :
    s_waiting s = S n -> s_workers s = [] ->
    step s Return {| s_closed := s_closed s; s_recoveryClosed := s_recoveryClosed s; s_workers := [];
                     s_waiting := n; s_returned := S (s_returned s) |}.

Inductive run : state -> list label -> state -> Prop :=
| run_nil s : run s [] s
| run_cons s1 e s2 l s3 : step s1 e s2 -> run s2 l s3 -> run s1 (e :: l) s3.

Definition open : state :=
  {| s_closed := false; s_recoveryClosed := false; s_workers := []; s_waiting := 0; s_returned := 0 |}.

Record inv (s : state) : Prop := {
  i_waiting : (0 < s_waiting s)%nat -> s_recoveryClosed s = true;
  i_returned : (0 < s_returned s)%nat -> s_recoveryClosed s = true /\ s_workers s = [];
}.

Lemma no_worker {A} (ws ws' : list A) w : [] <> ws ++ w :: ws'.
Proof. by destruct ws. Qed.

Lemma closing_step_inv s e s' : inv s -> step s e s' -> inv s'.
Proof.
  intros [Hw Hr] Hs.
  destruct Hs as [s Hc|s ws ws' stop l E|s ws ws' sid l E|s ws ws' E|s|s Hc|s n Hn E]; split; cbn in *; auto;
    try (intros Hp; destruct (Hr Hp) as [R1 R2]; try rewrite R2 in E; try congruence; by destruct (no_worker _ _ _ E)).
  - intros Hp. by destruct (Hr Hp).
  - intros _. apply Hw. lia.
  - intros _. split; [apply Hw; lia|done].
Qed.

Lemma run_inv s l s' : inv s -> run s l s' -> inv s'.
Proof. intros Hi Hr. induction Hr; eauto using closing_step_inv. Qed.

Lemma run_app s l1 s1 l2 s2 : run s l1 s1 -> run s1 l2 s2 -> run s (l1 ++ l2) s2.
Proof. induction 1; intros; [done|]. cbn. econstructor; eauto. Qed.

Definition ofRecovery (e : label) : bool :=
  match e with Register | Look | Write _ | Done => true | _ => false end.

Lemma step_quiet s e s' : inv s -> (0 < s_returned s)%nat -> step s e s' -> ofRecovery e = false /\ (0 < s_returned s')%nat.
Proof.
  intros Hi Hp Hs. destruct (i_returned s Hi Hp) as [R1 R2].
  destruct Hs as [s Hc|s ws ws' stop l E|s ws ws' sid l E|s ws ws' E|s|s Hc|s n Hn E]; cbn; try congruence;
    try (rewrite R2 in E; by destruct (no_worker _ _ _ E)); split; done || lia.
Qed.

Lemma run_quiet s l s' : inv s -> (0 < s_returned s)%nat -> run s l s' -> forallb (fun e => negb (ofRecovery e)) l = true.
Proof.
  intros Hi Hp Hr. induction Hr as [|s1 e s2 l s3 Hs Hr IH]; [done|]. cbn.
  destruct (step_quiet _ _ _ Hi Hp Hs) as [-> Hp2]. apply IH; eauto using closing_step_inv.
Qed.

(** A goroutine finishes, whatever the others do. *)
Lemma drain_worker s w ws :
  s_workers s = w :: ws -> exists l, run s l (set_workers ws s).
Proof.
  intros E.
  assert (forall p s, s_workers s = Writing p :: ws -> exists l, run s l (set_workers ws s)) as Hw.
  { clear. intros p. induction p as [|sid p IH]; intros s E.
    - exists [Done]. econstructor; [apply (S_done _ [] _ E)|constructor].
    - destruct (IH (set_workers (Writing p :: ws) s) eq_refl) as [l Hl].
      exists (Write sid :: l). econstructor; [apply (S_write _ [] _ _ _ E)|]. exact Hl. }
  destruct w as [|p]; [|eauto].
  destruct (Hw _ (set_workers (Writing (if s_closed s || true then [] else audioPubs []) :: ws) s) eq_refl) as [l Hl].
  exists (Look :: l). econstructor; [apply (S_look _ [] ws true [] E)|]. exact Hl.
Qed.

Lemma drain s : exists l, run s l (set_workers [] s).
Proof.
  remember (s_workers s) as ws eqn:E. revert s E. induction ws as [|w ws IH]; intros s E.
  - exists []. replace (set_workers [] s) with s; [constructor|]. destruct s; cbn in *; by subst.
  - destruct (drain_worker s w ws (eq_sym E)) as [l1 H1]. destruct (IH (set_workers ws s) eq_refl) as [l2 H2].
    exists (l1 ++ l2). eapply run_app; [exact H1|exact H2].
Qed.

(** C15: Closing the room joins its recoveries.  In every interleaving of reconnections,
    their goroutines and any number of calls of [CloseWithReason]: once one of the calls
    has returned no goroutine is left, none is started and no subscription is written,
    and a call that waits is never stuck, the goroutines that are left can finish and
    let it return. *)
Theorem close_joins_recoveries l s :
  run open l s ->
  ((0 < s_returned s)%nat -> s_workers s = [] /\
     forall l' s', run s l' s' -> forallb (fun e => negb (ofRecovery e)) l' = true) /\
  ((0 < s_waiting s)%nat -> exists l' s', run s (l' ++ [Return]) s').
Proof.
  intros Hr. assert (inv s) as Hi by (apply (run_inv open l); [split; cbn; lia|done]). split.
  - intros Hp. split; [by apply Hi|]. intros l' s' Hrun. by eapply run_quiet.
  - intros Hp. destruct (drain s) as [l' Hl]. exists l'. destruct (s_waiting s) as [|n] eqn:E; [lia|].
    eexists. eapply run_app; [exact Hl|]. econstructor; [by apply S_return|constructor].
Qed.

Lemma close_joins_recoveries_witness :
  let rp := {| rp_kind := KindStandard; rp_pubs := [{| pub_sid := "TR_1"; pub_audio := true; pub_err := None |}] |} in
  exists s, run open [Register; Look; Shut; Mark; Write "TR_1"; Done; Return] s /\ s_workers s = [].
Proof.
  cbv zeta. eexists. split.
  - econstructor; [by apply S_register|]. econstructor.
    { apply (S_look _ [] [] false [{| rp_kind := KindStandard; rp_pubs := [{| pub_sid := "TR_1"; pub_audio := true; pub_err := None |}] |}]).
      reflexivity. }
    econstructor; [apply S_shut|]. econstructor; [by apply S_mark|].
    econstructor; [by apply (S_write _ [] [])|]. econstructor; [by apply (S_done _ [] [])|].
    econstructor; [by apply S_return|]. constructor.
  - eapply (close_joins_recoveries [Register; Look; Shut; Mark; Write "TR_1"; Done; Return]); [|cbn; lia].
    econstructor; [by apply S_register|]. econstructor.
    { apply (S_look _ [] [] false [{| rp_kind := KindStandard; rp_pubs := [{| pub_sid := "TR_1"; pub_audio := true; pub_err := None |}] |}]).
      reflexivity. }
    econstructor; [apply S_shut|]. econstructor; [by apply S_mark|].
    econstructor; [by apply (S_write _ [] [])|]. econstructor; [by apply (S_done _ [] [])|].
    econstructor; [by apply S_return|]. constructor.
Defined.
End closing.
