(* ===== verification/CallMedia.v ===== *)
(** * The media of an inbound call

    How [inboundCall] of [pkg/sip/inbound.go] connects its media port and its room:
    creating and negotiating the port, the writers of audio and DTMF, joining the room,
    publishing, and closing.  The port is [MediaPort]'s, the room [Room]'s; this file is
    their composition.  Also [pkg/sip/dialtone.go] and the codec names of
    [pkg/sip/media_codecs.go]. *)

From stdpp Require Import base tactics list gmap strings option.
From Stdlib Require Import ZArith Ascii Lia.
From S2P Require Import Prelude GoStd GoErr Participant NetIP MediaStats MediaPipeline MediaPort Room.
Import strings strconv.

(** ** State *)

(** Where the caller's keys go: to the PIN prompt or to the room. *)
Inductive DTMFSink := ToPin | ToRoom.

Record callMedia := {
  k_media : option mediaPort;
  k_room : Room;
  k_audioTo : bool;                  (* the port's audio has a writer *)
  k_dtmfTo : option DTMFSink;
  k_dtmf : list Event;               (* the channel of the PIN prompt *)
  k_topic : bool;                    (* the transfer topic *)
  k_late : bool;                     (* lateAnswerPending *)
}.

Definition newCallMedia : callMedia :=
  {| k_media := None; k_room := NewRoom; k_audioTo := false; k_dtmfTo := None; k_dtmf := []; k_topic := false; k_late := false |}.

Inductive KEffect :=
| KPort (e : PortEffect) | KRoom (e : RoomEffect)
| KOpenPort
| KCloseAudio                        (* a writer that was there before *)
| KCloseSink (s : DTMFSink)
| KAudioCodec (name : string)        (* of the call's record *)
| KSetOwnSDP (sdp : string)
| KRegister                          (* the transfer topic *)
| KRPC (method : string).

Definition set_media (m : option mediaPort) (k : callMedia) : callMedia :=
  {| k_media := m; k_room := k_room k; k_audioTo := k_audioTo k; k_dtmfTo := k_dtmfTo k; k_dtmf := k_dtmf k;
     k_topic := k_topic k; k_late := k_late k |}.
Definition set_room (r : Room) (k : callMedia) : callMedia :=
  {| k_media := k_media k; k_room := r; k_audioTo := k_audioTo k; k_dtmfTo := k_dtmfTo k; k_dtmf := k_dtmf k;
     k_topic := k_topic k; k_late := k_late k |}.
Definition set_sinks (a : bool) (d : option DTMFSink) (q : list Event) (k : callMedia) : callMedia :=
  {| k_media := k_media k; k_room := k_room k; k_audioTo := a; k_dtmfTo := d; k_dtmf := q; k_topic := k_topic k; k_late := k_late k |}.
Definition set_topic (k : callMedia) : callMedia :=
  {| k_media := k_media k; k_room := k_room k; k_audioTo := k_audioTo k; k_dtmfTo := k_dtmfTo k; k_dtmf := k_dtmf k;
     k_topic := true; k_late := k_late k |}.
Definition set_late (b : bool) (k : callMedia) : callMedia :=
  {| k_media := k_media k; k_room := k_room k; k_audioTo := k_audioTo k; k_dtmfTo := k_dtmfTo k; k_dtmf := k_dtmf k;
     k_topic := k_topic k; k_late := b |}.

Section media.
Open Scope go_scope.
Context `{CodecEquals} (o : MediaOptions).
Abbreviation KM := (M callMedia KEffect).

Definition onRoom {A} (m : M Room RoomEffect A) : KM A :=
  fun k => match m (k_room k) with (a, r, t) => (a, set_room r k, map KRoom t) end.

(** On the port, if there is one. *)
Definition onPort {A} (none : A) (m : M mediaPort PortEffect A) : KM A :=
  fun k => match k_media k with
           | None => (none, k, [])
           | Some p => match m p with (a, p', t) => (a, set_media (Some p') k, map KPort t) end
           end.

(** [err]: of [NewMediaPort], which opens the socket. *)
Definition createMediaPort (symmetric : bool) (err : option error) : KM (option error) :=
  let* k := mget in
  match k_media k with
  | Some _ => mreturn None
  | None =>
      match err with
      | Some e => mreturn (Some e)
      | None =>
          do* memit KOpenPort in
          do* mmodify (set_media (Some (newMediaPort symmetric))) in
          mreturn None
      end
  end.

Definition updateCallStateAudioLocked : KM (option error) :=
  let* k := mget in
  match k_media k ≫= NegotiatedAudio with
  | None => mreturn (Some (EText "media does not have negotiated audio"))
  | Some audio => do* memit (KAudioCodec (ci_Name audio)) in mreturn None
  end.

(** [GenerateOffer] of a call without an offer, which the answer is expected for later. *)
Definition offerMedia (offer : error + (error + string)) : KM (error + string) :=
  do* mmodify (set_late true) in
  onPort (inl (EText "")) (GenerateOffer offer).

Definition negotiateMedia (now : Z) (mon : bool) (e : BuildEnv) (rate : Z) (a : AnswerEnvS) (sdpOffer : string)
    : KM (error + string) :=
  let* k := mget in
  match k_media k with
  | None => mreturn (inl (EText "media port not created"))
  | Some p =>
      match NegotiatedAudio p with
      | Some _ => onPort (inl (EText "")) GetLocalSDP
      | None =>
          let* r := onPort (inl (EText "")) (GenerateAnswer o now mon e rate a sdpOffer) in
          match r with
          | inl err => mreturn (inl err)
          | inr answer =>
              let* err := updateCallStateAudioLocked in
              mreturn (match err with Some err => inl err | None => inr answer end)
          end
      end
  end.

(** The body of [negotiateMediaForLateAnswer], and then its deferred call. *)
Definition lateAnswer (now : Z) (mon : bool) (e : BuildEnv) (rate : Z) (a : AnswerEnvS) (answerData : string)
    : KM (option error) :=
  let* k := mget in
  match k_media k with
  | None => mreturn (Some (EText "media port not created"))
  | Some p =>
      match NegotiatedAudio p with
      | Some _ => mreturn None
      | None =>
          let* err := onPort None (ProcessAnswer o now mon e rate a answerData) in
          match err with
          | Some err => mreturn (Some err)
          | None =>
              let* r := onPort (inl (EText "")) GetLocalSDP in
              match r with
              | inl err => mreturn (Some err)
              | inr localSDP => do* memit (KSetOwnSDP localSDP) in updateCallStateAudioLocked
              end
          end
      end
  end.

Definition negotiateMediaForLateAnswer (now : Z) (mon : bool) (e : BuildEnv) (rate : Z) (a : AnswerEnvS)
    (answerData : string) : KM (option error) :=
  let* r := lateAnswer now mon e rate a answerData in
  do* mmodify (set_late false) in
  mreturn r.

Definition updateRemoteFromSDP (now : Z) (mon : bool) (e : BuildEnv) (rate : Z) (a : AnswerEnvS) (body : string)
    : KM (option error) :=
  onPort None (let* r := GenerateAnswer o now mon e rate a body in
               mreturn (match r with inl err => Some err | inr _ => None end)).

(** The outbound call's method is the same code on its own port. *)
Definition outbound_updateRemoteFromSDP := updateRemoteFromSDP.

Definition swapDTMF (s : DTMFSink) : KM unit :=
  let* k := mget in
  do* mmodify (set_sinks (k_audioTo k) (Some s) (k_dtmf k)) in
  match k_dtmfTo k with Some old => memit (KCloseSink old) | None => mreturn tt end.

Definition connectPinDTMF : KM unit := swapDTMF ToPin.

(** [make(chan dtmf.Event, 10)] *)
Definition dtmfBuffer : nat := 10.

(** [tone]: the event code of [dtmf.Tone], if the byte is a DTMF key. *)
Definition pinDTMFWriter_WriteSample (tone : ascii -> option Z) (sample : string) : KM (option error) :=
  match sample with
  | String c "" =>
      match tone c with
      | None => mreturn (Some (EText ("invalid DTMF sample " +:+ sample)))
      | Some code =>
          do* mmodify (fun k => if (length (k_dtmf k) <? dtmfBuffer)%nat
                                then set_sinks (k_audioTo k) (k_dtmfTo k)
                                       (k_dtmf k ++ [{| ev_Code := u8 code; ev_Digit := c |}]) k
                                else k) in
          mreturn None
      end
  | _ => mreturn (Some (EText ("invalid DTMF sample length " +:+ Itoa (Z.of_nat (String.length sample)) +:+ ": " +:+ sample)))
  end.

(** A key of the caller, from the pipeline to where it goes. *)
Definition writeDTMF (tone : ascii -> option Z) (publish : option error) (sample : string) : KM (option error) :=
  let* k := mget in
  match k_dtmfTo k with
  | None => mreturn None
  | Some ToPin => pinDTMFWriter_WriteSample tone sample
  | Some ToRoom => onRoom (inbound_WriteSample tone sample publish)
  end.

(** [track], [publish], [encode]: of [GetInboundAudioWriter]. *)
Definition publishTrack (track publish encode : option error) : KM (option error) :=
  let* k := mget in
  match NewParticipantTrack track publish encode (k_room k) with
  | Some err => do* onRoom (CloseWithReason UNKNOWN_REASON) in mreturn (Some err)
  | None =>
      do* mmodify (set_sinks true (k_dtmfTo k) (k_dtmf k)) in
      do* mwhen (k_audioTo k) (memit KCloseAudio) in
      do* swapDTMF ToRoom in
      mreturn None
  end.

(** The methods a participant of the room can call; [err]: of the SDK. *)
Definition registerRPC (method : string) (err : option error) : KM (option error) :=
  let* k := mget in
  do* memit (KRPC method) in
  mreturn (RegisterRpcCtxMethod err (k_room k)).

Definition registerSignalingRPC : option error -> KM (option error) := registerRPC "lk.sip.GetRemoteHeaders".
Definition registerCallRPC : option error -> KM (option error) := registerRPC "lk.sip.EndCall".

(** [statusAttr]: the attribute of the call's status; [attrStatus]: its name; [ctx]: of the
    context, if it is done; [rpc1], [rpc2]: of registering the two RPC methods. *)
Definition createLiveKitParticipant (confUrl : string) (keys : list string) (rconf : RoomConfig)
    (extraAttrs : gmap string string) (attrStatus statusAttr : string) (ctx reg : option error)
    (build : gmap string string -> string + error) (join : option error) (lp : LocalParticipant)
    (rpc1 rpc2 : option error) : KM (option error) :=
  let attrs := <[attrStatus := statusAttr]> (extraAttrs ∪ rc_Attributes rconf) in
  let rconf := {| rc_WsUrl := rc_WsUrl rconf; rc_Token := rc_Token rconf; rc_RoomName := rc_RoomName rconf;
                  rc_Identity := rc_Identity rconf; rc_Name := rc_Name rconf; rc_Attributes := attrs |} in
  match ctx with
  | Some err => mreturn (Some err)
  | None =>
      do* memit KRegister in
      match reg with
      | Some err => mreturn (Some err)
      | None =>
          do* mmodify set_topic in
          let* err := onRoom (Connect confUrl keys rconf build join lp) in
          match err with
          | Some err => mreturn (Some err)
          | None =>
              let* err := registerSignalingRPC rpc1 in
              match err with
              | Some err => mreturn (Some err)
              | None => registerCallRPC rpc2
              end
          end
      end
  end.

(** [udp]: the port has a socket of the system. *)
Definition closeMedia (udp : bool) : KM unit :=
  do* onRoom (CloseWithReason UNKNOWN_REASON) in
  onPort tt (Close udp).
End media.

(** ** Dial tones and codec names *)
Inductive SIPDialtone :=
| SIP_DIALTONE_AUTO | SIP_DIALTONE_DISABLED | SIP_DIALTONE_US | SIP_DIALTONE_UK | SIP_DIALTONE_JP | SIP_DIALTONE_AU
| SIP_DIALTONE_OTHER.

Inductive Ringback := USRinging | UKRinging | JPRinging | AURinging | ETSIRinging.

Definition dialtoneTones (t : SIPDialtone) : option Ringback :=
  match t with
  | SIP_DIALTONE_DISABLED => None
  | SIP_DIALTONE_US => Some USRinging
  | SIP_DIALTONE_UK => Some UKRinging
  | SIP_DIALTONE_JP => Some JPRinging
  | SIP_DIALTONE_AU => Some AURinging
  | _ => Some ETSIRinging
  end.

(** A codec of a description: its name, if the codec is known, and its full SDP name. *)
Record PeerCodec := { pc_Name : string; pc_FullName : string }.

Definition codecLabel (c : PeerCodec) : string := if String.eqb (pc_Name c) "" then "other" else pc_FullName c.

Fixpoint addNames (l : list PeerCodec) (names : list string) : list string :=
  match l with
  | [] => names
  | c :: l' => addNames l' (if existsb (String.eqb (codecLabel c)) names then names else names ++ [codecLabel c])
  end.

Definition peerCodecNames (audio data unknown : list PeerCodec) : list string :=
  addNames unknown (addNames data (addNames audio [])).

(** ** A call's operations on its media *)
Inductive KOp :=
| KOCreate (symmetric : bool) (err : option error)
| KOOffer (offer : error + (error + string))
| KONegotiate (now : Z) (mon : bool) (e : BuildEnv) (rate : Z) (a : AnswerEnvS) (sdp : string)
| KOLate (now : Z) (mon : bool) (e : BuildEnv) (rate : Z) (a : AnswerEnvS) (sdp : string)
| KOReinvite (now : Z) (mon : bool) (e : BuildEnv) (rate : Z) (a : AnswerEnvS) (sdp : string)
| KOPin
| KOKey (tone : ascii -> option Z) (publish : option error) (sample : string)
| KOJoin (confUrl : string) (keys : list string) (rconf : RoomConfig) (extra : gmap string string)
    (attrStatus statusAttr : string) (ctx reg : option error) (build : gmap string string -> string + error)
    (join : option error) (lp : LocalParticipant) (rpc1 rpc2 : option error)
| KOPublish (track publish encode : option error)
| KOSubscribe (l : list RemoteParticipant)
| KOClose (udp : bool).

Definition runKOp `{CodecEquals} (o : MediaOptions) (op : KOp) : M callMedia KEffect unit :=
  match op with
  | KOCreate s err => do* createMediaPort s err in mreturn tt
  | KOOffer r => do* offerMedia r in mreturn tt
  | KONegotiate n m e r a s => do* negotiateMedia o n m e r a s in mreturn tt
  | KOLate n m e r a s => do* negotiateMediaForLateAnswer o n m e r a s in mreturn tt
  | KOReinvite n m e r a s => do* updateRemoteFromSDP o n m e r a s in mreturn tt
  | KOPin => connectPinDTMF
  | KOKey tone p s => do* writeDTMF tone p s in mreturn tt
  | KOJoin u k rc x an sa c g b j lp r1 r2 =>
      do* createLiveKitParticipant u k rc x an sa c g b j lp r1 r2 in mreturn tt
  | KOPublish t p e => do* publishTrack t p e in mreturn tt
  | KOSubscribe l => onRoom (Subscribe l)
  | KOClose udp => closeMedia udp
  end%go.

Fixpoint runKOps `{CodecEquals} (o : MediaOptions) (l : list KOp) : M callMedia KEffect unit :=
  match l with [] => mreturn tt | op :: l' => do* runKOp o op in runKOps o l' end%go.

(** The steps of [handleInvite] that open the port and the room. *)
Definition opens (op : KOp) : bool :=
  match op with KOCreate _ _ | KOJoin _ _ _ _ _ _ _ _ _ _ _ _ _ => true | _ => false end.

(** The steps that may close the room. *)
Definition shuts (op : KOp) : bool :=
  match op with KOClose _ | KOPublish _ _ _ => true | _ => false end.

(** ** Theorems *)
Definition portsOpened (t : list KEffect) : nat := countb (fun e => match e with KOpenPort => true | _ => false end) t.
Definition portTrace (t : list KEffect) : list PortEffect :=
  omap (fun e => match e with KPort e => Some e | _ => None end) t.
Definition hasPort (k : callMedia) : nat := match k_media k with Some _ => 1 | None => 0 end.
Definition liveSessions (k : callMedia) : nat := match k_media k with Some p => live p | None => 0 end.

(** The call's media is over. *)
Definition portOver (k : callMedia) : Prop := forall p, k_media k = Some p -> p_closed p = true.
Definition roomLeft (r : Room) : Prop := closed r = true -> joined r = false.
Definition ended (k : callMedia) : Prop := portOver k /\ closed (k_room k) = true /\ joined (k_room k) = false.

(** What an operation does to the room: it does not open a closed one; if it is quiet, it
    does not enter one; if it keeps the room, it does not close it. *)
Definition roomRel (quiet keeps : bool) (r : Room) (t : list RoomEffect) (r' : Room) : Prop :=
  (closed r = true -> closed r' = true) /\ (quiet = true -> roomLeft r -> roomLeft r') /\
  (keeps = true -> closed r' = closed r).

(** And to the call: it opens the one port and pairs the sessions. *)
Definition mediaRel (quiet keeps : bool) (k : callMedia) (t : list KEffect) (k' : callMedia) : Prop :=
  (forall p, k_media k = Some p -> portInv p) ->
  (forall p, k_media k' = Some p -> portInv p) /\
  (portsOpened t + hasPort k = hasPort k')%nat /\
  (opened (portTrace t) + liveSessions k = closings (portTrace t) + liveSessions k')%nat /\
  (quiet = true -> portOver k -> portOver k') /\
  roomRel quiet keeps (k_room k) [] (k_room k').

Lemma portTrace_app t1 t2 : portTrace (t1 ++ t2) = portTrace t1 ++ portTrace t2.
Proof. apply omap_app. Qed.

#[global] Instance roomRel_trace q c : TraceRel (roomRel q c).
Proof.
  split; [by intros r|]. intros r1 t1 r2 t2 r3 (H1 & H2 & H3) (H4 & H5 & H6). split_and!; auto.
  intros Hc. by rewrite H6, H3.
Qed.

#[global] Instance mediaRel_trace q c : TraceRel (mediaRel q c).
Proof.
  split; [by intros k Hk|]. intros k1 t1 k2 t2 k3 H1 H2 Hk. destruct (H1 Hk) as (I2 & P1 & S1 & E1 & R1).
  destruct (H2 I2) as (I3 & P2 & S2 & E2 & R2). unfold portsOpened, opened, closings in *.
  rewrite portTrace_app, !countb_app. split_and!; [done|lia|lia|auto|]. exact (tr_trans _ [] _ [] _ R1 R2).
Qed.

(** What leaves the port and the room. *)
Lemma mediaRel_same q c k t k' :
  k_media k' = k_media k -> k_room k' = k_room k -> portsOpened t = 0%nat -> portTrace t = [] -> mediaRel q c k t k'.
Proof.
  intros Hm Hr Ho Ht Hk. unfold hasPort, liveSessions, portOver. rewrite Hm, Hr, Ho, Ht. split_and!; try done.
Qed.

Lemma portTrace_port t : portTrace (map KPort t) = t /\ portsOpened (map KPort t) = 0%nat.
Proof.
  unfold portsOpened. induction t as [|e t [I1 I2]]; [done|]. cbn [map]. rewrite countb_cons, I2. split; [|done].
  cbn. by f_equal.
Qed.

Lemma portTrace_room t : portTrace (map KRoom t) = [] /\ portsOpened (map KRoom t) = 0%nat.
Proof.
  unfold portsOpened. induction t as [|e t [I1 I2]]; [done|]. cbn [map]. rewrite countb_cons, I2. done.
Qed.

Lemma onPort_rel {A} q c (none : A) m : mrel portRel m -> mrel (mediaRel q c) (onPort none m).
Proof.
  intros Hm k. unfold mspec, onPort. destruct (k_media k) as [p|] eqn:Ep; [|apply tr_refl].
  specialize (Hm p). unfold mspec in Hm. destruct (m p) as [[a p'] t]. intros Hk.
  destruct (Hm (Hk p Ep)) as (I' & S' & _ & C'). destruct (portTrace_port t) as [T1 T2].
  rewrite T1, T2. unfold hasPort, liveSessions, portOver. cbn [k_media k_room set_media]. rewrite Ep. split_and!; try done.
  - by intros ? [= <-].
  - intros _ Hp ? [= <-]. auto.
Qed.

Lemma onRoom_rel {A} q c (m : M Room RoomEffect A) : mrel (roomRel q c) m -> mrel (mediaRel q c) (onRoom m).
Proof.
  intros Hm k. unfold mspec, onRoom. specialize (Hm (k_room k)). unfold mspec in Hm.
  destruct (m (k_room k)) as [[a r] t]. intros Hk. destruct (portTrace_room t) as [T1 T2].
  rewrite T1, T2. split_and!; try done; by apply Hm.
Qed.

Lemma CloseWithReason_rel q reason : mrel (roomRel q false) (CloseWithReason reason).
Proof.
  unfold CloseWithReason, roomRel, roomLeft. apply mrel_get; [apply _|]. intros r.
  repeat mstep; split_and!; cbn; auto; discriminate.
Qed.

Lemma Connect_rel c u keys rc bld j lp : mrel (roomRel false c) (Connect u keys rc bld j lp).
Proof.
  unfold Connect, setParticipantFromRoom. repeat rel_step; split_and!; try done; cbn; by destruct (joined _).
Qed.

Lemma Subscribe_rel q c l : mrel (roomRel q c) (Subscribe l).
Proof.
  unfold Subscribe. apply mrel_get; [apply _|]. intros r. destruct (joined r) eqn:Hj; cbn [negb]; [|mstep; apply tr_refl].
  mstep. mstep. eapply mspec_mono; [apply subscribeAll_state|]. cbv beta. cbn.
  intros _ r' t (_ & H1 & H2 & _). unfold roomRel, roomLeft. rewrite H1, H2. by split_and!.
Qed.

Lemma WriteSample_rel q c tone s p : mrel (roomRel q c) (inbound_WriteSample tone s p).
Proof.
  unfold inbound_WriteSample, SendData. destruct s as [|d [|]]; try apply mrel_ret, _.
  destruct (tone d); [|apply mrel_ret, _]. repeat rel_step. by split_and!.
Qed.

Lemma swapDTMF_rel q c s : mrel (mediaRel q c) (swapDTMF s).
Proof.
  unfold swapDTMF. repeat rel_step; by apply mediaRel_same.
Qed.

Lemma pin_rel q c tone s : mrel (mediaRel q c) (pinDTMFWriter_WriteSample tone s).
Proof.
  unfold pinDTMFWriter_WriteSample. destruct s as [|d [|]]; try apply mrel_ret, _.
  repeat rel_step. apply mediaRel_same; try done; by destruct (_ <? _)%nat.
Qed.

Lemma createMediaPort_rel c s err : mrel (mediaRel false c) (createMediaPort s err).
Proof.
  unfold createMediaPort. apply mrel_get; [apply _|]. intros k. destruct (k_media k) as [p|] eqn:Ep; [mstep; apply tr_refl|].
  destruct err; repeat mstep; [apply tr_refl|]. cbn [app]. intros _. unfold hasPort, liveSessions. rewrite Ep. cbn.
  split_and!; try done. intros ? [= <-]. apply newMediaPort_inv.
Qed.

Section rels.
Context `{CodecEquals} (o : MediaOptions).

Lemma audioState_rel q c : mrel (mediaRel q c) updateCallStateAudioLocked.
Proof. unfold updateCallStateAudioLocked. repeat rel_step. by apply mediaRel_same. Qed.

Lemma closeMedia_rel q udp : mrel (mediaRel q false) (closeMedia udp).
Proof. apply mrel_bind; [apply _|apply onRoom_rel, CloseWithReason_rel|intros _; apply onPort_rel, Close_rel]. Qed.

Lemma runKOp_rel op : mrel (mediaRel (negb (opens op)) (negb (shuts op))) (runKOp o op).
Proof.
  assert (forall q c n m e r a s, mrel (mediaRel q c) (onPort (inl (EText "")) (GenerateAnswer o n m e r a s))) as Ha.
  { intros. apply onPort_rel, GenerateAnswer_rel. }
  assert (forall q c n m e r a s, mrel (mediaRel q c) (onPort None (ProcessAnswer o n m e r a s))) as Hp.
  { intros. apply onPort_rel, ProcessAnswer_rel. }
  destruct op; cbn [runKOp opens shuts negb]; unfold negotiateMedia, negotiateMediaForLateAnswer, lateAnswer, updateRemoteFromSDP,
    offerMedia, createLiveKitParticipant, registerSignalingRPC, registerCallRPC, registerRPC, writeDTMF, publishTrack, connectPinDTMF;
  repeat lazymatch goal with
  | |- mrel _ (createMediaPort _ _) => apply createMediaPort_rel
  | |- mrel _ (closeMedia _) => apply closeMedia_rel
  | |- mrel _ (swapDTMF _) => apply swapDTMF_rel
  | |- mrel _ (pinDTMFWriter_WriteSample _ _) => apply pin_rel
  | |- mrel _ updateCallStateAudioLocked => apply audioState_rel
  | |- mrel _ (onPort _ GetLocalSDP) => apply onPort_rel, GetLocalSDP_rel
  | |- mrel _ (onPort _ (GenerateOffer _)) => apply onPort_rel, GenerateOffer_rel
  | |- mrel _ (onPort _ (GenerateAnswer _ _ _ _ _ _ _)) => apply Ha
  | |- mrel _ (onPort _ (ProcessAnswer _ _ _ _ _ _ _)) => apply Hp
  | |- mrel _ (onPort None _) => apply onPort_rel; rel_step; [apply GenerateAnswer_rel|]
  | |- mrel _ (onRoom (Subscribe _)) => apply onRoom_rel, Subscribe_rel
  | |- mrel _ (onRoom (CloseWithReason _)) => apply onRoom_rel, CloseWithReason_rel
  | |- mrel _ (onRoom (inbound_WriteSample _ _ _)) => apply onRoom_rel, WriteSample_rel
  | |- mrel _ (onRoom (Connect _ _ _ _ _ _)) => apply onRoom_rel, Connect_rel
  | |- mediaRel _ _ _ _ _ => by apply mediaRel_same
  | |- _ => rel_step
  end.
Qed.
End rels.

Lemma mediaRel_weaken q c k t k' : mediaRel q c k t k' -> mediaRel false false k t k'.
Proof. intros H Hk. destruct (H Hk) as (? & ? & ? & ? & ? & ?). by split_and!. Qed.

Lemma runKOps_rel `{CodecEquals} o l : mrel (mediaRel false false) (runKOps o l).
Proof.
  induction l as [|op l IH]; cbn [runKOps]; [apply mrel_ret, _|]. apply mrel_bind; [apply _| |done].
  intros k. eapply mspec_mono; [apply (runKOp_rel o op k)|]. cbv beta. eauto using mediaRel_weaken.
Qed.

Lemma Close_closes udp p : mspec (Close udp) p (fun _ p' _ => p_closed p' = true).
Proof.
  unfold Close. mstep. mstep. destruct (p_closed p) eqn:Ec; [by mstep|]. mstep. mstep. unfold closePipelineLocked, closeSwitch.
  repeat mstep. destruct (p_audioOut _), (p_dtmfOut _); repeat mstep;
    (destruct (p_pipeline _) as [[n q]|]; [destruct (pl_Close q) as [[u q'] t]; mstep; unfold mspec at 1; rewrite emits_run|]);
    repeat mstep; done.
Qed.

Lemma closeMedia_ends udp k : roomLeft (k_room k) -> mspec (closeMedia udp) k (fun _ k' _ => ended k').
Proof.
  intros Hl. unfold closeMedia. mstep. unfold mspec at 1, onRoom.
  assert (mspec (CloseWithReason UNKNOWN_REASON) (k_room k) (fun _ r' _ => closed r' = true /\ joined r' = false)) as Hr.
  { unfold CloseWithReason, roomLeft in *. repeat mstep; cbn; auto.
    apply negb_false_iff in H. auto. }
  unfold mspec in Hr. destruct (CloseWithReason UNKNOWN_REASON (k_room k)) as [[u r'] t].
  unfold mspec, onPort. cbn [k_media set_room]. destruct (k_media k) as [p|] eqn:Ep.
  - pose proof (Close_closes udp p) as Hc. unfold mspec in Hc. destruct (Close udp p) as [[u' p'] t'].
    split; [by intros ? [= <-]|done].
  - split; [|done]. intros p. cbn. by rewrite Ep.
Qed.

Definition isClose (op : KOp) : bool := match op with KOClose _ => true | _ => false end.

(** The order of [handleInvite]: nothing is opened after the track was published or the
    call closed. *)
Fixpoint inOrder (over : bool) (l : list KOp) : bool :=
  match l with [] => true | op :: l' => negb (over && opens op) && inOrder (over || shuts op) l' end.

Lemma shuts_quiet op : shuts op = true -> opens op = false.
Proof. by destruct op. Qed.

Lemma inOrder_ends `{CodecEquals} o l : forall over k,
  inOrder over l = true -> (forall p, k_media k = Some p -> portInv p) ->
  (over = false -> closed (k_room k) = false) -> roomLeft (k_room k) ->
  (over = true /\ ended k) \/ existsb isClose l = true ->
  mspec (runKOps o l) k (fun _ k' _ => ended k').
Proof.
  induction l as [|op l IH]; intros over k Ho Hk Hf Hl He; cbn [runKOps inOrder existsb] in *.
  { mstep. destruct He as [[_ He]|He]; [done|discriminate]. }
  apply andb_true_iff in Ho as [Hop Ho]. mstep. pose proof (runKOp_rel o op k) as Hr.
  assert (isClose op = true -> mspec (runKOp o op) k (fun _ k' _ => ended k')) as Hc.
  { destruct op; try discriminate. intros _. by apply closeMedia_ends. }
  unfold mspec at 1. unfold mspec in Hr, Hc. destruct (runKOp o op k) as [[u k1] t1].
  destruct (Hr Hk) as (I1 & _ & _ & E1 & R1 & L1 & K1).
  assert (roomLeft (k_room k1)) as Hl1.
  { destruct (opens op) eqn:Eo; [|by apply L1]. destruct over; [discriminate|].
    destruct (shuts op) eqn:Es; [by rewrite (shuts_quiet op Es) in Eo|]. intros H1.
    specialize (K1 eq_refl). rewrite (Hf eq_refl) in K1. congruence. }
  eapply mspec_mono; [apply (IH (over || shuts op)); [done|done| |done|]|by cbv beta].
  - intros [-> Es]%orb_false_iff. rewrite Es in K1. rewrite K1; auto.
  - destruct (isClose op) eqn:Ec.
    + left. split; [|by apply Hc]. apply orb_true_iff. right. by destruct op.
    + destruct He as [[-> [Ep [Er Ej]]]|He]; [left|by right]. split; [done|].
      cbn in Hop. apply negb_true_iff in Hop. rewrite Hop in E1. split; [by apply E1|]. split; auto.
Qed.

(** C16: The life of a call's media.  Whatever the peers, the SDP library and the SDK do: at most
    one port is opened; every media session that is opened is closed again but the one in
    use; and once the call is closed the port is closed, no session is live and the room
    has been left, also if re-INVITEs, late answers and keys still arrive, provided that
    nothing is opened after the track was published or the call was closed. *)
Theorem call_media_life `{CodecEquals} o l :
  let '(_, k, t) := runKOps o l newCallMedia in
  portsOpened t = hasPort k /\
  opened (portTrace t) = (closings (portTrace t) + liveSessions k)%nat /\
  (inOrder false l = true -> existsb isClose l = true -> ended k /\ liveSessions k = 0%nat).
Proof.
  pose proof (runKOps_rel o l newCallMedia) as Hr. pose proof (inOrder_ends o l false newCallMedia) as He.
  unfold mspec in *. destruct (runKOps o l newCallMedia) as [[u k] t].
  destruct Hr as (I & P & S & _); [done|]. cbn in P, S. split_and!; [lia|lia|]. intros H1 H2.
  assert (ended k) as Hk by (apply He; auto; done). split; [done|]. destruct Hk as [Hk _].
  unfold portOver in Hk. unfold liveSessions, live. destruct (k_media k) as [p|]; [|done]. specialize (Hk p eq_refl).
  destruct (p_pipeline p) as [[n q]|] eqn:E; [|done]. destruct (pi_pipeline p (I p eq_refl) n q E) as (_ & ? & _). congruence.
Qed.

(** The order matters.  A call that is closed by another goroutine (a shutdown) while
    [handleInvite] has not yet created the port and joined the room leaves both open: the
    port is created and the room joined on the closed call, and closing it again does
    not leave the room. *)
Theorem closed_while_opening_leaks `{CodecEquals} o udp symmetric confUrl keys rconf extra an sa bld lp token :
  rc_Token rconf = token -> token <> "" ->
  let l := [KOClose udp; KOCreate symmetric None;
            KOJoin confUrl keys rconf extra an sa None None bld None lp None None; KOClose udp] in
  let '(_, k, t) := runKOps o (take 3 l) newCallMedia in
  (exists p, k_media k = Some p /\ p_closed p = false) /\ joined (k_room k) = true /\
  (let '(_, k', t') := runKOps o l newCallMedia in
   joined (k_room k') = true /\ forall reason, KRoom (RDisconnect reason) ∉ t').
Proof.
  intros Ht Hne. apply String.eqb_neq in Hne. subst token. cbn. unfold Connect. cbn [rc_Token].
  rewrite Hne. cbn. split_and!; [eauto|done|done|]. intros reason. set_solver.
Qed.

(** ** Keys *)

(** The keys of a stream of events, one after the other. *)
Fixpoint writeKeys (tone : ascii -> option Z) (l : list ascii) : M callMedia KEffect unit :=
  match l with [] => mreturn tt | c :: l' => do* writeDTMF tone None (String c "") in writeKeys tone l' end%go.

Lemma writeDTMF_room tone c k :
  k_dtmfTo k = Some ToRoom -> ready (k_room k) = true -> closed (k_room k) = false -> joined (k_room k) = true ->
  (writeDTMF tone None (String c "") k).1.2 = k /\
  (writeDTMF tone None (String c "") k).2 =
    match tone c with Some code => [KRoom (RPublish code (String c ""))] | None => [] end.
Proof.
  intros Hd Hr Hc Hj. unfold writeDTMF, mbind', mget. rewrite Hd. unfold onRoom, inbound_WriteSample.
  assert (set_room (k_room k) k = k) as Hk by by destruct k.
  destruct (tone c) as [code|]; [|by cbn; rewrite Hk]. unfold SendData, mbind', mget. rewrite Hr, Hc, Hj. cbn. by rewrite Hk.
Qed.

Lemma writeKeys_room tone l k :
  k_dtmfTo k = Some ToRoom -> ready (k_room k) = true -> closed (k_room k) = false -> joined (k_room k) = true ->
  writeKeys tone l k =
    (tt, k, omap (fun c => (fun code => KRoom (RPublish code (String c ""))) <$> tone c) l).
Proof.
  intros Hd Hr Hc Hj. induction l as [|c l IH]; [done|]. cbn [writeKeys omap list_omap]. unfold mbind'.
  destruct (writeDTMF_room tone c k Hd Hr Hc Hj) as [H1 H2].
  destruct (writeDTMF tone None (String c "") k) as [[r k'] t]. cbn in H1, H2. subst k' t. unfold omap in IH.
  rewrite IH. by destruct (tone c).
Qed.

(** The channel of the PIN prompt keeps the first keys and drops the others. *)
Lemma writeDTMF_pin tone c k :
  k_dtmfTo k = Some ToPin ->
  (writeDTMF tone None (String c "") k).1.2 =
    match tone c with
    | Some code => if (length (k_dtmf k) <? dtmfBuffer)%nat
                   then set_sinks (k_audioTo k) (k_dtmfTo k) (k_dtmf k ++ [{| ev_Code := u8 code; ev_Digit := c |}]) k
                   else k
    | None => k
    end /\ (writeDTMF tone None (String c "") k).2 = [].
Proof.
  intros Hd. unfold writeDTMF, mbind', mget. rewrite Hd. unfold pinDTMFWriter_WriteSample, mbind', mmodify.
  destruct (tone c); [|done]. cbn. by rewrite Hd.
Qed.

Lemma writeKeys_pin tone l : forall k,
  k_dtmfTo k = Some ToPin -> (length (k_dtmf k) <= dtmfBuffer)%nat ->
  let evs := omap (fun c => (fun code => {| ev_Code := u8 code; ev_Digit := c |}) <$> tone c) l in
  writeKeys tone l k = (tt, set_sinks (k_audioTo k) (k_dtmfTo k) (take dtmfBuffer (k_dtmf k ++ evs)) k, []).
Proof.
  cbv zeta. induction l as [|c l IH]; intros k Hd Hl; cbn [writeKeys omap list_omap].
  { rewrite app_nil_r, take_ge by done. by destruct k. }
  unfold mbind'. destruct (writeDTMF_pin tone c k Hd) as [H1 H2].
  destruct (writeDTMF tone None (String c "") k) as [[r k'] t]. cbn [fst snd] in H1, H2. subst k' t.
  destruct (tone c) as [code|]; cbn [fmap option_fmap option_map]; [|by rewrite IH].
  destruct (Nat.ltb_spec (length (k_dtmf k)) dtmfBuffer) as [Hlt|Hge].
  - rewrite IH; [|exact Hd|cbn; rewrite length_app; cbn; lia]. cbn [k_dtmf k_audioTo k_dtmfTo set_sinks app].
    by rewrite <- app_assoc.
  - rewrite IH by done. assert (length (k_dtmf k) = dtmfBuffer) as Hlen by lia. by rewrite <- !Hlen, !take_app_length.
Qed.

(** C31: From the caller's telephone events to the room and to the PIN prompt.  Once the call is
    published, the data packets sent to the room are exactly the digits of the distinct
    events, in order, as often as they were pressed and not as often as they were sent,
    without those that are not DTMF keys.  Before that, with the PIN writer connected,
    nothing is sent to the room, and the prompt's channel holds the first ten of them that
    were not read yet. *)
Theorem dtmf_delivered tone l k :
  Forall eventOK l ->
  let keys := distinctEvents None (decoded l) in
  (k_dtmfTo k = Some ToRoom -> ready (k_room k) = true -> closed (k_room k) = false -> joined (k_room k) = true ->
   writeKeys tone (handleEvents l noEvent) k =
     (tt, k, omap (fun c => (fun code => KRoom (RPublish code (String c ""))) <$> tone c) keys)) /\
  (k_dtmfTo k = Some ToPin -> (length (k_dtmf k) <= dtmfBuffer)%nat ->
   let evs := omap (fun c => (fun code => {| ev_Code := u8 code; ev_Digit := c |}) <$> tone c) keys in
   writeKeys tone (handleEvents l noEvent) k =
     (tt, set_sinks (k_audioTo k) (k_dtmfTo k) (take dtmfBuffer (k_dtmf k ++ evs)) k, [])).
Proof.
  intros Hl. cbv zeta. change noEvent with (idOf None). rewrite (handleEvents_distinct l None Hl ltac:(done)).
  split; intros; [by apply writeKeys_room|by apply writeKeys_pin].
Qed.

(** ** Witnesses *)
Definition exTone (c : ascii) : option Z :=
  let n := Z.of_nat (nat_of_ascii c) - 48 in if (0 <=? n) && (n <=? 9) then Some n else None.

Definition exRoomConf : RoomConfig :=
  {| rc_WsUrl := "wss://a"; rc_Token := "tok"; rc_RoomName := "r"; rc_Identity := "sip"; rc_Name := "n";
     rc_Attributes := ∅ |}.

(** An inbound call up to its published track. *)
Definition exCallOps : list KOp :=
  [KOCreate true None; KONegotiate 1 true exBuild 48000 (exAnswer 0 "v=0 pcmu") "offer";
   KOJoin "" [] exRoomConf ∅ "sip.callStatus" "ringing" None None (fun _ => inl "") None
     {| lp_SID := "PA"; lp_Identity := "sip" |} None None;
   KOPublish None None None].

Definition exCall : callMedia := (runKOps exOpts exCallOps newCallMedia).1.2.

Lemma dtmf_delivered_witness :
  writeKeys exTone (handleEvents [exEvent 160 5 "5"; exEvent 160 5 "5"; exEvent 800 5 "5"; exEvent 900 16 "A"] noEvent) exCall =
    (tt, exCall, [KRoom (RPublish 5 "5"); KRoom (RPublish 5 "5")]).
Proof.
  refine (proj1 (dtmf_delivered exTone _ exCall _) eq_refl eq_refl eq_refl eq_refl).
  repeat (apply List.Forall_cons; [split; [cbn; lia|intros ev [= <-]; cbn; lia]|]). apply List.Forall_nil.
Defined.

(** The whole call, closed, with a re-INVITE after that. *)
Lemma exCall_ended :
  let '(_, k, t) := runKOps exOpts (exCallOps ++ [KOClose true; KOReinvite 9 true exBuild 48000 (exAnswer 8 "x") "o"])
                      newCallMedia in
  (portsOpened t, opened (portTrace t), closings (portTrace t), liveSessions k) = (1%nat, 1%nat, 1%nat, 0%nat).
Proof. vm_compute. reflexivity. Qed.

Lemma closed_while_opening_leaks_witness :
  let l := [KOClose true; KOCreate true None;
            KOJoin "" [] exRoomConf ∅ "sip.callStatus" "ringing" None None (fun _ => inl "") None
              {| lp_SID := "PA"; lp_Identity := "sip" |} None None; KOClose true] in
  let '(_, k, t) := runKOps exOpts (take 3 l) newCallMedia in
  (exists p, k_media k = Some p /\ p_closed p = false) /\ joined (k_room k) = true /\
  (let '(_, k', t') := runKOps exOpts l newCallMedia in
   joined (k_room k') = true /\ forall reason, KRoom (RDisconnect reason) ∉ t').
Proof.
  exact (closed_while_opening_leaks exOpts true true "" [] exRoomConf ∅ "sip.callStatus" "ringing"
    (fun _ => inl "") {| lp_SID := "PA"; lp_Identity := "sip" |} "tok" eq_refl ltac:(discriminate)).
Defined.

(** ** Codec names *)
Lemma addNames_NoDup l : forall names,
  NoDup names ->
  NoDup (addNames l names) /\ forall n, n ∈ addNames l names <-> n ∈ names \/ exists c, c ∈ l /\ n = codecLabel c.
Proof.
  induction l as [|c l IH]; intros names Hn; cbn [addNames].
  { split; [done|]. intros n. set_solver. }
  assert (existsb (String.eqb (codecLabel c)) names = true <-> codecLabel c ∈ names) as Hm.
  { rewrite existsb_exists. setoid_rewrite String.eqb_eq. setoid_rewrite <- list_elem_of_In. naive_solver. }
  destruct (existsb _ names) eqn:E.
  - destruct (IH names Hn) as [H1 H2]. split; [done|]. intros n. rewrite H2.
    pose proof (proj1 Hm eq_refl). set_solver.
  - destruct (IH (names ++ [codecLabel c])) as [H1 H2].
    { apply list.NoDup_app. split_and!; [done| |apply list.NoDup_singleton]. intros x Hx ->%list_elem_of_singleton.
      by apply Hm in Hx. }
    split; [done|]. intros n. rewrite H2. set_solver.
Qed.

(** The codecs of the metric: each codec of the description once. *)
Theorem peerCodecNames_spec audio data unknown :
  NoDup (peerCodecNames audio data unknown) /\
  forall n, n ∈ peerCodecNames audio data unknown <-> exists c, c ∈ audio ++ data ++ unknown /\ n = codecLabel c.
Proof.
  unfold peerCodecNames. destruct (addNames_NoDup audio []) as [A1 A2]; [constructor|].
  destruct (addNames_NoDup data _ A1) as [B1 B2]. destruct (addNames_NoDup unknown _ B1) as [C1 C2].
  split; [done|]. intros n. rewrite C2, B2, A2. setoid_rewrite elem_of_app. setoid_rewrite elem_of_app. set_solver.
Qed.
