(* ===== verification/Config.v ===== *)
(** * Configuration

    [pkg/config/config.go], [pkg/config/tls.go], [pkg/sip/config.go], [pkg/sip/tls.go] and the
    part of [NewService] of [pkg/sip/service.go] that completes the configuration: defaults,
    checks, TLS policy, and the addresses the service announces.  Reading YAML, resolving
    the external address and listing interfaces are outside; their results are arguments,
    as are the parser of [net/netip] and the cipher suites of [crypto/tls].  A [float64] of
    the configuration is one of the Standard Library's binary floats, infinities and NaN
    included. *)

From stdpp Require Import base tactics list gmap strings option.
From Stdlib Require Import ZArith SpecFloat Ascii Lia.
From S2P Require Import Prelude GoStd GoErr NetIP.
Import strings strconv unquote.
Local Open Scope Z_scope.

(** ** Data *)
Definition second : Z := 1000 * 1000 * 1000.

Definition DefaultSIPPort : Z := 5060.
Definition DefaultSIPPortTLS : Z := 5061.

(** The floats 0, 1 and 0.9, the last one rounded to 53 bits. *)
Definition float0 : spec_float := S754_zero false.
Definition float1 : spec_float := S754_finite false 4503599627370496 (-52).
Definition float0_9 : spec_float := S754_finite false 8106479329266893 (-53).

Record PortRange := { Start : Z; End_ : Z }.

Definition DefaultRTPPortRange : PortRange := {| Start := 10000; End_ := 20000 |}.

Definition DefaultRTPDrainingIdleTimeout : Z := 30 * second.
Definition DefaultRTPDrainingDuration : Z := 10 * 60 * second.

(** [tls_alpn]: [None] is the nil slice of a configuration that does not mention it. *)
Record TLSConfig := {
  tls_Port : Z;
  tls_ListenPort : Z;
  tls_Certs : list (string * string);
  tls_KeyLog : string;
  tls_MinVersion : string;
  tls_MaxVersion : string;
  tls_CipherSuites : list string;
  tls_WarnOnly : bool;
  tls_alpn : option (list string);
}.

Record Config := {
  Redis : bool;                       (* not nil *)
  ApiKey : string;
  ApiSecret : string;
  WsUrl : string;
  HealthPort : Z;
  PrometheusPort : Z;
  PProfPort : Z;
  SIPPort : Z;
  SIPPortListen : Z;
  SIPHostname : string;
  SIPRingingInterval : Z;
  TCP : option PortRange;
  TLS : option TLSConfig;
  RTPPort : PortRange;
  ClusterID : string;
  MaxCpuUtilization : spec_float;    (* a float64: a number, an infinity or NaN *)
  MaxActiveCalls : Z;
  SIPTrunkIds : list string;
  UseExternalIP : bool;
  LocalNet : string;
  NAT1To1IP : string;
  ListenIP : string;
  UDPMaxPayload : Z;
  MediaUseExternalIP : bool;
  MediaNAT1To1IP : string;
  MediaTimeout : Z;
  MediaTimeoutInitial : Z;
  RTPDrainingIdleTimeout : Z;
  RTPDrainingDuration : Z;
  Codecs : gmap string bool;
  ServiceName : string;
  NodeID : string;
}.

(** ** Loading *)

(** What the environment gives. *)
Definition envConfig (key secret url : string) : Config :=
  {| Redis := false; ApiKey := key; ApiSecret := secret; WsUrl := url; HealthPort := 0; PrometheusPort := 0;
     PProfPort := 0; SIPPort := 0; SIPPortListen := 0; SIPHostname := ""; SIPRingingInterval := 0; TCP := None;
     TLS := None; RTPPort := {| Start := 0; End_ := 0 |}; ClusterID := ""; MaxCpuUtilization := float0; MaxActiveCalls := 0;
     SIPTrunkIds := []; UseExternalIP := false; LocalNet := ""; NAT1To1IP := ""; ListenIP := ""; UDPMaxPayload := 0;
     MediaUseExternalIP := false; MediaNAT1To1IP := ""; MediaTimeout := 0; MediaTimeoutInitial := 0;
     RTPDrainingIdleTimeout := 0; RTPDrainingDuration := 0; Codecs := ∅; ServiceName := "sip"; NodeID := "" |}.

Section loading.
Context `{ErrorText}.

(** [unmarshal]: the YAML library, which changes the configuration it is given. *)
Definition NewConfig (getenv : string -> string) (unmarshal : string -> Config -> Config + error) (confString : string)
    : Config + error :=
  let conf := envConfig (getenv "LIVEKIT_API_KEY") (getenv "LIVEKIT_API_SECRET") (getenv "LIVEKIT_WS_URL") in
  match (if negb (String.eqb confString "") then unmarshal confString conf else inl conf) with
  | inr err => inr (NewErrorf InvalidArgument ("could not parse config: " +:+ Error err))
  | inl conf =>
      if negb (Redis conf) then inr (NewErrorf InvalidArgument "redis configuration is required") else inl conf
  end.

Definition orDefault (v d : Z) : Z := if v =? 0 then d else v.

(** Zero takes the default, a negative duration means none. *)
Definition drainingOr (v d : Z) : Z := if v =? 0 then d else if v <? 0 then 0 else v.

Definition initTLS (t : TLSConfig) : TLSConfig :=
  let port := orDefault (tls_Port t) DefaultSIPPortTLS in
  {| tls_Port := port; tls_ListenPort := orDefault (tls_ListenPort t) port; tls_Certs := tls_Certs t;
     tls_KeyLog := tls_KeyLog t; tls_MinVersion := tls_MinVersion t; tls_MaxVersion := tls_MaxVersion t;
     tls_CipherSuites := tls_CipherSuites t; tls_WarnOnly := tls_WarnOnly t; tls_alpn := tls_alpn t |}.

(** [node]: a new guid; [logger]: the result of [InitLogger].  The configuration is changed
    whether or not the call succeeds. *)
Definition Init (node : string) (logger : option error) (c : Config) : Config * option error :=
  let port := orDefault (SIPPort c) DefaultSIPPort in
  let c' :=
    {| Redis := Redis c; ApiKey := ApiKey c; ApiSecret := ApiSecret c; WsUrl := WsUrl c; HealthPort := HealthPort c;
       PrometheusPort := PrometheusPort c; PProfPort := PProfPort c; SIPPort := port;
       SIPPortListen := orDefault (SIPPortListen c) port; SIPHostname := SIPHostname c;
       SIPRingingInterval := SIPRingingInterval c; TCP := TCP c; TLS := initTLS <$> TLS c;
       RTPPort := {| Start := orDefault (Start (RTPPort c)) (Start DefaultRTPPortRange);
                     End_ := orDefault (End_ (RTPPort c)) (End_ DefaultRTPPortRange) |};
       ClusterID := ClusterID c;
       MaxCpuUtilization := if SFleb (MaxCpuUtilization c) float0 || SFltb float1 (MaxCpuUtilization c)
                            then float0_9 else MaxCpuUtilization c;
       MaxActiveCalls := MaxActiveCalls c; SIPTrunkIds := SIPTrunkIds c; UseExternalIP := UseExternalIP c;
       LocalNet := LocalNet c; NAT1To1IP := NAT1To1IP c; ListenIP := ListenIP c; UDPMaxPayload := UDPMaxPayload c;
       MediaUseExternalIP := MediaUseExternalIP c; MediaNAT1To1IP := MediaNAT1To1IP c; MediaTimeout := MediaTimeout c;
       MediaTimeoutInitial := MediaTimeoutInitial c;
       RTPDrainingIdleTimeout := drainingOr (RTPDrainingIdleTimeout c) DefaultRTPDrainingIdleTimeout;
       RTPDrainingDuration := drainingOr (RTPDrainingDuration c) DefaultRTPDrainingDuration;
       Codecs := Codecs c; ServiceName := ServiceName c; NodeID := node |} in
  (c', match logger with
       | Some err => Some err
       | None =>
           if UseExternalIP c && negb (String.eqb (NAT1To1IP c) "")
           then Some (EText "use_external_ip and nat_1_to_1_ip can not both be set")
           else if MediaUseExternalIP c && negb (String.eqb (MediaNAT1To1IP c) "")
           then Some (EText "media_use_external_ip and media_nat_1_to_1_ip can not both be set")
           else None
       end).

(** [getConfig] of the program's entry: the flags, reading the file, and [Init]. *)
Definition getConfig (configFile configBody : string) (readFile : string -> string + error) (getenv : string -> string)
    (unmarshal : string -> Config -> Config + error) (node : string) (logger : option error) (initialize : bool)
    : Config + error :=
  match (if String.eqb configBody ""
         then if String.eqb configFile "" then inr (NewErrorf InvalidArgument "missing config") else readFile configFile
         else inl configBody) with
  | inr err => inr err
  | inl body =>
      match NewConfig getenv unmarshal body with
      | inr err => inr err
      | inl conf =>
          if initialize then
            match Init node logger conf with (_, Some err) => inr err | (conf', None) => inl conf' end
          else inl conf
      end
  end.

(** [GetLoggerValues] and [GetLoggerFields]. *)
Definition GetLoggerValues (c : Config) : list string := if String.eqb (NodeID c) "" then [] else ["nodeID"; NodeID c].

Fixpoint fieldsOf (l : list string) (m : gmap string string) : gmap string string :=
  match l with k :: v :: l' => fieldsOf l' (<[k := v]> m) | _ => m end.

Definition GetLoggerFields (c : Config) : gmap string string := fieldsOf (GetLoggerValues c) {[ "logger" := ServiceName c ]}.
End loading.

(** ** Addresses *)

(** [config.GetLocalIP]: the first IPv4 address of an interface that is up, running and
    neither point-to-point nor loopback. *)
Definition candidates (ifaces : list Iface) : list Addr :=
  flat_map (fun i =>
    if negb (if_up i) || negb (if_running i) then []
    else if if_p2p i || if_loopback i then []
    else match if_addrs i with
         | None => []
         | Some addrs => omap (fun a => match a with IPNet ip => To4 ip | _ => None end) addrs
         end) ifaces.

Definition GetLocalIP (ifaces : list Iface + error) : Addr * option error :=
  match ifaces with
  | inr _ => (NoAddr, None)
  | inl l => match candidates l with [] => (NoAddr, Some (EText "no local IP found")) | a :: _ => (a, None) end
  end.

Section addresses.
Context `{ErrorText}.
Variable ParseAddr : string -> Addr + error.
Variable ParsePrefix : string -> Prefix + error.

(** The address taken from one address of an interface, if it will do. *)
Definition localAddr (netw : option Prefix) (a : IfaceAddr) : option Addr :=
  match a with
  | IPAddr ip | IPNet ip =>
      match To4 ip with
      | None => None
      | Some addr =>
          if IsLoopback addr then None
          else match netw with
               | Some nw => if negb (Prefix_Contains nw addr) then None else Some addr
               | None => Some addr
               end
      end
  | OtherAddr => None
  end.

Fixpoint firstLocal (netw : option Prefix) (l : list IfaceAddr) : option Addr :=
  match l with
  | [] => None
  | a :: l' => match localAddr netw a with Some addr => Some addr | None => firstLocal netw l' end
  end.

Fixpoint scanIfaces (netw : option Prefix) (l : list Iface) : option Addr :=
  match l with
  | [] => None
  | i :: l' =>
      match if_addrs i with
      | None => scanIfaces netw l'
      | Some addrs => match firstLocal netw addrs with Some a => Some a | None => scanIfaces netw l' end
      end
  end.

Definition getLocalIP (ifaces : list Iface + error) (localNet : string) : Addr + error :=
  match ifaces with
  | inr err => inr err
  | inl l =>
      match (if negb (String.eqb localNet "")
             then match ParsePrefix localNet with inl nw => inl (Some nw) | inr err => inr err end
             else inl None) with
      | inr err => inr err
      | inl netw =>
          match scanIfaces netw l with
          | Some a => inl a
          | None => inr (EText "no local interface found")
          end
      end
  end.

(** [stun i]: the [i]-th lookup of the external address. *)
Fixpoint publicLoop (stun : nat -> string + error) (n i : nat) (err : option error) : Addr + error :=
  match n with
  | O => inr (EText ("could not resolve external IP: " +:+ match err with Some e => Error e | None => "<nil>" end))
  | S n' =>
      match stun i with
      | inl ip => ParseAddr ip
      | inr e => publicLoop stun n' (S i) (Some e)
      end
  end.

Definition getPublicIP (stun : nat -> string + error) : Addr + error := publicLoop stun 3 0 None.

Record ServiceConfig := { SignalingIP : Addr; SignalingIPLocal : Addr; MediaIP : Addr }.

(** [stun1], [stun2]: the lookups for signaling and for media. *)
Definition GetServiceConfig (ifaces : list Iface + error) (stun1 stun2 : nat -> string + error) (conf : Config)
    : ServiceConfig + error :=
  match (if UseExternalIP conf then
           match getPublicIP stun1 with
           | inr err => inr err
           | inl pub => match getLocalIP ifaces (LocalNet conf) with inr err => inr err | inl loc => inl (pub, loc) end
           end
         else if negb (String.eqb (NAT1To1IP conf) "") then
           match ParseAddr (NAT1To1IP conf) with inr err => inr err | inl ip => inl (ip, ip) end
         else
           match getLocalIP ifaces (LocalNet conf) with inr err => inr err | inl ip => inl (ip, ip) end) with
  | inr err => inr err
  | inl (sig, loc) =>
      match (if MediaUseExternalIP conf && negb (UseExternalIP conf) then getPublicIP stun2
             else if negb (String.eqb (MediaNAT1To1IP conf) "") &&
                     negb (String.eqb (MediaNAT1To1IP conf) (NAT1To1IP conf)) then ParseAddr (MediaNAT1To1IP conf)
             else inl sig) with
      | inr err => inr err
      | inl media => inl {| SignalingIP := sig; SignalingIPLocal := loc; MediaIP := media |}
      end
  end.
End addresses.

(** ** The service's configuration: [NewService] *)
Definition defaultMediaTimeout : Z := 15 * second.
Definition defaultMediaTimeoutInitial : Z := 30 * second.

Definition placeholder : string := "${IP}".
Definition badHostChars : string := "$%{}[]:/| ".

(** [strings.ReplaceAll] with a pattern that is not empty.  The fuel, one more than the
    length, is enough: every step drops a character. *)
Fixpoint replaceAll (fuel : nat) (s old new : string) : string :=
  match fuel with
  | O => s
  | S f =>
      match s with
      | "" => ""
      | String c s' =>
          if String.prefix old s then new +:+ replaceAll f (sdrop (String.length old) s) old new
          else String c (replaceAll f s' old new)
      end
  end.

Definition ReplaceAll (s old new : string) : string := replaceAll (S (String.length s)) s old new.

Lemma length_sdrop n s : String.length (sdrop n s) = (String.length s - n)%nat.
Proof. revert s. induction n as [|n IH]; intros [|c s]; cbn; auto. Qed.

(** More fuel changes nothing. *)
Lemma replaceAll_fuel old new f : old <> "" -> forall g s,
  (String.length s < f)%nat -> (String.length s < g)%nat -> replaceAll f s old new = replaceAll g s old new.
Proof.
  intros Hold. assert (0 < String.length old)%nat as Ho by (destruct old; [done|cbn; lia]).
  induction f as [|f IH]; intros g s Hf Hg; [lia|]. destruct g as [|g]; [lia|]. cbn [replaceAll].
  destruct s as [|c s]; [done|]. cbn [String.length] in Hf, Hg.
  destruct (String.prefix old (String c s)).
  - f_equal. apply IH; rewrite length_sdrop; cbn [String.length]; lia.
  - f_equal. apply IH; lia.
Qed.

(** The replacer of the address: a dot or a colon becomes a dash, brackets go. *)
Fixpoint dashed (s : string) : string :=
  match s with
  | "" => ""
  | String c s' =>
      if Ascii.eqb c "." || Ascii.eqb c ":" then String "-" (dashed s')
      else if Ascii.eqb c "[" || Ascii.eqb c "]" then dashed s'
      else String c (dashed s')
  end.

Definition hostnameFor (ip host : string) : string :=
  if Contains host placeholder then ReplaceAll host placeholder (dashed ip) else host.

(** [text]: the signaling address as text. *)
Definition completeConfig (text : string) (c : Config) : Config :=
  {| Redis := Redis c; ApiKey := ApiKey c; ApiSecret := ApiSecret c; WsUrl := WsUrl c; HealthPort := HealthPort c;
     PrometheusPort := PrometheusPort c; PProfPort := PProfPort c; SIPPort := SIPPort c;
     SIPPortListen := SIPPortListen c; SIPHostname := hostnameFor text (SIPHostname c);
     SIPRingingInterval := if (SIPRingingInterval c <? second) || (60 * second <? SIPRingingInterval c) then second
                           else SIPRingingInterval c;
     TCP := TCP c; TLS := TLS c; RTPPort := RTPPort c; ClusterID := ClusterID c;
     MaxCpuUtilization := MaxCpuUtilization c; MaxActiveCalls := MaxActiveCalls c; SIPTrunkIds := SIPTrunkIds c;
     UseExternalIP := UseExternalIP c; LocalNet := LocalNet c; NAT1To1IP := NAT1To1IP c; ListenIP := ListenIP c;
     UDPMaxPayload := UDPMaxPayload c; MediaUseExternalIP := MediaUseExternalIP c; MediaNAT1To1IP := MediaNAT1To1IP c;
     MediaTimeout := if MediaTimeout c <=? 0 then defaultMediaTimeout else MediaTimeout c;
     MediaTimeoutInitial := if MediaTimeoutInitial c <=? 0 then defaultMediaTimeoutInitial else MediaTimeoutInitial c;
     RTPDrainingIdleTimeout := RTPDrainingIdleTimeout c; RTPDrainingDuration := RTPDrainingDuration c;
     Codecs := Codecs c; ServiceName := ServiceName c; NodeID := NodeID c |}.

(** [NewService], what it does to the configuration: [sconf] is the result of
    [GetServiceConfig], [text] its signaling address as text. *)
Definition NewService (sconf : ServiceConfig + error) (text : string) (c : Config) : (Config * ServiceConfig) + error :=
  match sconf with
  | inr err => inr err
  | inl sc =>
      let c' := completeConfig text c in
      if ContainsAny (SIPHostname c') badHostChars
      then inr (EText ("invalid hostname: " +:+ quote (SIPHostname c')))
      else inl (c', sc)
  end.

(** ** TLS *)
Definition VersionTLS10 : Z := 769.
Definition VersionTLS11 : Z := 770.
Definition VersionTLS12 : Z := 771.
Definition VersionTLS13 : Z := 772.

Definition parseTLSVersion (version : string) : Z + error :=
  if String.eqb version "" then inl 0
  else if String.eqb version "tls1.0" || String.eqb version "TLS1.0" then inl VersionTLS10
  else if String.eqb version "tls1.1" || String.eqb version "TLS1.1" then inl VersionTLS11
  else if String.eqb version "tls1.2" || String.eqb version "TLS1.2" then inl VersionTLS12
  else if String.eqb version "tls1.3" || String.eqb version "TLS1.3" then inl VersionTLS13
  else inr (EText ("unknown TLS version: " +:+ version)).

(** Name and ID of the suites that [crypto/tls] knows. *)
Definition makeTLSCipherMap (l : list (string * Z)) : gmap string Z :=
  foldl (fun m c => <[c.1 := c.2]> m) ∅ l.

(** The IDs, and the insecure suites a warning is logged for. *)
Fixpoint parseSuites (secure insecure : gmap string Z) (suites : list string) : (list Z * list string) + error :=
  match suites with
  | [] => inl ([], [])
  | suite :: l =>
      match secure !! suite with
      | Some id =>
          match parseSuites secure insecure l with inl (ids, w) => inl (id :: ids, w) | inr err => inr err end
      | None =>
          match insecure !! suite with
          | Some id =>
              match parseSuites secure insecure l with inl (ids, w) => inl (id :: ids, suite :: w) | inr err => inr err end
          | None => inr (EText ("unknown cipher suite: " +:+ suite))
          end
      end
  end.

(** No list is the nil slice. *)
Definition parseCipherSuites (known unsafe : list (string * Z)) (suites : list string) : option (list Z) + error :=
  match suites with
  | [] => inl None
  | _ => match parseSuites (makeTLSCipherMap known) (makeTLSCipherMap unsafe) suites with
         | inl (ids, _) => inl (Some ids)
         | inr err => inr err
         end
  end.

Record ConnectionState := { cs_Version : Z; cs_CipherSuite : Z }.

Definition tlsPolicyAllows (cs : ConnectionState) (suites : option (list Z)) (minVer maxVer : Z) : bool :=
  if negb (minVer =? 0) && (cs_Version cs <? minVer) then false
  else if negb (maxVer =? 0) && (maxVer <? cs_Version cs) then false
  else if (VersionTLS13 <=? cs_Version cs) || Nat.eqb (length (default [] suites)) 0 then true
  else existsb (Z.eqb (cs_CipherSuite cs)) (default [] suites).

(** The fields of [tls.Config] the code sets; [verify] is the policy of the hook that
    warns. *)
Record tlsConf := {
  NextProtos : list string;
  c_CipherSuites : option (list Z);
  c_MinVersion : Z;
  c_MaxVersion : Z;
  verify : option (option (list Z) * Z * Z);
  InsecureSkipVerify : bool;
}.

Definition set_policy (s : option (list Z)) (minVer maxVer : Z) (v : option (option (list Z) * Z * Z)) (c : tlsConf) : tlsConf :=
  {| NextProtos := NextProtos c; c_CipherSuites := s; c_MinVersion := minVer; c_MaxVersion := maxVer; verify := v;
     InsecureSkipVerify := InsecureSkipVerify c |}.

Definition ApplyPolicy (known unsafe : list (string * Z)) (conf : TLSConfig) (c : tlsConf) : tlsConf + error :=
  match parseCipherSuites known unsafe (tls_CipherSuites conf) with
  | inr err => inr err
  | inl suites =>
      match parseTLSVersion (tls_MinVersion conf) with
      | inr err => inr err
      | inl minVer =>
          match parseTLSVersion (tls_MaxVersion conf) with
          | inr err => inr err
          | inl maxVer =>
              if negb (tls_WarnOnly conf) then inl (set_policy suites minVer maxVer (verify c) c)
              else if Nat.eqb (length (default [] suites)) 0 && (minVer =? 0) && (maxVer =? 0) then inl c
              else inl (set_policy (c_CipherSuites c) (c_MinVersion c) (c_MaxVersion c) (Some (suites, minVer, maxVer)) c)
          end
      end
  end.

(** Whether the hook logs a warning; it never fails the handshake. *)
Definition warns (c : tlsConf) (cs : ConnectionState) : bool :=
  match verify c with
  | Some (suites, minVer, maxVer) => negb (tlsPolicyAllows cs suites minVer maxVer)
  | None => false
  end.

Definition tlsALPNProtocols (alpn : option (list string)) : list string := default ["sip"] alpn.

(** The hook of [ConfigureTLS]: the chain is verified, the host name is not.  [parse] and
    [verifyChain] are [crypto/x509]; no certificate at all is an index out of range. *)
Inductive VerifyResult (Cert : Type) := VerifyPanic | VerifyDone (err : option error).
Arguments VerifyPanic {Cert}.
Arguments VerifyDone {Cert} err.

Fixpoint parseCerts {Raw Cert} (parse : Raw -> Cert + error) (text : error -> string) (l : list Raw) : list Cert + error :=
  match l with
  | [] => inl []
  | raw :: l' =>
      match parse raw with
      | inr err => inr (EText ("failed to parse certificate from server: " +:+ text err))
      | inl c => match parseCerts parse text l' with inl cs => inl (c :: cs) | inr err => inr err end
      end
  end.

Definition VerifyPeerCertificate {Raw Cert} (parse : Raw -> Cert + error) (text : error -> string)
    (verifyChain : Cert -> list Cert -> option error) (certificates : list Raw) : VerifyResult Cert :=
  match parseCerts parse text certificates with
  | inr err => VerifyDone (Some err)
  | inl [] => VerifyPanic
  | inl (c :: intermediates) => VerifyDone (verifyChain c intermediates)
  end.

Definition ConfigureTLS (c : tlsConf) : tlsConf :=
  {| NextProtos := NextProtos c; c_CipherSuites := c_CipherSuites c; c_MinVersion := c_MinVersion c;
     c_MaxVersion := c_MaxVersion c; verify := verify c; InsecureSkipVerify := true |}.

(** * Theorems *)

(** ** A configuration the service runs with *)
Record confWF (c : Config) : Prop := {
  wf_ports : SIPPort c <> 0 /\ SIPPortListen c <> 0 /\ Start (RTPPort c) <> 0 /\ End_ (RTPPort c) <> 0;
  wf_tls : forall t, TLS c = Some t -> tls_Port t <> 0 /\ tls_ListenPort t <> 0;
  wf_cpu : MaxCpuUtilization c = S754_nan \/
           (SFltb float0 (MaxCpuUtilization c) = true /\ SFleb (MaxCpuUtilization c) float1 = true);
  wf_draining : 0 <= RTPDrainingIdleTimeout c /\ 0 <= RTPDrainingDuration c;
  wf_media : 0 < MediaTimeout c /\ 0 < MediaTimeoutInitial c;
  wf_ringing : second <= SIPRingingInterval c <= 60 * second;
  wf_hostname : ContainsAny (SIPHostname c) badHostChars = false;
  wf_external : UseExternalIP c = true -> NAT1To1IP c = "";
  wf_mediaExternal : MediaUseExternalIP c = true -> MediaNAT1To1IP c = "";
}.

Lemma orDefault_nonzero v d : d <> 0 -> orDefault v d <> 0.
Proof. unfold orDefault. destruct (Z.eqb_spec v 0); done. Qed.

Lemma drainingOr_nonneg v d : 0 <= d -> 0 <= drainingOr v d.
Proof. unfold drainingOr. destruct (Z.eqb_spec v 0), (Z.ltb_spec v 0); lia. Qed.

(** A comparison of floats and its reverse: both undefined, or opposite. *)
Lemma SFcompare_swap x y : SFcompare y x = CompOpp <$> SFcompare x y.
Proof.
  destruct x as [[]|[]| |[] mx ex], y as [[]|[]| |[] my ey]; try done; cbn -[Pcompare];
    rewrite (Z.compare_antisym ex ey); destruct (ex ?= ey)%Z; try done; cbn [CompOpp];
    change (Pcompare my mx Eq) with (my ?= mx)%positive; change (Pcompare mx my Eq) with (mx ?= my)%positive;
    rewrite (Pos.compare_antisym mx my); by destruct (mx ?= my)%positive.
Qed.

(** A float that is neither at most one bound nor above the other is between them, or NaN. *)
Lemma cpu_range x : let u := if SFleb x float0 || SFltb float1 x then float0_9 else x in
  u = S754_nan \/ (SFltb float0 u = true /\ SFleb u float1 = true).
Proof.
  cbv zeta. destruct (SFleb x float0) eqn:E0; [by right|]. destruct (SFltb float1 x) eqn:E1; [by right|]. cbn [orb].
  unfold SFleb, SFltb in *. rewrite (SFcompare_swap x float0). rewrite (SFcompare_swap x float1) in E1.
  destruct x as [sx|sx| |sx mx ex]; [by destruct sx|by destruct sx|by left|]. right.
  destruct (SFcompare (S754_finite sx mx ex) float0) as [[]|] eqn:F0; try done.
  split; [done|]. destruct (SFcompare (S754_finite sx mx ex) float1) as [[]|] eqn:F1; try done.
Qed.

(** C39: A configuration that [Init] and [NewService] accept is well-formed, whatever the
    file says: the SIP port and the port it listens on, those of TLS if it is configured, and
    both ends of the RTP range are not zero (the ports for health, metrics and profiling may
    be, which switches them off); the CPU limit is a float in (0, 1] or NaN, which passes both
    checks; the draining times are not negative, the media timeouts are positive, the ringing
    interval is from one second to sixty, the host name has no character that may not stand in
    a SIP address, so no placeholder either, and an external address is never asked for
    twice. *)
Theorem config_wellformed node logger c c1 sconf text c2 sc :
  Init node logger c = (c1, None) -> NewService sconf text c1 = inl (c2, sc) -> confWF c2.
Proof.
  unfold Init. intros [= <- Hx]. unfold NewService. destruct sconf as [sc'|]; [|done].
  destruct (ContainsAny _ _) eqn:Eh; [done|]. intros [= <- <-].
  destruct logger; [done|].
  destruct (UseExternalIP c && _) eqn:E1; [done|]. destruct (MediaUseExternalIP c && _) eqn:E2; [done|].
  split; cbn -[SFleb SFltb float0 float1 float0_9 orDefault drainingOr second].
  - split_and!; repeat apply orDefault_nonzero; done.
  - intros t Ht. apply fmap_Some in Ht as (t0 & _ & ->). split; repeat apply orDefault_nonzero; done.
  - apply cpu_range.
  - split; apply drainingOr_nonneg; done.
  - split; [destruct (Z.leb_spec (MediaTimeout c) 0)|destruct (Z.leb_spec (MediaTimeoutInitial c) 0)];
      unfold defaultMediaTimeout, defaultMediaTimeoutInitial, second in *; lia.
  - unfold second. destruct (Z.ltb_spec (SIPRingingInterval c) (1000 * 1000 * 1000)),
      (Z.ltb_spec (60 * (1000 * 1000 * 1000)) (SIPRingingInterval c)); cbn [orb]; lia.
  - exact Eh.
  - intros E. rewrite E in E1. by destruct (String.eqb_spec (NAT1To1IP c) "").
  - intros E. rewrite E in E2. by destruct (String.eqb_spec (MediaNAT1To1IP c) "").
Qed.

Definition exampleConfig : Config :=
  {| Redis := true; ApiKey := "k"; ApiSecret := "s"; WsUrl := "wss://x"; HealthPort := 0; PrometheusPort := 0;
     PProfPort := 0; SIPPort := 0; SIPPortListen := 0; SIPHostname := "node-${IP}.sip.example.com";
     SIPRingingInterval := 0; TCP := None; TLS := None; RTPPort := {| Start := 0; End_ := 0 |}; ClusterID := "";
     MaxCpuUtilization := S754_finite false 4503599627370496 (-51); MaxActiveCalls := 10; SIPTrunkIds := ["ST_1"]; UseExternalIP := false; LocalNet := "";
     NAT1To1IP := ""; ListenIP := ""; UDPMaxPayload := 0; MediaUseExternalIP := false; MediaNAT1To1IP := "";
     MediaTimeout := 0; MediaTimeoutInitial := -1; RTPDrainingIdleTimeout := -5; RTPDrainingDuration := 0;
     Codecs := ∅; ServiceName := "sip"; NodeID := "" |}.

Lemma config_wellformed_witness :
  let c1 := (Init "NE_1" None exampleConfig).1 in
  let sc := {| SignalingIP := Addr4 3232235783; SignalingIPLocal := Addr4 3232235783; MediaIP := Addr4 3232235783 |} in
  let c2 := completeConfig "192.168.1.7" c1 in
  SIPHostname c2 = "node-192-168-1-7.sip.example.com" /\ SIPPortListen c2 = 5060 /\ RTPDrainingIdleTimeout c2 = 0 /\ confWF c2.
Proof.
  cbv zeta. split; [reflexivity|]. split; [reflexivity|]. split; [reflexivity|].
  eapply (config_wellformed "NE_1" None exampleConfig _
    (inl {| SignalingIP := Addr4 3232235783; SignalingIPLocal := Addr4 3232235783; MediaIP := Addr4 3232235783 |})
    "192.168.1.7"); reflexivity.
Defined.

(** NaN is kept as the limit. *)
Lemma cpu_nan_kept node c : MaxCpuUtilization c = S754_nan -> MaxCpuUtilization (Init node None c).1 = S754_nan.
Proof. intros E. cbn. by rewrite E. Qed.

(** A draining time that is switched off is switched on again by a second [Init]. *)
Lemma Init_twice_drains node c :
  RTPDrainingDuration c < 0 ->
  RTPDrainingDuration (Init node None c).1 = 0 /\
  RTPDrainingDuration (Init node None (Init node None c).1).1 = DefaultRTPDrainingDuration.
Proof.
  intros Hc. cbn -[DefaultRTPDrainingDuration]. unfold drainingOr at 1 3.
  destruct (Z.eqb_spec (RTPDrainingDuration c) 0); [lia|]. destruct (Z.ltb_spec (RTPDrainingDuration c) 0); [|lia]. done.
Qed.

(** ** The local address *)

(** An address the service may use: an IPv4 address of an interface, not loopback, in the
    configured network. *)
Definition usableAddr (netw : option Prefix) (ifaces : list Iface) (a : Addr) : Prop :=
  exists i addrs ip, i ∈ ifaces /\ if_addrs i = Some addrs /\ (IPAddr ip ∈ addrs \/ IPNet ip ∈ addrs) /\
    To4 ip = Some a /\ IsLoopback a = false /\ (forall nw, netw = Some nw -> Prefix_Contains nw a = true).

Lemma localAddr_spec netw x a :
  localAddr netw x = Some a <-> exists ip, (x = IPAddr ip \/ x = IPNet ip) /\ To4 ip = Some a /\ IsLoopback a = false /\
    (forall nw, netw = Some nw -> Prefix_Contains nw a = true).
Proof.
  assert (forall ip, (match To4 ip with None => None | Some addr => if IsLoopback addr then None else
      match netw with Some nw => if negb (Prefix_Contains nw addr) then None else Some addr | None => Some addr end end) = Some a
    <-> To4 ip = Some a /\ IsLoopback a = false /\ (forall nw, netw = Some nw -> Prefix_Contains nw a = true)) as Hip.
  { intros ip. destruct (To4 ip) as [addr|]; [|by split; [|intros (? & _)]].
    destruct (IsLoopback addr) eqn:El; [split; [done|intros ([= ->] & ? & _); congruence]|].
    destruct netw as [nw|]; [destruct (Prefix_Contains nw addr) eqn:Ep; cbn [negb]|].
    - split; [intros [= <-]; split_and!; auto; by intros nw' [= <-]|by intros (? & _)].
    - split; [done|]. intros ([= ->] & _ & Hn). rewrite (Hn nw eq_refl) in Ep. done.
    - split; [intros [= <-]; split_and!; auto; done|by intros (? & _)]. }
  destruct x as [ip|ip|]; cbn [localAddr].
  - rewrite Hip. split; [intros Hx; exists ip; auto|intros (ip' & [[= <-]|?] & Hx); done].
  - rewrite Hip. split; [intros Hx; exists ip; auto|intros (ip' & [?|[= <-]] & Hx); done].
  - split; [done|]. by intros (ip' & [?|?] & _).
Qed.

Lemma firstLocal_spec netw l :
  match firstLocal netw l with
  | Some a => exists x, x ∈ l /\ localAddr netw x = Some a
  | None => forall x, x ∈ l -> localAddr netw x = None
  end.
Proof.
  induction l as [|x l IH]; cbn; [by intros x ?%elem_of_nil|].
  destruct (localAddr netw x) as [a|] eqn:E; [exists x; split; [left|done]|].
  destruct (firstLocal netw l) as [a|].
  - destruct IH as (y & Hy & Ey). exists y. split; [by right|done].
  - intros y [->|Hy]%elem_of_cons; auto.
Qed.

Lemma scanIfaces_spec netw l :
  match scanIfaces netw l with
  | Some a => exists i addrs x, i ∈ l /\ if_addrs i = Some addrs /\ x ∈ addrs /\ localAddr netw x = Some a
  | None => forall i addrs x, i ∈ l -> if_addrs i = Some addrs -> x ∈ addrs -> localAddr netw x = None
  end.
Proof.
  induction l as [|i l IH]; cbn; [by intros i addrs x ?%elem_of_nil|].
  assert (forall r, (match scanIfaces netw l with Some a => r = Some a | None => r = None end) ->
    match r with
    | Some a => exists i' addrs x, i' ∈ i :: l /\ if_addrs i' = Some addrs /\ x ∈ addrs /\ localAddr netw x = Some a
    | None => forall i' addrs x, i' ∈ l -> if_addrs i' = Some addrs -> x ∈ addrs -> localAddr netw x = None
    end) as Hl.
  { intros r Hr. destruct (scanIfaces netw l) as [a|]; subst r.
    - destruct IH as (j & ad & y & Hj & Ej & Hy & Ey). exists j, ad, y. split_and!; auto. by right.
    - exact IH. }
  pose proof (Hl (scanIfaces netw l) ltac:(by destruct (scanIfaces netw l))) as Hs.
  destruct (if_addrs i) as [addrs|] eqn:Ei.
  - pose proof (firstLocal_spec netw addrs) as Hf. destruct (firstLocal netw addrs) as [a|].
    + destruct Hf as (x & Hx & Ex). exists i, addrs, x. split_and!; auto. left.
    + destruct (scanIfaces netw l); [done|]. intros j ad x [->|Hj]%elem_of_cons Ej Hx; [|by eapply Hs].
      apply Hf. congruence.
  - destruct (scanIfaces netw l); [done|]. intros j ad x [->|Hj]%elem_of_cons Ej Hx; [congruence|by eapply Hs].
Qed.

Lemma scanIfaces_usable netw l :
  match scanIfaces netw l with Some a => usableAddr netw l a | None => forall a, ~ usableAddr netw l a end.
Proof.
  pose proof (scanIfaces_spec netw l) as Hs. destruct (scanIfaces netw l) as [a|].
  - destruct Hs as (i & addrs & x & Hi & Ei & Hx & Ex). apply localAddr_spec in Ex as (ip & Hip & E1 & E2 & E3).
    exists i, addrs, ip. split_and!; auto. destruct Hip as [-> | ->]; auto.
  - intros a (i & addrs & ip & Hi & Ei & Hx & E1 & E2 & E3).
    assert (forall x, x = IPAddr ip \/ x = IPNet ip -> localAddr netw x = Some a) as Hsome.
    { intros x Hx'. apply localAddr_spec. exists ip. auto. }
    destruct Hx as [Hx|Hx]; pose proof (Hs _ _ _ Hi Ei Hx) as Hn; rewrite Hsome in Hn; auto; done.
Qed.

(** The service announces an address of the machine.  When [getLocalIP] succeeds its
    address is an IPv4 address of one of the interfaces, not a loopback address and inside
    the configured network; it reports that there is no such interface only if really none
    has a usable address. *)
Theorem getLocalIP_usable ParsePrefix ifaces localNet netw :
  (localNet = "" /\ netw = None) \/ (localNet <> "" /\ exists nw, ParsePrefix localNet = inl nw /\ netw = Some nw) ->
  match getLocalIP ParsePrefix (inl ifaces) localNet with
  | inl a => usableAddr netw ifaces a
  | inr _ => forall a, ~ usableAddr netw ifaces a
  end.
Proof.
  intros Hn. pose proof (scanIfaces_usable netw ifaces) as Hs. unfold getLocalIP.
  destruct Hn as [[-> ->]|(Hne & nw & Ep & ->)].
  - cbn. by destruct (scanIfaces None ifaces).
  - destruct (String.eqb_spec localNet ""); [done|]. cbn [negb]. rewrite Ep. by destruct (scanIfaces (Some nw) ifaces).
Qed.

Lemma getLocalIP_usable_witness :
  let lo := {| if_up := true; if_running := true; if_p2p := false; if_loopback := true;
               if_addrs := Some [IPNet (IP4 2130706433)] |} in
  let eth := {| if_up := true; if_running := true; if_p2p := false; if_loopback := false;
                if_addrs := Some [IPNet (IP16 1); IPNet (IP4 167772165); IPNet (IP16 (65535 * 2 ^ 32 + 3232235783))] |} in
  let nw := {| pf_addr := Addr4 3232235776; pf_bits := 24 |} in
  getLocalIP (fun _ => inl nw) (inl [lo; eth]) "192.168.1.0/24" = inl (Addr4 3232235783) /\
  usableAddr (Some nw) [lo; eth] (Addr4 3232235783).
Proof.
  intros lo eth nw. split; [vm_compute; reflexivity|].
  pose proof (getLocalIP_usable (fun _ => inl nw) [lo; eth] "192.168.1.0/24" (Some nw)) as H.
  vm_compute (getLocalIP _ _ _) in H. apply H. right. split; [discriminate|]. exists nw. split; reflexivity.
Defined.

(** ** The TLS policy *)

(** What a handshake may negotiate under a configuration of [crypto/tls]: the versions and
    suites left at zero are the library's own, and TLS 1.3 chooses its suites itself. *)
Section policy.
Variables (defMin defMax : Z) (defSuites : list Z).

Definition admits (c : tlsConf) (cs : ConnectionState) : bool :=
  let lo := if c_MinVersion c =? 0 then defMin else c_MinVersion c in
  let hi := if c_MaxVersion c =? 0 then defMax else c_MaxVersion c in
  (lo <=? cs_Version cs) && (cs_Version cs <=? hi) &&
  ((VersionTLS13 <=? cs_Version cs) || existsb (Z.eqb (cs_CipherSuite cs)) (default defSuites (c_CipherSuites c))).

Definition withWarnOnly (b : bool) (t : TLSConfig) : TLSConfig :=
  {| tls_Port := tls_Port t; tls_ListenPort := tls_ListenPort t; tls_Certs := tls_Certs t; tls_KeyLog := tls_KeyLog t;
     tls_MinVersion := tls_MinVersion t; tls_MaxVersion := tls_MaxVersion t; tls_CipherSuites := tls_CipherSuites t;
     tls_WarnOnly := b; tls_alpn := tls_alpn t |}.

Definition plainTLS (protos : list string) : tlsConf :=
  {| NextProtos := protos; c_CipherSuites := None; c_MinVersion := 0; c_MaxVersion := 0; verify := None;
     InsecureSkipVerify := false |}.

Lemma parseCipherSuites_nonempty known unsafe suites ids :
  parseCipherSuites known unsafe suites = inl (Some ids) -> length ids <> 0%nat.
Proof.
  unfold parseCipherSuites. destruct suites as [|s l]; [done|]. cbn [parseSuites].
  destruct (_ !! s); [|destruct (_ !! s); [|done]];
    destruct (parseSuites _ _ l) as [[ids' w]|]; try done; by intros [= <-].
Qed.

(** The policy allows what the enforced configuration admits, of what the library admits. *)
Lemma policy_admits c cs suites minVer maxVer v :
  admits (plainTLS []) cs = true -> (forall ids, suites = Some ids -> length ids <> 0%nat) ->
  tlsPolicyAllows cs suites minVer maxVer = admits (set_policy suites minVer maxVer v c) cs.
Proof.
  unfold admits, tlsPolicyAllows. cbn -[VersionTLS13]. intros Ha Hs.
  apply andb_true_iff in Ha as [[Hlo Hhi]%andb_true_iff Hsu].
  assert (((VersionTLS13 <=? cs_Version cs) || Nat.eqb (length (default [] suites)) 0) ||
          existsb (Z.eqb (cs_CipherSuite cs)) (default [] suites) =
          (VersionTLS13 <=? cs_Version cs) || existsb (Z.eqb (cs_CipherSuite cs)) (default defSuites suites)) as Eq.
  { destruct (VersionTLS13 <=? cs_Version cs); [done|]. cbn [orb] in *. destruct suites as [ids|]; cbn; [|done].
    destruct (Nat.eqb_spec (length ids) 0); [by destruct (Hs ids)|done]. }
  rewrite <- Eq. clear Eq.
  rewrite !Z.ltb_antisym. destruct (minVer =? 0), (maxVer =? 0); rewrite ?Hlo, ?Hhi;
    destruct (minVer <=? cs_Version cs), (cs_Version cs <=? maxVer),
      ((VersionTLS13 <=? cs_Version cs) || Nat.eqb (length (default [] suites)) 0); done.
Qed.

(** Warn-only mode tells exactly what enforcing the policy would break.  The two modes
    accept the same configurations; warn-only changes nothing the handshake depends on,
    and of the connections that the library's defaults negotiate it warns about those, and
    only those, that the enforced configuration would not admit. *)
Theorem warn_only_reports known unsafe conf protos enforced :
  ApplyPolicy known unsafe (withWarnOnly false conf) (plainTLS protos) = inl enforced ->
  exists w, ApplyPolicy known unsafe (withWarnOnly true conf) (plainTLS protos) = inl w /\
    (forall cs, admits w cs = admits (plainTLS protos) cs) /\
    forall cs, admits (plainTLS protos) cs = true -> warns w cs = negb (admits enforced cs).
Proof.
  unfold ApplyPolicy. cbn [tls_CipherSuites tls_MinVersion tls_MaxVersion tls_WarnOnly withWarnOnly negb].
  destruct (parseCipherSuites known unsafe _) as [suites|] eqn:Es; [|done].
  destruct (parseTLSVersion (tls_MinVersion conf)) as [minVer|]; [|done].
  destruct (parseTLSVersion (tls_MaxVersion conf)) as [maxVer|]; [|done]. intros [= <-].
  assert (forall ids, suites = Some ids -> length ids <> 0%nat) as Hne.
  { intros ids ->. by eapply parseCipherSuites_nonempty. }
  destruct (Nat.eqb _ 0 && _ && _) eqn:E0; (eexists; split; [done|]; split; [done|]); intros cs Ha.
  - apply andb_true_iff in E0 as [[E1%Nat.eqb_eq E2%Z.eqb_eq]%andb_true_iff E3%Z.eqb_eq]. subst minVer maxVer.
    destruct suites as [ids|]; [by destruct (Hne ids)|]. cbn [warns verify plainTLS].
    unfold admits in *. cbn in *. by rewrite Ha.
  - cbn [warns verify set_policy]. f_equal. by apply policy_admits.
Qed.
End policy.

Lemma warn_only_reports_witness :
  let conf := {| tls_Port := 5061; tls_ListenPort := 5061; tls_Certs := []; tls_KeyLog := ""; tls_MinVersion := "tls1.2";
                 tls_MaxVersion := ""; tls_CipherSuites := ["TLS_A"]; tls_WarnOnly := true; tls_alpn := None |} in
  let known := [("TLS_A", 1); ("TLS_B", 2)] in
  exists w, ApplyPolicy known [] (withWarnOnly true conf) (plainTLS ["sip"]) = inl w /\
    warns w {| cs_Version := VersionTLS12; cs_CipherSuite := 2 |} = true /\
    warns w {| cs_Version := VersionTLS12; cs_CipherSuite := 1 |} = false.
Proof.
  cbv zeta.
  destruct (warn_only_reports VersionTLS12 VersionTLS13 [1; 2] [("TLS_A", 1); ("TLS_B", 2)] []
    {| tls_Port := 5061; tls_ListenPort := 5061; tls_Certs := []; tls_KeyLog := ""; tls_MinVersion := "tls1.2";
       tls_MaxVersion := ""; tls_CipherSuites := ["TLS_A"]; tls_WarnOnly := true; tls_alpn := None |} ["sip"]
    (set_policy (Some [1]) VersionTLS12 0 None (plainTLS ["sip"])) ltac:(vm_compute; reflexivity)) as (w & E & _ & Hw).
  exists w. split; [exact E|]. split; rewrite Hw; reflexivity.
Defined.
