(* ===== verification/Service.v ===== *)
(** * The service: starting, health, affinity and shutting down

    [Server] of [pkg/sip/server.go] (listeners and handlers), [Service] of
    [pkg/sip/service.go] (start and stop, active calls, affinity), [Service] of
    [pkg/service/service.go] (the process: HTTP servers, RPC topics, the wait for calls to
    finish) and the signals of [cmd/livekit-sip/main.go].  Sockets, files, the SIP stack and
    the RPC server are outside: what opening them returns is an argument.  [float32]
    arithmetic is exact arithmetic followed by a rounding, the class [Rounding]. *)

From stdpp Require Import base tactics list gmap strings option relations.
From Stdlib Require Import ZArith QArith Qround Ascii Lia.
From S2P Require Import Prelude GoStd GoErr NetIP Monitor Config.
Import strings strconv.
Local Open Scope Z_scope.

(** ** The SIP server *)
Inductive Proto := ProtoUDP | ProtoTCP | ProtoTLS.

#[global] Instance Proto_eq_dec : EqDecision Proto.
Proof. solve_decision. Defined.

(** A listener: the protocol and the port it is bound to. *)
Record Listener := { lis_proto : Proto; lis_addr : AddrPort }.

#[global] Instance Listener_eq_dec : EqDecision Listener.
Proof. solve_decision. Defined.

Record Server := { sipSrv : bool; sipListeners : list Listener }.

Definition NewServer : Server := {| sipSrv := false; sipListeners := [] |}.

Inductive SEffect :=
| SHandle (method : string)                  (* a handler is registered *)
| SListen (l : Listener)
| SServe (l : Listener)
| SCloseServer
| SCloseListener (l : Listener).

Section server.
Open Scope go_scope.
Context `{ErrorText}.
Abbreviation SM := (M Server SEffect).

(** The loop over the interceptors, last to first. *)
Fixpoint wrapLoop {H} (interceptors : list (H -> H)) (ret : H) : H :=
  match interceptors with [] => ret | i :: l => wrapLoop l (i ret) end.

Definition wrapHandler {H} (interceptors : list (H -> H)) (handler : H) : H := wrapLoop (rev interceptors) handler.

(** [text]: how the error names the listener; [port]: the port it names. *)
Definition startListener (lis : Listener) (text : string) (port : Z) (err : option error) : SM (option error) :=
  match err with
  | Some e => mreturn (Some (EWrap ("cannot listen on the " +:+ text +:+ " signaling port " +:+ Itoa port +:+ ": ") e ""))
  | None =>
      do* memit (SListen lis) in
      do* mmodify (fun s => {| sipSrv := sipSrv s; sipListeners := sipListeners s ++ [lis] |}) in
      do* memit (SServe lis) in
      mreturn None
  end.

Definition startUDP (conf : Config) (addr : AddrPort) (err : option error) : SM (option error) :=
  startListener {| lis_proto := ProtoUDP; lis_addr := addr |} "UDP" (SIPPortListen conf) err.

Definition startTCP (conf : Config) (addr : AddrPort) (err : option error) : SM (option error) :=
  startListener {| lis_proto := ProtoTCP; lis_addr := addr |} "TCP" (SIPPortListen conf) err.

(** The message names the port of the plain listeners. *)
Definition startTLS (conf : Config) (addr : AddrPort) (err : option error) : SM (option error) :=
  startListener {| lis_proto := ProtoTLS; lis_addr := addr |} "TLS" (SIPPortListen conf) err.

Definition handlerNames : list string := ["OPTIONS"; "INVITE"; "ACK"; "BYE"; "NOTIFY"; ""].

Fixpoint registerAll (l : list string) : SM unit :=
  match l with [] => mreturn tt | m :: l' => do* memit (SHandle m) in registerAll l' end.

(** [agent]: [NewUA] if the caller gave none, and [srv]: [sipgo.NewServer]; [udp], [tcp],
    [tls]: of [net.ListenUDP] and [net.ListenTCP]. *)
Definition Server_Start (conf : Config) (ParseAddr : string -> Addr + error) (agent srv : option error) (tlsConf : bool)
    (udp tcp tls : option error) : SM (option error) :=
  match orElse agent srv with
  | Some err => mreturn (Some err)
  | None =>
      do* mmodify (fun s => {| sipSrv := true; sipListeners := sipListeners s |}) in
      do* registerAll handlerNames in
      match ParseAddr (if String.eqb (ListenIP conf) "" then "0.0.0.0" else ListenIP conf) with
      | inr err => mreturn (Some err)
      | inl ip =>
          let addr := {| ap_Addr := ip; ap_Port := wrapU 16 (SIPPortListen conf) |} in
          let* e1 := startUDP conf addr udp in
          match e1 with
          | Some err => mreturn (Some err)
          | None =>
              let* e2 := startTCP conf addr tcp in
              match e2 with
              | Some err => mreturn (Some err)
              | None =>
                  match TLS conf with
                  | Some tconf =>
                      if tlsConf then startTLS conf {| ap_Addr := ip; ap_Port := wrapU 16 (tls_ListenPort tconf) |} tls
                      else mreturn None
                  | None => mreturn None
                  end
              end
          end
      end
  end.

Fixpoint closeListeners (l : list Listener) : SM unit :=
  match l with [] => mreturn tt | x :: l' => do* memit (SCloseListener x) in closeListeners l' end.

Definition Server_Stop : SM unit :=
  let* s := mget in
  do* mwhen (sipSrv s) (memit SCloseServer) in
  closeListeners (sipListeners s).
End server.

(** ** The SIP service *)
Record ActiveCalls := { ac_Inbound : Z; ac_Outbound : Z; SampleIDs : list string }.

Definition Total (st : ActiveCalls) : Z := ac_Outbound st + ac_Inbound st.

(** The samples of the values of a map, in the order the iteration visits them. *)
Fixpoint sampleLoop (limit : Z) (l : list string) : list string :=
  match l with
  | [] => []
  | s :: l' =>
      let out := if negb (String.eqb s "") then [s] else [] in
      if limit - 1 <=? 0 then out else out ++ sampleLoop (limit - 1) l'
  end.

Definition sampleMap (limit : Z) (l : list string) : list string * Z := (sampleLoop limit l, Z.of_nat (length l)).

(** The calls of the manager's two maps, by their ids. *)
Definition callManager_ActiveCalls (outs ins : list string) : ActiveCalls :=
  let '(outboundSamples, outboundTotal) := sampleMap 5 outs in
  let '(inboundSamples, inboundTotal) := sampleMap 5 ins in
  {| ac_Inbound := inboundTotal; ac_Outbound := outboundTotal; SampleIDs := outboundSamples ++ inboundSamples |}.

(** Rounding to the nearest [float32]: monotone, and exact at zero and one. *)
Class Rounding := {
  rnd : Q -> Q;
  rnd_mono : forall x y, (x <= y)%Q -> (rnd x <= rnd y)%Q;
  rnd_zero : (rnd 0 == 0)%Q;
  rnd_one : (rnd 1 == 1)%Q;
}.

Definition Qlt_bool (x y : Q) : bool := negb (Qle_bool y x).

Definition CreateSIPParticipantAffinity `{Rounding} (conf : Config) (trunk : string) (st : ActiveCalls) : Q :=
  if (0 <? Z.of_nat (length (SIPTrunkIds conf))) && negb (existsb (String.eqb trunk) (SIPTrunkIds conf)) then 0%Q
  else
    let active := rnd (inject_Z (Total st)) in
    let max := rnd (inject_Z (MaxActiveCalls conf)) in
    if Qlt_bool 0 max then
      if Qle_bool max active then 0%Q else rnd (1 - rnd (active / max))
    else rnd (1 / rnd (1 + active)).

(** Starting and stopping, by the calls the service makes. *)
Inductive SvcEffect :=
| VMonStart | VMonStop | VManagerStart | VManagerStop | VClientStart | VClientStop | VServerStart | VServerStop
| VOpenKeyLog (path : string) | VCloseKeyLog | VNewUA (tcp : option PortRange) (tls : bool).

Record Svc := { closers : nat }.

Section service.
Open Scope go_scope.
Abbreviation VM := (M Svc SvcEffect).

(** [loadCert]: of [tls.LoadX509KeyPair]. *)
Fixpoint loadCerts (loadCert : string * string -> option error) (l : list (string * string)) : option error :=
  match l with [] => None | c :: l' => match loadCert c with Some err => Some err | None => loadCerts loadCert l' end end.

(** [keyLog]: of [os.OpenFile]. *)
Definition tlsSetup (known unsafe : list (string * Z)) (loadCert : string * string -> option error) (keyLog : option error)
    (tconf : TLSConfig) : VM (tlsConf + error) :=
  if Nat.eqb (length (tls_Certs tconf)) 0 then mreturn (inr (EText "TLS certificate required"))
  else match loadCerts loadCert (tls_Certs tconf) with
       | Some err => mreturn (inr err)
       | None =>
           let* e := (if negb (String.eqb (tls_KeyLog tconf) "") then
                        match keyLog with
                        | Some err => mreturn (Some err)
                        | None =>
                            do* memit (VOpenKeyLog (tls_KeyLog tconf)) in
                            do* mmodify (fun s => {| closers := S (closers s) |}) in
                            mreturn None
                        end
                      else mreturn None) in
           match e with
           | Some err => mreturn (inr err)
           | None =>
               match ApplyPolicy known unsafe tconf (plainTLS (tlsALPNProtocols (tls_alpn tconf))) with
               | inr err => mreturn (inr err)
               | inl c => mreturn (inl (ConfigureTLS c))
               end
           end
       end.

(** [ua], [client], [server], [mon]: of [sipgo.NewUA] and of starting the parts. *)
Definition Service_Start (known unsafe : list (string * Z)) (loadCert : string * string -> option error)
    (mon keyLog ua client server : option error) (conf : Config) : VM (option error) :=
  do* memit VMonStart in
  match mon with
  | Some err => mreturn (Some err)
  | None =>
      let* t := match TLS conf with
                | None => mreturn (inl None)
                | Some tconf =>
                    let* r := tlsSetup known unsafe loadCert keyLog tconf in
                    mreturn (match r with inl c => inl (Some c) | inr err => inr err end)
                end in
      match t with
      | inr err => mreturn (Some err)
      | inl tlsc =>
          do* memit (VNewUA (TCP conf) (match tlsc with Some _ => true | None => false end)) in
          match ua with
          | Some err => mreturn (Some err)
          | None =>
              do* memit VManagerStart in
              do* memit VClientStart in
              match client with
              | Some err => mreturn (Some err)
              | None =>
                  do* memit VServerStart in
                  mreturn server
              end
          end
      end
  end.

Fixpoint closeAll (n : nat) : VM unit :=
  match n with O => mreturn tt | S n' => do* memit VCloseKeyLog in closeAll n' end.

Definition Service_Stop : VM unit :=
  do* memit VManagerStop in
  do* memit VClientStop in
  do* memit VServerStop in
  do* memit VMonStop in
  let* s := mget in
  closeAll (closers s).
End service.

(** ** The process *)
Inductive REffect :=
| RListen (addr : string) | RServe (addr : string) | RClose (addr : string)
| RNewRPC | RShutdownRPC
| RRegister (topic : string) | RDeregister (topic : string)
| RPoll (total : Z)                                  (* the calls that are left *)
| RStopSIP.

(** An HTTP server, if its port is configured, with the result of [net.Listen]. *)
Definition httpServer (port : Z) (listen : option error) : option (string * option error) :=
  if 0 <? port then Some (":" +:+ Itoa port, listen) else None.

Definition healthCode (st : HealthStatus) : Z :=
  match st with HealthOK => 200 | HealthUnderLoad => 429 | _ => 503 end.

(** A run so far: its effects, and the result once it has returned. *)
Definition Run_t : Type := list REffect * option (option error).

(** The effects of a deferred call, when the function has returned. *)
Definition deferred (e : REffect) (r : Run_t) : Run_t :=
  match r with (t, Some res) => (t ++ [e], Some res) | (t, None) => (t, None) end.

Definition withListener (srv : option (string * option error)) (k : Run_t) : Run_t :=
  match srv with
  | None => k
  | Some (_, Some err) => ([], Some (Some err))
  | Some (addr, None) => let '(t, r) := deferred (RClose addr) k in (RListen addr :: RServe addr :: t, r)
  end.

(** What the loop observes each time: whether the process is killed, and the calls. *)
Fixpoint waitLoop (polls : list (bool * ActiveCalls)) : list REffect * bool :=
  match polls with
  | [] => ([], false)                                 (* still waiting *)
  | (killed, st) :: l =>
      if killed then ([], true)
      else if Total st =? 0 then ([RPoll 0], true)
      else let '(t, fin) := waitLoop l in (RPoll (Total st) :: t, fin)
  end.

(** [killed]: at the first look, after the shutdown is requested. *)
Definition serve (topic : string) (killed : bool) (polls : list (bool * ActiveCalls)) : Run_t :=
  let '(t, fin) := if killed then ([], true) else waitLoop polls in
  if fin then (RDeregister topic :: t ++ [RStopSIP], Some None) else (RDeregister topic :: t, None).

(** [rpc]: of [NewSIPInternalServer]; [reg]: of registering the topic; [request]: the
    shutdown, once it is requested. *)
Definition Run (conf : Config) (prom pprof health rpc reg : option error)
    (request : option (bool * list (bool * ActiveCalls))) : Run_t :=
  withListener (httpServer (PrometheusPort conf) prom)
    (withListener (httpServer (PProfPort conf) pprof)
       (withListener (httpServer (HealthPort conf) health)
          (match rpc with
           | Some err => ([], Some (Some err))
           | None =>
               let '(t, r) :=
                 deferred RShutdownRPC
                   (match reg with
                    | Some err => ([], Some (Some err))
                    | None =>
                        let '(t, r) := match request with
                                       | None => ([], None)
                                       | Some (killed, polls) => serve (ClusterID conf) killed polls
                                       end in
                        (RRegister (ClusterID conf) :: t, r)
                    end) in
               (RNewRPC :: t, r)
           end))).

(** The topics of a call: [started] is whether there is an RPC server. *)
Definition RegisterTransferSIPParticipantTopic (started : bool) (reg : option error) : option error :=
  if started then reg else Some (NewErrorf Internal "RPC server not started").

(** ** Shutting down, with the signals

    The goroutine of [runService] takes one signal and calls [Stop]; [Run] waits for it.
    [Stop] and [Run] run concurrently, so each of their accesses is a step. *)
Module shutdown.
Inductive Main := Selecting | Stopping (kill : bool) (next : nat) | Finished.

Inductive PC := Waiting | Deregister | FirstLook | Loop | Polling | Tick | Stop | Returned.

Record state := {
  sigStop : bool;                (* stopChan: SIGTERM or SIGQUIT *)
  sigKill : bool;                (* killChan: SIGINT *)
  main : Main;
  monShutdown : bool;
  shut : bool;
  killed : bool;
  pc : PC;
  calls : nat;
  registered : bool;             (* the topic of new calls *)
  lastPoll : option nat;         (* the calls the last look found *)
  ticks : nat;                   (* ticks waited after the kill was stored *)
}.

Definition start (n : nat) : state :=
  {| sigStop := false; sigKill := false; main := Selecting; monShutdown := false; shut := false; killed := false;
     pc := Waiting; calls := n; registered := true; lastPoll := None; ticks := 0 |}.

Definition signals (a b : bool) (s : state) : state :=
  {| sigStop := a; sigKill := b; main := main s; monShutdown := monShutdown s; shut := shut s; killed := killed s;
     pc := pc s; calls := calls s; registered := registered s; lastPoll := lastPoll s; ticks := ticks s |}.
Definition set_main (m : Main) (a b : bool) (s : state) : state :=
  {| sigStop := a; sigKill := b; main := m; monShutdown := monShutdown s; shut := shut s; killed := killed s;
     pc := pc s; calls := calls s; registered := registered s; lastPoll := lastPoll s; ticks := ticks s |}.
Definition set_stop (m : Main) (mon sh k : bool) (s : state) : state :=
  {| sigStop := sigStop s; sigKill := sigKill s; main := m; monShutdown := mon; shut := sh; killed := k;
     pc := pc s; calls := calls s; registered := registered s; lastPoll := lastPoll s; ticks := ticks s |}.
Definition set_calls (n : nat) (s : state) : state :=
  {| sigStop := sigStop s; sigKill := sigKill s; main := main s; monShutdown := monShutdown s; shut := shut s;
     killed := killed s; pc := pc s; calls := n; registered := registered s; lastPoll := lastPoll s; ticks := ticks s |}.
Definition set_run (p : PC) (reg : bool) (l : option nat) (t : nat) (s : state) : state :=
  {| sigStop := sigStop s; sigKill := sigKill s; main := main s; monShutdown := monShutdown s; shut := shut s;
     killed := killed s; pc := p; calls := calls s; registered := reg; lastPoll := l; ticks := t |}.
Definition goto (p : PC) (s : state) : state := set_run p (registered s) (lastPoll s) (ticks s) s.

Inductive step : state -> state -> Prop :=
| S_term s : step s (signals true (sigKill s) s)
| S_int s : step s (signals (sigStop s) true s)
| S_calls s n : step s (set_calls n s)
| S_takeStop s : main s = Selecting -> sigStop s = true -> step s (set_main (Stopping false 0) false (sigKill s) s)
| S_takeKill s : main s = Selecting -> sigKill s = true -> step s (set_main (Stopping true 0) (sigStop s) false s)
| S_mon s k : main s = Stopping k 0 -> step s (set_stop (Stopping k 1) true (shut s) (killed s) s)
| S_break s k : main s = Stopping k 1 -> step s (set_stop (Stopping k 2) (monShutdown s) true (killed s) s)
| S_store s k : main s = Stopping k 2 -> step s (set_stop Finished (monShutdown s) (shut s) k s)
| S_wake s : pc s = Waiting -> shut s = true -> step s (goto Deregister s)
| S_dereg s : pc s = Deregister -> step s (set_run FirstLook false (lastPoll s) (ticks s) s)
| S_look s : pc s = FirstLook -> step s (goto (if killed s then Stop else Loop) s)
| S_loop s : pc s = Loop -> step s (goto (if killed s then Stop else Polling) s)
| S_poll s : pc s = Polling -> step s (set_run (if Nat.eqb (calls s) 0 then Stop else Tick) (registered s) (Some (calls s)) (ticks s) s)
| S_tick s : pc s = Tick -> step s (set_run Loop (registered s) (lastPoll s) (if killed s then S (ticks s) else ticks s) s)
| S_stop s : pc s = Stop -> step s (goto Returned s).

Inductive reach (n : nat) : state -> Prop :=
| reach_start : reach n (start n)
| reach_step s s' : reach n s -> step s s' -> reach n s'.

(** The kill is stored only by a [Stop] for SIGINT. *)
Definition killer (m : Main) : Prop := exists i, m = Stopping true i.

(** The program has left its loop. *)
Definition leaving (p : PC) : bool := match p with Stop | Returned => true | _ => false end.

Record inv (s : state) : Prop := {
  i_main : match main s with
           | Selecting => monShutdown s = false /\ shut s = false /\ killed s = false
           | Stopping _ 0 => shut s = false /\ killed s = false
           | Stopping _ 1 => monShutdown s = true /\ shut s = false /\ killed s = false
           | Stopping _ _ => monShutdown s = true /\ shut s = true /\ killed s = false
           | Finished => monShutdown s = true /\ shut s = true
           end;
  i_awake : pc s <> Waiting -> shut s = true;
  i_reg : registered s = match pc s with Waiting | Deregister => true | _ => false end;
  i_leave : leaving (pc s) = true -> killed s = true \/ lastPoll s = Some 0%nat;
  i_ticks : (ticks s <= 1)%nat /\ (ticks s = 1%nat -> pc s = Loop \/ leaving (pc s) = true);
  i_fresh : killed s = false -> ticks s = 0%nat;
}.

Lemma inv_start n : inv (start n).
Proof. split; cbn; try done; try lia; auto. Qed.

Lemma shutdown_step_inv s s' : inv s -> step s s' -> inv s'.
Proof.
  intros [I1 I2 I3 I4 [I5 I6] I7] Hs.
  destruct Hs as [s|s|s n|s Em Eg|s Em Eg|s k Em|s k Em|s k Em|s Ep Eq|s Ep|s Ep|s Ep|s Ep|s Ep|s Ep];
    try (rewrite Em in I1); try (rewrite Ep in *); split; cbn in *; auto.
  all: try (destruct k; intuition congruence).
  all: try (intros Hw; destruct (I2 Hw); intuition congruence).
  all: try (destruct (killed s) eqn:Ek; cbn; intuition (congruence || lia)).
  all: try (destruct (Nat.eqb_spec (calls s) 0) as [E0|E0]; cbn; rewrite ?E0; intuition (congruence || lia)).
  all: assert (ticks s = 0%nat) by (destruct (Nat.eq_dec (ticks s) 1) as [E|E]; [destruct (I6 E); congruence|lia]);
    destruct (killed s); split; auto; lia.
Qed.

Lemma shutdown_reach_inv n s : reach n s -> inv s.
Proof. induction 1; eauto using inv_start, shutdown_step_inv. Qed.

(** A step of [Run]: it leaves the signals, [Stop] and the calls alone. *)
Definition run_step (s s' : state) : Prop :=
  step s s' /\ sigStop s' = sigStop s /\ sigKill s' = sigKill s /\ main s' = main s /\ killed s' = killed s /\
  shut s' = shut s /\ calls s' = calls s.

Definition finishes (s : state) : Prop := exists s', rtc run_step s s' /\ pc s' = Returned.

Lemma finishes_step s s' : run_step s s' -> finishes s' -> finishes s.
Proof. intros Hs (q & H1 & H2). exists q. split; [by eapply rtc_l|done]. Qed.

(** One step of [Run], chosen by its place. *)
Ltac run_by c := eapply finishes_step; [split_and!; [by apply c|reflexivity..]|].

(** [Run] goes on to its end by its own steps once it is killed or there are no calls. *)
Lemma run_finishes s : shut s = true -> killed s = true \/ calls s = 0%nat -> finishes s.
Proof.
  assert (forall q, pc q = Stop -> finishes q) as H7.
  { intros q E. run_by S_stop. eexists. split; [apply rtc_refl|done]. }
  assert (forall q, killed q = true \/ calls q = 0%nat -> pc q = Loop -> finishes q) as H4.
  { intros q Ek E. run_by S_loop. destruct (killed q) eqn:Ek'; [by apply H7|]. destruct Ek as [?|Ek]; [done|].
    run_by S_poll. apply H7. cbn. by rewrite Ek. }
  assert (forall q, killed q = true \/ calls q = 0%nat -> pc q = Tick -> finishes q) as H6.
  { intros q Ek E. run_by S_tick. by apply H4. }
  assert (forall q, killed q = true \/ calls q = 0%nat -> pc q = FirstLook -> finishes q) as H3.
  { intros q Ek E. run_by S_look. destruct (killed q) eqn:Ek'; [by apply H7|]. apply H4; [cbn; rewrite Ek'; exact Ek|done]. }
  assert (forall q, killed q = true \/ calls q = 0%nat -> pc q = Deregister -> finishes q) as H2.
  { intros q Ek E. run_by S_dereg. by apply H3. }
  intros Hsh Hk. destruct (pc s) eqn:E; auto.
  - run_by S_wake. by apply H2.
  - run_by S_poll. destruct (Nat.eqb (calls s) 0) eqn:E0; [apply H7|apply H6]; cbn; by rewrite ?E0.
  - exists s. split; [apply rtc_refl|done].
Qed.

(** C27: The process stops in order.  In every interleaving of signals, [Stop], [Run] and
    calls that come and go: [Run] stops the SIP service only after the RPC topic of new
    outbound calls was deregistered and the node reports that it is stopping, and only when
    the process was killed or the last look found no calls.  Calls of the SIP side can still
    come in while it waits.  After the kill was stored it waits for at most one more tick.
    Once shutting down has begun, [Run] reaches its end by its own steps when it is killed or
    when there are no calls. *)
Theorem shutdown_in_order n s :
  reach n s ->
  (leaving (pc s) = true ->
     registered s = false /\ monShutdown s = true /\ (killed s = true \/ lastPoll s = Some 0%nat)) /\
  (ticks s <= 1)%nat /\
  (killed s = true \/ (shut s = true /\ calls s = 0%nat) -> exists s', rtc run_step s s' /\ pc s' = Returned).
Proof.
  intros Hr. apply shutdown_reach_inv in Hr as [I1 I2 I3 I4 [I5 I6] I7]. split_and!; [|done|].
  - intros Hl. assert (pc s <> Waiting) as Hw by (intros E; by rewrite E in Hl).
    split_and!; auto; [rewrite I3; by destruct (pc s)|].
    specialize (I2 Hw). destruct (main s) as [|k [|[|i]]|]; intuition congruence.
  - intros Hk. apply run_finishes; [|tauto]. destruct Hk as [Hk|[? _]]; [|done].
    destruct (main s) as [|k [|[|i]]|]; intuition congruence.
Qed.

Lemma shutdown_in_order_witness :
  exists s, reach 2 s /\ pc s = Stop /\ calls s = 2%nat /\ killed s = true /\ ticks s = 1%nat /\ registered s = false.
Proof.
  assert (exists s, reach 2 s /\ pc s = Stop /\ calls s = 2%nat /\ killed s = true /\ ticks s = 1%nat) as (s & Hr & Hp & Hrest).
  { eexists. split.
    - eapply reach_step; [eapply reach_step; [eapply reach_step; [eapply reach_step; [eapply reach_step; [eapply reach_step;
        [eapply reach_step; [eapply reach_step; [eapply reach_step; [eapply reach_step; [eapply reach_step; [eapply reach_step;
        [apply reach_start|apply S_int]|by apply S_takeKill]|by apply S_mon]|by apply S_break]|by apply S_wake]|by apply S_dereg]
        |by apply S_look]|by apply S_loop]|by apply S_store]|by apply S_poll]|by apply S_tick]|by apply S_loop].
    - split; [reflexivity|]. split; [reflexivity|]. split; reflexivity. }
  exists s. split; [exact Hr|]. split; [exact Hp|].
  destruct Hrest as (H1 & H2 & H3). split; [exact H1|]. split; [exact H2|]. split; [exact H3|].
  apply (shutdown_in_order 2 s Hr). rewrite Hp. reflexivity.
Defined.

(** The signal taken decides: after SIGTERM no SIGINT reaches the service. *)
Definition graceful (s : state) : Prop := (exists i, main s = Stopping false i) \/ main s = Finished.

(** A graceful shutdown cannot be cut short.  Once the process has taken a SIGTERM, no
    later SIGINT is taken: whatever signals arrive, the kill is never stored and [Run]
    leaves its loop only when a look finds no calls. *)
Theorem sigint_after_sigterm n s s' i :
  reach n s -> main s = Stopping false i -> rtc step s s' ->
  killed s' = false /\ main s' <> Selecting /\ (leaving (pc s') = true -> lastPoll s' = Some 0%nat).
Proof.
  intros Hr Hm Hs.
  assert (killed s = false) as Hk.
  { apply shutdown_reach_inv in Hr as [I1 _ _ _ _ _]. rewrite Hm in I1. destruct i as [|[|i]]; intuition congruence. }
  assert (forall q q', graceful q /\ killed q = false -> step q q' -> graceful q' /\ killed q' = false) as Hstep.
  { intros q q' [Hg Hkq] Hst.
    assert (forall k j, main q = Stopping k j -> k = false) as Hkf.
    { intros k j E. destruct Hg as [[j' E']|E']; congruence. }
    assert (main q <> Selecting) as Hns by (destruct Hg as [[j E]|E]; congruence).
    destruct Hst as [q|q|q m|q Em Eg|q Em Eg|q k Em|q k Em|q k Em|q Ep Eq|q Ep|q Ep|q Ep|q Ep|q Ep|q Ep];
      try done; pose proof (Hkf _ _ Em) as ->; unfold graceful; cbn; split; auto; left; by eexists. }
  assert (graceful s' /\ killed s' = false /\ reach n s') as (Hg' & Hk' & Hr').
  { assert (graceful s /\ killed s = false) as Hgk by (split; [left; eauto|done]). clear Hm Hk i.
    induction Hs as [q|q q1 q2 H1 H2 IH]; [tauto|]. apply IH; [by eapply reach_step|by eapply Hstep]. }
  split; [done|]. split; [by destruct Hg' as [[j ->]| ->]|]. intros Hl.
  apply shutdown_reach_inv in Hr' as [_ _ _ I4 _ _]. destruct (I4 Hl); congruence.
Qed.

Lemma sigint_after_sigterm_witness :
  let s := set_main (Stopping false 0) false true (signals true true (signals true false (start 1))) in
  sigKill s = true /\ killed (set_stop Finished true true false (set_stop (Stopping false 2) true true false
                                (set_stop (Stopping false 1) true false false s))) = false.
Proof.
  intros s. split; [reflexivity|].
  apply (sigint_after_sigterm 1 s _ 0); [|reflexivity|].
  - eapply reach_step; [eapply reach_step; [eapply reach_step; [apply reach_start|apply S_term]|apply S_int]|].
    apply S_takeStop; reflexivity.
  - eapply rtc_l; [apply (S_mon s false); reflexivity|]. eapply rtc_l; [apply (S_break _ false); reflexivity|].
    eapply rtc_l; [apply (S_store _ false); reflexivity|]. apply rtc_refl.
Defined.
End shutdown.

(** ** Listeners *)
Definition opened (t : list SEffect) : list Listener := omap (fun e => match e with SListen l => Some l | _ => None end) t.
Definition closedL (t : list SEffect) : list Listener := omap (fun e => match e with SCloseListener l => Some l | _ => None end) t.
Definition handlersOf (t : list SEffect) : list string := omap (fun e => match e with SHandle m => Some m | _ => None end) t.

Lemma wrapLoop_app {H} (l l' : list (H -> H)) h : wrapLoop (l ++ l') h = wrapLoop l' (wrapLoop l h).
Proof. revert h. induction l; intros h; [done|]. cbn. auto. Qed.

(** The first interceptor is the outermost. *)
Lemma wrapHandler_outermost {H} (l : list (H -> H)) h : wrapHandler l h = fold_right (fun i r => i r) h l.
Proof.
  unfold wrapHandler. induction l as [|i l IH]; [done|]. cbn [rev fold_right]. rewrite wrapLoop_app, IH. done.
Qed.

Section listeners.
Context `{ErrorText}.

Lemma registerAll_trace l s : registerAll l s = (tt, s, map SHandle l).
Proof. induction l as [|m l IH]; [done|]. cbn. unfold mbind'. rewrite IH. done. Qed.

Lemma closeListeners_trace l s : closeListeners l s = (tt, s, map SCloseListener l).
Proof. induction l as [|m l IH]; [done|]. cbn. unfold mbind'. rewrite IH. done. Qed.

Lemma Server_Stop_closes s : closedL (trace_of (Server_Stop s)) = sipListeners s.
Proof.
  unfold Server_Stop, mbind', mget, mwhen. cbv beta iota.
  assert (closedL (map SCloseListener (sipListeners s)) = sipListeners s) as E.
  { unfold closedL. induction (sipListeners s) as [|x l IH]; [done|]. cbn. by rewrite IH. }
  destruct (sipSrv s); cbn; rewrite closeListeners_trace; exact E.
Qed.

(** What starting keeps: the server's list is what was opened. *)
Definition keepsListeners (s : Server) (t : list SEffect) (s' : Server) : Prop :=
  sipListeners s' = sipListeners s ++ opened t.

#[local] Instance keepsListeners_rel : TraceRel keepsListeners.
Proof.
  split; unfold keepsListeners; [intros s; by rewrite app_nil_r|].
  intros s1 t1 s2 t2 s3 -> ->. unfold opened. by rewrite omap_app, app_assoc.
Qed.

Lemma startListener_keeps lis text port err : mrel keepsListeners (startListener lis text port err).
Proof.
  unfold startListener. destruct err; [apply mrel_ret, _|].
  intros s. unfold mspec, keepsListeners, mbind', memit, mmodify, mreturn. done.
Qed.

Lemma registerAll_keeps l : mrel keepsListeners (registerAll l).
Proof.
  intros s. unfold mspec. rewrite registerAll_trace. unfold keepsListeners, opened.
  replace (omap _ (map SHandle l)) with (@nil Listener); [by rewrite app_nil_r|]. by induction l.
Qed.

Lemma Server_Start_keeps conf ParseAddr agent srv tlsConf udp tcp tls :
  mrel keepsListeners (Server_Start conf ParseAddr agent srv tlsConf udp tcp tls).
Proof.
  unfold Server_Start, startUDP, startTCP, startTLS.
  destruct (orElse agent srv); [apply mrel_ret, _|].
  apply mrel_bind; [apply _| |intros _].
  { apply mrel_modify. intros s. unfold keepsListeners. cbn. by rewrite app_nil_r. }
  apply mrel_bind; [apply _|apply registerAll_keeps|intros _].
  destruct (ParseAddr _); [|apply mrel_ret, _].
  apply mrel_bind; [apply _|apply startListener_keeps|intros [e1|]]; [apply mrel_ret, _|].
  apply mrel_bind; [apply _|apply startListener_keeps|intros [e2|]]; [apply mrel_ret, _|].
  destruct (TLS conf); [|apply mrel_ret, _]. destruct tlsConf; [apply startListener_keeps|apply mrel_ret, _].
Qed.

(** The error of the TLS listener names the port of the plain ones. *)
Lemma startTLS_names_wrong_port conf addr e s :
    result_of (startTLS conf addr (Some e) s) =
    Some (EWrap ("cannot listen on the TLS signaling port " +:+ Itoa (SIPPortListen conf) +:+ ": ") e "").
Proof. done. Qed.

(** Stopping the server closes what starting it opened, also when the start fails half
    way; a start that succeeds listens on UDP and TCP at the configured port and, with
    certificates, on TLS at its own, and has a handler for every kind of request. *)
Theorem server_lifecycle conf ParseAddr agent srv tlsConf udp tcp tls :
  let '(err, s, t) := Server_Start conf ParseAddr agent srv tlsConf udp tcp tls NewServer in
  closedL (trace_of (Server_Stop s)) = opened t /\
  (err = None ->
     handlersOf t = handlerNames /\
     exists ip, opened t =
       {| lis_proto := ProtoUDP; lis_addr := {| ap_Addr := ip; ap_Port := SIPPortListen conf mod 2 ^ 16 |} |} ::
       {| lis_proto := ProtoTCP; lis_addr := {| ap_Addr := ip; ap_Port := SIPPortListen conf mod 2 ^ 16 |} |} ::
       match TLS conf with
       | Some t => if tlsConf then [{| lis_proto := ProtoTLS;
                                       lis_addr := {| ap_Addr := ip; ap_Port := tls_ListenPort t mod 2 ^ 16 |} |}] else []
       | None => []
       end).
Proof.
  pose proof (Server_Start_keeps conf ParseAddr agent srv tlsConf udp tcp tls NewServer) as Hk.
  unfold mspec, keepsListeners in Hk.
  destruct (Server_Start conf ParseAddr agent srv tlsConf udp tcp tls NewServer) as [[err s] t] eqn:E.
  split; [by rewrite Server_Stop_closes, Hk|]. intros ->.
  unfold Server_Start, startUDP, startTCP, startTLS, startListener in E.
  destruct (orElse agent srv); [done|]. unfold mbind' in E. cbn [mmodify mreturn memit] in E.
  rewrite registerAll_trace in E. destruct (ParseAddr _) as [ip|]; [|done].
  destruct udp; [done|]. destruct tcp; [done|]. cbn -[Z.modulo Z.pow] in E.
  destruct (TLS conf) as [tconf|], tlsConf; cbn -[Z.modulo Z.pow] in E; try destruct tls; simplify_eq;
    (split; [done|]); by exists ip.
Qed.
End listeners.

(** ** Affinity *)
Section affinity.
Context `{Rounding}.

#[local] Instance rnd_proper : Proper (Qeq ==> Qeq) rnd.
Proof. intros x y E. apply Qle_antisym; apply rnd_mono; rewrite E; apply Qle_refl. Qed.

Lemma rnd_nonneg x : (0 <= x)%Q -> (0 <= rnd x)%Q.
Proof. intros Hx. rewrite <- rnd_zero. by apply rnd_mono. Qed.

Lemma rnd_le_one x : (x <= 1)%Q -> (rnd x <= 1)%Q.
Proof. intros Hx. rewrite <- rnd_one. by apply rnd_mono. Qed.

Definition served (conf : Config) (trunk : string) : bool :=
  Nat.eqb (length (SIPTrunkIds conf)) 0 || existsb (String.eqb trunk) (SIPTrunkIds conf).

(** The affinity of a served trunk, as a function of the active calls. *)
Definition load (conf : Config) (active : Q) : Q :=
  let max := rnd (inject_Z (MaxActiveCalls conf)) in
  if Qlt_bool 0 max then if Qle_bool max active then 0%Q else rnd (1 - rnd (active / max))
  else rnd (1 / rnd (1 + active)).

Lemma affinity_load conf trunk st :
  CreateSIPParticipantAffinity conf trunk st = if served conf trunk then load conf (rnd (inject_Z (Total st))) else 0%Q.
Proof.
  unfold CreateSIPParticipantAffinity, served, load. destruct (SIPTrunkIds conf) as [|a l]; [done|].
  destruct (existsb (String.eqb trunk) (a :: l)); done.
Qed.

Lemma Qlt_bool_iff x y : Qlt_bool x y = true <-> (x < y)%Q.
Proof.
  unfold Qlt_bool. destruct (Qle_bool y x) eqn:E; cbn; split; try done.
  - intros Hlt. apply Qle_bool_iff in E. by apply Qlt_not_le in Hlt.
  - intros _. apply Qnot_le_lt. intros Hle. apply Qle_bool_iff in Hle. congruence.
Qed.

Lemma load_range conf a : (0 <= a)%Q -> (0 <= load conf a <= 1)%Q.
Proof.
  intros Ha. unfold load. set (max := rnd (inject_Z (MaxActiveCalls conf))).
  destruct (Qlt_bool 0 max) eqn:Em.
  - apply Qlt_bool_iff in Em. destruct (Qle_bool max a) eqn:Ef; [split; [apply Qle_refl|done]|].
    assert (a / max <= 1)%Q as Hd.
    { apply Qle_shift_div_r; [done|]. rewrite Qmult_1_l. apply Qlt_le_weak, Qnot_le_lt. intros Hle.
      apply Qle_bool_iff in Hle. congruence. }
    assert (0 <= a / max)%Q as Hp by (apply Qle_shift_div_l; [done|]; by rewrite Qmult_0_l).
    pose proof (rnd_le_one _ Hd) as H1. pose proof (rnd_nonneg _ Hp) as H2. split.
    + apply rnd_nonneg. rewrite <- (Qplus_opp_r (rnd (a / max))). by apply Qplus_le_compat; [|apply Qle_refl].
    + apply rnd_le_one. rewrite <- (Qplus_0_r 1) at 2. apply Qplus_le_compat; [apply Qle_refl|].
      by apply (Qopp_le_compat 0).
  - assert (1 <= rnd (1 + a))%Q as H1.
    { rewrite <- rnd_one at 1. apply rnd_mono. rewrite <- (Qplus_0_r 1) at 1. by apply Qplus_le_compat; [apply Qle_refl|]. }
    assert (0 < rnd (1 + a))%Q as H0 by (eapply Qlt_le_trans; [|exact H1]; done). split.
    + apply rnd_nonneg. apply Qle_shift_div_l; [done|]. by rewrite Qmult_0_l.
    + apply rnd_le_one. apply Qle_shift_div_r; [done|]. by rewrite Qmult_1_l.
Qed.

Lemma load_antitone conf a b : (0 <= a)%Q -> (a <= b)%Q -> (load conf b <= load conf a)%Q.
Proof.
  intros Ha Hab. pose proof (load_range conf a Ha) as [La _]. unfold load in *.
  set (max := rnd (inject_Z (MaxActiveCalls conf))) in *.
  destruct (Qlt_bool 0 max) eqn:Em.
  - apply Qlt_bool_iff in Em. destruct (Qle_bool max b) eqn:Fb; [done|].
    destruct (Qle_bool max a) eqn:Fa.
    { apply Qle_bool_iff in Fa. assert (max <= b)%Q as Hb by (by eapply Qle_trans). apply Qle_bool_iff in Hb. congruence. }
    apply rnd_mono, Qplus_le_compat; [apply Qle_refl|]. apply Qopp_le_compat, rnd_mono.
    apply Qmult_le_compat_r; [done|]. by apply Qlt_le_weak, Qinv_lt_0_compat.
  - assert (1 <= rnd (1 + a))%Q as H1.
    { rewrite <- rnd_one at 1. apply rnd_mono. rewrite <- (Qplus_0_r 1) at 1. by apply Qplus_le_compat; [apply Qle_refl|]. }
    assert (rnd (1 + a) <= rnd (1 + b))%Q as H2 by (apply rnd_mono, Qplus_le_compat; [apply Qle_refl|done]).
    assert (0 < rnd (1 + a))%Q as H0 by (eapply Qlt_le_trans; [|exact H1]; done).
    apply rnd_mono. apply Qle_shift_div_l; [done|].
    assert (0 < rnd (1 + b))%Q as H0b by (by eapply Qlt_le_trans).
    unfold Qdiv. rewrite Qmult_1_l, Qmult_comm. apply Qle_shift_div_r; [done|]. by rewrite Qmult_1_l.
Qed.

(** Calls go to the node with room for them.  The affinity a node reports for an
    outbound call is between zero and one, never grows with the calls the node has, is
    one on an idle node, and is zero for a trunk the node does not serve and on a node at
    its limit; this holds for the [float32] results, whatever the rounding. *)
Theorem affinity_spec conf trunk st st' :
  0 <= Total st <= Total st' ->
  let a := CreateSIPParticipantAffinity conf trunk in
  (0 <= a st' /\ a st' <= a st /\ a st <= 1)%Q /\
  (Total st = 0 -> served conf trunk = true -> (a st == 1)%Q) /\
  (served conf trunk = false -> a st = 0%Q) /\
  (0 < MaxActiveCalls conf <= Total st -> a st = 0%Q).
Proof.
  intros [H0 Hle] a. unfold a. rewrite !affinity_load.
  assert (0 <= rnd (inject_Z (Total st)))%Q as Hp by (apply rnd_nonneg; rewrite (Zle_Qle 0) in H0; done).
  assert (rnd (inject_Z (Total st)) <= rnd (inject_Z (Total st')))%Q as Hm by (apply rnd_mono; by rewrite <- Zle_Qle).
  pose proof (load_range conf _ Hp) as [R1 R2]. pose proof (load_antitone conf _ _ Hp Hm) as R3.
  assert (0 <= rnd (inject_Z (Total st')))%Q as Hp' by (eapply Qle_trans; [exact Hp|exact Hm]).
  pose proof (load_range conf _ Hp') as [R4 _].
  destruct (served conf trunk) eqn:Es; [|split_and!; try done; apply Qle_refl]. split_and!; try done.
  - intros E _. rewrite E. unfold load. set (max := rnd (inject_Z (MaxActiveCalls conf))).
    destruct (Qlt_bool 0 max) eqn:Em.
    + apply Qlt_bool_iff in Em. destruct (Qle_bool max (rnd (inject_Z 0))) eqn:Ef.
      { apply Qle_bool_iff in Ef. change (inject_Z 0) with 0%Q in Ef. rewrite rnd_zero in Ef. by apply Qlt_not_le in Em. }
      change (inject_Z 0) with 0%Q. rewrite rnd_zero. unfold Qdiv. rewrite Qmult_0_l, rnd_zero.
      by rewrite <- rnd_one at 2.
    + change (inject_Z 0) with 0%Q. rewrite rnd_zero, Qplus_0_r, rnd_one. by rewrite <- rnd_one at 3.
  - intros [Hpos Hfull]. unfold load.
    assert (Qlt_bool 0 (rnd (inject_Z (MaxActiveCalls conf))) = true) as ->.
    { apply Qlt_bool_iff. apply (Qlt_le_trans _ 1); [done|]. rewrite <- rnd_one. apply rnd_mono.
      change 1%Q with (inject_Z 1). rewrite <- Zle_Qle. lia. }
    assert (rnd (inject_Z (MaxActiveCalls conf)) <= rnd (inject_Z (Total st)))%Q as Hge by (apply rnd_mono; by rewrite <- Zle_Qle).
    apply Qle_bool_iff in Hge. by rewrite Hge.
Qed.
End affinity.

(** Exact arithmetic is a rounding. *)
#[local] Instance exactRounding : Rounding := {| rnd := fun q => q; rnd_mono := fun _ _ Hle => Hle;
  rnd_zero := Qeq_refl 0; rnd_one := Qeq_refl 1 |}.

Lemma affinity_spec_witness :
  let st n := {| ac_Inbound := n; ac_Outbound := 1; SampleIDs := [] |} in
  CreateSIPParticipantAffinity exampleConfig "ST_1" (st 3) = (6 # 10)%Q /\
  (0 <= CreateSIPParticipantAffinity exampleConfig "ST_1" (st 4%Z) <= CreateSIPParticipantAffinity exampleConfig "ST_1" (st 3%Z))%Q /\
  CreateSIPParticipantAffinity exampleConfig "ST_1" (st 9) = 0%Q /\
  CreateSIPParticipantAffinity exampleConfig "ST_2" (st 0) = 0%Q.
Proof.
  intros st. split; [reflexivity|].
  destruct (affinity_spec exampleConfig "ST_1" (st 3) (st 4)) as ((A1 & A2 & _) & _); [unfold Total, st; cbn; lia|].
  destruct (affinity_spec exampleConfig "ST_1" (st 9) (st 9)) as (_ & _ & _ & A3); [unfold Total, st; cbn; lia|].
  destruct (affinity_spec exampleConfig "ST_2" (st 0) (st 0)) as (_ & _ & A4 & _); [unfold Total, st; cbn; lia|].
  split; [split; assumption|]. split; [apply A3; unfold Total, st; cbn; lia|]. apply A4. reflexivity.
Defined.

(** ** What [Run] leaves behind *)
Definition isListen (a : string) (e : REffect) : bool := match e with RListen b => String.eqb a b | _ => false end.
Definition isCloseOf (a : string) (e : REffect) : bool := match e with RClose b => String.eqb a b | _ => false end.
Definition isNewRPC (e : REffect) : bool := match e with RNewRPC => true | _ => false end.
Definition isShutdownRPC (e : REffect) : bool := match e with RShutdownRPC => true | _ => false end.
Definition isRegister (e : REffect) : bool := match e with RRegister _ => true | _ => false end.
Definition isDeregister (e : REffect) : bool := match e with RDeregister _ => true | _ => false end.
Definition isStopSIP (e : REffect) : bool := match e with RStopSIP => true | _ => false end.
Definition isRelease (e : REffect) : bool := match e with RClose _ | RShutdownRPC | RStopSIP => true | _ => false end.

(** What a run has opened is closed once it has returned, and not before. *)
Definition balanced (r : Run_t) : Prop :=
  match r.2 with
  | Some res =>
      (forall a, countb (isListen a) r.1 = countb (isCloseOf a) r.1) /\
      countb isNewRPC r.1 = countb isShutdownRPC r.1 /\
      countb isRegister r.1 = countb isDeregister r.1 /\
      countb isStopSIP r.1 = match res with None => 1%nat | Some _ => 0%nat end
  | None => countb isRelease r.1 = 0%nat
  end.

Lemma withListener_balanced srv k : balanced k -> balanced (withListener srv k).
Proof.
  unfold withListener. destruct srv as [[addr [err|]]|]; [by intros _|idtac|done].
  destruct k as [t [res|]]; unfold balanced, deferred; cbn [fst snd].
  - intros (H1 & H2 & H3 & H4).
    split_and!; [intros a|..]; rewrite !countb_cons, !countb_app, ?countb_cons, ?countb_nil; cbn; [|lia..].
    rewrite (H1 a). destruct (String.eqb a addr); lia.
  - intros H1. by rewrite !countb_cons, H1.
Qed.

Lemma waitLoop_polls polls e : e ∈ (waitLoop polls).1 -> exists n, e = RPoll n.
Proof.
  induction polls as [|[killed st] l IH]; cbn; [by intros ?%elem_of_nil|].
  destruct killed; [by intros ?%elem_of_nil|]. destruct (Total st =? 0).
  - intros ->%list_elem_of_singleton. eauto.
  - destruct (waitLoop l) as [t fin]. cbn in *. intros [->|Ht]%elem_of_cons; eauto.
Qed.

Lemma waitLoop_count (p : REffect -> bool) polls : (forall n, p (RPoll n) = false) -> countb p (waitLoop polls).1 = 0%nat.
Proof.
  intros Hp. pose proof (waitLoop_polls polls) as Hl. revert Hl. generalize ((waitLoop polls).1) as t.
  induction t as [|e t IH]; [done|]. intros Hl. rewrite countb_cons, IH; [|intros x Hx; apply Hl; by right].
  destruct (Hl e) as [n ->]; [left|]. by rewrite Hp.
Qed.

Lemma serve_counts (p : REffect -> bool) topic killed polls :
  (forall n, p (RPoll n) = false) ->
  countb p (serve topic killed polls).1 =
  ((if p (RDeregister topic) then 1 else 0) +
   match (serve topic killed polls).2 with Some _ => if p RStopSIP then 1 else 0 | None => 0 end)%nat.
Proof.
  intros Hp. unfold serve. pose proof (waitLoop_count p polls Hp) as Hw.
  destruct killed; [cbn -[countb]; rewrite !countb_cons, countb_nil; lia|].
  destruct (waitLoop polls) as [t [|]]; cbn -[countb] in *; rewrite countb_cons, ?countb_app, ?Hw, ?countb_cons, ?countb_nil; lia.
Qed.

Lemma Run_balanced conf prom pprof health rpc reg request : balanced (Run conf prom pprof health rpc reg request).
Proof.
  unfold Run. do 3 apply withListener_balanced. destruct rpc; [done|]. destruct reg; [done|].
  destruct request as [[killed polls]|]; [|done].
  pose proof (fun p Hp => serve_counts p (ClusterID conf) killed polls Hp) as Hc.
  destruct (serve (ClusterID conf) killed polls) as [t [res|]] eqn:Es; cbn [fst snd] in Hc; cbn -[countb].
  + assert (res = None) as ->.
    { unfold serve in Es. destruct (if killed then _ else _) as [t0 [|]]; by simplify_eq. }
    unfold balanced. cbn [fst snd].
    split_and!; [intros a|..]; rewrite !countb_cons, !countb_app, ?countb_cons, ?countb_nil, ?Hc by done; cbn; lia.
  + unfold balanced. cbn [fst snd]. rewrite !countb_cons, Hc by done. done.
Qed.

(** [Run] leaves nothing behind.  On every path, whichever listener, the RPC server or
    the topic fails and whenever the process is told to stop: once [Run] has returned,
    each HTTP listener it opened is closed, the RPC server is shut down and the topic
    taken back, and the SIP service is stopped exactly once if [Run] succeeds and not at
    all otherwise; while it runs nothing is closed.  A success means that the process was
    killed or that a look found no calls. *)
Theorem Run_releases conf prom pprof health rpc reg request :
  let r := Run conf prom pprof health rpc reg request in
  balanced r /\
  (r.2 = Some None -> exists killed polls, request = Some (killed, polls) /\
     (killed = true \/ exists before k st after, polls = before ++ (k, st) :: after /\ (k = true \/ Total st = 0) /\
        Forall (fun p => p.1 = false /\ Total p.2 <> 0) before)).
Proof.
  cbv zeta. split; [apply Run_balanced|]. unfold Run.
  set (inner := match rpc with Some _ => _ | None => _ end).
  assert (forall srv k, (withListener srv k).2 = Some None -> k.2 = Some None) as Hw.
  { intros srv [t r]. unfold withListener, deferred. destruct srv as [[addr [err|]]|]; [done| |done]. by destruct r. }
  intros Hr. do 3 apply Hw in Hr. unfold inner in Hr. destruct rpc; [done|]. destruct reg; [done|].
  destruct request as [[killed polls]|]; [|done]. exists killed, polls. split; [done|].
  destruct killed; [by left|right]. unfold serve in Hr.
  assert ((waitLoop polls).2 = true) as Hfin.
  { destruct (waitLoop polls) as [t [|]]; [done|]. by cbn in Hr. }
  clear Hr. induction polls as [|[k st] l IH]; [done|]. cbn in Hfin.
  destruct k; [exists [], true, st, l; split_and!; auto|].
  destruct (Z.eqb_spec (Total st) 0) as [E|E]; [exists [], false, st, l; split_and!; auto|].
  destruct IH as (b & k & st' & a & -> & Hk & Hb); [by destruct (waitLoop l)|].
  exists ((false, st) :: b), k, st', a. split_and!; auto.
Qed.
