(* ===== verification/Boot.v ===== *)
(** * The start of the program

    [runService] of [cmd/livekit-sip/main.go]: the parts are built and connected, the SIP
    service is started and the process runs until it is stopped.  It composes the
    configuration ([Config]), the sealer ([Sealer]), the call manager ([Manager]), the SIP
    service with its server and client ([Service], [pkg/sip/client.go]) and the process
    ([Service.Run]).  What the outside answers at each step is a field of [BootEnv].  Also
    the construction of the call manager ([pkg/sip/manager.go]) and the names of the health
    states ([pkg/stats/healthstatus_string.go]). *)

From stdpp Require Import base tactics list gmap strings option.
From Stdlib Require Import ZArith Ascii Lia.
From S2P Require Import Prelude GoStd GoErr NetIP CallState Monitor Sealer Manager MediaPipeline MediaPort Room CallMedia Config Service.
Import strings strconv.
Local Open Scope Z_scope.

(** ** The call manager *)

(** [WithGetRoom] and [WithGetSipClient]: a nil function changes nothing. *)
Definition applyOptions {F} (f : F) (options : list (option F)) : F := foldl (fun f o => default f o) f options.

(** [disableCache] is [DisableRejectedInviteCache] of the configuration. *)
Definition newCallManager {F} (DefaultGetRoomFunc : F) (disableCache : bool) (options : list (option F)) : callManager * F :=
  ({| cm_byLocalTag := ∅; cm_activeCalls := ∅; provisionalInvites := ∅;
      rejectedInvites := if disableCache then None else Some ∅; cm_infos := ∅ |},
   applyOptions DefaultGetRoomFunc options).

Definition NewCallManager {F S} (DefaultGetRoomFunc : F) (sealer : option S) (disableCache : bool)
    (options : list (option F)) : error + (callManager * F) :=
  match sealer with
  | None => inl (EText "no sealer provided")
  | Some _ => inr (newCallManager DefaultGetRoomFunc disableCache options)
  end.

(** ** The SIP client *)
Record sipClient := { cl_sconf : option ServiceConfig; cl_sipCli : bool }.

Definition newSipClient : sipClient := {| cl_sconf := None; cl_sipCli := false |}.

Inductive ClEffect := ClNewUA | ClNewClient (host : Addr) | ClClose.

Section client.
Open Scope go_scope.
Abbreviation CLM := (M sipClient ClEffect).

(** [agent]: the caller gave a user agent, or what making one returns; [get]: of
    [getSipClient], which on failure may still return a client. *)
Definition Client_Start (agent : option (option error)) (get : option (bool * error)) (sc : ServiceConfig) : CLM (option error) :=
  do* mmodify (fun c => {| cl_sconf := Some sc; cl_sipCli := cl_sipCli c |}) in
  let* err := match agent with
              | None => mreturn None
              | Some err => do* memit ClNewUA in mreturn err
              end in
  match err with
  | Some err => mreturn (Some err)
  | None =>
      do* memit (ClNewClient (SignalingIP sc)) in
      do* mmodify (fun c => {| cl_sconf := cl_sconf c;
                               cl_sipCli := match get with None => true | Some (some, _) => some end |}) in
      mreturn (snd <$> get)
  end.

Definition Client_Stop : CLM unit :=
  let* c := mget in
  mwhen (cl_sipCli c) (memit ClClose).
End client.

(** ** Health *)
Definition HealthStatus_index : list Z := [0; 2; 12; 19; 28; 36].
Definition HealthStatus_name : string := "OKNotStartedStoppedUnderLoadDisabled".

Definition HealthStatus_String (i : Z) : string :=
  if (i <? 0) || (Z.of_nat (length HealthStatus_index) - 1 <=? i)
  then "HealthStatus(" +:+ Itoa i +:+ ")"
  else let a := nth (Z.to_nat i) HealthStatus_index 0 in
       let b := nth (Z.to_nat (i + 1)) HealthStatus_index 0 in
       String.substring (Z.to_nat a) (Z.to_nat (b - a)) HealthStatus_name.

(** The numbers of the constants, by [iota]. *)
Definition healthNumber (st : HealthStatus) : Z :=
  match st with HealthOK => 0 | HealthNotStarted => 1 | HealthStopped => 2 | HealthUnderLoad => 3 | HealthDisabled => 4 end.

(** The answer of the health server: the code and the text. *)
Definition healthAnswer (st : HealthStatus) : Z * string := (healthCode st, HealthStatus_String (healthNumber st)).

(** ** The program *)

(** What the request handlers reach through the manager: its transport, client and
    configuration ([Start]), its handler ([SetHandler]), the client's connection, and the
    RPC server of the process. *)
Record boot := {
  bt_manager : option callManager;
  bt_tr : bool;
  bt_cli : bool;
  bt_sconf : option ServiceConfig;
  bt_handler : bool;
  bt_client : sipClient;
  bt_server : Server;
  bt_svc : Svc;
  bt_rpc : bool;
}.

Definition boot0 : boot :=
  {| bt_manager := None; bt_tr := false; bt_cli := false; bt_sconf := None; bt_handler := false;
     bt_client := newSipClient; bt_server := NewServer; bt_svc := {| closers := 0 |}; bt_rpc := false |}.

Definition set_manager (cm : callManager) (b : boot) : boot :=
  {| bt_manager := Some cm; bt_tr := bt_tr b; bt_cli := bt_cli b; bt_sconf := bt_sconf b; bt_handler := bt_handler b;
     bt_client := bt_client b; bt_server := bt_server b; bt_svc := bt_svc b; bt_rpc := bt_rpc b |}.

(** [Start] of the manager. *)
Definition manager_Start (sc : ServiceConfig) (b : boot) : boot :=
  {| bt_manager := bt_manager b; bt_tr := true; bt_cli := true; bt_sconf := Some sc; bt_handler := bt_handler b;
     bt_client := bt_client b; bt_server := bt_server b; bt_svc := bt_svc b; bt_rpc := bt_rpc b |}.

Definition manager_SetHandler (b : boot) : boot :=
  {| bt_manager := bt_manager b; bt_tr := bt_tr b; bt_cli := bt_cli b; bt_sconf := bt_sconf b; bt_handler := true;
     bt_client := bt_client b; bt_server := bt_server b; bt_svc := bt_svc b; bt_rpc := bt_rpc b |}.

Definition set_parts (c : sipClient) (s : Server) (v : Svc) (b : boot) : boot :=
  {| bt_manager := bt_manager b; bt_tr := bt_tr b; bt_cli := bt_cli b; bt_sconf := bt_sconf b; bt_handler := bt_handler b;
     bt_client := c; bt_server := s; bt_svc := v; bt_rpc := bt_rpc b |}.

Definition set_rpc (b : boot) : boot :=
  {| bt_manager := bt_manager b; bt_tr := bt_tr b; bt_cli := bt_cli b; bt_sconf := bt_sconf b; bt_handler := bt_handler b;
     bt_client := bt_client b; bt_server := bt_server b; bt_svc := bt_svc b; bt_rpc := true |}.

Inductive BEffect :=
| BRedis | BIOClient | BNotify | BMonitor | BSignalLoop
| BSvc (e : SvcEffect)
| BClient (e : ClEffect)
| BSrv (e : SEffect)
| BServe (l : Listener) (b : boot)      (* requests are handled from here on, with the parts as in [b] *)
| BRun (e : REffect).

Record BootEnv := {
  be_configFile : string; be_configBody : string; be_readFile : string -> string + error; be_getenv : string -> string;
  be_unmarshal : string -> Config -> Config + error; be_node : string; be_logger : option error;
  be_redis : option error; be_io : option error; be_monitor : option error;
  be_rand : string;                                   (* rand.Text *)
  be_disableCache : bool;
  be_sconf : ServiceConfig + error; be_text : string; (* GetServiceConfig, and its address as text *)
  be_known : list (string * Z); be_unsafe : list (string * Z); be_loadCert : string * string -> option error;
  be_monStart : option error; be_keyLog : option error; be_ua : option error;
  be_getClient : option (bool * error);
  be_ParseAddr : string -> Addr + error; be_newServer : option error;
  be_udp : option error; be_tcp : option error; be_tls : option error;
  be_prom : option error; be_pprof : option error; be_health : option error; be_rpc : option error; be_reg : option error;
  be_request : option (bool * list (bool * ActiveCalls));
}.

Section boot.
Open Scope go_scope.
Context `{AEAD} `{ErrorText}.
Abbreviation BM := (M boot BEffect).

Definition onClient {A} (m : M sipClient ClEffect A) : BM A :=
  fun b => match m (bt_client b) with (a, c, t) => (a, set_parts c (bt_server b) (bt_svc b) b, map BClient t) end.

Definition srvEffect (b : boot) (e : SEffect) : BEffect := match e with SServe l => BServe l b | _ => BSrv e end.

Definition onServer {A} (m : M Server SEffect A) : BM A :=
  fun b => match m (bt_server b) with (a, s, t) => (a, set_parts (bt_client b) s (bt_svc b) b, map (srvEffect b) t) end.

Definition startServer (e : BootEnv) (conf : Config) : M Server SEffect (option error) :=
  Server_Start conf (be_ParseAddr e) None (be_newServer e) (match TLS conf with Some _ => true | None => false end)
    (be_udp e) (be_tcp e) (be_tls e).

Definition startClient (e : BootEnv) (sc : ServiceConfig) : M sipClient ClEffect (option error) :=
  Client_Start None (be_getClient e) sc.

(** What a call of the SIP service to its parts does to them. *)
Definition svcEffect (e : BootEnv) (conf : Config) (sc : ServiceConfig) (ef : SvcEffect) : BM unit :=
  do* memit (BSvc ef) in
  match ef with
  | VManagerStart => mmodify (manager_Start sc)
  | VClientStart => do* onClient (startClient e sc) in mreturn tt
  | VServerStart => do* onServer (startServer e conf) in mreturn tt
  | VClientStop => onClient Client_Stop
  | VServerStop => onServer Server_Stop
  | _ => mreturn tt
  end.

Fixpoint svcEffects (e : BootEnv) (conf : Config) (sc : ServiceConfig) (l : list SvcEffect) : BM unit :=
  match l with [] => mreturn tt | ef :: l' => do* svcEffect e conf sc ef in svcEffects e conf sc l' end.

(** An operation of the SIP service, with what its calls do. *)
Definition onService {A} (e : BootEnv) (conf : Config) (sc : ServiceConfig) (m : M Svc SvcEffect A) : BM A :=
  let* b := mget in
  match m (bt_svc b) with
  | (a, v, t) =>
      do* svcEffects e conf sc t in
      do* mmodify (fun b => set_parts (bt_client b) (bt_server b) v b) in
      mreturn a
  end.

Definition startService (e : BootEnv) (conf : Config) (sc : ServiceConfig) : BM (option error) :=
  let* b := mget in
  onService e conf sc
    (Service_Start (be_known e) (be_unsafe e) (be_loadCert e) (be_monStart e) (be_keyLog e) (be_ua e)
       (result_of (startClient e sc (bt_client b))) (result_of (startServer e conf (bt_server b))) conf).

(** The effects of [Run], which creates the RPC server and stops the SIP service. *)
Fixpoint runEffects (e : BootEnv) (conf : Config) (sc : ServiceConfig) (l : list REffect) : BM unit :=
  match l with
  | [] => mreturn tt
  | ef :: l' =>
      do* memit (BRun ef) in
      do* match ef with
          | RNewRPC => mmodify set_rpc
          | RStopSIP => onService e conf sc Service_Stop
          | _ => mreturn tt
          end in
      runEffects e conf sc l'
  end.

Definition runProcess (e : BootEnv) (conf : Config) (sc : ServiceConfig) : BM (option (option error)) :=
  match Run conf (be_prom e) (be_pprof e) (be_health e) (be_rpc e) (be_reg e) (be_request e) with
  | (t, r) => do* runEffects e conf sc t in mreturn r
  end.

Definition attempt (ef : BEffect) (err : option error) (k : BM (option (option error))) : BM (option (option error)) :=
  do* memit ef in
  match err with Some err => mreturn (Some (Some err)) | None => k end.

(** [None]: the program is still running. *)
Definition runService (e : BootEnv) : BM (option (option error)) :=
  match getConfig (be_configFile e) (be_configBody e) (be_readFile e) (be_getenv e) (be_unmarshal e) (be_node e)
          (be_logger e) true with
  | inr err => mreturn (Some (Some err))
  | inl conf =>
      attempt BRedis (be_redis e)
        (attempt BIOClient (be_io e)
           (do* memit BNotify in
            attempt BMonitor (be_monitor e)
              (match NewAESGCM [be_rand e] with
               | inl err => mreturn (Some (Some err))
               | inr sealer =>
                   match NewCallManager tt (Some sealer) (be_disableCache e) [] with
                   | inl err => mreturn (Some (Some err))
                   | inr (cm, _) =>
                       do* mmodify (set_manager cm) in
                       match NewService (be_sconf e) (be_text e) conf with
                       | inr err => mreturn (Some (Some err))
                       | inl (conf, sc) =>
                           do* mmodify manager_SetHandler in
                           let* err := startService e conf sc in
                           match err with
                           | Some err => mreturn (Some (Some err))
                           | None => do* memit BSignalLoop in runProcess e conf sc
                           end
                       end
                   end
               end)))
  end.
End boot.

(** ** Theorems *)

(** Whoever handles a request finds the manager complete: its maps, transport, client,
    configuration and handler, and the client's connection. *)
Definition ready (b : boot) : Prop :=
  is_Some (bt_manager b) /\ bt_tr b = true /\ bt_cli b = true /\ is_Some (bt_sconf b) /\ bt_handler b = true /\
  cl_sconf (bt_client b) = bt_sconf b /\ cl_sipCli (bt_client b) = true.

Definition servedBy (t : list BEffect) : list (Listener * boot) :=
  omap (fun e => match e with BServe l b => Some (l, b) | _ => None end) t.
Definition openedB (t : list BEffect) : list Listener :=
  omap (fun e => match e with BSrv (SListen l) => Some l | _ => None end) t.
Definition closedB (t : list BEffect) : list Listener :=
  omap (fun e => match e with BSrv (SCloseListener l) => Some l | _ => None end) t.

(** The calls of the service that do nothing to the other parts. *)
Definition inert (e : SvcEffect) : bool :=
  match e with VManagerStart | VClientStart | VServerStart | VClientStop | VServerStop => false | _ => true end.

Section boot_lemmas.
Context `{AEAD} `{ErrorText}.

(** The start of the service: the manager is connected, then the client, then the server
    serves; an earlier failure ends it before. *)
Definition startShape (client server r : option error) (t : list SvcEffect) : Prop :=
  exists pre, Forall (fun e => inert e = true) pre /\
    ((t = pre /\ is_Some r) \/
     (t = pre ++ [VManagerStart; VClientStart] /\ r = client /\ is_Some r) \/
     (t = pre ++ [VManagerStart; VClientStart; VServerStart] /\ client = None /\ r = server)).

Lemma tlsSetup_inert known unsafe loadCert keyLog tconf v :
  Forall (fun e => inert e = true) (trace_of (tlsSetup known unsafe loadCert keyLog tconf v)).
Proof.
  unfold tlsSetup. repeat (break_match; try (repeat constructor)); unfold mbind', trace_of; cbn;
    repeat (break_match; cbn in * ); simplify_eq; repeat constructor.
Qed.

Lemma Service_Start_shape known unsafe loadCert mon keyLog ua client server conf v :
  startShape client server (result_of (Service_Start known unsafe loadCert mon keyLog ua client server conf v))
    (trace_of (Service_Start known unsafe loadCert mon keyLog ua client server conf v)).
Proof.
  unfold Service_Start. rewrite bind_result, bind_trace. cbn [result_of state_of trace_of memit fst snd].
  destruct mon as [err|].
  { exists [VMonStart]. split; [by repeat constructor|]. left. split; [done | by eexists]. }
  rewrite bind_result, bind_trace.
  set (T := match TLS conf with None => _ | Some tconf => _ end).
  assert (HT : Forall (fun e => inert e = true) (trace_of (T v))).
  { subst T. destruct (TLS conf) as [tconf|]; [|constructor]. rewrite bind_trace, app_nil_r. apply tlsSetup_inert. }
  destruct (result_of (T v)) as [tlsc|err].
  - rewrite bind_result, bind_trace. cbn [result_of state_of trace_of memit fst snd].
    destruct ua as [err|].
    { eexists (VMonStart :: trace_of (T v) ++ [VNewUA _ _]). split; [|left; split; [done | by eexists]].
      constructor; [done|]. apply Forall_app; split; [done | by repeat constructor]. }
    rewrite !bind_result, !bind_trace. cbn [result_of state_of trace_of memit fst snd].
    eexists (VMonStart :: trace_of (T v) ++ [VNewUA _ _]).
    split; [constructor; [done|]; apply Forall_app; split; [done | by repeat constructor]|]. right.
    destruct client as [err|].
    + left. split; [|split; [done | by eexists]]. cbn. by rewrite <- app_assoc.
    + right. split; [|done]. cbn. by rewrite <- app_assoc.
  - exists (VMonStart :: trace_of (T v)). split; [by constructor|]. left. cbn. rewrite app_nil_r. split; [done | by eexists].
Qed.
End boot_lemmas.

Section boot_proofs.
Context `{AEAD} `{ErrorText}.
Variables (e : BootEnv) (conf : Config) (sc : ServiceConfig).

Lemma svcEffects_inert l b : Forall (fun ef => inert ef = true) l -> svcEffects e conf sc l b = (tt, b, map BSvc l).
Proof.
  induction 1 as [|ef l Hef _ IH]; [done|]. cbn. unfold mbind'. cbn.
  destruct ef; try done; cbn; by rewrite IH.
Qed.

Lemma svcEffects_app l1 l2 b : svcEffects e conf sc (l1 ++ l2) b = mbind' (svcEffects e conf sc l1) (fun _ => svcEffects e conf sc l2) b.
Proof.
  revert b. induction l1 as [|ef l1 IH]; intros b; [cbn [app svcEffects]; by rewrite bind_ret_l|].
  cbn. unfold mbind'. destruct (svcEffect e conf sc ef b) as [[[] b1] t1]. rewrite IH. unfold mbind'.
  destruct (svcEffects e conf sc l1 b1) as [[[] b2] t2]. destruct (svcEffects e conf sc l2 b2) as [[[] b3] t3].
  by rewrite app_assoc.
Qed.

Lemma servedBy_app t1 t2 : servedBy (t1 ++ t2) = servedBy t1 ++ servedBy t2.
Proof. apply omap_app. Qed.
Lemma openedB_app t1 t2 : openedB (t1 ++ t2) = openedB t1 ++ openedB t2.
Proof. apply omap_app. Qed.
Lemma closedB_app t1 t2 : closedB (t1 ++ t2) = closedB t1 ++ closedB t2.
Proof. apply omap_app. Qed.

(** Effects that say nothing about listeners. *)
Definition silentB (t : list BEffect) : Prop := servedBy t = [] /\ openedB t = [] /\ closedB t = [].

Lemma silent_map {A} (f : A -> BEffect) (l : list A) : (forall a, silentB [f a]) -> silentB (map f l).
Proof.
  intros Hf. induction l as [|a l (I1 & I2 & I3)]; [done|]. destruct (Hf a) as (F1 & F2 & F3).
  unfold silentB. change (map f (a :: l)) with ([f a] ++ map f l). by rewrite servedBy_app, openedB_app, closedB_app, F1, F2, F3.
Qed.

(** The listeners in the trace of the server. *)
Lemma server_trace b t :
  openedB (map (srvEffect b) t) = opened t /\ closedB (map (srvEffect b) t) = closedL t /\
  Forall (fun p => p.2 = b) (servedBy (map (srvEffect b) t)).
Proof.
  induction t as [|ef t (I1 & I2 & I3)]; [by split_and!; try constructor|].
  destruct ef; (split_and!; [try done; by apply (f_equal (cons l)) | try done; by apply (f_equal (cons l)) | try done]).
  by constructor.
Qed.

Lemma startServer_none_closed s : closedL (trace_of (startServer e conf s)) = [].
Proof.
  assert (mtrace (fun ef => forall l, ef <> SCloseListener l) (startServer e conf)) as Ht.
  { unfold startServer, Server_Start, startUDP, startTCP, startTLS, startListener. cbn [handlerNames registerAll].
    repeat trace_step; try done. }
  specialize (Ht s). unfold mspec in Ht. unfold trace_of. destruct (startServer e conf s) as [[r s'] t]. cbn.
  induction Ht as [|ef t Hef _ IH]; [done|]. destruct ef; try done. by destruct (Hef l).
Qed.

Lemma startClient_state c :
  cl_sconf (state_of (startClient e sc c)) = Some sc /\
  (result_of (startClient e sc c) = None -> cl_sipCli (state_of (startClient e sc c)) = true).
Proof. unfold startClient, Client_Start. cbn. by destruct (be_getClient e) as [[? ?]|]. Qed.

(** The manager and the client, once they are started. *)
Definition connected (b : boot) : boot :=
  set_parts (state_of (startClient e sc (bt_client b))) (bt_server b) (bt_svc b) (manager_Start sc b).

Lemma connect_run b :
  exists t, svcEffects e conf sc [VManagerStart; VClientStart] b = (tt, connected b, t) /\ silentB t.
Proof.
  unfold connected. cbn. unfold mbind', onClient. cbn.
  destruct (startClient e sc (bt_client b)) as [[r c] t] eqn:E. cbn. eexists. split; [done|].
  rewrite ?app_nil_r.
  destruct (silent_map BClient t) as (S1 & S2 & S3); [done|]. unfold silentB. cbn in *. done.
Qed.

Lemma connected_ready b :
  is_Some (bt_manager b) -> bt_handler b = true -> result_of (startClient e sc (bt_client b)) = None ->
  ready (connected b) /\ bt_rpc (connected b) = bt_rpc b.
Proof.
  intros Hm Hh Hc. destruct (startClient_state (bt_client b)) as [S1 S2]. specialize (S2 Hc).
  unfold ready, connected. cbn -[startClient state_of]. rewrite S1, S2. split_and!; try done.
Qed.

(** What starting the service leaves, for the listeners. *)
Definition startedB (b b' : boot) (t : list BEffect) : Prop :=
  Forall (fun p => ready p.2 /\ bt_rpc p.2 = bt_rpc b) (servedBy t) /\ closedB t = [] /\
  openedB t = sipListeners (bt_server b') /\ bt_rpc b' = bt_rpc b.

Lemma startedB_silent b b' t t' : silentB t -> startedB b b' t' -> startedB b b' (t ++ t').
Proof. intros (S1 & S2 & S3). unfold startedB. by rewrite servedBy_app, openedB_app, closedB_app, S1, S2, S3. Qed.

Lemma startedB_nil b b' t : silentB t -> sipListeners (bt_server b') = [] -> bt_rpc b' = bt_rpc b -> startedB b b' t.
Proof. intros (S1 & S2 & S3) Hl Hr. unfold startedB. rewrite S1, S2, S3, Hl. by split_and!. Qed.

Lemma serve_run b : sipListeners (bt_server b) = [] -> ready b ->
  mspec (svcEffects e conf sc [VServerStart]) b (fun _ b' t => startedB b b' t).
Proof.
  intros Hl Hr. pose proof (startServer_none_closed (bt_server b)) as Hc.
  pose proof (Server_Start_keeps conf (be_ParseAddr e) None (be_newServer e)
    (match TLS conf with Some _ => true | None => false end) (be_udp e) (be_tcp e) (be_tls e) (bt_server b)) as Hk.
  change (Server_Start _ _ _ _ _ _ _ _) with (startServer e conf) in Hk. unfold mspec, keepsListeners in Hk.
  cbn [svcEffects]. unfold svcEffect, mspec, mbind', memit, mreturn, onServer.
  destruct (startServer e conf (bt_server b)) as [[r s'] t]. rewrite Hl in Hk. cbn [app]; rewrite ?app_nil_r.
  destruct (server_trace b t) as (T1 & T2 & T3). apply (startedB_silent _ _ [BSvc VServerStart]); [done|].
  unfold startedB. rewrite T1, T2. split_and!; try done.
  eapply list.Forall_impl; [exact T3|]. by intros p ->.
Qed.

Lemma svcEffects_started pre k b b0 : Forall (fun ef => inert ef = true) pre ->
  mspec (svcEffects e conf sc k) b (fun _ b' t => startedB b0 b' t) ->
  mspec (svcEffects e conf sc (pre ++ k)) b (fun _ b' t => startedB b0 b' t).
Proof.
  intros Hpre. unfold mspec. rewrite svcEffects_app. unfold mbind'. rewrite (svcEffects_inert pre) by done.
  destruct (svcEffects e conf sc k b) as [[? b'] t]. apply startedB_silent. by apply silent_map.
Qed.

Lemma connect_started k b : sipListeners (bt_server b) = [] ->
  mspec (svcEffects e conf sc k) (connected b) (fun _ b' t => startedB b b' t) ->
  mspec (svcEffects e conf sc ([VManagerStart; VClientStart] ++ k)) b (fun _ b' t => startedB b b' t).
Proof.
  intros Hl. unfold mspec. rewrite svcEffects_app. unfold mbind'. destruct (connect_run b) as (t & -> & Ht).
  destruct (svcEffects e conf sc k (connected b)) as [[? b'] t']. by apply startedB_silent.
Qed.

(** The SIP service is started over a manager that is built and has its handler. *)
Lemma startService_spec b :
  is_Some (bt_manager b) -> bt_handler b = true -> sipListeners (bt_server b) = [] ->
  mspec (startService e conf sc) b (fun _ b' t => startedB b b' t).
Proof.
  intros Hm Hh Hs. unfold startService, onService. do 2 (mstep; mstep).
  set (cr := result_of (startClient e sc (bt_client b))). set (sr := result_of (startServer e conf (bt_server b))).
  pose proof (Service_Start_shape (be_known e) (be_unsafe e) (be_loadCert e) (be_monStart e) (be_keyLog e) (be_ua e) cr sr conf (bt_svc b)) as Hsh.
  destruct (Service_Start _ _ _ _ _ _ _ _ _ _) as [[r v] t]. cbn [result_of trace_of fst snd] in Hsh.
  assert (mspec (svcEffects e conf sc t) b (fun _ b' t => startedB b b' t)) as Ht.
  { assert (forall b', connected b = b' -> sipListeners (bt_server b') = [] /\ bt_rpc b' = bt_rpc b) as Hb by by intros ? <-.
    destruct Hsh as (pre & Hpre & [[-> _]|[(-> & _)|(-> & Hc & _)]]).
    - rewrite <- (app_nil_r pre). apply svcEffects_started; [done|]. by apply startedB_nil.
    - apply svcEffects_started; [done|]. apply (connect_started []); [done|]. by apply startedB_nil.
    - apply svcEffects_started; [done|]. apply (connect_started [VServerStart]); [done|].
      destruct (connected_ready b Hm Hh Hc) as [R1 R2].
      pose proof (serve_run (connected b) Hs R1) as Hr. unfold mspec, startedB in *.
      destruct (svcEffects e conf sc [VServerStart] (connected b)) as [[? b'] t]. by rewrite R2 in Hr. }
  mstep. unfold mspec in *. destruct (svcEffects e conf sc t b) as [[? b'] t']. cbn. by rewrite app_nil_r.
Qed.

Lemma closeAll_trace n v : closeAll n v = (tt, v, repeat VCloseKeyLog n).
Proof. induction n as [|n IH]; [done|]. cbn. unfold mbind'. by rewrite IH. Qed.

Lemma Service_Stop_trace v :
  Service_Stop v = (tt, v, [VManagerStop; VClientStop; VServerStop] ++ VMonStop :: repeat VCloseKeyLog (closers v)).
Proof. unfold Service_Stop, mbind', memit, mget. rewrite closeAll_trace. done. Qed.

Lemma Server_Stop_trace s :
  trace_of (Server_Stop s) = (if sipSrv s then [SCloseServer] else []) ++ map SCloseListener (sipListeners s).
Proof. unfold Server_Stop, mbind', mget, mwhen, memit, mreturn. destruct (sipSrv s); by rewrite closeListeners_trace. Qed.

Lemma stop_trace b s : servedBy (map (srvEffect b) (trace_of (Server_Stop s))) = [] /\ opened (trace_of (Server_Stop s)) = [].
Proof. rewrite Server_Stop_trace. by destruct (sipSrv s); induction (sipListeners s). Qed.

Lemma stopParts_spec b :
  mspec (svcEffects e conf sc [VManagerStop; VClientStop; VServerStop]) b (fun _ _ t =>
    servedBy t = [] /\ openedB t = [] /\ closedB t = sipListeners (bt_server b)).
Proof.
  cbn [svcEffects]. unfold svcEffect, mspec, mbind', memit, mreturn, onClient, onServer.
  pose proof (silent_map BClient (trace_of (Client_Stop (bt_client b))) ltac:(done)) as (C1 & C2 & C3).
  destruct (Client_Stop (bt_client b)) as [[u c] t1]. cbn [bt_server set_parts].
  set (b1 := set_parts c (bt_server b) (bt_svc b) b).
  pose proof (Server_Stop_closes (bt_server b)) as Hcl. destruct (stop_trace b1 (bt_server b)) as [S1 S2].
  destruct (server_trace b1 (trace_of (Server_Stop (bt_server b)))) as (T1 & T2 & _).
  destruct (Server_Stop (bt_server b)) as [[u' s'] t2]. unfold trace_of in *. cbn [snd] in *.
  rewrite ?app_nil_r, ?servedBy_app, ?openedB_app, ?closedB_app, C1, C2, C3, S1, T1, S2, T2, Hcl. done.
Qed.

(** Stopping the service closes the listeners of the server, in order, and opens none. *)
Lemma stopService_spec b :
  mspec (onService e conf sc Service_Stop) b (fun _ _ t =>
    servedBy t = [] /\ openedB t = [] /\ closedB t = sipListeners (bt_server b)).
Proof.
  unfold onService. mstep. mstep. rewrite Service_Stop_trace. mstep.
  pose proof (stopParts_spec b) as Hp. unfold mspec at 1. rewrite svcEffects_app. unfold mbind' at 1. unfold mspec in Hp.
  destruct (svcEffects e conf sc [VManagerStop; VClientStop; VServerStop] b) as [[? b1] t1].
  assert (Forall (fun ef => inert ef = true) (VMonStop :: repeat VCloseKeyLog (closers (bt_svc b)))) as Hi.
  { constructor; [done|]. by induction (closers (bt_svc b)); cbn; constructor. }
  rewrite (svcEffects_inert _ _ Hi). destruct (silent_map BSvc (VMonStop :: repeat VCloseKeyLog (closers (bt_svc b))) ltac:(done)) as (M1 & M2 & M3).
  mstep. mstep. mstep. rewrite ?app_nil_r, app_nil_l, servedBy_app, openedB_app, closedB_app, M1, M2, M3, !app_nil_r. exact Hp.
Qed.

(** [Run]'s effects: only the stop of the SIP service concerns the listeners. *)
Lemma runEffects_spec l b : (countb isStopSIP l <= 1)%nat ->
  mspec (runEffects e conf sc l) b (fun _ _ t =>
    servedBy t = [] /\ openedB t = [] /\
    closedB t = match countb isStopSIP l with O => [] | _ => sipListeners (bt_server b) end).
Proof.
  revert b. induction l as [|ef l IH]; intros b Hc; [done|]. cbn [runEffects]. mstep. mstep. mstep.
  rewrite countb_cons in *.
  destruct (isStopSIP ef) eqn:Es.
  - destruct ef; try done. pose proof (stopService_spec b) as Hs. unfold mspec at 1. unfold mspec in Hs.
    destruct (onService e conf sc Service_Stop b) as [[? b1] t1]. specialize (IH b1). unfold mspec in *.
    destruct (runEffects e conf sc l b1) as [[? b2] t2]. destruct IH as (I1 & I2 & I3); [lia|].
    assert (countb isStopSIP l = 0%nat) as E by lia. rewrite E in *. destruct Hs as (S1 & S2 & S3).
    rewrite !servedBy_app, !openedB_app, !closedB_app, I1, I2, I3, S1, S2, S3. cbn. by rewrite app_nil_r.
  - assert (forall b1, bt_server b1 = bt_server b -> mspec (runEffects e conf sc l) b1 (fun _ _ t2 =>
      servedBy ([BRun ef] ++ [] ++ t2) = [] /\ openedB ([BRun ef] ++ [] ++ t2) = [] /\
      closedB ([BRun ef] ++ [] ++ t2) = match (0 + countb isStopSIP l)%nat with O => [] | _ => sipListeners (bt_server b) end)) as Hn.
    { intros b1 Eb. specialize (IH b1 ltac:(lia)). rewrite Eb in IH. exact IH. }
    destruct ef; try done; mstep; by apply Hn.
Qed.

Definition bootQ (r : option (option error)) (t : list BEffect) : Prop :=
  Forall (fun p => ready p.2 /\ bt_rpc p.2 = false) (servedBy t) /\
  closedB t = match r with Some None => openedB t | _ => [] end.

Lemma runProcess_spec b : mspec (runProcess e conf sc) b (fun r _ t =>
  servedBy t = [] /\ openedB t = [] /\ closedB t = match r with Some None => sipListeners (bt_server b) | _ => [] end).
Proof.
  unfold runProcess.
  pose proof (Run_balanced conf (be_prom e) (be_pprof e) (be_health e) (be_rpc e) (be_reg e) (be_request e)) as Hb.
  destruct (Run conf _ _ _ _ _ _) as [t r]. unfold balanced in Hb. cbn [fst snd] in Hb.
  assert (countb isStopSIP t = match r with Some None => 1 | _ => 0 end)%nat as Hc.
  { destruct r as [res|]; [destruct Hb as (_ & _ & _ & ->); by destruct res|].
    enough (countb isStopSIP t <= countb isRelease t)%nat by lia. clear. induction t as [|ef t IH]; [done|].
    rewrite !countb_cons. destruct ef; cbn; lia. }
  mstep. pose proof (runEffects_spec t b) as Hr. rewrite Hc in Hr. unfold mspec in *.
  destruct (runEffects e conf sc t b) as [[u b'] t']. cbn. rewrite app_nil_r.
  destruct r as [[err|]|]; apply Hr; lia.
Qed.

Lemma launch_spec b :
  is_Some (bt_manager b) -> bt_handler b = true -> sipListeners (bt_server b) = [] -> bt_rpc b = false ->
  mspec (let* err := startService e conf sc in
         match err with
         | Some err => mreturn (Some (Some err))
         | None => do* memit BSignalLoop in runProcess e conf sc
         end)%go b (fun r _ t => bootQ r t).
Proof.
  intros Hm Hh Hl Hr. mstep. pose proof (startService_spec b Hm Hh Hl) as Hs. unfold mspec in Hs. unfold mspec at 1.
  destruct (startService e conf sc b) as [[err b1] t1]. destruct Hs as (S1 & S2 & S3 & S4). rewrite Hr in S1.
  destruct err as [err|]; [by mstep; rewrite app_nil_r; split|].
  mstep. mstep. pose proof (runProcess_spec b1) as Hp. unfold mspec in *.
  destruct (runProcess e conf sc b1) as [[r b2] t2]. destruct Hp as (P1 & P2 & P3).
  unfold bootQ. rewrite !servedBy_app, !openedB_app, !closedB_app, P1, P2, P3, S2, S3. cbn. rewrite !app_nil_r.
  split; [done|]. by destruct r as [[err|]|].
Qed.
End boot_proofs.

Lemma runService_bootQ `{AEAD} `{ErrorText} e : mspec (runService e) boot0 (fun r _ t => bootQ r t).
Proof.
  assert (forall (err : error) t, silentB t -> bootQ (Some (Some err)) t) as Hq.
  { intros err t (S1 & _ & S3). split; [rewrite S1; constructor | done]. }
  unfold runService, attempt.
  destruct (getConfig _ _ _ _ _ _ _ _) as [conf|err]; [|by mstep; apply Hq].
  mstep. mstep. destruct (be_redis e); [by mstep; apply Hq|].
  mstep. mstep. destruct (be_io e); [by mstep; apply Hq|].
  mstep. mstep. mstep. mstep. destruct (be_monitor e); [by mstep; apply Hq|].
  destruct (NewAESGCM [be_rand e]) as [err|s]; [by mstep; apply Hq|]. cbn [NewCallManager newCallManager].
  mstep. mstep. destruct (NewService _ _ _) as [[conf' sc]|err]; [|by mstep; apply Hq].
  mstep. mstep. by apply launch_spec.
Qed.

Lemma served_ready `{AEAD} `{ErrorText} e l b :
  (l, b) ∈ servedBy (trace_of (runService e boot0)) -> ready b /\ bt_rpc b = false.
Proof.
  pose proof (runService_bootQ e) as Hm. unfold mspec in Hm. destruct (runService e boot0) as [[r b1] t].
  intros Hl. by apply (proj1 (list.Forall_forall _ _) (proj1 Hm) (l, b)).
Qed.

(** C28: Starting and ending the program, whatever fails on the way.  No request is handled
    before the call manager is complete: when a listener begins to serve, the manager has
    its maps, transport, client, configuration and handler, and the client its connection;
    the RPC server of the process does not exist yet.  If the program ends without an
    error, the listeners it opened are closed, in the order in which they were opened; if
    it ends with one or still runs, it has closed none. *)
Theorem boot_life `{AEAD} `{ErrorText} e :
  let '(r, _, t) := runService e boot0 in
  (forall l b, (l, b) ∈ servedBy t -> ready b /\ bt_rpc b = false) /\
  closedB t = match r with Some None => openedB t | _ => [] end.
Proof.
  pose proof (runService_bootQ e) as Hm. pose proof (served_ready e) as Hr. unfold mspec in Hm.
  destruct (runService e boot0) as [[r b] t]. split; [exact Hr | exact (proj2 Hm)].
Qed.

(** A call that is answered before the process has its RPC server is not joined to its
    room: registering the topic of its transfers fails, and with it the participant, for
    every call handled by a listener before [Run] has come that far. *)
Theorem early_call_not_joined `{AEAD} `{ErrorText} e l b confUrl keys rconf extra an sa reg build join lp r1 r2 k :
  (l, b) ∈ servedBy (trace_of (runService e boot0)) ->
  createLiveKitParticipant confUrl keys rconf extra an sa None (RegisterTransferSIPParticipantTopic (bt_rpc b) reg)
    build join lp r1 r2 k = (Some (NewErrorf Internal "RPC server not started"), k, [KRegister]).
Proof. intros [_ ->]%served_ready. done. Qed.

(** The names of the health states, as the health server answers them. *)
Lemma healthAnswer_names :
  map healthAnswer [HealthOK; HealthNotStarted; HealthStopped; HealthUnderLoad; HealthDisabled] =
  [(200, "OK"); (503, "NotStarted"); (503, "Stopped"); (429, "UnderLoad"); (503, "Disabled")].
Proof. reflexivity. Qed.

(** ** Example: a process that starts, serves and is stopped while no call is left *)
#[local] Existing Instance exErrorText.
#[local] Existing Instance toyAEAD.

Definition exIP : Addr := Addr4 167772161.

Definition exBoot (prom : option error) : BootEnv :=
  {| be_configFile := ""; be_configBody := "body"; be_readFile := fun _ => inr (EText "no file"); be_getenv := fun _ => "";
     be_unmarshal := fun _ _ => inl exampleConfig; be_node := "NE_1"; be_logger := None; be_redis := None; be_io := None;
     be_monitor := None; be_rand := "key"; be_disableCache := false;
     be_sconf := inl {| SignalingIP := exIP; SignalingIPLocal := exIP; MediaIP := exIP |}; be_text := "10.0.0.1";
     be_known := []; be_unsafe := []; be_loadCert := fun _ => None; be_monStart := None; be_keyLog := None; be_ua := None;
     be_getClient := None; be_ParseAddr := fun _ => inl exIP; be_newServer := None; be_udp := None; be_tcp := None;
     be_tls := None; be_prom := prom; be_pprof := None; be_health := None; be_rpc := None; be_reg := None;
     be_request := Some (false, [(false, {| ac_Inbound := 0; ac_Outbound := 0; SampleIDs := [] |})]) |}.

Lemma boot_example :
  result_of (runService (exBoot None) boot0) = Some None /\
  length (closedB (trace_of (runService (exBoot None) boot0))) = 2%nat /\
  length (servedBy (trace_of (runService (exBoot None) boot0))) = 2%nat.
Proof. vm_compute. done. Qed.
