(* ===== verification/Metrics.v ===== *)
(** * Prometheus metrics

    [Monitor] of [pkg/stats/monitor.go]: the metrics it registers, their labels, and the label
    sets with which the code asks for a series.  Prometheus panics when the labels given
    are not the ones the metric was declared with, when the buckets of a histogram do not
    grow, and when a metric cannot be registered.  The call counters of [Monitor.v] are
    taken from there: [series] says which series each of its effects is. *)

From stdpp Require Import base tactics list gmap sets strings option.
From Stdlib Require Import ZArith QArith Lia.
From S2P Require Import Prelude GoStd Participant Monitor.
Import strings.
Local Open Scope Z_scope.

(** ** The metrics *)
Inductive Metric :=
| M_inviteReqRaw | M_inviteReq | M_inviteAccept | M_inviteErr | M_callsActive | M_callsTerminated
| M_callsTerminationFailures | M_packetsRTP | M_durSession | M_durCall | M_durCheck | M_durJoin | M_durSetup | M_durStage
| M_sdpSize | M_sdpParsed | M_sdpParseErrors | M_codecOffered | M_nodeAvailable | M_cpuLoad
| M_transfersTotal | M_transfersSucceeded | M_transfersFailed | M_transfersActive.

#[global] Instance Metric_eq_dec : EqDecision Metric.
Proof. solve_decision. Defined.

Definition durBucketsOp : list Q := [(1 # 10); (1 # 2); 1; (5 # 2); 5; 10; 20; 30; 60; 3 * 60]%Q.
Definition durBucketsLong : list Q := [1; 10; 60; 10 * 60; 30 * 60; 3600; 6 * 3600; 12 * 3600; 24 * 3600]%Q.
Definition sizeBuckets : list Q := [100; 250; 500; 750; 1000; 1250; 1500]%Q.

Inductive Kind := Counter | Gauge | GaugeFunc | Histogram (buckets : list Q).

Record Desc := { d_kind : Kind; d_fqName : string; d_labels : list string }.

Definition sipName (n : string) : string := "livekit_sip_" +:+ n.

(** The declarations of the counters and gauges. *)
Definition descCounters (m : Metric) : option Desc :=
  match m with
  | M_inviteReqRaw => Some {| d_kind := Counter; d_fqName := sipName "invite_requests_raw"; d_labels := [] |}
  | M_inviteReq => Some {| d_kind := Counter; d_fqName := sipName "invite_requests"; d_labels := ["dir"] |}
  | M_inviteAccept => Some {| d_kind := Counter; d_fqName := sipName "invite_accepted"; d_labels := ["dir"; "to"; "provider"] |}
  | M_inviteErr => Some {| d_kind := Counter; d_fqName := sipName "invite_error"; d_labels := ["dir"; "to"; "provider"; "reason"] |}
  | M_callsActive => Some {| d_kind := Gauge; d_fqName := sipName "calls_active"; d_labels := ["dir"; "to"; "provider"] |}
  | M_callsTerminated =>
      Some {| d_kind := Counter; d_fqName := sipName "calls_terminated"; d_labels := ["dir"; "to"; "provider"; "result"; "reason"] |}
  | M_callsTerminationFailures =>
      Some {| d_kind := Counter; d_fqName := sipName "calls_termination_failures"; d_labels := ["dir"] |}
  | M_packetsRTP => Some {| d_kind := Counter; d_fqName := sipName "packets_rtp"; d_labels := ["dir"; "to"; "op"; "payload"] |}
  | _ => None
  end.

(** The declarations of the durations and sizes. *)
Definition descDurations (m : Metric) : option Desc :=
  match m with
  | M_durSession => Some {| d_kind := Histogram durBucketsLong; d_fqName := sipName "dur_session_sec"; d_labels := ["dir"] |}
  | M_durCall => Some {| d_kind := Histogram durBucketsLong; d_fqName := sipName "dur_call_sec"; d_labels := ["dir"] |}
  | M_durCheck => Some {| d_kind := Histogram durBucketsOp; d_fqName := sipName "dur_check_sec"; d_labels := ["dir"] |}
  | M_durJoin => Some {| d_kind := Histogram durBucketsOp; d_fqName := sipName "dur_join_sec"; d_labels := ["dir"; "provider"] |}
  | M_durSetup => Some {| d_kind := Histogram durBucketsOp; d_fqName := sipName "dur_setup_sec"; d_labels := ["dir"; "outcome"] |}
  | M_durStage => Some {| d_kind := Histogram durBucketsOp; d_fqName := sipName "stage_dur_sec"; d_labels := ["dir"; "stage"] |}
  | M_sdpSize => Some {| d_kind := Histogram sizeBuckets; d_fqName := sipName "sdp_size_bytes"; d_labels := ["type"; "source"] |}
  | _ => None
  end.

(** The others. *)
Definition descOthers (m : Metric) : option Desc :=
  match m with
  | M_sdpParsed => Some {| d_kind := Counter; d_fqName := sipName "sdp_parsed_total"; d_labels := ["dir"; "provider"; "reinvite"] |}
  | M_sdpParseErrors =>
      Some {| d_kind := Counter; d_fqName := sipName "sdp_parse_errors_total"; d_labels := ["dir"; "provider"; "reason"] |}
  | M_codecOffered =>
      Some {| d_kind := Counter; d_fqName := sipName "codec_offered_total"; d_labels := ["dir"; "provider"; "codec"; "reinvite"] |}
  | M_nodeAvailable => Some {| d_kind := GaugeFunc; d_fqName := sipName "available"; d_labels := [] |}
  | M_cpuLoad => Some {| d_kind := Gauge; d_fqName := "livekit_node_cpu_load"; d_labels := [] |}
  | M_transfersTotal => Some {| d_kind := Counter; d_fqName := sipName "transfers_total"; d_labels := ["dir"] |}
  | M_transfersSucceeded => Some {| d_kind := Counter; d_fqName := sipName "transfers_succeeded_total"; d_labels := ["dir"] |}
  | M_transfersFailed => Some {| d_kind := Counter; d_fqName := sipName "transfers_failed_total"; d_labels := ["dir"; "reason"] |}
  | M_transfersActive => Some {| d_kind := Gauge; d_fqName := sipName "transfers_active"; d_labels := ["dir"] |}
  | _ => None
  end.

Definition noDesc : Desc := {| d_kind := Counter; d_fqName := ""; d_labels := [] |}.

Definition desc (m : Metric) : Desc := default noDesc (orElse (descCounters m) (orElse (descDurations m) (descOthers m))).

(** In the order of [Start]. *)
Definition allMetrics : list Metric :=
  [M_inviteReqRaw; M_inviteReq; M_inviteAccept; M_inviteErr; M_callsActive; M_callsTerminated; M_callsTerminationFailures;
   M_packetsRTP; M_durSession; M_durCall; M_durCheck; M_durJoin; M_durSetup; M_durStage; M_sdpSize; M_sdpParsed;
   M_sdpParseErrors; M_codecOffered; M_nodeAvailable; M_cpuLoad; M_transfersTotal; M_transfersSucceeded; M_transfersFailed;
   M_transfersActive].

(** ** Registration *)

(** A collector of the process-wide registry: the runtime's that Prometheus registers
    itself, the runtime's with all its metrics, or a metric of a node. *)
Inductive Collector := GoDefault | GoAll | NodeMetric (fqName node : string).

#[global] Instance Collector_eq_dec : EqDecision Collector.
Proof. solve_decision. Defined.

Record Monitor := { m_node : string; m_metrics : list Collector; m_started : bool; m_shutdown : bool }.

Definition NewMonitor (node : string) : Monitor := {| m_node := node; m_metrics := []; m_started := false; m_shutdown := false |}.

(** [Unregister] and [Register] of the registry; the latter fails on a collector that is
    there, and [mustRegister] then uses that one. *)
Definition unregister (c : Collector) (reg : list Collector) : list Collector := List.filter (fun x => negb (bool_decide (x = c))) reg.

Definition mustRegister (c : Collector) (st : list Collector * list Collector) : list Collector * list Collector :=
  let '(reg, own) := st in
  if bool_decide (c ∈ reg) then (reg, own) else (reg ++ [c], own ++ [c]).

Definition collectorOf (node : string) (m : Metric) : Collector := NodeMetric (d_fqName (desc m)) node.

Definition Monitor_Start (reg : list Collector) (m : Monitor) : list Collector * Monitor :=
  let st := mustRegister GoAll (unregister GoDefault reg, m_metrics m) in
  let '(reg', own) := fold_left (fun st x => mustRegister (collectorOf (m_node m) x) st) allMetrics st in
  (reg', {| m_node := m_node m; m_metrics := own; m_started := true; m_shutdown := m_shutdown m |}).

Definition Monitor_Shutdown (m : Monitor) : Monitor :=
  {| m_node := m_node m; m_metrics := m_metrics m; m_started := m_started m; m_shutdown := true |}.

Definition Monitor_Stop (reg : list Collector) (m : Monitor) : list Collector * Monitor :=
  (fold_left (fun r c => unregister c r) (m_metrics m) reg,
   {| m_node := m_node m; m_metrics := []; m_started := m_started m; m_shutdown := m_shutdown m |}).

(** The gauge of the node's availability. *)
Definition available (h : HealthStatus) : Z := match h with HealthOK => 1 | _ => 0 end.

(** ** Series *)
Abbreviation Labels := (gmap string string).

(** The labels given are merged over the call's own, as the loops over the map do. *)
Definition labelsShort (dir : string) (l : Labels) : Labels := l ∪ {[ "dir" := dir ]}.
Definition labels (dir to : string) (l : Labels) : Labels := l ∪ (<["dir" := dir]> {[ "to" := to ]}).

(** A use of a metric: by label map ([With]) or by values in order ([WithLabelValues]). *)
Inductive Use := With (m : Metric) (l : Labels) | WithValues (m : Metric) (values : list string) | Plain (m : Metric).

(** The series of the effects of [Monitor.v]. *)
Definition series (e : MEffect) : Use :=
  match e with
  | InviteReqInc dir => With M_inviteReq (labelsShort dir ∅)
  | InviteAcceptInc dir to provider => With M_inviteAccept (labels dir to {[ "provider" := provider ]})
  | InviteErr dir to provider reason =>
      With M_inviteErr (labels dir to (<["reason" := reason]> {[ "provider" := provider ]}))
  | CallsActive dir to provider _ => With M_callsActive (labels dir to {[ "provider" := provider ]})
  | CallsTerminated dir to provider result reason =>
      With M_callsTerminated (labels dir to (<["provider" := provider]> (<["result" := stats.result_label result]> {[ "reason" := reason ]})))
  end.

(** The other uses by a call. *)
Inductive CallUse :=
| UTerminationFailure
| URTPPacketSend (payloadType : string) | URTPPacketRecv (payloadType : string)
| UStage (stage : string) | USessionDur | UCallDur | UCheckDur | UJoinDur | USetupDur (answered : bool)
| UPeerSDP (names : list string) (reinvite : bool)
| USDPSize (isOffer isFromRemote : bool)
| USDPParsePanic | USDPParseError.

Definition FormatBool (b : bool) : string := if b then "true" else "false".

Definition StageDur (dir stage : string) : Use := With M_durStage (labelsShort dir {[ "stage" := stage ]}).

Definition callUse (c : CallMonitor) (u : CallUse) : list Use :=
  let dir := mon_dir c in
  match u with
  | UTerminationFailure => [With M_callsTerminationFailures (labelsShort dir ∅)]
  | URTPPacketSend p => [With M_packetsRTP (labels dir (mon_to c) (<["op" := "send"]> {[ "payload" := p ]}))]
  | URTPPacketRecv p => [With M_packetsRTP (labels dir (mon_to c) (<["op" := "recv"]> {[ "payload" := p ]}))]
  | UStage s => [StageDur dir s]
  | USessionDur => [With M_durSession (labelsShort dir ∅); StageDur dir "session"]
  | UCallDur => [With M_durCall (labelsShort dir ∅); StageDur dir "call"]
  | UCheckDur => [With M_durCheck (labelsShort dir ∅); StageDur dir "auth-check"]
  | UJoinDur => [StageDur dir "invite-to-dispatch"; With M_durJoin (labelsShort dir {[ "provider" := mon_providerLabel c ]})]
  | USetupDur answered =>
      [With M_durSetup (labelsShort dir {[ "outcome" := if answered then "answered" else "abandoned" ]})]
  | UPeerSDP names reinvite =>
      let provider := mon_providerLabel c in
      With M_sdpParsed (<["dir" := dir]> (<["provider" := provider]> {[ "reinvite" := FormatBool reinvite ]})) ::
      map (fun name => With M_codecOffered (<["dir" := dir]> (<["provider" := provider]> (<["codec" := name]>
                         {[ "reinvite" := FormatBool reinvite ]})))) names
  | USDPSize isOffer isFromRemote =>
      [WithValues M_sdpSize [if isOffer then "offer" else "answer"; if isFromRemote then "remote" else "local"]]
  | USDPParsePanic =>
      [With M_sdpParseErrors (<["dir" := dir]> (<["provider" := mon_providerLabel c]> {[ "reason" := "panic" ]}))]
  | USDPParseError =>
      [With M_sdpParseErrors (<["dir" := dir]> (<["provider" := mon_providerLabel c]> {[ "reason" := "other" ]}))]
  end.

(** The uses by the monitor itself; [changeActive] is the flag of [TransferFailed]. *)
Inductive NodeUse :=
| UInviteReqRaw | UTransferStarted (d : CallDir) | UTransferSucceeded (d : CallDir)
| UTransferFailed (d : CallDir) (reason : string) (changeActive : bool).

Definition nodeUse (u : NodeUse) : list Use :=
  match u with
  | UInviteReqRaw => [Plain M_inviteReqRaw]
  | UTransferStarted d => [WithValues M_transfersTotal [CallDir_String d]; WithValues M_transfersActive [CallDir_String d]]
  | UTransferSucceeded d => [WithValues M_transfersSucceeded [CallDir_String d]; WithValues M_transfersActive [CallDir_String d]]
  | UTransferFailed d reason changeActive =>
      WithValues M_transfersFailed [CallDir_String d; reason] ::
      (if changeActive then [WithValues M_transfersActive [CallDir_String d]] else [])
  end.

(** * Theorems *)

(** ** Labels and buckets *)
Definition useOK (u : Use) : Prop :=
  match u with
  | With m l => dom l = list_to_set (C := gset string) (d_labels (desc m))
  | WithValues m values => length values = length (d_labels (desc m))
  | Plain m => d_labels (desc m) = []
  end.

Fixpoint increasing (l : list Q) : bool :=
  match l with
  | a :: ((b :: _) as l') => negb (Qle_bool b a) && increasing l'
  | _ => true
  end.

Definition bucketsOK (k : Kind) : bool := match k with Histogram b => increasing b | _ => true end.

Ltac solve_labels := unfold useOK, labelsShort, labels, StageDur; cbn -[union insert singletonM dom]; set_solver.

Lemma series_ok e : useOK (series e).
Proof. destruct e; solve_labels. Qed.

Lemma callUse_ok c u : Forall useOK (callUse c u).
Proof.
  destruct u as [|p|p|s| | | | |a|names r|o f| |]; cbn [callUse]; repeat first [apply List.Forall_nil|apply List.Forall_cons];
    try solve_labels; try done.
  induction names as [|name names IH]; [apply List.Forall_nil|]. apply List.Forall_cons; [solve_labels|exact IH].
Qed.

Lemma nodeUse_ok u : Forall useOK (nodeUse u).
Proof. destruct u as [|d|d|d r []]; cbn [nodeUse]; repeat first [apply List.Forall_nil|apply List.Forall_cons]; done. Qed.

Lemma metrics_all : NoDup (map (fun m => d_fqName (desc m)) allMetrics) /\ (forall m, m ∈ allMetrics).
Proof.
  split; [apply (bool_decide_unpack _); vm_compute; reflexivity|].
  intros m. destruct m; apply (bool_decide_unpack _); vm_compute; reflexivity.
Qed.

(** No metric makes the process panic.  Every series that the code asks for, by a call
    in any state or by the node, is asked for with exactly the labels its metric was
    declared with; the buckets of every histogram grow, and no two metrics have the same
    name. *)
Theorem metrics_declared :
  (forall e, useOK (series e)) /\ (forall c u, Forall useOK (callUse c u)) /\ (forall u, Forall useOK (nodeUse u)) /\
  forallb (fun m => bucketsOK (d_kind (desc m))) allMetrics = true /\
  NoDup (map (fun m => d_fqName (desc m)) allMetrics) /\ (forall m, m ∈ allMetrics).
Proof.
  split_and!; [apply series_ok|apply callUse_ok|apply nodeUse_ok|vm_compute; reflexivity|apply metrics_all..].
Qed.

(** ** Registration *)

(** What [mustRegister] keeps: the registry is what was there and what is own. *)
Record ownsInv (reg0 : list Collector) (st : list Collector * list Collector) : Prop := {
  ow_reg : st.1 = reg0 ++ st.2;
  ow_new : forall c, c ∈ st.2 -> c ∉ reg0;
}.

Lemma mustRegister_owns reg0 c st : ownsInv reg0 st -> ownsInv reg0 (mustRegister c st) /\ c ∈ (mustRegister c st).1.
Proof.
  destruct st as [reg own]. intros [Er En]. cbn in *. unfold mustRegister. subst reg.
  destruct (bool_decide_reflect (c ∈ reg0 ++ own)) as [Hin|Hin]; [by split|]. cbn. split; [|set_solver].
  split; cbn; [by rewrite app_assoc|]. intros x [Hx|Hx]%elem_of_app; [by apply En|].
  apply list_elem_of_singleton in Hx as ->. set_solver.
Qed.

Lemma registerAll_owns reg0 (f : Metric -> Collector) l : forall st,
  ownsInv reg0 st ->
  let st' := fold_left (fun st x => mustRegister (f x) st) l st in
  ownsInv reg0 st' /\ (forall c, c ∈ st.1 -> c ∈ st'.1) /\ (forall x, x ∈ l -> f x ∈ st'.1).
Proof.
  induction l as [|x l IH]; intros st Hst; cbn [fold_left]; [split_and!; [done|done|by intros x ?%elem_of_nil]|].
  destruct (mustRegister_owns reg0 (f x) st Hst) as [H1 H2]. destruct (IH _ H1) as (I1 & I2 & I3). split_and!; [done|..].
  - intros c Hc. apply I2. unfold mustRegister. destruct st as [reg own]. cbn in *.
    destruct (bool_decide (f x ∈ reg)); [done|]. cbn. set_solver.
  - intros y [->|Hy]%elem_of_cons; auto.
Qed.

Lemma unregister_absent c reg : c ∉ reg -> unregister c reg = reg.
Proof.
  unfold unregister. induction reg as [|x reg IH]; [done|]. intros Hn. cbn.
  destruct (bool_decide_reflect (x = c)); [set_solver|]. cbn. rewrite IH; [done|set_solver].
Qed.

Lemma unregister_app c r1 r2 : unregister c (r1 ++ r2) = unregister c r1 ++ unregister c r2.
Proof. apply List.filter_app. Qed.

(** Taking back what is own leaves what was there. *)
Lemma unregister_own own : forall reg0 rest,
  (forall c, c ∈ own -> c ∉ reg0) -> (forall c, c ∈ rest -> c ∈ own) ->
  fold_left (fun r c => unregister c r) own (reg0 ++ rest) = reg0.
Proof.
  induction own as [|c own IH]; intros reg0 rest Hn Hr; cbn [fold_left].
  - destruct rest as [|x rest]; [apply app_nil_r|]. specialize (Hr x ltac:(left)). by apply elem_of_nil in Hr.
  - rewrite unregister_app, unregister_absent by (apply Hn; left). apply IH; [intros x Hx; apply Hn; by right|].
    intros x Hx. unfold unregister in Hx. apply list_elem_of_In, filter_In in Hx as [Hx Hne].
    apply list_elem_of_In in Hx. apply Hr in Hx. apply elem_of_cons in Hx as [->|Hx]; [|done].
    by destruct (bool_decide_reflect (c = c)).
Qed.

(** A monitor takes back what it registered.  Whatever is registered in the process,
    also the metrics of another monitor with the same node: after [Start] every metric the
    code uses is registered, and [Stop] leaves the registry as it was, but for the default
    runtime collector that [Start] replaces; [Shutdown] only stops the node from reporting
    that it is available. *)
Theorem monitor_lifecycle reg node :
  let '(reg1, m1) := Monitor_Start reg (NewMonitor node) in
  (forall x, collectorOf node x ∈ reg1) /\
  (Monitor_Stop reg1 m1).1 = unregister GoDefault reg /\
  (Monitor_Stop reg1 (Monitor_Shutdown m1)).1 = unregister GoDefault reg /\
  forall idle cpus max,
    available (Health (m_started m1) (m_shutdown (Monitor_Shutdown m1)) idle cpus max) = 0 /\
    available (Health (m_started (NewMonitor node)) (m_shutdown (NewMonitor node)) idle cpus max) = 0.
Proof.
  unfold Monitor_Start. cbn [m_metrics NewMonitor m_node m_shutdown].
  set (reg0 := unregister GoDefault reg).
  assert (ownsInv reg0 (reg0, [])) as H0 by (split; cbn; [by rewrite app_nil_r|by intros c ?%elem_of_nil]).
  destruct (mustRegister_owns reg0 GoAll _ H0) as [H1 _].
  destruct (registerAll_owns reg0 (collectorOf node) allMetrics _ H1) as (I1 & _ & I3).
  destruct (fold_left _ allMetrics _) as [reg1 own]. destruct I1 as [Er En]. cbn in Er, En, I3. subst reg1.
  assert (fold_left (fun r c => unregister c r) own (reg0 ++ own) = reg0) as Eo by (apply unregister_own; auto).
  split_and!; [intros x; apply I3|exact Eo|exact Eo|done].
  destruct metrics_all as [_ Ha]. apply Ha.
Qed.
