(* ===== verification/Tracing.v ===== *)
(** * Versions reported with traces

    [pkg/sip/otel.go]: the attributes of the tracer, which name the versions of the service
    and of the SIP libraries it was built with.  What the build recorded is an argument. *)

From stdpp Require Import base tactics list sets strings option.
From S2P Require Import Prelude.

(** [debug.Module]; a module that was replaced carries the other's version. *)
Record Module_ := { mod_Path : string; mod_Version : string; mod_Replace : option string }.

Definition appendVersionAttr (out : list (string * string)) (m : Module_) : list (string * string) :=
  if String.eqb (mod_Path m) "github.com/livekit/sip" then out ++ [("livekit.sip.version", mod_Version m)]
  else if String.eqb (mod_Path m) "github.com/livekit/sipgo" then
    out ++ [("livekit.sipgo.proto.version", mod_Version m)]
  else if String.eqb (mod_Path m) "github.com/emiago/sipgo" then
    out ++ [("livekit.sipgo.parser.version", default (mod_Version m) (mod_Replace m))]
  else out.

(** [info]: the main module and the dependencies, if the build recorded them. *)
Definition getSIPVersions (info : option (Module_ * list Module_)) : list (string * string) :=
  match info with
  | None => []
  | Some (main, deps) => fold_left appendVersionAttr deps (appendVersionAttr [] main)
  end.

(** ** Theorems *)

(** The module behind an attribute, and the version that is shown of it. *)
Definition moduleOf (attr : string) : option string :=
  if String.eqb attr "livekit.sip.version" then Some "github.com/livekit/sip"
  else if String.eqb attr "livekit.sipgo.proto.version" then Some "github.com/livekit/sipgo"
  else if String.eqb attr "livekit.sipgo.parser.version" then Some "github.com/emiago/sipgo"
  else None.

Definition shownVersion (m : Module_) : string :=
  if String.eqb (mod_Path m) "github.com/emiago/sipgo" then default (mod_Version m) (mod_Replace m) else mod_Version m.

Lemma appendVersionAttr_in out m a v :
  (a, v) ∈ appendVersionAttr out m <-> (a, v) ∈ out \/ (moduleOf a = Some (mod_Path m) /\ v = shownVersion m).
Proof.
  unfold appendVersionAttr, shownVersion, moduleOf.
  destruct (String.eqb_spec (mod_Path m) "github.com/livekit/sip") as [->|N1];
    [|destruct (String.eqb_spec (mod_Path m) "github.com/livekit/sipgo") as [->|N2];
    [|destruct (String.eqb_spec (mod_Path m) "github.com/emiago/sipgo") as [->|N3]]];
    rewrite ?elem_of_app, ?list_elem_of_singleton;
    destruct (String.eqb_spec a "livekit.sip.version") as [->|];
    try destruct (String.eqb_spec a "livekit.sipgo.proto.version") as [->|];
    try destruct (String.eqb_spec a "livekit.sipgo.parser.version") as [->|];
    naive_solver.
Qed.

(** An attribute is reported exactly for the modules of the build it is about, with the
    version that was built in. *)
Theorem getSIPVersions_exact main deps a v :
  (a, v) ∈ getSIPVersions (Some (main, deps)) <->
  exists m, m ∈ main :: deps /\ moduleOf a = Some (mod_Path m) /\ v = shownVersion m.
Proof.
  cbn. assert (forall out, (a, v) ∈ fold_left appendVersionAttr deps out <->
    (a, v) ∈ out \/ exists m, m ∈ deps /\ moduleOf a = Some (mod_Path m) /\ v = shownVersion m) as Hf.
  { induction deps as [|d deps IH]; intros out; cbn; [set_solver|].
    rewrite IH, appendVersionAttr_in. set_solver. }
  rewrite Hf, appendVersionAttr_in. set_solver.
Qed.
