(* ===== verification/Opus.v ===== *)
(** * The Opus adapters

    [pkg/media/opus/opus.go]: the encoder that cuts samples into frames, and the decoder
    that tolerates a few bad packets.  The codec is a C library with a state of its own: the outcome of its
    [k]-th call is an argument. *)

From stdpp Require Import base tactics list strings option.
From Stdlib Require Import ZArith Ascii Lia.
From S2P Require Import Prelude GoStd GoErr NetIP.

(** ** The encoder *)
Record encoder := { samples : nat; inbuf : list Z; enc_errors : Z }.

Inductive EEffect :=
| EFrame (frame : list Z)                  (* given to the codec *)
| EWrite (data : list Z)                   (* to the next writer *)
| EClose.

(** [enc k frame]: the codec's [k]-th call; [wr k]: the next writer's [k]-th. *)
Section encode.
Variables (enc : nat -> list Z -> list Z + error) (wr : nat -> option error).

Definition Encode (rate framesPerSec : nat) (newEncoder : option error) : encoder + error :=
  match newEncoder with
  | Some err => inr err
  | None => inl {| samples := rate / framesPerSec; inbuf := []; enc_errors := 0 |}
  end.

(** The loop; [None] is out of fuel. *)
Fixpoint encLoop (fuel k : nat) (e : encoder) : option (option error * encoder * list EEffect) :=
  match fuel with
  | O => None
  | S f =>
      if (length (inbuf e) <? samples e)%nat then Some (None, e, [])
      else
        let frame := take (samples e) (inbuf e) in
        let rest := drop (samples e) (inbuf e) in
        match enc k frame with
        | inr err =>
            let n := if enc_errors e <? 5 then enc_errors e + 1 else enc_errors e in
            Some (Some err, {| samples := samples e; inbuf := rest; enc_errors := n |}, [EFrame frame])
        | inl data =>
            let e' := {| samples := samples e; inbuf := rest; enc_errors := 0 |} in
            match wr k with
            | Some err => Some (Some err, e', [EFrame frame; EWrite data])
            | None =>
                match encLoop f (S k) e' with
                | Some (r, e'', t) => Some (r, e'', EFrame frame :: EWrite data :: t)
                | None => None
                end
            end
        end
  end.

Definition encoder_WriteSample (input : list Z) (e : encoder) : option (option error * encoder * list EEffect) :=
  let e' := {| samples := samples e; inbuf := inbuf e ++ input; enc_errors := enc_errors e |} in
  encLoop (S (length (inbuf e'))) 0 e'.

Definition flush (e : encoder) : option error * list EEffect :=
  match inbuf e with
  | [] => (None, [])
  | _ => match enc 0 (inbuf e) with
         | inr err => (Some err, [EFrame (inbuf e)])
         | inl data => (wr 0, [EFrame (inbuf e); EWrite data])
         end
  end.

(** [cl]: of closing the next writer. *)
Definition encoder_Close (cl : option error) (e : encoder) : option error * list EEffect :=
  let '(err1, t) := flush e in (orElse err1 cl, t ++ [EClose]).
End encode.

(** ** The decoder *)
Record decoder := { dec_errors : Z }.

(** What the codec makes of a packet. *)
Inductive Decoded := DecOk (pcm : list Z) | DecInvalid (e : error) | DecErr (e : error).

(** [w]: of the next writer.  The samples written, if any. *)
Definition decoder_WriteSample (input : list Z) (r : Decoded) (w : option error) (d : decoder)
    : option error * decoder * list (list Z) :=
  match input with
  | [] => (None, d, [])
  | _ =>
      match r with
      | DecErr err => (Some err, d, [])
      | DecInvalid err =>
          if 5 <=? dec_errors d then (Some err, d, [])
          else (None, {| dec_errors := dec_errors d + 1 |}, [])
      | DecOk pcm => (w, {| dec_errors := 0 |}, [pcm])
      end
  end.

Definition CopyTo (src dst : list Z) : (nat * list Z) + error :=
  if (length dst <? length src)%nat then inr (EText "short buffer")
  else inl (length src, src ++ drop (length src) dst).

(** * Theorems *)

(** ** Frames *)
Definition framesOf (t : list EEffect) : list (list Z) := omap (fun e => match e with EFrame f => Some f | _ => None end) t.

(** Enough fuel: the loop returns, it keeps every sample, its frames are full, and without
    an error less than a frame is left. *)
Lemma encLoop_frames enc wr fuel : forall k e,
  (0 < samples e)%nat -> (length (inbuf e) < fuel)%nat ->
  exists r e' t, encLoop enc wr fuel k e = Some (r, e', t) /\ samples e' = samples e /\
    concat (framesOf t) ++ inbuf e' = inbuf e /\
    Forall (fun f => length f = samples e) (framesOf t) /\
    (r = None -> (length (inbuf e') < samples e)%nat).
Proof.
  induction fuel as [|fuel IH]; intros k e Hs Hf; [lia|]. cbn [encLoop].
  destruct (Nat.ltb_spec (length (inbuf e)) (samples e)) as [Hl|Hl].
  { exists None, e, []. split_and!; try done. }
  assert (length (take (samples e) (inbuf e)) = samples e) as Htake by (rewrite length_take; lia).
  destruct (enc k (take (samples e) (inbuf e))) as [data|err].
  2:{ eexists _, _, _. split; [done|]. cbn. rewrite app_nil_r, take_drop. split_and!; try done. by repeat constructor. }
  destruct (wr k) as [err|].
  { eexists _, _, _. split; [done|]. cbn. rewrite app_nil_r, take_drop. split_and!; try done. by repeat constructor. }
  destruct (IH (S k) {| samples := samples e; inbuf := drop (samples e) (inbuf e); enc_errors := 0 |})
    as (r & e' & t & E & Es & Ec & Ef & Er); [done|cbn; rewrite length_drop; lia|].
  cbn [samples inbuf] in *. rewrite E. eexists _, _, _. split; [done|]. unfold framesOf in *. cbn.
  split_and!; try done.
  - by rewrite <- app_assoc, Ec, take_drop.
  - by constructor.
Qed.

(** The writes of a call, one after the other; each has its own outcomes. *)
Fixpoint writes (l : list (list Z * (nat -> list Z -> list Z + error) * (nat -> option error))) (e : encoder)
    : option (encoder * list EEffect) :=
  match l with
  | [] => Some (e, [])
  | (input, enc, wr) :: l' =>
      match encoder_WriteSample enc wr input e with
      | Some (_, e', t) => match writes l' e' with Some (e'', t') => Some (e'', t ++ t') | None => None end
      | None => None
      end
  end.

Lemma writes_frames l : forall e, (0 < samples e)%nat ->
  exists e' t, writes l e = Some (e', t) /\ samples e' = samples e /\
    concat (framesOf t) ++ inbuf e' = inbuf e ++ concat (map (fun w => w.1.1) l) /\
    Forall (fun f => length f = samples e) (framesOf t).
Proof.
  induction l as [|[[input enc] wr] l IH]; intros e Hs; cbn [writes].
  { eexists _, _. split; [done|]. cbn. by rewrite app_nil_r. }
  unfold encoder_WriteSample.
  set (e0 := {| samples := samples e; inbuf := inbuf e ++ input; enc_errors := enc_errors e |}).
  destruct (encLoop_frames enc wr (S (length (inbuf e0))) 0 e0) as (r & e1 & t1 & E1 & S1 & C1 & F1 & _); [done|lia|].
  rewrite E1. destruct (IH e1) as (e2 & t2 & E2 & S2 & C2 & F2); [by rewrite S1|]. rewrite E2.
  eexists _, _. split; [done|]. change (samples e0) with (samples e) in *. rewrite S1 in *.
  unfold framesOf in *. rewrite omap_app, concat_app, <- app_assoc, C2, app_assoc, C1. cbn [inbuf e0].
  split_and!; [done|cbn; by rewrite app_assoc|by apply Forall_app].
Qed.

(** The encoder loses no sample and repeats none.  However the samples of a call are cut
    into writes, and whichever writes fail in the codec or after it, every write returns,
    the frames given to the codec are full, and together with the rest kept for the next
    write they are exactly the samples written, in order; closing encodes the rest, and a
    write that succeeds keeps less than a frame. *)
Theorem encoder_frames l e cl enc wr :
  (0 < samples e)%nat -> inbuf e = [] ->
  exists e' t, writes l e = Some (e', t) /\
    Forall (fun f => length f = samples e) (framesOf t) /\
    concat (framesOf (t ++ (encoder_Close enc wr cl e').2)) = concat (map (fun w => w.1.1) l) /\
    (forall input, exists r e'' t'', encoder_WriteSample enc wr input e' = Some (r, e'', t'') /\
       (r = None -> (length (inbuf e'') < samples e)%nat)).
Proof.
  intros Hs He. destruct (writes_frames l e Hs) as (e' & t & Ew & Es & Ec & Ef). rewrite He in Ec. cbn in Ec.
  exists e', t. split_and!; try done.
  - unfold framesOf in *. rewrite omap_app, concat_app. rewrite <- Ec. f_equal. unfold encoder_Close, flush.
    destruct (inbuf e') as [|x b]; [done|]. destruct (enc 0%nat (x :: b)); cbn; by rewrite app_nil_r.
  - intros input. unfold encoder_WriteSample.
    set (e0 := {| samples := samples e'; inbuf := inbuf e' ++ input; enc_errors := enc_errors e' |}).
    destruct (encLoop_frames enc wr (S (length (inbuf e0))) 0 e0) as (r & e1 & t1 & E1 & S1 & C1 & F1 & R1);
      [cbn; by rewrite Es|lia|].
    exists r, e1, t1. split; [done|]. cbn in R1. by rewrite Es in R1.
Qed.

Lemma encoder_frames_witness :
  let ok : nat -> list Z -> list Z + error := fun _ f => inl f in
  let bad : nat -> list Z -> list Z + error := fun k f => if Nat.eqb k 1 then inr (EText "bad frame") else inl f in
  let e := {| samples := 2; inbuf := []; enc_errors := 0 |} in
  exists e' t, writes [([1; 2; 3], ok, fun _ => None); ([4; 5; 6; 7], bad, fun _ => None)] e = Some (e', t) /\
    framesOf t = [[1; 2]; [3; 4]; [5; 6]] /\ inbuf e' = [7] /\
    concat (framesOf (t ++ (encoder_Close ok (fun _ => None) None e').2)) = [1; 2; 3; 4; 5; 6; 7].
Proof.
  intros ok bad e.
  destruct (encoder_frames [([1; 2; 3], ok, fun _ => None); ([4; 5; 6; 7], bad, fun _ => None)] e None ok (fun _ => None))
    as (e' & t & E & _ & C & _); [cbn; lia|reflexivity|].
  exists e', t. split; [exact E|]. vm_compute in E. injection E as <- <-. split; [reflexivity|]. split; [reflexivity|]. exact C.
Defined.

(** ** Bad packets *)

(** Up to five bad packets in a row are passed over; the sixth and the following ones are
    errors until a packet decodes. *)
Lemma decoder_tolerates n err w d input :
  input <> [] -> 0 <= dec_errors d <= 5 ->
  let run := Nat.iter n (fun s => (decoder_WriteSample input (DecInvalid err) w s).1.2) d in
  dec_errors run = Z.min 5 (dec_errors d + Z.of_nat n) /\
  (decoder_WriteSample input (DecInvalid err) w run).1.1 = (if dec_errors d + Z.of_nat n <? 5 then None else Some err).
Proof.
  intros Hi Hd. cbv zeta. destruct input as [|b i]; [done|].
  assert (forall n, dec_errors (Nat.iter n (fun s => (decoder_WriteSample (b :: i) (DecInvalid err) w s).1.2) d) =
                    Z.min 5 (dec_errors d + Z.of_nat n)) as Hn.
  { clear n. induction n as [|n IH]; cbn [Nat.iter]; [cbn; lia|].
    change (Nat.iter (S n) ?f d) with (f (Nat.iter n f d)). cbv beta. unfold decoder_WriteSample at 1.
    rewrite IH. destruct (Z.leb_spec 5 (Z.min 5 (dec_errors d + Z.of_nat n))); cbn [fst snd]; [rewrite IH|cbn [dec_errors]]; lia. }
  split; [apply Hn|]. unfold decoder_WriteSample at 1. rewrite Hn.
  destruct (Z.leb_spec 5 (Z.min 5 (dec_errors d + Z.of_nat n))), (Z.ltb_spec (dec_errors d + Z.of_nat n) 5); cbn; (done || lia).
Qed.
