(* ===== verification/Prompts.v ===== *)
(** * Audio prompts

    The prompts of the PIN dialog: [ReadOggAudioFile] of [res/embed.go], which decodes an
    embedded file and cuts it into frames, [mediaRes] of [pkg/sip/media_file.go], which keeps
    the frames of the three prompts for all calls, and [playAudio] of [pkg/sip/inbound.go],
    which plays one of them.  The frames of a prompt are one array that every call shares,
    so the arrays are a store and a slice is a location of it.  The decoder, the resampler
    and the playing of a list of frames belong to libraries: their results are arguments
    ([reads], [resample]) or effects ([Played]). *)

From stdpp Require Import base tactics list gmap option.
From Stdlib Require Import ZArith Lia.
From S2P Require Import Prelude GoErr.

Definition SampleRate : Z := 48000.

(** ** Reading a prompt *)
Section read.
Context {F : Type}.
Variable toInt16 : F -> Z.               (* int16(v * 0x7fff) *)
Variable framesPerSec : Z.               (* msdk.DefFramesPerSec *)

Definition perFrame : nat := Z.to_nat (Z.quot SampleRate framesPerSec).

(** What a read of the decoder returns with its samples. *)
Inductive ReadErr := NoErr | EOF | ReadFailed (err : error).

(** The loop that collects the samples; [None] is a panic, or a decoder that never ends. *)
Fixpoint readSamples (reads : list (list F * ReadErr)) (samples : list Z) : option (list Z) :=
  match reads with
  | [] => None
  | (buf, err) :: l =>
      let samples := if Nat.eqb (length buf) 0 then samples else samples ++ map toInt16 buf in
      match err with
      | EOF => Some samples
      | ReadFailed _ => None
      | NoErr => readSamples l samples
      end
  end.

(** The loop that cuts them into frames, of at most [n] samples. *)
Fixpoint splitFrames (fuel n : nat) (samples : list Z) : option (list (list Z)) :=
  match samples, fuel with
  | [], _ => Some []
  | _, O => None
  | _, S fuel =>
      let cur := if Nat.ltb n (length samples) then take n samples else samples in
      cons cur <$> splitFrames fuel n (drop (length cur) samples)
  end.

(** [open]: of [NewReader]; [None] is a panic. *)
Definition ReadOggAudioFile (open : option error) (rate channels : Z) (reads : list (list F * ReadErr))
    : option (list (list Z)) :=
  match open with
  | Some _ => None
  | None =>
      if negb (rate =? SampleRate) then None
      else if negb (channels =? 1) then None
      else samples ← readSamples reads [];
           splitFrames (S (length samples)) perFrame samples
  end.
End read.

(** ** The shared prompts *)
Abbreviation frames := (list (list Z)).

Record mediaRes := { enterPin : nat; roomJoin : nat; wrongPin : nat }.

(** The arrays, by their location. *)
Abbreviation store := (gmap nat frames).

Definition alloc (fs : frames) (h : store) : nat * store :=
  let l := fresh (dom h) in (l, <[l := fs]> h).

(** [read]: [ReadOggAudioFile] of each file, which panics otherwise. *)
Definition initMediaRes (pin join wrong : frames) (h : store) : mediaRes * store :=
  let '(l1, h1) := alloc pin h in
  let '(l2, h2) := alloc join h1 in
  let '(l3, h3) := alloc wrong h2 in
  ({| enterPin := l1; roomJoin := l2; wrongPin := l3 |}, h3).

Inductive PlayEffect :=
| Played (rate : Z) (fs : frames)          (* msdk.PlayAudio on a track of that rate *)
| TrackClosed.

Section play.
Open Scope go_scope.
Abbreviation PM := (M store PlayEffect).
Variable resample : Z -> list Z -> Z -> list Z.      (* msdk.Resample(nil, dstRate, src, srcRate) *)

Definition cloneFrames (l : nat) : PM nat :=
  fun h => match h !! l with
           | Some fs => match alloc fs h with (l', h') => (l', h', []) end
           | None => (l, h, [])
           end.

(** [for i := range frames { frames[i] = ... }], on the array at [l]. *)
Fixpoint resampleLoop (rate : Z) (l : nat) (idx : list nat) : PM unit :=
  match idx with
  | [] => mreturn tt
  | i :: idx' =>
      do* mmodify (fun h => alter (fun fs => alter (fun f => resample rate f SampleRate) i fs) l h) in
      resampleLoop rate l idx'
  end.

(** [track]: the sample rate of the room's new track, if the room is not closed. *)
Definition playAudio (track : option Z) (l : nat) : PM unit :=
  match track with
  | None => mreturn tt
  | Some rate =>
      let* l := (if negb (rate =? SampleRate) then
                   let* l' := cloneFrames l in
                   let* h := mget in
                   do* resampleLoop rate l' (seq 0 (length (default [] (h !! l')))) in
                   mreturn l'
                 else mreturn l) in
      let* h := mget in
      do* memit (Played rate (default [] (h !! l))) in
      memit TrackClosed
  end.

(** Prompts that are played one after the other, by any calls. *)
Fixpoint playAll (l : list (option Z * nat)) : PM unit :=
  match l with [] => mreturn tt | (track, loc) :: l' => do* playAudio track loc in playAll l' end.
End play.

(** ** Theorems *)

(** Frames of [n] samples, the last one shorter if the samples do not fill it. *)
Definition cutInto (n : nat) (fs : frames) : Prop :=
  Forall (fun f => length f = n) (removelast fs) /\ Forall (fun f => (0 < length f <= n)%nat) fs.

Lemma splitFrames_spec n fuel samples : (0 < n)%nat -> (length samples < fuel)%nat ->
  exists fs, splitFrames fuel n samples = Some fs /\ concat fs = samples /\ cutInto n fs.
Proof.
  intros Hn. revert samples. induction fuel as [|fuel IH]; intros samples Hf; [lia|].
  destruct samples as [|x samples]; [by exists []|]. cbn [splitFrames]. set (all := x :: samples) in *.
  destruct (Nat.ltb_spec n (length all)) as [Hl|Hl].
  - rewrite length_take_le by lia.
    destruct (IH (drop n all)) as (fs & -> & E & C1 & C2); [rewrite length_drop; lia|].
    exists (take n all :: fs). cbn [fmap option_fmap option_map concat]. rewrite E, take_drop. split_and!; [done..|].
    assert (length (take n all) = n) as El by (rewrite length_take; lia).
    split; [|constructor; [lia|done]]. destruct fs; [constructor | by constructor].
  - rewrite drop_ge by lia. exists [all]. split; [by destruct fuel|]. split; [by cbn; rewrite app_nil_r|].
    split; [constructor | constructor; [cbn in *; lia | constructor]].
Qed.

Lemma readSamples_spec {F} (toInt16 : F -> Z) before buf rest acc :
  Forall (fun r => snd r = NoErr) before ->
  readSamples toInt16 (before ++ (buf, EOF) :: rest) acc = Some (acc ++ map toInt16 (concat (map fst before) ++ buf)).
Proof.
  intros Hb. revert acc. assert (forall b acc, (if Nat.eqb (length b) 0 then acc else acc ++ map toInt16 b) = acc ++ map toInt16 b) as Hif.
  { intros [|? ?] acc; cbn; [by rewrite app_nil_r | done]. }
  induction Hb as [|[b err] before Hr _ IH]; intros acc; cbn; rewrite Hif; [done|].
  cbn in Hr. subst err. rewrite IH. by rewrite <- app_assoc, <- map_app, <- app_assoc.
Qed.

(** A prompt that can be decoded is its samples, cut into frames of 20 ms (of the frame
    length of the SDK): no sample is lost or added, whatever pieces the decoder returns,
    every frame but the last is full and none is empty. *)
Theorem ReadOggAudioFile_frames {F} (toInt16 : F -> Z) perSec before buf rest :
  0 < perSec <= SampleRate -> Forall (fun r => snd r = NoErr) before ->
  exists fs, ReadOggAudioFile toInt16 perSec None SampleRate 1 (before ++ (buf, EOF) :: rest) = Some fs /\
    concat fs = map toInt16 (concat (map fst before) ++ buf) /\ cutInto (perFrame perSec) fs.
Proof.
  intros Hp Hb. unfold ReadOggAudioFile. rewrite Z.eqb_refl. cbn [negb Z.eqb Pos.eqb].
  rewrite readSamples_spec by done. cbn [mbind option_bind app].
  destruct (splitFrames_spec (perFrame perSec) (S (length (map toInt16 (concat (map fst before) ++ buf))))
              (map toInt16 (concat (map fst before) ++ buf))) as (fs & E & Hc & Hi).
  - unfold perFrame. enough (1 <= SampleRate ÷ perSec) by lia. apply Z.quot_le_lower_bound; lia.
  - lia.
  - exists fs. by split_and!.
Qed.

Section shared.
Variable resample : Z -> list Z -> Z -> list Z.

Lemma alter_seq {A} (f : A -> A) n : forall a (l : list A) j,
  foldl (fun l i => alter f i l) l (seq a n) !! j =
  (if bool_decide (a <= j < a + n)%nat then f <$> l !! j else l !! j).
Proof.
  induction n as [|n IH]; intros a l j; cbn [seq foldl].
  { case_bool_decide; [lia | done]. }
  rewrite IH. destruct (decide (a = j)) as [->|Hj].
  - rewrite list_lookup_alter_eq. repeat case_bool_decide; try lia; done.
  - rewrite list_lookup_alter_ne by done. repeat case_bool_decide; try lia; done.
Qed.

Lemma alter_all {A} (f : A -> A) (l : list A) : foldl (fun l i => alter f i l) l (seq 0 (length l)) = map f l.
Proof.
  apply list_eq. intros j. rewrite alter_seq. change (map f l) with (f <$> l). rewrite list_lookup_fmap.
  case_bool_decide as Hj; [done|]. rewrite lookup_ge_None_2 by lia. done.
Qed.

Lemma resampleLoop_run rate l idx : forall h,
  resampleLoop resample rate l idx h =
  (tt, alter (fun fs => foldl (fun fs i => alter (fun f => resample rate f SampleRate) i fs) fs idx) l h, []).
Proof.
  induction idx as [|i idx IH]; intros h; cbn [resampleLoop foldl].
  - unfold mreturn. f_equal. f_equal. symmetry. apply map_eq. intros j. destruct (decide (l = j)) as [<-|]; [rewrite lookup_alter_eq; by destruct (h !! l) | by rewrite lookup_alter_ne].
  - unfold mbind', mmodify. rewrite IH. cbn. f_equal. f_equal. by rewrite alter_alter_eq.
Qed.

(** What a play of the prompt at [loc] shows to the listener. *)
Definition heard (h : store) (track : option Z) (loc : nat) : list PlayEffect :=
  match track with
  | None => []
  | Some rate =>
      let fs := default [] (h !! loc) in
      [Played rate (if rate =? SampleRate then fs else map (fun f => resample rate f SampleRate) fs); TrackClosed]
  end.

(** The arrays of [h] are as they were; others may have been added. *)
Definition untouched (h h' : store) : Prop := h ⊆ h'.

Lemma alloc_fresh fs h : h !! (alloc fs h).1 = None.
Proof. unfold alloc. cbn. apply not_elem_of_dom, is_fresh. Qed.

Lemma playAudio_run track loc h : is_Some (h !! loc) ->
  mspec (playAudio resample track loc) h (fun _ h' t => untouched h h' /\ t = heard h track loc).
Proof.
  intros [fs Hfs]. unfold playAudio, heard, untouched. destruct track as [rate|]; [|by mstep].
  destruct (Z.eqb_spec rate SampleRate) as [->|Hr]; cbn [negb].
  { repeat mstep. by rewrite Hfs. }
  rewrite Hfs. cbn [default].
  mstep. mstep. unfold mspec at 1, cloneFrames. rewrite Hfs. pose proof (alloc_fresh fs h) as Hn.
  unfold alloc in *. set (l' := fresh (dom h)) in *. cbn [fst] in Hn.
  mstep. mstep. mstep. rewrite lookup_insert_eq. cbn [default]. unfold mspec at 1. rewrite resampleLoop_run.
  repeat mstep. rewrite lookup_alter_eq, lookup_insert_eq. cbn. rewrite alter_all. split; [|done].
  apply map_subseteq_spec. intros i x Hi. rewrite lookup_alter_ne, lookup_insert_ne; [done|congruence|congruence].
Qed.

(** The prompts are shared by all calls and none of them changes one: whatever prompts are
    played, on tracks of whatever rate, the arrays stay as they were read, and every play
    shows the frames of its prompt, resampled to the rate of its track. *)
Theorem prompts_shared plays h : Forall (fun p => is_Some (h !! p.2)) plays ->
  mspec (playAll resample plays) h (fun _ h' t =>
    untouched h h' /\ t = concat (map (fun p => heard h p.1 p.2) plays)).
Proof.
  enough (forall h1, h ⊆ h1 -> Forall (fun p => is_Some (h !! p.2)) plays ->
    mspec (playAll resample plays) h1 (fun _ h' t => h ⊆ h' /\ t = concat (map (fun p => heard h p.1 p.2) plays))) as Hg.
  { intros Hp. by apply Hg. }
  induction plays as [|[track loc] plays IH]; intros h1 Hs Hp; [done|]. cbn [playAll]. mstep.
  apply list.Forall_cons in Hp as [[fs Hl] Hp]. cbn [snd] in Hl. pose proof (lookup_weaken _ _ _ _ Hl Hs) as Hl1.
  pose proof (playAudio_run track loc h1 ltac:(by eexists)) as Ha. unfold mspec in Ha |- * at 1.
  destruct (playAudio resample track loc h1) as [[? h2] t1]. destruct Ha as [Hu ->].
  specialize (IH h2 (transitivity Hs Hu) Hp). unfold mspec in *. destruct (playAll resample plays h2) as [[? h3] t2].
  destruct IH as [? ->]. split; [done|]. cbn. unfold heard. by rewrite Hl, Hl1.
Qed.
End shared.

(** ** Examples *)
Definition exPrompts : mediaRes * store := initMediaRes [[1; 2]; [3]] [[4]] [[5; 6]] ∅.

(** A resampler that keeps every sixth sample. *)
Definition exResample (dst : Z) (f : list Z) (src : Z) : list Z := take (Z.to_nat (Z.quot (Z.of_nat (length f) * dst + src - 1) src)) f.

Lemma prompts_shared_witness :
  let r := exPrompts.1 in
  trace_of (playAll exResample [(Some 8000, enterPin r); (Some 48000, enterPin r); (None, wrongPin r)] exPrompts.2) =
  [Played 8000 [[1]; [3]]; TrackClosed; Played 48000 [[1; 2]; [3]]; TrackClosed].
Proof.
  cbv zeta.
  assert (Forall (fun p => is_Some (exPrompts.2 !! p.2))
    [(Some 8000, enterPin exPrompts.1); (Some 48000, enterPin exPrompts.1); (None, wrongPin exPrompts.1)]) as Hp.
  { repeat constructor; vm_compute; by eexists. }
  pose proof (prompts_shared exResample _ _ Hp) as Hs. unfold mspec in Hs.
  destruct (playAll _ _ _) as [[u h'] t]. destruct Hs as [_ ->]. vm_compute. reflexivity.
Defined.

Lemma ReadOggAudioFile_frames_witness :
  exists fs, ReadOggAudioFile (fun x : Z => x) 24000 None SampleRate 1 [([7; 8; 9], NoErr); ([], NoErr); ([10; 11], EOF)] = Some fs /\
    concat fs = [7; 8; 9; 10; 11] /\ cutInto 2 fs.
Proof.
  apply (ReadOggAudioFile_frames (fun x => x) 24000 [([7; 8; 9], NoErr); ([], NoErr)] [10; 11] []);
    [unfold SampleRate; lia | by repeat constructor].
Defined.
